(* ===== verification/_CoqProject ===== *)
-Q . S2P
Prelude.v
PrimeTable.v
Factor.v
Timeout.v
Monad.v
IndentGlobs.v
IndentIo.v
IndentParse.v
IndentGrammar.v
IndentNumbers.v
IndentLexi.v
IndentComment.v
IndentFill.v
IndentArgs.v
IndentMain.v
IndentText.v
TiffPrint.v
TiffDump.v
EeState.v
EeEdit.v
EeText.v
EeFile.v
EeKeys.v
EeStrings.v
EeConf.v
EeMenu.v
EeFormat.v
EeKeeps.v
EeRep.v
EeMove.v
EeBlock.v
EeLink.v
EeInsert.v
EeWrap.v
EeDelete.v
EeDemo.v
EeUndo.v
EeWalk.v
EePage.v
EeSearch.v
EeParagraph.v
EeLoad.v
EeScreen.v
EeSession.v
CurseTerm.v
CurseInfo.v
CurseKeys.v
CurseWindow.v
CurseScreen.v
CurseUpdate.v
CurseDisplay.v
CurseShow.v
CurseRefresh.v
