(* ===== verification/Prelude.v ===== *)
(** * apple-core: verification of the programs of src/bsd_additions and mk/compat

    The repository packages the Darwin base system.  The C code of its own are four
    programs under src/src/bsd_additions (factor, timeout, indent, ee) and the tiffdump
    of src/mk/compat/libtiff; the headers under src/include are declarations of
    foreign interfaces.  The programs share no state with each other; inside a
    program the parts call each other through globals, and the models do the same
    through one state.  Paths below are relative to src/.

    ** How code is modelled

    - An integer is a [Z]; wrap-around, conversions and limits are written out
      ([u8] ... [u64], [sint], the range checks of the sources).  A [char] is its
      code, a C string its bytes without the NUL.
    - An array or allocated block is a list; [aget] and [aset] are [None] outside it,
      and that is undefined behaviour of the program ([SUndef] in Monad.v, [None] or
      an outcome of its own where a program has no shared state).
    - Globals are a record; a function with effects is a function from the state to an
      outcome: a value and a state, exit with a status, or undefined behaviour
      (Monad.v, with the weakest preconditions [wp] used by the proofs).  An outcome
      of undefined behaviour satisfies no postcondition, so a [wp] says that the code
      ends, and how.
    - A loop that is not structural has fuel ([while_] and the loops of each file);
      running out of it is undefined behaviour, so a theorem on the outcome also
      says that the bound is enough.  Bounds: one round per byte of the input left
      (indent, factor's standard input), one per stack entry (reduce), the length of
      the file plus 2 (chains of tiff directories), the number of nodes of the heap
      (walks over the lines in ee), one per byte of a line (loops inside a line),
      3 (scanline and midscreen calling each other), the places of a line's block and the
      lines of a window (new_curse).
    - Code that is not in the repository is an argument: strtod and the signal names
      (timeout), the constants of tiff.h, the byte-swapping routines and the allocator
      (tiffdump), the results of read(2) (ee), what malloc leaves in a byte ([junk]), the message
      catalogue and getenv (ee), the terminal (new_curse).

    ** Files

    Prelude.v (this file): bytes, machine integers, arrays, ctype.h, numbers in a
    base, field update, the tactics and hints.  Monad.v: the state monad.

    factor (bsd_additions/factor).  PrimeTable.v: pr_tbl.c, the table of primes, and
    that it is exactly the primes up to 65537 in order.  Factor.v: factor.c as built
    without OpenSSL: the conversions, pr_fact, main.  Up to SIEVEMAX pr_fact prints the
    prime factorisation; the values on which it reads past the table are
    characterised; main over arguments and standard input; round trips and
    rejections of the number formats.

    timeout (bsd_additions/timeout/timeout.c).  Timeout.v: options, durations, signal
    names, the handler, and the loop of main as a step on the signals delivered to
    sigsuspend and the answers of waitpid.  The signals sent in any run, the outcome
    of an alarm with and without --foreground, the exit status.

    indent (bsd_additions/indent).  IndentGlobs.v: the structures of indent_globs.h and
    the token codes.  IndentIo.v: io.c (dump_line, fill_buffer, pad_output, ...).
    IndentParse.v: parse.c on its three arrays, and that it refines a parser on a list
    of entries.  IndentGrammar.v: every complete statement leaves the parser as it was.
    IndentNumbers.v: the state table of the number scanner and the language it
    accepts.  IndentLexi.v: lexi.c; lexi returns, the table of type names stays sorted.
    IndentComment.v: pr_comment.c, with the comment buffer as memory.  IndentFill.v: a
    comment that is filled is processed to its end inside the buffer, and its text is
    kept; examples of what happens to boxed comments, without stars and when the buffer
    grows after the opening delimiter was put on its own line.
    IndentArgs.v: args.c, options and profiles.  IndentMain.v: indent.c, the loop of main
    over the tokens with the statements it looks ahead for, the directives, and the end.
    IndentText.v: a token keeps its text whatever it does to the line ([process_keeps_text],
    for a state where the parser's stack has room, no comment waits on the line and the
    header being read is not that of a switch), with runs of the whole program.

    tiffdump (mk/compat/libtiff/tiffdump.c).  TiffPrint.v: the output formats.
    TiffDump.v: directories, byte order, main.  Every run ends inside its memory; a
    well-formed directory is printed entry by entry, in both byte orders and in both
    formats.

    ee (bsd_additions/ee/ee.c), the editor:
    - EeState.v: struct text as nodes of a heap with their blocks, the globals.
      EeEdit.v: the moves and the window.  EeText.v: insertion, deletion, undeletion,
      search.  EeFile.v: get_file, get_line, write_file, goto_line.  EeKeys.v: the
      main loop and the two tables of control keys.
    - EeRep.v: the document (lines and a cursor) a state holds, [Rep].  EeMove.v,
      EeBlock.v, EeLink.v, EeInsert.v, EeDelete.v: each operation of the linked list of
      blocks does to the document what it should.  EeWrap.v: insert with the right
      margin, which breaks the line at the start of a word that fits.  EeWalk.v and
      EePage.v: the moves by words, lines and pages.  EeDemo.v: concrete states.
    - EeUndo.v: the undelete commands put back what the delete commands took.
      EeSearch.v: search goes to the first occurrence after the cursor.
      EeLoad.v: a file read in 512-byte chunks and written is unchanged.
      EeScreen.v: the cursor stays in the window, drawing stays in the lines.
      EeSession.v: any sequence of editing keys runs without undefined behaviour and
      does what its commands do to a document, and so does a whole session from
      reading a file to writing it, from the settings main starts with.
    - EeStrings.v: string comparison, prompts, file names with variables.  EeConf.v: the
      command names, the initialisation files, saving the settings, the command line;
      what is saved is what is read back.  EeMenu.v: the menus of the program and the
      modes menu; the cursor of a menu is on its item.  EeKeeps.v: what the editing
      commands leave alone.  EeFormat.v and EeParagraph.v: paragraph formatting, which
      keeps the words.
    Assumed of the states in [Rep]: a window of at least eight columns and ee_chinese
    off.  The session theorems take the automatic formatter off (auto_format, which is
    off at the start) and a right margin that is not negative when margins are
    observed; search takes lines that are terminated in their blocks, which the block
    main allocates for the first line is not.  Where the column after moving up or down,
    or the number of spaces for a tab, depends on the widths of the screen columns, the
    session says that there is one, not which; a typed character may break the line, at
    a word start where what stays fits the margin.

    new_curse (bsd_additions/ee/new_curse.c), the screen library of ee, as configured here
    (NCURSE, without SYS5, BSD_SELECT and CAP):
    - CurseTerm.v: Operation and Info_Out, the interpreter of parameterised terminfo
      strings, and that it prints what a template means.  CurseInfo.v: INFO_PARSE, the
      reader of compiled entries.  CurseKeys.v: Key_Get, wgetch and Get_key: keys are
      recognised, other sequences are given back.
    - CurseWindow.v: windows on linked lines with their blocks, and every operation on
      them.  CurseScreen.v: what a window shows, a screen of cells ([shows]), and that any
      sequence of operations does to the screen what it should ([window_refines]).
    - CurseUpdate.v: wnoutrefresh and doupdate with the scrolling and the insertion and
      deletion of characters.  CurseDisplay.v: the class [Display], what a terminal is
      expected to do with the strings of its description, with a terminal of ANSI
      sequences as an instance.  CurseShow.v: on a terminal that does not insert, delete
      or scroll, doupdate makes the display what the virtual screen has.  CurseRefresh.v:
      wnoutrefresh copies a window of the full width to its place on the virtual screen,
      so that wrefresh shows it on the terminal.
    Windows of the proofs are as newwin makes them and wmove keeps them (cursor inside);
    a backspace at the left edge leaves the window, so it is excluded.

    ** Not modelled

    ee: help and the shell, spelling and the command prompt, which are screens of text and
    subprocesses; of goto_line, the line numbers and Auto_Format the definitions are here
    and no theorems.  new_curse: initscr, endwin and the modes of the tty, which are
    ioctl calls; that scrolling and character insertion keep the display right is not
    proved (Delete_line puts the line at the wrong place when it scrolls to the last line of
    the screen).  indent: the scan of the command line in main and bakcopy, which open
    and rename files; of the directives and the saved comments the definitions are here and
    examples, no theorems.  The OpenSSL branches of factor.c are not compiled in this
    repository.  fskit_stub.c only returns ENOTSUP.
*)

From stdpp Require Import base list strings numbers.
From Stdlib Require Import ZArith Lia SpecFloat.
From Stdlib Require Import Ascii.
From Stdlib Require String.
Export Ascii.AsciiSyntax.
Export String.StringSyntax.

#[global] Set Warnings "-notation-overridden".

Open Scope Z_scope.

(** ** Bytes and C strings

    A [char] is kept as its code, a [Z] in [0, 255]; a C string is the list of
    its bytes without the terminating NUL, and reading one past the end of it
    gives that NUL ([hd0]). *)

Abbreviation bytes := (list Z).

Definition ch (c : ascii) : Z := Z.of_N (N_of_ascii c).
Arguments ch _%_char_scope.

Fixpoint bs (s : string) : bytes :=
  match s with
  | EmptyString => []
  | String c s => ch c :: bs s
  end.
Arguments bs _%_string_scope.

(** [*p] for a pointer into a NUL-terminated string. *)
Definition hd0 (s : bytes) : Z :=
  match s with
  | [] => 0
  | c :: _ => c
  end.

(** ** Machine integers *)

Definition u8 (z : Z) : Z := z mod 2 ^ 8.
Definition u16 (z : Z) : Z := z mod 2 ^ 16.
Definition u32 (z : Z) : Z := z mod 2 ^ 32.
Definition u64 (z : Z) : Z := z mod 2 ^ 64.

(** Conversion to a signed type of width [w] (two's complement). *)
Definition sint (w z : Z) : Z :=
  let r := z mod 2 ^ w in if r <? 2 ^ (w - 1) then r else r - 2 ^ w.

Definition ULONG_MAX : Z := 2 ^ 64 - 1.

(** Truncation of a floating-point number towards zero, as in a conversion to
    an integer type; [None] for an infinity or a NaN, whose conversion is
    undefined. *)
Definition sf_trunc (x : spec_float) : option Z :=
  match x with
  | S754_zero _ => Some 0
  | S754_finite s m e =>
      let a := if 0 <=? e then Zpos m * 2 ^ e else Zpos m / 2 ^ (- e) in
      Some (if s then - a else a)
  | _ => None
  end.

(** C division and remainder of signed integers truncate towards zero. *)
Definition cdiv (a b : Z) : Z := Z.quot a b.
Definition cmod (a b : Z) : Z := Z.rem a b.

(** ** Arrays

    Element access of a C array: [None] outside the object. *)

Definition aget {A} (l : list A) (i : Z) : option A :=
  if i <? 0 then None else l !! Z.to_nat i.

Definition aset {A} (l : list A) (i : Z) (v : A) : option (list A) :=
  if (0 <=? i) && (i <? Z.of_nat (length l)) then Some (<[Z.to_nat i := v]> l) else None.

(** ** Field update

    [r <| f := v |>] is the record [r] with field [f] replaced. *)

Class Setter {R T : Type} (get : R -> T) := set_field : (T -> T) -> R -> R.
Arguments set_field {R T} get {_} f r /.

Notation "r <| f ::= g |>" := (set_field f g r)
  (at level 12, f at level 200, g at level 200, left associativity).
Notation "r <| f := v |>" := (set_field f (fun _ => v) r)
  (at level 12, f at level 200, v at level 200, left associativity).

(** ** ctype.h in the C locale *)

Definition isdigit (c : Z) : bool := (48 <=? c) && (c <=? 57).
Definition isupper (c : Z) : bool := (65 <=? c) && (c <=? 90).
Definition islower (c : Z) : bool := (97 <=? c) && (c <=? 122).
Definition isalpha (c : Z) : bool := isupper c || islower c.
Definition isalnum (c : Z) : bool := isalpha c || isdigit c.
Definition isblank (c : Z) : bool := (c =? 32) || (c =? 9).
Definition isspace (c : Z) : bool := (c =? 32) || ((9 <=? c) && (c <=? 13)).
Definition isprint (c : Z) : bool := (32 <=? c) && (c <=? 126).
Definition tolower (c : Z) : Z := if isupper c then c + 32 else c.
Definition toupper (c : Z) : Z := if islower c then c - 32 else c.

(** ** Numbers in a base *)

(** The character of a digit below 16, lower case as [%x] prints it. *)
Definition digit_char (d : Z) : Z := if d <? 10 then 48 + d else 87 + d.

(** The value of a digit character in any base up to 36, [None] for the other
    characters. *)
Definition digit_val (c : Z) : option Z :=
  if isdigit c then Some (c - 48)
  else if isupper c then Some (c - 55)
  else if islower c then Some (c - 87)
  else None.

Definition is_base_digit (b c : Z) : bool :=
  match digit_val c with
  | Some d => d <? b
  | None => false
  end.

Fixpoint digits_aux (fuel : nat) (b n : Z) (acc : bytes) : bytes :=
  match fuel with
  | O => acc
  | S f =>
      let acc := digit_char (n mod b) :: acc in
      if n / b =? 0 then acc else digits_aux f b (n / b) acc
  end.

(** [%lu] and [%lx]: the digits of an unsigned 64-bit value in base [b], most
    significant first; 64 digits are enough in any base. *)
Definition print_base (b n : Z) : bytes := digits_aux 64 b n [].

(** [%d] *)
Definition fmt_d (z : Z) : bytes := if z <? 0 then 45 :: print_base 10 (- z) else print_base 10 z.

(** The longest prefix of [s] whose characters satisfy [f], and the rest. *)
Fixpoint span (f : Z -> bool) (s : bytes) : bytes * bytes :=
  match s with
  | [] => ([], [])
  | c :: s' =>
      if f c then let (a, b) := span f s' in (c :: a, b) else ([], s)
  end.

(** The number a digit string stands for. *)
Definition num_of_digits (b : Z) (s : bytes) : Z :=
  fold_left (fun acc c => acc * b + match digit_val c with Some d => d | None => 0 end) s 0.

(** atoi: blanks, a sign, digits; undefined when the number is no int. *)
Definition atoi_line (s : bytes) : option Z :=
  let s := (span isspace s).2 in
  let '(neg, s) := if hd0 s =? 45 then (true, tail s) else if hd0 s =? 43 then (false, tail s) else (false, s) in
  let n := num_of_digits 10 (span isdigit s).1 in
  let n := if (neg : bool) then - n else n in
  if (- 2 ^ 31 <=? n) && (n <? 2 ^ 31) then Some n else None.

(** ** strtoul(3) as Darwin's libc implements it

    White space, one sign, for base 16 an optional [0x] that a hexadecimal
    digit follows, then the longest run of digits.  No digit at all sets
    [errno] to [EINVAL], a value above [ULONG_MAX] saturates with [ERANGE], and
    a minus sign negates modulo [2^64]. *)

Inductive errno_t := ENONE | EINVAL | ERANGE.

#[export] Instance errno_eq_dec : EqDecision errno_t.
Proof. solve_decision. Defined.

Definition errno_is0 (e : errno_t) : bool :=
  match e with
  | ENONE => true
  | _ => false
  end.

Definition skip_prefix_0x (base : Z) (s : bytes) : bytes :=
  match s with
  | c0 :: x :: d :: _ =>
      if (base =? 16) && (c0 =? 48) && ((x =? 120) || (x =? 88)) && is_base_digit 16 d
      then drop 2 s else s
  | _ => s
  end.

Definition strtoul (base : Z) (s : bytes) : Z * errno_t * bytes :=
  let s1 := snd (span isspace s) in
  let neg := hd0 s1 =? 45 in
  let s2 := if (hd0 s1 =? 45) || (hd0 s1 =? 43) then tail s1 else s1 in
  let s3 := skip_prefix_0x base s2 in
  let (ds, rest) := span (is_base_digit base) s3 in
  match ds with
  | [] => (0, EINVAL, s)
  | _ =>
      let v := num_of_digits base ds in
      if ULONG_MAX <? v then (ULONG_MAX, ERANGE, rest)
      else (if neg then u64 (- v) else v, ENONE, rest)
  end.

(** ** Output and process exit

    A piece of a program yields what it wrote to standard output and either a
    value, the termination of the process with a status and a diagnostic on
    standard error, or undefined behaviour (an access outside an object). *)

Inductive res (A : Type) :=
| Ret (a : A)
| Exit (code : Z) (msg : bytes)
| Undef.
Arguments Ret {A} a.
Arguments Exit {A} code msg.
Arguments Undef {A}.

Abbreviation io A := (bytes * res A)%type.

Definition ioret {A} (a : A) : io A := ([], Ret a).
Definition put (b : bytes) : io () := (b, Ret tt).
Definition exit_ {A} (code : Z) (msg : bytes) : io A := ([], Exit code msg).
Definition undef {A} : io A := ([], Undef).

Definition iobind {A B} (m : io A) (f : A -> io B) : io B :=
  match m with
  | (o, Ret a) => let (o', r) := f a in (o ++ o', r)
  | (o, Exit c e) => (o, Exit c e)
  | (o, Undef) => (o, Undef)
  end.

Declare Scope io_scope.
Delimit Scope io_scope with io.
Notation "'let*' x ':=' m 'in' k" := (iobind m (fun x => k))
  (at level 10, x pattern, m at level 200, k at level 200) : io_scope.
Notation "m ;; k" := (iobind m (fun _ => k))
  (at level 100, k at level 200, right associativity) : io_scope.

(** * Generic lemmas *)

Create HintDb cbool.

(** Turn the boolean tests of the code into propositions. *)
Ltac bsimp :=
  repeat match goal with
    | H : _ && _ = true |- _ => apply andb_true_iff in H; destruct H
    | H : _ || _ = false |- _ => apply orb_false_iff in H; destruct H
    | H : negb _ = true |- _ => apply negb_true_iff in H
    | H : negb _ = false |- _ => apply negb_false_iff in H
    | H : (_ <? _) = true |- _ => apply Z.ltb_lt in H
    | H : (_ <? _) = false |- _ => apply Z.ltb_ge in H
    | H : (_ <=? _) = true |- _ => apply Z.leb_le in H
    | H : (_ <=? _) = false |- _ => apply Z.leb_gt in H
    | H : (_ =? _) = true |- _ => apply Z.eqb_eq in H
    | H : (_ =? _) = false |- _ => apply Z.eqb_neq in H
    end.

(** Case analysis on the boolean test of an [if] of the goal or a hypothesis. *)
Ltac case_if :=
  match goal with
  | |- context [if ?b then _ else _] => destruct b eqn:?
  | H : context [if ?b then _ else _] |- _ => destruct b eqn:?
  end.

(** Field access after field updates, by an equation that holds for every record. *)
Ltac fld_eq E f R T g i :=
  lazymatch type of f with
  | R -> R => fail
  | _ => first
      [ constr_eq f g; assert (E : forall (h : T -> T) (s : R), f (@set_field R T g i h s) = h (f s)) by reflexivity
      | assert (E : forall (h : T -> T) (s : R), f (@set_field R T g i h s) = f s) by reflexivity ]
  end.
Ltac fld :=
  repeat match goal with
    | |- context [?f (@set_field ?R ?T ?g ?i ?h ?s)] =>
        let E := fresh in fld_eq E f R T g i; rewrite (E h s); clear E; cbv beta
    end.
Ltac fld_in H :=
  repeat match type of H with
    | context [?f (@set_field ?R ?T ?g ?i ?h ?s)] =>
        let E := fresh in fld_eq E f R T g i; rewrite (E h s) in H; clear E; cbv beta in H
    end.

Lemma iobind_ret_l {A B} (a : A) (f : A -> io B) : iobind (ioret a) f = f a.
Proof. cbn. by destruct (f a). Qed.

Lemma iobind_put {B} (o : bytes) (f : () -> io B) :
  iobind (put o) f = (o ++ (f tt).1, (f tt).2).
Proof. cbn. by destruct (f tt). Qed.

Lemma iobind_assoc {A B C} (m : io A) (f : A -> io B) (g : B -> io C) :
  iobind (iobind m f) g = iobind m (fun a => iobind (f a) g).
Proof.
  destruct m as [o [a|c e|]]; cbn; [|done|done].
  destruct (f a) as [o1 [b|c e|]]; cbn; [|done|done].
  destruct (g b) as [o2 r]. by rewrite app_assoc.
Qed.

Lemma span_app f s a b : span f s = (a, b) -> s = a ++ b.
Proof.
  revert a b; induction s as [|c s IH]; intros a b; cbn; [intros [= <- <-]; done|].
  destruct (f c); [|intros [= <- <-]; done].
  destruct (span f s) as [a' b'] eqn:E. intros [= <- <-]. by rewrite (IH a' b').
Qed.

Lemma span_all f a b :
  forallb f a = true -> (b = [] \/ f (hd0 b) = false) -> span f (a ++ b) = (a, b).
Proof.
  intros Ha Hb. induction a as [|c a IH]; cbn in *.
  - destruct b as [|c b]; [done|]. destruct Hb as [Hb|Hb]; [done|]. cbn in *. by rewrite Hb.
  - apply andb_true_iff in Ha as [-> Ha]. by rewrite IH.
Qed.

Lemma span_all_nil f a : forallb f a = true -> span f a = (a, []).
Proof. intros Ha. rewrite <- (app_nil_r a) at 1. apply span_all; auto. Qed.

Lemma div_lt_pow b n k : 2 <= b -> 0 <= n < 2 ^ Z.of_nat (S k) -> 0 <= n / b < 2 ^ Z.of_nat k.
Proof.
  intros Hb Hn. split; [apply Z.div_pos; lia|].
  apply Z.div_lt_upper_bound; [lia|].
  rewrite Nat2Z.inj_succ, Z.pow_succ_r in Hn by lia. nia.
Qed.

Lemma digit_val_char d : 0 <= d < 16 -> digit_val (digit_char d) = Some d.
Proof.
  intros Hd. unfold digit_char, digit_val, isdigit, isupper, islower.
  destruct (d <? 10) eqn:E; bsimp.
  - replace (48 <=? 48 + d) with true by lia. replace (48 + d <=? 57) with true by lia.
    cbn. f_equal; lia.
  - replace (87 + d <=? 57) with false by lia. rewrite andb_false_r.
    replace (87 + d <=? 90) with false by lia. rewrite andb_false_r.
    replace (97 <=? 87 + d) with true by lia. replace (87 + d <=? 122) with true by lia.
    cbn. f_equal; lia.
Qed.

Lemma digit_char_in_base b d : 0 <= d < b -> b <= 16 -> is_base_digit b (digit_char d) = true.
Proof. intros. unfold is_base_digit. rewrite digit_val_char by lia. lia. Qed.

Lemma digit_char_nonzero d : 0 < d < 16 -> digit_char d <> 48.
Proof. unfold digit_char. destruct (d <? 10) eqn:?; lia. Qed.

(** What printing accumulates is the digits of [n], with a non-zero digit in
    front unless [n] is zero. *)
Lemma digits_aux_spec fuel b n acc :
  2 <= b <= 16 -> 0 <= n < 2 ^ Z.of_nat (S fuel) ->
  exists ds, digits_aux (S fuel) b n acc = ds ++ acc /\ ds <> [] /\
    forallb (is_base_digit b) ds = true /\ num_of_digits b ds = n /\
    (0 < n -> hd0 ds <> 48).
Proof.
  revert n acc; induction fuel as [|fuel IH]; intros n acc Hb Hn.
  - assert (Hn2 : n = 0 \/ n = 1) by (change (2 ^ Z.of_nat 1) with 2 in Hn; lia).
    exists [digit_char n]. cbn [digits_aux].
    rewrite Z.mod_small, Z.div_small by lia. cbn -[digit_char digit_val is_base_digit].
    rewrite digit_char_in_base by lia. unfold num_of_digits; cbn -[digit_char digit_val].
    rewrite digit_val_char by lia. repeat split; auto.
    intros; apply digit_char_nonzero; lia.
  - assert (Hm : 0 <= n mod b < b) by (apply Z.mod_pos_bound; lia).
    assert (Hd : 0 <= n / b < 2 ^ Z.of_nat (S fuel)) by (apply div_lt_pow; lia).
    assert (En : n = b * (n / b) + n mod b) by (apply Z.div_mod; lia).
    remember (S fuel) as f eqn:Ef. cbn [digits_aux].
    destruct (n / b =? 0) eqn:E; bsimp.
    + exists [digit_char (n mod b)]. cbn -[digit_char digit_val is_base_digit].
      rewrite digit_char_in_base by lia. unfold num_of_digits; cbn -[digit_char digit_val].
      rewrite digit_val_char by lia. repeat split; auto; [lia|].
      intros; apply digit_char_nonzero; lia.
    + subst f. destruct (IH (n / b) (digit_char (n mod b) :: acc) Hb Hd)
        as (ds & -> & Hne & Hall & Hnum & Hhd).
      exists (ds ++ [digit_char (n mod b)]).
      rewrite <- app_assoc. split; [done|]. split; [by destruct ds|].
      rewrite forallb_app, Hall. cbn -[digit_char is_base_digit].
      rewrite digit_char_in_base by lia. split; [done|]. split.
      * unfold num_of_digits in *. rewrite fold_left_app, Hnum.
        cbn -[digit_char digit_val]. rewrite digit_val_char by lia. lia.
      * intros _. destruct ds; [done|]. cbn in *. apply Hhd. lia.
Qed.

Lemma print_base_spec b n :
  2 <= b <= 16 -> 0 <= n <= ULONG_MAX ->
  print_base b n <> [] /\ forallb (is_base_digit b) (print_base b n) = true /\
  num_of_digits b (print_base b n) = n /\ (0 < n -> hd0 (print_base b n) <> 48).
Proof.
  intros Hb Hn. unfold print_base.
  destruct (digits_aux_spec 63 b n [] Hb) as (ds & -> & ?); [unfold ULONG_MAX in *; lia|].
  by rewrite app_nil_r.
Qed.

Lemma sint_small w z : 0 < w -> 0 <= z < 2 ^ (w - 1) -> sint w z = z.
Proof.
  intros Hw Hz. assert (2 ^ w = 2 * 2 ^ (w - 1)) by (rewrite <- Z.pow_succ_r by lia; f_equal; lia).
  unfold sint. rewrite Z.mod_small by lia. by replace (z <? 2 ^ (w - 1)) with true by lia.
Qed.

(** ** Array access *)

Lemma aget_in {A} (l : list A) i : 0 <= i < Z.of_nat (length l) -> exists v, aget l i = Some v.
Proof.
  intros Hi. unfold aget. replace (i <? 0) with false by lia.
  destruct (lookup_lt_is_Some_2 l (Z.to_nat i)) as [v Hv]; [lia|eauto].
Qed.

Lemma aget_range {A} (l : list A) i v : aget l i = Some v -> 0 <= i < Z.of_nat (length l).
Proof.
  unfold aget. destruct (i <? 0) eqn:E; [done|]. bsimp. intros H.
  apply lookup_lt_Some in H. lia.
Qed.

Lemma aset_in {A} (l : list A) i v :
  0 <= i < Z.of_nat (length l) -> aset l i v = Some (<[Z.to_nat i := v]> l).
Proof. intros. unfold aset. by replace ((0 <=? i) && (i <? Z.of_nat (length l))) with true by lia. Qed.

Lemma aset_Some {A} (l l' : list A) i v :
  aset l i v = Some l' -> 0 <= i < Z.of_nat (length l) /\ l' = <[Z.to_nat i := v]> l.
Proof. unfold aset. destruct (_ && _) eqn:E; [|done]. intros [= <-]. bsimp. split; [lia|done]. Qed.

(** ** strtoul on digit strings *)

Lemma base_digit_range b c :
  b <= 16 -> is_base_digit b c = true -> 48 <= c <= 57 \/ 65 <= c <= 70 \/ 97 <= c <= 102.
Proof.
  intros Hb. unfold is_base_digit, digit_val, isdigit, isupper, islower.
  repeat (case_if; bsimp; try lia; try done).
Qed.

Lemma base10_isdigit c : is_base_digit 10 c = true -> isdigit c = true.
Proof.
  unfold is_base_digit, digit_val, isdigit, isupper, islower.
  repeat (case_if; bsimp; try lia; try done).
Qed.

Lemma skip_prefix_digits b s :
  b <= 16 -> forallb (is_base_digit b) s = true -> skip_prefix_0x b s = s.
Proof.
  intros Hb Hs. destruct s as [|c [|x [|d s]]]; try done. cbn in Hs. bsimp.
  apply base_digit_range in H0; [|done]. unfold skip_prefix_0x.
  replace ((x =? 120) || (x =? 88)) with false by lia. by rewrite andb_false_r.
Qed.

(** On a string of digits strtoul reads all of it. *)
Lemma strtoul_digits b s :
  b <= 16 -> s <> [] -> forallb (is_base_digit b) s = true ->
  strtoul b s =
    if ULONG_MAX <? num_of_digits b s then (ULONG_MAX, ERANGE, [])
    else (num_of_digits b s, ENONE, []).
Proof.
  intros Hb Hne Hs. unfold strtoul. destruct s as [|c s]; [done|].
  assert (Hc : is_base_digit b c = true) by (cbn in Hs; by bsimp).
  apply base_digit_range in Hc; [|done]. cbn [span]. unfold isspace.
  replace ((c =? 32) || ((9 <=? c) && (c <=? 13))) with false by lia. cbn [snd hd0].
  replace (c =? 45) with false by lia. replace (c =? 43) with false by lia. cbn [orb].
  rewrite skip_prefix_digits, span_all_nil by done. done.
Qed.
