(* ===== verification/Factor.v ===== *)
(** * factor(6): src/bsd_additions/factor/factor.c

    The build defines no HAVE_OPENSSL, so a BIGNUM is a 64-bit unsigned
    integer and the functions below model that branch of the file.  A pointer
    into the constant array [prime] is the part of the array from there on:
    [fact > pr_limit] is then [fact = []], and reading through it in that
    position is undefined behaviour.

    Main results: for values up to SIEVEMAX the program prints the prime
    factorisation in ascending order; the read past the end of the table is
    characterised exactly; string conversion is inverse to printing. *)

From S2P Require Import Prelude PrimeTable.
From stdpp Require Import base list numbers sets.
From Stdlib Require Import ZArith Lia Znumtheory Sorted.

Open Scope Z_scope.

Module Factor.

Local Open Scope io_scope.

(** ** The BIGNUM functions of the build without OpenSSL *)

Definition BN_is_zero (v : Z) : bool := v =? 0.
Definition BN_is_one (v : Z) : bool := v =? 1.
Definition BN_mod_word (a b : Z) : Z := a mod b.

(** The new value of [*a] and the remainder. *)
Definition BN_div_word (a b : Z) : Z * Z := (a / b, a mod b).

Definition BN_print_fp (num : Z) : io () := put (print_base 16 num).
Definition BN_print_dec_fp (num : Z) : io () := put (print_base 10 num).

(** The return value is [errno == 0]; the value is stored in any case. *)
Definition BN_dec2bn (str : bytes) : Z * bool :=
  match strtoul 10 str with
  | (v, e, _) => (v, errno_is0 e)
  end.

Definition BN_hex2bn (str : bytes) : Z * bool :=
  match strtoul 16 str with
  | (v, e, _) => (v, errno_is0 e)
  end.

(** ** String conversion *)

Fixpoint is_hex_str_loop (p : bytes) (saw_hex : bool) : bool :=
  match p with
  | [] => saw_hex
  | c0 :: p' =>
      if isdigit c0 then is_hex_str_loop p' saw_hex
      else
        let c := tolower c0 in
        if (97 <=? c) && (c <=? 102) then is_hex_str_loop p' true
        else saw_hex
  end.

Definition is_hex_str (str : bytes) : bool := is_hex_str_loop str false.

Definition convert_str2bn (p : bytes) : io Z :=
  let p := if hd0 p =? 43 then tail p else p in
  if hd0 p =? 45 then exit_ 1 (bs "negative numbers aren't permitted.")
  else
    let '(val, n, p) :=
      if hd0 p =? 48 then
        let p := tail p in
        if (hd0 p =? 120) || (hd0 p =? 88) then
          let p := tail p in
          let (v, ok) := BN_hex2bn p in (v, ok, p)
        else (0, false, p)
      else
        let (v, ok) := if is_hex_str p then BN_hex2bn p else BN_dec2bn p in (v, ok, p) in
    if n then ioret val
    else exit_ 1 (p ++ bs ": illegal numeric format.").

(** ** Printing the factors *)

Definition pr_print (hflag : bool) (val : Z) : io () :=
  if hflag then put (bs " 0x") ;; BN_print_fp val
  else put (bs " ") ;; BN_print_dec_fp val.

(** [printf(hflag ? " 0x%" PRIx64 : " %" PRIu64, *fact)]. *)
Definition pr_fact_word (hflag : bool) (p : Z) : io () :=
  if hflag then put (bs " 0x" ++ print_base 16 p) else put (bs " " ++ print_base 10 p).

(** The rest of the inner search once the element under [fact] has been read:
    [if (val % *fact == 0) break; } while (++fact <= pr_limit)]. *)
Fixpoint find_factor (val : Z) (fact : list Z) : list Z :=
  match fact with
  | [] => []
  | p :: fact' => if BN_mod_word val p =? 0 then fact else find_factor val fact'
  end.

(** [do { print; val /= *fact } while (val % *fact == 0)].  A 64-bit value can
    be halved at most 63 times before it is 1, so 64 rounds are enough. *)
Fixpoint divide_out (fuel : nat) (hflag : bool) (val p : Z) : io Z :=
  match fuel with
  | O => undef
  | S f =>
      pr_fact_word hflag p ;;
      let (val, _) := BN_div_word val p in
      if BN_mod_word val p =? 0 then divide_out f hflag val p else ioret val
  end.

(** [for (fact = &prime[0]; !BN_is_one(val); ++fact)]. *)
Fixpoint pr_fact_loop (fuel : nat) (hflag : bool) (val : Z) (fact : list Z) : io () :=
  match fuel with
  | O => undef
  | S f =>
      if BN_is_one val then ioret tt
      else
        match fact with
        | [] => undef (* *fact is read one past the end of the table *)
        | _ =>
            match find_factor val fact with
            | [] => pr_print hflag val
            | p :: fact' =>
                let* val := divide_out 64 hflag val p in
                pr_fact_loop f hflag val fact'
            end
        end
  end.

Definition pr_fact (hflag : bool) (val : Z) : io () :=
  if BN_is_zero val then exit_ 0 []
  else if BN_is_one val then put (bs "1: 1" ++ [10])
  else
    (if hflag then put (bs "0x") ;; BN_print_fp val else BN_print_dec_fp val) ;;
    put (bs ":") ;;
    pr_fact_loop (S (length PrTbl.prime)) hflag val PrTbl.prime ;;
    put [10].

(** ** main *)

(** The arguments after the options. *)
Fixpoint factor_args (hflag : bool) (argv : list bytes) : io () :=
  match argv with
  | [] => exit_ 0 []
  | p :: argv =>
      let* val := convert_str2bn p in
      pr_fact hflag val ;;
      factor_args hflag argv
  end.

Definition LINE_MAX : nat := 2048.

(** One fgets(buf, n + 1, stdin): up to [n] bytes, through the first newline. *)
Fixpoint fgets_split (n : nat) (s : bytes) : bytes * bytes :=
  match n, s with
  | O, _ => ([], s)
  | _, [] => ([], [])
  | S n, c :: s =>
      if c =? 10 then ([c], s)
      else let (a, b) := fgets_split n s in (c :: a, b)
  end.

(** The bytes of [buf] up to a NUL read from the input, as the string
    functions see them. *)
Definition cstr (buf : bytes) : bytes := fst (span (fun c => negb (c =? 0)) buf).

(** Lines from standard input until it ends; each round consumes a byte. *)
Fixpoint factor_stdin (fuel : nat) (hflag : bool) (input : bytes) : io () :=
  match fuel with
  | O => undef
  | S f =>
      match input with
      | [] => exit_ 0 []
      | _ =>
          let (buf, input) := fgets_split (LINE_MAX - 1) input in
          let p := snd (span isblank (cstr buf)) in
          if (hd0 p =? 10) || (hd0 p =? 0) then factor_stdin f hflag input
          else
            let* val := convert_str2bn p in
            pr_fact hflag val ;;
            factor_stdin f hflag input
      end
  end.

(** [main] after getopt, which counted [-h] in [hflag]. *)
Definition main (hflag : bool) (argv : list bytes) (stdin : bytes) : io () :=
  match argv with
  | [] => factor_stdin (S (length stdin)) hflag stdin
  | _ => factor_args hflag argv
  end.

(** * Properties *)

(** What one factor prints. *)
Definition word (hflag : bool) (p : Z) : bytes :=
  if hflag then bs " 0x" ++ print_base 16 p else bs " " ++ print_base 10 p.

Definition words (hflag : bool) (fs : list Z) : bytes := concat (map (word hflag) fs).

Fixpoint product (fs : list Z) : Z :=
  match fs with
  | [] => 1
  | f :: fs => f * product fs
  end.

Lemma words_app h a b : words h (a ++ b) = words h a ++ words h b.
Proof. unfold words. by rewrite map_app, concat_app. Qed.

Lemma product_app a b : product (a ++ b) = product a * product b.
Proof. induction a as [|x a IH]; cbn [app product fold_right]; [lia|]. rewrite IH. lia. Qed.

Lemma pr_print_word h v : pr_print h v = (word h v, Ret tt).
Proof. by destruct h. Qed.

Lemma pr_fact_word_eq h v : pr_fact_word h v = (word h v, Ret tt).
Proof. by destruct h. Qed.

Lemma exists_prime_divisor n : 2 <= n -> exists p, Znumtheory.prime p /\ (p | n).
Proof.
  revert n. refine (Zlt_lower_bound_ind _ 2 _). intros n IH Hn.
  destruct (prime_dec n) as [Hp|Hnp]; [exists n; split; [done|apply Z.divide_refl]|].
  destruct (not_prime_divide n ltac:(lia) Hnp) as (d & Hd & Hdn).
  destruct (IH d ltac:(lia)) as (p & Hp & Hpd). exists p. split; [done|].
  by apply Z.divide_trans with d.
Qed.

(** ** The loops *)

Lemma find_factor_spec val fact :
  Forall (fun p => 2 <= p) fact ->
  (find_factor val fact = [] /\ Forall (fun p => ~ (p | val)) fact) \/
  (exists pre p rest, find_factor val fact = p :: rest /\ fact = pre ++ p :: rest /\
     (p | val) /\ Forall (fun q => ~ (q | val)) pre).
Proof.
  induction fact as [|p fact IH]; intros Hge; [by left|].
  inversion Hge as [|? ? Hp Hge']; subst. cbn. unfold BN_mod_word.
  destruct (val mod p =? 0) eqn:E; bsimp.
  - right. exists [], p, fact. repeat split; [|constructor]. apply Z.mod_divide; lia.
  - assert (Hnd : ~ (p | val)) by (intros Hd; apply E; apply Z.mod_divide; [lia|done]).
    destruct (IH Hge') as [[-> Hall]|(pre & q & rest & -> & -> & Hq & Hpre)].
    + left. split; [done|]. by constructor.
    + right. exists (p :: pre), q, rest. repeat split; [done|]. by constructor.
Qed.

Lemma divide_out_spec fuel h val p :
  2 <= p -> 1 <= val < 2 ^ Z.of_nat fuel -> (p | val) ->
  exists k v, divide_out fuel h val p = (words h (replicate (S k) p), Ret v) /\
    val = product (replicate (S k) p) * v /\ ~ (p | v) /\ 1 <= v.
Proof.
  intros Hp. revert val. induction fuel as [|f IH]; intros val Hv Hd; [cbn in Hv; lia|].
  cbn [divide_out]. rewrite pr_fact_word_eq. cbn. unfold BN_mod_word.
  destruct Hd as [q Hq]. assert (Eq : val / p = q) by (subst; apply Z.div_mul; lia).
  rewrite Eq. assert (Hq1 : 1 <= q) by nia.
  destruct (q mod p =? 0) eqn:E; bsimp.
  - destruct (IH q) as (k & v & -> & Hk & Hnd & Hv1).
    + rewrite Nat2Z.inj_succ, Z.pow_succ_r in Hv by lia. nia.
    + apply Z.mod_divide; lia.
    + exists (S k), v. split; [done|]. split; [|done]. cbn in *. lia.
  - exists 0%nat, q. cbn. repeat split; [lia| |lia].
    intros Hd. apply E. apply Z.mod_divide; [lia|done].
Qed.

Lemma prime_all_ge_2 l : l ⊆ PrTbl.prime -> Forall (fun p => 2 <= p) l.
Proof.
  intros Hsub. apply List.Forall_forall. intros x Hx.
  apply list_elem_of_In, Hsub, PrTbl.prime_elem in Hx as [_ Hx]. exact (prime_ge_2 x Hx).
Qed.

(** No prime of the table divides [v]. *)
Definition no_table_factor (v : Z) : Prop := forall q, q ∈ PrTbl.prime -> ~ (q | v).

(** What remains of a value after the table has been used is prime below
    [65538^2]. *)
Lemma no_table_factor_prime v :
  2 <= v -> no_table_factor v -> v < 65538 * 65538 -> Znumtheory.prime v.
Proof.
  intros Hv Hno Hlt. destruct (prime_dec v) as [|Hnp]; [done|exfalso].
  destruct (PrTbl.smallest_divisor v Hv Hnp) as (d & Hd & Hdd & Hdv).
  destruct (exists_prime_divisor d Hd) as (p & Hp & Hpd).
  apply (Hno p); [|by apply Z.divide_trans with d].
  apply PrTbl.prime_elem. split; [|done]. apply Z.divide_pos_le in Hpd; nia.
Qed.

Lemma no_table_factor_gt v : 2 <= v -> no_table_factor v -> 65537 < v.
Proof.
  intros Hv Hno. destruct (exists_prime_divisor v Hv) as (p & Hp & Hpv).
  destruct (Z_le_gt_dec v 65537); [exfalso|lia].
  apply (Hno p); [|done]. apply PrTbl.prime_elem. split; [|done].
  apply Z.divide_pos_le in Hpv; lia.
Qed.

(** The possible ends of the loop: all factors printed, a cofactor without a
    prime of the table printed last, or the read past the table. *)
Definition loop_result (h : bool) (val : Z) (fact : list Z) (r : io ()) : Prop :=
  exists fs v, val = product fs * v /\ 1 <= v /\
    StronglySorted Z.le fs /\ Forall (fun p => p ∈ fact) fs /\
    ((v = 1 /\ r = (words h fs, Ret tt)) \/
     (1 < v /\ no_table_factor v /\ fact <> [] /\ ~ (65537 | val) /\ r = (words h (fs ++ [v]), Ret tt)) \/
     (1 < v /\ no_table_factor v /\ (fact = [] \/ (65537 | val)) /\ r = (words h fs, Undef))).

Lemma replicate_sorted n p : StronglySorted Z.le (replicate n p).
Proof.
  induction n as [|n IH]; cbn; [constructor|]. constructor; [done|].
  apply Forall_replicate. lia.
Qed.

Lemma sorted_app_le (a b : list Z) :
  StronglySorted Z.le a -> StronglySorted Z.le b ->
  (forall x y, x ∈ a -> y ∈ b -> x <= y) -> StronglySorted Z.le (a ++ b).
Proof.
  induction a as [|x a IH]; intros Ha Hb Hab; [done|]. cbn.
  inversion Ha as [|? ? Ha' Hx]; subst. constructor.
  - apply IH; [done..|]. intros; apply Hab; [by right|done].
  - apply List.Forall_forall. intros y Hy. apply list_elem_of_In in Hy.
    apply elem_of_app in Hy as [Hy|Hy].
    + apply list_elem_of_In in Hy. by apply (proj1 (List.Forall_forall _ _) Hx).
    + apply Hab; [left|done].
Qed.

Lemma sorted_suffix (a b : list Z) : StronglySorted Z.lt (a ++ b) -> StronglySorted Z.lt b.
Proof.
  induction a as [|x a IH]; [done|]. intros H. inversion H; subst. auto.
Qed.

Lemma sorted_app_lt (a b : list Z) x y :
  StronglySorted Z.lt (a ++ b) -> x ∈ a -> y ∈ b -> x < y.
Proof.
  induction a as [|z a IH]; intros Hs Hx Hy; [by apply not_elem_of_nil in Hx|].
  inversion Hs as [|? ? Hs' Hall]; subst. apply elem_of_cons in Hx as [->|Hx]; [|by apply IH].
  apply (proj1 (List.Forall_forall _ _) Hall), list_elem_of_In, elem_of_app. by right.
Qed.

Lemma table_has_65537 : 65537 ∈ PrTbl.prime.
Proof. apply PrTbl.prime_elem. split; [lia|exact PrTbl.prime_65537]. Qed.

Lemma table_after_65537 pre rest : PrTbl.prime = pre ++ 65537 :: rest -> rest = [].
Proof.
  intros E. destruct rest as [|y rest]; [done|exfalso].
  assert (Hy : y <= 65537) by (apply PrTbl.prime_elem; rewrite E; set_solver).
  pose proof PrTbl.prime_sorted as Hs. rewrite E in Hs. apply sorted_suffix in Hs.
  pose proof (sorted_app_lt [65537] (y :: rest) 65537 y Hs ltac:(set_solver) ltac:(set_solver)).
  lia.
Qed.

Lemma table_last pre p : PrTbl.prime = pre ++ [p] -> p = 65537.
Proof.
  intros E. assert (Hp : p <= 65537) by (apply PrTbl.prime_elem; rewrite E; set_solver).
  pose proof table_has_65537 as H. rewrite E in H. apply elem_of_app in H as [H|H]; [|set_solver].
  pose proof PrTbl.prime_sorted as Hs. rewrite E in Hs.
  pose proof (sorted_app_lt pre [p] 65537 p Hs H ltac:(set_solver)). lia.
Qed.

Lemma prime_divides_replicate q n p :
  Znumtheory.prime q -> (q | product (replicate n p)) -> (q | p) \/ n = 0%nat.
Proof.
  intros Hq. induction n as [|n IH]; cbn; [auto|]. intros H.
  destruct (prime_mult q Hq _ _ H) as [|Hd]; [auto|]. destruct (IH Hd) as [?|Hn]; [auto|]. subst n.
  cbn in Hd. apply Z.divide_1_r_nonneg in Hd; [|apply prime_ge_2 in Hq; lia].
  apply prime_ge_2 in Hq. lia.
Qed.

Lemma table_prime_65537 p : p ∈ PrTbl.prime -> (65537 | p) -> p = 65537.
Proof.
  intros Hp Hd. apply PrTbl.prime_elem in Hp as [_ Hp]. symmetry.
  by apply prime_div_prime; [exact PrTbl.prime_65537| |].
Qed.

Lemma pr_fact_loop_spec fuel h val pre fact :
  (length fact < fuel)%nat -> PrTbl.prime = pre ++ fact -> 1 <= val <= ULONG_MAX ->
  Forall (fun q => ~ (q | val)) pre ->
  loop_result h val fact (pr_fact_loop fuel h val fact).
Proof.
  revert val pre fact; induction fuel as [|f IH]; intros val pre fact Hf E Hv Hpre; [lia|].
  assert (Hno : Forall (fun q => ~ (q | val)) fact -> no_table_factor val).
  { intros Hfact q Hq. rewrite E in Hq. rewrite List.Forall_forall in Hpre, Hfact.
    apply elem_of_app in Hq as [Hq|Hq]; apply list_elem_of_In in Hq; auto. }
  cbn [pr_fact_loop]. unfold BN_is_one. destruct (val =? 1) eqn:E1; bsimp.
  { exists [], 1. cbn. repeat split; try lia; [constructor|constructor|by left]. }
  destruct fact as [|p0 fact0] eqn:Ef.
  { exists [], val. cbn. repeat split; try lia; [constructor|constructor|].
    right; right. repeat split; try lia; [apply Hno; constructor|by left]. }
  assert (Hne : fact <> []) by (by rewrite Ef). rewrite <- Ef in *. clear Ef p0 fact0.
  assert (Hsub : fact ⊆ PrTbl.prime) by (rewrite E; set_solver).
  destruct (find_factor_spec val fact (prime_all_ge_2 _ Hsub))
    as [[-> Hnone]|(pre2 & p & rest & -> & Efact & Hp & Hpre2)].
  { rewrite pr_print_word. exists [], val. cbn. rewrite app_nil_r.
    repeat split; try lia; [constructor|constructor|].
    right; left. specialize (Hno Hnone). split_and!; try done; [lia|].
    exact (Hno _ table_has_65537). }
  assert (Hpt : p ∈ PrTbl.prime) by (apply Hsub; rewrite Efact; set_solver).
  pose proof (proj2 (proj1 (PrTbl.prime_elem p) Hpt)) as Hpp.
  pose proof (prime_ge_2 p Hpp) as Hp2.
  destruct (divide_out_spec 64 h val p Hp2 ltac:(unfold ULONG_MAX in *; lia) Hp)
    as (k & v & -> & Hval & Hnd & Hv1).
  assert (Hvd : (v | val)) by (exists (product (replicate (S k) p)); lia).
  assert (Hprod : 1 <= product (replicate (S k) p)) by nia.
  rewrite Efact in E, Hf |- *. rewrite length_app in Hf. cbn in Hf.
  destruct (IH v (pre ++ pre2 ++ [p]) rest ltac:(lia)) as (fs & w & Hfs & Hw & Hsort & Hin & Hcase).
  { rewrite E, <- !app_assoc. done. }
  { unfold ULONG_MAX in *. nia. }
  { rewrite !List.Forall_app. repeat split; [| |by repeat constructor].
    - revert Hpre. apply List.Forall_impl. eauto using Z.divide_trans.
    - revert Hpre2. apply List.Forall_impl. eauto using Z.divide_trans. }
  exists (replicate (S k) p ++ fs), w. rewrite product_app, words_app. cbn [iobind].
  split; [rewrite Hval, Hfs; lia|]. split; [done|]. split; [|split].
  - apply sorted_app_le; [apply replicate_sorted|done|]. intros x y Hx Hy.
    apply elem_of_replicate in Hx as [-> _]. rewrite List.Forall_forall in Hin.
    apply list_elem_of_In, Hin in Hy. pose proof PrTbl.prime_sorted as Hs.
    rewrite E, app_assoc in Hs. apply sorted_suffix in Hs.
    pose proof (sorted_app_lt [p] rest p y Hs ltac:(set_solver) Hy). lia.
  - rewrite List.Forall_app. split; apply List.Forall_forall; intros x Hx.
    + apply list_elem_of_In, elem_of_replicate in Hx as [-> _]. set_solver.
    + rewrite List.Forall_forall in Hin. apply Hin in Hx. set_solver.
  - destruct Hcase as [[-> ->]|[(Hw1 & Hnw & Hrest & H65 & ->)|(Hw1 & Hnw & H65 & ->)]]; cbn [iobind].
    + left. done.
    + right; left. rewrite !words_app, app_assoc. rewrite Efact in Hne. split_and!; try done.
      intros Hd. apply H65. rewrite Hval in Hd.
      destruct (prime_mult _ PrTbl.prime_65537 _ _ Hd) as [Hd'|]; [exfalso|done].
      destruct (prime_divides_replicate _ _ _ PrTbl.prime_65537 Hd') as [Hd2|]; [|done].
      pose proof (table_prime_65537 p Hpt Hd2); subst p. apply Hrest.
      apply (table_after_65537 (pre ++ pre2)). by rewrite E, <- app_assoc.
    + right; right. split_and!; try done. right. destruct H65 as [->|H65].
      * assert (p = 65537) as -> by (apply (table_last (pre ++ pre2)); by rewrite E, <- app_assoc).
        done.
      * by apply Z.divide_trans with v.
Qed.

(** The line printed for [val] and its factors. *)
Definition fact_line (h : bool) (val : Z) (fs : list Z) : bytes :=
  (if h then bs "0x" ++ print_base 16 val else print_base 10 val) ++ bs ":" ++ words h fs.

Lemma pr_fact_cases h val :
  2 <= val <= ULONG_MAX ->
  exists fs v, val = product fs * v /\ 1 <= v /\
    StronglySorted Z.le fs /\ Forall Znumtheory.prime fs /\ Forall (fun p => p <= 65537) fs /\
    ((v = 1 /\ pr_fact h val = (fact_line h val fs ++ [10], Ret tt)) \/
     (1 < v /\ no_table_factor v /\ ~ (65537 | val) /\
        pr_fact h val = (fact_line h val (fs ++ [v]) ++ [10], Ret tt)) \/
     (1 < v /\ no_table_factor v /\ (65537 | val) /\ pr_fact h val = (fact_line h val fs, Undef))).
Proof.
  intros Hv. destruct (pr_fact_loop_spec (S (length PrTbl.prime)) h val [] PrTbl.prime
    ltac:(lia) eq_refl ltac:(lia) ltac:(constructor)) as (fs & v & Hval & Hv1 & Hs & Hin & Hcase).
  assert (Hprime : forall x, In x fs -> x <= 65537 /\ Znumtheory.prime x).
  { intros x Hx. apply PrTbl.prime_elem. by apply (proj1 (List.Forall_forall _ _) Hin). }
  assert (Hpr : forall r, (let* _ := put (if h then bs "0x" ++ print_base 16 val else print_base 10 val) in
      let* _ := put (bs ":") in let* _ := r in put [10]) =
      match r with
      | (o, Ret tt) => ((if h then bs "0x" ++ print_base 16 val else print_base 10 val) ++ bs ":" ++ o ++ [10], Ret tt)
      | (o, e) => ((if h then bs "0x" ++ print_base 16 val else print_base 10 val) ++ bs ":" ++ o, e)
      end) by (by intros [o [[]|c e|]]).
  assert (Hfact : pr_fact h val = (let* _ := put (if h then bs "0x" ++ print_base 16 val else print_base 10 val) in
      let* _ := put (bs ":") in
      let* _ := pr_fact_loop (S (length PrTbl.prime)) h val PrTbl.prime in put [10])).
  { unfold pr_fact, BN_is_zero, BN_is_one. replace (val =? 0) with false by lia.
    replace (val =? 1) with false by lia. by destruct h. }
  exists fs, v. split_and!; try done.
  1,2: apply List.Forall_forall; intros x Hx; by apply Hprime.
  rewrite Hfact, Hpr. unfold fact_line.
  destruct Hcase as [[-> ->]|[(H1 & H2 & H3 & H4 & ->)|(H1 & H2 & H3 & ->)]].
  - left. by rewrite <- !app_assoc.
  - right; left. by rewrite <- !app_assoc.
  - right; right. split_and!; try done. destruct H3 as [H3|]; [|done].
    pose proof table_has_65537 as Hin65. rewrite H3 in Hin65. by apply not_elem_of_nil in Hin65.
Qed.

(** The cofactor left by the table divides [val] and is coprime to 65537. *)
Lemma cofactor_65537 fs v val :
  val = product fs * v -> Forall Znumtheory.prime fs -> Forall (fun p => p <= 65537) fs ->
  no_table_factor v -> forall q, Znumtheory.prime q -> 65537 < q -> (q | val) -> (q | v).
Proof.
  intros -> Hp Hle Hno q Hq Hgt Hd. clear Hno.
  induction fs as [|f fs IH]; cbn in Hd.
  - by replace v with (1 * v) by lia.
  - inversion Hp as [|? ? Hf Hp']; inversion Hle as [|? ? Hf2 Hle']; subst.
    rewrite <- Z.mul_assoc in Hd. destruct (prime_mult q Hq _ _ Hd) as [Hd'|]; [|auto].
    pose proof (prime_div_prime q f Hq Hf Hd'). lia.
Qed.

(** An overrun needs a value beyond what the table can sieve. *)
Lemma overrun_large fs v val :
  val = product fs * v -> 1 <= product fs -> 1 < v -> no_table_factor v -> (65537 | val) ->
  65537 * 65538 <= val.
Proof.
  intros -> Hp1 Hv Hno Hd. pose proof (no_table_factor_gt v ltac:(lia) Hno) as Hgt.
  destruct (prime_mult _ PrTbl.prime_65537 _ _ Hd) as [Hd'|Hd'].
  - apply Z.divide_pos_le in Hd'; nia.
  - by destruct (Hno _ table_has_65537).
Qed.

Lemma product_pos fs : Forall Znumtheory.prime fs -> 1 <= product fs.
Proof. induction 1 as [|f fs Hf _ IH]; cbn; [lia|]. apply prime_ge_2 in Hf. nia. Qed.

Lemma sorted_cofactor fs v :
  StronglySorted Z.le fs -> Forall (fun p => p <= 65537) fs -> 1 < v -> no_table_factor v ->
  StronglySorted Z.le (fs ++ [v]).
Proof.
  intros Hs Hle Hv Hno. apply sorted_app_le; [done|by repeat constructor|]. intros x y Hx Hy.
  apply list_elem_of_singleton in Hy as ->. apply list_elem_of_In in Hx.
  pose proof (proj1 (List.Forall_forall _ _) Hle x Hx).
  pose proof (no_table_factor_gt v ltac:(lia) Hno). cbn in *. lia.
Qed.

Lemma pr_fact_sieve h val :
  2 <= val <= PrTbl.SIEVEMAX ->
  exists fs, pr_fact h val = (fact_line h val fs ++ [10], Ret tt) /\
    Forall Znumtheory.prime fs /\ StronglySorted Z.le fs /\ product fs = val.
Proof.
  unfold PrTbl.SIEVEMAX. intros Hv.
  destruct (pr_fact_cases h val ltac:(unfold ULONG_MAX; lia))
    as (fs & v & Hval & Hv1 & Hs & Hp & Hle & [(-> & H)|[(H1 & H2 & H3 & H)|(H1 & H2 & H3 & H)]]).
  - exists fs. split_and!; try done. lia.
  - exists (fs ++ [v]). pose proof (product_pos fs Hp).
    assert (Hpv : Znumtheory.prime v) by (apply no_table_factor_prime; [lia|done|nia]).
    split_and!; [done|by apply List.Forall_app; auto| |rewrite product_app; cbn; lia].
    by apply sorted_cofactor.
  - exfalso. pose proof (overrun_large fs v val Hval (product_pos fs Hp) H1 H2 H3). lia.
Qed.

(** C5. For every value up to SIEVEMAX (the bound primes.h gives), and for both
    output bases, pr_fact prints the value, a colon and its prime factors with
    multiplicity in ascending order, and returns. *)
Theorem pr_fact_factorises h val :
  2 <= val <= PrTbl.SIEVEMAX ->
  exists fs, pr_fact h val = (fact_line h val fs ++ [10], Ret tt) /\
    Forall Znumtheory.prime fs /\ StronglySorted Z.le fs /\ product fs = val.
Proof. apply pr_fact_sieve. Qed.

(** C38. pr_fact reads one element past the prime table exactly when 65537, the
    last entry, divides the value and a prime above it does too: the outer
    [++fact] then leaves the pointer behind pr_limit and the next round reads
    through it before comparing it with pr_limit. *)
Theorem pr_fact_overrun_iff h val :
  2 <= val <= ULONG_MAX ->
  (pr_fact h val).2 = Undef <->
  (65537 | val) /\ exists q, Znumtheory.prime q /\ 65537 < q /\ (q | val).
Proof.
  intros Hv. destruct (pr_fact_cases h val Hv)
    as (fs & v & Hval & Hv1 & Hs & Hp & Hle & [(-> & ->)|[(H1 & H2 & H3 & ->)|(H1 & H2 & H3 & ->)]]);
    cbn [snd].
  - split; [done|]. intros [_ (q & Hq & Hgt & Hd)]. exfalso.
    rewrite Hval, Z.mul_1_r in Hd. clear Hv Hval Hv1 Hs.
    induction fs as [|f fs IH]; cbn in Hd.
    + apply Z.divide_1_r_nonneg in Hd; lia.
    + inversion Hp as [|? ? Hf Hp']; inversion Hle as [|? ? Hf2 Hle']; subst.
      destruct (prime_mult q Hq _ _ Hd) as [Hd'|]; [|by apply IH].
      pose proof (prime_div_prime q f Hq Hf Hd'). lia.
  - split; [done|]. intros [? _]. done.
  - split; [|done]. intros _. split; [done|].
    destruct (exists_prime_divisor v ltac:(lia)) as (q & Hq & Hqv). exists q. split_and!; [done| |].
    + destruct (Z_le_gt_dec q 65537); [|lia]. exfalso.
      apply (H2 q); [apply PrTbl.prime_elem|]; done.
    + rewrite Hval. by apply Z.divide_mul_r.
Qed.

(** Every 64-bit value outside the overrun case gets a complete line whose
    factors are ascending and multiply to the value; each is prime or has no
    prime factor in the table and is at least 65538 squared. *)
Theorem pr_fact_any_value h val :
  2 <= val <= ULONG_MAX ->
  (forall q, (65537 | val) -> Znumtheory.prime q -> 65537 < q -> ~ (q | val)) ->
  exists fs, pr_fact h val = (fact_line h val fs ++ [10], Ret tt) /\
    StronglySorted Z.le fs /\ product fs = val /\
    Forall (fun f => Znumtheory.prime f \/ 65538 * 65538 <= f /\ no_table_factor f) fs.
Proof.
  intros Hv Hno. destruct (pr_fact_cases h val Hv)
    as (fs & v & Hval & Hv1 & Hs & Hp & Hle & [(-> & H)|[(H1 & H2 & H3 & H)|(H1 & H2 & H3 & H)]]).
  - exists fs. split_and!; try done; [lia|]. revert Hp. apply List.Forall_impl. auto.
  - exists (fs ++ [v]). split_and!; [done| |rewrite product_app; cbn; lia|].
    + by apply sorted_cofactor.
    + apply List.Forall_app. split; [revert Hp; apply List.Forall_impl; auto|].
      constructor; [|constructor].
      destruct (Z_lt_ge_dec v (65538 * 65538)) as [Hlt|]; [left|right; split; [lia|done]].
      apply no_table_factor_prime; [lia|done|done].
  - exfalso. destruct (exists_prime_divisor v ltac:(lia)) as (q & Hq & Hqv).
    assert (Hqval : (q | val)) by (rewrite Hval; by apply Z.divide_mul_r).
    destruct (Z_le_gt_dec q 65537); [apply (H2 q); [apply PrTbl.prime_elem|]; done|].
    apply (Hno q); [done..|lia|done].
Qed.

(** Without OpenSSL a cofactor that no table entry divides is printed as it
    is, prime or not: 65539 * 65543 is reported as its own factor. *)
Theorem pr_fact_prints_composite :
  pr_fact false (65539 * 65543) = (fact_line false (65539 * 65543) [65539 * 65543] ++ [10], Ret tt) /\
  ~ Znumtheory.prime (65539 * 65543).
Proof.
  split; [vm_compute; reflexivity|]. intros Hp.
  destruct (prime_divisors _ Hp 65539 ltac:(exists 65543; reflexivity)) as [|[|[|]]]; discriminate.
Qed.

(** ** String conversion *)

Lemma is_hex_str_digits p : forallb isdigit p = true -> is_hex_str p = false.
Proof.
  unfold is_hex_str. generalize false. induction p as [|c p IH]; [done|].
  intros b H. cbn in H |- *. bsimp. rewrite H. by apply IH.
Qed.

Lemma convert_skip_plus p : hd0 p <> 43 -> convert_str2bn (43 :: p) = convert_str2bn p.
Proof. intros H. unfold convert_str2bn. cbn [hd0 tail]. rewrite Z.eqb_refl. by replace (hd0 p =? 43) with false by lia. Qed.

Lemma convert_decimal ds :
  ds <> [] -> forallb (is_base_digit 10) ds = true -> hd0 ds <> 48 ->
  convert_str2bn ds =
    if ULONG_MAX <? num_of_digits 10 ds then exit_ 1 (ds ++ bs ": illegal numeric format.")
    else ioret (num_of_digits 10 ds).
Proof.
  intros Hne Hds H0. unfold convert_str2bn.
  assert (Hd : isdigit (hd0 ds) = true).
  { destruct ds; [done|]. cbn in Hds |- *. bsimp. by apply base10_isdigit. }
  unfold isdigit in Hd. bsimp.
  replace (hd0 ds =? 43) with false by lia. replace (hd0 ds =? 45) with false by lia.
  replace (hd0 ds =? 48) with false by lia.
  rewrite is_hex_str_digits.
  - unfold BN_dec2bn. rewrite strtoul_digits by done.
    by destruct (ULONG_MAX <? num_of_digits 10 ds).
  - revert Hds. rewrite !forallb_forall. intros Hf x Hx. by apply base10_isdigit, Hf.
Qed.

Lemma convert_print n : 0 < n <= ULONG_MAX -> convert_str2bn (print_base 10 n) = ioret n.
Proof.
  intros Hn. destruct (print_base_spec 10 n ltac:(lia) ltac:(lia)) as (Hne & Hall & Hnum & Hhd).
  rewrite convert_decimal, Hnum by (auto || apply Hhd; lia).
  by replace (ULONG_MAX <? n) with false by lia.
Qed.

(** Reading back what the program prints gives the number: a positive
    64-bit value in decimal, with or without a leading plus, and any 64-bit
    value in hexadecimal behind 0x. *)
Theorem convert_str2bn_roundtrip n :
  0 <= n <= ULONG_MAX ->
  (0 < n -> convert_str2bn (print_base 10 n) = ioret n /\
            convert_str2bn (bs "+" ++ print_base 10 n) = ioret n) /\
  convert_str2bn (bs "0x" ++ print_base 16 n) = ioret n.
Proof.
  intros Hn. split.
  - intros Hpos. destruct (print_base_spec 10 n ltac:(lia) Hn) as (Hne & Hall & Hnum & Hhd).
    split; [apply convert_print; lia|]. cbn [bs ch app]. change (Z.of_N (Ascii.N_of_ascii "+")) with 43.
    rewrite convert_skip_plus; [apply convert_print; lia|].
    destruct (print_base 10 n); [done|]. cbn in Hall |- *. bsimp.
    apply base10_isdigit in H. unfold isdigit in H. bsimp. lia.
  - destruct (print_base_spec 16 n ltac:(lia) Hn) as (Hne & Hall & Hnum & _).
    change (bs "0x" ++ print_base 16 n) with (48 :: 120 :: print_base 16 n).
    unfold convert_str2bn. cbn [hd0 tail]. cbn -[print_base BN_hex2bn].
    unfold BN_hex2bn. rewrite strtoul_digits, Hnum by (done || lia).
    destruct (ULONG_MAX <? n) eqn:E; [bsimp; lia|]. done.
Qed.

(** C40. The rejected strings: a minus sign (also behind a plus), a leading zero
    that no x follows -- so a plain 0 ends the program with status 1 and a
    diagnostic -- and a decimal number above ULONG_MAX. *)
Theorem convert_str2bn_rejects :
  (forall s, convert_str2bn (bs "-" ++ s) = exit_ 1 (bs "negative numbers aren't permitted.") /\
             convert_str2bn (bs "+-" ++ s) = exit_ 1 (bs "negative numbers aren't permitted.")) /\
  (forall s, hd0 s <> 120 /\ hd0 s <> 88 ->
     convert_str2bn (bs "0" ++ s) = exit_ 1 (s ++ bs ": illegal numeric format.")) /\
  (forall ds, ds <> [] -> forallb (is_base_digit 10) ds = true -> hd0 ds <> 48 ->
     ULONG_MAX < num_of_digits 10 ds ->
     convert_str2bn ds = exit_ 1 (ds ++ bs ": illegal numeric format.")).
Proof.
  split_and!.
  - intros s. split; reflexivity.
  - intros s [H1 H2]. change (bs "0" ++ s) with (48 :: s). unfold convert_str2bn.
    cbn -[bs app].
    destruct (hd0 s =? 120) eqn:E1, (hd0 s =? 88) eqn:E2; bsimp;
      try (exfalso; lia); reflexivity.
  - intros ds Hne Hds H0 Hbig. rewrite convert_decimal by done.
    by replace (ULONG_MAX <? num_of_digits 10 ds) with true by lia.
Qed.

(** ** main *)

(** Given decimal arguments between 2 and SIEVEMAX, main prints one line
    of ascending prime factors per argument, in the order of the arguments, and
    exits with status 0. *)
Theorem main_factors_arguments h ns stdin :
  ns <> [] -> Forall (fun n => 2 <= n <= PrTbl.SIEVEMAX) ns ->
  exists fss, main h (map (print_base 10) ns) stdin =
      (concat (zip_with (fun n fs => fact_line h n fs ++ [10]) ns fss), Exit 0 []) /\
    Forall2 (fun n fs => Forall Znumtheory.prime fs /\ StronglySorted Z.le fs /\ product fs = n) ns fss.
Proof.
  intros Hne Hns. assert (E : main h (map (print_base 10) ns) stdin = factor_args h (map (print_base 10) ns))
    by (by destruct ns). rewrite E. clear E Hne.
  induction Hns as [|n ns Hn Hns IH]; [by exists []|].
  destruct IH as (fss & IH & Hfss). destruct (pr_fact_sieve h n Hn) as (fs & Hfs & Hp & Hs & Hprod).
  exists (fs :: fss). split; [|by constructor].
  cbn [map factor_args]. rewrite convert_print, iobind_ret_l, Hfs by (unfold PrTbl.SIEVEMAX in Hn; unfold ULONG_MAX; lia).
  cbn [iobind]. rewrite IH. done.
Qed.

Lemma fgets_split_length n s a b :
  fgets_split (S n) s = (a, b) -> s <> [] -> (length b < length s)%nat.
Proof.
  assert (Hle : forall n s a b, fgets_split n s = (a, b) -> (length b <= length s)%nat).
  { clear. induction n as [|n IH]; intros [|c s] a b; cbn; try (intros [= <- <-]; cbn; lia).
    destruct (c =? 10); [intros [= <- <-]; lia|].
    destruct (fgets_split n s) as [a' b'] eqn:E. intros [= <- <-]. apply IH in E. lia. }
  destruct s as [|c s]; [done|]. cbn. intros H _.
  destruct (c =? 10); [injection H as <- <-; lia|].
  destruct (fgets_split n s) as [a' b'] eqn:E. injection H as <- <-. apply Hle in E. lia.
Qed.

(** Reading from standard input terminates: with one round per input byte
    the loop always reaches an exit, so a larger bound changes nothing. *)
Theorem factor_stdin_terminates fuel h input :
  (length input < fuel)%nat ->
  factor_stdin fuel h input = factor_stdin (S (length input)) h input.
Proof.
  assert (Hgen : forall f1 f2 input, (length input < f1)%nat -> (length input < f2)%nat ->
    factor_stdin f1 h input = factor_stdin f2 h input).
  { clear. induction f1 as [|f1 IH]; intros [|f2] input H1 H2; try lia. cbn [factor_stdin].
    destruct input as [|c input]; [done|].
    destruct (fgets_split (LINE_MAX - 1) (c :: input)) as [buf rest] eqn:E.
    pose proof (fgets_split_length 2046 _ _ _ E ltac:(done)) as Hl. cbn in Hl, H1, H2.
    destruct (_ || _); [apply IH; lia|].
    destruct (convert_str2bn _) as [o [v|c' e|]]; cbn; [|done|done].
    destruct (pr_fact h v) as [o' [[]|c' e|]]; cbn; [|done|done].
    by rewrite (IH f2) by lia. }
  intros H. apply Hgen; lia.
Qed.

(** ** Witnesses *)

Lemma pr_fact_factorises_witness :
  exists fs, pr_fact false 360 = (fact_line false 360 fs ++ [10], Ret tt) /\
    Forall Znumtheory.prime fs /\ StronglySorted Z.le fs /\ product fs = 360.
Proof. apply (pr_fact_factorises false 360). vm_compute. split; discriminate. Defined.

Lemma pr_fact_overrun_witness :
  (pr_fact false (65537 * 65539)).2 = Undef /\
  ((pr_fact false (65537 * 65539)).2 = Undef ->
   exists q, Znumtheory.prime q /\ 65537 < q /\ (q | 65537 * 65539)).
Proof.
  split; [vm_compute; reflexivity|]. intros H.
  apply (pr_fact_overrun_iff false (65537 * 65539)); [vm_compute; split; discriminate|exact H].
Defined.

Lemma pr_fact_any_value_witness :
  exists fs, pr_fact true 4294967291 = (fact_line true 4294967291 fs ++ [10], Ret tt) /\
    StronglySorted Z.le fs /\ product fs = 4294967291 /\
    Forall (fun f => Znumtheory.prime f \/ 65538 * 65538 <= f /\ no_table_factor f) fs.
Proof.
  apply (pr_fact_any_value true 4294967291); [vm_compute; split; discriminate|].
  intros q H. apply Z.mod_divide in H; [vm_compute in H; discriminate|lia].
Defined.

Lemma convert_str2bn_roundtrip_witness :
  convert_str2bn (print_base 10 5040) = ioret 5040 /\
  convert_str2bn (bs "0x" ++ print_base 16 5040) = ioret 5040.
Proof.
  destruct (convert_str2bn_roundtrip 5040 ltac:(vm_compute; split; discriminate)) as [H1 H2].
  split; [apply H1; lia|exact H2].
Defined.

Lemma convert_str2bn_rejects_witness :
  convert_str2bn (bs "0") = exit_ 1 (bs ": illegal numeric format.") /\
  convert_str2bn (bs "99999999999999999999") =
    exit_ 1 (bs "99999999999999999999: illegal numeric format.").
Proof.
  destruct convert_str2bn_rejects as (_ & H0 & H1). split.
  - apply (H0 []). split; discriminate.
  - apply (H1 (bs "99999999999999999999")); [discriminate|reflexivity|discriminate|reflexivity].
Defined.

Lemma main_factors_arguments_witness :
  exists fss, main false (map (print_base 10) [12; 65537]) [] =
      (concat (zip_with (fun n fs => fact_line false n fs ++ [10]) [12; 65537] fss), Exit 0 []) /\
    Forall2 (fun n fs => Forall Znumtheory.prime fs /\ StronglySorted Z.le fs /\ product fs = n) [12; 65537] fss.
Proof.
  apply (main_factors_arguments false [12; 65537] []); [discriminate|].
  repeat constructor; vm_compute; discriminate.
Defined.

Lemma factor_stdin_terminates_witness :
  factor_stdin 100 false (bs "12") = factor_stdin 3 false (bs "12").
Proof. apply (factor_stdin_terminates 100 false (bs "12")). vm_compute. lia. Defined.

End Factor.
