(* ===== verification/Timeout.v ===== *)
(** * timeout(1): src/bsd_additions/timeout/timeout.c

    Argument parsing, the signal handler, the event loop as a step relation
    and the exit status.  The kernel is the environment of a step: which
    signals a sigsuspend delivers and what the waitpid calls return.  Doubles
    are the IEEE binary64 numbers of the Standard Library's SpecFloat; strtod
    and the libc table sys_signame are parameters.

    Main results: with --foreground the command is signalled and the status is
    124; in the default mode a timeout ends in a SIGKILL to the process itself
    and the command is never signalled; an alarm delivered together with a
    SIGCHLD stays pending until another signal arrives. *)

From S2P Require Import Prelude.
From stdpp Require Import base list numbers sets.
From Stdlib Require Import ZArith Lia.
From Stdlib Require Import SpecFloat.

Open Scope Z_scope.

Module Timeout.

Local Open Scope io_scope.

Definition EXIT_TIMEOUT : Z := 124.
Definition EXIT_INVALID : Z := 125.
Definition EXIT_CMD_ERROR : Z := 126.
Definition EXIT_CMD_NOENT : Z := 127.

(** signal.h on Darwin. *)
Definition SIGHUP : Z := 1.
Definition SIGINT : Z := 2.
Definition SIGQUIT : Z := 3.
Definition SIGKILL : Z := 9.
Definition SIGALRM : Z := 14.
Definition SIGTERM : Z := 15.
Definition SIGSTOP : Z := 17.
Definition SIGCHLD : Z := 20.
Definition NSIG : Z := 32.

(** ** Doubles *)

Abbreviation double := spec_float.

Definition dbl_of_Z (z : Z) : double := binary_normalize 53 1024 z 0 false.
Definition dbl_mul (x y : double) : double := SFmul 53 1024 x y.
Definition dbl_sub (x y : double) : double := SFsub 53 1024 x y.

(** ** Library functions *)

(** strtol(3), base 10, as on Darwin; [None] for an errno left alone. *)
Definition strtol10 (s : bytes) : Z * option errno_t :=
  let s1 := snd (span isspace s) in
  let neg := hd0 s1 =? 45 in
  let s2 := if (hd0 s1 =? 45) || (hd0 s1 =? 43) then tail s1 else s1 in
  let ds := fst (span (is_base_digit 10) s2) in
  match ds with
  | [] => (0, Some EINVAL)
  | _ =>
      let v := if neg then - num_of_digits 10 ds else num_of_digits 10 ds in
      if v <? - 2 ^ 63 then (- 2 ^ 63, Some ERANGE)
      else if 2 ^ 63 - 1 <? v then (2 ^ 63 - 1, Some ERANGE)
      else (v, None)
  end.

Definition strcasecmp_eq (a b : bytes) : bool :=
  bool_decide (map tolower a = map tolower b).

(** [strncasecmp(str, "SIG", 3) == 0]. *)
Definition has_SIG_prefix (s : bytes) : bool :=
  bool_decide (map tolower (take 3 s) = bs "sig").

Section Parsing.

(** strtod: the value, the unread rest, and the errno it sets, if any. *)
Variable strtod : bytes -> double * bytes * option errno_t.

(** argv[0] as libc keeps it in __progname. *)
Variable progname : bytes.

(** The libc table of signal names. *)
Variable sys_signame : Z -> bytes.

Definition signum_to_signame (signo : Z) : bytes :=
  if (signo <=? 0) || (NSIG <=? signo) then bs "UNKNOWN" else sys_signame signo.

Definition set_errno (e : errno_t) (o : option errno_t) : errno_t :=
  match o with
  | Some e' => e'
  | None => e
  end.

Definition invalid_duration {A} : io A := exit_ EXIT_INVALID (bs "invalid duration").

(** The duration and the errno afterwards. *)
Definition parse_duration (errno : errno_t) (duration : bytes) : io (double * errno_t) :=
  let '(ret, end_, e) := strtod duration in
  let errno := set_errno errno e in
  if SFeqb ret (S754_zero false) && bool_decide (end_ = duration) then invalid_duration
  else if hd0 end_ =? 0 then ioret (ret, errno)
  else if negb (hd0 (tail end_) =? 0) then invalid_duration
  else
    let* ret :=
      (let c := hd0 end_ in
       if c =? ch "s" then ioret ret
       else if c =? ch "m" then ioret (dbl_mul ret (dbl_of_Z 60))
       else if c =? ch "h" then ioret (dbl_mul ret (dbl_of_Z (60 * 60)))
       else if c =? ch "d" then ioret (dbl_mul ret (dbl_of_Z (60 * 60 * 24)))
       else invalid_duration) in
    if SFltb ret (S754_zero false) || SFleb (dbl_of_Z 100000000) ret then invalid_duration
    else ioret (ret, errno).

(** [for (i = 1; i < NSIG; i++)]: the first signal whose name matches. *)
Fixpoint find_signame (n : nat) (i : Z) (str : bytes) : option Z :=
  match n with
  | O => None
  | S n =>
      if strcasecmp_eq str (signum_to_signame i) then Some i
      else find_signame n (i + 1) str
  end.

(** errno is not cleared before strtol, so its previous value takes part in
    the test. *)
Definition parse_signal (errno : errno_t) (str : bytes) : io (Z * errno_t) :=
  let (v, e) := strtol10 str in
  let sig := sint 32 v in
  let errno := set_errno errno e in
  if errno_is0 errno && (1 <? sig) && (sig <? NSIG) then ioret (sig, errno)
  else
    let str := if has_SIG_prefix str then drop 3 str else str in
    match find_signame 31 1 str with
    | Some i => ioret (i, errno)
    | None => exit_ EXIT_INVALID (bs "invalid signal")
    end.

(** ** Options: what getopt_long returns, in order *)

Inductive opt :=
| OptKillAfter (arg : bytes)
| OptSignal (arg : bytes)
| OptVerbose
| OptPreserve
| OptForeground
| OptHelp.

Record options := Options {
  o_killsig : Z;
  o_second_kill : double;
  o_do_second_kill : bool;
  o_verbose : bool;
  o_foreground : bool;
  o_preserve : bool;
  o_errno : errno_t
}.

Definition options0 : options :=
  Options SIGTERM (S754_zero false) false false false false ENONE.

Definition usage {A} : io A :=
  exit_ 1 (bs "Usage: " ++ progname ++
    bs " [-k time | --kill-after time] [-s sig | --signal sig] [-v | --verbose] [--foreground] [--preserve-status] <duration> <command> <arg ...>" ++ [10]).

(** The body of the getopt_long loop. *)
Definition do_option (o : options) (x : opt) : io options :=
  match x with
  | OptKillAfter arg =>
      let* (d, e) := parse_duration (o_errno o) arg in
      ioret (Options (o_killsig o) d true (o_verbose o) (o_foreground o) (o_preserve o) e)
  | OptSignal arg =>
      let* (s, e) := parse_signal (o_errno o) arg in
      ioret (Options s (o_second_kill o) (o_do_second_kill o) (o_verbose o) (o_foreground o) (o_preserve o) e)
  | OptVerbose =>
      ioret (Options (o_killsig o) (o_second_kill o) (o_do_second_kill o) true (o_foreground o) (o_preserve o) (o_errno o))
  | OptPreserve =>
      ioret (Options (o_killsig o) (o_second_kill o) (o_do_second_kill o) (o_verbose o) (o_foreground o) true (o_errno o))
  | OptForeground =>
      ioret (Options (o_killsig o) (o_second_kill o) (o_do_second_kill o) (o_verbose o) true (o_preserve o) (o_errno o))
  | OptHelp => usage
  end.

Fixpoint do_options (o : options) (xs : list opt) : io options :=
  match xs with
  | [] => ioret o
  | x :: xs => let* o := do_option o x in do_options o xs
  end.

(** [main] up to the command: the options, the first interval and the command
    with its arguments. *)
Definition parse_args (xs : list opt) (argv : list bytes) : io (options * double * list bytes) :=
  let* o := do_options options0 xs in
  match argv with
  | dur :: cmd :: args =>
      let* (first_kill, e) := parse_duration (o_errno o) dur in
      ioret (o, first_kill, cmd :: args)
  | _ => usage
  end.

End Parsing.

(** ** Signals *)

(** The sig_atomic_t variables, the locals of main the loop changes, the
    signals the process sent to itself and that are still blocked, and what it
    has done so far, latest first. *)

Inductive action :=
| AKill (pid signo : Z)
| AKillSelf (signo : Z)
| ASetInterval (iv : double)
| AWarn (signo : Z).

Record tstate := TState {
  sig_chld : bool;
  sig_term : Z;
  sig_alrm : bool;
  sig_ign : Z;
  killsig : Z;
  do_second_kill : bool;
  timedout : bool;
  child_done : bool;
  pstat : Z;
  pending : list Z;
  acts : list action
}.

Record config := Config {
  c_foreground : bool;
  c_preserve : bool;
  c_verbose : bool;
  c_second_kill : double;
  c_pid : Z;
  c_itimer_ok : option (Z * Z) -> bool  (* whether setitimer accepts the interval *)
}.

Definition with_chld st b := TState b (sig_term st) (sig_alrm st) (sig_ign st) (killsig st)
  (do_second_kill st) (timedout st) (child_done st) (pstat st) (pending st) (acts st).
Definition with_term st s := TState (sig_chld st) s (sig_alrm st) (sig_ign st) (killsig st)
  (do_second_kill st) (timedout st) (child_done st) (pstat st) (pending st) (acts st).
Definition with_alrm st b := TState (sig_chld st) (sig_term st) b (sig_ign st) (killsig st)
  (do_second_kill st) (timedout st) (child_done st) (pstat st) (pending st) (acts st).
Definition with_ign st s := TState (sig_chld st) (sig_term st) (sig_alrm st) s (killsig st)
  (do_second_kill st) (timedout st) (child_done st) (pstat st) (pending st) (acts st).
Definition with_timedout st b := TState (sig_chld st) (sig_term st) (sig_alrm st) (sig_ign st) (killsig st)
  (do_second_kill st) b (child_done st) (pstat st) (pending st) (acts st).
Definition with_child st d p := TState (sig_chld st) (sig_term st) (sig_alrm st) (sig_ign st) (killsig st)
  (do_second_kill st) (timedout st) d p (pending st) (acts st).
Definition with_pending st p := TState (sig_chld st) (sig_term st) (sig_alrm st) (sig_ign st) (killsig st)
  (do_second_kill st) (timedout st) (child_done st) (pstat st) p (acts st).
Definition act st a := TState (sig_chld st) (sig_term st) (sig_alrm st) (sig_ign st) (killsig st)
  (do_second_kill st) (timedout st) (child_done st) (pstat st) (pending st) (a :: acts st).

Definition sig_handler (st : tstate) (signo : Z) : tstate :=
  if negb (sig_ign st =? 0) && (signo =? sig_ign st) then with_ign st 0
  else if (signo =? 0) || (signo =? SIGINT) || (signo =? SIGHUP) || (signo =? SIGQUIT) || (signo =? SIGTERM)
  then with_term st signo
  else if signo =? SIGCHLD then with_chld st true
  else if signo =? SIGALRM then with_alrm st true
  else st.

Definition send_sig (c : config) (st : tstate) (signo : Z) : tstate :=
  let st := if c_verbose c then act st (AWarn signo) else st in
  act st (AKill (c_pid c) signo).

(** set_interval: seconds and microseconds handed to setitimer; [None] where a
    conversion of the double is undefined. *)
Definition set_interval (iv : double) : option (Z * Z) :=
  match sf_trunc iv with
  | None => None
  | Some sec =>
      let frac := dbl_sub iv (dbl_of_Z sec) in
      match sf_trunc (dbl_mul frac (dbl_of_Z 1000000)) with
      | None => None
      | Some usec => Some (sec, usec)
      end
  end.

(** ** The event loop *)

(** What a waitpid(-1, &status, WNOHANG) returns; the kernel's answers up to
    the first 0 are the list given to a step. *)
Inductive wait_result :=
| WPid (cpid status : Z)
| WErr (eintr : bool).

Fixpoint reap (c : config) (ws : list wait_result) (st : tstate) : tstate :=
  match ws with
  | [] => st
  | WErr true :: ws => reap c ws st
  | WErr false :: _ => st
  | WPid cpid status :: ws =>
      reap c ws (if cpid =? c_pid c then with_child st true status else st)
  end.

(** prctl(PR_GET_CHILD_SUBREAPER): the shim of include/sys/prctl.h stores 0. *)
Definition subreaper_info : Z := 0.

Inductive loop_result :=
| Continue (st : tstate)
| Break (st : tstate)
| Died (signo : Z) (st : tstate)
| ErrExit (st : tstate).

(** The code after a signal has been sent, common to both branches. *)
Definition second_kill_or_break (c : config) (st : tstate) : loop_result :=
  if do_second_kill st then
    if c_itimer_ok c (set_interval (c_second_kill c)) then
      let st := act st (ASetInterval (c_second_kill c)) in
      Continue (TState (sig_chld st) (sig_term st) (sig_alrm st) (killsig st) SIGKILL
        false (timedout st) (child_done st) (pstat st) (pending st) (acts st))
    else ErrExit st
  else Break st.

(** One round after sigsuspend returned. *)
Definition loop_body (c : config) (ws : list wait_result) (st : tstate) : loop_result :=
  if sig_chld st then
    let st := reap c ws (with_chld st false) in
    if child_done st then
      if c_foreground c then Break st
      else if subreaper_info =? 0 then Break st else Continue st
    else Continue st
  else if sig_alrm st then
    let st := with_timedout (with_alrm st false) true in
    if negb (c_foreground c) then
      Died SIGKILL (act st (AKillSelf SIGKILL))
    else second_kill_or_break c (send_sig c st (killsig st))
  else if negb (sig_term st =? 0) then
    if negb (c_foreground c) then
      (* SIGTERM is blocked here, so the signal stays pending *)
      let st := act st (AKillSelf SIGTERM) in
      second_kill_or_break c (with_pending st (SIGTERM :: pending st))
    else second_kill_or_break c (send_sig c st (sig_term st))
  else Continue st.

(** The signals the program installed its handler for. *)
Definition handled (ks : Z) (signo : Z) : bool :=
  ((signo =? ks) && negb (ks =? SIGKILL) && negb (ks =? SIGSTOP)) ||
  bool_decide (signo ∈ [SIGTERM; SIGINT; SIGHUP; SIGCHLD; SIGALRM; SIGQUIT]).

(** One round of the loop: sigsuspend delivers [sigs], among them what the
    process sent itself, then the body runs. *)
Definition wake (c : config) (sigs : list Z) (ws : list wait_result) (st : tstate) : loop_result :=
  loop_body c ws (fold_left sig_handler sigs (with_pending st [])).

Inductive tstep (c : config) (ks : Z) : tstate -> loop_result -> Prop :=
| tstep_wake st sigs ws :
    sigs <> [] -> Forall (fun s => handled ks s = true) sigs -> pending st ⊆ sigs ->
    tstep c ks st (wake c sigs ws st).

(** The states in which the process sleeps in sigsuspend. *)
Inductive sleeping (c : config) (ks : Z) (st0 : tstate) : tstate -> Prop :=
| sleeping_init : sleeping c ks st0 st0
| sleeping_step st st' :
    sleeping c ks st0 st -> tstep c ks st (Continue st') -> sleeping c ks st0 st'.

Definition config_of (o : options) (pid : Z) (itimer_ok : option (Z * Z) -> bool) : config :=
  Config (o_foreground o) (o_preserve o) (o_verbose o) (o_second_kill o) pid itimer_ok.

(** The parent after the fork: the first interval is armed, or setitimer fails
    and the process exits, leaving the command running. *)
Definition start (c : config) (o : options) (first_kill : double) : loop_result :=
  let st := TState false 0 false 0 (o_killsig o) (o_do_second_kill o) false false 0 [] [] in
  if c_itimer_ok c (set_interval first_kill) then Continue (act st (ASetInterval first_kill))
  else ErrExit st.

(** ** After the loop *)

(** [while (!child_done && wait(&pstat) == -1)]: the answers of wait up to the
    first that is not an EINTR failure; [None] when wait fails. *)
Fixpoint final_wait (ws : list wait_result) (st : tstate) : option tstate :=
  if child_done st then Some st
  else
    match ws with
    | WErr true :: ws => final_wait ws st
    | WErr false :: _ => None
    | WPid _ status :: _ => Some (with_child st (child_done st) status)
    | [] => None
    end.

Definition WEXITSTATUS (s : Z) : Z := Z.land (Z.shiftr s 8) 255.
Definition WTERMSIG (s : Z) : Z := Z.land s 127.
Definition WIFSIGNALED (s : Z) : bool := negb (WTERMSIG s =? 127) && negb (WTERMSIG s =? 0).

(** The value main returns. *)
Definition exit_status (c : config) (st : tstate) : Z :=
  let s := pstat st in
  let s := if negb (WEXITSTATUS s =? 0) then WEXITSTATUS s
           else if WIFSIGNALED s then 128 + WTERMSIG s else s in
  if timedout st && negb (c_preserve c) then EXIT_TIMEOUT else s.

(** The status of the child when execvp fails. *)
Definition exec_failed_status (enoent : bool) : Z :=
  if enoent then EXIT_CMD_NOENT else EXIT_CMD_ERROR.

(** * Properties *)

Definition result_state (r : loop_result) : tstate :=
  match r with
  | Continue st | Break st | Died _ st | ErrExit st => st
  end.

Definition is_kill (a : action) : bool :=
  match a with
  | AKill _ _ => true
  | _ => false
  end.

(** The signals sent to the command so far. *)
Definition kills (st : tstate) : list action := List.filter is_kill (acts st).

(** The handler touches only the four flags. *)
Lemma sig_handler_frame st s :
  let st' := sig_handler st s in
  acts st' = acts st /\ timedout st' = timedout st /\ do_second_kill st' = do_second_kill st /\
  killsig st' = killsig st /\ child_done st' = child_done st /\ pstat st' = pstat st /\
  pending st' = pending st.
Proof. unfold sig_handler. repeat case_if; done. Qed.

Lemma deliver_frame sigs st :
  let st' := fold_left sig_handler sigs st in
  acts st' = acts st /\ timedout st' = timedout st /\ do_second_kill st' = do_second_kill st /\
  killsig st' = killsig st /\ child_done st' = child_done st /\ pstat st' = pstat st /\
  pending st' = pending st.
Proof.
  revert st; induction sigs as [|s sigs IH]; intros st; [done|]. cbn [fold_left].
  destruct (IH (sig_handler st s)) as (-> & -> & -> & -> & -> & -> & ->).
  apply sig_handler_frame.
Qed.

(** Reaping changes the child's fields only. *)
Lemma reap_frame c ws st :
  let st' := reap c ws st in
  acts st' = acts st /\ timedout st' = timedout st /\ do_second_kill st' = do_second_kill st /\
  sig_alrm st' = sig_alrm st /\ sig_chld st' = sig_chld st.
Proof.
  revert st; induction ws as [|[cpid status|[]] ws IH]; intros st; cbn [reap];
    [done| |apply IH|done].
  destruct (IH (if cpid =? c_pid c then with_child st true status else st)) as (-> & -> & -> & -> & ->).
  by destruct (cpid =? c_pid c).
Qed.

(** ** Default mode *)

(** In the default mode the command has not been signalled, and the timeout has
    not been recorded while the process lives. *)
Definition quiet (st : tstate) : Prop := kills st = [] /\ timedout st = false.

Lemma loop_body_background c ws st :
  c_foreground c = false -> quiet st ->
  kills (result_state (loop_body c ws st)) = [] /\
  (timedout (result_state (loop_body c ws st)) = true ->
     exists st', loop_body c ws st = Died SIGKILL st').
Proof.
  intros Hf [Hk Ht]. unfold loop_body, second_kill_or_break, quiet, kills in *.
  destruct (sig_chld st).
  - destruct (reap_frame c ws (with_chld st false)) as (Ha & Hto & _).
    rewrite Hf. cbn -[reap]. destruct (child_done _); cbn -[reap]; rewrite Ha, Hto; cbn; rewrite Ht; done.
  - rewrite Hf. cbn. destruct (sig_alrm st); cbn; [eauto|].
    destruct (sig_term st =? 0); cbn; [rewrite Ht; done|].
    destruct (do_second_kill st); cbn; [destruct (c_itimer_ok _ _); cbn|]; rewrite Ht; done.
Qed.

Lemma wake_background c sigs ws st :
  c_foreground c = false -> quiet st ->
  kills (result_state (wake c sigs ws st)) = [] /\
  (timedout (result_state (wake c sigs ws st)) = true ->
     exists st', wake c sigs ws st = Died SIGKILL st').
Proof.
  intros Hf [Hk Ht]. apply loop_body_background; [done|].
  destruct (deliver_frame sigs (with_pending st [])) as (Ha & Hto & _).
  unfold quiet, kills in *. by rewrite Ha, Hto.
Qed.

Lemma sleeping_background c ks st0 st :
  c_foreground c = false -> quiet st0 -> sleeping c ks st0 st -> quiet st.
Proof.
  intros Hf H0. induction 1 as [|st st' _ IH Hstep]; [done|].
  remember (Continue st') as r eqn:E. destruct Hstep as [st sigs ws _ _ _].
  destruct (wake_background c sigs ws st Hf IH) as [Hk Ht]. rewrite E in *. cbn in *.
  split; [done|]. destruct (timedout st'); [|done]. by destruct Ht.
Qed.

(** C39. In the default mode (no --foreground), in every run: the command is
    never sent a signal, whatever signals arrive, and the only way the timeout
    can be recorded is the round in which the process kills itself with
    SIGKILL, so the status 124 of the manual is never returned. *)
Theorem default_mode_never_signals_command c ks o first st0 st r :
  c_foreground c = false -> start c o first = Continue st0 ->
  sleeping c ks st0 st -> tstep c ks st r ->
  kills (result_state r) = [] /\
  (timedout (result_state r) = true -> exists st', r = Died SIGKILL st').
Proof.
  intros Hf Hs Hsl Hstep. assert (H0 : quiet st0).
  { unfold start in Hs. destruct (c_itimer_ok c _); [|done]. by injection Hs as <-. }
  destruct Hstep as [st sigs ws _ _ _]. apply wake_background; [done|].
  by apply (sleeping_background c ks st0).
Qed.

(** ** Foreground mode *)

(** At most one signal while asleep, none while the second kill is armed. *)
Definition kill_budget (st : tstate) : Prop :=
  (length (kills st) <= 1)%nat /\ (do_second_kill st = true -> kills st = []).

Lemma send_sig_frame c st s :
  kills (send_sig c st s) = AKill (c_pid c) s :: kills st /\
  do_second_kill (send_sig c st s) = do_second_kill st /\
  killsig (send_sig c st s) = killsig st /\ timedout (send_sig c st s) = timedout st.
Proof. unfold send_sig, kills. by destruct (c_verbose c). Qed.

Lemma second_kill_budget c st :
  (length (kills st) <= 2)%nat -> (do_second_kill st = true -> (length (kills st) <= 1)%nat) ->
  match second_kill_or_break c st with
  | Continue st' => kill_budget st' /\ killsig st' = SIGKILL /\ kills st' = kills st
  | r => (length (kills (result_state r)) <= 2)%nat
  end.
Proof.
  intros H2 H1. unfold second_kill_or_break, kill_budget.
  destruct (do_second_kill st) eqn:E; [|done].
  destruct (c_itimer_ok _ _); [|done]. cbn. split_and!; try done. by apply H1.
Qed.

Lemma wake_budget c sigs ws st :
  kill_budget st ->
  match wake c sigs ws st with
  | Continue st' => kill_budget st'
  | r => (length (kills (result_state r)) <= 2)%nat
  end.
Proof.
  intros [H1 H2]. unfold wake.
  destruct (deliver_frame sigs (with_pending st [])) as (Ha & _ & Hd & _).
  set (st1 := fold_left sig_handler sigs (with_pending st [])) in *.
  assert (Hb : kill_budget st1) by (unfold kill_budget, kills in *; rewrite Ha, Hd; done).
  clearbody st1. clear H1 H2 Ha Hd st. destruct Hb as [H1 H2]. unfold loop_body.
  destruct (sig_chld st1).
  - destruct (reap_frame c ws (with_chld st1 false)) as (Ha & _ & Hd & _).
    assert (Hb : kill_budget (reap c ws (with_chld st1 false)))
      by (unfold kill_budget, kills in *; rewrite Ha, Hd; done).
    destruct (child_done _), (c_foreground c); cbn -[reap]; try done; unfold kill_budget in Hb; lia.
  - assert (Hk : forall st2, kills st2 = kills st1 -> do_second_kill st2 = do_second_kill st1 ->
      match second_kill_or_break c st2 with
      | Continue st' => kill_budget st'
      | r => (length (kills (result_state r)) <= 2)%nat
      end).
    { intros st2 Ek Ed. pose proof (second_kill_budget c st2) as Hs. rewrite Ek, Ed in Hs.
      specialize (Hs ltac:(lia) ltac:(intros; lia)). destruct (second_kill_or_break c st2); intuition. }
    assert (Hsend : forall st2 s, kills st2 = kills st1 -> do_second_kill st2 = do_second_kill st1 ->
      match second_kill_or_break c (send_sig c st2 s) with
      | Continue st' => kill_budget st'
      | r => (length (kills (result_state r)) <= 2)%nat
      end).
    { intros st2 s Ek Ed. destruct (send_sig_frame c st2 s) as (Eks & Eds & _).
      pose proof (second_kill_budget c (send_sig c st2 s)) as Hs. rewrite Eks, Eds, Ek, Ed in Hs.
      cbn in Hs. specialize (Hs ltac:(lia) ltac:(intros Hd; rewrite (H2 Hd); cbn; lia)).
      destruct (second_kill_or_break c _); intuition. }
    destruct (sig_alrm st1).
    + destruct (c_foreground c); cbn; [by apply Hsend|]. unfold kills in *. cbn. lia.
    + destruct (sig_term st1 =? 0); cbn; [done|].
      destruct (c_foreground c); cbn; [by apply Hsend|by apply Hk].
Qed.


Lemma start_state c o first st0 :
  start c o first = Continue st0 ->
  st0 = TState false 0 false 0 (o_killsig o) (o_do_second_kill o) false false 0 [] [ASetInterval first].
Proof. unfold start. destruct (c_itimer_ok c _); [|done]. by intros [= <-]. Qed.

Lemma handle_alrm st : sig_ign st <> SIGALRM -> sig_handler st SIGALRM = with_alrm st true.
Proof.
  intros H. unfold sig_handler. replace (SIGALRM =? sig_ign st) with false by lia.
  by rewrite andb_false_r.
Qed.

Lemma handle_chld st : sig_ign st <> SIGCHLD -> sig_handler st SIGCHLD = with_chld st true.
Proof.
  intros H. unfold sig_handler. replace (SIGCHLD =? sig_ign st) with false by lia.
  by rewrite andb_false_r.
Qed.

Lemma wake_alarm_foreground c ws st :
  c_foreground c = true -> sig_chld st = false -> sig_ign st <> SIGALRM ->
  wake c [SIGALRM] ws st =
    second_kill_or_break c
      (send_sig c (with_timedout (with_alrm (with_alrm (with_pending st []) true) false) true) (killsig st)).
Proof.
  intros Hf Hc Hi. unfold wake. cbn [fold_left]. rewrite handle_alrm by done. unfold loop_body. cbn.
  by rewrite Hc, Hf.
Qed.

(** With --foreground a timeout sends the chosen signal to the command and
    records the timeout; without -k the loop ends there and the final status is
    124 unless --preserve-status was given; with -k (and a signal other than
    SIGALRM) the second alarm sends SIGKILL and ends the loop. *)
Theorem foreground_timeout c o first st0 ws1 ws2 :
  c_foreground c = true -> start c o first = Continue st0 ->
  c_itimer_ok c (set_interval (c_second_kill c)) = true ->
  o_killsig o <> SIGALRM ->
  if o_do_second_kill o then
    exists st1 st2, wake c [SIGALRM] ws1 st0 = Continue st1 /\
      kills st1 = [AKill (c_pid c) (o_killsig o)] /\
      wake c [SIGALRM] ws2 st1 = Break st2 /\
      kills st2 = [AKill (c_pid c) SIGKILL; AKill (c_pid c) (o_killsig o)] /\
      (c_preserve c = false -> forall s, exit_status c (with_child st2 true s) = 124)
  else
    exists st1, wake c [SIGALRM] ws1 st0 = Break st1 /\
      kills st1 = [AKill (c_pid c) (o_killsig o)] /\
      (c_preserve c = false -> forall s, exit_status c (with_child st1 true s) = 124).
Proof.
  intros Hf Hs Hok Hne. rewrite (start_state _ _ _ _ Hs). clear Hs.
  rewrite wake_alarm_foreground by done. unfold second_kill_or_break. rewrite Hok.
  unfold send_sig. destruct (o_do_second_kill o) eqn:Ed, (c_verbose c) eqn:Ev; cbn -[wake];
    try (eexists; split; [done|]; split; [done|]; unfold exit_status; by intros ->);
    eexists; eexists; (split; [done|]); (split; [done|]);
    rewrite wake_alarm_foreground by done; unfold second_kill_or_break, send_sig; rewrite Ev; cbn;
    (split; [done|]); (split; [done|]); unfold exit_status; by intros ->.
Qed.

(** With --foreground and -s ALRM the signal -k promises is lost: after the
    first timeout the handler is told to ignore the next SIGALRM, which is the
    second timer itself, so the round after it sends nothing and goes back to
    sleep. *)
Theorem kill_after_lost_with_alrm c o first st0 ws1 ws2 :
  c_foreground c = true -> start c o first = Continue st0 ->
  c_itimer_ok c (set_interval (c_second_kill c)) = true ->
  o_killsig o = SIGALRM -> o_do_second_kill o = true ->
  exists st1 st2, wake c [SIGALRM] ws1 st0 = Continue st1 /\
    wake c [SIGALRM] ws2 st1 = Continue st2 /\
    kills st2 = [AKill (c_pid c) SIGALRM] /\ do_second_kill st2 = false.
Proof.
  intros Hf Hs Hok Hk Hd. rewrite (start_state _ _ _ _ Hs), Hk, Hd. clear Hs.
  rewrite wake_alarm_foreground by done. unfold second_kill_or_break. rewrite Hok.
  unfold send_sig. destruct (c_verbose c); cbn; eexists; eexists; (split; [done|]); cbn; done.
Qed.

(** Reaping other children leaves the command running. *)
Lemma reap_other c ws st :
  (forall s, WPid (c_pid c) s ∉ ws) -> child_done st = false -> child_done (reap c ws st) = false.
Proof.
  revert st; induction ws as [|[cpid s|[]] ws IH]; intros st Hws Hc; cbn [reap]; try done.
  - apply IH; [set_solver|]. destruct (cpid =? c_pid c) eqn:E; [|done]. bsimp. subst.
    exfalso. apply (Hws s). left.
  - apply IH; [set_solver|done].
Qed.

(** When SIGCHLD and SIGALRM are delivered by the same sigsuspend (in
    either order) and the command itself was not among the reaped children,
    the expiry is not acted on: the round reaps, sends nothing and goes back to
    sleep with the alarm flag still set. *)
Theorem alarm_with_sigchld_deferred c ws st sigs :
  sigs = [SIGCHLD; SIGALRM] \/ sigs = [SIGALRM; SIGCHLD] ->
  sig_ign st <> SIGALRM -> sig_ign st <> SIGCHLD -> child_done st = false ->
  (forall s, WPid (c_pid c) s ∉ ws) ->
  exists st', wake c sigs ws st = Continue st' /\ sig_alrm st' = true /\ acts st' = acts st.
Proof.
  intros Hsigs H1 H2 Hcd Hws.
  assert (Hd : fold_left sig_handler sigs (with_pending st []) =
    with_alrm (with_chld (with_pending st []) true) true).
  { destruct Hsigs as [-> | ->]; cbn [fold_left].
    - by rewrite handle_chld, handle_alrm by done.
    - by rewrite handle_alrm, handle_chld by done. }
  unfold wake. rewrite Hd. unfold loop_body. cbn [sig_chld with_alrm with_chld].
  change (if true then ?x else _) with x. cbv beta iota zeta.
  match goal with |- context [reap c ws ?s] => set (st1 := s) end.
  destruct (reap_frame c ws st1) as (Ha & _ & _ & Hal & _).
  rewrite (reap_other c ws st1 Hws Hcd). eexists. split; [done|]. by rewrite Hal, Ha.
Qed.

(** The status main returns: an exit code is passed on, death by signal s
    gives 128 + s (with or without a core dump), and after a timeout without
    --preserve-status it is 124 whatever the command did. *)
Theorem exit_status_spec c st :
  (timedout st && negb (c_preserve c) = true -> exit_status c st = 124) /\
  (timedout st && negb (c_preserve c) = false ->
     (forall e, 0 <= e <= 255 -> pstat st = e * 256 -> exit_status c st = e) /\
     (forall s core, 1 <= s <= 126 -> core = 0 \/ core = 128 -> pstat st = s + core ->
        exit_status c st = 128 + s)).
Proof.
  unfold exit_status. split; [by intros ->|]. intros ->. split.
  - intros e He ->. destruct (Z.eq_dec e 0) as [->|Hne]; [reflexivity|].
    unfold WEXITSTATUS. rewrite Z.shiftr_div_pow2 by lia. change (2 ^ 8) with 256.
    rewrite Z.div_mul by lia. change 255 with (Z.ones 8).
    rewrite Z.land_ones, Z.mod_small by (change (2 ^ 8) with 256; lia).
    by replace (e =? 0) with false by lia.
  - intros s core Hs Hc ->. unfold WEXITSTATUS, WIFSIGNALED, WTERMSIG.
    rewrite Z.shiftr_div_pow2 by lia. change 127 with (Z.ones 7). rewrite !Z.land_ones by lia.
    rewrite Z.div_small by (change (2 ^ 8) with 256; lia). cbn [Z.land Z.eqb negb].
    assert (Em : (s + core) mod 2 ^ 7 = s).
    { change (2 ^ 7) with 128. destruct Hc as [-> | ->].
      - rewrite Z.add_0_r. apply Z.mod_small. lia.
      - replace (s + 128) with (s + 1 * 128) by lia. rewrite Z.mod_add by lia. apply Z.mod_small. lia. }
    rewrite Em. change (Z.ones 7) with 127. by replace (s =? 127) with false by lia; replace (s =? 0) with false by lia.
Qed.

(** ** Parsing *)

Lemma strtol10_print n : 0 <= n < 2 ^ 63 -> strtol10 (print_base 10 n) = (n, None).
Proof.
  intros Hn. destruct (print_base_spec 10 n ltac:(lia) ltac:(unfold ULONG_MAX; lia))
    as (Hne & Hall & Hnum & _).
  unfold strtol10. destruct (print_base 10 n) as [|c s]; [done|].
  assert (Hc : is_base_digit 10 c = true) by (cbn in Hall; by bsimp).
  apply base_digit_range in Hc; [|done]. cbn [span]. unfold isspace.
  replace ((c =? 32) || ((9 <=? c) && (c <=? 13))) with false by lia. cbn [snd hd0].
  replace (c =? 45) with false by lia. replace (c =? 43) with false by lia. cbn [orb].
  rewrite span_all_nil by done. cbn [fst]. rewrite Hnum.
  replace (n <? - 2 ^ 63) with false by lia. by replace (2 ^ 63 - 1 <? n) with false by lia.
Qed.

Lemma find_signame_none sysn n i str :
  (forall k, i <= k < i + Z.of_nat n -> strcasecmp_eq str (signum_to_signame sysn k) = false) ->
  find_signame sysn n i str = None.
Proof.
  revert i; induction n as [|n IH]; intros i H; [done|]. cbn [find_signame].
  rewrite H by lia. apply IH. intros k Hk. apply H. lia.
Qed.

Lemma find_signame_first sysn n i str k :
  i <= k < i + Z.of_nat n -> strcasecmp_eq str (signum_to_signame sysn k) = true ->
  (forall m, i <= m < k -> strcasecmp_eq str (signum_to_signame sysn m) = false) ->
  find_signame sysn n i str = Some k.
Proof.
  revert i; induction n as [|n IH]; intros i Hk Hm Hlt; [lia|]. cbn [find_signame].
  destruct (Z.eq_dec i k) as [->|Hne]; [by rewrite Hm|].
  rewrite Hlt by lia. apply IH; [lia|done|]. intros m Hm'. apply Hlt. lia.
Qed.

(** A numeric -s argument: the numbers 2 to 31 are accepted as long as no
    earlier call left an error in errno; number 1 (SIGHUP) never is, and after
    such an error no number is, both ending in status 125, when no signal is
    named like the number. *)
Theorem parse_signal_numbers sysn :
  (forall n, 2 <= n < NSIG -> parse_signal sysn ENONE (print_base 10 n) = ioret (n, ENONE)) /\
  (forall e n, 1 <= n < NSIG -> n = 1 \/ e <> ENONE ->
     (forall k, 1 <= k < NSIG -> strcasecmp_eq (print_base 10 n) (signum_to_signame sysn k) = false) ->
     parse_signal sysn e (print_base 10 n) = exit_ EXIT_INVALID (bs "invalid signal")).
Proof.
  assert (Hsint : forall n, 0 <= n < NSIG -> sint 32 n = n).
  { intros n Hn. unfold NSIG in Hn. unfold sint. rewrite Z.mod_small by lia.
    by replace (n <? 2 ^ (32 - 1)) with true by lia. }
  unfold parse_signal. split.
  - intros n Hn. rewrite strtol10_print by (unfold NSIG in Hn; lia). cbn [set_errno errno_is0].
    rewrite Hsint by lia. replace (1 <? n) with true by lia. by replace (n <? NSIG) with true by lia.
  - intros e n Hn Hor Hnames. rewrite strtol10_print by (unfold NSIG in Hn; lia).
    cbn [set_errno]. rewrite Hsint by lia.
    replace (errno_is0 e && (1 <? n) && (n <? NSIG)) with false
      by (destruct e; cbn; destruct Hor; subst; done || lia).
    assert (Hp : has_SIG_prefix (print_base 10 n) = false).
    { destruct (print_base_spec 10 n ltac:(lia) ltac:(unfold NSIG in Hn; unfold ULONG_MAX; lia))
        as (Hne & Hall & _). unfold has_SIG_prefix. apply bool_decide_eq_false_2.
      destruct (print_base 10 n) as [|c s]; [done|]. cbn in Hall. bsimp.
      apply base10_isdigit in H. unfold isdigit in H. bsimp. cbn [take map].
      change (bs "sig") with [115; 105; 103]. intros [= Hc _]. revert Hc. unfold tolower, isupper.
      replace (65 <=? c) with false by lia. cbn. lia. }
    rewrite Hp, find_signame_none; [done|]. intros k Hk. apply Hnames. unfold NSIG. lia.
Qed.

(** Signal names, with or without the prefix SIG and in any case, select
    their signal, for every table of names that are pairwise different up to
    case, do not begin with a digit, sign, blank or SIG themselves. *)
Theorem parse_signal_names sysn e k str :
  1 <= k < NSIG ->
  (forall i j, 1 <= i < NSIG -> 1 <= j < NSIG -> map tolower (sysn i) = map tolower (sysn j) -> i = j) ->
  strtol10 str = (0, Some EINVAL) -> strtol10 (bs "SIG" ++ str) = (0, Some EINVAL) ->
  has_SIG_prefix str = false -> map tolower str = map tolower (sysn k) ->
  parse_signal sysn e str = ioret (k, EINVAL) /\
  parse_signal sysn e (bs "SIG" ++ str) = ioret (k, EINVAL).
Proof.
  intros Hk Hinj Hs1 Hs2 Hp Hname.
  assert (Hfind : find_signame sysn 31 1 str = Some k).
  { apply find_signame_first; [unfold NSIG in Hk; lia| |].
    - unfold signum_to_signame. replace ((k <=? 0) || (NSIG <=? k)) with false by lia.
      by apply bool_decide_eq_true_2.
    - intros m Hm. unfold signum_to_signame. replace ((m <=? 0) || (NSIG <=? m)) with false by lia.
      apply bool_decide_eq_false_2. rewrite Hname. intros E. apply Hinj in E; lia. }
  unfold parse_signal. rewrite Hs1, Hs2, Hp. cbn [set_errno errno_is0 andb].
  rewrite Hfind. split; [done|]. change (has_SIG_prefix (bs "SIG" ++ str)) with true.
  cbv iota. change (drop 3 (bs "SIG" ++ str)) with str. by rewrite Hfind.
Qed.

(** A duration with a unit is scaled by it and must then lie in
    [0, 100000000); a plain number is returned as strtod gave it, without that
    check, so a negative or huge one is accepted. *)
Theorem parse_duration_spec strtod errno s v rest e :
  strtod s = (v, rest, e) -> SFeqb v (S754_zero false) && bool_decide (rest = s) = false ->
  (rest = [] -> parse_duration strtod errno s = ioret (v, set_errno errno e)) /\
  (forall u, rest = [u] -> u <> 0 ->
     parse_duration strtod errno s = invalid_duration \/
     exists mul w, In (u, mul) [(ch "m", 60); (ch "h", 3600); (ch "d", 86400); (ch "s", 1)] /\
       w = (if mul =? 1 then v else dbl_mul v (dbl_of_Z mul)) /\
       SFltb w (S754_zero false) = false /\ SFleb (dbl_of_Z 100000000) w = false /\
       parse_duration strtod errno s = ioret (w, set_errno errno e)).
Proof.
  intros Hs Hz. unfold parse_duration. rewrite Hs, Hz. split; [by intros ->|].
  intros u -> Hu. cbn [hd0 tail]. replace (u =? 0) with false by lia. cbn [Z.eqb negb].
  assert (Hgen : forall w, 
     (let* ret := ioret w in if SFltb ret (S754_zero false) || SFleb (dbl_of_Z 100000000) ret
        then invalid_duration else ioret (ret, set_errno errno e)) = invalid_duration \/
     SFltb w (S754_zero false) = false /\ SFleb (dbl_of_Z 100000000) w = false /\
     (let* ret := ioret w in if SFltb ret (S754_zero false) || SFleb (dbl_of_Z 100000000) ret
        then invalid_duration else ioret (ret, set_errno errno e)) = ioret (w, set_errno errno e)).
  { intros w. rewrite iobind_ret_l.
    destruct (SFltb w _) eqn:E1, (SFleb _ w) eqn:E2; cbn [orb]; auto. }
  destruct (u =? ch "s") eqn:E1; [|destruct (u =? ch "m") eqn:E2; [|destruct (u =? ch "h") eqn:E3;
    [|destruct (u =? ch "d") eqn:E4; [|by left]]]]; bsimp; subst.
  - destruct (Hgen v) as [|]; [by left|right]. exists 1, v. cbn; intuition.
  - destruct (Hgen (dbl_mul v (dbl_of_Z 60))) as [|]; [by left|right]. do 2 eexists. split; [by left|]. split; [done|]. done.
  - destruct (Hgen (dbl_mul v (dbl_of_Z 3600))) as [|]; [by left|right]. do 2 eexists. split; [by right; left|]. split; [done|]. done.
  - destruct (Hgen (dbl_mul v (dbl_of_Z 86400))) as [|]; [by left|right]. do 2 eexists. split; [by right; right; left|]. split; [done|]. done.
Qed.

(** ** Witnesses *)

(** A kernel that accepts every interval, a command with pid 100, and a strtod
    for unsigned integers. *)
Definition demo_config (fg : bool) : config :=
  Config fg false true (S754_zero false) 100 (fun _ => true).
Definition demo_options (ks : Z) (second : bool) : options :=
  Options ks (S754_zero false) second true true false ENONE.
Definition demo_state (ks : Z) (second : bool) : tstate :=
  TState false 0 false 0 ks second false false 0 [] [ASetInterval (dbl_of_Z 5)].
Definition demo_strtod (s : bytes) : double * bytes * option errno_t :=
  let (ds, rest) := span isdigit s in (dbl_of_Z (num_of_digits 10 ds), rest, None).

Lemma default_mode_witness :
  kills (result_state (wake (demo_config false) [SIGALRM] [] (demo_state SIGTERM false))) = [] /\
  exists st', wake (demo_config false) [SIGALRM] [] (demo_state SIGTERM false) = Died SIGKILL st'.
Proof.
  destruct (default_mode_never_signals_command (demo_config false) SIGTERM (demo_options SIGTERM false)
    (dbl_of_Z 5) (demo_state SIGTERM false) (demo_state SIGTERM false)
    (wake (demo_config false) [SIGALRM] [] (demo_state SIGTERM false))) as [H1 H2].
  - reflexivity.
  - reflexivity.
  - apply sleeping_init.
  - apply tstep_wake; [discriminate|repeat constructor|]. intros x Hx. inversion Hx.
  - split; [exact H1|]. apply H2. reflexivity.
Defined.


Lemma foreground_timeout_witness :
  exists st1 st2, wake (demo_config true) [SIGALRM] [] (demo_state SIGTERM true) = Continue st1 /\
    kills st1 = [AKill 100 SIGTERM] /\
    wake (demo_config true) [SIGALRM] [] st1 = Break st2 /\
    kills st2 = [AKill 100 SIGKILL; AKill 100 SIGTERM] /\
    (false = false -> forall s, exit_status (demo_config true) (with_child st2 true s) = 124).
Proof.
  apply (foreground_timeout (demo_config true) (demo_options SIGTERM true) (dbl_of_Z 5)
    (demo_state SIGTERM true) [] []); [reflexivity|reflexivity|reflexivity|discriminate].
Defined.

Lemma kill_after_lost_witness :
  exists st1 st2, wake (demo_config true) [SIGALRM] [] (demo_state SIGALRM true) = Continue st1 /\
    wake (demo_config true) [SIGALRM] [] st1 = Continue st2 /\
    kills st2 = [AKill 100 SIGALRM] /\ do_second_kill st2 = false.
Proof.
  apply (kill_after_lost_with_alrm (demo_config true) (demo_options SIGALRM true) (dbl_of_Z 5)
    (demo_state SIGALRM true) [] []); reflexivity.
Defined.

Lemma alarm_deferred_witness :
  exists st', wake (demo_config true) [SIGCHLD; SIGALRM] [WPid 7 0] (demo_state SIGTERM false) = Continue st' /\
    sig_alrm st' = true /\ acts st' = [ASetInterval (dbl_of_Z 5)].
Proof.
  apply (alarm_with_sigchld_deferred (demo_config true) [WPid 7 0] (demo_state SIGTERM false) [SIGCHLD; SIGALRM]);
    [by left|discriminate|discriminate|reflexivity|].
  intros s H. apply list_elem_of_singleton in H. discriminate.
Defined.

Lemma exit_status_witness :
  exit_status (demo_config true) (with_child (demo_state SIGTERM false) true (3 * 256)) = 3.
Proof.
  destruct (exit_status_spec (demo_config true) (with_child (demo_state SIGTERM false) true (3 * 256))) as [_ H].
  destruct (H ltac:(reflexivity)) as [H' _]. apply (H' 3); [lia|reflexivity].
Defined.

Definition demo_signame (k : Z) : bytes :=
  if k =? 15 then bs "term" else if k =? 9 then bs "kill" else 95 :: print_base 10 k.

Lemma parse_signal_numbers_witness :
  parse_signal demo_signame ENONE (print_base 10 15) = ioret (15, ENONE) /\
  parse_signal demo_signame EINVAL (print_base 10 15) = exit_ EXIT_INVALID (bs "invalid signal").
Proof.
  destruct (parse_signal_numbers demo_signame) as [H1 H2]. split.
  - apply (H1 15). unfold NSIG. lia.
  - apply (H2 EINVAL 15); [unfold NSIG; lia|right; discriminate|].
    intros k Hk. unfold signum_to_signame, demo_signame.
    destruct (_ || _); [reflexivity|]. destruct (k =? 15); [reflexivity|].
    destruct (k =? 9); reflexivity.
Defined.

Lemma demo_signame_inj i j :
  1 <= i < NSIG -> 1 <= j < NSIG -> map tolower (demo_signame i) = map tolower (demo_signame j) -> i = j.
Proof.
  intros Hi Hj.
  assert (H : forallb (fun i => forallb (fun j => implb
     (bool_decide (map tolower (demo_signame (Z.of_nat i)) = map tolower (demo_signame (Z.of_nat j)))) (i =? j)%nat)
     (seq 1 31)) (seq 1 31) = true) by (vm_compute; reflexivity).
  rewrite forallb_forall in H. specialize (H (Z.to_nat i)). rewrite in_seq in H.
  unfold NSIG in *. specialize (H ltac:(lia)). rewrite forallb_forall in H.
  specialize (H (Z.to_nat j)). rewrite in_seq, !Z2Nat.id in H by lia. specialize (H ltac:(lia)).
  intros E. rewrite bool_decide_eq_true_2 in H by done. cbn in H. apply Nat.eqb_eq in H. lia.
Qed.

Lemma parse_signal_names_witness :
  parse_signal demo_signame ENONE (bs "Term") = ioret (15, EINVAL) /\
  parse_signal demo_signame ENONE (bs "SIG" ++ bs "Term") = ioret (15, EINVAL).
Proof.
  apply (parse_signal_names demo_signame ENONE 15 (bs "Term"));
    [unfold NSIG; lia|exact demo_signame_inj|reflexivity|reflexivity|reflexivity|reflexivity].
Defined.

Lemma parse_duration_witness :
  parse_duration demo_strtod ENONE (bs "999999999999") = ioret (dbl_of_Z 999999999999, ENONE) /\
  (parse_duration demo_strtod ENONE (bs "2m") = invalid_duration \/
   exists mul w, In (ch "m", mul) [(ch "m", 60); (ch "h", 3600); (ch "d", 86400); (ch "s", 1)] /\
     w = (if mul =? 1 then dbl_of_Z 2 else dbl_mul (dbl_of_Z 2) (dbl_of_Z mul)) /\
     SFltb w (S754_zero false) = false /\ SFleb (dbl_of_Z 100000000) w = false /\
     parse_duration demo_strtod ENONE (bs "2m") = ioret (w, ENONE)).
Proof.
  split.
  - apply (parse_duration_spec demo_strtod ENONE (bs "999999999999") (dbl_of_Z 999999999999) [] None);
      reflexivity.
  - apply (parse_duration_spec demo_strtod ENONE (bs "2m") (dbl_of_Z 2) [ch "m"] None);
      [reflexivity|reflexivity|reflexivity|discriminate].
Defined.

End Timeout.
