(* ===== verification/Monad.v ===== *)
(** * The state monad of the programs

    Programs that keep their state in globals are functions from a state to an
    outcome: a value and the new state, the end of the process, or undefined
    behaviour.  The state type is a parameter; indent and ee each have their own.
    Weakest preconditions give the rules the proofs about them use. *)

From S2P Require Import Prelude.
From stdpp Require Import base list.
From Stdlib Require Import ZArith.

Open Scope Z_scope.

Inductive sres (S A : Type) :=
| SRet (a : A) (s : S)
| SExit (code : Z) (msg : bytes) (s : S)
| SUndef.
Arguments SRet {S A} a s.
Arguments SExit {S A} code msg s.
Arguments SUndef {S A}.

Definition ST (S A : Type) : Type := S -> sres S A.

Definition ret {S A} (a : A) : ST S A := fun s => SRet a s.
Definition bind {S A B} (m : ST S A) (f : A -> ST S B) : ST S B :=
  fun s => match m s with
           | SRet a s' => f a s'
           | SExit c e s' => SExit c e s'
           | SUndef => SUndef
           end.
Definition get {S} : ST S S := fun s => SRet s s.
Definition modify {S} (f : S -> S) : ST S () := fun s => SRet tt (f s).
Definition mexit {S A} (code : Z) (msg : bytes) : ST S A := fun s => SExit code msg s.
Definition mundef {S A} : ST S A := fun _ => SUndef.

Declare Scope ind_scope.
Delimit Scope ind_scope with ind.
Notation "'let!' x ':=' m 'in' k" := (bind m (fun x => k))
  (at level 10, x pattern, m at level 200, k at level 200) : ind_scope.
Notation "m ;; k" := (bind m (fun _ => k))
  (at level 100, k at level 200, right associativity) : ind_scope.

(** An array access of the program: undefined outside the array. *)
Definition of_opt {S A} (o : option A) : ST S A :=
  match o with
  | Some a => ret a
  | None => mundef
  end.

(** A C truth value. *)
Definition truth (z : Z) : bool := negb (z =? 0).

(** ** Weakest preconditions

    [wp m Q X s]: run in [s], [m] is free of undefined behaviour, ends in [Q]
    when it returns and in [X] when it exits the process. *)

Section WP.
Context {S : Type}.

Definition wp {A} (m : ST S A) (Q : A -> S -> Prop) (X : Z -> bytes -> S -> Prop) (g : S) : Prop :=
  match m g with
  | SRet a g' => Q a g'
  | SExit c e g' => X c e g'
  | SUndef => False
  end.

(** The exit postcondition of code that never leaves the process. *)
Definition noexit (_ : Z) (_ : bytes) (_ : S) : Prop := False.

Lemma wp_bind {A B} (m : ST S A) (f : A -> ST S B) Q X g :
  wp m (fun a g' => wp (f a) Q X g') X g -> wp (bind m f) Q X g.
Proof. unfold wp, bind. by destruct (m g). Qed.

Lemma wp_bind_inv {A B} (m : ST S A) (f : A -> ST S B) Q X g :
  wp (bind m f) Q X g -> wp m (fun a g' => wp (f a) Q X g') X g.
Proof. unfold wp, bind. by destruct (m g). Qed.

Lemma wp_ret {A} (a : A) (Q : A -> S -> Prop) X g : Q a g -> wp (ret a) Q X g.
Proof. done. Qed.

Lemma wp_get (Q : S -> S -> Prop) X g : Q g g -> wp get Q X g.
Proof. done. Qed.

Lemma wp_modify f (Q : () -> S -> Prop) X g : Q tt (f g) -> wp (modify f) Q X g.
Proof. done. Qed.

Lemma wp_of_opt {A} (o : option A) (a : A) (Q : A -> S -> Prop) X g :
  o = Some a -> Q a g -> wp (of_opt o) Q X g.
Proof. by intros ->. Qed.

Lemma wp_mono {A} (m : ST S A) (Q Q' : A -> S -> Prop) X g :
  wp m Q X g -> (forall a g', Q a g' -> Q' a g') -> wp m Q' X g.
Proof. unfold wp. destruct (m g); auto. Qed.

Lemma wp_and {A} (m : ST S A) (Q Q' : A -> S -> Prop) X g :
  wp m Q X g -> wp m Q' X g -> wp m (fun a g' => Q a g' /\ Q' a g') X g.
Proof. unfold wp. destruct (m g); auto. Qed.

Lemma wp_mono_exit {A} (m : ST S A) (Q Q' : A -> S -> Prop) (X X' : Z -> bytes -> S -> Prop) g :
  wp m Q X g -> (forall a g', Q a g' -> Q' a g') -> (forall c e g', X c e g' -> X' c e g') ->
  wp m Q' X' g.
Proof. unfold wp. destruct (m g); auto. Qed.

(** A conditional step is verified branch by branch. *)
Lemma wp_if {A} (b : bool) (m1 m2 : ST S A) Q X g :
  (b = true -> wp m1 Q X g) -> (b = false -> wp m2 Q X g) -> wp (if b then m1 else m2) Q X g.
Proof. destruct b; auto. Qed.

(** What a total run looks like. *)
Lemma wp_run {A} (m : ST S A) Q g :
  wp m Q noexit g -> exists a g', m g = SRet a g' /\ Q a g'.
Proof. unfold wp. destruct (m g); [eauto|done|done]. Qed.
End WP.

(** ** Loops

    [while_ fuel c body] is a C while loop that runs at most [fuel] rounds; a
    loop that needs more is undefined, so a proof that it returns is a proof that
    it ends. *)
Fixpoint while_ {S} (fuel : nat) (c : ST S bool) (body : ST S ()) : ST S () :=
  bind c (fun b =>
    if b then
      match fuel with
      | O => mundef
      | Datatypes.S f => bind body (fun _ => while_ f c body)
      end
    else ret tt).

(** Invariant [I n] with [n] a bound on the rounds still to come. *)
Lemma wp_while {S} (I : nat -> S -> Prop) (c : ST S bool) (body : ST S ()) (Q : () -> S -> Prop) X fuel n s :
  I n s -> (n <= fuel)%nat ->
  (forall n s, I n s ->
     wp c (fun b s' =>
       if b then exists m, n = Datatypes.S m /\ wp body (fun _ s'' => I m s'') X s' else Q tt s') X s) ->
  wp (while_ fuel c body) Q X s.
Proof.
  intros HI Hn Hc. revert n s HI Hn. induction fuel as [|fuel IH]; intros n s HI Hn; cbn [while_];
    apply wp_bind; (eapply wp_mono; [apply Hc, HI|]); intros [] s' Hb; try (by apply wp_ret);
    destruct Hb as (m & -> & Hb); [lia|].
  apply wp_bind. eapply wp_mono; [exact Hb|]. intros [] s'' HI'. apply (IH m); [done|lia].
Qed.
