(* ===== verification/IndentGlobs.v ===== *)
(** * indent(1): global state

    The structures and globals of src/bsd_additions/indent/indent_globs.h and
    the token codes of indent_codes.h.  A C int is a [Z]; the text buffers
    (label, code, comment, token) are the bytes between their start and end
    pointers; [in_buffer] with the index [buf_ptr] is the line being scanned and
    [bp_save] the line kept aside while text is taken from the save buffer;
    [input] is what is still to be read.  Functions of the program are in the
    state monad [M], whose outcome is a value, the end of the process or
    undefined behaviour. *)

From S2P Require Import Prelude Monad.
From stdpp Require Import base list numbers.
From Stdlib Require Import ZArith Lia SpecFloat.

Open Scope Z_scope.

(** C float: IEEE binary32. *)
Abbreviation float := spec_float.

Definition flt_of_Z (z : Z) : float := binary_normalize 24 128 z 0 false.
Definition flt_add (x y : float) : float := SFadd 24 128 x y.
Definition flt_mul (x y : float) : float := SFmul 24 128 x y.

(** ** indent_codes.h *)

Definition newline : Z := 1.
Definition lparen : Z := 2.
Definition rparen : Z := 3.
Definition unary_op : Z := 4.
Definition binary_op : Z := 5.
Definition postop : Z := 6.
Definition question : Z := 7.
Definition casestmt : Z := 8.
Definition colon : Z := 9.
Definition semicolon : Z := 10.
Definition lbrace : Z := 11.
Definition rbrace : Z := 12.
Definition ident : Z := 13.
Definition comma : Z := 14.
Definition comment : Z := 15.
Definition swstmt : Z := 16.
Definition preesc : Z := 17.
Definition form_feed : Z := 18.
Definition decl : Z := 19.
Definition sp_paren : Z := 20.
Definition sp_nparen : Z := 21.
Definition ifstmt : Z := 22.
Definition whilestmt : Z := 23.
Definition forstmt : Z := 24.
Definition stmt : Z := 25.
Definition stmtl : Z := 26.
Definition elselit : Z := 27.
Definition dolit : Z := 28.
Definition dohead : Z := 29.
Definition ifhead : Z := 30.
Definition elsehead : Z := 31.
Definition period : Z := 32.
Definition strpfx : Z := 33.
Definition storage : Z := 34.
Definition funcname : Z := 35.
Definition type_def : Z := 36.
Definition structure : Z := 37.

Definition STACKSIZE : Z := 256.
Definition BACKSLASH : Z := 92.
Definition label_offset : Z := 2.

(** ** indent_globs.h *)

(** struct options *)
Record options := Options {
  blanklines_around_conditional_compilation : Z;
  blanklines_after_declarations_at_proctop : Z;
  blanklines_after_declarations : Z;
  blanklines_after_procs : Z;
  blanklines_before_blockcomments : Z;
  leave_comma : Z;
  btype_2 : Z;
  Bill_Shannon : Z;
  comment_delimiter_on_blankline : Z;
  decl_com_ind : Z;
  cuddle_else : Z;
  continuation_indent : Z;
  case_indent : float;
  com_ind : Z;
  decl_indent : Z;
  ljust_decl : Z;
  unindent_displace : Z;
  extra_expression_indent : Z;
  else_if : Z;
  function_brace_split : Z;
  format_col1_comments : Z;
  format_block_comments : Z;
  indent_parameters : Z;
  ind_size : Z;
  block_comment_max_col : Z;
  local_decl_indent : Z;
  lineup_to_parens_always : Z;
  lineup_to_parens : Z;
  pointer_as_binop : Z;
  proc_calls_space : Z;
  procnames_start_line : Z;
  space_after_cast : Z;
  star_comment_cont : Z;
  swallow_optional_blanklines : Z;
  auto_typedefs : Z;
  tabsize : Z;
  max_col : Z;
  use_tabs : Z;
  verbose : Z
}.

#[export] Instance set_blanklines_around_conditional_compilation : Setter blanklines_around_conditional_compilation := fun f r =>
  Options (f (blanklines_around_conditional_compilation r)) (blanklines_after_declarations_at_proctop r) (blanklines_after_declarations r) (blanklines_after_procs r) (blanklines_before_blockcomments r) (leave_comma r) (btype_2 r) (Bill_Shannon r) (comment_delimiter_on_blankline r) (decl_com_ind r) (cuddle_else r) (continuation_indent r) (case_indent r) (com_ind r) (decl_indent r) (ljust_decl r) (unindent_displace r) (extra_expression_indent r) (else_if r) (function_brace_split r) (format_col1_comments r) (format_block_comments r) (indent_parameters r) (ind_size r) (block_comment_max_col r) (local_decl_indent r) (lineup_to_parens_always r) (lineup_to_parens r) (pointer_as_binop r) (proc_calls_space r) (procnames_start_line r) (space_after_cast r) (star_comment_cont r) (swallow_optional_blanklines r) (auto_typedefs r) (tabsize r) (max_col r) (use_tabs r) (verbose r).
#[export] Instance set_blanklines_after_declarations_at_proctop : Setter blanklines_after_declarations_at_proctop := fun f r =>
  Options (blanklines_around_conditional_compilation r) (f (blanklines_after_declarations_at_proctop r)) (blanklines_after_declarations r) (blanklines_after_procs r) (blanklines_before_blockcomments r) (leave_comma r) (btype_2 r) (Bill_Shannon r) (comment_delimiter_on_blankline r) (decl_com_ind r) (cuddle_else r) (continuation_indent r) (case_indent r) (com_ind r) (decl_indent r) (ljust_decl r) (unindent_displace r) (extra_expression_indent r) (else_if r) (function_brace_split r) (format_col1_comments r) (format_block_comments r) (indent_parameters r) (ind_size r) (block_comment_max_col r) (local_decl_indent r) (lineup_to_parens_always r) (lineup_to_parens r) (pointer_as_binop r) (proc_calls_space r) (procnames_start_line r) (space_after_cast r) (star_comment_cont r) (swallow_optional_blanklines r) (auto_typedefs r) (tabsize r) (max_col r) (use_tabs r) (verbose r).
#[export] Instance set_blanklines_after_declarations : Setter blanklines_after_declarations := fun f r =>
  Options (blanklines_around_conditional_compilation r) (blanklines_after_declarations_at_proctop r) (f (blanklines_after_declarations r)) (blanklines_after_procs r) (blanklines_before_blockcomments r) (leave_comma r) (btype_2 r) (Bill_Shannon r) (comment_delimiter_on_blankline r) (decl_com_ind r) (cuddle_else r) (continuation_indent r) (case_indent r) (com_ind r) (decl_indent r) (ljust_decl r) (unindent_displace r) (extra_expression_indent r) (else_if r) (function_brace_split r) (format_col1_comments r) (format_block_comments r) (indent_parameters r) (ind_size r) (block_comment_max_col r) (local_decl_indent r) (lineup_to_parens_always r) (lineup_to_parens r) (pointer_as_binop r) (proc_calls_space r) (procnames_start_line r) (space_after_cast r) (star_comment_cont r) (swallow_optional_blanklines r) (auto_typedefs r) (tabsize r) (max_col r) (use_tabs r) (verbose r).
#[export] Instance set_blanklines_after_procs : Setter blanklines_after_procs := fun f r =>
  Options (blanklines_around_conditional_compilation r) (blanklines_after_declarations_at_proctop r) (blanklines_after_declarations r) (f (blanklines_after_procs r)) (blanklines_before_blockcomments r) (leave_comma r) (btype_2 r) (Bill_Shannon r) (comment_delimiter_on_blankline r) (decl_com_ind r) (cuddle_else r) (continuation_indent r) (case_indent r) (com_ind r) (decl_indent r) (ljust_decl r) (unindent_displace r) (extra_expression_indent r) (else_if r) (function_brace_split r) (format_col1_comments r) (format_block_comments r) (indent_parameters r) (ind_size r) (block_comment_max_col r) (local_decl_indent r) (lineup_to_parens_always r) (lineup_to_parens r) (pointer_as_binop r) (proc_calls_space r) (procnames_start_line r) (space_after_cast r) (star_comment_cont r) (swallow_optional_blanklines r) (auto_typedefs r) (tabsize r) (max_col r) (use_tabs r) (verbose r).
#[export] Instance set_blanklines_before_blockcomments : Setter blanklines_before_blockcomments := fun f r =>
  Options (blanklines_around_conditional_compilation r) (blanklines_after_declarations_at_proctop r) (blanklines_after_declarations r) (blanklines_after_procs r) (f (blanklines_before_blockcomments r)) (leave_comma r) (btype_2 r) (Bill_Shannon r) (comment_delimiter_on_blankline r) (decl_com_ind r) (cuddle_else r) (continuation_indent r) (case_indent r) (com_ind r) (decl_indent r) (ljust_decl r) (unindent_displace r) (extra_expression_indent r) (else_if r) (function_brace_split r) (format_col1_comments r) (format_block_comments r) (indent_parameters r) (ind_size r) (block_comment_max_col r) (local_decl_indent r) (lineup_to_parens_always r) (lineup_to_parens r) (pointer_as_binop r) (proc_calls_space r) (procnames_start_line r) (space_after_cast r) (star_comment_cont r) (swallow_optional_blanklines r) (auto_typedefs r) (tabsize r) (max_col r) (use_tabs r) (verbose r).
#[export] Instance set_leave_comma : Setter leave_comma := fun f r =>
  Options (blanklines_around_conditional_compilation r) (blanklines_after_declarations_at_proctop r) (blanklines_after_declarations r) (blanklines_after_procs r) (blanklines_before_blockcomments r) (f (leave_comma r)) (btype_2 r) (Bill_Shannon r) (comment_delimiter_on_blankline r) (decl_com_ind r) (cuddle_else r) (continuation_indent r) (case_indent r) (com_ind r) (decl_indent r) (ljust_decl r) (unindent_displace r) (extra_expression_indent r) (else_if r) (function_brace_split r) (format_col1_comments r) (format_block_comments r) (indent_parameters r) (ind_size r) (block_comment_max_col r) (local_decl_indent r) (lineup_to_parens_always r) (lineup_to_parens r) (pointer_as_binop r) (proc_calls_space r) (procnames_start_line r) (space_after_cast r) (star_comment_cont r) (swallow_optional_blanklines r) (auto_typedefs r) (tabsize r) (max_col r) (use_tabs r) (verbose r).
#[export] Instance set_btype_2 : Setter btype_2 := fun f r =>
  Options (blanklines_around_conditional_compilation r) (blanklines_after_declarations_at_proctop r) (blanklines_after_declarations r) (blanklines_after_procs r) (blanklines_before_blockcomments r) (leave_comma r) (f (btype_2 r)) (Bill_Shannon r) (comment_delimiter_on_blankline r) (decl_com_ind r) (cuddle_else r) (continuation_indent r) (case_indent r) (com_ind r) (decl_indent r) (ljust_decl r) (unindent_displace r) (extra_expression_indent r) (else_if r) (function_brace_split r) (format_col1_comments r) (format_block_comments r) (indent_parameters r) (ind_size r) (block_comment_max_col r) (local_decl_indent r) (lineup_to_parens_always r) (lineup_to_parens r) (pointer_as_binop r) (proc_calls_space r) (procnames_start_line r) (space_after_cast r) (star_comment_cont r) (swallow_optional_blanklines r) (auto_typedefs r) (tabsize r) (max_col r) (use_tabs r) (verbose r).
#[export] Instance set_Bill_Shannon : Setter Bill_Shannon := fun f r =>
  Options (blanklines_around_conditional_compilation r) (blanklines_after_declarations_at_proctop r) (blanklines_after_declarations r) (blanklines_after_procs r) (blanklines_before_blockcomments r) (leave_comma r) (btype_2 r) (f (Bill_Shannon r)) (comment_delimiter_on_blankline r) (decl_com_ind r) (cuddle_else r) (continuation_indent r) (case_indent r) (com_ind r) (decl_indent r) (ljust_decl r) (unindent_displace r) (extra_expression_indent r) (else_if r) (function_brace_split r) (format_col1_comments r) (format_block_comments r) (indent_parameters r) (ind_size r) (block_comment_max_col r) (local_decl_indent r) (lineup_to_parens_always r) (lineup_to_parens r) (pointer_as_binop r) (proc_calls_space r) (procnames_start_line r) (space_after_cast r) (star_comment_cont r) (swallow_optional_blanklines r) (auto_typedefs r) (tabsize r) (max_col r) (use_tabs r) (verbose r).
#[export] Instance set_comment_delimiter_on_blankline : Setter comment_delimiter_on_blankline := fun f r =>
  Options (blanklines_around_conditional_compilation r) (blanklines_after_declarations_at_proctop r) (blanklines_after_declarations r) (blanklines_after_procs r) (blanklines_before_blockcomments r) (leave_comma r) (btype_2 r) (Bill_Shannon r) (f (comment_delimiter_on_blankline r)) (decl_com_ind r) (cuddle_else r) (continuation_indent r) (case_indent r) (com_ind r) (decl_indent r) (ljust_decl r) (unindent_displace r) (extra_expression_indent r) (else_if r) (function_brace_split r) (format_col1_comments r) (format_block_comments r) (indent_parameters r) (ind_size r) (block_comment_max_col r) (local_decl_indent r) (lineup_to_parens_always r) (lineup_to_parens r) (pointer_as_binop r) (proc_calls_space r) (procnames_start_line r) (space_after_cast r) (star_comment_cont r) (swallow_optional_blanklines r) (auto_typedefs r) (tabsize r) (max_col r) (use_tabs r) (verbose r).
#[export] Instance set_decl_com_ind : Setter decl_com_ind := fun f r =>
  Options (blanklines_around_conditional_compilation r) (blanklines_after_declarations_at_proctop r) (blanklines_after_declarations r) (blanklines_after_procs r) (blanklines_before_blockcomments r) (leave_comma r) (btype_2 r) (Bill_Shannon r) (comment_delimiter_on_blankline r) (f (decl_com_ind r)) (cuddle_else r) (continuation_indent r) (case_indent r) (com_ind r) (decl_indent r) (ljust_decl r) (unindent_displace r) (extra_expression_indent r) (else_if r) (function_brace_split r) (format_col1_comments r) (format_block_comments r) (indent_parameters r) (ind_size r) (block_comment_max_col r) (local_decl_indent r) (lineup_to_parens_always r) (lineup_to_parens r) (pointer_as_binop r) (proc_calls_space r) (procnames_start_line r) (space_after_cast r) (star_comment_cont r) (swallow_optional_blanklines r) (auto_typedefs r) (tabsize r) (max_col r) (use_tabs r) (verbose r).
#[export] Instance set_cuddle_else : Setter cuddle_else := fun f r =>
  Options (blanklines_around_conditional_compilation r) (blanklines_after_declarations_at_proctop r) (blanklines_after_declarations r) (blanklines_after_procs r) (blanklines_before_blockcomments r) (leave_comma r) (btype_2 r) (Bill_Shannon r) (comment_delimiter_on_blankline r) (decl_com_ind r) (f (cuddle_else r)) (continuation_indent r) (case_indent r) (com_ind r) (decl_indent r) (ljust_decl r) (unindent_displace r) (extra_expression_indent r) (else_if r) (function_brace_split r) (format_col1_comments r) (format_block_comments r) (indent_parameters r) (ind_size r) (block_comment_max_col r) (local_decl_indent r) (lineup_to_parens_always r) (lineup_to_parens r) (pointer_as_binop r) (proc_calls_space r) (procnames_start_line r) (space_after_cast r) (star_comment_cont r) (swallow_optional_blanklines r) (auto_typedefs r) (tabsize r) (max_col r) (use_tabs r) (verbose r).
#[export] Instance set_continuation_indent : Setter continuation_indent := fun f r =>
  Options (blanklines_around_conditional_compilation r) (blanklines_after_declarations_at_proctop r) (blanklines_after_declarations r) (blanklines_after_procs r) (blanklines_before_blockcomments r) (leave_comma r) (btype_2 r) (Bill_Shannon r) (comment_delimiter_on_blankline r) (decl_com_ind r) (cuddle_else r) (f (continuation_indent r)) (case_indent r) (com_ind r) (decl_indent r) (ljust_decl r) (unindent_displace r) (extra_expression_indent r) (else_if r) (function_brace_split r) (format_col1_comments r) (format_block_comments r) (indent_parameters r) (ind_size r) (block_comment_max_col r) (local_decl_indent r) (lineup_to_parens_always r) (lineup_to_parens r) (pointer_as_binop r) (proc_calls_space r) (procnames_start_line r) (space_after_cast r) (star_comment_cont r) (swallow_optional_blanklines r) (auto_typedefs r) (tabsize r) (max_col r) (use_tabs r) (verbose r).
#[export] Instance set_case_indent : Setter case_indent := fun f r =>
  Options (blanklines_around_conditional_compilation r) (blanklines_after_declarations_at_proctop r) (blanklines_after_declarations r) (blanklines_after_procs r) (blanklines_before_blockcomments r) (leave_comma r) (btype_2 r) (Bill_Shannon r) (comment_delimiter_on_blankline r) (decl_com_ind r) (cuddle_else r) (continuation_indent r) (f (case_indent r)) (com_ind r) (decl_indent r) (ljust_decl r) (unindent_displace r) (extra_expression_indent r) (else_if r) (function_brace_split r) (format_col1_comments r) (format_block_comments r) (indent_parameters r) (ind_size r) (block_comment_max_col r) (local_decl_indent r) (lineup_to_parens_always r) (lineup_to_parens r) (pointer_as_binop r) (proc_calls_space r) (procnames_start_line r) (space_after_cast r) (star_comment_cont r) (swallow_optional_blanklines r) (auto_typedefs r) (tabsize r) (max_col r) (use_tabs r) (verbose r).
#[export] Instance set_com_ind : Setter com_ind := fun f r =>
  Options (blanklines_around_conditional_compilation r) (blanklines_after_declarations_at_proctop r) (blanklines_after_declarations r) (blanklines_after_procs r) (blanklines_before_blockcomments r) (leave_comma r) (btype_2 r) (Bill_Shannon r) (comment_delimiter_on_blankline r) (decl_com_ind r) (cuddle_else r) (continuation_indent r) (case_indent r) (f (com_ind r)) (decl_indent r) (ljust_decl r) (unindent_displace r) (extra_expression_indent r) (else_if r) (function_brace_split r) (format_col1_comments r) (format_block_comments r) (indent_parameters r) (ind_size r) (block_comment_max_col r) (local_decl_indent r) (lineup_to_parens_always r) (lineup_to_parens r) (pointer_as_binop r) (proc_calls_space r) (procnames_start_line r) (space_after_cast r) (star_comment_cont r) (swallow_optional_blanklines r) (auto_typedefs r) (tabsize r) (max_col r) (use_tabs r) (verbose r).
#[export] Instance set_decl_indent : Setter decl_indent := fun f r =>
  Options (blanklines_around_conditional_compilation r) (blanklines_after_declarations_at_proctop r) (blanklines_after_declarations r) (blanklines_after_procs r) (blanklines_before_blockcomments r) (leave_comma r) (btype_2 r) (Bill_Shannon r) (comment_delimiter_on_blankline r) (decl_com_ind r) (cuddle_else r) (continuation_indent r) (case_indent r) (com_ind r) (f (decl_indent r)) (ljust_decl r) (unindent_displace r) (extra_expression_indent r) (else_if r) (function_brace_split r) (format_col1_comments r) (format_block_comments r) (indent_parameters r) (ind_size r) (block_comment_max_col r) (local_decl_indent r) (lineup_to_parens_always r) (lineup_to_parens r) (pointer_as_binop r) (proc_calls_space r) (procnames_start_line r) (space_after_cast r) (star_comment_cont r) (swallow_optional_blanklines r) (auto_typedefs r) (tabsize r) (max_col r) (use_tabs r) (verbose r).
#[export] Instance set_ljust_decl : Setter ljust_decl := fun f r =>
  Options (blanklines_around_conditional_compilation r) (blanklines_after_declarations_at_proctop r) (blanklines_after_declarations r) (blanklines_after_procs r) (blanklines_before_blockcomments r) (leave_comma r) (btype_2 r) (Bill_Shannon r) (comment_delimiter_on_blankline r) (decl_com_ind r) (cuddle_else r) (continuation_indent r) (case_indent r) (com_ind r) (decl_indent r) (f (ljust_decl r)) (unindent_displace r) (extra_expression_indent r) (else_if r) (function_brace_split r) (format_col1_comments r) (format_block_comments r) (indent_parameters r) (ind_size r) (block_comment_max_col r) (local_decl_indent r) (lineup_to_parens_always r) (lineup_to_parens r) (pointer_as_binop r) (proc_calls_space r) (procnames_start_line r) (space_after_cast r) (star_comment_cont r) (swallow_optional_blanklines r) (auto_typedefs r) (tabsize r) (max_col r) (use_tabs r) (verbose r).
#[export] Instance set_unindent_displace : Setter unindent_displace := fun f r =>
  Options (blanklines_around_conditional_compilation r) (blanklines_after_declarations_at_proctop r) (blanklines_after_declarations r) (blanklines_after_procs r) (blanklines_before_blockcomments r) (leave_comma r) (btype_2 r) (Bill_Shannon r) (comment_delimiter_on_blankline r) (decl_com_ind r) (cuddle_else r) (continuation_indent r) (case_indent r) (com_ind r) (decl_indent r) (ljust_decl r) (f (unindent_displace r)) (extra_expression_indent r) (else_if r) (function_brace_split r) (format_col1_comments r) (format_block_comments r) (indent_parameters r) (ind_size r) (block_comment_max_col r) (local_decl_indent r) (lineup_to_parens_always r) (lineup_to_parens r) (pointer_as_binop r) (proc_calls_space r) (procnames_start_line r) (space_after_cast r) (star_comment_cont r) (swallow_optional_blanklines r) (auto_typedefs r) (tabsize r) (max_col r) (use_tabs r) (verbose r).
#[export] Instance set_extra_expression_indent : Setter extra_expression_indent := fun f r =>
  Options (blanklines_around_conditional_compilation r) (blanklines_after_declarations_at_proctop r) (blanklines_after_declarations r) (blanklines_after_procs r) (blanklines_before_blockcomments r) (leave_comma r) (btype_2 r) (Bill_Shannon r) (comment_delimiter_on_blankline r) (decl_com_ind r) (cuddle_else r) (continuation_indent r) (case_indent r) (com_ind r) (decl_indent r) (ljust_decl r) (unindent_displace r) (f (extra_expression_indent r)) (else_if r) (function_brace_split r) (format_col1_comments r) (format_block_comments r) (indent_parameters r) (ind_size r) (block_comment_max_col r) (local_decl_indent r) (lineup_to_parens_always r) (lineup_to_parens r) (pointer_as_binop r) (proc_calls_space r) (procnames_start_line r) (space_after_cast r) (star_comment_cont r) (swallow_optional_blanklines r) (auto_typedefs r) (tabsize r) (max_col r) (use_tabs r) (verbose r).
#[export] Instance set_else_if : Setter else_if := fun f r =>
  Options (blanklines_around_conditional_compilation r) (blanklines_after_declarations_at_proctop r) (blanklines_after_declarations r) (blanklines_after_procs r) (blanklines_before_blockcomments r) (leave_comma r) (btype_2 r) (Bill_Shannon r) (comment_delimiter_on_blankline r) (decl_com_ind r) (cuddle_else r) (continuation_indent r) (case_indent r) (com_ind r) (decl_indent r) (ljust_decl r) (unindent_displace r) (extra_expression_indent r) (f (else_if r)) (function_brace_split r) (format_col1_comments r) (format_block_comments r) (indent_parameters r) (ind_size r) (block_comment_max_col r) (local_decl_indent r) (lineup_to_parens_always r) (lineup_to_parens r) (pointer_as_binop r) (proc_calls_space r) (procnames_start_line r) (space_after_cast r) (star_comment_cont r) (swallow_optional_blanklines r) (auto_typedefs r) (tabsize r) (max_col r) (use_tabs r) (verbose r).
#[export] Instance set_function_brace_split : Setter function_brace_split := fun f r =>
  Options (blanklines_around_conditional_compilation r) (blanklines_after_declarations_at_proctop r) (blanklines_after_declarations r) (blanklines_after_procs r) (blanklines_before_blockcomments r) (leave_comma r) (btype_2 r) (Bill_Shannon r) (comment_delimiter_on_blankline r) (decl_com_ind r) (cuddle_else r) (continuation_indent r) (case_indent r) (com_ind r) (decl_indent r) (ljust_decl r) (unindent_displace r) (extra_expression_indent r) (else_if r) (f (function_brace_split r)) (format_col1_comments r) (format_block_comments r) (indent_parameters r) (ind_size r) (block_comment_max_col r) (local_decl_indent r) (lineup_to_parens_always r) (lineup_to_parens r) (pointer_as_binop r) (proc_calls_space r) (procnames_start_line r) (space_after_cast r) (star_comment_cont r) (swallow_optional_blanklines r) (auto_typedefs r) (tabsize r) (max_col r) (use_tabs r) (verbose r).
#[export] Instance set_format_col1_comments : Setter format_col1_comments := fun f r =>
  Options (blanklines_around_conditional_compilation r) (blanklines_after_declarations_at_proctop r) (blanklines_after_declarations r) (blanklines_after_procs r) (blanklines_before_blockcomments r) (leave_comma r) (btype_2 r) (Bill_Shannon r) (comment_delimiter_on_blankline r) (decl_com_ind r) (cuddle_else r) (continuation_indent r) (case_indent r) (com_ind r) (decl_indent r) (ljust_decl r) (unindent_displace r) (extra_expression_indent r) (else_if r) (function_brace_split r) (f (format_col1_comments r)) (format_block_comments r) (indent_parameters r) (ind_size r) (block_comment_max_col r) (local_decl_indent r) (lineup_to_parens_always r) (lineup_to_parens r) (pointer_as_binop r) (proc_calls_space r) (procnames_start_line r) (space_after_cast r) (star_comment_cont r) (swallow_optional_blanklines r) (auto_typedefs r) (tabsize r) (max_col r) (use_tabs r) (verbose r).
#[export] Instance set_format_block_comments : Setter format_block_comments := fun f r =>
  Options (blanklines_around_conditional_compilation r) (blanklines_after_declarations_at_proctop r) (blanklines_after_declarations r) (blanklines_after_procs r) (blanklines_before_blockcomments r) (leave_comma r) (btype_2 r) (Bill_Shannon r) (comment_delimiter_on_blankline r) (decl_com_ind r) (cuddle_else r) (continuation_indent r) (case_indent r) (com_ind r) (decl_indent r) (ljust_decl r) (unindent_displace r) (extra_expression_indent r) (else_if r) (function_brace_split r) (format_col1_comments r) (f (format_block_comments r)) (indent_parameters r) (ind_size r) (block_comment_max_col r) (local_decl_indent r) (lineup_to_parens_always r) (lineup_to_parens r) (pointer_as_binop r) (proc_calls_space r) (procnames_start_line r) (space_after_cast r) (star_comment_cont r) (swallow_optional_blanklines r) (auto_typedefs r) (tabsize r) (max_col r) (use_tabs r) (verbose r).
#[export] Instance set_indent_parameters : Setter indent_parameters := fun f r =>
  Options (blanklines_around_conditional_compilation r) (blanklines_after_declarations_at_proctop r) (blanklines_after_declarations r) (blanklines_after_procs r) (blanklines_before_blockcomments r) (leave_comma r) (btype_2 r) (Bill_Shannon r) (comment_delimiter_on_blankline r) (decl_com_ind r) (cuddle_else r) (continuation_indent r) (case_indent r) (com_ind r) (decl_indent r) (ljust_decl r) (unindent_displace r) (extra_expression_indent r) (else_if r) (function_brace_split r) (format_col1_comments r) (format_block_comments r) (f (indent_parameters r)) (ind_size r) (block_comment_max_col r) (local_decl_indent r) (lineup_to_parens_always r) (lineup_to_parens r) (pointer_as_binop r) (proc_calls_space r) (procnames_start_line r) (space_after_cast r) (star_comment_cont r) (swallow_optional_blanklines r) (auto_typedefs r) (tabsize r) (max_col r) (use_tabs r) (verbose r).
#[export] Instance set_ind_size : Setter ind_size := fun f r =>
  Options (blanklines_around_conditional_compilation r) (blanklines_after_declarations_at_proctop r) (blanklines_after_declarations r) (blanklines_after_procs r) (blanklines_before_blockcomments r) (leave_comma r) (btype_2 r) (Bill_Shannon r) (comment_delimiter_on_blankline r) (decl_com_ind r) (cuddle_else r) (continuation_indent r) (case_indent r) (com_ind r) (decl_indent r) (ljust_decl r) (unindent_displace r) (extra_expression_indent r) (else_if r) (function_brace_split r) (format_col1_comments r) (format_block_comments r) (indent_parameters r) (f (ind_size r)) (block_comment_max_col r) (local_decl_indent r) (lineup_to_parens_always r) (lineup_to_parens r) (pointer_as_binop r) (proc_calls_space r) (procnames_start_line r) (space_after_cast r) (star_comment_cont r) (swallow_optional_blanklines r) (auto_typedefs r) (tabsize r) (max_col r) (use_tabs r) (verbose r).
#[export] Instance set_block_comment_max_col : Setter block_comment_max_col := fun f r =>
  Options (blanklines_around_conditional_compilation r) (blanklines_after_declarations_at_proctop r) (blanklines_after_declarations r) (blanklines_after_procs r) (blanklines_before_blockcomments r) (leave_comma r) (btype_2 r) (Bill_Shannon r) (comment_delimiter_on_blankline r) (decl_com_ind r) (cuddle_else r) (continuation_indent r) (case_indent r) (com_ind r) (decl_indent r) (ljust_decl r) (unindent_displace r) (extra_expression_indent r) (else_if r) (function_brace_split r) (format_col1_comments r) (format_block_comments r) (indent_parameters r) (ind_size r) (f (block_comment_max_col r)) (local_decl_indent r) (lineup_to_parens_always r) (lineup_to_parens r) (pointer_as_binop r) (proc_calls_space r) (procnames_start_line r) (space_after_cast r) (star_comment_cont r) (swallow_optional_blanklines r) (auto_typedefs r) (tabsize r) (max_col r) (use_tabs r) (verbose r).
#[export] Instance set_local_decl_indent : Setter local_decl_indent := fun f r =>
  Options (blanklines_around_conditional_compilation r) (blanklines_after_declarations_at_proctop r) (blanklines_after_declarations r) (blanklines_after_procs r) (blanklines_before_blockcomments r) (leave_comma r) (btype_2 r) (Bill_Shannon r) (comment_delimiter_on_blankline r) (decl_com_ind r) (cuddle_else r) (continuation_indent r) (case_indent r) (com_ind r) (decl_indent r) (ljust_decl r) (unindent_displace r) (extra_expression_indent r) (else_if r) (function_brace_split r) (format_col1_comments r) (format_block_comments r) (indent_parameters r) (ind_size r) (block_comment_max_col r) (f (local_decl_indent r)) (lineup_to_parens_always r) (lineup_to_parens r) (pointer_as_binop r) (proc_calls_space r) (procnames_start_line r) (space_after_cast r) (star_comment_cont r) (swallow_optional_blanklines r) (auto_typedefs r) (tabsize r) (max_col r) (use_tabs r) (verbose r).
#[export] Instance set_lineup_to_parens_always : Setter lineup_to_parens_always := fun f r =>
  Options (blanklines_around_conditional_compilation r) (blanklines_after_declarations_at_proctop r) (blanklines_after_declarations r) (blanklines_after_procs r) (blanklines_before_blockcomments r) (leave_comma r) (btype_2 r) (Bill_Shannon r) (comment_delimiter_on_blankline r) (decl_com_ind r) (cuddle_else r) (continuation_indent r) (case_indent r) (com_ind r) (decl_indent r) (ljust_decl r) (unindent_displace r) (extra_expression_indent r) (else_if r) (function_brace_split r) (format_col1_comments r) (format_block_comments r) (indent_parameters r) (ind_size r) (block_comment_max_col r) (local_decl_indent r) (f (lineup_to_parens_always r)) (lineup_to_parens r) (pointer_as_binop r) (proc_calls_space r) (procnames_start_line r) (space_after_cast r) (star_comment_cont r) (swallow_optional_blanklines r) (auto_typedefs r) (tabsize r) (max_col r) (use_tabs r) (verbose r).
#[export] Instance set_lineup_to_parens : Setter lineup_to_parens := fun f r =>
  Options (blanklines_around_conditional_compilation r) (blanklines_after_declarations_at_proctop r) (blanklines_after_declarations r) (blanklines_after_procs r) (blanklines_before_blockcomments r) (leave_comma r) (btype_2 r) (Bill_Shannon r) (comment_delimiter_on_blankline r) (decl_com_ind r) (cuddle_else r) (continuation_indent r) (case_indent r) (com_ind r) (decl_indent r) (ljust_decl r) (unindent_displace r) (extra_expression_indent r) (else_if r) (function_brace_split r) (format_col1_comments r) (format_block_comments r) (indent_parameters r) (ind_size r) (block_comment_max_col r) (local_decl_indent r) (lineup_to_parens_always r) (f (lineup_to_parens r)) (pointer_as_binop r) (proc_calls_space r) (procnames_start_line r) (space_after_cast r) (star_comment_cont r) (swallow_optional_blanklines r) (auto_typedefs r) (tabsize r) (max_col r) (use_tabs r) (verbose r).
#[export] Instance set_pointer_as_binop : Setter pointer_as_binop := fun f r =>
  Options (blanklines_around_conditional_compilation r) (blanklines_after_declarations_at_proctop r) (blanklines_after_declarations r) (blanklines_after_procs r) (blanklines_before_blockcomments r) (leave_comma r) (btype_2 r) (Bill_Shannon r) (comment_delimiter_on_blankline r) (decl_com_ind r) (cuddle_else r) (continuation_indent r) (case_indent r) (com_ind r) (decl_indent r) (ljust_decl r) (unindent_displace r) (extra_expression_indent r) (else_if r) (function_brace_split r) (format_col1_comments r) (format_block_comments r) (indent_parameters r) (ind_size r) (block_comment_max_col r) (local_decl_indent r) (lineup_to_parens_always r) (lineup_to_parens r) (f (pointer_as_binop r)) (proc_calls_space r) (procnames_start_line r) (space_after_cast r) (star_comment_cont r) (swallow_optional_blanklines r) (auto_typedefs r) (tabsize r) (max_col r) (use_tabs r) (verbose r).
#[export] Instance set_proc_calls_space : Setter proc_calls_space := fun f r =>
  Options (blanklines_around_conditional_compilation r) (blanklines_after_declarations_at_proctop r) (blanklines_after_declarations r) (blanklines_after_procs r) (blanklines_before_blockcomments r) (leave_comma r) (btype_2 r) (Bill_Shannon r) (comment_delimiter_on_blankline r) (decl_com_ind r) (cuddle_else r) (continuation_indent r) (case_indent r) (com_ind r) (decl_indent r) (ljust_decl r) (unindent_displace r) (extra_expression_indent r) (else_if r) (function_brace_split r) (format_col1_comments r) (format_block_comments r) (indent_parameters r) (ind_size r) (block_comment_max_col r) (local_decl_indent r) (lineup_to_parens_always r) (lineup_to_parens r) (pointer_as_binop r) (f (proc_calls_space r)) (procnames_start_line r) (space_after_cast r) (star_comment_cont r) (swallow_optional_blanklines r) (auto_typedefs r) (tabsize r) (max_col r) (use_tabs r) (verbose r).
#[export] Instance set_procnames_start_line : Setter procnames_start_line := fun f r =>
  Options (blanklines_around_conditional_compilation r) (blanklines_after_declarations_at_proctop r) (blanklines_after_declarations r) (blanklines_after_procs r) (blanklines_before_blockcomments r) (leave_comma r) (btype_2 r) (Bill_Shannon r) (comment_delimiter_on_blankline r) (decl_com_ind r) (cuddle_else r) (continuation_indent r) (case_indent r) (com_ind r) (decl_indent r) (ljust_decl r) (unindent_displace r) (extra_expression_indent r) (else_if r) (function_brace_split r) (format_col1_comments r) (format_block_comments r) (indent_parameters r) (ind_size r) (block_comment_max_col r) (local_decl_indent r) (lineup_to_parens_always r) (lineup_to_parens r) (pointer_as_binop r) (proc_calls_space r) (f (procnames_start_line r)) (space_after_cast r) (star_comment_cont r) (swallow_optional_blanklines r) (auto_typedefs r) (tabsize r) (max_col r) (use_tabs r) (verbose r).
#[export] Instance set_space_after_cast : Setter space_after_cast := fun f r =>
  Options (blanklines_around_conditional_compilation r) (blanklines_after_declarations_at_proctop r) (blanklines_after_declarations r) (blanklines_after_procs r) (blanklines_before_blockcomments r) (leave_comma r) (btype_2 r) (Bill_Shannon r) (comment_delimiter_on_blankline r) (decl_com_ind r) (cuddle_else r) (continuation_indent r) (case_indent r) (com_ind r) (decl_indent r) (ljust_decl r) (unindent_displace r) (extra_expression_indent r) (else_if r) (function_brace_split r) (format_col1_comments r) (format_block_comments r) (indent_parameters r) (ind_size r) (block_comment_max_col r) (local_decl_indent r) (lineup_to_parens_always r) (lineup_to_parens r) (pointer_as_binop r) (proc_calls_space r) (procnames_start_line r) (f (space_after_cast r)) (star_comment_cont r) (swallow_optional_blanklines r) (auto_typedefs r) (tabsize r) (max_col r) (use_tabs r) (verbose r).
#[export] Instance set_star_comment_cont : Setter star_comment_cont := fun f r =>
  Options (blanklines_around_conditional_compilation r) (blanklines_after_declarations_at_proctop r) (blanklines_after_declarations r) (blanklines_after_procs r) (blanklines_before_blockcomments r) (leave_comma r) (btype_2 r) (Bill_Shannon r) (comment_delimiter_on_blankline r) (decl_com_ind r) (cuddle_else r) (continuation_indent r) (case_indent r) (com_ind r) (decl_indent r) (ljust_decl r) (unindent_displace r) (extra_expression_indent r) (else_if r) (function_brace_split r) (format_col1_comments r) (format_block_comments r) (indent_parameters r) (ind_size r) (block_comment_max_col r) (local_decl_indent r) (lineup_to_parens_always r) (lineup_to_parens r) (pointer_as_binop r) (proc_calls_space r) (procnames_start_line r) (space_after_cast r) (f (star_comment_cont r)) (swallow_optional_blanklines r) (auto_typedefs r) (tabsize r) (max_col r) (use_tabs r) (verbose r).
#[export] Instance set_swallow_optional_blanklines : Setter swallow_optional_blanklines := fun f r =>
  Options (blanklines_around_conditional_compilation r) (blanklines_after_declarations_at_proctop r) (blanklines_after_declarations r) (blanklines_after_procs r) (blanklines_before_blockcomments r) (leave_comma r) (btype_2 r) (Bill_Shannon r) (comment_delimiter_on_blankline r) (decl_com_ind r) (cuddle_else r) (continuation_indent r) (case_indent r) (com_ind r) (decl_indent r) (ljust_decl r) (unindent_displace r) (extra_expression_indent r) (else_if r) (function_brace_split r) (format_col1_comments r) (format_block_comments r) (indent_parameters r) (ind_size r) (block_comment_max_col r) (local_decl_indent r) (lineup_to_parens_always r) (lineup_to_parens r) (pointer_as_binop r) (proc_calls_space r) (procnames_start_line r) (space_after_cast r) (star_comment_cont r) (f (swallow_optional_blanklines r)) (auto_typedefs r) (tabsize r) (max_col r) (use_tabs r) (verbose r).
#[export] Instance set_auto_typedefs : Setter auto_typedefs := fun f r =>
  Options (blanklines_around_conditional_compilation r) (blanklines_after_declarations_at_proctop r) (blanklines_after_declarations r) (blanklines_after_procs r) (blanklines_before_blockcomments r) (leave_comma r) (btype_2 r) (Bill_Shannon r) (comment_delimiter_on_blankline r) (decl_com_ind r) (cuddle_else r) (continuation_indent r) (case_indent r) (com_ind r) (decl_indent r) (ljust_decl r) (unindent_displace r) (extra_expression_indent r) (else_if r) (function_brace_split r) (format_col1_comments r) (format_block_comments r) (indent_parameters r) (ind_size r) (block_comment_max_col r) (local_decl_indent r) (lineup_to_parens_always r) (lineup_to_parens r) (pointer_as_binop r) (proc_calls_space r) (procnames_start_line r) (space_after_cast r) (star_comment_cont r) (swallow_optional_blanklines r) (f (auto_typedefs r)) (tabsize r) (max_col r) (use_tabs r) (verbose r).
#[export] Instance set_tabsize : Setter tabsize := fun f r =>
  Options (blanklines_around_conditional_compilation r) (blanklines_after_declarations_at_proctop r) (blanklines_after_declarations r) (blanklines_after_procs r) (blanklines_before_blockcomments r) (leave_comma r) (btype_2 r) (Bill_Shannon r) (comment_delimiter_on_blankline r) (decl_com_ind r) (cuddle_else r) (continuation_indent r) (case_indent r) (com_ind r) (decl_indent r) (ljust_decl r) (unindent_displace r) (extra_expression_indent r) (else_if r) (function_brace_split r) (format_col1_comments r) (format_block_comments r) (indent_parameters r) (ind_size r) (block_comment_max_col r) (local_decl_indent r) (lineup_to_parens_always r) (lineup_to_parens r) (pointer_as_binop r) (proc_calls_space r) (procnames_start_line r) (space_after_cast r) (star_comment_cont r) (swallow_optional_blanklines r) (auto_typedefs r) (f (tabsize r)) (max_col r) (use_tabs r) (verbose r).
#[export] Instance set_max_col : Setter max_col := fun f r =>
  Options (blanklines_around_conditional_compilation r) (blanklines_after_declarations_at_proctop r) (blanklines_after_declarations r) (blanklines_after_procs r) (blanklines_before_blockcomments r) (leave_comma r) (btype_2 r) (Bill_Shannon r) (comment_delimiter_on_blankline r) (decl_com_ind r) (cuddle_else r) (continuation_indent r) (case_indent r) (com_ind r) (decl_indent r) (ljust_decl r) (unindent_displace r) (extra_expression_indent r) (else_if r) (function_brace_split r) (format_col1_comments r) (format_block_comments r) (indent_parameters r) (ind_size r) (block_comment_max_col r) (local_decl_indent r) (lineup_to_parens_always r) (lineup_to_parens r) (pointer_as_binop r) (proc_calls_space r) (procnames_start_line r) (space_after_cast r) (star_comment_cont r) (swallow_optional_blanklines r) (auto_typedefs r) (tabsize r) (f (max_col r)) (use_tabs r) (verbose r).
#[export] Instance set_use_tabs : Setter use_tabs := fun f r =>
  Options (blanklines_around_conditional_compilation r) (blanklines_after_declarations_at_proctop r) (blanklines_after_declarations r) (blanklines_after_procs r) (blanklines_before_blockcomments r) (leave_comma r) (btype_2 r) (Bill_Shannon r) (comment_delimiter_on_blankline r) (decl_com_ind r) (cuddle_else r) (continuation_indent r) (case_indent r) (com_ind r) (decl_indent r) (ljust_decl r) (unindent_displace r) (extra_expression_indent r) (else_if r) (function_brace_split r) (format_col1_comments r) (format_block_comments r) (indent_parameters r) (ind_size r) (block_comment_max_col r) (local_decl_indent r) (lineup_to_parens_always r) (lineup_to_parens r) (pointer_as_binop r) (proc_calls_space r) (procnames_start_line r) (space_after_cast r) (star_comment_cont r) (swallow_optional_blanklines r) (auto_typedefs r) (tabsize r) (max_col r) (f (use_tabs r)) (verbose r).
#[export] Instance set_verbose : Setter verbose := fun f r =>
  Options (blanklines_around_conditional_compilation r) (blanklines_after_declarations_at_proctop r) (blanklines_after_declarations r) (blanklines_after_procs r) (blanklines_before_blockcomments r) (leave_comma r) (btype_2 r) (Bill_Shannon r) (comment_delimiter_on_blankline r) (decl_com_ind r) (cuddle_else r) (continuation_indent r) (case_indent r) (com_ind r) (decl_indent r) (ljust_decl r) (unindent_displace r) (extra_expression_indent r) (else_if r) (function_brace_split r) (format_col1_comments r) (format_block_comments r) (indent_parameters r) (ind_size r) (block_comment_max_col r) (local_decl_indent r) (lineup_to_parens_always r) (lineup_to_parens r) (pointer_as_binop r) (proc_calls_space r) (procnames_start_line r) (space_after_cast r) (star_comment_cont r) (swallow_optional_blanklines r) (auto_typedefs r) (tabsize r) (max_col r) (use_tabs r) (f (verbose r)).

(** struct parser_state *)
Record parser_state := PState {
  last_token : Z;
  p_stack : list Z;
  il : list Z;
  cstk : list float;
  box_com : Z;
  comment_delta : Z;
  n_comment_delta : Z;
  cast_mask : Z;
  not_cast_mask : Z;
  block_init : Z;
  block_init_level : Z;
  last_nl : Z;
  in_or_st : Z;
  bl_line : Z;
  col_1 : Z;
  com_col : Z;
  com_lines : Z;
  dec_nest : Z;
  decl_on_line : Z;
  i_l_follow : Z;
  in_decl : Z;
  in_stmt : Z;
  ind_level : Z;
  ind_stmt : Z;
  last_u_d : Z;
  out_coms : Z;
  out_lines : Z;
  p_l_follow : Z;
  paren_level : Z;
  paren_indents : list Z;
  pcase : Z;
  search_brace : Z;
  use_ff : Z;
  want_blank : Z;
  keyword : Z;
  dumped_decl_indent : Z;
  in_parameter_declaration : Z;
  tos : Z;
  procname : bytes;
  just_saw_decl : Z
}.

#[export] Instance set_last_token : Setter last_token := fun f r =>
  PState (f (last_token r)) (p_stack r) (il r) (cstk r) (box_com r) (comment_delta r) (n_comment_delta r) (cast_mask r) (not_cast_mask r) (block_init r) (block_init_level r) (last_nl r) (in_or_st r) (bl_line r) (col_1 r) (com_col r) (com_lines r) (dec_nest r) (decl_on_line r) (i_l_follow r) (in_decl r) (in_stmt r) (ind_level r) (ind_stmt r) (last_u_d r) (out_coms r) (out_lines r) (p_l_follow r) (paren_level r) (paren_indents r) (pcase r) (search_brace r) (use_ff r) (want_blank r) (keyword r) (dumped_decl_indent r) (in_parameter_declaration r) (tos r) (procname r) (just_saw_decl r).
#[export] Instance set_p_stack : Setter p_stack := fun f r =>
  PState (last_token r) (f (p_stack r)) (il r) (cstk r) (box_com r) (comment_delta r) (n_comment_delta r) (cast_mask r) (not_cast_mask r) (block_init r) (block_init_level r) (last_nl r) (in_or_st r) (bl_line r) (col_1 r) (com_col r) (com_lines r) (dec_nest r) (decl_on_line r) (i_l_follow r) (in_decl r) (in_stmt r) (ind_level r) (ind_stmt r) (last_u_d r) (out_coms r) (out_lines r) (p_l_follow r) (paren_level r) (paren_indents r) (pcase r) (search_brace r) (use_ff r) (want_blank r) (keyword r) (dumped_decl_indent r) (in_parameter_declaration r) (tos r) (procname r) (just_saw_decl r).
#[export] Instance set_il : Setter il := fun f r =>
  PState (last_token r) (p_stack r) (f (il r)) (cstk r) (box_com r) (comment_delta r) (n_comment_delta r) (cast_mask r) (not_cast_mask r) (block_init r) (block_init_level r) (last_nl r) (in_or_st r) (bl_line r) (col_1 r) (com_col r) (com_lines r) (dec_nest r) (decl_on_line r) (i_l_follow r) (in_decl r) (in_stmt r) (ind_level r) (ind_stmt r) (last_u_d r) (out_coms r) (out_lines r) (p_l_follow r) (paren_level r) (paren_indents r) (pcase r) (search_brace r) (use_ff r) (want_blank r) (keyword r) (dumped_decl_indent r) (in_parameter_declaration r) (tos r) (procname r) (just_saw_decl r).
#[export] Instance set_cstk : Setter cstk := fun f r =>
  PState (last_token r) (p_stack r) (il r) (f (cstk r)) (box_com r) (comment_delta r) (n_comment_delta r) (cast_mask r) (not_cast_mask r) (block_init r) (block_init_level r) (last_nl r) (in_or_st r) (bl_line r) (col_1 r) (com_col r) (com_lines r) (dec_nest r) (decl_on_line r) (i_l_follow r) (in_decl r) (in_stmt r) (ind_level r) (ind_stmt r) (last_u_d r) (out_coms r) (out_lines r) (p_l_follow r) (paren_level r) (paren_indents r) (pcase r) (search_brace r) (use_ff r) (want_blank r) (keyword r) (dumped_decl_indent r) (in_parameter_declaration r) (tos r) (procname r) (just_saw_decl r).
#[export] Instance set_box_com : Setter box_com := fun f r =>
  PState (last_token r) (p_stack r) (il r) (cstk r) (f (box_com r)) (comment_delta r) (n_comment_delta r) (cast_mask r) (not_cast_mask r) (block_init r) (block_init_level r) (last_nl r) (in_or_st r) (bl_line r) (col_1 r) (com_col r) (com_lines r) (dec_nest r) (decl_on_line r) (i_l_follow r) (in_decl r) (in_stmt r) (ind_level r) (ind_stmt r) (last_u_d r) (out_coms r) (out_lines r) (p_l_follow r) (paren_level r) (paren_indents r) (pcase r) (search_brace r) (use_ff r) (want_blank r) (keyword r) (dumped_decl_indent r) (in_parameter_declaration r) (tos r) (procname r) (just_saw_decl r).
#[export] Instance set_comment_delta : Setter comment_delta := fun f r =>
  PState (last_token r) (p_stack r) (il r) (cstk r) (box_com r) (f (comment_delta r)) (n_comment_delta r) (cast_mask r) (not_cast_mask r) (block_init r) (block_init_level r) (last_nl r) (in_or_st r) (bl_line r) (col_1 r) (com_col r) (com_lines r) (dec_nest r) (decl_on_line r) (i_l_follow r) (in_decl r) (in_stmt r) (ind_level r) (ind_stmt r) (last_u_d r) (out_coms r) (out_lines r) (p_l_follow r) (paren_level r) (paren_indents r) (pcase r) (search_brace r) (use_ff r) (want_blank r) (keyword r) (dumped_decl_indent r) (in_parameter_declaration r) (tos r) (procname r) (just_saw_decl r).
#[export] Instance set_n_comment_delta : Setter n_comment_delta := fun f r =>
  PState (last_token r) (p_stack r) (il r) (cstk r) (box_com r) (comment_delta r) (f (n_comment_delta r)) (cast_mask r) (not_cast_mask r) (block_init r) (block_init_level r) (last_nl r) (in_or_st r) (bl_line r) (col_1 r) (com_col r) (com_lines r) (dec_nest r) (decl_on_line r) (i_l_follow r) (in_decl r) (in_stmt r) (ind_level r) (ind_stmt r) (last_u_d r) (out_coms r) (out_lines r) (p_l_follow r) (paren_level r) (paren_indents r) (pcase r) (search_brace r) (use_ff r) (want_blank r) (keyword r) (dumped_decl_indent r) (in_parameter_declaration r) (tos r) (procname r) (just_saw_decl r).
#[export] Instance set_cast_mask : Setter cast_mask := fun f r =>
  PState (last_token r) (p_stack r) (il r) (cstk r) (box_com r) (comment_delta r) (n_comment_delta r) (f (cast_mask r)) (not_cast_mask r) (block_init r) (block_init_level r) (last_nl r) (in_or_st r) (bl_line r) (col_1 r) (com_col r) (com_lines r) (dec_nest r) (decl_on_line r) (i_l_follow r) (in_decl r) (in_stmt r) (ind_level r) (ind_stmt r) (last_u_d r) (out_coms r) (out_lines r) (p_l_follow r) (paren_level r) (paren_indents r) (pcase r) (search_brace r) (use_ff r) (want_blank r) (keyword r) (dumped_decl_indent r) (in_parameter_declaration r) (tos r) (procname r) (just_saw_decl r).
#[export] Instance set_not_cast_mask : Setter not_cast_mask := fun f r =>
  PState (last_token r) (p_stack r) (il r) (cstk r) (box_com r) (comment_delta r) (n_comment_delta r) (cast_mask r) (f (not_cast_mask r)) (block_init r) (block_init_level r) (last_nl r) (in_or_st r) (bl_line r) (col_1 r) (com_col r) (com_lines r) (dec_nest r) (decl_on_line r) (i_l_follow r) (in_decl r) (in_stmt r) (ind_level r) (ind_stmt r) (last_u_d r) (out_coms r) (out_lines r) (p_l_follow r) (paren_level r) (paren_indents r) (pcase r) (search_brace r) (use_ff r) (want_blank r) (keyword r) (dumped_decl_indent r) (in_parameter_declaration r) (tos r) (procname r) (just_saw_decl r).
#[export] Instance set_block_init : Setter block_init := fun f r =>
  PState (last_token r) (p_stack r) (il r) (cstk r) (box_com r) (comment_delta r) (n_comment_delta r) (cast_mask r) (not_cast_mask r) (f (block_init r)) (block_init_level r) (last_nl r) (in_or_st r) (bl_line r) (col_1 r) (com_col r) (com_lines r) (dec_nest r) (decl_on_line r) (i_l_follow r) (in_decl r) (in_stmt r) (ind_level r) (ind_stmt r) (last_u_d r) (out_coms r) (out_lines r) (p_l_follow r) (paren_level r) (paren_indents r) (pcase r) (search_brace r) (use_ff r) (want_blank r) (keyword r) (dumped_decl_indent r) (in_parameter_declaration r) (tos r) (procname r) (just_saw_decl r).
#[export] Instance set_block_init_level : Setter block_init_level := fun f r =>
  PState (last_token r) (p_stack r) (il r) (cstk r) (box_com r) (comment_delta r) (n_comment_delta r) (cast_mask r) (not_cast_mask r) (block_init r) (f (block_init_level r)) (last_nl r) (in_or_st r) (bl_line r) (col_1 r) (com_col r) (com_lines r) (dec_nest r) (decl_on_line r) (i_l_follow r) (in_decl r) (in_stmt r) (ind_level r) (ind_stmt r) (last_u_d r) (out_coms r) (out_lines r) (p_l_follow r) (paren_level r) (paren_indents r) (pcase r) (search_brace r) (use_ff r) (want_blank r) (keyword r) (dumped_decl_indent r) (in_parameter_declaration r) (tos r) (procname r) (just_saw_decl r).
#[export] Instance set_last_nl : Setter last_nl := fun f r =>
  PState (last_token r) (p_stack r) (il r) (cstk r) (box_com r) (comment_delta r) (n_comment_delta r) (cast_mask r) (not_cast_mask r) (block_init r) (block_init_level r) (f (last_nl r)) (in_or_st r) (bl_line r) (col_1 r) (com_col r) (com_lines r) (dec_nest r) (decl_on_line r) (i_l_follow r) (in_decl r) (in_stmt r) (ind_level r) (ind_stmt r) (last_u_d r) (out_coms r) (out_lines r) (p_l_follow r) (paren_level r) (paren_indents r) (pcase r) (search_brace r) (use_ff r) (want_blank r) (keyword r) (dumped_decl_indent r) (in_parameter_declaration r) (tos r) (procname r) (just_saw_decl r).
#[export] Instance set_in_or_st : Setter in_or_st := fun f r =>
  PState (last_token r) (p_stack r) (il r) (cstk r) (box_com r) (comment_delta r) (n_comment_delta r) (cast_mask r) (not_cast_mask r) (block_init r) (block_init_level r) (last_nl r) (f (in_or_st r)) (bl_line r) (col_1 r) (com_col r) (com_lines r) (dec_nest r) (decl_on_line r) (i_l_follow r) (in_decl r) (in_stmt r) (ind_level r) (ind_stmt r) (last_u_d r) (out_coms r) (out_lines r) (p_l_follow r) (paren_level r) (paren_indents r) (pcase r) (search_brace r) (use_ff r) (want_blank r) (keyword r) (dumped_decl_indent r) (in_parameter_declaration r) (tos r) (procname r) (just_saw_decl r).
#[export] Instance set_bl_line : Setter bl_line := fun f r =>
  PState (last_token r) (p_stack r) (il r) (cstk r) (box_com r) (comment_delta r) (n_comment_delta r) (cast_mask r) (not_cast_mask r) (block_init r) (block_init_level r) (last_nl r) (in_or_st r) (f (bl_line r)) (col_1 r) (com_col r) (com_lines r) (dec_nest r) (decl_on_line r) (i_l_follow r) (in_decl r) (in_stmt r) (ind_level r) (ind_stmt r) (last_u_d r) (out_coms r) (out_lines r) (p_l_follow r) (paren_level r) (paren_indents r) (pcase r) (search_brace r) (use_ff r) (want_blank r) (keyword r) (dumped_decl_indent r) (in_parameter_declaration r) (tos r) (procname r) (just_saw_decl r).
#[export] Instance set_col_1 : Setter col_1 := fun f r =>
  PState (last_token r) (p_stack r) (il r) (cstk r) (box_com r) (comment_delta r) (n_comment_delta r) (cast_mask r) (not_cast_mask r) (block_init r) (block_init_level r) (last_nl r) (in_or_st r) (bl_line r) (f (col_1 r)) (com_col r) (com_lines r) (dec_nest r) (decl_on_line r) (i_l_follow r) (in_decl r) (in_stmt r) (ind_level r) (ind_stmt r) (last_u_d r) (out_coms r) (out_lines r) (p_l_follow r) (paren_level r) (paren_indents r) (pcase r) (search_brace r) (use_ff r) (want_blank r) (keyword r) (dumped_decl_indent r) (in_parameter_declaration r) (tos r) (procname r) (just_saw_decl r).
#[export] Instance set_com_col : Setter com_col := fun f r =>
  PState (last_token r) (p_stack r) (il r) (cstk r) (box_com r) (comment_delta r) (n_comment_delta r) (cast_mask r) (not_cast_mask r) (block_init r) (block_init_level r) (last_nl r) (in_or_st r) (bl_line r) (col_1 r) (f (com_col r)) (com_lines r) (dec_nest r) (decl_on_line r) (i_l_follow r) (in_decl r) (in_stmt r) (ind_level r) (ind_stmt r) (last_u_d r) (out_coms r) (out_lines r) (p_l_follow r) (paren_level r) (paren_indents r) (pcase r) (search_brace r) (use_ff r) (want_blank r) (keyword r) (dumped_decl_indent r) (in_parameter_declaration r) (tos r) (procname r) (just_saw_decl r).
#[export] Instance set_com_lines : Setter com_lines := fun f r =>
  PState (last_token r) (p_stack r) (il r) (cstk r) (box_com r) (comment_delta r) (n_comment_delta r) (cast_mask r) (not_cast_mask r) (block_init r) (block_init_level r) (last_nl r) (in_or_st r) (bl_line r) (col_1 r) (com_col r) (f (com_lines r)) (dec_nest r) (decl_on_line r) (i_l_follow r) (in_decl r) (in_stmt r) (ind_level r) (ind_stmt r) (last_u_d r) (out_coms r) (out_lines r) (p_l_follow r) (paren_level r) (paren_indents r) (pcase r) (search_brace r) (use_ff r) (want_blank r) (keyword r) (dumped_decl_indent r) (in_parameter_declaration r) (tos r) (procname r) (just_saw_decl r).
#[export] Instance set_dec_nest : Setter dec_nest := fun f r =>
  PState (last_token r) (p_stack r) (il r) (cstk r) (box_com r) (comment_delta r) (n_comment_delta r) (cast_mask r) (not_cast_mask r) (block_init r) (block_init_level r) (last_nl r) (in_or_st r) (bl_line r) (col_1 r) (com_col r) (com_lines r) (f (dec_nest r)) (decl_on_line r) (i_l_follow r) (in_decl r) (in_stmt r) (ind_level r) (ind_stmt r) (last_u_d r) (out_coms r) (out_lines r) (p_l_follow r) (paren_level r) (paren_indents r) (pcase r) (search_brace r) (use_ff r) (want_blank r) (keyword r) (dumped_decl_indent r) (in_parameter_declaration r) (tos r) (procname r) (just_saw_decl r).
#[export] Instance set_decl_on_line : Setter decl_on_line := fun f r =>
  PState (last_token r) (p_stack r) (il r) (cstk r) (box_com r) (comment_delta r) (n_comment_delta r) (cast_mask r) (not_cast_mask r) (block_init r) (block_init_level r) (last_nl r) (in_or_st r) (bl_line r) (col_1 r) (com_col r) (com_lines r) (dec_nest r) (f (decl_on_line r)) (i_l_follow r) (in_decl r) (in_stmt r) (ind_level r) (ind_stmt r) (last_u_d r) (out_coms r) (out_lines r) (p_l_follow r) (paren_level r) (paren_indents r) (pcase r) (search_brace r) (use_ff r) (want_blank r) (keyword r) (dumped_decl_indent r) (in_parameter_declaration r) (tos r) (procname r) (just_saw_decl r).
#[export] Instance set_i_l_follow : Setter i_l_follow := fun f r =>
  PState (last_token r) (p_stack r) (il r) (cstk r) (box_com r) (comment_delta r) (n_comment_delta r) (cast_mask r) (not_cast_mask r) (block_init r) (block_init_level r) (last_nl r) (in_or_st r) (bl_line r) (col_1 r) (com_col r) (com_lines r) (dec_nest r) (decl_on_line r) (f (i_l_follow r)) (in_decl r) (in_stmt r) (ind_level r) (ind_stmt r) (last_u_d r) (out_coms r) (out_lines r) (p_l_follow r) (paren_level r) (paren_indents r) (pcase r) (search_brace r) (use_ff r) (want_blank r) (keyword r) (dumped_decl_indent r) (in_parameter_declaration r) (tos r) (procname r) (just_saw_decl r).
#[export] Instance set_in_decl : Setter in_decl := fun f r =>
  PState (last_token r) (p_stack r) (il r) (cstk r) (box_com r) (comment_delta r) (n_comment_delta r) (cast_mask r) (not_cast_mask r) (block_init r) (block_init_level r) (last_nl r) (in_or_st r) (bl_line r) (col_1 r) (com_col r) (com_lines r) (dec_nest r) (decl_on_line r) (i_l_follow r) (f (in_decl r)) (in_stmt r) (ind_level r) (ind_stmt r) (last_u_d r) (out_coms r) (out_lines r) (p_l_follow r) (paren_level r) (paren_indents r) (pcase r) (search_brace r) (use_ff r) (want_blank r) (keyword r) (dumped_decl_indent r) (in_parameter_declaration r) (tos r) (procname r) (just_saw_decl r).
#[export] Instance set_in_stmt : Setter in_stmt := fun f r =>
  PState (last_token r) (p_stack r) (il r) (cstk r) (box_com r) (comment_delta r) (n_comment_delta r) (cast_mask r) (not_cast_mask r) (block_init r) (block_init_level r) (last_nl r) (in_or_st r) (bl_line r) (col_1 r) (com_col r) (com_lines r) (dec_nest r) (decl_on_line r) (i_l_follow r) (in_decl r) (f (in_stmt r)) (ind_level r) (ind_stmt r) (last_u_d r) (out_coms r) (out_lines r) (p_l_follow r) (paren_level r) (paren_indents r) (pcase r) (search_brace r) (use_ff r) (want_blank r) (keyword r) (dumped_decl_indent r) (in_parameter_declaration r) (tos r) (procname r) (just_saw_decl r).
#[export] Instance set_ind_level : Setter ind_level := fun f r =>
  PState (last_token r) (p_stack r) (il r) (cstk r) (box_com r) (comment_delta r) (n_comment_delta r) (cast_mask r) (not_cast_mask r) (block_init r) (block_init_level r) (last_nl r) (in_or_st r) (bl_line r) (col_1 r) (com_col r) (com_lines r) (dec_nest r) (decl_on_line r) (i_l_follow r) (in_decl r) (in_stmt r) (f (ind_level r)) (ind_stmt r) (last_u_d r) (out_coms r) (out_lines r) (p_l_follow r) (paren_level r) (paren_indents r) (pcase r) (search_brace r) (use_ff r) (want_blank r) (keyword r) (dumped_decl_indent r) (in_parameter_declaration r) (tos r) (procname r) (just_saw_decl r).
#[export] Instance set_ind_stmt : Setter ind_stmt := fun f r =>
  PState (last_token r) (p_stack r) (il r) (cstk r) (box_com r) (comment_delta r) (n_comment_delta r) (cast_mask r) (not_cast_mask r) (block_init r) (block_init_level r) (last_nl r) (in_or_st r) (bl_line r) (col_1 r) (com_col r) (com_lines r) (dec_nest r) (decl_on_line r) (i_l_follow r) (in_decl r) (in_stmt r) (ind_level r) (f (ind_stmt r)) (last_u_d r) (out_coms r) (out_lines r) (p_l_follow r) (paren_level r) (paren_indents r) (pcase r) (search_brace r) (use_ff r) (want_blank r) (keyword r) (dumped_decl_indent r) (in_parameter_declaration r) (tos r) (procname r) (just_saw_decl r).
#[export] Instance set_last_u_d : Setter last_u_d := fun f r =>
  PState (last_token r) (p_stack r) (il r) (cstk r) (box_com r) (comment_delta r) (n_comment_delta r) (cast_mask r) (not_cast_mask r) (block_init r) (block_init_level r) (last_nl r) (in_or_st r) (bl_line r) (col_1 r) (com_col r) (com_lines r) (dec_nest r) (decl_on_line r) (i_l_follow r) (in_decl r) (in_stmt r) (ind_level r) (ind_stmt r) (f (last_u_d r)) (out_coms r) (out_lines r) (p_l_follow r) (paren_level r) (paren_indents r) (pcase r) (search_brace r) (use_ff r) (want_blank r) (keyword r) (dumped_decl_indent r) (in_parameter_declaration r) (tos r) (procname r) (just_saw_decl r).
#[export] Instance set_out_coms : Setter out_coms := fun f r =>
  PState (last_token r) (p_stack r) (il r) (cstk r) (box_com r) (comment_delta r) (n_comment_delta r) (cast_mask r) (not_cast_mask r) (block_init r) (block_init_level r) (last_nl r) (in_or_st r) (bl_line r) (col_1 r) (com_col r) (com_lines r) (dec_nest r) (decl_on_line r) (i_l_follow r) (in_decl r) (in_stmt r) (ind_level r) (ind_stmt r) (last_u_d r) (f (out_coms r)) (out_lines r) (p_l_follow r) (paren_level r) (paren_indents r) (pcase r) (search_brace r) (use_ff r) (want_blank r) (keyword r) (dumped_decl_indent r) (in_parameter_declaration r) (tos r) (procname r) (just_saw_decl r).
#[export] Instance set_out_lines : Setter out_lines := fun f r =>
  PState (last_token r) (p_stack r) (il r) (cstk r) (box_com r) (comment_delta r) (n_comment_delta r) (cast_mask r) (not_cast_mask r) (block_init r) (block_init_level r) (last_nl r) (in_or_st r) (bl_line r) (col_1 r) (com_col r) (com_lines r) (dec_nest r) (decl_on_line r) (i_l_follow r) (in_decl r) (in_stmt r) (ind_level r) (ind_stmt r) (last_u_d r) (out_coms r) (f (out_lines r)) (p_l_follow r) (paren_level r) (paren_indents r) (pcase r) (search_brace r) (use_ff r) (want_blank r) (keyword r) (dumped_decl_indent r) (in_parameter_declaration r) (tos r) (procname r) (just_saw_decl r).
#[export] Instance set_p_l_follow : Setter p_l_follow := fun f r =>
  PState (last_token r) (p_stack r) (il r) (cstk r) (box_com r) (comment_delta r) (n_comment_delta r) (cast_mask r) (not_cast_mask r) (block_init r) (block_init_level r) (last_nl r) (in_or_st r) (bl_line r) (col_1 r) (com_col r) (com_lines r) (dec_nest r) (decl_on_line r) (i_l_follow r) (in_decl r) (in_stmt r) (ind_level r) (ind_stmt r) (last_u_d r) (out_coms r) (out_lines r) (f (p_l_follow r)) (paren_level r) (paren_indents r) (pcase r) (search_brace r) (use_ff r) (want_blank r) (keyword r) (dumped_decl_indent r) (in_parameter_declaration r) (tos r) (procname r) (just_saw_decl r).
#[export] Instance set_paren_level : Setter paren_level := fun f r =>
  PState (last_token r) (p_stack r) (il r) (cstk r) (box_com r) (comment_delta r) (n_comment_delta r) (cast_mask r) (not_cast_mask r) (block_init r) (block_init_level r) (last_nl r) (in_or_st r) (bl_line r) (col_1 r) (com_col r) (com_lines r) (dec_nest r) (decl_on_line r) (i_l_follow r) (in_decl r) (in_stmt r) (ind_level r) (ind_stmt r) (last_u_d r) (out_coms r) (out_lines r) (p_l_follow r) (f (paren_level r)) (paren_indents r) (pcase r) (search_brace r) (use_ff r) (want_blank r) (keyword r) (dumped_decl_indent r) (in_parameter_declaration r) (tos r) (procname r) (just_saw_decl r).
#[export] Instance set_paren_indents : Setter paren_indents := fun f r =>
  PState (last_token r) (p_stack r) (il r) (cstk r) (box_com r) (comment_delta r) (n_comment_delta r) (cast_mask r) (not_cast_mask r) (block_init r) (block_init_level r) (last_nl r) (in_or_st r) (bl_line r) (col_1 r) (com_col r) (com_lines r) (dec_nest r) (decl_on_line r) (i_l_follow r) (in_decl r) (in_stmt r) (ind_level r) (ind_stmt r) (last_u_d r) (out_coms r) (out_lines r) (p_l_follow r) (paren_level r) (f (paren_indents r)) (pcase r) (search_brace r) (use_ff r) (want_blank r) (keyword r) (dumped_decl_indent r) (in_parameter_declaration r) (tos r) (procname r) (just_saw_decl r).
#[export] Instance set_pcase : Setter pcase := fun f r =>
  PState (last_token r) (p_stack r) (il r) (cstk r) (box_com r) (comment_delta r) (n_comment_delta r) (cast_mask r) (not_cast_mask r) (block_init r) (block_init_level r) (last_nl r) (in_or_st r) (bl_line r) (col_1 r) (com_col r) (com_lines r) (dec_nest r) (decl_on_line r) (i_l_follow r) (in_decl r) (in_stmt r) (ind_level r) (ind_stmt r) (last_u_d r) (out_coms r) (out_lines r) (p_l_follow r) (paren_level r) (paren_indents r) (f (pcase r)) (search_brace r) (use_ff r) (want_blank r) (keyword r) (dumped_decl_indent r) (in_parameter_declaration r) (tos r) (procname r) (just_saw_decl r).
#[export] Instance set_search_brace : Setter search_brace := fun f r =>
  PState (last_token r) (p_stack r) (il r) (cstk r) (box_com r) (comment_delta r) (n_comment_delta r) (cast_mask r) (not_cast_mask r) (block_init r) (block_init_level r) (last_nl r) (in_or_st r) (bl_line r) (col_1 r) (com_col r) (com_lines r) (dec_nest r) (decl_on_line r) (i_l_follow r) (in_decl r) (in_stmt r) (ind_level r) (ind_stmt r) (last_u_d r) (out_coms r) (out_lines r) (p_l_follow r) (paren_level r) (paren_indents r) (pcase r) (f (search_brace r)) (use_ff r) (want_blank r) (keyword r) (dumped_decl_indent r) (in_parameter_declaration r) (tos r) (procname r) (just_saw_decl r).
#[export] Instance set_use_ff : Setter use_ff := fun f r =>
  PState (last_token r) (p_stack r) (il r) (cstk r) (box_com r) (comment_delta r) (n_comment_delta r) (cast_mask r) (not_cast_mask r) (block_init r) (block_init_level r) (last_nl r) (in_or_st r) (bl_line r) (col_1 r) (com_col r) (com_lines r) (dec_nest r) (decl_on_line r) (i_l_follow r) (in_decl r) (in_stmt r) (ind_level r) (ind_stmt r) (last_u_d r) (out_coms r) (out_lines r) (p_l_follow r) (paren_level r) (paren_indents r) (pcase r) (search_brace r) (f (use_ff r)) (want_blank r) (keyword r) (dumped_decl_indent r) (in_parameter_declaration r) (tos r) (procname r) (just_saw_decl r).
#[export] Instance set_want_blank : Setter want_blank := fun f r =>
  PState (last_token r) (p_stack r) (il r) (cstk r) (box_com r) (comment_delta r) (n_comment_delta r) (cast_mask r) (not_cast_mask r) (block_init r) (block_init_level r) (last_nl r) (in_or_st r) (bl_line r) (col_1 r) (com_col r) (com_lines r) (dec_nest r) (decl_on_line r) (i_l_follow r) (in_decl r) (in_stmt r) (ind_level r) (ind_stmt r) (last_u_d r) (out_coms r) (out_lines r) (p_l_follow r) (paren_level r) (paren_indents r) (pcase r) (search_brace r) (use_ff r) (f (want_blank r)) (keyword r) (dumped_decl_indent r) (in_parameter_declaration r) (tos r) (procname r) (just_saw_decl r).
#[export] Instance set_keyword : Setter keyword := fun f r =>
  PState (last_token r) (p_stack r) (il r) (cstk r) (box_com r) (comment_delta r) (n_comment_delta r) (cast_mask r) (not_cast_mask r) (block_init r) (block_init_level r) (last_nl r) (in_or_st r) (bl_line r) (col_1 r) (com_col r) (com_lines r) (dec_nest r) (decl_on_line r) (i_l_follow r) (in_decl r) (in_stmt r) (ind_level r) (ind_stmt r) (last_u_d r) (out_coms r) (out_lines r) (p_l_follow r) (paren_level r) (paren_indents r) (pcase r) (search_brace r) (use_ff r) (want_blank r) (f (keyword r)) (dumped_decl_indent r) (in_parameter_declaration r) (tos r) (procname r) (just_saw_decl r).
#[export] Instance set_dumped_decl_indent : Setter dumped_decl_indent := fun f r =>
  PState (last_token r) (p_stack r) (il r) (cstk r) (box_com r) (comment_delta r) (n_comment_delta r) (cast_mask r) (not_cast_mask r) (block_init r) (block_init_level r) (last_nl r) (in_or_st r) (bl_line r) (col_1 r) (com_col r) (com_lines r) (dec_nest r) (decl_on_line r) (i_l_follow r) (in_decl r) (in_stmt r) (ind_level r) (ind_stmt r) (last_u_d r) (out_coms r) (out_lines r) (p_l_follow r) (paren_level r) (paren_indents r) (pcase r) (search_brace r) (use_ff r) (want_blank r) (keyword r) (f (dumped_decl_indent r)) (in_parameter_declaration r) (tos r) (procname r) (just_saw_decl r).
#[export] Instance set_in_parameter_declaration : Setter in_parameter_declaration := fun f r =>
  PState (last_token r) (p_stack r) (il r) (cstk r) (box_com r) (comment_delta r) (n_comment_delta r) (cast_mask r) (not_cast_mask r) (block_init r) (block_init_level r) (last_nl r) (in_or_st r) (bl_line r) (col_1 r) (com_col r) (com_lines r) (dec_nest r) (decl_on_line r) (i_l_follow r) (in_decl r) (in_stmt r) (ind_level r) (ind_stmt r) (last_u_d r) (out_coms r) (out_lines r) (p_l_follow r) (paren_level r) (paren_indents r) (pcase r) (search_brace r) (use_ff r) (want_blank r) (keyword r) (dumped_decl_indent r) (f (in_parameter_declaration r)) (tos r) (procname r) (just_saw_decl r).
#[export] Instance set_tos : Setter tos := fun f r =>
  PState (last_token r) (p_stack r) (il r) (cstk r) (box_com r) (comment_delta r) (n_comment_delta r) (cast_mask r) (not_cast_mask r) (block_init r) (block_init_level r) (last_nl r) (in_or_st r) (bl_line r) (col_1 r) (com_col r) (com_lines r) (dec_nest r) (decl_on_line r) (i_l_follow r) (in_decl r) (in_stmt r) (ind_level r) (ind_stmt r) (last_u_d r) (out_coms r) (out_lines r) (p_l_follow r) (paren_level r) (paren_indents r) (pcase r) (search_brace r) (use_ff r) (want_blank r) (keyword r) (dumped_decl_indent r) (in_parameter_declaration r) (f (tos r)) (procname r) (just_saw_decl r).
#[export] Instance set_procname : Setter procname := fun f r =>
  PState (last_token r) (p_stack r) (il r) (cstk r) (box_com r) (comment_delta r) (n_comment_delta r) (cast_mask r) (not_cast_mask r) (block_init r) (block_init_level r) (last_nl r) (in_or_st r) (bl_line r) (col_1 r) (com_col r) (com_lines r) (dec_nest r) (decl_on_line r) (i_l_follow r) (in_decl r) (in_stmt r) (ind_level r) (ind_stmt r) (last_u_d r) (out_coms r) (out_lines r) (p_l_follow r) (paren_level r) (paren_indents r) (pcase r) (search_brace r) (use_ff r) (want_blank r) (keyword r) (dumped_decl_indent r) (in_parameter_declaration r) (tos r) (f (procname r)) (just_saw_decl r).
#[export] Instance set_just_saw_decl : Setter just_saw_decl := fun f r =>
  PState (last_token r) (p_stack r) (il r) (cstk r) (box_com r) (comment_delta r) (n_comment_delta r) (cast_mask r) (not_cast_mask r) (block_init r) (block_init_level r) (last_nl r) (in_or_st r) (bl_line r) (col_1 r) (com_col r) (com_lines r) (dec_nest r) (decl_on_line r) (i_l_follow r) (in_decl r) (in_stmt r) (ind_level r) (ind_stmt r) (last_u_d r) (out_coms r) (out_lines r) (p_l_follow r) (paren_level r) (paren_indents r) (pcase r) (search_brace r) (use_ff r) (want_blank r) (keyword r) (dumped_decl_indent r) (in_parameter_declaration r) (tos r) (procname r) (f (just_saw_decl r)).

(** The remaining globals *)
Record globals := Globals {
  ps : parser_state;
  opt : options;
  lab : bytes;
  code : bytes;
  com : bytes;
  token : bytes;
  in_buffer : bytes;
  buf_ptr : nat;
  bp_save : option (bytes * nat);
  input : bytes;
  had_eof : bool;
  output : bytes;
  errout : bytes;
  output_is_stdout : bool;
  found_err : Z;
  n_real_blanklines : Z;
  prefix_blankline_requested : Z;
  postfix_blankline_requested : Z;
  break_comma : bool;
  case_ind : float;
  code_lines : Z;
  line_no : Z;
  inhibit_formatting : Z;
  suppress_blanklines : Z;
  comment_open : Z;
  paren_target : Z;
  not_first_line : bool;
  typenames : list bytes;
  typename_count : Z;
  transient_state : parser_state;
  input_set : bool;
  output_set : bool;
  stdin_data : bytes
}.

#[export] Instance set_ps : Setter ps := fun f r =>
  Globals (f (ps r)) (opt r) (lab r) (code r) (com r) (token r) (in_buffer r) (buf_ptr r) (bp_save r) (input r) (had_eof r) (output r) (errout r) (output_is_stdout r) (found_err r) (n_real_blanklines r) (prefix_blankline_requested r) (postfix_blankline_requested r) (break_comma r) (case_ind r) (code_lines r) (line_no r) (inhibit_formatting r) (suppress_blanklines r) (comment_open r) (paren_target r) (not_first_line r) (typenames r) (typename_count r) (transient_state r) (input_set r) (output_set r) (stdin_data r).
#[export] Instance set_opt : Setter opt := fun f r =>
  Globals (ps r) (f (opt r)) (lab r) (code r) (com r) (token r) (in_buffer r) (buf_ptr r) (bp_save r) (input r) (had_eof r) (output r) (errout r) (output_is_stdout r) (found_err r) (n_real_blanklines r) (prefix_blankline_requested r) (postfix_blankline_requested r) (break_comma r) (case_ind r) (code_lines r) (line_no r) (inhibit_formatting r) (suppress_blanklines r) (comment_open r) (paren_target r) (not_first_line r) (typenames r) (typename_count r) (transient_state r) (input_set r) (output_set r) (stdin_data r).
#[export] Instance set_lab : Setter lab := fun f r =>
  Globals (ps r) (opt r) (f (lab r)) (code r) (com r) (token r) (in_buffer r) (buf_ptr r) (bp_save r) (input r) (had_eof r) (output r) (errout r) (output_is_stdout r) (found_err r) (n_real_blanklines r) (prefix_blankline_requested r) (postfix_blankline_requested r) (break_comma r) (case_ind r) (code_lines r) (line_no r) (inhibit_formatting r) (suppress_blanklines r) (comment_open r) (paren_target r) (not_first_line r) (typenames r) (typename_count r) (transient_state r) (input_set r) (output_set r) (stdin_data r).
#[export] Instance set_code : Setter code := fun f r =>
  Globals (ps r) (opt r) (lab r) (f (code r)) (com r) (token r) (in_buffer r) (buf_ptr r) (bp_save r) (input r) (had_eof r) (output r) (errout r) (output_is_stdout r) (found_err r) (n_real_blanklines r) (prefix_blankline_requested r) (postfix_blankline_requested r) (break_comma r) (case_ind r) (code_lines r) (line_no r) (inhibit_formatting r) (suppress_blanklines r) (comment_open r) (paren_target r) (not_first_line r) (typenames r) (typename_count r) (transient_state r) (input_set r) (output_set r) (stdin_data r).
#[export] Instance set_com : Setter com := fun f r =>
  Globals (ps r) (opt r) (lab r) (code r) (f (com r)) (token r) (in_buffer r) (buf_ptr r) (bp_save r) (input r) (had_eof r) (output r) (errout r) (output_is_stdout r) (found_err r) (n_real_blanklines r) (prefix_blankline_requested r) (postfix_blankline_requested r) (break_comma r) (case_ind r) (code_lines r) (line_no r) (inhibit_formatting r) (suppress_blanklines r) (comment_open r) (paren_target r) (not_first_line r) (typenames r) (typename_count r) (transient_state r) (input_set r) (output_set r) (stdin_data r).
#[export] Instance set_token : Setter token := fun f r =>
  Globals (ps r) (opt r) (lab r) (code r) (com r) (f (token r)) (in_buffer r) (buf_ptr r) (bp_save r) (input r) (had_eof r) (output r) (errout r) (output_is_stdout r) (found_err r) (n_real_blanklines r) (prefix_blankline_requested r) (postfix_blankline_requested r) (break_comma r) (case_ind r) (code_lines r) (line_no r) (inhibit_formatting r) (suppress_blanklines r) (comment_open r) (paren_target r) (not_first_line r) (typenames r) (typename_count r) (transient_state r) (input_set r) (output_set r) (stdin_data r).
#[export] Instance set_in_buffer : Setter in_buffer := fun f r =>
  Globals (ps r) (opt r) (lab r) (code r) (com r) (token r) (f (in_buffer r)) (buf_ptr r) (bp_save r) (input r) (had_eof r) (output r) (errout r) (output_is_stdout r) (found_err r) (n_real_blanklines r) (prefix_blankline_requested r) (postfix_blankline_requested r) (break_comma r) (case_ind r) (code_lines r) (line_no r) (inhibit_formatting r) (suppress_blanklines r) (comment_open r) (paren_target r) (not_first_line r) (typenames r) (typename_count r) (transient_state r) (input_set r) (output_set r) (stdin_data r).
#[export] Instance set_buf_ptr : Setter buf_ptr := fun f r =>
  Globals (ps r) (opt r) (lab r) (code r) (com r) (token r) (in_buffer r) (f (buf_ptr r)) (bp_save r) (input r) (had_eof r) (output r) (errout r) (output_is_stdout r) (found_err r) (n_real_blanklines r) (prefix_blankline_requested r) (postfix_blankline_requested r) (break_comma r) (case_ind r) (code_lines r) (line_no r) (inhibit_formatting r) (suppress_blanklines r) (comment_open r) (paren_target r) (not_first_line r) (typenames r) (typename_count r) (transient_state r) (input_set r) (output_set r) (stdin_data r).
#[export] Instance set_bp_save : Setter bp_save := fun f r =>
  Globals (ps r) (opt r) (lab r) (code r) (com r) (token r) (in_buffer r) (buf_ptr r) (f (bp_save r)) (input r) (had_eof r) (output r) (errout r) (output_is_stdout r) (found_err r) (n_real_blanklines r) (prefix_blankline_requested r) (postfix_blankline_requested r) (break_comma r) (case_ind r) (code_lines r) (line_no r) (inhibit_formatting r) (suppress_blanklines r) (comment_open r) (paren_target r) (not_first_line r) (typenames r) (typename_count r) (transient_state r) (input_set r) (output_set r) (stdin_data r).
#[export] Instance set_input : Setter input := fun f r =>
  Globals (ps r) (opt r) (lab r) (code r) (com r) (token r) (in_buffer r) (buf_ptr r) (bp_save r) (f (input r)) (had_eof r) (output r) (errout r) (output_is_stdout r) (found_err r) (n_real_blanklines r) (prefix_blankline_requested r) (postfix_blankline_requested r) (break_comma r) (case_ind r) (code_lines r) (line_no r) (inhibit_formatting r) (suppress_blanklines r) (comment_open r) (paren_target r) (not_first_line r) (typenames r) (typename_count r) (transient_state r) (input_set r) (output_set r) (stdin_data r).
#[export] Instance set_had_eof : Setter had_eof := fun f r =>
  Globals (ps r) (opt r) (lab r) (code r) (com r) (token r) (in_buffer r) (buf_ptr r) (bp_save r) (input r) (f (had_eof r)) (output r) (errout r) (output_is_stdout r) (found_err r) (n_real_blanklines r) (prefix_blankline_requested r) (postfix_blankline_requested r) (break_comma r) (case_ind r) (code_lines r) (line_no r) (inhibit_formatting r) (suppress_blanklines r) (comment_open r) (paren_target r) (not_first_line r) (typenames r) (typename_count r) (transient_state r) (input_set r) (output_set r) (stdin_data r).
#[export] Instance set_output : Setter output := fun f r =>
  Globals (ps r) (opt r) (lab r) (code r) (com r) (token r) (in_buffer r) (buf_ptr r) (bp_save r) (input r) (had_eof r) (f (output r)) (errout r) (output_is_stdout r) (found_err r) (n_real_blanklines r) (prefix_blankline_requested r) (postfix_blankline_requested r) (break_comma r) (case_ind r) (code_lines r) (line_no r) (inhibit_formatting r) (suppress_blanklines r) (comment_open r) (paren_target r) (not_first_line r) (typenames r) (typename_count r) (transient_state r) (input_set r) (output_set r) (stdin_data r).
#[export] Instance set_errout : Setter errout := fun f r =>
  Globals (ps r) (opt r) (lab r) (code r) (com r) (token r) (in_buffer r) (buf_ptr r) (bp_save r) (input r) (had_eof r) (output r) (f (errout r)) (output_is_stdout r) (found_err r) (n_real_blanklines r) (prefix_blankline_requested r) (postfix_blankline_requested r) (break_comma r) (case_ind r) (code_lines r) (line_no r) (inhibit_formatting r) (suppress_blanklines r) (comment_open r) (paren_target r) (not_first_line r) (typenames r) (typename_count r) (transient_state r) (input_set r) (output_set r) (stdin_data r).
#[export] Instance set_output_is_stdout : Setter output_is_stdout := fun f r =>
  Globals (ps r) (opt r) (lab r) (code r) (com r) (token r) (in_buffer r) (buf_ptr r) (bp_save r) (input r) (had_eof r) (output r) (errout r) (f (output_is_stdout r)) (found_err r) (n_real_blanklines r) (prefix_blankline_requested r) (postfix_blankline_requested r) (break_comma r) (case_ind r) (code_lines r) (line_no r) (inhibit_formatting r) (suppress_blanklines r) (comment_open r) (paren_target r) (not_first_line r) (typenames r) (typename_count r) (transient_state r) (input_set r) (output_set r) (stdin_data r).
#[export] Instance set_found_err : Setter found_err := fun f r =>
  Globals (ps r) (opt r) (lab r) (code r) (com r) (token r) (in_buffer r) (buf_ptr r) (bp_save r) (input r) (had_eof r) (output r) (errout r) (output_is_stdout r) (f (found_err r)) (n_real_blanklines r) (prefix_blankline_requested r) (postfix_blankline_requested r) (break_comma r) (case_ind r) (code_lines r) (line_no r) (inhibit_formatting r) (suppress_blanklines r) (comment_open r) (paren_target r) (not_first_line r) (typenames r) (typename_count r) (transient_state r) (input_set r) (output_set r) (stdin_data r).
#[export] Instance set_n_real_blanklines : Setter n_real_blanklines := fun f r =>
  Globals (ps r) (opt r) (lab r) (code r) (com r) (token r) (in_buffer r) (buf_ptr r) (bp_save r) (input r) (had_eof r) (output r) (errout r) (output_is_stdout r) (found_err r) (f (n_real_blanklines r)) (prefix_blankline_requested r) (postfix_blankline_requested r) (break_comma r) (case_ind r) (code_lines r) (line_no r) (inhibit_formatting r) (suppress_blanklines r) (comment_open r) (paren_target r) (not_first_line r) (typenames r) (typename_count r) (transient_state r) (input_set r) (output_set r) (stdin_data r).
#[export] Instance set_prefix_blankline_requested : Setter prefix_blankline_requested := fun f r =>
  Globals (ps r) (opt r) (lab r) (code r) (com r) (token r) (in_buffer r) (buf_ptr r) (bp_save r) (input r) (had_eof r) (output r) (errout r) (output_is_stdout r) (found_err r) (n_real_blanklines r) (f (prefix_blankline_requested r)) (postfix_blankline_requested r) (break_comma r) (case_ind r) (code_lines r) (line_no r) (inhibit_formatting r) (suppress_blanklines r) (comment_open r) (paren_target r) (not_first_line r) (typenames r) (typename_count r) (transient_state r) (input_set r) (output_set r) (stdin_data r).
#[export] Instance set_postfix_blankline_requested : Setter postfix_blankline_requested := fun f r =>
  Globals (ps r) (opt r) (lab r) (code r) (com r) (token r) (in_buffer r) (buf_ptr r) (bp_save r) (input r) (had_eof r) (output r) (errout r) (output_is_stdout r) (found_err r) (n_real_blanklines r) (prefix_blankline_requested r) (f (postfix_blankline_requested r)) (break_comma r) (case_ind r) (code_lines r) (line_no r) (inhibit_formatting r) (suppress_blanklines r) (comment_open r) (paren_target r) (not_first_line r) (typenames r) (typename_count r) (transient_state r) (input_set r) (output_set r) (stdin_data r).
#[export] Instance set_break_comma : Setter break_comma := fun f r =>
  Globals (ps r) (opt r) (lab r) (code r) (com r) (token r) (in_buffer r) (buf_ptr r) (bp_save r) (input r) (had_eof r) (output r) (errout r) (output_is_stdout r) (found_err r) (n_real_blanklines r) (prefix_blankline_requested r) (postfix_blankline_requested r) (f (break_comma r)) (case_ind r) (code_lines r) (line_no r) (inhibit_formatting r) (suppress_blanklines r) (comment_open r) (paren_target r) (not_first_line r) (typenames r) (typename_count r) (transient_state r) (input_set r) (output_set r) (stdin_data r).
#[export] Instance set_case_ind : Setter case_ind := fun f r =>
  Globals (ps r) (opt r) (lab r) (code r) (com r) (token r) (in_buffer r) (buf_ptr r) (bp_save r) (input r) (had_eof r) (output r) (errout r) (output_is_stdout r) (found_err r) (n_real_blanklines r) (prefix_blankline_requested r) (postfix_blankline_requested r) (break_comma r) (f (case_ind r)) (code_lines r) (line_no r) (inhibit_formatting r) (suppress_blanklines r) (comment_open r) (paren_target r) (not_first_line r) (typenames r) (typename_count r) (transient_state r) (input_set r) (output_set r) (stdin_data r).
#[export] Instance set_code_lines : Setter code_lines := fun f r =>
  Globals (ps r) (opt r) (lab r) (code r) (com r) (token r) (in_buffer r) (buf_ptr r) (bp_save r) (input r) (had_eof r) (output r) (errout r) (output_is_stdout r) (found_err r) (n_real_blanklines r) (prefix_blankline_requested r) (postfix_blankline_requested r) (break_comma r) (case_ind r) (f (code_lines r)) (line_no r) (inhibit_formatting r) (suppress_blanklines r) (comment_open r) (paren_target r) (not_first_line r) (typenames r) (typename_count r) (transient_state r) (input_set r) (output_set r) (stdin_data r).
#[export] Instance set_line_no : Setter line_no := fun f r =>
  Globals (ps r) (opt r) (lab r) (code r) (com r) (token r) (in_buffer r) (buf_ptr r) (bp_save r) (input r) (had_eof r) (output r) (errout r) (output_is_stdout r) (found_err r) (n_real_blanklines r) (prefix_blankline_requested r) (postfix_blankline_requested r) (break_comma r) (case_ind r) (code_lines r) (f (line_no r)) (inhibit_formatting r) (suppress_blanklines r) (comment_open r) (paren_target r) (not_first_line r) (typenames r) (typename_count r) (transient_state r) (input_set r) (output_set r) (stdin_data r).
#[export] Instance set_inhibit_formatting : Setter inhibit_formatting := fun f r =>
  Globals (ps r) (opt r) (lab r) (code r) (com r) (token r) (in_buffer r) (buf_ptr r) (bp_save r) (input r) (had_eof r) (output r) (errout r) (output_is_stdout r) (found_err r) (n_real_blanklines r) (prefix_blankline_requested r) (postfix_blankline_requested r) (break_comma r) (case_ind r) (code_lines r) (line_no r) (f (inhibit_formatting r)) (suppress_blanklines r) (comment_open r) (paren_target r) (not_first_line r) (typenames r) (typename_count r) (transient_state r) (input_set r) (output_set r) (stdin_data r).
#[export] Instance set_suppress_blanklines : Setter suppress_blanklines := fun f r =>
  Globals (ps r) (opt r) (lab r) (code r) (com r) (token r) (in_buffer r) (buf_ptr r) (bp_save r) (input r) (had_eof r) (output r) (errout r) (output_is_stdout r) (found_err r) (n_real_blanklines r) (prefix_blankline_requested r) (postfix_blankline_requested r) (break_comma r) (case_ind r) (code_lines r) (line_no r) (inhibit_formatting r) (f (suppress_blanklines r)) (comment_open r) (paren_target r) (not_first_line r) (typenames r) (typename_count r) (transient_state r) (input_set r) (output_set r) (stdin_data r).
#[export] Instance set_comment_open : Setter comment_open := fun f r =>
  Globals (ps r) (opt r) (lab r) (code r) (com r) (token r) (in_buffer r) (buf_ptr r) (bp_save r) (input r) (had_eof r) (output r) (errout r) (output_is_stdout r) (found_err r) (n_real_blanklines r) (prefix_blankline_requested r) (postfix_blankline_requested r) (break_comma r) (case_ind r) (code_lines r) (line_no r) (inhibit_formatting r) (suppress_blanklines r) (f (comment_open r)) (paren_target r) (not_first_line r) (typenames r) (typename_count r) (transient_state r) (input_set r) (output_set r) (stdin_data r).
#[export] Instance set_paren_target : Setter paren_target := fun f r =>
  Globals (ps r) (opt r) (lab r) (code r) (com r) (token r) (in_buffer r) (buf_ptr r) (bp_save r) (input r) (had_eof r) (output r) (errout r) (output_is_stdout r) (found_err r) (n_real_blanklines r) (prefix_blankline_requested r) (postfix_blankline_requested r) (break_comma r) (case_ind r) (code_lines r) (line_no r) (inhibit_formatting r) (suppress_blanklines r) (comment_open r) (f (paren_target r)) (not_first_line r) (typenames r) (typename_count r) (transient_state r) (input_set r) (output_set r) (stdin_data r).
#[export] Instance set_not_first_line : Setter not_first_line := fun f r =>
  Globals (ps r) (opt r) (lab r) (code r) (com r) (token r) (in_buffer r) (buf_ptr r) (bp_save r) (input r) (had_eof r) (output r) (errout r) (output_is_stdout r) (found_err r) (n_real_blanklines r) (prefix_blankline_requested r) (postfix_blankline_requested r) (break_comma r) (case_ind r) (code_lines r) (line_no r) (inhibit_formatting r) (suppress_blanklines r) (comment_open r) (paren_target r) (f (not_first_line r)) (typenames r) (typename_count r) (transient_state r) (input_set r) (output_set r) (stdin_data r).
#[export] Instance set_typenames : Setter typenames := fun f r =>
  Globals (ps r) (opt r) (lab r) (code r) (com r) (token r) (in_buffer r) (buf_ptr r) (bp_save r) (input r) (had_eof r) (output r) (errout r) (output_is_stdout r) (found_err r) (n_real_blanklines r) (prefix_blankline_requested r) (postfix_blankline_requested r) (break_comma r) (case_ind r) (code_lines r) (line_no r) (inhibit_formatting r) (suppress_blanklines r) (comment_open r) (paren_target r) (not_first_line r) (f (typenames r)) (typename_count r) (transient_state r) (input_set r) (output_set r) (stdin_data r).
#[export] Instance set_typename_count : Setter typename_count := fun f r =>
  Globals (ps r) (opt r) (lab r) (code r) (com r) (token r) (in_buffer r) (buf_ptr r) (bp_save r) (input r) (had_eof r) (output r) (errout r) (output_is_stdout r) (found_err r) (n_real_blanklines r) (prefix_blankline_requested r) (postfix_blankline_requested r) (break_comma r) (case_ind r) (code_lines r) (line_no r) (inhibit_formatting r) (suppress_blanklines r) (comment_open r) (paren_target r) (not_first_line r) (typenames r) (f (typename_count r)) (transient_state r) (input_set r) (output_set r) (stdin_data r).
#[export] Instance set_transient_state : Setter transient_state := fun f r =>
  Globals (ps r) (opt r) (lab r) (code r) (com r) (token r) (in_buffer r) (buf_ptr r) (bp_save r) (input r) (had_eof r) (output r) (errout r) (output_is_stdout r) (found_err r) (n_real_blanklines r) (prefix_blankline_requested r) (postfix_blankline_requested r) (break_comma r) (case_ind r) (code_lines r) (line_no r) (inhibit_formatting r) (suppress_blanklines r) (comment_open r) (paren_target r) (not_first_line r) (typenames r) (typename_count r) (f (transient_state r)) (input_set r) (output_set r) (stdin_data r).
#[export] Instance set_input_set : Setter input_set := fun f r =>
  Globals (ps r) (opt r) (lab r) (code r) (com r) (token r) (in_buffer r) (buf_ptr r) (bp_save r) (input r) (had_eof r) (output r) (errout r) (output_is_stdout r) (found_err r) (n_real_blanklines r) (prefix_blankline_requested r) (postfix_blankline_requested r) (break_comma r) (case_ind r) (code_lines r) (line_no r) (inhibit_formatting r) (suppress_blanklines r) (comment_open r) (paren_target r) (not_first_line r) (typenames r) (typename_count r) (transient_state r) (f (input_set r)) (output_set r) (stdin_data r).
#[export] Instance set_output_set : Setter output_set := fun f r =>
  Globals (ps r) (opt r) (lab r) (code r) (com r) (token r) (in_buffer r) (buf_ptr r) (bp_save r) (input r) (had_eof r) (output r) (errout r) (output_is_stdout r) (found_err r) (n_real_blanklines r) (prefix_blankline_requested r) (postfix_blankline_requested r) (break_comma r) (case_ind r) (code_lines r) (line_no r) (inhibit_formatting r) (suppress_blanklines r) (comment_open r) (paren_target r) (not_first_line r) (typenames r) (typename_count r) (transient_state r) (input_set r) (f (output_set r)) (stdin_data r).
#[export] Instance set_stdin_data : Setter stdin_data := fun f r =>
  Globals (ps r) (opt r) (lab r) (code r) (com r) (token r) (in_buffer r) (buf_ptr r) (bp_save r) (input r) (had_eof r) (output r) (errout r) (output_is_stdout r) (found_err r) (n_real_blanklines r) (prefix_blankline_requested r) (postfix_blankline_requested r) (break_comma r) (case_ind r) (code_lines r) (line_no r) (inhibit_formatting r) (suppress_blanklines r) (comment_open r) (paren_target r) (not_first_line r) (typenames r) (typename_count r) (transient_state r) (input_set r) (output_set r) (f (stdin_data r)).

(** ** Static storage

    The structures and globals are zero-initialised; [globals_zero inp] is the
    program before its first statement, writing to standard output and with
    [inp] on its input. *)

Definition opt_zero : options :=
  Options 0 0 0 0 0 0 0 0 0 0 0 0 (S754_zero false) 0 0 0 0 0 0 0 0 0 0 0 0 0 0 0 0 0 0 0 0 0 0 0 0 0 0.

Definition ps_zero : parser_state :=
  PState 0 (replicate 256 0) (replicate 256 0) (replicate 256 (S754_zero false)) 0 0 0 0 0 0 0 0 0 0 0 0 0 0 0 0 0 0 0 0 0 0 0 0 0 (replicate 20 0) 0 0 0 0 0 0 0 0 [] 0.

Definition globals_zero (inp : bytes) : globals :=
  Globals ps_zero opt_zero [] [] [] [] [] O None inp false [] [] true 0 0 0 0 false (S754_zero false) 0 0 0 0 0 0 false [] 0 ps_zero false false [].

(** ** The state monad *)

Abbreviation M := (ST globals).

(** Field access through the monad. *)
Definition getps {A} (f : parser_state -> A) : M A := fun g => SRet (f (ps g)) g.
Definition getopt {A} (f : options -> A) : M A := fun g => SRet (f (opt g)) g.
Definition setps {A} (f : parser_state -> A) `{Setter _ _ f} (v : A) : M () :=
  modify (fun g => g <| ps := ps g <| f := v |> |>).

Lemma wp_getps {A} (f : parser_state -> A) (Q : A -> globals -> Prop) X g :
  Q (f (ps g)) g -> wp (getps f) Q X g.
Proof. done. Qed.

Lemma wp_setps {A} (f : parser_state -> A) `{Setter _ _ f} v (Q : () -> globals -> Prop) X g :
  Q tt (g <| ps := ps g <| f := v |> |>) -> wp (setps f v) Q X g.
Proof. done. Qed.

Lemma wp_getopt {A} (f : options -> A) (Q : A -> globals -> Prop) X g :
  Q (f (opt g)) g -> wp (getopt f) Q X g.
Proof. done. Qed.

(** Symbolic execution: unfold the monad's primitives in the goal. *)
Ltac wp_step :=
  lazymatch goal with
  | |- wp (bind _ _) _ _ _ => apply wp_bind
  | |- wp (ret _) _ _ _ => apply wp_ret
  | |- wp get _ _ _ => apply wp_get
  | |- wp (modify _) _ _ _ => apply wp_modify
  | |- wp (getps _) _ _ _ => apply wp_getps
  | |- wp (setps _ _) _ _ _ => apply wp_setps
  | |- wp (getopt _) _ _ _ => apply wp_getopt
  end; cbv beta iota.
Ltac wp_steps := repeat wp_step.

(** An array access or a fallible computation whose result is known. *)
Tactic Notation "wp_some" constr(E) := eapply wp_of_opt; [exact E|]; cbv beta iota; wp_steps.
