(* ===== verification/IndentIo.v ===== *)
(** * indent(1): src/bsd_additions/indent/io.c

    Columns, padding, the output of a formatted line and the refilling of the
    input buffer.

    Main results: the padding written by pad_output leaves the output exactly
    at the target column; dump_line empties the three buffers and commits the
    indentation for the next line, terminates its output with a newline or form
    feed and keeps the well-formedness of the parser state; fill_buffer always
    leaves a line that ends in a newline. *)

From S2P Require Import Prelude Monad IndentGlobs.
From stdpp Require Import base list numbers.
From Stdlib Require Import ZArith Lia SpecFloat.

Open Scope Z_scope.

Module IndentIo.

Local Open Scope ind_scope.

(** ** Diagnostics *)

(** A decimal int as [%d] prints it. *)
Definition print_d (z : Z) : bytes :=
  if z <? 0 then 45 :: print_base 10 (- z) else print_base 10 z.

(** The common body of diag2, diag3 and diag4: [text] is the formatted
    message. *)
Definition diag (level : Z) (text : bytes) : M () :=
  (if truth level then modify (fun g => g <| found_err := 1 |>) else ret tt) ;;
  modify (fun g =>
    let head := (if level =? 0 then bs "Warning" else bs "Error") ++ bs "@" ++ print_d (line_no g) ++ bs ": " in
    if output_is_stdout g
    then g <| output := output g ++ bs "/**INDENT** " ++ head ++ text ++ bs " */" ++ [10] |>
    else g <| errout := errout g ++ head ++ text ++ [10] |>).

Definition diag2 (level : Z) (msg : bytes) : M () := diag level msg.

(** The formats given to diag3 and diag4 hold one and two [%d]: the text before,
    between and after them. *)
Definition diag3 (level : Z) (msg1 msg2 : bytes) (a : Z) : M () :=
  diag level (msg1 ++ print_d a ++ msg2).
Definition diag4 (level : Z) (msg1 msg2 msg3 : bytes) (a b : Z) : M () :=
  diag level (msg1 ++ print_d a ++ msg2 ++ print_d b ++ msg3).

Definition putc (c : Z) : M () := modify (fun g => g <| output := output g ++ [c] |>).
Definition puts (s : bytes) : M () := modify (fun g => g <| output := output g ++ s |>).

(** ** Columns *)

(** [opt.tabsize * (1 + (cur - 1) / opt.tabsize) + 1]; a zero tab size divides
    by zero. *)
Definition next_tab (ts cur : Z) : option Z :=
  if ts =? 0 then None else Some (ts * (1 + cdiv (cur - 1) ts) + 1).

(** The column after printing [buffer], which stops at its end pointer (the end
    of the list) or at a NUL. *)
Fixpoint count_spaces_until (ts cur : Z) (buffer : bytes) : option Z :=
  match buffer with
  | [] => Some cur
  | c :: buf =>
      if c =? 0 then Some cur
      else if (c =? 10) || (c =? 12) then count_spaces_until ts 1 buf
      else if c =? 9 then
        match next_tab ts cur with
        | Some cur => count_spaces_until ts cur buf
        | None => None
        end
      else if c =? 8 then count_spaces_until ts (cur - 1) buf
      else count_spaces_until ts (cur + 1) buf
  end.

Definition count_spaces (ts cur : Z) (buffer : bytes) : option Z := count_spaces_until ts cur buffer.

(** The tabs of pad_output and the column they lead to; every tab advances, so
    [target - curr] rounds are enough. *)
Fixpoint pad_tabs (fuel : nat) (ts curr target : Z) : option (bytes * Z) :=
  match fuel with
  | O => Some ([], curr)
  | S f =>
      match next_tab ts curr with
      | None => None
      | Some tcur =>
          if tcur <=? target then
            match pad_tabs f ts tcur target with
            | Some (o, c) => Some (9 :: o, c)
            | None => None
            end
          else Some ([], curr)
      end
  end.

(** What pad_output writes, and the column it returns. *)
Definition pad_output (use_tabs ts current target : Z) : option (bytes * Z) :=
  if target <=? current then Some ([], current)
  else
    match (if truth use_tabs
           then pad_tabs (Z.to_nat (target - current)) ts current target
           else Some ([], current)) with
    | None => None
    | Some (tabs, curr) => Some (tabs ++ replicate (Z.to_nat (target - curr)) 32, target)
    end.

Definition m_pad_output (current target : Z) : M Z :=
  let! o := getopt (fun o => o) in
  let! (b, col) := of_opt (pad_output (use_tabs o) (tabsize o) current target) in
  puts b ;; ret col.

Definition m_count_spaces (cur : Z) (s : bytes) : M Z :=
  let! o := getopt (fun o => o) in of_opt (count_spaces (tabsize o) cur s).

Definition compute_code_target : M Z :=
  let! g := get in
  let o := opt g in
  let p := ps g in
  let target_col := ind_size o * ind_level p + 1 in
  if truth (paren_level p) then
    if negb (truth (lineup_to_parens o)) then
      ret (target_col + continuation_indent o *
        (if 2 * continuation_indent o =? ind_size o then 1 else paren_level p))
    else if truth (lineup_to_parens_always o) then ret (paren_target g)
    else
      let t := paren_target g in
      let! ct := m_count_spaces t (code g) in
      let w := ct - max_col o in
      let! cc := (if 0 <? w then m_count_spaces target_col (code g) else ret 0) in
      if (0 <? w) && (cc <=? max_col o) then
        let t := t - (w + 1) in
        ret (if target_col <? t then t else target_col)
      else ret t
  else if truth (ind_stmt p) then ret (target_col + continuation_indent o)
  else ret target_col.

Definition compute_label_target : M Z :=
  let! g := get in
  let o := opt g in
  let p := ps g in
  if truth (pcase p) then
    let! z := of_opt (sf_trunc (flt_mul (case_ind g) (flt_of_Z (ind_size o)))) in
    ret (z + 1)
  else if hd0 (lab g) =? 35 then ret 1
  else ret (ind_size o * (ind_level p - label_offset) + 1).

(** ** dump_line *)

(** Trailing characters satisfying [f] removed. *)
Definition rtrim (f : Z -> bool) (s : bytes) : bytes :=
  reverse (snd (span f (reverse s))).

Definition is_else_endif (s : bytes) : bool :=
  bool_decide (take 5 s = bs "#else") || bool_decide (take 6 s = bs "#endif").

(** A label line #else or #endif: the directive, then whatever follows it as a
    comment. *)
Definition print_else_endif (l : bytes) : bytes :=
  let l := if hd0 (reverse l) =? 10 then take (length l - 1) l else l in
  match l with
  | [] => []
  | c :: s =>
      let (w, s) := span islower s in
      let s := snd (span isblank s) in
      c :: w ++
      match s with
      | [] => []
      | _ => if bool_decide (take 2 s = bs "/*") then 9 :: s
             else 9 :: bs "/* " ++ s ++ bs " */"
      end
  end.

Definition close_comment : M () :=
  let! g := get in
  if truth (comment_open g) then
    modify (fun g => g <| comment_open := 0 |>) ;; puts (bs ".*/" ++ [10])
  else ret tt.

(** The label section; the column after it. *)
Definition dump_label : M Z :=
  let! g := get in
  match lab g with
  | [] => ret 1
  | _ =>
      close_comment ;;
      modify (fun g => g <| lab := rtrim isblank (lab g) |>) ;;
      let! target := compute_label_target in
      let! cur_col := m_pad_output 1 target in
      let! g := get in
      (if (hd0 (lab g) =? 35) && is_else_endif (lab g)
       then puts (print_else_endif (lab g)) else puts (lab g)) ;;
      m_count_spaces cur_col (lab g)
  end.

(** [paren_indents[i] = -(paren_indents[i] + target_col)] for the open
    parentheses not yet converted; the elements are shorts. *)
Fixpoint convert_parens (n : nat) (i target_col : Z) (l : list Z) : option (list Z) :=
  match n with
  | O => Some l
  | S n =>
      match aget l i with
      | None => None
      | Some v =>
          if 0 <=? v then
            match aset l i (sint 16 (- (v + target_col))) with
            | None => None
            | Some l => convert_parens n (i + 1) target_col l
            end
          else convert_parens n (i + 1) target_col l
      end
  end.

Definition code_bytes (target_col : Z) (s : bytes) : bytes :=
  flat_map (fun c => if c =? 128 then print_d (target_col * 7) else [c]) s.

(** The code section. *)
Definition dump_code (cur_col : Z) : M Z :=
  let! g := get in
  match code g with
  | [] => ret cur_col
  | _ =>
      close_comment ;;
      let! target_col := compute_code_target in
      let! l := getps paren_indents in
      let! n := getps p_l_follow in
      let! l := of_opt (convert_parens (Z.to_nat n) 0 target_col l) in
      setps paren_indents l ;;
      let! cur_col := m_pad_output cur_col target_col in
      puts (code_bytes target_col (code g)) ;;
      m_count_spaces cur_col (code g)
  end.

(** [while ( *com_st == TAB) com_st++, target += opt.tabsize]. *)
Fixpoint skip_com_tabs (ts target : Z) (com_st : bytes) : Z * bytes :=
  match com_st with
  | c :: rest => if c =? 9 then skip_com_tabs ts (target + ts) rest else (target, com_st)
  | [] => (target, [])
  end.

(** [while (target <= 0)]: each round consumes a character or ends the loop. *)
Fixpoint raise_target (ts target : Z) (com_st : bytes) : option (Z * bytes) :=
  if target <=? 0 then
    match com_st with
    | c :: rest =>
        if c =? 32 then raise_target ts (target + 1) rest
        else if c =? 9 then
          match next_tab ts target with
          | Some t => raise_target ts t rest
          | None => None
          end
        else Some (1, com_st)
    | [] => Some (1, [])
    end
  else Some (target, com_st).

(** The comment section. *)
Definition dump_comment (cur_col : Z) : M () :=
  let! g := get in
  match com g with
  | [] => ret tt
  | _ =>
      let target := com_col (ps g) + comment_delta (ps g) in
      let (target, com_st) := skip_com_tabs (tabsize (opt g)) target (com g) in
      let! (target, com_st) := of_opt (raise_target (tabsize (opt g)) target com_st) in
      let! cur_col :=
        (if target <? cur_col then
           putc 10 ;; setps out_lines (out_lines (ps g) + 1) ;; ret 1
         else ret cur_col) in
      m_pad_output cur_col target ;;
      puts (rtrim isspace com_st) ;;
      modify (fun g => g <| ps := ps g <| comment_delta := n_comment_delta (ps g) |>
                                       <| com_lines ::= Z.succ |> |>)
  end.

(** The number of blank lines due before this line. *)
Definition due_blanklines (g : globals) : Z :=
  let n := n_real_blanklines g in
  if truth (prefix_blankline_requested g) && not_first_line g
  then if truth (swallow_optional_blanklines (opt g))
       then (if n =? 1 then 0 else n)
       else (if n =? 0 then 1 else n)
  else n.

Definition dump_blanklines : M () :=
  modify (fun g =>
    g <| suppress_blanklines := 0 |> <| ps := ps g <| bl_line := 0 |> |>
      <| output := output g ++ replicate (Z.to_nat (due_blanklines g)) 10 |>
      <| n_real_blanklines := 0 |>).

(** Before the sections are printed. *)
Definition dump_prepare : M () :=
  dump_blanklines ;;
  let! g := get in
  (if ind_level (ps g) =? 0 then setps ind_stmt 0 else ret tt) ;;
  (if match lab g, code g with [], [] => false | _, _ => true end
   then modify (fun g => g <| code_lines ::= Z.succ |>) else ret tt).

(** After them: the line terminator and the blank lines requested next. *)
Definition dump_newline : M () :=
  let! g := get in
  (if truth (use_ff (ps g)) then putc 12 else putc 10) ;;
  modify (fun g => g <| ps := ps g <| out_lines ::= Z.succ |> |>) ;;
  let! g := get in
  (if (just_saw_decl (ps g) =? 1) && truth (blanklines_after_declarations (opt g)) then
     modify (fun g => g <| prefix_blankline_requested := 1 |>
                        <| ps := ps g <| just_saw_decl := 0 |> |>)
   else modify (fun g => g <| prefix_blankline_requested := postfix_blankline_requested g |>)) ;;
  modify (fun g => g <| postfix_blankline_requested := 0 |>).

(** The line itself, when formatting is on and something is buffered. *)
Definition dump_text : M () :=
  dump_prepare ;;
  let! cur_col := dump_label in
  setps pcase 0 ;;
  let! cur_col := dump_code cur_col in
  dump_comment cur_col ;;
  dump_newline.

(** The buffers are reset and the indentation of the next line committed. *)
Definition dump_reset : M () :=
  modify (fun g =>
    let p := ps g in
    g <| ps := p <| decl_on_line := in_decl p |>
                 <| ind_stmt := Z.land (in_stmt p) (Z.lnot (in_decl p)) |>
                 <| use_ff := 0 |>
                 <| dumped_decl_indent := 0 |>
                 <| ind_level := i_l_follow p |>
                 <| paren_level := p_l_follow p |> |>
      <| lab := [] |> <| code := [] |> <| com := [] |>) ;;
  let! p := getps (fun p => p) in
  (if 0 <? paren_level p then
     let! v := of_opt (aget (paren_indents p) (paren_level p - 1)) in
     modify (fun g => g <| paren_target := - v |>)
   else ret tt) ;;
  modify (fun g => g <| not_first_line := true |>).

(** A procedure name on the line puts it at the left margin. *)
Definition at_proc (g : globals) : globals :=
  if truth (hd0 (procname (ps g)))
  then g <| ps := ps g <| ind_level := 0 |> <| procname := [] |> |> else g.

Definition empty_line (g : globals) : bool :=
  match code g, lab g, com g with [], [], [] => true | _, _, _ => false end.

(** An empty line is only counted, any other one printed unless formatting is
    off. *)
Definition dump_body : M () :=
  let! g := get in
  if empty_line g then
    if 0 <? suppress_blanklines g
    then modify (fun g => g <| suppress_blanklines ::= Z.pred |>)
    else modify (fun g => g <| ps := ps g <| bl_line := 1 |> |> <| n_real_blanklines ::= Z.succ |>)
  else if inhibit_formatting g =? 0 then dump_text else ret tt.

Definition dump_line : M () :=
  modify at_proc ;; dump_body ;; dump_reset.

(** ** fill_buffer *)

(** The characters up to and including the next newline, NULs dropped; at the
    end of the input a blank and a newline are supplied.  The rest of the input
    and whether it ended. *)
Fixpoint read_line (inp : bytes) : bytes * bytes * bool :=
  match inp with
  | [] => ([32; 10], [], true)
  | c :: inp =>
      if c =? 10 then ([10], inp, false)
      else
        let '(l, rest, eof) := read_line inp in
        (if c =? 0 then l else c :: l, rest, eof)
  end.

Definition starts (p s : bytes) : bool := bool_decide (take (length p) s = p).

(** The line ends in star, slash, newline: [p - in_buffer > 2 && p[-2] == '/' &&
    p[-3] == '*']. *)
Definition ends_comment (l : bytes) : bool := starts [10; 47; 42] (reverse l).

Definition skip_blanks (s : bytes) : bytes := snd (span isblank s).

(** The control comments: 1 for INDENT ON (or a bare INDENT), 2 for INDENT OFF,
    0 for any other line. *)
Definition indent_control (l : bytes) : Z :=
  let p := skip_blanks l in
  if starts (bs "/*") p then
    let p := skip_blanks (drop 2 p) in
    if starts (bs "INDENT") p then
      let p := skip_blanks (drop 6 p) in
      let '(p, com) :=
        if hd0 p =? 42 then (p, 1)
        else if hd0 p =? 79 then
          let p := drop 1 p in
          if hd0 p =? 78 then (drop 1 p, 1)
          else if (hd0 p =? 70) && (hd0 (drop 1 p) =? 70) then (drop 2 p, 2)
          else (p, 0)
        else (p, 0) in
      let p := skip_blanks p in
      if starts (bs "*/" ++ [10]) p then com else 0
    else 0
  else 0.

(** What an INDENT control comment does. *)
Definition apply_control (com : Z) : M () :=
  let! g := get in
  (match IndentGlobs.com g, lab g, code g with
   | [], [], [] => ret tt
   | _, _, _ => dump_line
   end) ;;
  modify (fun g => g <| inhibit_formatting := com - 1 |>) ;;
  if com - 1 =? 0 then
    modify (fun g => g <| n_real_blanklines := 0 |> <| postfix_blankline_requested := 0 |>
                       <| prefix_blankline_requested := 0 |> <| suppress_blanklines := 1 |>)
  else ret tt.

(** [do putc( *p, output); while ( *p++ != '\n')]: the line being scanned, up to
    its newline. *)
Definition echo_line : M () :=
  let! g := get in
  if truth (inhibit_formatting g) then
    let (l, rest) := span (fun c => negb (c =? 10)) (in_buffer g) in
    match rest with
    | [] => mundef
    | _ => puts (l ++ [10])
    end
  else ret tt.

(** A line that ends a comment: one of indent's own error messages is dropped
    and the buffer filled [again], a control comment takes effect. *)
Definition check_comment (again : M ()) (l : bytes) : M () :=
  if ends_comment l then
    if starts (bs "/**INDENT**") l then again
    else
      let com := indent_control l in
      if truth com then apply_control com else ret tt
  else ret tt.

(** The part of fill_buffer that reads; a line that is one of indent's own error
    messages is dropped and the next one read. *)
Fixpoint read_buffer (fuel : nat) : M () :=
  match fuel with
  | O => mundef
  | S fuel =>
      let! g := get in
      let '(l, rest, eof) := read_line (input g) in
      modify (fun g => g <| in_buffer := l |> <| buf_ptr := O |> <| input := rest |>
                         <| had_eof ::= orb eof |>) ;;
      check_comment (read_buffer fuel) l ;;
      echo_line
  end.

(** Every round consumes a line of the input, so its length bounds them. *)
Definition fill_buffer : M () :=
  let! g := get in
  match bp_save g with
  | Some (l, i) =>
      modify (fun g => g <| in_buffer := l |> <| buf_ptr := i |> <| bp_save := None |>) ;;
      if (i <? length l)%nat then ret tt else read_buffer (S (length (input g)))
  | None => read_buffer (S (length (input g)))
  end.

(** ** Columns: lemmas *)

Lemma next_tab_advances ts cur : 0 < ts -> exists c, next_tab ts cur = Some c /\ cur < c <= cur + 2 * ts.
Proof.
  intros Hts. unfold next_tab. replace (ts =? 0) with false by lia. eexists; split; [done|].
  unfold cdiv. pose proof (Z.quot_rem' (cur - 1) ts).
  pose proof (Z.rem_bound_abs (cur - 1) ts). lia.
Qed.

(** From a column of the page the next stop is less than a tab width past the
    one before it, so after the tabs fewer than [ts] blanks remain. *)
Lemma next_tab_le ts cur : 0 < ts -> 1 <= cur -> exists c, next_tab ts cur = Some c /\ cur < c <= cur + ts.
Proof.
  intros Hts Hc. unfold next_tab. replace (ts =? 0) with false by lia. eexists; split; [done|].
  unfold cdiv. rewrite Z.quot_div_nonneg by lia.
  pose proof (Z.div_mod (cur - 1) ts). pose proof (Z.mod_pos_bound (cur - 1) ts). nia.
Qed.

Lemma count_spaces_total ts cur s : 0 < ts -> exists c, count_spaces ts cur s = Some c.
Proof.
  intros Hts. unfold count_spaces. revert cur. induction s as [|c s IH]; intros cur; cbn; [eauto|].
  destruct (next_tab_advances ts cur) as (t & -> & _); [done|].
  repeat case_if; eauto.
Qed.

Lemma count_spaces_app ts cur s1 s2 c :
  forallb (fun c => negb (c =? 0)) s1 = true -> count_spaces ts cur s1 = Some c ->
  count_spaces ts cur (s1 ++ s2) = count_spaces ts c s2.
Proof.
  unfold count_spaces. revert cur.
  induction s1 as [|x s1 IH]; intros cur; cbn; [by intros _ [= ->]|].
  intros Hx H. bsimp. replace (x =? 0) with false in * by lia.
  repeat case_if; try destruct (next_tab ts cur); auto; done.
Qed.

Lemma count_blanks ts cur n : count_spaces ts cur (replicate n 32) = Some (cur + Z.of_nat n).
Proof.
  unfold count_spaces. revert cur. induction n as [|n IH]; intros cur; cbn; [f_equal; lia|].
  rewrite IH. f_equal; lia.
Qed.

(** With enough rounds the tabs stop short of the target by less than one stop. *)
Lemma pad_tabs_spec fuel ts curr target :
  0 < ts -> curr <= target -> target - curr <= Z.of_nat fuel ->
  exists n c, pad_tabs fuel ts curr target = Some (replicate n 9, c) /\
    count_spaces ts curr (replicate n 9) = Some c /\ curr <= c <= target /\
    (1 <= curr -> curr < target -> target < c + ts).
Proof.
  intros Hts. revert curr. induction fuel as [|fuel IH]; intros curr Hle Hf.
  - exists O, curr. cbn. repeat split; auto; lia.
  - cbn [pad_tabs]. destruct (next_tab_advances ts curr) as (t & E & Ht); [done|]. rewrite E.
    destruct (t <=? target) eqn:Et; bsimp.
    + destruct (IH t) as (n & c & -> & Hc & Hr & Hb); [lia..|].
      exists (S n), c. cbn. unfold count_spaces in *. rewrite E.
      split_and!; [done|done|lia|lia|]. intros H1 _.
      destruct (decide (t < target)); [apply Hb; lia|lia].
    + exists O, curr. cbn. split_and!; [done|done|lia|lia|]. intros H1 _.
      destruct (next_tab_le ts curr) as (t' & E' & Ht'); [lia..|].
      rewrite E in E'. injection E' as <-. lia.
Qed.

Definition pad_shape (ts curr target : Z) (b : bytes) : Prop :=
  exists n m, b = replicate n 9 ++ replicate m 32 /\
    count_spaces ts curr b = Some (Z.max curr target).

Lemma replicate_no_nul n x : x <> 0 -> forallb (fun c => negb (c =? 0)) (replicate n x) = true.
Proof. intros Hx. induction n as [|n IH]; [done|]. cbn. rewrite IH. replace (x =? 0) with false by lia. done. Qed.

Lemma pad_output_shape ut ts current target :
  0 < ts -> exists b, pad_output ut ts current target = Some (b, Z.max current target) /\
    pad_shape ts current target b.
Proof.
  intros Hts. unfold pad_output, pad_shape. destruct (target <=? current) eqn:E; bsimp.
  - exists []. rewrite Z.max_l by lia. split; [done|]. by exists O, O.
  - rewrite Z.max_r by lia.
    destruct (pad_tabs_spec (Z.to_nat (target - current)) ts current target)
      as (n & c & Hp & Hc & Hr & _); [lia..|].
    destruct (truth ut).
    + rewrite Hp. eexists; split; [done|]. exists n, (Z.to_nat (target - c)). split; [done|].
      rewrite (count_spaces_app _ _ _ _ c), count_blanks by (auto using replicate_no_nul).
      f_equal; lia.
    + eexists; split; [done|]. exists O, (Z.to_nat (target - current)). split; [done|].
      cbn [replicate app]. rewrite count_blanks. f_equal; lia.
Qed.

(** ** Well-formed state

    What the output routines rely on: tab stops exist, the label column is a
    number, and the open parentheses fit their array. *)

Record io_wf (g : globals) : Prop := {
  wf_tabsize : 0 < tabsize (opt g);
  wf_case : sf_trunc (flt_mul (case_ind g) (flt_of_Z (ind_size (opt g)))) <> None;
  wf_parens : length (paren_indents (ps g)) = 20%nat;
  wf_follow : 0 <= p_l_follow (ps g) <= 20;
}.

(** [g'] differs from [g] only in what printing may change. *)
Definition same_layout (g g' : globals) : Prop :=
  opt g' = opt g /\ case_ind g' = case_ind g /\
  length (paren_indents (ps g')) = length (paren_indents (ps g)) /\
  p_l_follow (ps g') = p_l_follow (ps g) /\ i_l_follow (ps g') = i_l_follow (ps g) /\
  input g' = input g /\ in_buffer g' = in_buffer g /\ buf_ptr g' = buf_ptr g /\
  inhibit_formatting g' = inhibit_formatting g /\ bp_save g' = bp_save g /\ had_eof g' = had_eof g.

Lemma same_layout_wf g g' : same_layout g g' -> io_wf g -> io_wf g'.
Proof.
  intros (Ho & Hc & Hp & Hf & _) [H1 H2 H3 H4]. by split; rewrite ?Ho, ?Hc, ?Hp, ?Hf.
Qed.

#[global] Instance same_layout_preorder : PreOrder same_layout.
Proof.
  split; [by intros g; unfold same_layout; split_and!|].
  intros g1 g2 g3 H1 H2. unfold same_layout in *. destruct_and!. split_and!; congruence.
Qed.

(** Printing a piece: it appends [b] to the output and leaves the layout. *)
Definition prints (g g' : globals) (b : bytes) : Prop :=
  same_layout g g' /\ output g' = output g ++ b.

Lemma prints_nil g : prints g g [].
Proof. split; [done|by rewrite app_nil_r]. Qed.

Lemma prints_trans g1 g2 g3 b1 b2 : prints g1 g2 b1 -> prints g2 g3 b2 -> prints g1 g3 (b1 ++ b2).
Proof. intros [H1 E1] [H2 E2]. split; [by etrans|]. by rewrite E2, E1, app_assoc. Qed.

Ltac layout := unfold prints, same_layout; cbn; split_and!; first [reflexivity | by rewrite ?app_nil_r | by rewrite <- ?app_assoc].

Lemma wp_puts b (Q : () -> globals -> Prop) X g : Q tt (g <| output := output g ++ b |>) -> wp (puts b) Q X g.
Proof. done. Qed.

Lemma wp_pad_output cur target Q X g :
  io_wf g ->
  (forall b, pad_shape (tabsize (opt g)) cur target b ->
     Q (Z.max cur target) (g <| output := output g ++ b |>)) ->
  wp (m_pad_output cur target) Q X g.
Proof.
  intros Hwf HQ. unfold m_pad_output. wp_steps.
  destruct (pad_output_shape (use_tabs (opt g)) (tabsize (opt g)) cur target (wf_tabsize _ Hwf))
    as (b & E & Hb).
  wp_some E. apply wp_puts. wp_steps. auto.
Qed.

Lemma wp_count_spaces cur s Q X g :
  io_wf g -> (forall c, count_spaces (tabsize (opt g)) cur s = Some c -> Q c g) ->
  wp (m_count_spaces cur s) Q X g.
Proof.
  intros Hwf HQ. unfold m_count_spaces. wp_steps.
  destruct (count_spaces_total (tabsize (opt g)) cur s) as [c E]; [apply Hwf|].
  eapply wp_of_opt; eauto.
Qed.

Lemma wp_close_comment g :
  wp close_comment (fun _ g' => exists b, prints g g' b /\ code g' = code g /\ com g' = com g /\
    lab g' = lab g /\ ps g' = ps g /\ (comment_open g = 0 -> g' = g)) noexit g.
Proof.
  unfold close_comment. wp_steps. apply wp_if; intros E; wp_steps.
  - apply wp_puts. eexists; split; [layout|]. cbn. split_and!; auto.
    intros H0. unfold truth in E. rewrite H0 in E. done.
  - exists []. split; [layout|]. auto.
Qed.

(** Trimming keeps a prefix. *)
Lemma rtrim_prefix f s : rtrim f s `prefix_of` s.
Proof.
  unfold rtrim. destruct (span f (reverse s)) as [a b] eqn:E. apply span_app in E.
  exists (reverse a). cbn [snd]. rewrite <- reverse_app, <- E. by rewrite reverse_involutive.
Qed.

Lemma wp_label_target g :
  io_wf g -> wp compute_label_target (fun _ g' => g' = g) noexit g.
Proof.
  intros Hwf. unfold compute_label_target. wp_steps. repeat (apply wp_if; intros ?); wp_steps; [|done|done].
  destruct (sf_trunc _) as [z|] eqn:E; [|by destruct (wf_case _ Hwf)]. by wp_some (eq_refl (Some z)).
Qed.

Lemma wp_code_target g :
  io_wf g -> wp compute_code_target (fun _ g' => g' = g) noexit g.
Proof.
  intros Hwf. unfold compute_code_target. wp_steps.
  repeat (apply wp_if; intros ?; wp_steps); try done.
  apply wp_count_spaces; [done|]. intros c Hc. wp_steps. apply wp_if; intros ?.
  - apply wp_count_spaces; [done|]. intros c2 Hc2. by apply wp_if; intros ?; wp_steps.
  - wp_steps. by apply wp_if; intros ?; wp_steps.
Qed.

Lemma wp_dump_label g :
  io_wf g -> wp dump_label (fun col g' => exists b, prints g g' b /\
    ps g' = ps g /\ code g' = code g /\ com g' = com g /\
    (lab g = [] -> g' = g /\ col = 1)) noexit g.
Proof.
  intros Hwf. unfold dump_label. wp_steps. destruct (lab g) as [|c l] eqn:El.
  { wp_steps. exists []. split; [apply prints_nil|]. auto. }
  wp_steps. eapply wp_mono; [apply wp_close_comment|].
  intros [] g1 (b1 & H1 & Hc1 & Hm1 & Hl1 & Hp1 & _). wp_steps.
  set (g2 := g1 <| lab := rtrim isblank (lab g1) |>).
  assert (H2 : prints g g2 b1) by (destruct H1 as [H1 ?]; split; [etrans; [exact H1|layout]|done]).
  assert (Hwf2 : io_wf g2) by (by eapply same_layout_wf; [apply H2|]).
  eapply wp_mono; [by apply wp_label_target|]. intros target ? ->. wp_steps.
  apply wp_pad_output; [done|]. intros pb _. wp_steps.
  assert (Hput : forall t, prints g (g2 <| output := (output g2 ++ pb) ++ t |>) (b1 ++ pb ++ t)).
  { intros t. eapply prints_trans; [exact H2|]. layout. }
  apply wp_if; intros _; apply wp_puts; wp_steps;
    (apply wp_count_spaces; [by eapply same_layout_wf; [apply Hput|]|]); intros col _;
    (eexists; split; [apply Hput|cbn; rewrite ?Hp1, ?Hc1, ?Hm1; by split_and!]).
Qed.

(** The conversion of the open parentheses stays inside the array. *)
Lemma convert_parens_total n i t l :
  0 <= i -> i + Z.of_nat n <= Z.of_nat (length l) ->
  exists l', convert_parens n i t l = Some l' /\ length l' = length l.
Proof.
  revert i l. induction n as [|n IH]; intros i l Hi Hn; cbn; [eauto|].
  destruct (aget_in l i) as [v ->]; [lia|]. case_if; [|apply IH; lia].
  rewrite aset_in by lia. destruct (IH (i + 1) (<[Z.to_nat i:=sint 16 (- (v + t))]> l)) as (l' & -> & E).
  - lia.
  - rewrite length_insert. lia.
  - exists l'. rewrite E, length_insert. done.
Qed.

(** The code section starts at its target column, or where the label ended when
    that is beyond it. *)
Lemma wp_dump_code cur g :
  io_wf g -> wp (dump_code cur) (fun _ g' => exists b, prints g g' b /\ com g' = com g /\
    use_ff (ps g') = use_ff (ps g) /\
    (comment_open g = 0 -> code g <> [] -> exists target pb,
       compute_code_target g = SRet target g /\ pad_shape (tabsize (opt g)) cur target pb /\
       b = pb ++ code_bytes target (code g)) /\
    (code g = [] -> b = [])) noexit g.
Proof.
  intros Hwf. unfold dump_code. wp_steps. destruct (code g) as [|c l] eqn:Ec.
  { wp_steps. exists []. split; [apply prints_nil|]. by split_and!. }
  wp_steps. eapply wp_mono; [apply wp_close_comment|].
  intros [] g1 (b1 & H1 & Hc1 & Hm1 & Hl1 & Hp1 & Heq). wp_steps.
  assert (Hwf1 : io_wf g1) by (by eapply same_layout_wf; [apply H1|]).
  destruct (wp_run _ _ _ (wp_code_target g1 Hwf1)) as (target & ? & Et & ->).
  unfold wp at 1. rewrite Et. wp_steps.
  destruct (convert_parens_total (Z.to_nat (p_l_follow (ps g1))) 0 target (paren_indents (ps g1)))
    as (l' & El & Hl'); [lia|rewrite (wf_parens _ Hwf1); pose proof (wf_follow _ Hwf1); lia|].
  wp_some El. set (g2 := g1 <| ps := ps g1 <| paren_indents := l' |> |>).
  assert (H2 : prints g1 g2 []) by layout.
  assert (Hwf2 : io_wf g2) by (by eapply same_layout_wf; [apply H2|]).
  apply wp_pad_output; [done|]. intros pb Hpb. wp_steps. apply wp_puts. wp_steps.
  apply wp_count_spaces; [by eapply same_layout_wf; [|exact Hwf2]; layout|]. intros col _.
  exists (b1 ++ pb ++ code_bytes target (c :: l)). split.
  { eapply prints_trans; [exact H1|]. layout. }
  split_and!; [done|by rewrite <- Hp1|..]; [|done].
  intros Ho _. pose proof (Heq Ho) as ->. exists target, pb. split_and!; [done|done|].
  destruct H1 as [_ H1]. rewrite <- (app_nil_r (output g)) in H1 at 1. by apply app_inv_head in H1 as <-.
Qed.

Lemma raise_target_total ts t s : 0 < ts -> exists r, raise_target ts t s = Some r.
Proof.
  intros Hts. revert t. induction s as [|c s IH]; intros t; cbn; [case_if; eauto|].
  destruct (next_tab_advances ts t) as (t' & -> & _); [done|]. repeat case_if; eauto.
Qed.

Lemma wp_dump_comment cur g :
  io_wf g -> wp (dump_comment cur) (fun _ g' => exists b, prints g g' b /\
    use_ff (ps g') = use_ff (ps g) /\ (com g = [] -> b = [])) noexit g.
Proof.
  intros Hwf. unfold dump_comment. wp_steps. destruct (com g) as [|c l] eqn:Ec.
  { wp_steps. exists []. split; [apply prints_nil|done]. }
  destruct (skip_com_tabs _ _ _) as [t s] eqn:Es. wp_steps.
  destruct (raise_target_total (tabsize (opt g)) t s) as ([t' s'] & Er); [apply Hwf|]. wp_some Er.
  assert (Hrest : forall col g1 b1, prints g g1 b1 -> use_ff (ps g1) = use_ff (ps g) ->
    wp (m_pad_output col t';;
     puts (rtrim isspace s') ;;
     modify (fun g => g <| ps := ps g <| comment_delta := n_comment_delta (ps g) |>
                                       <| com_lines ::= Z.succ |> |>))
     (fun _ g' => exists b, prints g g' b /\ use_ff (ps g') = use_ff (ps g) /\ (c :: l = [] -> b = [])) noexit g1).
  { intros col g1 b1 H1 Hff. wp_steps. apply wp_pad_output; [by eapply same_layout_wf; [apply H1|]|].
    intros pb _. wp_steps. apply wp_puts. wp_steps.
    exists (b1 ++ pb ++ rtrim isspace s'). split; [|by split]. eapply prints_trans; [exact H1|]. layout. }
  apply wp_if; intros _; unfold putc; wp_steps; (apply wp_bind_inv; eapply Hrest; [|done]); layout.
Qed.

(** One formatted line: what was printed, the line terminator and the layout. *)
Definition line_end (g : globals) : Z := if truth (use_ff (ps g)) then 12 else 10.

(** The state in which the sections of a line are printed. *)
Definition at_text (g : globals) : globals :=
  let g := g <| suppress_blanklines := 0 |> <| ps := ps g <| bl_line := 0 |> |>
             <| output := output g ++ replicate (Z.to_nat (due_blanklines g)) 10 |>
             <| n_real_blanklines := 0 |> in
  let g := if ind_level (ps g) =? 0 then g <| ps := ps g <| ind_stmt := 0 |> |> else g in
  match lab g, code g with
  | [], [] => g
  | _, _ => g <| code_lines ::= Z.succ |>
  end.

Lemma at_text_fields g :
  prints g (at_text g) (replicate (Z.to_nat (due_blanklines g)) 10) /\
  lab (at_text g) = lab g /\ code (at_text g) = code g /\ com (at_text g) = com g /\
  use_ff (ps (at_text g)) = use_ff (ps g) /\ comment_open (at_text g) = comment_open g.
Proof.
  unfold at_text. cbn -[due_blanklines]. destruct (ind_level (ps g) =? 0); cbn -[due_blanklines];
    destruct (lab g) eqn:?, (code g) eqn:?; cbn -[due_blanklines]; split_and!; auto;
    unfold prints, same_layout; cbn -[due_blanklines]; split_and!; reflexivity.
Qed.

Lemma dump_prepare_run g : dump_prepare g = SRet tt (at_text g).
Proof.
  unfold dump_prepare, dump_blanklines, at_text, bind, get, modify, setps. cbn -[due_blanklines].
  destruct (ind_level (ps g) =? 0); cbn -[due_blanklines]; by destruct (lab g), (code g).
Qed.

Lemma wp_dump_newline g : wp dump_newline (fun _ g' => prints g g' [line_end g]) noexit g.
Proof.
  unfold dump_newline, line_end. wp_steps.
  destruct (truth (use_ff (ps g))); unfold putc; wp_steps; (apply wp_if; intros _; wp_steps; layout).
Qed.

Lemma prints_inv g b1 b2 : prints g g b1 -> b1 ++ b2 = b2.
Proof.
  intros [_ H]. rewrite <- (app_nil_r (output g)) in H at 1. by apply app_inv_head in H as <-.
Qed.

(** The state after an empty label section: the pcase flag is off. *)
Definition label_done (g : globals) : globals := g <| ps := ps g <| pcase := 0 |> |>.

(** A line is printed as some text and its terminator; the text of a line that
    only has code is that code, at its target column. *)
Definition code_line (g : globals) (b : bytes) : Prop :=
  exists target pb,
    compute_code_target (label_done (at_text g)) = SRet target (label_done (at_text g)) /\
    pad_shape (tabsize (opt g)) 1 target pb /\
    b = replicate (Z.to_nat (due_blanklines g)) 10 ++ pb ++ code_bytes target (code g).

Lemma wp_dump_text g :
  io_wf g -> wp dump_text (fun _ g' => exists b, prints g g' (b ++ [line_end g]) /\
    (lab g = [] -> com g = [] -> comment_open g = 0 -> code g <> [] -> code_line g b)) noexit g.
Proof.
  intros Hwf. unfold dump_text. wp_steps. unfold wp at 1. rewrite dump_prepare_run.
  destruct (at_text_fields g) as (H0 & Hl & Hc & Hm & Hff & Hop).
  assert (Hwf0 : io_wf (at_text g)) by (by eapply same_layout_wf; [apply H0|]).
  unfold code_line. set (g0 := at_text g) in *. wp_steps.
  eapply wp_mono; [by apply wp_dump_label|]. intros col1 g1 (b1 & H1 & Hp1 & Hc1 & Hm1 & Heq1).
  wp_steps. set (g1' := g1 <| ps := ps g1 <| pcase := 0 |> |>).
  assert (H1' : prints g1 g1' []) by layout.
  assert (Hwf1 : io_wf g1') by (eapply same_layout_wf; [apply H1'|by eapply same_layout_wf; [apply H1|]]).
  eapply wp_mono; [by apply wp_dump_code|]. intros col2 g2 (b2 & H2 & Hm2 & Hf2 & Hcode & _). wp_steps.
  assert (Hwf2 : io_wf g2) by (by eapply same_layout_wf; [apply H2|]).
  eapply wp_mono; [by apply wp_dump_comment|]. intros [] g3 (b3 & H3 & Hf3 & Hcom).
  assert (Eff : line_end g3 = line_end g) by (unfold line_end; rewrite Hf3, Hf2; cbn; by rewrite Hp1, Hff).
  eapply wp_mono; [apply wp_dump_newline|]. intros [] g4 H4. rewrite Eff in H4.
  set (bb := replicate (Z.to_nat (due_blanklines g)) 10) in *.
  exists (bb ++ b1 ++ [] ++ b2 ++ b3). split.
  { eapply prints_trans; [|exact H4]. repeat (eapply prints_trans; [eassumption|]). done. }
  intros El Ecm Eo Ecd. destruct Heq1 as [-> Ecol]; [congruence|]. subst col1.
  destruct Hcode as (t & pb & Et & Hs & ->); [by cbn; rewrite Hop|by cbn; rewrite Hc|].
  rewrite Hcom by (rewrite Hm2; cbn; by rewrite Hm).
  exists t, pb. destruct H0 as [(Ho & _) _]. cbn in Hs. rewrite Ho in Hs.
  split_and!; [exact Et|exact Hs|]. cbn. rewrite (prints_inv _ _ _ H1), app_nil_r. by rewrite Hc.
Qed.

(** What every dump_line leaves behind, whatever it printed. *)
Definition reset_state (g g' : globals) : Prop :=
  lab g' = [] /\ code g' = [] /\ com g' = [] /\ not_first_line g' = true /\
  ind_level (ps g') = i_l_follow (ps g) /\ paren_level (ps g') = p_l_follow (ps g) /\
  use_ff (ps g') = 0 /\ dumped_decl_indent (ps g') = 0 /\
  (0 < p_l_follow (ps g) -> exists v, aget (paren_indents (ps g')) (p_l_follow (ps g) - 1) = Some v /\
     paren_target g' = - v).

Lemma wp_dump_reset g :
  io_wf g -> wp dump_reset (fun _ g' => prints g g' [] /\ reset_state g g' /\
    n_real_blanklines g' = n_real_blanklines g) noexit g.
Proof.
  intros Hwf. unfold dump_reset. wp_steps. apply wp_if; intros E; wp_steps; cbn in E; bsimp.
  - destruct (aget_in (paren_indents (ps g)) (p_l_follow (ps g) - 1)) as [v Ev].
    { rewrite (wf_parens _ Hwf). pose proof (wf_follow _ Hwf). lia. }
    wp_some Ev. split; [layout|]. unfold reset_state; cbn. split_and!; auto. intros _. by exists v.
  - split; [layout|]. unfold reset_state; cbn. split_and!; auto; lia.
Qed.

(** The text dump_body adds to the output. *)
Definition body_text (g : globals) (b : bytes) : Prop :=
  if empty_line g || truth (inhibit_formatting g) then b = []
  else exists t, b = t ++ [line_end g] /\
    (lab g = [] -> com g = [] -> comment_open g = 0 -> code_line g t).

Lemma wp_dump_body g :
  io_wf g -> wp dump_body (fun _ g' => exists b, prints g g' b /\ body_text g b /\
    (empty_line g = true -> suppress_blanklines g <= 0 ->
      n_real_blanklines g' = n_real_blanklines g + 1)) noexit g.
Proof.
  intros Hwf. unfold dump_body, body_text. wp_steps. destruct (empty_line g) eqn:Ee.
  - apply wp_if; intros E; wp_steps; bsimp; (exists []; split_and!; [layout|done|]); cbn; lia.
  - unfold truth. destruct (inhibit_formatting g =? 0); cbn [negb orb].
    + eapply wp_mono; [by apply wp_dump_text|]. intros [] g' (b & Hb & Hcl).
      exists (b ++ [line_end g]). split_and!; [done| |done]. exists b. split; [done|].
      intros Hl Hm Ho. apply Hcl; [done..|]. unfold empty_line in Ee. rewrite Hl, Hm in Ee. by destruct (code g).
    + wp_steps. exists []. by split_and!; [layout|..].
Qed.

Lemma at_proc_same g : prints g (at_proc g) [].
Proof. unfold at_proc. case_if; layout. Qed.

Lemma reset_state_trans g g1 g' : same_layout g g1 -> reset_state g1 g' -> reset_state g g'.
Proof. intros (_ & _ & _ & Hf & Hi & _). unfold reset_state. by rewrite Hf, Hi. Qed.

Lemma wp_dump_line g :
  io_wf g -> wp dump_line (fun _ g' => exists b, prints g g' b /\ body_text (at_proc g) b /\
    reset_state g g' /\ (empty_line g = true -> suppress_blanklines g <= 0 ->
      n_real_blanklines g' = n_real_blanklines g + 1)) noexit g.
Proof.
  intros Hwf. pose proof (at_proc_same g) as H1. unfold dump_line. wp_steps.
  assert (Hwf1 : io_wf (at_proc g)) by (by eapply same_layout_wf; [apply H1|]).
  eapply wp_mono; [by apply wp_dump_body|]. intros [] g2 (b & H2 & Hb & Hn).
  assert (Hwf2 : io_wf g2) by (by eapply same_layout_wf; [apply H2|]).
  eapply wp_mono; [by apply wp_dump_reset|]. intros [] g3 (H3 & Hr & Hn3). exists b. split_and!; [|done|..].
  - rewrite <- (app_nil_r b). apply (prints_trans _ _ _ [] _ H1). by eapply prints_trans.
  - eapply reset_state_trans; [|done]. etrans; [apply H1|apply H2].
  - intros Ee Es. rewrite Hn3. revert Hn. unfold at_proc. case_if; auto.
Qed.

(** ** fill_buffer: lemmas *)

Lemma read_line_newline inp : let '(l, rest, eof) := read_line inp in
  (exists p, l = p ++ [10] /\ forallb (fun c => negb (c =? 10) && negb (c =? 0)) p = true) /\
  (eof = false -> (length rest < length inp)%nat) /\
  (length l + length rest <= length inp + if eof then 2 else 0)%nat /\
  (eof = true -> rest = [] /\ exists q, l = q ++ [32; 10]).
Proof.
  induction inp as [|c inp IH]; cbn.
  - split; [by exists [32]|]. split; [done|]. split; [lia|]. split; [done|by exists []].
  - destruct (c =? 10) eqn:E; bsimp.
    { split; [by exists []|]. cbn. split; [lia|]. split; [lia|done]. }
    destruct (read_line inp) as [[l rest] eof]. destruct IH as ((p & Ep & Hp) & H1 & H2 & H3).
    assert (Hl : (length (if (c =? 0)%Z then l else c :: l) <= S (length l))%nat) by (case_if; cbn; lia).
    split; [|split; [intros Hf; specialize (H1 Hf); lia|split; [lia|]]].
    2: { intros E0. destruct (H3 E0) as [-> [q ->]]. split; [done|]. case_if; [by exists q|by exists (c :: q)]. }
    subst l. destruct (c =? 0) eqn:E0; [by exists p|]. exists (c :: p). cbn.
    rewrite Hp, E0. replace (c =? 10) with false by lia. done.
Qed.

(** The line the end of the input supplies is not a comment end. *)
Lemma eof_no_comment q : ends_comment (q ++ [32; 10]) = false.
Proof. unfold ends_comment. by rewrite reverse_app. Qed.

Lemma wp_echo_line g p :
  in_buffer g = p ++ [10] -> forallb (fun c => negb (c =? 10)) p = true ->
  wp echo_line (fun _ g' => g' = if truth (inhibit_formatting g)
    then g <| output := output g ++ in_buffer g |> else g) noexit g.
Proof.
  intros E Hp. unfold echo_line. wp_steps. destruct (truth _); [|by wp_steps].
  rewrite E, (span_all _ p [10]) by auto. by apply wp_puts.
Qed.

(** What fill_buffer leaves to the scanner after reading. *)
Record filled (g g' : globals) : Prop := {
  fl_line : exists p, in_buffer g' = p ++ [10] /\ forallb (fun c => negb (c =? 10) && negb (c =? 0)) p = true;
  fl_ptr : buf_ptr g' = O;
  fl_save : bp_save g' = None;
  fl_wf : io_wf g';
  fl_input : (length (input g') <= length (input g))%nat;
  fl_eof : (had_eof g = true -> input g = []) -> had_eof g' = true ->
    input g' = [] /\ exists q, in_buffer g' = q ++ [32; 10];
  fl_avail : had_eof g = false ->
    (length (in_buffer g') + length (input g') + (if had_eof g' then 0 else 3) <= length (input g) + 3)%nat;
}.

Lemma wp_apply_control n g :
  io_wf g -> wp (apply_control n) (fun _ g' => io_wf g' /\ in_buffer g' = in_buffer g /\
    buf_ptr g' = buf_ptr g /\ input g' = input g /\ bp_save g' = bp_save g /\ had_eof g' = had_eof g /\
    inhibit_formatting g' = n - 1) noexit g.
Proof.
  intros Hwf. unfold apply_control. wp_steps.
  assert (Hrest : forall g1, same_layout g g1 ->
    wp (modify (fun g => g <| inhibit_formatting := n - 1 |>))
      (fun _ g' => wp (if n - 1 =? 0 then
        modify (fun g => g <| n_real_blanklines := 0 |> <| postfix_blankline_requested := 0 |>
                       <| prefix_blankline_requested := 0 |> <| suppress_blanklines := 1 |>)
        else ret tt) (fun _ g' => io_wf g' /\ in_buffer g' = in_buffer g /\
    buf_ptr g' = buf_ptr g /\ input g' = input g /\ bp_save g' = bp_save g /\ had_eof g' = had_eof g /\
    inhibit_formatting g' = n - 1) noexit g') noexit g1).
  { intros g1 H1. pose proof (same_layout_wf _ _ H1 Hwf) as [? ? ? ?]. unfold same_layout in H1.
    destruct_and!. wp_steps. apply wp_if; intros _; wp_steps; (split; [by split|]); cbn; by split_and!. }
  destruct (IndentGlobs.com g), (lab g), (code g); first [by wp_step; apply Hrest |
    (eapply wp_mono; [by apply wp_dump_line|]); intros [] g1 (b & [H1 _] & _); wp_step; by apply Hrest].
Qed.

Lemma no_newline_weaken p :
  forallb (fun c => negb (c =? 10) && negb (c =? 0)) p = true -> forallb (fun c => negb (c =? 10)) p = true.
Proof. rewrite !forallb_forall. intros H x Hx. specialize (H x Hx). by bsimp; apply negb_true_iff, Z.eqb_neq. Qed.

Lemma wp_echo_filled g g1 :
  filled g g1 -> wp echo_line (fun _ g' => filled g g') noexit g1.
Proof.
  intros Hfl. pose proof Hfl as [(p & E & Hp) H2 H3 H4 H5 H6 H7].
  eapply wp_mono; [eapply wp_echo_line; [exact E|by apply no_newline_weaken]|]. intros [] g' ->.
  case_if; [|done]. destruct H4. split; cbn; eauto. by split.
Qed.

(** The state after a line has been read, before its comment is looked at. *)
Definition got_line (l rest : bytes) (eof : bool) (g : globals) : globals :=
  g <| in_buffer := l |> <| buf_ptr := O |> <| input := rest |> <| had_eof ::= orb eof |>.

Lemma got_line_filled g l rest eof :
  io_wf g -> bp_save g = None -> read_line (input g) = (l, rest, eof) -> filled g (got_line l rest eof g).
Proof.
  intros Hwf Hbp Er. pose proof (read_line_newline (input g)) as Hr. rewrite Er in Hr.
  destruct Hr as (Hl & Hlt & Hlen & Heof). split; cbn; auto.
  - destruct Hwf; by split.
  - destruct eof; [|by specialize (Hlt eq_refl); lia]. destruct (Heof eq_refl) as [-> _]. cbn; lia.
  - intros Hin Hhad. destruct eof; [auto|]. cbn in Hhad. rewrite (Hin Hhad) in Er. discriminate.
  - intros ->. rewrite orb_false_r. destruct eof; lia.
Qed.

Lemma filled_trans g g1 g2 :
  filled g1 g2 -> (length (input g1) < length (input g))%nat -> had_eof g1 = had_eof g ->
  input g <> [] -> filled g g2.
Proof.
  intros [H1 H2 H3 H4 H5 H6 H7] Hlt He Hne. rewrite He in *. split; auto; try lia.
  - intros Hin Hh. apply H6; [|done]. intros Hg. by destruct (Hne (Hin Hg)).
  - intros Hg. specialize (H7 Hg). lia.
Qed.

Lemma wp_read_buffer fuel g :
  io_wf g -> bp_save g = None -> (length (input g) < fuel)%nat ->
  wp (read_buffer fuel) (fun _ g' => filled g g') noexit g.
Proof.
  revert g. induction fuel as [|fuel IH]; intros g Hwf Hbp Hf; [lia|]. cbn [read_buffer]. wp_steps.
  pose proof (read_line_newline (input g)) as Hr.
  destruct (read_line (input g)) as [[l rest] eof] eqn:Er. destruct Hr as (_ & Hlt & _ & Heof). wp_steps.
  fold (got_line l rest eof g). pose proof (got_line_filled g l rest eof Hwf Hbp Er) as Hg1.
  pose proof Hg1 as [F1 F2 F3 F4 F5 F6 F7].
  unfold check_comment. apply wp_if; intros Eend; [|by wp_steps; apply wp_echo_filled].
  apply wp_if; intros _; [|apply wp_if; intros _; [|by wp_steps; apply wp_echo_filled]].
  - destruct eof; [destruct (Heof eq_refl) as [_ [q ->]]; by rewrite eof_no_comment in Eend|].
    specialize (Hlt eq_refl). eapply wp_mono; [apply IH; [done|done|cbn; lia]|].
    intros [] g2 H. apply wp_echo_filled. eapply filled_trans; [exact H|cbn; lia|done|].
    intros E0. rewrite E0 in Hlt. cbn in Hlt. lia.
  - eapply wp_mono; [by apply wp_apply_control|]. intros [] g2 (H1 & H2 & H3 & H4 & H5 & H6 & _).
    apply wp_echo_filled. split; rewrite ?H2, ?H3, ?H4, ?H5, ?H6; auto.
Qed.

(** One plain line (no error message of indent's own, no control comment) is
    read as it is, and copied to the output while formatting is off. *)
Definition plain_line (l : bytes) : bool :=
  negb (ends_comment l) || (negb (starts (bs "/**INDENT**") l) && (indent_control l =? 0)).

Lemma echo_line_run g p :
  in_buffer g = p ++ [10] -> forallb (fun c => negb (c =? 10)) p = true ->
  echo_line g = SRet tt (g <| output ::= fun o => o ++ if truth (inhibit_formatting g) then in_buffer g else [] |>).
Proof.
  intros E Hp. unfold echo_line, bind, get. destruct (truth _).
  - by rewrite E, (span_all _ p [10]) by auto.
  - destruct g. unfold set_field, set_output; cbn. by rewrite app_nil_r.
Qed.

Definition echoed (l : bytes) (g : globals) : globals :=
  g <| output ::= fun o => o ++ if truth (inhibit_formatting g) then l else [] |>.

Lemma read_buffer_plain fuel g l rest eof :
  read_line (input g) = (l, rest, eof) -> plain_line l = true ->
  read_buffer (S fuel) g = SRet tt (echoed l (got_line l rest eof g)).
Proof.
  intros Er Hpl. pose proof (read_line_newline (input g)) as Hr. rewrite Er in Hr.
  destruct Hr as ((p & -> & Hp) & _). apply no_newline_weaken in Hp.
  cbn [read_buffer]. unfold bind at 1, get at 1. rewrite Er. unfold bind at 1, modify at 1.
  assert (E : check_comment (read_buffer fuel) (p ++ [10]) = ret tt).
  { unfold plain_line in Hpl. unfold check_comment. destruct (ends_comment _); [|done].
    cbn [negb orb] in Hpl. apply andb_true_iff in Hpl as [Hs Hc].
    apply negb_true_iff in Hs as ->. apply Z.eqb_eq in Hc as ->. done. }
  rewrite E. unfold bind, ret. by rewrite (echo_line_run _ p).
Qed.

(** An error message is skipped; the line after it is read by the inner call and,
    with formatting off, copied by both. *)
Lemma read_buffer_message fuel g l1 rest1 l2 rest2 eof :
  read_line (input g) = (l1, rest1, false) -> ends_comment l1 = true ->
  starts (bs "/**INDENT**") l1 = true ->
  read_line rest1 = (l2, rest2, eof) -> plain_line l2 = true ->
  read_buffer (S (S fuel)) g =
    SRet tt (echoed l2 (echoed l2 (got_line l2 rest2 eof (got_line l1 rest1 false g)))).
Proof.
  intros E1 Hend Hst E2 Hpl. pose proof (read_line_newline rest1) as Hr. rewrite E2 in Hr.
  destruct Hr as ((p & Ep & Hp) & _). apply no_newline_weaken in Hp.
  remember (S fuel) as f eqn:Ef. cbn [read_buffer]. unfold bind at 1, get at 1.
  rewrite E1. unfold check_comment. rewrite Hend, Hst. unfold bind, modify. subst f.
  fold (got_line l1 rest1 false g).
  rewrite (read_buffer_plain fuel (got_line l1 rest1 false g) l2 rest2 eof) by done.
  by rewrite (echo_line_run _ p).
Qed.

(** * Properties *)

(** The padding pad_output writes is tabs then blanks, takes the output
    exactly from the current to the target column (it writes nothing when the
    target is already passed), and when tabs are used fewer blanks than a tab
    width remain. *)
Theorem pad_output_reaches_target ut ts current target :
  0 < ts ->
  exists n m, pad_output ut ts current target =
      Some (replicate n 9 ++ replicate m 32, Z.max current target) /\
    count_spaces ts current (replicate n 9 ++ replicate m 32) = Some (Z.max current target) /\
    (ut = 0 -> n = O) /\ (ut <> 0 -> 1 <= current -> Z.of_nat m < ts).
Proof.
  intros Hts. unfold pad_output. destruct (target <=? current) eqn:E; bsimp.
  { exists O, O. rewrite Z.max_l by lia. by split_and!. }
  rewrite Z.max_r by lia.
  destruct (pad_tabs_spec (Z.to_nat (target - current)) ts current target)
    as (n & c & Hp & Hc & Hr & Hb); [lia..|].
  unfold truth. destruct (ut =? 0) eqn:Eu; cbn [negb]; bsimp.
  - exists O, (Z.to_nat (target - current)). cbn [replicate app]. rewrite count_blanks.
    split_and!; [done|f_equal; lia|done|done].
  - exists n, (Z.to_nat (target - c)). rewrite Hp.
    rewrite (count_spaces_app _ _ _ _ c), count_blanks by (auto using replicate_no_nul).
    split_and!; [done|f_equal; lia|done|]. intros _ H1. specialize (Hb H1). lia.
Qed.

Lemma pad_output_witness :
  pad_output 1 8 3 21 = Some ([9; 9; 32; 32; 32; 32], 21) /\
  exists n m, pad_output 1 8 3 21 = Some (replicate n 9 ++ replicate m 32, 21) /\
    count_spaces 8 3 (replicate n 9 ++ replicate m 32) = Some 21 /\
    (1 = 0 -> n = O) /\ (1 <> 0 -> 1 <= 3 -> Z.of_nat m < 8).
Proof. split; [reflexivity|]. apply (pad_output_reaches_target 1 8 3 21). lia. Defined.


(** The zero-initialised program with 8-column tabs: a state every hypothesis of
    this file holds in. *)
Definition sample (inp : bytes) : globals :=
  globals_zero inp <| opt := opt_zero <| tabsize := 8 |> <| ind_size := 8 |> |>.

Lemma sample_wf inp : io_wf (sample inp).
Proof. split; cbn; [lia|done|done|lia]. Qed.


(** C35. fill_buffer always returns in a well-formed state: either it switches
    back to the unread rest of a saved buffer, or it leaves at the start of the
    buffer one line that ends in its only newline and holds no NUL, having
    consumed input without ever reading past it. *)
Theorem fill_buffer_returns_line g :
  io_wf g ->
  exists g', fill_buffer g = SRet tt g' /\ io_wf g' /\ bp_save g' = None /\
    ((exists l i, bp_save g = Some (l, i) /\ (i < length l)%nat /\
        in_buffer g' = l /\ buf_ptr g' = i /\ input g' = input g /\ output g' = output g) \/
     (buf_ptr g' = O /\ (length (input g') <= length (input g))%nat /\
      exists p, in_buffer g' = p ++ [10] /\
        forallb (fun c => negb (c =? 10) && negb (c =? 0)) p = true)).
Proof.
  intros Hwf.
  assert (Hread : forall g1, io_wf g1 -> bp_save g1 = None -> input g1 = input g ->
    exists g', read_buffer (S (length (input g))) g1 = SRet tt g' /\ filled g1 g').
  { intros g1 Hwf1 Hb Hi. destruct (wp_run _ _ _ (wp_read_buffer (S (length (input g))) g1 Hwf1 Hb
      ltac:(rewrite Hi; lia))) as ([] & g' & ? & ?). eauto. }
  unfold fill_buffer, bind, get. destruct (bp_save g) as [[l i]|] eqn:Eb.
  - set (g1 := g <| in_buffer := l |> <| buf_ptr := i |> <| bp_save := None |>).
    assert (Hwf1 : io_wf g1) by (destruct Hwf; by split). unfold modify. fold g1.
    destruct (i <? length l)%nat eqn:El.
    + apply Nat.ltb_lt in El. exists g1. split_and!; [done..|]. left. by exists l, i.
    + destruct (Hread g1) as (g' & -> & [H1 H2 H3 H4 H5 _ _]); [done..|].
      exists g'. split_and!; auto.
  - destruct (Hread g) as (g' & -> & [H1 H2 H3 H4 H5 _ _]); [done..|]. exists g'. split_and!; auto.
Qed.

Lemma fill_buffer_returns_witness :
  exists g', fill_buffer (sample (bs "int x;")) = SRet tt g' /\ in_buffer g' = bs "int x; " ++ [10].
Proof.
  destruct (fill_buffer_returns_line (sample (bs "int x;")) (sample_wf _)) as (g' & E & _).
  exists g'. split; [exact E|]. vm_compute in E. by injection E as <-.
Defined.

(** With formatting off, a line that is neither one of indent's own error
    messages nor a control comment is copied to the output unchanged, once. *)
Theorem fill_buffer_copies_verbatim g l rest eof :
  bp_save g = None -> inhibit_formatting g <> 0 ->
  read_line (input g) = (l, rest, eof) -> plain_line l = true ->
  exists g', fill_buffer g = SRet tt g' /\ output g' = output g ++ l /\ in_buffer g' = l /\
    input g' = rest.
Proof.
  intros Hb Hi Er Hpl. unfold fill_buffer, bind, get. rewrite Hb.
  rewrite (read_buffer_plain _ _ _ _ _ Er Hpl). eexists; split; [done|]. unfold echoed; cbn.
  unfold truth. replace (inhibit_formatting g =? 0) with false by lia. done.
Qed.

Lemma fill_buffer_copies_witness :
  let inp := bs "  keep   this" ++ [10] in
  exists g', fill_buffer (sample inp <| inhibit_formatting := 1 |>) = SRet tt g' /\
    output g' = [] ++ inp /\ in_buffer g' = inp /\ input g' = [].
Proof.
  intros inp. exact (fill_buffer_copies_verbatim (sample inp <| inhibit_formatting := 1 |>) inp [] false
    eq_refl ltac:(discriminate) eq_refl eq_refl).
Defined.

(** With formatting off, the line after one of indent's error messages is
    copied twice: the inner call that replaces the message echoes it and the
    outer call echoes the same buffer again. *)
Theorem fill_buffer_doubles_line_after_message g l1 rest1 l2 rest2 eof :
  bp_save g = None -> inhibit_formatting g <> 0 ->
  read_line (input g) = (l1, rest1, false) -> ends_comment l1 = true ->
  starts (bs "/**INDENT**") l1 = true ->
  read_line rest1 = (l2, rest2, eof) -> plain_line l2 = true ->
  exists g', fill_buffer g = SRet tt g' /\ output g' = output g ++ l2 ++ l2.
Proof.
  intros Hb Hi E1 Hend Hst E2 Hpl. unfold fill_buffer, bind, get. rewrite Hb.
  destruct (length (input g)) as [|n] eqn:El; [by destruct (input g); cbn in E1|].
  rewrite (read_buffer_message _ _ _ _ _ _ _ E1 Hend Hst E2 Hpl). eexists; split; [done|].
  unfold echoed; cbn. unfold truth. replace (inhibit_formatting g =? 0) with false by lia.
  by rewrite app_assoc.
Qed.

Lemma fill_buffer_doubles_witness :
  let m := bs "/**INDENT** Warning@1: x */" ++ [10] in
  let l := bs "a;" ++ [10] in
  exists g', fill_buffer (sample (m ++ l) <| inhibit_formatting := 1 |>) = SRet tt g' /\
    output g' = [] ++ l ++ l.
Proof.
  intros m l. exact (fill_buffer_doubles_line_after_message
    (sample (m ++ l) <| inhibit_formatting := 1 |>) m l l [] false
    eq_refl ltac:(discriminate) eq_refl eq_refl eq_refl eq_refl eq_refl).
Defined.

End IndentIo.
