(* ===== verification/IndentParse.v ===== *)
(** * indent(1): src/bsd_additions/indent/parse.c

    The shift/reduce parser that tracks statement nesting on three parallel
    arrays of 256 elements (p_stack, il, cstk) with the index tos.

    [parse] and [reduce] are the code; [spush], [sreduce] and [sparse] the same
    parser on a list of stack entries, proved equivalent as long as the arrays
    are not exceeded.  The grammar of statements and the theorem that a
    well-nested statement list returns the parser to where it started are stated
    on the code through that refinement. *)

From S2P Require Import Prelude Monad IndentGlobs IndentIo.
From stdpp Require Import base list numbers.
From Stdlib Require Import ZArith Lia SpecFloat.

Open Scope Z_scope.

Module IndentParse.

Import IndentIo.
Local Open Scope ind_scope.

(** ** Stack access *)

Definition rd_stack (i : Z) : M Z := let! p := getps (fun p => p) in of_opt (aget (p_stack p) i).
Definition rd_il (i : Z) : M Z := let! p := getps (fun p => p) in of_opt (aget (il p) i).
Definition rd_cstk (i : Z) : M float := let! p := getps (fun p => p) in of_opt (aget (cstk p) i).

Definition wr_stack (i v : Z) : M () :=
  let! p := getps (fun p => p) in let! l := of_opt (aset (p_stack p) i v) in setps p_stack l.
Definition wr_il (i v : Z) : M () :=
  let! p := getps (fun p => p) in let! l := of_opt (aset (il p) i v) in setps il l.
Definition wr_cstk (i : Z) (v : float) : M () :=
  let! p := getps (fun p => p) in let! l := of_opt (aset (cstk p) i v) in setps cstk l.

(** [ps.p_stack[++ps.tos] = tk]. *)
Definition push (tk : Z) : M () :=
  let! t := getps tos in setps tos (t + 1) ;; wr_stack (t + 1) tk.

(** [ps.p_stack[--ps.tos] = tk]. *)
Definition pop_to (tk : Z) : M () :=
  let! t := getps tos in setps tos (t - 1) ;; wr_stack (t - 1) tk.

(** ** reduce *)

(** [for (i = ps.tos - 1; p_stack[i] is none of stmt, stmtl, lbrace; --i);] the
    index steps down, below the array it is undefined. *)
Fixpoint find_base (n : nat) (i : Z) : M Z :=
  let! s := rd_stack i in
  if negb (s =? stmt) && negb (s =? stmtl) && negb (s =? lbrace)
  then match n with
       | O => mundef
       | S n => find_base n (i - 1)
       end
  else ret i.

(** [ps.i_l_follow = ps.il[ps.tos]]. *)
Definition follow_top : M () :=
  let! t := getps tos in let! v := rd_il t in setps i_l_follow v.

(** One round of the loop: whether to go on. *)
Definition reduce_step : M bool :=
  let! t := getps tos in
  let! top := rd_stack t in
  if top =? stmt then
    let! nxt := rd_stack (t - 1) in
    if (nxt =? stmt) || (nxt =? stmtl) then pop_to stmtl ;; ret true
    else if nxt =? dolit then pop_to dohead ;; follow_top ;; ret true
    else if nxt =? ifstmt then
      pop_to ifhead ;;
      let! i := find_base (Z.to_nat t) (t - 1 - 1) in
      let! v := rd_il i in
      setps i_l_follow v ;; ret true
    else if nxt =? swstmt then
      let! c := rd_cstk (t - 1) in
      modify (fun g => g <| case_ind := c |>) ;;
      pop_to stmt ;; follow_top ;; ret true
    else if (nxt =? decl) || (nxt =? elsehead) || (nxt =? forstmt) || (nxt =? whilestmt) then
      pop_to stmt ;; follow_top ;; ret true
    else ret false
  else if top =? whilestmt then
    let! nxt := rd_stack (t - 1) in
    if nxt =? dohead then setps tos (t - 2) ;; ret true else ret false
  else ret false.

(** Every round that goes on lowers tos. *)
Fixpoint reduce_loop (fuel : nat) : M () :=
  match fuel with
  | O => mundef
  | S f => let! more := reduce_step in if (more : bool) then reduce_loop f else ret tt
  end.

Definition reduce : M () := let! t := getps tos in reduce_loop (S (Z.to_nat t)).

(** ** parse *)

(** [while (ps.p_stack[ps.tos] == ifhead && tk != elselit)]. *)
Fixpoint end_ifs (fuel : nat) (tk : Z) : M () :=
  let! t := getps tos in
  let! top := rd_stack t in
  if (top =? ifhead) && negb (tk =? elselit) then
    match fuel with
    | O => mundef
    | S f => wr_stack t stmt ;; reduce ;; end_ifs f tk
    end
  else ret tt.

(** [for (i = ps.tos - 1; i > 0; --i) if (ps.p_stack[i] == decl) ++ps.ind_level;] *)
Fixpoint count_decls (n : nat) : M () :=
  match n with
  | O => ret tt
  | S n =>
      let! s := rd_stack (Z.of_nat (S n)) in
      (if s =? decl then let! v := getps ind_level in setps ind_level (v + 1) else ret tt) ;;
      count_decls n
  end.

Definition parse_decl : M () :=
  let! o := getopt (fun o => o) in
  setps search_brace (btype_2 o) ;;
  let! t := getps tos in
  let! top := rd_stack t in
  if negb (top =? decl) then
    modify (fun g => g <| break_comma := true |>) ;;
    push decl ;;
    let! t := getps tos in
    let! v := getps i_l_follow in
    wr_il t v ;;
    if truth (ljust_decl o) then
      setps ind_level 0 ;;
      count_decls (Z.to_nat (t - 1)) ;;
      let! v := getps ind_level in
      setps i_l_follow v
    else ret tt
  else ret tt.

(** The common part of if, do and for. *)
Definition parse_head (tk : Z) : M () :=
  push tk ;;
  let! t := getps tos in
  let! v := getps i_l_follow in
  setps ind_level v ;;
  wr_il t v ;;
  setps i_l_follow (v + 1) ;;
  let! b := getopt btype_2 in
  setps search_brace b.

Definition parse_if : M () :=
  let! t := getps tos in
  let! top := rd_stack t in
  let! e := getopt else_if in
  (if (top =? elsehead) && truth e then
     let! v := rd_il t in setps i_l_follow v ;; setps tos (t - 1)
   else ret tt) ;;
  parse_head ifstmt.

(** [opt.case_indent >= 1]. *)
Definition flt_ge1 (x : float) : bool := SFleb (flt_of_Z 1) x.

(** The part of lbrace that opens the group. *)
Definition lbrace_open : M () :=
  modify (fun g => g <| break_comma := false |>) ;;
  let! t := getps tos in
  let! top := rd_stack t in
  let! g := get in
  (if (top =? stmt) || (top =? decl) || (top =? stmtl) then
     setps i_l_follow (i_l_follow (ps g) + 1)
   else
     match code g with
     | [] =>
         let d := if (top =? swstmt) && flt_ge1 (case_indent (opt g)) then 2 else 1 in
         setps ind_level (ind_level (ps g) - d)
     | _ => ret tt
     end) ;;
  push lbrace ;;
  let! p := getps (fun p => p) in
  wr_il (tos p) (ind_level p).

Definition parse_lbrace : M () :=
  lbrace_open ;;
  push stmt ;;
  let! p := getps (fun p => p) in
  wr_il (tos p) (i_l_follow p).

Definition parse_while : M () :=
  let! t := getps tos in
  let! top := rd_stack t in
  if top =? dohead then
    let! v := rd_il t in
    setps i_l_follow v ;;
    setps ind_level v ;;
    push whilestmt ;;
    let! v := getps i_l_follow in
    setps ind_level v ;;
    wr_il (t + 1) v
  else
    push whilestmt ;;
    let! v := getps i_l_follow in
    wr_il (t + 1) v ;;
    setps i_l_follow (v + 1) ;;
    let! b := getopt btype_2 in
    setps search_brace b.

Definition parse_else : M () :=
  let! t := getps tos in
  let! top := rd_stack t in
  if negb (top =? ifhead) then diag2 1 (bs "Unmatched 'else'")
  else
    let! v := rd_il t in
    setps ind_level v ;;
    setps i_l_follow (v + 1) ;;
    wr_stack t elsehead ;;
    let! o := getopt (fun o => o) in
    setps search_brace (Z.lor (btype_2 o) (else_if o)).

Definition parse_rbrace : M () :=
  let! t := getps tos in
  let! below := (if 0 <? t then rd_stack (t - 1) else ret 0) in
  if (0 <? t) && (below =? lbrace) then
    setps tos (t - 1) ;;
    let! v := rd_il (t - 1) in
    setps i_l_follow v ;;
    setps ind_level v ;;
    wr_stack (t - 1) stmt
  else diag2 1 (bs "Statement nesting error").

(** The int [z + case_indent + 1] computed in float and converted back. *)
Definition switch_follow (z : Z) (ci : float) : option Z :=
  sf_trunc (flt_add (flt_of_Z z) (flt_add ci (flt_of_Z 1))).

(** The part of switch before its body's level is computed. *)
Definition switch_open : M () :=
  push swstmt ;;
  let! g := get in
  let t := tos (ps g) in
  let f := i_l_follow (ps g) in
  wr_cstk t (case_ind g) ;;
  wr_il t f ;;
  modify (fun g => g <| case_ind := flt_add (flt_of_Z f) (case_indent (opt g)) |>).

Definition parse_switch : M () :=
  switch_open ;;
  let! f := getps i_l_follow in
  let! o := getopt (fun o => o) in
  let! v := of_opt (switch_follow f (case_indent o)) in
  setps i_l_follow v ;;
  setps search_brace (btype_2 o).

Definition parse_semicolon : M () :=
  modify (fun g => g <| break_comma := false |>) ;;
  push stmt ;;
  let! p := getps (fun p => p) in
  wr_il (tos p) (ind_level p).

(** The switch on the token; whether it was one of the parser's. *)
Definition shift (tk : Z) : M bool :=
  if tk =? decl then parse_decl ;; ret true
  else if tk =? ifstmt then parse_if ;; ret true
  else if (tk =? dolit) || (tk =? forstmt) then parse_head tk ;; ret true
  else if tk =? lbrace then parse_lbrace ;; ret true
  else if tk =? whilestmt then parse_while ;; ret true
  else if tk =? elselit then parse_else ;; ret true
  else if tk =? rbrace then parse_rbrace ;; ret true
  else if tk =? swstmt then parse_switch ;; ret true
  else if tk =? semicolon then parse_semicolon ;; ret true
  else diag2 1 (bs "Unknown code to parser") ;; ret false.

(** The switch, the overflow check and the final reductions. *)
Definition shift_reduce (tk : Z) : M () :=
  let! known := shift tk in
  if (known : bool) then
    let! t := getps tos in
    if STACKSIZE - 1 <=? t then mexit 1 (bs "Parser stack overflow")
    else reduce
  else ret tt.

Definition parse (tk : Z) : M () :=
  let! t := getps tos in
  end_ifs (Z.to_nat t) tk ;;
  shift_reduce tk.

(** ** The parser on a list of entries

    The stack as a list, its top first: the symbol, its indentation level and,
    for a switch, the case indentation it saved. *)

Record entry := Ent { sym : Z; lev : Z; cas : float }.

Record sst := Sst {
  stk : list entry;
  ilf : Z;
  ind : Z;
  ci : float;
  sb : Z;
  bc : bool
}.

Definition with_sym (e : entry) (s : Z) : entry := Ent s (lev e) (cas e).

(** Symbols a statement opens: reducing over one of them gives [stmt]. *)
Definition is_opener (s : Z) : bool :=
  (s =? decl) || (s =? elsehead) || (s =? forstmt) || (s =? whilestmt).
Definition is_stmtish (s : Z) : bool := (s =? stmt) || (s =? stmtl).
Definition is_base (s : Z) : bool := (s =? stmt) || (s =? stmtl) || (s =? lbrace).

(** The indentation of the nearest enclosing statement list. *)
Fixpoint base_lev (l : list entry) : Z :=
  match l with
  | [] => 0
  | e :: l => if is_base (sym e) then lev e else base_lev l
  end.

(** One reduction, if there is one. *)
Definition sred (s : sst) : option sst :=
  match stk s with
  | top :: nxt :: rest =>
      if sym top =? stmt then
        if is_stmtish (sym nxt) then
          Some (Sst (with_sym nxt stmtl :: rest) (ilf s) (ind s) (ci s) (sb s) (bc s))
        else if sym nxt =? dolit then
          Some (Sst (with_sym nxt dohead :: rest) (lev nxt) (ind s) (ci s) (sb s) (bc s))
        else if sym nxt =? ifstmt then
          Some (Sst (with_sym nxt ifhead :: rest) (base_lev rest) (ind s) (ci s) (sb s) (bc s))
        else if sym nxt =? swstmt then
          Some (Sst (with_sym nxt stmt :: rest) (lev nxt) (ind s) (cas nxt) (sb s) (bc s))
        else if is_opener (sym nxt) then
          Some (Sst (with_sym nxt stmt :: rest) (lev nxt) (ind s) (ci s) (sb s) (bc s))
        else None
      else if (sym top =? whilestmt) && (sym nxt =? dohead) then
        Some (Sst rest (ilf s) (ind s) (ci s) (sb s) (bc s))
      else None
  | _ => None
  end.

Fixpoint sreduce_n (n : nat) (s : sst) : sst :=
  match n with
  | O => s
  | S n => match sred s with Some s' => sreduce_n n s' | None => s end
  end.

Definition sreduce (s : sst) : sst := sreduce_n (length (stk s)) s.

Fixpoint send_ifs_n (n : nat) (s : sst) : sst :=
  match n, stk s with
  | S n, top :: rest =>
      if sym top =? ifhead then
        send_ifs_n n (sreduce (Sst (with_sym top stmt :: rest) (ilf s) (ind s) (ci s) (sb s) (bc s)))
      else s
  | _, _ => s
  end.

Definition send_ifs (tk : Z) (s : sst) : sst :=
  if tk =? elselit then s else send_ifs_n (length (stk s)) s.

(** What reading one token pushes. *)
Inductive sout := SOk (s : sst) | SDiag (msg : bytes) | SUb.

Definition count_decl (l : list entry) : Z := Z.of_nat (length (filter (fun e => sym e = decl) l)).

Definition shead (o : options) (tk : Z) (s : sst) : sst :=
  Sst (Ent tk (ilf s) (ci s) :: stk s) (ilf s + 1) (ilf s) (ci s) (btype_2 o) (bc s).

Definition sshift (o : options) (line_empty : bool) (tk : Z) (s : sst) : sout :=
  match stk s with
  | [] => SUb
  | top :: rest =>
      if tk =? decl then
        if sym top =? decl then SOk (Sst (stk s) (ilf s) (ind s) (ci s) (btype_2 o) (bc s))
        else
          let n := count_decl (stk s) in
          let j := truth (ljust_decl o) in
          SOk (Sst (Ent decl (ilf s) (ci s) :: stk s) (if j then n else ilf s) (if j then n else ind s)
                 (ci s) (btype_2 o) true)
      else if tk =? ifstmt then
        if (sym top =? elsehead) && truth (else_if o)
        then SOk (shead o tk (Sst rest (lev top) (ind s) (ci s) (sb s) (bc s)))
        else SOk (shead o tk s)
      else if (tk =? dolit) || (tk =? forstmt) then SOk (shead o tk s)
      else if tk =? lbrace then
        let f := if (sym top =? stmt) || (sym top =? decl) || (sym top =? stmtl) then ilf s + 1 else ilf s in
        let i := if (sym top =? stmt) || (sym top =? decl) || (sym top =? stmtl) then ind s
                 else if line_empty
                      then ind s - (if (sym top =? swstmt) && flt_ge1 (case_indent o) then 2 else 1)
                      else ind s in
        SOk (Sst (Ent stmt f (ci s) :: Ent lbrace i (ci s) :: stk s) f i (ci s) (sb s) false)
      else if tk =? whilestmt then
        if sym top =? dohead
        then SOk (Sst (Ent whilestmt (lev top) (ci s) :: stk s) (lev top) (lev top) (ci s) (sb s) (bc s))
        else SOk (Sst (Ent whilestmt (ilf s) (ci s) :: stk s) (ilf s + 1) (ind s) (ci s) (btype_2 o) (bc s))
      else if tk =? elselit then
        if sym top =? ifhead
        then SOk (Sst (with_sym top elsehead :: rest) (lev top + 1) (lev top) (ci s)
                    (Z.lor (btype_2 o) (else_if o)) (bc s))
        else SDiag (bs "Unmatched 'else'")
      else if tk =? rbrace then
        match rest with
        | below :: rest' =>
            if sym below =? lbrace
            then SOk (Sst (with_sym below stmt :: rest') (lev below) (lev below) (ci s) (sb s) (bc s))
            else SDiag (bs "Statement nesting error")
        | [] => SDiag (bs "Statement nesting error")
        end
      else if tk =? swstmt then
        match switch_follow (ilf s) (case_indent o) with
        | Some f => SOk (Sst (Ent swstmt (ilf s) (ci s) :: stk s) f (ind s)
                           (flt_add (flt_of_Z (ilf s)) (case_indent o)) (btype_2 o) (bc s))
        | None => SUb
        end
      else if tk =? semicolon then
        SOk (Sst (Ent stmt (ind s) (ci s) :: stk s) (ilf s) (ind s) (ci s) (sb s) false)
      else SDiag (bs "Unknown code to parser")
  end.

Definition is_token (tk : Z) : bool :=
  existsb (Z.eqb tk) [decl; ifstmt; dolit; forstmt; lbrace; whilestmt; elselit; rbrace; swstmt; semicolon].

(** The state after the switch and the message it printed, if any. *)
Definition smid (o : options) (line_empty : bool) (tk : Z) (s : sst) : option (sst * option bytes) :=
  let s := send_ifs tk s in
  match sshift o line_empty tk s with
  | SOk s' => Some (s', None)
  | SDiag msg => Some (s, Some msg)
  | SUb => None
  end.

Definition sparse (o : options) (line_empty : bool) (tk : Z) (s : sst) : option (sst * option bytes) :=
  match smid o line_empty tk s with
  | Some (s', msg) => Some (if is_token tk then sreduce s' else s', msg)
  | None => None
  end.

(** ** The parser's part of the state

    Everything parse reads and writes, apart from options and diagnostics. *)

Record core := Core {
  kS : list Z; kI : list Z; kC : list float;
  kT : Z; kF : Z; kN : Z; kB : Z; kbc : bool; kci : float
}.

Definition mk_ps (p : parser_state) (c : core) : parser_state :=
  PState (last_token p) (kS c) (kI c) (kC c) (box_com p) (comment_delta p) (n_comment_delta p)
    (cast_mask p) (not_cast_mask p) (block_init p) (block_init_level p) (last_nl p) (in_or_st p)
    (bl_line p) (col_1 p) (com_col p) (com_lines p) (dec_nest p) (decl_on_line p) (kF c) (in_decl p)
    (in_stmt p) (kN c) (ind_stmt p) (last_u_d p) (out_coms p) (out_lines p) (p_l_follow p)
    (paren_level p) (paren_indents p) (pcase p) (kB c) (use_ff p) (want_blank p) (keyword p)
    (dumped_decl_indent p) (in_parameter_declaration p) (kT c) (procname p) (just_saw_decl p).

(** [g] with the parser's part replaced by [c]. *)
Definition mk (g : globals) (c : core) : globals :=
  Globals (mk_ps (ps g) c) (opt g) (lab g) (code g) (com g) (token g) (in_buffer g) (buf_ptr g)
    (bp_save g) (input g) (had_eof g) (output g) (errout g) (output_is_stdout g) (found_err g)
    (n_real_blanklines g) (prefix_blankline_requested g) (postfix_blankline_requested g) (kbc c)
    (kci c) (code_lines g) (line_no g) (inhibit_formatting g) (suppress_blanklines g) (comment_open
    g) (paren_target g) (not_first_line g) (typenames g) (typename_count g) (transient_state g)
    (input_set g) (output_set g) (stdin_data g).

Definition core_of (g : globals) : core :=
  let p := ps g in
  Core (p_stack p) (il p) (cstk p) (tos p) (i_l_follow p) (ind_level p) (search_brace p)
    (break_comma g) (case_ind g).

Lemma mk_core_of g : mk g (core_of g) = g.
Proof. by destruct g as [[] ?]. Qed.

Section MkRules.
Context (g : globals) (S I : list Z) (C : list float) (t f n b : Z) (k : bool) (d : float).
Abbreviation c := (Core S I C t f n b k d).

Lemma mk_tos : tos (ps (mk g c)) = t. Proof. done. Qed.
Lemma mk_follow : i_l_follow (ps (mk g c)) = f. Proof. done. Qed.
Lemma mk_ind : ind_level (ps (mk g c)) = n. Proof. done. Qed.
Lemma mk_opt : opt (mk g c) = opt g. Proof. done. Qed.
Lemma mk_code : code (mk g c) = code g. Proof. done. Qed.
Lemma mk_case : case_ind (mk g c) = d. Proof. done. Qed.

Lemma wp_rd_stack i v (Q : Z -> globals -> Prop) X :
  aget S i = Some v -> Q v (mk g c) -> wp (rd_stack i) Q X (mk g c).
Proof. intros E HQ. unfold rd_stack. wp_steps. by eapply wp_of_opt. Qed.

Lemma wp_rd_il i v (Q : Z -> globals -> Prop) X :
  aget I i = Some v -> Q v (mk g c) -> wp (rd_il i) Q X (mk g c).
Proof. intros E HQ. unfold rd_il. wp_steps. by eapply wp_of_opt. Qed.

Lemma wp_rd_cstk i v (Q : float -> globals -> Prop) X :
  aget C i = Some v -> Q v (mk g c) -> wp (rd_cstk i) Q X (mk g c).
Proof. intros E HQ. unfold rd_cstk. wp_steps. by eapply wp_of_opt. Qed.

Lemma wp_wr_stack i v (Q : () -> globals -> Prop) X :
  0 <= i < Z.of_nat (length S) ->
  Q tt (mk g (Core (<[Z.to_nat i := v]> S) I C t f n b k d)) -> wp (wr_stack i v) Q X (mk g c).
Proof. intros Hi HQ. unfold wr_stack. wp_steps. eapply wp_of_opt; [by apply aset_in|]. wp_steps. exact HQ. Qed.

Lemma wp_wr_il i v (Q : () -> globals -> Prop) X :
  0 <= i < Z.of_nat (length I) ->
  Q tt (mk g (Core S (<[Z.to_nat i := v]> I) C t f n b k d)) -> wp (wr_il i v) Q X (mk g c).
Proof. intros Hi HQ. unfold wr_il. wp_steps. eapply wp_of_opt; [by apply aset_in|]. wp_steps. exact HQ. Qed.

Lemma wp_wr_cstk i v (Q : () -> globals -> Prop) X :
  0 <= i < Z.of_nat (length C) ->
  Q tt (mk g (Core S I (<[Z.to_nat i := v]> C) t f n b k d)) -> wp (wr_cstk i v) Q X (mk g c).
Proof. intros Hi HQ. unfold wr_cstk. wp_steps. eapply wp_of_opt; [by apply aset_in|]. wp_steps. exact HQ. Qed.

Lemma wp_push tk (Q : () -> globals -> Prop) X :
  0 <= t + 1 < Z.of_nat (length S) ->
  Q tt (mk g (Core (<[Z.to_nat (t + 1) := tk]> S) I C (t + 1) f n b k d)) -> wp (push tk) Q X (mk g c).
Proof. intros Hi HQ. unfold push, wr_stack. wp_steps. eapply wp_of_opt; [by apply aset_in|]. wp_steps. exact HQ. Qed.

Lemma wp_pop_to tk (Q : () -> globals -> Prop) X :
  0 <= t - 1 < Z.of_nat (length S) ->
  Q tt (mk g (Core (<[Z.to_nat (t - 1) := tk]> S) I C (t - 1) f n b k d)) -> wp (pop_to tk) Q X (mk g c).
Proof. intros Hi HQ. unfold pop_to, wr_stack. wp_steps. eapply wp_of_opt; [by apply aset_in|]. wp_steps. exact HQ. Qed.

Lemma wp_set_tos v (Q : () -> globals -> Prop) X :
  Q tt (mk g (Core S I C v f n b k d)) -> wp (setps tos v) Q X (mk g c).
Proof. done. Qed.
Lemma wp_set_follow v (Q : () -> globals -> Prop) X :
  Q tt (mk g (Core S I C t v n b k d)) -> wp (setps i_l_follow v) Q X (mk g c).
Proof. done. Qed.
Lemma wp_set_ind v (Q : () -> globals -> Prop) X :
  Q tt (mk g (Core S I C t f v b k d)) -> wp (setps ind_level v) Q X (mk g c).
Proof. done. Qed.
Lemma wp_set_brace v (Q : () -> globals -> Prop) X :
  Q tt (mk g (Core S I C t f n v k d)) -> wp (setps search_brace v) Q X (mk g c).
Proof. done. Qed.
Lemma wp_set_comma v (Q : () -> globals -> Prop) X :
  Q tt (mk g (Core S I C t f n b v d)) -> wp (modify (fun g => g <| break_comma := v |>)) Q X (mk g c).
Proof. done. Qed.
Lemma wp_set_case v (Q : () -> globals -> Prop) X :
  Q tt (mk g (Core S I C t f n b k v)) -> wp (modify (fun g => g <| case_ind := v |>)) Q X (mk g c).
Proof. done. Qed.

Lemma wp_get_tos (Q : Z -> globals -> Prop) X : Q t (mk g c) -> wp (getps tos) Q X (mk g c).
Proof. done. Qed.
Lemma wp_get_follow (Q : Z -> globals -> Prop) X : Q f (mk g c) -> wp (getps i_l_follow) Q X (mk g c).
Proof. done. Qed.
Lemma wp_get_ind (Q : Z -> globals -> Prop) X : Q n (mk g c) -> wp (getps ind_level) Q X (mk g c).
Proof. done. Qed.
Lemma wp_get_opt {A} (h : options -> A) (Q : A -> globals -> Prop) X :
  Q (h (opt g)) (mk g c) -> wp (getopt h) Q X (mk g c).
Proof. done. Qed.

Lemma wp_follow_top v (Q : () -> globals -> Prop) X :
  aget I t = Some v -> Q tt (mk g (Core S I C t v n b k d)) -> wp follow_top Q X (mk g c).
Proof. intros E HQ. unfold follow_top, rd_il. wp_steps. eapply wp_of_opt; [done|]. wp_steps. exact HQ. Qed.
End MkRules.

Create Rewrite HintDb mkdb.
#[local] Hint Rewrite mk_tos mk_follow mk_ind mk_opt mk_code mk_case : mkdb.

(** Symbolic execution over [mk]. *)
Ltac mk_step :=
  lazymatch goal with
  | |- wp (bind _ _) _ _ _ => apply wp_bind
  | |- wp (ret _) _ _ _ => apply wp_ret
  | |- wp (getps tos) _ _ _ => apply wp_get_tos
  | |- wp (getps i_l_follow) _ _ _ => apply wp_get_follow
  | |- wp (getps ind_level) _ _ _ => apply wp_get_ind
  | |- wp (getps _) _ _ _ => apply wp_getps; cbv beta iota; autorewrite with mkdb
  | |- wp get _ _ _ => apply wp_get; cbv beta iota; autorewrite with mkdb
  | |- wp (getopt _) _ _ _ => apply wp_get_opt
  | |- wp (setps tos _) _ _ _ => apply wp_set_tos
  | |- wp (setps i_l_follow _) _ _ _ => apply wp_set_follow
  | |- wp (setps ind_level _) _ _ _ => apply wp_set_ind
  | |- wp (setps search_brace _) _ _ _ => apply wp_set_brace
  | |- wp (modify (fun _ => _ <| break_comma := _ |>)) _ _ _ => apply wp_set_comma
  | |- wp (modify (fun _ => _ <| case_ind := _ |>)) _ _ _ => eapply wp_set_case
  | |- wp (rd_stack _) _ _ _ => eapply wp_rd_stack; [eassumption|]
  | |- wp (rd_il _) _ _ _ => eapply wp_rd_il; [eassumption|]
  | |- wp (rd_cstk _) _ _ _ => eapply wp_rd_cstk; [eassumption|]
  | |- wp (push _) _ _ _ => apply wp_push; [rewrite ?length_insert; lia|]
  | |- wp (pop_to _) _ _ _ => apply wp_pop_to; [rewrite ?length_insert; lia|]
  | |- wp (wr_stack _ _) _ _ _ => apply wp_wr_stack; [rewrite ?length_insert; lia|]
  | |- wp (wr_il _ _) _ _ _ => apply wp_wr_il; [rewrite ?length_insert; lia|]
  | |- wp (wr_cstk _ _) _ _ _ => apply wp_wr_cstk; [rewrite ?length_insert; lia|]
  end; cbv beta iota.
Ltac mk_steps := repeat mk_step.

(** ** Representation of the list stack by the arrays *)

Fixpoint rep (S I : list Z) (C : list float) (t : Z) (l : list entry) : Prop :=
  match l with
  | [] => False
  | e :: l' =>
      aget S t = Some (sym e) /\ aget I t = Some (lev e) /\
      (sym e = swstmt -> aget C t = Some (cas e)) /\
      match l' with
      | [] => t = 0 /\ sym e = stmtl
      | _ => 0 < t /\ rep S I C (t - 1) l'
      end
  end.

Lemma rep_cons S I C t e e' l :
  rep S I C t (e :: e' :: l) <->
  aget S t = Some (sym e) /\ aget I t = Some (lev e) /\ (sym e = swstmt -> aget C t = Some (cas e)) /\
  0 < t /\ rep S I C (t - 1) (e' :: l).
Proof. done. Qed.

Record Rep (c : core) (s : sst) : Prop := {
  rS : length (kS c) = 256%nat;
  rI : length (kI c) = 256%nat;
  rC : length (kC c) = 256%nat;
  rstk : rep (kS c) (kI c) (kC c) (kT c) (stk s);
  rF : kF c = ilf s;
  rN : kN c = ind s;
  rB : kB c = sb s;
  rbc : kbc c = bc s;
  rci : kci c = ci s;
}.

Lemma rep_height S I C t l : rep S I C t l -> Z.of_nat (length l) = t + 1 /\ 0 <= t.
Proof.
  revert t. induction l as [|e l IH]; intros t; [done|]. cbn. intros (_ & _ & _ & H).
  destruct l as [|e' l]; [cbn; lia|]. destruct H as [Ht H]. apply IH in H. cbn in *. lia.
Qed.

Lemma aget_insert {A} (l : list A) i j v :
  0 <= i < Z.of_nat (length l) -> aget (<[Z.to_nat i := v]> l) j = if i =? j then Some v else aget l j.
Proof.
  intros Hi. unfold aget. destruct (i =? j) eqn:E; bsimp.
  - subst j. replace (i <? 0) with false by lia. apply list_lookup_insert_eq. lia.
  - destruct (j <? 0) eqn:Ej; [done|]. bsimp. apply list_lookup_insert_ne. lia.
Qed.

(** Entries at or below [t] do not notice changes above. *)
Lemma rep_ext S I C S' I' C' t l :
  (forall j, j <= t -> aget S' j = aget S j) -> (forall j, j <= t -> aget I' j = aget I j) ->
  (forall j, j <= t -> aget C' j = aget C j) -> rep S I C t l -> rep S' I' C' t l.
Proof.
  revert t. induction l as [|e l IH]; intros t HS HI HC; [done|]. cbn. intros (H1 & H2 & H3 & H4).
  rewrite HS, HI, HC by lia. split_and!; auto. destruct l; [done|]. destruct H4 as [Ht H4].
  split; [done|]. apply IH; auto; intros; [apply HS|apply HI|apply HC]; lia.
Qed.

Lemma rep_push S I C S' I' C' t l e :
  rep S I C t l ->
  aget S' (t + 1) = Some (sym e) -> aget I' (t + 1) = Some (lev e) ->
  (sym e = swstmt -> aget C' (t + 1) = Some (cas e)) ->
  (forall j, j <= t -> aget S' j = aget S j) -> (forall j, j <= t -> aget I' j = aget I j) ->
  (forall j, j <= t -> aget C' j = aget C j) ->
  rep S' I' C' (t + 1) (e :: l).
Proof.
  intros Hr HS HI HC H1 H2 H3. destruct (rep_height _ _ _ _ _ Hr) as [_ Ht].
  destruct l as [|e' l]; [done|]. apply rep_cons. repeat (split; [by auto with lia|]).
  replace (t + 1 - 1) with t by lia. by eapply rep_ext.
Qed.

Lemma rep_retag S I C S' t e e' l v :
  rep S I C t (e :: e' :: l) -> v <> swstmt -> aget S' t = Some v ->
  (forall j, j < t -> aget S' j = aget S j) -> rep S' I C t (with_sym e v :: e' :: l).
Proof.
  intros (_ & HI & _ & Ht & Hr) Hv HS Hlow. apply rep_cons. repeat (split; [done|]).
  eapply rep_ext; [..|exact Hr]; auto. intros; apply Hlow; lia.
Qed.

Lemma rep_pop S I C t e e' l : rep S I C t (e :: e' :: l) -> rep S I C (t - 1) (e' :: l) /\ 0 < t.
Proof. intros (_ & _ & _ & Ht & Hr). auto. Qed.

(** The part a reduction leaves: the entry below the top retagged. *)
Lemma rep_pop_to S I C t top nxt rest v :
  length S = 256%nat -> t < 256 -> v <> swstmt -> is_opener (sym nxt) || (sym nxt =? dolit) || (sym nxt =? ifstmt)
    || (sym nxt =? swstmt) || (is_stmtish (sym nxt) && (v =? stmtl)) = true ->
  rep S I C t (top :: nxt :: rest) -> rep (<[Z.to_nat (t - 1) := v]> S) I C (t - 1) (with_sym nxt v :: rest).
Proof.
  intros HS Ht Hv Hn H. apply rep_pop in H as [H Hp].
  destruct rest as [|e rest].
  - destruct H as (H1 & H2 & H3 & H4 & H5). cbn. rewrite aget_insert by lia.
    replace (t - 1 =? t - 1) with true by lia. rewrite H5 in Hn. cbn in Hn.
    apply Z.eqb_eq in Hn as ->. by split_and!.
  - eapply rep_retag; [exact H|done| |].
    + rewrite aget_insert by lia. by replace (t - 1 =? t - 1) with true by lia.
    + intros j Hj. rewrite aget_insert by lia. by replace (t - 1 =? j) with false by lia.
Qed.

Lemma wp_find_base S I C t l m g T f n b k d (Q : Z -> globals -> Prop) X :
  rep S I C t l -> t <= Z.of_nat m ->
  (forall i, aget I i = Some (base_lev l) -> Q i (mk g (Core S I C T f n b k d))) ->
  wp (find_base m t) Q X (mk g (Core S I C T f n b k d)).
Proof.
  intros Hr Hm HQ. revert t m Hr Hm. induction l as [|e l IH]; intros t m Hr Hm; [done|].
  destruct m as [|m]; cbn [find_base]; destruct Hr as (H1 & H2 & _ & H4); cbn [base_lev] in *; unfold is_base in *;
    mk_steps; destruct (sym e =? stmt) eqn:E1, (sym e =? stmtl) eqn:E2, (sym e =? lbrace) eqn:E3; cbn [negb andb orb] in *;
    try (mk_steps; by apply HQ); (destruct l as [|e' l]; [destruct H4 as [_ H4]; rewrite H4 in E2; done|]);
    destruct H4 as [Ht H4]; [lia|].
  apply IH; [done..|lia].
Qed.

Lemma reduce_step_refines g c s :
  Rep c s -> wp reduce_step (fun more g' =>
    match sred s with
    | Some s' => more = true /\ exists c', g' = mk g c' /\ Rep c' s' /\ kT c' < kT c
    | None => more = false /\ g' = mk g c
    end) noexit (mk g c).
Proof.
  intros [HS HI HC Hr HF HN HB Hbc Hci]. destruct c as [S I C t f n b k d], s as [l f' n' d' b' k']. cbn in *. subst.
  unfold reduce_step, sred. cbn [stk].
  pose proof (rep_height _ _ _ _ _ Hr) as [Hh Ht].
  destruct l as [|top l]; [done|]. pose proof Hr as (H1 & H2 & H3 & H4). mk_steps.
  destruct l as [|nxt rest].
  { destruct H4 as [-> ->]. cbn. mk_steps. done. }
  destruct H4 as [Hp Hn]. pose proof Hn as (N1 & N2 & N3 & N4).
  assert (Htop : t < 256) by (apply aget_range in H1; lia).
  assert (Hgo : forall v f' d', v <> swstmt -> is_opener (sym nxt) || (sym nxt =? dolit) || (sym nxt =? ifstmt)
      || (sym nxt =? swstmt) || (is_stmtish (sym nxt) && (v =? stmtl)) = true ->
    exists c', mk g (Core (<[Z.to_nat (t - 1):=v]> S) I C (t - 1) f' n' b' k' d') = mk g c' /\
      Rep c' (Sst (with_sym nxt v :: rest) f' n' d' b' k') /\ kT c' < t).
  { intros v f1 d1 Hv Hk. eexists; split; [done|]. split; [|cbn; lia].
    split; cbn; rewrite ?length_insert; auto. by eapply rep_pop_to. }
  destruct (sym top =? stmt) eqn:Et.
  - mk_steps. unfold is_stmtish, is_opener in *.
    destruct ((sym nxt =? stmt) || (sym nxt =? stmtl)) eqn:Es.
    { mk_steps. split; [done|]. apply Hgo; [done|]. by rewrite andb_true_r, !orb_true_r. }
    destruct (sym nxt =? dolit) eqn:E1.
    { mk_steps. eapply wp_follow_top; [exact N2|]. mk_steps. split; [done|]. apply Hgo; [done|]. by rewrite orb_true_r. }
    destruct (sym nxt =? ifstmt) eqn:E2.
    { mk_steps. destruct rest as [|e rest]; [destruct N4 as [_ N4]; rewrite N4 in E2; done|].
      destruct N4 as [Hp2 N4]. eapply wp_find_base.
      - eapply rep_ext; [..|exact N4]; auto. intros j Hj. rewrite aget_insert by lia. by replace (t - 1 =? j) with false by lia.
      - lia.
      - intros i Hi. mk_steps. split; [done|]. apply Hgo; [done|]. by rewrite !orb_true_r. }
    destruct (sym nxt =? swstmt) eqn:E3.
    { specialize (N3 (proj1 (Z.eqb_eq _ _) E3)). mk_steps. eapply wp_follow_top; [exact N2|]. mk_steps.
      split; [done|]. apply Hgo; [done|]. by rewrite !orb_true_r. }
    destruct ((sym nxt =? decl) || (sym nxt =? elsehead) || (sym nxt =? forstmt) || (sym nxt =? whilestmt)) eqn:E4.
    { mk_steps. eapply wp_follow_top; [exact N2|]. mk_steps. split; [done|]. by apply Hgo. }
    mk_steps. done.
  - destruct (sym top =? whilestmt) eqn:Ew; [|mk_steps; done].
    mk_steps. cbn [andb]. destruct (sym nxt =? dohead) eqn:Ed; [|mk_steps; done].
    mk_steps. split; [done|]. destruct rest as [|e rest]; [destruct N4 as [_ N4]; rewrite N4 in Ed; done|].
    destruct N4 as [Hp2 N4]. eexists; split; [done|]. split; [|cbn; lia].
    split; cbn -[rep]; auto. by replace (t - 2) with (t - 1 - 1) by lia.
Qed.

Lemma sred_shrinks s s' : sred s = Some s' -> (length (stk s') < length (stk s))%nat.
Proof.
  unfold sred. destruct (stk s) as [|top [|nxt rest]]; [done..|].
  repeat case_if; intros [= <-]; cbn; lia.
Qed.

Lemma sreduce_n_enough n s : (length (stk s) <= n)%nat -> sreduce_n n s = sreduce s.
Proof.
  unfold sreduce. remember (length (stk s)) as m eqn:Em. revert n s Em.
  induction m as [m IH] using lt_wf_ind. intros n s Em Hn.
  destruct n as [|n], m as [|m]; cbn; try done; [lia| |].
  - destruct (sred s) as [s'|] eqn:E; [|done]. apply sred_shrinks in E. lia.
  - destruct (sred s) as [s'|] eqn:E; [|done]. apply sred_shrinks in E.
    rewrite (IH (length (stk s'))) by lia. rewrite <- (IH (length (stk s')) ltac:(lia) m) by lia. done.
Qed.

Lemma reduce_loop_refines fuel g c s :
  Rep c s -> kT c < Z.of_nat fuel ->
  wp (reduce_loop fuel) (fun _ g' => exists c', g' = mk g c' /\ Rep c' (sreduce s) /\ kT c' <= kT c) noexit (mk g c).
Proof.
  revert c s. induction fuel as [|fuel IH]; intros c s HR Hf.
  { pose proof (rep_height _ _ _ _ _ (rstk _ _ HR)). lia. }
  cbn [reduce_loop]. apply wp_bind. eapply wp_mono; [by apply reduce_step_refines|]. cbv beta.
  intros more g'. destruct (sred s) as [s'|] eqn:E.
  - intros (-> & c' & -> & HR' & Hlt). eapply wp_mono; [apply IH; [exact HR'|lia]|].
    intros _ g' (c2 & -> & HR2 & Hle). exists c2. split; [done|]. split; [|lia].
    pose proof (sred_shrinks _ _ E). unfold sreduce. destruct (length (stk s)) as [|m] eqn:Em; [lia|].
    cbn. rewrite E, sreduce_n_enough by lia. done.
  - intros (-> & ->). apply wp_ret. exists c. split; [done|]. split; [|lia].
    unfold sreduce. destruct (length (stk s)); cbn; by rewrite ?E.
Qed.

Lemma reduce_refines g c s :
  Rep c s -> wp reduce (fun _ g' => exists c', g' = mk g c' /\ Rep c' (sreduce s) /\ kT c' <= kT c) noexit (mk g c).
Proof.
  intros HR. unfold reduce. pose proof (rep_height _ _ _ _ _ (rstk _ _ HR)).
  destruct c. mk_steps. apply reduce_loop_refines; [done|]. cbn in *. lia.
Qed.

Lemma sreduce_n_length n s : (length (stk (sreduce_n n s)) <= length (stk s))%nat.
Proof.
  revert s. induction n as [|n IH]; intros s; cbn; [lia|].
  destruct (sred s) as [s'|] eqn:E; [|lia]. apply sred_shrinks in E. specialize (IH s'). lia.
Qed.

Lemma sreduce_unfold s : sreduce s = match sred s with Some s' => sreduce s' | None => s end.
Proof.
  unfold sreduce at 1. destruct (length (stk s)) as [|n] eqn:El; cbn.
  - unfold sred. by destruct (stk s).
  - destruct (sred s) as [s'|] eqn:E; [|done]. apply sred_shrinks in E. apply sreduce_n_enough. lia.
Qed.

Lemma sreduce_cases s : sreduce s = s \/ (length (stk (sreduce s)) < length (stk s))%nat.
Proof.
  rewrite sreduce_unfold. destruct (sred s) as [s'|] eqn:E; [right|by left].
  apply sred_shrinks in E. pose proof (sreduce_n_length (length (stk s')) s'). unfold sreduce. lia.
Qed.

Lemma end_ifs_refines_n fuel n tk g c s :
  tk <> elselit -> Rep c s -> kT c <= Z.of_nat fuel -> (length (stk s) <= n)%nat ->
  wp (end_ifs fuel tk) (fun _ g' => exists c', g' = mk g c' /\ Rep c' (send_ifs_n n s)) noexit (mk g c).
Proof.
  intros Htk. revert n c s. induction fuel as [|fuel IH]; intros n c s HR Hf Hn;
    pose proof (rep_height _ _ _ _ _ (rstk _ _ HR)) as [Hh Ht];
    pose proof HR as [HS HI HC Hr HF HN HB Hbc Hci];
    destruct c as [S I C t f nn b k d], s as [l f' n' d' b' k']; cbn in *; subst;
    (destruct l as [|top l]; [done|]); destruct Hr as (H1 & H2 & H3 & H4).
  - destruct l as [|e l]; [|lia]. destruct H4 as [-> H4]. mk_steps. rewrite H4. cbn. mk_steps.
    eexists; split; [done|]. destruct n; cbn; [done|]. by rewrite H4.
  - mk_steps. replace (tk =? elselit) with false by lia. cbn [negb]. rewrite andb_true_r.
    destruct n as [|n]; [cbn in Hn; lia|]. cbn [send_ifs_n stk ilf ind ci sb bc].
    destruct (sym top =? ifhead) eqn:Etop; [|mk_steps; eexists; split; [done|exact HR]].
    destruct l as [|e l]; [destruct H4 as [_ H4]; by rewrite H4 in Etop|].
    apply aget_range in H1 as Hrange. mk_steps.
    set (s1 := Sst (with_sym top stmt :: e :: l) f' n' d' b' k').
    assert (HR1 : Rep (Core (<[Z.to_nat t:=stmt]> S) I C t f' n' b' k' d') s1).
    { split; cbn -[rep]; rewrite ?length_insert; auto. eapply rep_retag; [exact (rstk _ _ HR)|done|..].
      - rewrite aget_insert by lia. by replace (t =? t) with true by lia.
      - intros j Hj. rewrite aget_insert by lia. by replace (t =? j) with false by lia. }
    eapply wp_mono; [by apply reduce_refines|]. intros _ g' (c2 & -> & HR2 & Hle).
    pose proof (rep_height _ _ _ _ _ (rstk _ _ HR2)) as [Hh2 Ht2]. cbn in Hh.
    destruct (sreduce_cases s1) as [E|Hlt].
    + destruct n as [|n]; [cbn in Hn; lia|]. rewrite E in HR2 |- *. cbn [send_ifs_n s1 stk with_sym sym].
      change (stmt =? ifhead) with false. cbv iota.
      pose proof (rstk _ _ HR2) as (R1 & _). destruct c2 as [S2 I2 C2 t2 f2 n2 b2 k2 d2]. cbn in R1.
      destruct fuel; cbn [end_ifs]; mk_steps; (eexists; split; [done|exact HR2]).
    + apply IH; [done|cbn in *; lia|cbn in *; lia].
Qed.

Lemma end_ifs_refines tk g c s :
  Rep c s -> wp (end_ifs (Z.to_nat (kT c)) tk)
    (fun _ g' => exists c', g' = mk g c' /\ Rep c' (send_ifs tk s)) noexit (mk g c).
Proof.
  intros HR. pose proof (rep_height _ _ _ _ _ (rstk _ _ HR)) as [Hh Ht]. unfold send_ifs.
  destruct (tk =? elselit) eqn:E; bsimp.
  - subst tk. destruct c as [S I C t f n b k d]. pose proof (rstk _ _ HR) as Hr. cbn in Hr, Ht |- *.
    destruct (stk s) as [|top l] eqn:Es; [done|]. destruct Hr as (H1 & _).
    destruct (Z.to_nat t); cbn [end_ifs]; mk_steps; rewrite andb_false_r; mk_steps; eauto.
  - apply end_ifs_refines_n; [done|done|lia|lia].
Qed.

(** ** Shifting a token *)

Lemma diag_mk g c msg :
  wp (diag2 1 msg) (fun _ g' => exists gd, diag2 1 msg g = SRet tt gd /\ g' = mk gd c) noexit (mk g c).
Proof.
  unfold diag2, diag. change (truth 1) with true. wp_steps. eexists; split; [reflexivity|].
  destruct g. cbn. by case_if.
Qed.

(** The entry a push leaves on top. *)
Lemma Rep_push S I C t f n b k d l tk v C' f' n' b' k' d' x :
  rep S I C t l -> length S = 256%nat -> length I = 256%nat -> length C' = 256%nat -> t <= 254 ->
  (forall j, j <= t -> aget C' j = aget C j) -> (tk = swstmt -> aget C' (t + 1) = Some x) ->
  f = f' -> n = n' -> b = b' -> k = k' -> d = d' ->
  Rep (Core (<[Z.to_nat (t + 1) := tk]> S) (<[Z.to_nat (t + 1) := v]> I) C' (t + 1) f n b k d)
      (Sst (Ent tk v x :: l) f' n' d' b' k').
Proof.
  intros Hr HS HI HC Ht HC1 HC2 -> -> -> -> ->. apply rep_height in Hr as Hh.
  split; cbn -[rep]; rewrite ?length_insert; auto.
  eapply rep_push; [exact Hr|..]; auto; intros; rewrite aget_insert by lia; cbn;
    [by replace (t + 1 =? t + 1) with true by lia..| |]; by replace (t + 1 =? j) with false by lia.
Qed.

Lemma count_decls_spec S I C t l g T f n b k d (Q : () -> globals -> Prop) X :
  rep S I C t l -> 
  Q tt (mk g (Core S I C T f (n + count_decl l) b k d)) ->
  wp (count_decls (Z.to_nat t)) Q X (mk g (Core S I C T f n b k d)).
Proof.
  revert t n. induction l as [|e l IH]; intros t n Hr HQ; [done|].
  destruct Hr as (H1 & _ & _ & H4). destruct l as [|e' l].
  - destruct H4 as [-> Hs]. cbn. mk_steps. unfold count_decl in HQ. rewrite filter_cons_False in HQ by by rewrite Hs.
    cbn in HQ. by rewrite Z.add_0_r in HQ.
  - destruct H4 as [Ht Hr]. destruct (Z.to_nat t) as [|m] eqn:Em; [lia|]. cbn [count_decls].
    replace (Z.of_nat (Datatypes.S m)) with t by lia. replace m with (Z.to_nat (t - 1)) by lia. mk_steps.
    unfold count_decl in HQ. destruct (sym e =? decl) eqn:E; bsimp; mk_steps; apply IH; auto.
    + rewrite filter_cons_True in HQ by done. cbn [length] in HQ. unfold count_decl.
      by replace (n + 1 + _) with (n + Z.of_nat (Datatypes.S (length (filter (fun e => sym e = decl) (e' :: l))))) by lia.
    + by rewrite filter_cons_False in HQ by done.
Qed.

Definition line_empty (g : globals) : bool := match code g with [] => true | _ => false end.

Definition shifts (g : globals) (c : core) (s : sst) (tk : Z) : Prop :=
  match sshift (opt g) (line_empty g) tk s with
  | SOk s' =>
      if (length (stk s') <=? 256)%nat
      then wp (shift tk) (fun b g' => b = true /\ exists c', g' = mk g c' /\ Rep c' s') noexit (mk g c)
      else shift tk (mk g c) = SUndef
  | SDiag msg =>
      wp (shift tk) (fun b g' => b = is_token tk /\
        exists gd, diag2 1 msg g = SRet tt gd /\ g' = mk gd c) noexit (mk g c)
  | SUb => shift tk (mk g c) = SUndef
  end.

(** The height of a represented stack. *)
Ltac heights HR :=
  let Hh := fresh "Hh" in let Ht := fresh "Ht" in
  pose proof (rep_height _ _ _ _ _ (rstk _ _ HR)) as [Hh Ht];
  destruct HR as [HS HI HC Hr HF HN HB Hbc Hci];
  match goal with c : core, s : sst |- _ =>
    destruct c as [S I C t f n b k d], s as [l f' n' d' b' k'] end;
  cbn [kS kI kC kT kF kN kB kbc kci stk ilf ind ci sb bc] in *; subst.

(** Decide the tests between token codes. *)
Ltac codes :=
  repeat match goal with
    | |- context [Z.eqb ?a ?b] =>
        let r := eval vm_compute in (Z.eqb a b) in
        lazymatch r with
        | true => change (Z.eqb a b) with true
        | false => change (Z.eqb a b) with false
        end
    end; cbv iota; cbn [orb andb negb].

(** Start the proof for one token: [l] is the stack, [top] its top. *)
Ltac start_shift HR :=
  unfold shifts; heights HR;
  match goal with l : list entry |- _ => destruct l as [|top l]; [done|] end;
  unfold sshift, shift; cbn [stk ilf ind ci sb bc]; codes;
  match goal with Hr : rep _ _ _ _ (_ :: _) |- _ => pose proof Hr as (H1 & H2 & H3 & H4) end.

(** The stack fits after one push. *)
Ltac fits := cbn [stk shead]; rewrite (proj2 (Nat.leb_le _ _)) by (cbn in *; lia).

Lemma shifts_semicolon g c s : Rep c s -> kT c <= 254 -> shifts g c s semicolon.
Proof.
  intros HR Hle. start_shift HR. fits. unfold parse_semicolon. mk_steps.
  split; [done|]. eexists; split; [done|]. by apply (Rep_push S I C).
Qed.

Lemma shead_refines g S I C t f n b k d l tk :
  rep S I C t l -> length S = 256%nat -> length I = 256%nat -> length C = 256%nat -> t <= 254 ->
  tk <> swstmt ->
  wp (parse_head tk) (fun _ g' => exists c', g' = mk g c' /\
    Rep c' (shead (opt g) tk (Sst l f n d b k))) noexit (mk g (Core S I C t f n b k d)).
Proof.
  intros Hr HS HI HC Ht Htk. apply rep_height in Hr as Hh. unfold parse_head. mk_steps.
  eexists; split; [done|]. by apply (Rep_push S I C).
Qed.

Lemma shifts_head g c s tk : tk = dolit \/ tk = forstmt -> Rep c s -> kT c <= 254 -> shifts g c s tk.
Proof.
  intros Htk HR Hle. destruct Htk; subst tk; start_shift HR; fits; apply wp_bind;
    (eapply wp_mono; [by apply shead_refines|]); intros _ g' (c' & -> & HR'); apply wp_ret; eauto.
Qed.

Lemma shifts_if g c s : Rep c s -> kT c <= 254 -> shifts g c s ifstmt.
Proof.
  intros HR Hle. start_shift HR. unfold parse_if.
  destruct (sym top =? elsehead) eqn:Ee; cbn [andb].
  - destruct l as [|e l]; [destruct H4 as [_ H4]; by rewrite H4 in Ee|]. destruct H4 as [Hp Hr'].
    destruct (truth (else_if (opt g))) eqn:Eo; fits; mk_steps; rewrite Ee, Eo; cbn [andb]; mk_steps;
      (eapply wp_mono; [apply shead_refines; solve [done|lia]|]);
      intros _ g' (c' & -> & HR'); mk_steps; eauto.
  - fits. mk_steps. rewrite Ee. cbn [andb]. mk_steps. eapply wp_mono; [by apply shead_refines|].
    intros _ g' (c' & -> & HR'); mk_steps; eauto.
Qed.

Lemma shifts_decl g c s : Rep c s -> kT c <= 254 -> shifts g c s decl.
Proof.
  intros HR Hle. start_shift HR. unfold parse_decl. destruct (sym top =? decl) eqn:Ed; cbn [negb].
  - fits. mk_steps. rewrite Ed. cbn [negb]. mk_steps. split; [done|]. eexists; split; [done|]. by split.
  - fits. mk_steps. rewrite Ed. cbn [negb]. mk_steps.
    destruct (truth (ljust_decl (opt g))) eqn:Ej; mk_steps.
    + replace (t + 1 - 1) with t by lia. eapply count_decls_spec.
      { eapply rep_ext; [..|exact Hr]; auto; intros j Hj; rewrite aget_insert by lia;
          by replace (t + 1 =? j) with false by lia. }
      mk_steps. split; [done|]. eexists; split; [done|]. by apply (Rep_push S I C).
    + split; [done|]. eexists; split; [done|]. by apply (Rep_push S I C).
Qed.

Lemma shifts_while g c s : Rep c s -> kT c <= 254 -> shifts g c s whilestmt.
Proof.
  intros HR Hle. start_shift HR. unfold parse_while. destruct (sym top =? dohead) eqn:Ed;
    fits; mk_steps; rewrite Ed; mk_steps; (split; [done|]); (eexists; split; [done|]); by apply (Rep_push S I C).
Qed.

Lemma shifts_else g c s : Rep c s -> kT c <= 254 -> shifts g c s elselit.
Proof.
  intros HR Hle. start_shift HR. unfold parse_else. destruct (sym top =? ifhead) eqn:Ei.
  - destruct l as [|e l]; [destruct H4 as [_ H4]; by rewrite H4 in Ei|].
    fits. mk_steps. rewrite Ei. cbn [negb]. mk_steps. split; [done|]. eexists; split; [done|].
    split; cbn -[rep]; rewrite ?length_insert; auto. eapply rep_retag; [exact Hr|done|..].
    + rewrite aget_insert by lia. by replace (t =? t) with true by lia.
    + intros j Hj. rewrite aget_insert by lia. by replace (t =? j) with false by lia.
  - mk_steps. rewrite Ei. cbn [negb]. eapply wp_mono; [apply diag_mk|].
    intros _ g' (gd & E & ->). mk_steps. eauto.
Qed.

Lemma shifts_rbrace g c s : Rep c s -> kT c <= 254 -> shifts g c s rbrace.
Proof.
  intros HR Hle. start_shift HR. unfold parse_rbrace.
  assert (Hdiag : wp (diag2 1 (bs "Statement nesting error"))
    (fun _ g' => wp (ret true) (fun b g' => b = is_token rbrace /\
       exists gd, diag2 1 (bs "Statement nesting error") g = SRet tt gd /\ g' = mk gd (Core S I C t f' n' b' k' d'))
       noexit g') noexit (mk g (Core S I C t f' n' b' k' d'))).
  { eapply wp_mono; [apply diag_mk|]. intros _ g' (gd & E & ->). mk_steps. eauto. }
  destruct l as [|e l].
  - destruct H4 as [-> H4]. mk_steps. change (0 <? 0) with false. mk_steps. exact Hdiag.
  - destruct H4 as [Hp Hr']. pose proof Hr' as (N1 & N2 & N3 & N4).
    apply aget_range in N1 as Hrg. replace (0 <? t) with true by lia. cbn [andb].
    destruct (sym e =? lbrace) eqn:El; [|mk_steps; replace (0 <? t) with true by lia; mk_steps; rewrite El; exact Hdiag].
    fits. mk_steps. replace (0 <? t) with true by lia. mk_steps. rewrite El. cbn [andb]. mk_steps. split; [done|]. eexists; split; [done|].
    split; cbn -[rep]; rewrite ?length_insert; auto.
    destruct l as [|e' l]; [destruct N4 as [_ N4]; by rewrite N4 in El|].
    eapply rep_retag; [exact Hr'|done|..].
    + rewrite aget_insert by lia. by replace (t - 1 =? t - 1) with true by lia.
    + intros j Hj. rewrite aget_insert by lia. by replace (t - 1 =? j) with false by lia.
Qed.

Lemma wp_undef {A B} (m : M A) (h : A -> M B) g :
  wp m (fun a g' => h a g' = SUndef) noexit g -> bind m h g = SUndef.
Proof. unfold wp, bind. by destruct (m g). Qed.

(** The stack with the brace of a group on it. *)
Definition lbrace_mid (o : options) (empty : bool) (s : sst) : sst :=
  match stk s with
  | [] => s
  | top :: _ =>
      let base := (sym top =? stmt) || (sym top =? decl) || (sym top =? stmtl) in
      let f := if base then ilf s + 1 else ilf s in
      let i := if base then ind s
               else if empty
                    then ind s - (if (sym top =? swstmt) && flt_ge1 (case_indent o) then 2 else 1)
                    else ind s in
      Sst (Ent lbrace i (ci s) :: stk s) f i (ci s) (sb s) false
  end.

Lemma lbrace_open_refines g c s : Rep c s -> kT c <= 254 ->
  wp lbrace_open (fun _ g' => exists c', g' = mk g c' /\ kT c' = kT c + 1 /\
    Rep c' (lbrace_mid (opt g) (line_empty g) s)) noexit (mk g c).
Proof.
  intros HR Hle. unfold lbrace_open, lbrace_mid, line_empty. heights HR. destruct l as [|top l]; [done|].
  pose proof Hr as (H1 & _). mk_steps.
  destruct ((sym top =? stmt) || (sym top =? decl) || (sym top =? stmtl)).
  - mk_steps. eexists; split; [done|]. split; [done|]. by apply (Rep_push S I C).
  - destruct (code g); mk_steps; (eexists; split; [done|]); (split; [done|]); by apply (Rep_push S I C).
Qed.

Lemma push_undef g c tk : Z.of_nat (length (kS c)) <= kT c + 1 -> push tk (mk g c) = SUndef.
Proof.
  intros H. unfold push, wr_stack, bind, getps, setps, modify, of_opt, aset. cbn.
  replace (kT c + 1 <? Z.of_nat (length (kS c))) with false by lia. by rewrite andb_false_r.
Qed.

Lemma shifts_lbrace g c s : Rep c s -> kT c <= 254 -> shifts g c s lbrace.
Proof.
  intros HR Hle. pose proof (lbrace_open_refines g c s HR Hle) as Hopen.
  pose proof (rep_height _ _ _ _ _ (rstk _ _ HR)) as [Hh Ht].
  unfold shifts, sshift, shift. unfold lbrace_mid in Hopen. destruct (stk s) as [|top l] eqn:Es; [cbn in Hh; lia|]. codes.
  cbn [stk]. unfold parse_lbrace. match goal with |- context [(?x <=? 256)%nat] => destruct (x <=? 256)%nat eqn:E end.
  - apply Nat.leb_le in E. do 2 apply wp_bind. eapply wp_mono; [exact Hopen|].
    intros _ g' (c' & -> & Ht' & [HS HI HC Hr HF HN HB Hbc Hci]). destruct c'. cbn -[rep] in *. subst.
    mk_steps. split; [done|]. eexists; split; [done|]. eapply Rep_push; solve [exact Hr|done|lia].
  - apply Nat.leb_gt in E. unfold bind at 1. rewrite wp_undef; [done|]. eapply wp_mono; [exact Hopen|].
    intros _ g' (c' & -> & Ht' & HR'). unfold bind at 1. rewrite push_undef; [done|].
    rewrite (rS _ _ HR'). cbn in *. lia.
Qed.

Lemma switch_open_refines g c s : Rep c s -> kT c <= 254 ->
  wp switch_open (fun _ g' => exists c', g' = mk g c' /\
    Rep c' (Sst (Ent swstmt (ilf s) (ci s) :: stk s) (ilf s) (ind s)
              (flt_add (flt_of_Z (ilf s)) (case_indent (opt g))) (sb s) (bc s))) noexit (mk g c).
Proof.
  intros HR Hle. unfold switch_open. heights HR. mk_steps.
  eexists; split; [done|]. apply (Rep_push S I C); rewrite ?length_insert; try done.
  - intros j Hj. rewrite aget_insert by lia. by replace (t + 1 =? j) with false by lia.
  - intros _. rewrite aget_insert by lia. by replace (t + 1 =? t + 1) with true by lia.
Qed.

Lemma shifts_switch g c s : Rep c s -> kT c <= 254 -> shifts g c s swstmt.
Proof.
  intros HR Hle. pose proof (switch_open_refines g c s HR Hle) as Hopen.
  pose proof (rep_height _ _ _ _ _ (rstk _ _ HR)) as [Hh Ht].
  unfold shifts, sshift, shift. destruct (stk s) as [|top l] eqn:Es; [cbn in Hh; lia|]. codes. unfold parse_switch.
  destruct (switch_follow (ilf s) (case_indent (opt g))) as [v|] eqn:Ev.
  - fits. do 2 apply wp_bind. eapply wp_mono; [exact Hopen|].
    intros _ g' (c' & -> & [HS HI HC Hr HF HN HB Hbc Hci]). destruct c'. cbn -[rep] in *. subst. mk_steps.
    eapply wp_of_opt; [exact Ev|]. mk_steps. split; [done|]. eexists; split; [done|]. by split.
  - unfold bind at 1. rewrite wp_undef; [done|]. eapply wp_mono; [exact Hopen|].
    intros _ g' (c' & -> & HR'). unfold bind, getps, getopt. cbn. rewrite (rF _ _ HR'). cbn. by rewrite Ev.
Qed.

Lemma shift_refines g c s tk : Rep c s -> kT c <= 254 -> shifts g c s tk.
Proof.
  intros HR Hle. destruct (is_token tk) eqn:E.
  - unfold is_token in E. apply existsb_exists in E as (x & Hx & ->%Z.eqb_eq). cbn in Hx.
    destruct Hx as [<-|[<-|[<-|[<-|[<-|[<-|[<-|[<-|[<-|[<-|[]]]]]]]]]]];
      eauto using shifts_decl, shifts_if, shifts_head, shifts_lbrace, shifts_while, shifts_else, shifts_rbrace,
        shifts_switch, shifts_semicolon.
  - unfold shifts, sshift, shift. pose proof (rep_height _ _ _ _ _ (rstk _ _ HR)) as [Hh Ht].
    destruct (stk s) as [|top l]; [cbn in Hh; lia|]. rewrite E.
    cbn in E. repeat (apply orb_false_iff in E as [? E]).
    repeat match goal with H : (tk =? _) = false |- _ => rewrite H; clear H end. cbn [orb].
    apply wp_bind. eapply wp_mono; [apply diag_mk|]. intros _ g' (gd & Ed & ->). apply wp_ret. eauto.
Qed.

(** ** Parsing a token *)

Lemma send_ifs_n_length n s : (length (stk (send_ifs_n n s)) <= length (stk s))%nat.
Proof.
  revert s. induction n as [|n IH]; intros s; cbn [send_ifs_n]; [lia|].
  destruct (stk s) as [|top rest] eqn:E; [by rewrite E|]. case_if; [|rewrite E; cbn; lia].
  etrans; [apply IH|]. etrans; [apply sreduce_n_length|]. cbn. lia.
Qed.

Lemma send_ifs_length tk s : (length (stk (send_ifs tk s)) <= length (stk s))%nat.
Proof. unfold send_ifs. case_if; [lia|apply send_ifs_n_length]. Qed.

(** The diagnostics of a rejected token. *)
Definition diagnosed (msg : option bytes) (g : globals) : globals :=
  match msg with
  | Some m => match diag2 1 m g with SRet _ g' => g' | _ => g end
  | None => g
  end.

(** What [parse tk] does from the state [start] that represents [s] and agrees
    with [g] outside the parser's part. *)
Definition parse_outcome (start g : globals) (s : sst) (tk : Z) : Prop :=
  match smid (opt g) (line_empty g) tk s with
  | None => parse tk start = SUndef
  | Some (s', msg) =>
      match Nat.compare (length (stk s')) 256 with
      | Gt => parse tk start = SUndef
      | Eq => exists g', parse tk start = SExit 1 (bs "Parser stack overflow") g'
      | Lt => exists c', parse tk start = SRet tt (mk (diagnosed msg g) c') /\
                Rep c' (if is_token tk then sreduce s' else s') /\ kT c' <= 254
      end
  end.

Lemma parse_after_shift g c s tk b s' (gd : globals) c1 :
  Rep c s -> kT c <= 254 ->
  shift tk (mk g c) = SRet b (mk gd c1) -> Rep c1 s' -> 
  (is_token tk = false -> (length (stk s') <= 255)%nat) -> b = is_token tk ->
  match Nat.compare (length (stk s')) 256 with
  | Gt => True
  | Eq => exists g', shift_reduce tk (mk g c) = SExit 1 (bs "Parser stack overflow") g'
  | Lt => exists c', shift_reduce tk (mk g c) = SRet tt (mk gd c') /\
      Rep c' (if is_token tk then sreduce s' else s') /\ kT c' <= 254
  end.
Proof.
  intros HR Hle E HR1 Hlen ->. unfold shift_reduce, bind. rewrite E.
  pose proof (rep_height _ _ _ _ _ (rstk _ _ HR1)) as [Hh Ht].
  unfold getps, STACKSIZE. cbv beta. assert (Etos : tos (ps (mk gd c1)) = kT c1) by done.
  destruct (Nat.compare_spec (length (stk s')) 256) as [El|El|El]; [| |done].
  - destruct (is_token tk); [|specialize (Hlen eq_refl); lia].
    rewrite Etos. replace (256 - 1 <=? kT c1) with true by lia. by eexists.
  - destruct (is_token tk); [|exists c1; split; [done|]; split; [done|lia]].
    rewrite Etos. replace (256 - 1 <=? kT c1) with false by lia.
    destruct (wp_run _ _ _ (reduce_refines gd c1 s' HR1)) as ([] & g' & -> & c' & -> & HR' & Hle').
    exists c'. split; [done|]. split; [done|]. lia.
Qed.

Lemma parse_outcome_mk g c s tk : Rep c s -> kT c <= 254 -> parse_outcome (mk g c) g s tk.
Proof.
  intros HR Hle. unfold parse_outcome, parse, smid.
  destruct (wp_run _ _ _ (end_ifs_refines tk g c s HR)) as ([] & g1 & E1 & c1 & -> & HR1).
  pose proof (send_ifs_length tk s) as Hl.
  pose proof (rep_height _ _ _ _ _ (rstk _ _ HR)) as [Hh Ht].
  pose proof (rep_height _ _ _ _ _ (rstk _ _ HR1)) as [Hh1 Ht1].
  assert (Hle1 : kT c1 <= 254) by lia.
  assert (Ep : forall k : M (), bind (getps tos) (fun t => end_ifs (Z.to_nat t) tk ;; k) (mk g c) = k (mk g c1)).
  { intros k. unfold bind, getps. change (tos (ps (mk g c))) with (kT c). by rewrite E1. }
  rewrite Ep. pose proof (shift_refines g c1 _ tk HR1 Hle1) as Hs. unfold shifts in Hs.
  destruct (sshift _ _ _ _) as [s'|msg|] eqn:Es.
  - destruct (Nat.leb_spec (length (stk s')) 256) as [Hb|Hb].
    + destruct (wp_run _ _ _ Hs) as (b & g' & E2 & -> & c2 & -> & HR2).
      assert (Htok : is_token tk = true).
      { destruct (is_token tk) eqn:Et; [done|]. exfalso. revert Es. unfold sshift.
        destruct (stk (send_ifs tk s)); [done|]. cbn in Et. repeat (apply orb_false_iff in Et as [? Et]).
        repeat match goal with H : (tk =? _) = false |- _ => rewrite H; clear H end. done. }
      pose proof (parse_after_shift g c1 _ tk _ s' g c2 HR1 Hle1 E2 HR2 ltac:(congruence) (eq_sym Htok)) as HH.
      destruct (Nat.compare_spec (length (stk s')) 256); [exact HH|exact HH|lia].
    + replace (Nat.compare (length (stk s')) 256) with Gt by (symmetry; apply Nat.compare_gt_iff; lia).
      unfold shift_reduce, bind. by rewrite Hs.
  - destruct (wp_run _ _ _ Hs) as (b & g' & E2 & -> & gd & Ed & ->).
    pose proof (parse_after_shift g c1 _ tk _ _ gd c1 HR1 Hle1 E2 HR1 ltac:(lia) eq_refl) as HH.
    destruct (Nat.compare_spec (length (stk (send_ifs tk s))) 256); [lia| |lia].
    unfold diagnosed. rewrite Ed. exact HH.
  - unfold shift_reduce, bind. by rewrite Hs.
Qed.

(** How much a token can add to the stack. *)
Lemma sshift_height o le tk s s' :
  sshift o le tk s = SOk s' ->
  (length (stk s') <= length (stk s) + if (tk =? lbrace)%Z then 2 else 1)%nat.
Proof.
  unfold sshift. destruct (stk s) as [|top rest] eqn:E; [done|].
  destruct (tk =? lbrace) eqn:El.
  - bsimp. subst tk. codes. intros [= <-]. cbn. lia.
  - assert (Hfin : forall s1 : sst, (length (stk s1) <= S (length (top :: rest)))%nat -> SOk s1 = SOk s' ->
      (length (stk s') <= length (top :: rest) + 1)%nat) by (intros s1 H [= <-]; lia).
    repeat match goal with |- (if ?b then _ else _) = _ -> _ => destruct b end; try done;
      try (apply Hfin; cbn; rewrite ?E; cbn; lia).
    + destruct rest as [|b rest]; [done|]. case_if; [|done]. apply Hfin; cbn; lia.
    + destruct (switch_follow _ _); [|done]. apply Hfin; cbn; lia.
Qed.

Lemma parse_outcome_holds g s tk :
  Rep (core_of g) s -> tos (ps g) <= 254 -> parse_outcome g g s tk.
Proof. intros HR Hle. rewrite <- (mk_core_of g) at 1. by apply parse_outcome_mk. Qed.

(** The only ways the parser can leave its arrays or the range of int. *)
Definition overruns (g : globals) (s : sst) (tk : Z) : Prop :=
  (tk = lbrace /\ length (stk (send_ifs tk s)) = 255%nat) \/
  (tk = swstmt /\ switch_follow (ilf (send_ifs tk s)) (case_indent (opt g)) = None).

Lemma sshift_ub o le tk s :
  stk s <> [] ->
  sshift o le tk s = SUb <-> tk = swstmt /\ switch_follow (ilf s) (case_indent o) = None.
Proof.
  intros Hne. unfold sshift. destruct (stk s) as [|top rest]; [done|]. split.
  - repeat match goal with |- (if ?b then _ else _) = _ -> _ => destruct b eqn:? end; try done.
    + destruct rest; [done|]. by case_if.
    + destruct (switch_follow _ _); [done|]. bsimp. done.
  - intros [-> ->]. codes. done.
Qed.

(** ** The stack the arrays hold *)

Fixpoint entries (S I : list Z) (C : list float) (n : nat) : list entry :=
  Ent (default 0 (S !! n)) (default 0 (I !! n)) (default (S754_zero false) (C !! n)) ::
  match n with
  | O => []
  | Datatypes.S n => entries S I C n
  end.

Definition stack_of (g : globals) : sst :=
  let p := ps g in
  Sst (entries (p_stack p) (il p) (cstk p) (Z.to_nat (tos p))) (i_l_follow p) (ind_level p)
    (case_ind g) (search_brace p) (break_comma g).

(** The parser's invariant: arrays of 256 elements, room above the top of the
    stack, a statement list at its bottom. *)
Record parser_ok (g : globals) : Prop := {
  ok_S : length (p_stack (ps g)) = 256%nat;
  ok_I : length (il (ps g)) = 256%nat;
  ok_C : length (cstk (ps g)) = 256%nat;
  ok_tos : 0 <= tos (ps g) <= 254;
  ok_bottom : aget (p_stack (ps g)) 0 = Some stmtl;
}.

Lemma aget_default {A} (l : list A) i d :
  0 <= i < Z.of_nat (length l) -> aget l i = Some (default d (l !! Z.to_nat i)).
Proof.
  intros Hi. unfold aget. replace (i <? 0) with false by lia.
  by destruct (lookup_lt_is_Some_2 l (Z.to_nat i)) as [v ->]; [lia|].
Qed.

Lemma rep_entries S I C n :
  length S = 256%nat -> length I = 256%nat -> length C = 256%nat -> (n < 256)%nat ->
  aget S 0 = Some stmtl -> rep S I C (Z.of_nat n) (entries S I C n).
Proof.
  intros HS HI HC Hn H0. induction n as [|n IH].
  - rewrite (aget_default S 0 0) in H0 by lia. injection H0 as H0.
    refine (conj (aget_default S 0 0 _) (conj (aget_default I 0 0 _)
      (conj (fun _ => aget_default C 0 (S754_zero false) _) (conj eq_refl H0)))); lia.
  - specialize (IH ltac:(lia)).
    replace (Z.of_nat (Datatypes.S n)) with (Z.of_nat n + 1) by lia.
    apply (rep_push S I C); [exact IH|..]; auto; cbn -[aget lookup].
    + rewrite (aget_default S _ 0) by lia. repeat f_equal. lia.
    + rewrite (aget_default I _ 0) by lia. repeat f_equal. lia.
    + intros _. rewrite (aget_default C _ (S754_zero false)) by lia. repeat f_equal. lia.
Qed.

Lemma parser_ok_Rep g : parser_ok g -> Rep (core_of g) (stack_of g).
Proof.
  intros [HS HI HC Ht Hb]. split; try done. cbn -[rep entries].
  pose proof (rep_entries (p_stack (ps g)) (il (ps g)) (cstk (ps g)) (Z.to_nat (tos (ps g)))) as H.
  rewrite Z2Nat.id in H by lia. apply H; auto; lia.
Qed.

Lemma Rep_parser_ok g s : Rep (core_of g) s -> tos (ps g) <= 254 -> parser_ok g.
Proof.
  intros [HS HI HC Hr _ _ _ _ _] Hle. pose proof (rep_height _ _ _ _ _ Hr) as [Hh Ht].
  split; auto. change (aget (kS (core_of g)) 0 = Some stmtl). revert Hr. generalize (kT (core_of g)).
  generalize (stk s). induction l as [|e l IH]; intros t; [done|]. intros (H1 & _ & _ & H4).
  destruct l as [|e' l]; [|by eapply IH, H4]. destruct H4 as [-> <-]. done.
Qed.

(** main's start: a statement at the bottom of the stack, then an empty one. *)
Definition parser_init : M () := wr_stack 0 stmt ;; parse semicolon.

(** [n] times the token [tk]. *)
Fixpoint parse_times (n : nat) (tk : Z) : M () :=
  match n with
  | O => ret tt
  | S n => parse tk ;; parse_times n tk
  end.

(** * Properties *)

(** C8. The array parser is the list parser: from any state of the invariant a
    token either runs exactly the list parser's transition on the stack the
    arrays hold (same stack, levels, case indentation and flags, nothing else in
    the program changed except the diagnostic of a rejected token), keeping the
    invariant, or ends the program with "Parser stack overflow" when the stack
    would hold 256 entries, or writes outside the arrays when it would hold
    more. *)
Theorem parse_refines_list_parser g tk : parser_ok g -> parse_outcome g g (stack_of g) tk.
Proof. intros H. apply parse_outcome_holds; [by apply parser_ok_Rep|apply H]. Qed.

Lemma parse_refines_witness :
  exists g, parser_init (globals_zero []) = SRet tt g /\ parse_outcome g g (stack_of g) ifstmt.
Proof.
  destruct (parser_init (globals_zero [])) as [[] g| |] eqn:E; [|discriminate E..].
  exists g. split; [reflexivity|]. apply (parse_refines_list_parser g ifstmt).
  vm_compute in E. injection E as <-. split; try reflexivity; cbn; lia.
Defined.

(** C37. parse leaves its arrays (undefined behaviour, before the overflow check
    is reached) exactly when it reads an opening brace with 255 entries on the
    stack, or a switch whose level does not fit an int. *)
Theorem parse_undefined_iff g tk :
  parser_ok g -> (parse tk g = SUndef <-> overruns g (stack_of g) tk).
Proof.
  intros Hok. pose proof (parser_ok_Rep g Hok) as HR. pose proof (ok_tos g Hok) as Hle.
  pose proof (parse_outcome_holds g _ tk HR ltac:(lia)) as Ho. set (s := stack_of g) in *.
  destruct (wp_run _ _ _ (end_ifs_refines tk g (core_of g) s HR)) as (_ & _ & _ & c1 & _ & HR1).
  pose proof (rep_height _ _ _ _ _ (rstk _ _ HR)) as [Hh _]. pose proof (send_ifs_length tk s) as Hl.
  assert (Hne : stk (send_ifs tk s) <> []) by (intros E; pose proof (rstk _ _ HR1) as H; by rewrite E in H).
  pose proof (sshift_ub (opt g) (line_empty g) tk (send_ifs tk s) Hne) as Hub.
  unfold parse_outcome, smid in Ho. unfold overruns. change (kT (core_of g)) with (tos (ps g)) in Hh.
  assert (Hbrace : forall s', tk = lbrace -> sshift (opt g) (line_empty g) tk (send_ifs tk s) = SOk s' ->
    length (stk s') = (2 + length (stk (send_ifs tk s)))%nat).
  { intros s' ->. unfold sshift. destruct (stk (send_ifs lbrace s)); [done|]. codes. by intros [= <-]. }
  destruct (sshift _ _ _ _) as [s'|msg|] eqn:Es.
  - pose proof (sshift_height _ _ _ _ _ Es) as Hs'. specialize (fun E => Hbrace s' E eq_refl).
    destruct (Nat.compare_spec (length (stk s')) 256) as [E|E|E].
    + destruct Ho as [g' ->]. split; [done|]. intros [[-> H]|H]; [specialize (Hbrace eq_refl); lia|by apply Hub in H].
    + destruct Ho as (c' & -> & _). split; [done|].
      intros [[-> H]|H]; [specialize (Hbrace eq_refl); lia|by apply Hub in H].
    + split; [|done]. intros _. left. destruct (tk =? lbrace) eqn:El; bsimp; [|lia]. split; [done|]. lia.
  - assert (Hlen : (length (stk (send_ifs tk s)) < 256)%nat) by lia.
    apply Nat.compare_lt_iff in Hlen. rewrite Hlen in Ho. destruct Ho as (c' & -> & _).
    split; [done|]. intros [[-> H]|H]; [|by apply Hub in H].
    exfalso. revert Es. unfold sshift. by destruct (stk (send_ifs lbrace s)).
  - split; [|done]. intros _. right. by apply Hub.
Qed.

(** 128 nested braces from the start of the program. *)
Lemma parse_undefined_witness :
  exists g, (parser_init ;; parse_times 127 lbrace)%ind (globals_zero []) = SRet tt g /\
    parse lbrace g = SUndef.
Proof.
  destruct ((parser_init ;; parse_times 127 lbrace)%ind (globals_zero [])) as [[] g| |] eqn:E; vm_compute in E;
    [|discriminate E..].
  exists g. split; [reflexivity|]. injection E as <-. apply (parse_undefined_iff _ lbrace).
  - split; try reflexivity; cbn; lia.
  - left. split; vm_compute; reflexivity.
Defined.

End IndentParse.
