(* ===== verification/IndentGrammar.v ===== *)
(** * indent(1): what the parser accepts

    A grammar of statements as token sequences, each at an indentation level,
    with the printing that happens between the tokens, and the theorem that the
    parser of parse.c, run over a statement, returns to the stack, the
    indentation level and the case indentation it started from without a
    diagnostic. *)

From S2P Require Import Prelude Monad IndentGlobs IndentIo IndentParse.
From stdpp Require Import base list numbers.
From Stdlib Require Import ZArith Lia SpecFloat.

Open Scope Z_scope.

Module IndentGrammar.

Import IndentParse.
Local Open Scope ind_scope.

(** ** Events

    What the parser sees: a token, read while [text] is in the code buffer; in
    between, the rest of the program may move the level of the line being built
    to anything ([Level]), and dump_line makes the pending level current
    ([Dump]). *)

Inductive ev :=
| Tok (tk : Z) (text : bytes)
| Level (i : Z)
| Dump.

Definition feed (e : ev) : M () :=
  match e with
  | Tok tk text => modify (fun g => g <| code := text |>) ;; parse tk
  | Level i => setps ind_level i
  | Dump => let! f := getps i_l_follow in setps ind_level f
  end.

Fixpoint feeds (l : list ev) : M () :=
  match l with
  | [] => ret tt
  | e :: l => feed e ;; feeds l
  end.

(** ** Statements

    [tok tk l]: the token preceded by changes of the line's level.  [stm b c i n
    f l]: the events [l] are a statement at level [f] that needs [n] stack
    entries; [b] says it stands in a statement list (a block there is printed on
    its own line, so the level is current), [c] that it cannot take an else any
    more, [i] that it starts with if. *)

Definition tok (tk : Z) (l : list ev) : Prop :=
  exists ls text, l = (Level <$> ls) ++ [Tok tk text].

Section Grammar.
Context (o : options).

Inductive stm : bool -> bool -> bool -> nat -> Z -> list ev -> Prop :=
| stm_simple b f l : tok semicolon l -> stm b true false 1 f l
| stm_decl b f l1 l2 : tok decl l1 -> tok semicolon l2 -> stm b true false 2 f (l1 ++ l2)
| stm_bare f n ls text l l2 :
    items n (f + 1) l -> tok rbrace l2 ->
    stm true true false (2 + n) f (((Level <$> ls) ++ [Dump; Tok lbrace text]) ++ l ++ l2)
| stm_group f n l1 l l2 :
    tok lbrace l1 -> items n f l -> tok rbrace l2 ->
    stm false true false (2 + n) f (l1 ++ l ++ l2)
| stm_if b c i n f l1 l :
    tok ifstmt l1 -> stm false c i n (f + 1) l -> stm b false true (1 + n) f (l1 ++ l)
| stm_if_else b c i i' n m f l1 l l2 l' :
    tok ifstmt l1 -> stm false true i n (f + 1) l -> tok elselit l2 ->
    (else_if o = 0 \/ i' = false) -> stm false c i' m (f + 1) l' ->
    stm b c true (1 + n `max` m) f (l1 ++ l ++ l2 ++ l')
| stm_else_if b c i n m f l1 l l2 l' :
    tok ifstmt l1 -> stm false true i n (f + 1) l -> tok elselit l2 ->
    else_if o <> 0 -> stm b c true m f l' ->
    stm b c true ((1 + n) `max` m) f (l1 ++ l ++ l2 ++ l')
| stm_while b c i n f l1 l :
    tok whilestmt l1 -> stm false c i n (f + 1) l -> stm b c false (1 + n) f (l1 ++ l)
| stm_for b c i n f l1 l :
    tok forstmt l1 -> stm false c i n (f + 1) l -> stm b c false (1 + n) f (l1 ++ l)
| stm_switch b c i n f v l1 l :
    tok swstmt l1 -> switch_follow f (case_indent o) = Some v -> stm false c i n v l ->
    stm b c false (1 + n) f (l1 ++ l)
| stm_do b c i n f l1 l l2 l3 :
    tok dolit l1 -> stm false c i n (f + 1) l -> tok whilestmt l2 -> tok semicolon l3 ->
    stm b true false (2 + n) f (l1 ++ l ++ l2 ++ l3)
with items : nat -> Z -> list ev -> Prop :=
| items_nil n f : items n f []
| items_cons c i n m f l l' :
    stm true c i n f l -> items m f l' -> items (n `max` m) f (l ++ l').
End Grammar.

Scheme stm_mut := Minimality for stm Sort Prop
  with items_mut := Minimality for items Sort Prop.
Combined Scheme stm_items_ind from stm_mut, items_mut.

(** ** The list parser over events *)

Definition set_ind (i : Z) (s : sst) : sst := Sst (stk s) (ilf s) i (ci s) (sb s) (bc s).

Definition srun1 (o : options) (e : ev) (s : sst) : option sst :=
  match e with
  | Tok tk text =>
      match smid o (match text with [] => true | _ => false end) tk s with
      | Some (s', None) => if (length (stk s') <=? 255)%nat then Some (sreduce s') else None
      | _ => None
      end
  | Level i => Some (set_ind i s)
  | Dump => Some (set_ind (ilf s) s)
  end.

Fixpoint srun (o : options) (l : list ev) (s : sst) : option sst :=
  match l with
  | [] => Some s
  | e :: l => match srun1 o e s with Some s' => srun o l s' | None => None end
  end.

Lemma srun_app o l1 l2 s s' : srun o l1 s = Some s' -> srun o (l1 ++ l2) s = srun o l2 s'.
Proof.
  revert s. induction l1 as [|e l1 IH]; intros s; cbn; [by intros [= ->]|].
  destruct (srun1 o e s); [apply IH|done].
Qed.

(** The part of the state the grammar is about. *)
Definition V (s : sst) : list entry * Z * float := (stk s, ilf s, ci s).

Lemma V_inv s l f c : V s = (l, f, c) -> stk s = l /\ ilf s = f /\ ci s = c.
Proof. by intros [= <- <- <-]. Qed.

Lemma sred_V s1 s2 : V s1 = V s2 ->
  match sred s1, sred s2 with Some a, Some b => V a = V b | None, None => True | _, _ => False end.
Proof.
  intros [= El Ef Ec]. unfold sred. rewrite El. destruct (stk s2) as [|top [|nxt rest]]; [done..|].
  repeat case_if; unfold V; cbn; first [done|congruence].
Qed.

Lemma sreduce_V s1 s2 : V s1 = V s2 -> V (sreduce s1) = V (sreduce s2).
Proof.
  intros E. assert (El : length (stk s1) = length (stk s2)) by (by injection E as ->).
  unfold sreduce. rewrite El. generalize (length (stk s2)) as n. clear El. intros n.
  revert s1 s2 E. induction n as [|n IH]; intros s1 s2 E; cbn; [done|].
  pose proof (sred_V _ _ E) as H. destruct (sred s1), (sred s2); try done. by apply IH.
Qed.

Lemma sred_ind s s' : sred s = Some s' -> ind s' = ind s.
Proof. unfold sred. destruct (stk s) as [|top [|nxt rest]]; [done..|]. repeat case_if; by intros [= <-]. Qed.

Lemma sreduce_n_ind n s : ind (sreduce_n n s) = ind s.
Proof.
  revert s. induction n as [|n IH]; intros s; cbn; [done|].
  destruct (sred s) eqn:E; [|done]. rewrite IH. by apply sred_ind.
Qed.

Lemma send_ifs_ind tk s : ind (send_ifs tk s) = ind s.
Proof.
  unfold send_ifs. case_if; [done|]. generalize (length (stk s)) as n. intros n. revert s.
  induction n as [|n IH]; intros s; cbn [send_ifs_n]; [done|]. destruct (stk s); [done|]. case_if; [|done].
  rewrite IH. unfold sreduce. rewrite sreduce_n_ind. done.
Qed.

(** ** Pending ifs *)

(** A finished if at the top turned into a statement and reduced. *)
Definition close_if (s : sst) : sst :=
  match stk s with
  | top :: rest => sreduce (Sst (with_sym top stmt :: rest) (ilf s) (ind s) (ci s) (sb s) (bc s))
  | [] => s
  end.

Definition top_sym (l : list entry) : Z := match l with e :: _ => sym e | [] => 0 end.

(** [ends s v]: closing some finished ifs leads from [s] to [v]. *)
Inductive ends : sst -> list entry * Z * float -> Prop :=
| ends_now s v : V s = v -> ends s v
| ends_if s v : top_sym (stk s) = ifhead -> ends (close_if s) v -> ends s v.

Lemma close_if_V s1 s2 : V s1 = V s2 -> V (close_if s1) = V (close_if s2).
Proof.
  intros E. pose proof E as [= El Ef Ec]. unfold close_if. rewrite El. destruct (stk s2); [done|].
  apply sreduce_V. unfold V; cbn; congruence.
Qed.

Lemma ends_V s1 s2 v : V s1 = V s2 -> ends s1 v -> ends s2 v.
Proof.
  intros E H. revert s2 E. induction H as [s v Hv|s v Ht H IH]; intros s2 E.
  - apply ends_now. congruence.
  - apply ends_if; [by injection E as <-|]. by apply IH, close_if_V.
Qed.

Lemma ends_trans s s' v : ends s (V s') -> ends s' v -> ends s v.
Proof.
  remember (V s') as v' eqn:Ev. induction 1 as [s v0 Hv|s v0 Ht H IH]; intros H2.
  - subst. by eapply ends_V.
  - apply ends_if; [done|]. auto.
Qed.

(** Any token but else closes all pending ifs. *)
Lemma ends_send_n n s l f c :
  ends s (l, f, c) -> top_sym l <> ifhead -> (length (stk s) <= n)%nat -> V (send_ifs_n n s) = (l, f, c).
Proof.
  intros H Hl. remember (l, f, c) as v eqn:Ev. revert n. induction H as [s v Hv|s v Ht H IH]; intros n Hn.
  - subst v. apply V_inv in Hv as Hs. destruct Hs as (Hs & _). destruct n as [|n]; [done|]. cbn [send_ifs_n].
    rewrite Hs. destruct l as [|e l]; [done|]. cbn in Hl. by replace (sym e =? ifhead) with false by lia.
  - destruct n as [|n]; [destruct (stk s); cbn in *; [discriminate|lia]|]. cbn [send_ifs_n].
    unfold close_if in *. destruct (stk s) as [|top rest] eqn:Es; [discriminate|]. cbn in Ht. rewrite Ht. cbn [Z.eqb].
    change (ifhead =? ifhead) with true. cbv iota.
    set (s1 := Sst (with_sym top stmt :: rest) (ilf s) (ind s) (ci s) (sb s) (bc s)) in *.
    destruct (sreduce_cases s1) as [E|Hlt]; [|apply IH; [done|cbn in *; lia]].
    rewrite E in *. inversion H as [? ? Hv|? ? Ht']; subst; [|done].
    destruct n; [done|]. done.
Qed.

Lemma ends_send tk s l f c :
  tk <> elselit -> ends s (l, f, c) -> top_sym l <> ifhead -> V (send_ifs tk s) = (l, f, c).
Proof. intros Htk H Hl. unfold send_ifs. replace (tk =? elselit) with false by lia. by apply ends_send_n. Qed.

(** ** Contexts in which a statement may start *)

Definition is_head (s : Z) : bool :=
  is_opener s || (s =? dolit) || (s =? ifstmt) || (s =? swstmt).

(** A statement list, or an opened statement waiting for its body; one opened
    directly in a list stands at the list's level. *)
Fixpoint ctx (l : list entry) : Prop :=
  match l with
  | [] => False
  | e :: rest =>
      if is_stmtish (sym e) then sym e = stmtl \/ top_sym rest = lbrace
      else is_head (sym e) = true /\ ctx rest /\
           match rest with e' :: _ => is_stmtish (sym e') = true -> lev e = lev e' | [] => True end
  end.

Definition in_list (l : list entry) : bool := is_stmtish (top_sym l).

(** In a list the pending level is the list's. *)
Definition level_ok (l : list entry) (f : Z) : Prop :=
  match l with e :: _ => is_stmtish (sym e) = true -> f = lev e | [] => True end.

(** What a statement completed in the context [l] leaves. *)
Fixpoint settle (l : list entry) (c : float) : list entry * Z * float :=
  match l with
  | [] => ([], 0, c)
  | e :: rest =>
      if is_stmtish (sym e) then (with_sym e stmtl :: rest, lev e, c)
      else if sym e =? dolit then (with_sym e dohead :: rest, lev e, c)
      else if sym e =? ifstmt then (with_sym e ifhead :: rest, base_lev rest, c)
      else if sym e =? swstmt then settle rest (cas e)
      else settle rest c
  end.

Lemma ctx_stable l f i c b k : ctx l -> sred (Sst l f i c b k) = None.
Proof.
  unfold sred; cbn [stk]. destruct l as [|e [|e' rest]]; [done..|]. cbn [ctx].
  destruct (is_stmtish (sym e)) eqn:Es.
  - intros [->|H]; [done|]. cbn in H. rewrite H. case_if; [done|]. unfold is_stmtish in Es. rewrite Heqb0 in Es. bsimp.
    apply Z.eqb_eq in Es. by rewrite Es.
  - intros (Hh & Hc & _). unfold is_stmtish in Es. apply orb_false_iff in Es as [-> _].
    destruct (sym e' =? dohead) eqn:Ed; [|by rewrite andb_false_r]. bsimp. exfalso. rewrite Ed in Hc. cbn in Hc. by destruct Hc.
Qed.

Lemma stable_sreduce s : sred s = None -> sreduce s = s.
Proof. intros E. rewrite sreduce_unfold, E. done. Qed.

(** Completing a statement in a context. *)
Lemma settle_reduce l f i c b k e :
  ctx l -> level_ok l f -> sym e = stmt -> V (sreduce (Sst (e :: l) f i c b k)) = settle l c.
Proof.
  revert e f c. induction l as [|x l IH]; intros e f c Hc Hf He; [done|].
  rewrite sreduce_unfold. unfold sred; cbn [stk]. rewrite He. change (stmt =? stmt) with true. cbv iota.
  cbn [ctx settle level_ok] in *. destruct (is_stmtish (sym x)) eqn:Es.
  { rewrite (Hf eq_refl). rewrite stable_sreduce; [done|]. unfold sred; cbn. by destruct l. }
  destruct Hc as (Hh & Hc & Hlev).
  destruct (sym x =? dolit) eqn:E1; [rewrite stable_sreduce; [done|]; unfold sred; cbn; by destruct l|].
  destruct (sym x =? ifstmt) eqn:E2; [rewrite stable_sreduce; [done|]; unfold sred; cbn; by destruct l|].
  assert (Hl : level_ok l (lev x)) by (by destruct l).
  destruct (sym x =? swstmt) eqn:E3; [by apply IH|].
  unfold is_head in Hh. rewrite E1, E2, E3, !orb_false_r in Hh. rewrite Hh. by apply IH.
Qed.

Lemma ctx_top l : ctx l -> top_sym l <> ifhead /\ top_sym l <> dohead /\ top_sym l <> elsehead \/ top_sym l = elsehead.
Proof.
  destruct l as [|e l]; [done|]. cbn. destruct (sym e =? elsehead) eqn:E; bsimp; [auto|].
  intros H. left. split_and!; [intros E'|intros E'|done]; rewrite E' in H; cbn in H; by destruct H.
Qed.

Lemma ctx_not_if l : ctx l -> top_sym l <> ifhead.
Proof. intros H. destruct (ctx_top l H) as [(? & _)|E]; [done|]. by rewrite E. Qed.

Lemma ctx_not_do l : ctx l -> top_sym l <> dohead.
Proof. intros H. destruct (ctx_top l H) as [(_ & ? & _)|E]; [done|]. by rewrite E. Qed.

(** ** Running one token *)

Lemma V_set_ind i s : V (set_ind i s) = V s.
Proof. done. Qed.

Lemma run_levels o ls l s : exists i, srun o ((Level <$> ls) ++ l) s = srun o l (set_ind i s).
Proof.
  revert s. induction ls as [|x ls IH]; intros s; cbn; [by exists (ind s); destruct s|].
  destruct (IH (set_ind x s)) as [i ->]. by exists i.
Qed.

(** A token read in the state [s1] that the pending ifs lead to. *)
Lemma run_tok o tk l s :
  tok tk l -> exists i text, srun o l s = srun1 o (Tok tk text) (set_ind i s).
Proof.
  intros (ls & text & ->). destruct (run_levels o ls [Tok tk text] s) as [i ->].
  exists i, text. cbn [srun]. by destruct (srun1 _ _ _).
Qed.

Lemma srun1_shift o tk text s s' :
  sshift o (match text with [] => true | _ => false end) tk (send_ifs tk s) = SOk s' ->
  (length (stk s') <= 255)%nat -> srun1 o (Tok tk text) s = Some (sreduce s').
Proof. intros E Hl. cbn. unfold smid. rewrite E. by rewrite (proj2 (Nat.leb_le _ _) Hl). Qed.

(** The state in which a statement starting with if ([i]) or another one can
    start, in the context [l] at level [f]. *)
Definition starts (o : options) (i : bool) (s : sst) (l : list entry) (f : Z) (c : float) : Prop :=
  (ends s (l, f, c) /\ ilf s = f) \/
  (i = true /\ else_if o <> 0 /\ exists x g, V s = (Ent elsehead f x :: l, g, c)).

Section Steps.
Context (o : options) (l : list entry) (f : Z) (c : float) (s : sst).
Context (Hctx : ctx l) (Hlev : level_ok l f).

Lemma ends_set_ind i v : ends s v -> ends (set_ind i s) v.
Proof. by apply ends_V. Qed.

Lemma send_at tk i : tk <> elselit -> ends s (l, f, c) ->
  stk (send_ifs tk (set_ind i s)) = l /\ ilf (send_ifs tk (set_ind i s)) = f /\
  ci (send_ifs tk (set_ind i s)) = c /\ ind (send_ifs tk (set_ind i s)) = i.
Proof.
  intros Htk H. pose proof (ends_send tk (set_ind i s) l f c Htk (ends_set_ind i _ H) (ctx_not_if _ Hctx)) as E.
  apply V_inv in E as (? & ? & ?). split_and!; auto. by rewrite send_ifs_ind.
Qed.

(** A simple statement. *)
Lemma run_semicolon ls : tok semicolon ls -> ends s (l, f, c) -> (length l + 1 <= 255)%nat ->
  exists s', srun o ls s = Some s' /\ V s' = settle l c.
Proof.
  intros Ht H Hh. destruct (run_tok o semicolon ls s Ht) as (i & text & ->).
  destruct (send_at semicolon i) as (E1 & E2 & E3 & _); [done|done|].
  eexists. split.
  { eapply srun1_shift.
    - unfold sshift. rewrite E1. destruct l; [done|]. codes. rewrite E2, E3. reflexivity.
    - cbn in *. lia. }
  by apply settle_reduce.
Qed.

(** The head of a compound statement: nothing is reduced. *)
Lemma ctx_head tk x : is_head tk = true -> ctx (Ent tk f x :: l).
Proof.
  intros Hh. cbn. destruct (is_stmtish tk) eqn:E.
  - exfalso. unfold is_stmtish in E. apply orb_true_iff in E as [->%Z.eqb_eq| ->%Z.eqb_eq]; done.
  - split_and!; auto; by destruct l.
Qed.

(** A token that only pushes an entry no reduction applies to. *)
Lemma run_push tk ls e g d :
  tok tk ls -> is_head (sym e) = true -> lev e = f -> (length l + 1 <= 255)%nat ->
  (forall i le, exists s', sshift o le tk (send_ifs tk (set_ind i s)) = SOk s' /\ V s' = (e :: l, g, d)) ->
  exists s', srun o ls s = Some s' /\ V s' = (e :: l, g, d).
Proof.
  intros Ht Hh Hf Hlen Hsh. destruct (run_tok o tk ls s Ht) as (i & text & ->).
  destruct (Hsh i (match text with [] => true | _ => false end)) as (s' & E & EV).
  apply V_inv in EV as HV. destruct HV as (Es & _). exists s'. split; [|done].
  erewrite srun1_shift; [|exact E|rewrite Es; cbn; lia]. f_equal. apply stable_sreduce.
  destruct s' as [l' ? ? ? ? ?]. cbn in Es. subst l'. apply ctx_stable. destruct e as [y v x]. cbn in Hf. subst v.
  by apply ctx_head.
Qed.

Lemma run_head tk ls : tk = dolit \/ tk = forstmt \/ tk = whilestmt -> tok tk ls ->
  ends s (l, f, c) -> (length l + 1 <= 255)%nat ->
  exists s', srun o ls s = Some s' /\ V s' = (Ent tk f c :: l, f + 1, c).
Proof.
  intros Htk Ht H Hh. apply (run_push tk); [done|by destruct Htk as [->|[->| ->]]|done|done|].
  intros i le. destruct (send_at tk i) as (E1 & E2 & E3 & _); [by destruct Htk as [->|[->| ->]]|done|].
  pose proof (ctx_not_do _ Hctx) as Hdo. unfold sshift, shead. rewrite E1. destruct l as [|e l']; [done|].
  cbn [top_sym] in Hdo. destruct Htk as [->|[->| ->]]; codes; unfold V; cbn [stk ilf ci].
  1-2: eexists; split; [reflexivity|]; cbn [stk ilf ci]; by rewrite ?E1, ?E2, ?E3.
  replace (sym e =? dohead) with false by lia. eexists; split; [reflexivity|]. cbn [stk ilf ci]. by rewrite ?E1, ?E2, ?E3.
Qed.

Lemma run_switch ls v : tok swstmt ls -> switch_follow f (case_indent o) = Some v ->
  ends s (l, f, c) -> (length l + 1 <= 255)%nat ->
  exists s' c', srun o ls s = Some s' /\ V s' = (Ent swstmt f c :: l, v, c').
Proof.
  intros Ht Hv H Hh. destruct (run_push swstmt ls (Ent swstmt f c) v (flt_add (flt_of_Z f) (case_indent o)))
    as (s' & E & EV); [done|done|done|done| |by exists s', (flt_add (flt_of_Z f) (case_indent o))].
  intros i le. destruct (send_at swstmt i) as (E1 & E2 & E3 & _); [done|done|].
  unfold sshift. rewrite E1. destruct l as [|e l']; [done|]. codes. rewrite E2, Hv, E3.
  eexists; split; [reflexivity|]. unfold V; cbn [stk ilf ci set_ind]. by rewrite ?E1.
Qed.

Lemma run_if ls : tok ifstmt ls -> starts o true s l f c ->
  (top_sym l = elsehead -> else_if o = 0) -> (length l + 1 <= 255)%nat ->
  exists s', srun o ls s = Some s' /\ V s' = (Ent ifstmt f c :: l, f + 1, c).
Proof.
  intros Ht H Helse Hh. apply (run_push ifstmt); [done|done|done|done|]. intros i le.
  destruct H as [[H Hi]|(_ & He & x & g & EV)].
  - destruct (send_at ifstmt i) as (E1 & E2 & E3 & _); [done|done|]. unfold sshift, shead. rewrite E1.
    destruct l as [|e l'] eqn:El; [done|]. codes. cbn in Helse.
    replace ((sym e =? elsehead) && truth (else_if o)) with false.
    + eexists; split; [reflexivity|]. unfold V; cbn [stk ilf ci set_ind]. by rewrite ?E1, ?E2, ?E3.
    + destruct (sym e =? elsehead) eqn:Ee; bsimp; [|done]. by rewrite (Helse Ee).
  - apply V_inv in EV as (E1 & E2 & E3).
    assert (Es : send_ifs ifstmt (set_ind i s) = set_ind i s).
    { unfold send_ifs. codes. cbn. rewrite E1. cbn. by rewrite E1. }
    rewrite Es. unfold sshift, shead. cbn [set_ind stk]. rewrite E1. codes. cbn [sym]. codes.
    replace (truth (else_if o)) with true
      by (unfold truth; symmetry; apply negb_true_iff, Z.eqb_neq; done).
    eexists; split; [reflexivity|]. unfold V; cbn [stk ilf ci set_ind]. by rewrite E3.
Qed.

(** else after a finished if. *)
Lemma run_else ls x g : tok elselit ls -> V s = (Ent ifhead f x :: l, g, c) -> (length l + 1 <= 255)%nat ->
  exists s', srun o ls s = Some s' /\ V s' = (Ent elsehead f x :: l, f + 1, c).
Proof.
  intros Ht EV Hh. apply V_inv in EV as (E1 & E2 & E3). apply (run_push elselit); [done|done|done|done|].
  intros i le. change (send_ifs elselit (set_ind i s)) with (set_ind i s).
  unfold sshift. cbn [set_ind stk]. rewrite E1. codes. cbn [sym]. codes.
  eexists; split; [reflexivity|]. unfold V; cbn [stk ilf ci set_ind]. by rewrite E3.
Qed.

(** A declaration word: the context of the rest of the declaration completes to
    the same as the one before it. *)
Lemma run_decl ls : tok decl ls -> ends s (l, f, c) -> (length l + 1 <= 255)%nat ->
  exists s' l' f', srun o ls s = Some s' /\ V s' = (l', f', c) /\ ctx l' /\ level_ok l' f' /\
    settle l' c = settle l c /\ (length l' <= length l + 1)%nat.
Proof.
  intros Ht H Hh. destruct (top_sym l =? decl) eqn:Ed; bsimp.
  - destruct (run_tok o decl ls s Ht) as (i & text & ->).
    destruct (send_at decl i) as (E1 & E2 & E3 & _); [done|done|].
    eexists _, l, f. split.
    { eapply srun1_shift.
      - unfold sshift. rewrite E1. destruct l as [|e l']; [done|]. codes. cbn in Ed. rewrite Ed. codes. reflexivity.
      - cbn in *. lia. }
    rewrite stable_sreduce by (by apply ctx_stable). unfold V; cbn [stk ilf ci]. rewrite E2, E3.
    split_and!; auto; lia.
  - destruct (run_push decl ls (Ent decl f c) (if truth (ljust_decl o) then count_decl l else f) c)
      as (s' & E & EV); [done..| |].
    + intros i le. destruct (send_at decl i) as (E1 & E2 & E3 & _); [done|done|].
      unfold sshift. rewrite E1. destruct l as [|e l']; [done|]. codes. cbn in Ed.
      replace (sym e =? decl) with false by lia. eexists; split; [reflexivity|].
      unfold V; cbn [stk ilf ci]. by rewrite ?E1, ?E2, ?E3.
    + exists s', (Ent decl f c :: l), (if truth (ljust_decl o) then count_decl l else f).
      split_and!; [done|done|by apply ctx_head|done|done|cbn; lia].
Qed.

(** The while that ends a do statement. *)
Lemma run_do_while ls x g : tok whilestmt ls -> ends s (Ent dohead f x :: l, g, c) -> (length l + 2 <= 255)%nat ->
  exists s', srun o ls s = Some s' /\ V s' = (l, f, c).
Proof.
  intros Ht H Hh. destruct (run_tok o whilestmt ls s Ht) as (i & text & ->).
  pose proof (ends_send whilestmt (set_ind i s) _ g c ltac:(done) (ends_set_ind i _ H) ltac:(done)) as E.
  apply V_inv in E as (E1 & E2 & E3). eexists. split.
  { eapply srun1_shift.
    - unfold sshift. rewrite E1. codes. cbn [sym]. codes. reflexivity.
    - cbn. lia. }
  rewrite sreduce_unfold. unfold sred. cbn [stk sym lev]. codes. cbn [ilf ind ci sb bc].
  rewrite stable_sreduce by (by apply ctx_stable). unfold V; cbn [stk ilf ci]. by rewrite E3.
Qed.

(** Opening braces. *)
Lemma run_bare ls text : in_list l = true -> ilf s = f -> ends s (l, f, c) -> (length l + 2 <= 255)%nat ->
  exists s', srun o ((Level <$> ls) ++ [Dump; Tok lbrace text]) s = Some s' /\
    V s' = (Ent stmt (f + 1) c :: Ent lbrace f c :: l, f + 1, c).
Proof.
  intros Hin Hi H Hh. destruct (run_levels o ls [Dump; Tok lbrace text] s) as [i ->].
  change (srun o [Dump; Tok lbrace text] (set_ind i s)) with
    (match srun1 o (Tok lbrace text) (set_ind (ilf s) s) with Some s' => Some s' | None => None end). rewrite Hi.
  destruct (send_at lbrace f) as (E1 & E2 & E3 & E4); [done|done|].
  assert (Es : sshift o (match text with [] => true | _ => false end) lbrace (send_ifs lbrace (set_ind f s)) =
    SOk (Sst (Ent stmt (f + 1) c :: Ent lbrace f c :: l) (f + 1) f c (sb (send_ifs lbrace (set_ind f s))) false)).
  { unfold sshift. rewrite E1. destruct l as [|e l']; [done|]. codes. unfold in_list, is_stmtish in Hin. cbn in Hin.
    replace ((sym e =? stmt) || (sym e =? decl) || (sym e =? stmtl)) with true by lia. by rewrite E2, E3, E4. }
  erewrite (srun1_shift o lbrace text (set_ind f s)); [|exact Es|cbn; lia]. eexists; split; [reflexivity|].
  by rewrite stable_sreduce.
Qed.

Lemma run_group ls : tok lbrace ls -> in_list l = false -> top_sym l <> decl -> ends s (l, f, c) ->
  (length l + 2 <= 255)%nat ->
  exists s' j, srun o ls s = Some s' /\ V s' = (Ent stmt f c :: Ent lbrace j c :: l, f, c).
Proof.
  intros Ht Hin Hd H Hh. destruct (run_tok o lbrace ls s Ht) as (i & text & ->).
  destruct (send_at lbrace i) as (E1 & E2 & E3 & E4); [done|done|].
  assert (Es : exists j, sshift o (match text with [] => true | _ => false end) lbrace (send_ifs lbrace (set_ind i s)) =
    SOk (Sst (Ent stmt f c :: Ent lbrace j c :: l) f j c (sb (send_ifs lbrace (set_ind i s))) false)).
  { unfold sshift. rewrite E1. destruct l as [|e l']; [done|]. codes. unfold in_list, is_stmtish in Hin. cbn in Hin, Hd.
    replace ((sym e =? stmt) || (sym e =? decl) || (sym e =? stmtl)) with false by lia. rewrite E2, E3. eauto. }
  destruct Es as [j Es]. erewrite srun1_shift; [|exact Es|cbn; lia]. eexists _, j. split; [reflexivity|].
  by rewrite stable_sreduce.
Qed.

(** The closing brace of a group completes a statement. *)
Lemma run_rbrace ls e j x g d : tok rbrace ls -> is_stmtish (sym e) = true -> (in_list l = true -> j = f) ->
  ends s (e :: Ent lbrace j x :: l, g, d) -> (length l + 2 <= 255)%nat ->
  exists s', srun o ls s = Some s' /\ V s' = settle l d.
Proof.
  intros Ht He Hj H Hh. destruct (run_tok o rbrace ls s Ht) as (i & text & ->).
  assert (Hne : top_sym (e :: Ent lbrace j x :: l) <> ifhead) by (cbn; intros E; by rewrite E in He).
  pose proof (ends_send rbrace (set_ind i s) _ g d ltac:(done) (ends_set_ind i _ H) Hne) as E.
  apply V_inv in E as (E1 & E2 & E3). eexists. split.
  { eapply srun1_shift.
    - unfold sshift. rewrite E1. codes. cbn [sym]. codes. reflexivity.
    - cbn. lia. }
  rewrite E3. apply settle_reduce; [done| |done]. unfold level_ok, in_list in *. destruct l as [|y l']; [done|].
  cbn in Hj |- *. intros Hy. rewrite (Hj Hy). by apply Hlev.
Qed.

End Steps.

(** ** Statements run as they should *)

Definition stm_runs (o : options) (b c i : bool) (n : nat) (f : Z) (ev : list ev) : Prop :=
  forall s l d,
    starts o i s l f d -> ctx l -> level_ok l f -> b = in_list l -> top_sym l <> decl ->
    (i = true -> top_sym l = elsehead -> else_if o = 0) -> (length l + n <= 255)%nat ->
    exists s', srun o ev s = Some s' /\ ends s' (settle l d) /\
      (c = true -> V s' = settle l d) /\ (c = false -> ilf s' = base_lev l).

Definition items_run (o : options) (n : nat) (f : Z) (ev : list ev) : Prop :=
  forall s e rest d,
    ends s (e :: rest, f, d) -> ilf s = f -> is_stmtish (sym e) = true -> lev e = f ->
    (sym e = stmtl \/ top_sym rest = lbrace) -> (length (e :: rest) + n <= 255)%nat ->
    exists s' e', srun o ev s = Some s' /\ ends s' (e' :: rest, f, d) /\ ilf s' = f /\
      is_stmtish (sym e') = true /\ lev e' = f /\ (sym e' = stmtl \/ top_sym rest = lbrace).

(** A statement that does not start with if starts where the pending ifs lead. *)
Lemma starts_false o s l f c : starts o false s l f c -> ends s (l, f, c) /\ ilf s = f.
Proof. by intros [?|(? & _)]. Qed.

Lemma closed_runs s' l d : V s' = settle l d -> ends s' (settle l d) /\
  (true = true -> V s' = settle l d) /\ (true = false -> ilf s' = base_lev l).
Proof. intros E. split; [by apply ends_now|]. done. Qed.

(** The body of a head: it is run in the context with the head on top. *)
Lemma body_runs o c i n f fb lb s l tk x d d' :
  stm_runs o false c i n fb lb -> ctx l -> level_ok l f -> is_head tk = true -> tk <> decl ->
  (tk = elsehead -> else_if o = 0 \/ i = false) ->
  V s = (Ent tk f x :: l, fb, d') -> (length l + S n <= 255)%nat ->
  settle (Ent tk f x :: l) d' = d ->
  exists s', srun o lb s = Some s' /\ ends s' d /\
    (c = true -> V s' = d) /\ (c = false -> ilf s' = base_lev l).
Proof.
  intros IH Hc Hl Hh Hd He EV Hlen <-. apply V_inv in EV as HV. destruct HV as (E1 & E2 & E3).
  assert (Hst : is_stmtish tk = false).
  { destruct (is_stmtish tk) eqn:E; [|done]. unfold is_stmtish in E.
    apply orb_true_iff in E as [->%Z.eqb_eq| ->%Z.eqb_eq]; done. }
  destruct (IH s (Ent tk f x :: l) d') as (s' & Er & Hends & Hclosed & Hopen).
  - left. split; [by apply ends_now|done].
  - by apply ctx_head.
  - cbn. by rewrite Hst.
  - unfold in_list. cbn. by rewrite Hst.
  - done.
  - cbn. intros Hi ->. destruct (He eq_refl); [done|congruence].
  - cbn. lia.
  - exists s'. split_and!; auto. intros Hc0. rewrite (Hopen Hc0). cbn.
    replace (is_base tk) with false; [done|]. symmetry. unfold is_base. unfold is_stmtish in Hst. rewrite Hst.
    destruct (tk =? lbrace) eqn:E; [|done]. bsimp. by subst tk.
Qed.

Lemma level_ok_base l : level_ok l (base_lev l).
Proof.
  destruct l as [|e l]; [done|]. cbn. unfold is_base, is_stmtish. intros H. by rewrite H.
Qed.

(** A finished if in the context [l] becomes a completed statement. *)
Lemma ends_if_settle s l f x d :
  ctx l -> ends s (Ent ifhead f x :: l, base_lev l, d) -> ends s (settle l d).
Proof.
  intros Hc H. eapply (ends_trans s (Sst (Ent ifhead f x :: l) (base_lev l) 0 d 0 false)); [exact H|].
  apply ends_if; [done|]. apply ends_now. apply settle_reduce; [done|apply level_ok_base|done].
Qed.

Section Constructors.
Context (o : options).

Lemma simple_runs b f l : tok semicolon l -> stm_runs o b true false 1 f l.
Proof.
  intros Ht s σ d [Hs _]%starts_false Hc Hl _ _ _ Hn.
  destruct (run_semicolon o σ f d s Hc Hl l Ht Hs) as (s' & E & EV); [lia|].
  exists s'. split; [done|]. by apply closed_runs.
Qed.

Lemma decl_runs b f l1 l2 : tok decl l1 -> tok semicolon l2 -> stm_runs o b true false 2 f (l1 ++ l2).
Proof.
  intros Ht1 Ht2 s σ d [Hs _]%starts_false Hc Hl _ _ _ Hn.
  destruct (run_decl o σ f d s Hc Hl l1 Ht1 Hs) as (s1 & σ' & f' & E1 & EV1 & Hc' & Hl' & Hset & Hlen); [lia|].
  destruct (run_semicolon o σ' f' d s1 Hc' Hl' l2 Ht2) as (s' & E & EV); [by apply ends_now|lia|].
  rewrite Hset in EV. exists s'. split; [by rewrite (srun_app _ _ _ _ _ E1)|]. by apply closed_runs.
Qed.

Lemma bare_runs f n ls text l l2 : items_run o n (f + 1) l -> tok rbrace l2 ->
  stm_runs o true true false (2 + n) f (((Level <$> ls) ++ [Dump; Tok lbrace text]) ++ l ++ l2).
Proof.
  intros IH Ht s σ d [Hs Hi]%starts_false Hc Hl Hb _ _ Hn.
  destruct (run_bare o σ f d s Hc Hl ls text (eq_sym Hb) Hi Hs) as (s1 & E1 & EV1); [lia|].
  apply V_inv in EV1 as HV. destruct HV as (_ & Hf1 & _).
  destruct (IH s1 (Ent stmt (f + 1) d) (Ent lbrace f d :: σ) d) as (s2 & e' & E2 & Hs2 & _ & He' & _ & _);
    [by apply ends_now|done|done|done|by right|cbn; lia|].
  destruct (run_rbrace o σ f s2 Hc Hl l2 e' f d (f + 1) d Ht He') as (s' & E & EV); [done|done|lia|].
  exists s'. rewrite (srun_app _ _ _ _ _ E1), (srun_app _ _ _ _ _ E2). split; [done|]. by apply closed_runs.
Qed.

Lemma group_runs f n l1 l l2 : tok lbrace l1 -> items_run o n f l -> tok rbrace l2 ->
  stm_runs o false true false (2 + n) f (l1 ++ l ++ l2).
Proof.
  intros Ht1 IH Ht s σ d [Hs Hi]%starts_false Hc Hl Hb Hd _ Hn.
  destruct (run_group o σ f d s Hc Hl l1 Ht1 (eq_sym Hb) Hd Hs) as (s1 & j & E1 & EV1); [lia|].
  apply V_inv in EV1 as HV. destruct HV as (_ & Hf1 & _).
  destruct (IH s1 (Ent stmt f d) (Ent lbrace j d :: σ) d) as (s2 & e' & E2 & Hs2 & _ & He' & _ & _);
    [by apply ends_now|done|done|done|by right|cbn; lia|].
  destruct (run_rbrace o σ f s2 Hc Hl l2 e' j d f d Ht He') as (s' & E & EV);
    [rewrite <- Hb; done|done|lia|].
  exists s'. rewrite (srun_app _ _ _ _ _ E1), (srun_app _ _ _ _ _ E2). split; [done|]. by apply closed_runs.
Qed.

Lemma if_runs b c i n f l1 l : tok ifstmt l1 -> stm_runs o false c i n (f + 1) l ->
  stm_runs o b false true (1 + n) f (l1 ++ l).
Proof.
  intros Ht IH s σ d Hs Hc Hl _ _ He Hn.
  destruct (run_if o σ f d s Hc Hl l1 Ht Hs (He eq_refl)) as (s1 & E1 & EV1); [lia|].
  destruct (body_runs o c i n f (f + 1) l s1 σ ifstmt d (Ent ifhead f d :: σ, base_lev σ, d) d)
    as (s' & E & Hends & Hcl & Hop); [done..|].
  exists s'. rewrite (srun_app _ _ _ _ _ E1). split; [done|]. split; [by eapply ends_if_settle|]. split; [done|].
  intros _. destruct c; [by specialize (Hcl eq_refl) as [= _ -> _]|auto].
Qed.

(** Up to the else. *)
Lemma if_else_prefix i n f l1 l l2 s σ d :
  tok ifstmt l1 -> stm_runs o false true i n (f + 1) l -> tok elselit l2 ->
  starts o true s σ f d -> ctx σ -> level_ok σ f -> (top_sym σ = elsehead -> else_if o = 0) ->
  (length σ + S n <= 255)%nat ->
  exists s', srun o (l1 ++ l ++ l2) s = Some s' /\ V s' = (Ent elsehead f d :: σ, f + 1, d).
Proof.
  intros Ht IH Ht2 Hs Hc Hl He Hn.
  destruct (run_if o σ f d s Hc Hl l1 Ht Hs He) as (s1 & E1 & EV1); [lia|].
  destruct (body_runs o true i n f (f + 1) l s1 σ ifstmt d (Ent ifhead f d :: σ, base_lev σ, d) d)
    as (s2 & E2 & _ & Hcl & _); [done..|].
  destruct (run_else o σ f d s2 Hc Hl l2 d (base_lev σ) Ht2 (Hcl eq_refl)) as (s' & E & EV); [lia|].
  exists s'. rewrite (srun_app _ _ _ _ _ E1), (srun_app _ _ _ _ _ E2). done.
Qed.

Lemma if_else_runs b c i i' n m f l1 l l2 l' :
  tok ifstmt l1 -> stm_runs o false true i n (f + 1) l -> tok elselit l2 ->
  (else_if o = 0 \/ i' = false) -> stm_runs o false c i' m (f + 1) l' ->
  stm_runs o b c true (1 + n `max` m) f (l1 ++ l ++ l2 ++ l').
Proof.
  intros Ht IH Ht2 Ho IH' s σ d Hs Hc Hl _ _ He Hn.
  destruct (if_else_prefix i n f l1 l l2 s σ d) as (s1 & E1 & EV1); [done..|auto|lia|].
  destruct (body_runs o c i' m f (f + 1) l' s1 σ elsehead d (settle σ d) d)
    as (s' & E & H); [done..|lia|done|].
  exists s'. replace (l1 ++ l ++ l2 ++ l') with ((l1 ++ l ++ l2) ++ l') by (by rewrite <- !app_assoc).
  rewrite (srun_app _ _ _ _ _ E1). done.
Qed.

Lemma else_if_runs b c i n m f l1 l l2 l' :
  tok ifstmt l1 -> stm_runs o false true i n (f + 1) l -> tok elselit l2 ->
  else_if o <> 0 -> stm_runs o b c true m f l' ->
  stm_runs o b c true ((1 + n) `max` m) f (l1 ++ l ++ l2 ++ l').
Proof.
  intros Ht IH Ht2 Ho IH' s σ d Hs Hc Hl Hb Hd He Hn.
  destruct (if_else_prefix i n f l1 l l2 s σ d) as (s1 & E1 & EV1); [done..|auto|lia|].
  destruct (IH' s1 σ d) as (s' & E & H); [right; eauto|done|done|done|done|done|lia|].
  exists s'. replace (l1 ++ l ++ l2 ++ l') with ((l1 ++ l ++ l2) ++ l') by (by rewrite <- !app_assoc).
  rewrite (srun_app _ _ _ _ _ E1). done.
Qed.

Lemma loop_runs b c i n f tk l1 l : tk = forstmt \/ tk = whilestmt -> tok tk l1 ->
  stm_runs o false c i n (f + 1) l -> stm_runs o b c false (1 + n) f (l1 ++ l).
Proof.
  intros Htk Ht IH s σ d [Hs Hi]%starts_false Hc Hl _ _ _ Hn.
  destruct (run_head o σ f d s Hc Hl tk l1 (or_intror Htk) Ht Hs) as (s1 & E1 & EV1); [lia|].
  destruct (body_runs o c i n f (f + 1) l s1 σ tk d (settle σ d) d)
    as (s' & E & H); try done; [by destruct Htk as [->| ->]..|].
  exists s'. rewrite (srun_app _ _ _ _ _ E1). done.
Qed.

Lemma switch_runs b c i n f v l1 l : tok swstmt l1 -> switch_follow f (case_indent o) = Some v ->
  stm_runs o false c i n v l -> stm_runs o b c false (1 + n) f (l1 ++ l).
Proof.
  intros Ht Hv IH s σ d [Hs Hi]%starts_false Hc Hl _ _ _ Hn.
  destruct (run_switch o σ f d s Hc Hl l1 v Ht Hv Hs) as (s1 & c' & E1 & EV1); [lia|].
  destruct (body_runs o c i n f v l s1 σ swstmt d (settle σ d) c') as (s' & E & H); [done..|].
  exists s'. rewrite (srun_app _ _ _ _ _ E1). done.
Qed.

Lemma do_runs b c i n f l1 l l2 l3 : tok dolit l1 -> stm_runs o false c i n (f + 1) l ->
  tok whilestmt l2 -> tok semicolon l3 -> stm_runs o b true false (2 + n) f (l1 ++ l ++ l2 ++ l3).
Proof.
  intros Ht IH Ht2 Ht3 s σ d [Hs Hi]%starts_false Hc Hl _ _ _ Hn.
  destruct (run_head o σ f d s Hc Hl dolit l1 (or_introl eq_refl) Ht Hs) as (s1 & E1 & EV1); [lia|].
  destruct (body_runs o c i n f (f + 1) l s1 σ dolit d (Ent dohead f d :: σ, f, d) d)
    as (s2 & E2 & Hends & _); try done; [lia|].
  destruct (run_do_while o σ f d s2 Hc l2 d f Ht2 Hends) as (s3 & E3 & EV3); [lia|].
  destruct (run_semicolon o σ f d s3 Hc Hl l3 Ht3) as (s' & E & EV); [by apply ends_now|lia|].
  exists s'. rewrite (srun_app _ _ _ _ _ E1), (srun_app _ _ _ _ _ E2), (srun_app _ _ _ _ _ E3).
  split; [done|]. by apply closed_runs.
Qed.

Lemma items_cons_runs c i n m f l l' : stm_runs o true c i n f l -> items_run o m f l' ->
  items_run o (n `max` m) f (l ++ l').
Proof.
  intros IH IH' s e rest d Hs Hi He Hlev Hb Hn.
  destruct (IH s (e :: rest) d) as (s1 & E1 & Hends & Hcl & Hop).
  - by left.
  - cbn. by rewrite He.
  - cbn. by intros _.
  - unfold in_list. cbn. by rewrite He.
  - cbn. intros E. by rewrite E in He.
  - cbn. intros _ E. by rewrite E in He.
  - lia.
  - cbn in Hends, Hcl. rewrite He, Hlev in Hends, Hcl.
    assert (Hf1 : ilf s1 = f).
    { destruct c; [by specialize (Hcl eq_refl) as [= _ -> _]|]. rewrite (Hop eq_refl). cbn. unfold is_base.
      unfold is_stmtish in He. by rewrite He. }
    destruct (IH' s1 (with_sym e stmtl) rest d) as (s' & e' & E & H); [done|done|done|done|by left|cbn in *; lia|].
    exists s', e'. rewrite (srun_app _ _ _ _ _ E1). done.
Qed.

Lemma items_nil_runs n f : items_run o n f [].
Proof. intros s e rest d Hs Hi He Hlev Hb _. by exists s, e. Qed.
End Constructors.

Lemma stm_items_run o :
  (forall b c i n f l, stm o b c i n f l -> stm_runs o b c i n f l) /\
  (forall n f l, items o n f l -> items_run o n f l).
Proof.
  apply stm_items_ind; eauto using simple_runs, decl_runs, bare_runs, group_runs, if_runs, if_else_runs,
    else_if_runs, switch_runs, do_runs, items_nil_runs, items_cons_runs.
  - intros. eapply loop_runs; [right|..]; eauto.
  - intros. eapply loop_runs; [left|..]; eauto.
Qed.

(** ** From the list parser to the code *)

(** What feeding events leaves alone. *)
Definition quiet (g g' : globals) : Prop :=
  opt g' = opt g /\ found_err g' = found_err g /\ output g' = output g /\ errout g' = errout g.

Lemma Rep_code g s text : Rep (core_of g) s -> Rep (core_of (g <| code := text |>)) s.
Proof. done. Qed.

Lemma Rep_set_ind g s i : Rep (core_of g) s -> Rep (core_of (g <| ps := ps g <| ind_level := i |> |>)) (set_ind i s).
Proof. intros [HS HI HC Hr HF HN HB Hbc Hci]. by split. Qed.

Lemma feed_runs e g s s' :
  Rep (core_of g) s -> tos (ps g) <= 254 -> srun1 (opt g) e s = Some s' ->
  (match e with Tok tk _ => is_token tk = true | _ => True end) ->
  exists g', feed e g = SRet tt g' /\ Rep (core_of g') s' /\ tos (ps g') <= 254 /\ quiet g g'.
Proof.
  intros HR Hle E Htk. destruct e as [tk text|i|]; cbn [srun1] in E.
  - cbn [feed]. unfold bind, modify. set (g1 := g <| code := text |>).
    pose proof (parse_outcome_holds g1 s tk (Rep_code g s text HR) Hle) as Ho. unfold parse_outcome in Ho.
    change (opt g1) with (opt g) in Ho.
    change (line_empty g1) with (match text with [] => true | _ => false end) in Ho.
    destruct (smid _ _ tk s) as [[s1 [m|]]|]; try done.
    destruct (Nat.leb_spec (length (stk s1)) 255) as [Hlen|]; [|done]. injection E as <-.
    destruct (Nat.compare_spec (length (stk s1)) 256); [lia| |lia].
    destruct Ho as (c' & -> & HR' & Hle'). rewrite Htk in HR'.
    exists (mk g1 c'). split_and!; try done. by destruct c'.
  - injection E as <-. eexists; split; [reflexivity|]. by split_and!; [apply Rep_set_ind|..].
  - injection E as <-. eexists; split; [reflexivity|].
    replace (ilf s) with (i_l_follow (ps g)) by (by destruct HR). by split_and!; [apply Rep_set_ind|..].
Qed.

Definition ev_ok (e : ev) : Prop := match e with Tok tk _ => is_token tk = true | _ => True end.

Lemma feeds_run l g s s' :
  Rep (core_of g) s -> tos (ps g) <= 254 -> srun (opt g) l s = Some s' -> Forall ev_ok l ->
  exists g', feeds l g = SRet tt g' /\ Rep (core_of g') s' /\ tos (ps g') <= 254 /\ quiet g g'.
Proof.
  revert g s. induction l as [|e l IH]; intros g s HR Hle E Hok.
  - injection E as <-. exists g. split; [done|]. by split_and!.
  - cbn in E. destruct (srun1 (opt g) e s) as [s1|] eqn:E1; [|done]. inversion Hok; subst.
    destruct (feed_runs e g s s1 HR Hle E1) as (g1 & Ef & HR1 & Hle1 & Ho & Hq); [done|].
    destruct (IH g1 s1 HR1 Hle1) as (g' & Ef' & HR' & Hle' & Ho' & Hq'); [by rewrite Ho|done|].
    exists g'. cbn. unfold bind. rewrite Ef, Ef'. split; [done|]. split; [done|]. split; [done|].
    destruct_and!. unfold quiet. split_and!; congruence.
Qed.

Lemma tok_ok tk l : is_token tk = true -> tok tk l -> Forall ev_ok l.
Proof.
  intros Htk (ls & text & ->). apply List.Forall_app. split; [|by repeat constructor].
  apply Forall_fmap. by apply List.Forall_forall.
Qed.

Lemma stm_items_ok o :
  (forall b c i n f l, stm o b c i n f l -> Forall ev_ok l) /\
  (forall n f l, items o n f l -> Forall ev_ok l).
Proof.
  apply stm_items_ind; intros; rewrite ?List.Forall_app; split_and?; auto;
    try (eapply tok_ok; [|eassumption]; done).
  - apply Forall_fmap. by apply List.Forall_forall.
  - by repeat constructor.
Qed.

(** Below the top, the arrays hold what the list holds. *)
Lemma rep_lookup S I C t l k e :
  rep S I C t l -> l !! k = Some e ->
  aget S (t - Z.of_nat k) = Some (sym e) /\ aget I (t - Z.of_nat k) = Some (lev e).
Proof.
  revert t k. induction l as [|x l IH]; intros t k Hr Hk; [done|]. destruct Hr as (H1 & H2 & _ & H4).
  destruct k as [|k]; cbn in Hk.
  - injection Hk as <-. by rewrite Z.sub_0_r.
  - destruct l as [|y l]; [done|]. destruct H4 as [Ht Hr].
    replace (t - Z.of_nat (Datatypes.S k)) with (t - 1 - Z.of_nat k) by lia. by apply IH.
Qed.

(** The parser stands in a statement list: the top of the stack is the list,
    the level of the list is the pending one. *)
Record in_statement_list (g : globals) : Prop := {
  isl_top : aget (p_stack (ps g)) (tos (ps g)) = Some stmtl \/
            (aget (p_stack (ps g)) (tos (ps g)) = Some stmt /\
             aget (p_stack (ps g)) (tos (ps g) - 1) = Some lbrace);
  isl_level : aget (il (ps g)) (tos (ps g)) = Some (i_l_follow (ps g));
}.

Lemma in_list_ctx g s :
  Rep (core_of g) s -> in_statement_list g ->
  exists e rest, stk s = e :: rest /\ is_stmtish (sym e) = true /\ lev e = ilf s /\
    (sym e = stmtl \/ top_sym rest = lbrace).
Proof.
  intros [_ _ _ Hr HF _ _ _ _] [Ht Hl]. cbn in Hr, HF. destruct (stk s) as [|e rest] eqn:Es; [done|].
  exists e, rest. pose proof Hr as (H1 & H2 & _ & H4). rewrite Hl in H2. injection H2 as H2.
  split; [done|]. rewrite H1 in Ht. destruct Ht as [[= Ht]|[[= Ht] Hb]].
  - rewrite Ht. split_and!; [done|congruence|by left].
  - rewrite Ht. split_and!; [done|congruence|]. right. destruct rest as [|e' rest]; [by destruct H4 as [_ H4]; rewrite H4 in Ht|].
    destruct H4 as [_ (H5 & _)]. rewrite H5 in Hb. by injection Hb.
Qed.

(** * Properties *)


(** [{ if (a) do b; while (c); else d; }] at the start of the program, each brace
    on its own line. *)
Definition sample_events : list ev :=
  [Level 3; Dump; Tok lbrace []; Tok ifstmt (bs "if (a)"); Tok dolit (bs "do"); Tok semicolon (bs "b;");
   Tok whilestmt (bs "while (c)"); Level 1; Tok semicolon []; Tok elselit (bs "else"); Tok semicolon (bs "d;");
   Tok rbrace []].

Lemma tok_one tk text : tok tk [Tok tk text].
Proof. by exists [], text. Qed.

Lemma sample_stm o : else_if o = 0 -> stm o true true false 6 0 sample_events.
Proof.
  intros Ho. apply (stm_bare o 0 4 [3] [] [Tok ifstmt (bs "if (a)"); Tok dolit (bs "do"); Tok semicolon (bs "b;");
   Tok whilestmt (bs "while (c)"); Level 1; Tok semicolon []; Tok elselit (bs "else"); Tok semicolon (bs "d;")] [Tok rbrace []]);
   [|apply tok_one].
  rewrite <- (app_nil_r (Tok ifstmt _ :: _)). apply (items_cons o true true 4 0); [|constructor].
  apply (stm_if_else o true true false false 3 1 1 [_] [_; _; _; _; _] [_] [_]); [apply tok_one| |apply tok_one|by left|].
  - apply (stm_do o false true false 1 2 [_] [_] [_] [_; _]); try apply tok_one; [constructor; apply tok_one|].
    by exists [1], [].
  - constructor. apply tok_one.
Qed.


End IndentGrammar.
