(* ===== verification/IndentNumbers.v ===== *)
(** * indent(1): the number scanner of src/bsd_additions/indent/lexi.c

    The transition table by which lexi recognises integer and floating-point
    constants, its completion by init_constant_tt, and the theorem that the
    automaton accepts exactly the regular expressions the source gives for it.
    The regular expressions are given their usual meaning as languages; the
    proof is a bisimulation between automaton states and derivatives, computed
    and checked by evaluation. *)

From S2P Require Import Prelude.
From stdpp Require Import base list numbers.
From Stdlib Require Import ZArith Lia.
From Stdlib Require String.

Open Scope Z_scope.

Module IndentNumbers.

(** ** The table *)

Definition table0 : list (Z * bytes) :=
  [(ch "0", bs "CEIDEHHHIJQ  U  Q  VUVVZZZ");
   (ch "1", bs "DEIDEHHHIJQ  U  Q  VUVVZZZ");
   (ch "7", bs "DEIDEHHHIJ   U     VUVVZZZ");
   (ch "9", bs "DEJDEHHHJJ   U     VUVVZZZ");
   (ch "a", bs "             U     VUVV   ");
   (ch "b", bs "  K          U     VUVV   ");
   (ch "e", bs "  FFF   FF   U     VUVV   ");
   (ch "f", bs "    f  f     U     VUVV  f");
   (ch "u", bs "  MM    M  i  iiM   M     ");
   (ch "x", bs "  N                       ");
   (ch "p", bs "                    FFX   ");
   (ch "L", bs "  LLf  fL  PR   Li  L    f");
   (ch "l", bs "  OOf  fO   S P O i O    f");
   (ch "+", bs "     G                 Y  ");
   (ch ".", bs "B EE    EE   T      W     ");
   (0,      bs "uuiifuufiuuiiuiiiiiuiuuuuu")].

(** [table[i]]: the row, or NULL. *)
Fixpoint row (t : list (Z * bytes)) (i : Z) : option bytes :=
  match t with
  | [] => None
  | (k, r) :: t => if k =? i then Some r else row t i
  end.

(** [table[i] = table[j]]. *)
Definition copy_row (t : list (Z * bytes)) (ij : Z * Z) : list (Z * bytes) :=
  match row t (snd ij) with
  | Some r => (fst ij, r) :: t
  | None => t
  end.

(** The assignments of init_constant_tt, in the order they take effect. *)
Definition init_constant_tt (t : list (Z * bytes)) : list (Z * bytes) :=
  fold_left copy_row
    [(ch "-", ch "+"); (ch "8", ch "9");
     (ch "6", ch "7"); (ch "5", ch "7"); (ch "4", ch "7"); (ch "3", ch "7"); (ch "2", ch "7");
     (ch "d", ch "a"); (ch "c", ch "a"); (ch "D", ch "a"); (ch "C", ch "a"); (ch "A", ch "a");
     (ch "B", ch "b"); (ch "E", ch "e"); (ch "U", ch "u"); (ch "X", ch "x"); (ch "P", ch "p");
     (ch "F", ch "f")] t.

Definition table : list (Z * bytes) := init_constant_tt table0.

(** ** The scanning loop *)

Definition is_class (s : Z) : bool := (s =? ch "f") || (s =? ch "i") || (s =? ch "u").

(** [table[i][s - 'A']], a blank where there is no row. *)
Definition entry (i s : Z) : Z :=
  match row table i with
  | Some r => default 32 (r !! Z.to_nat (s - 65))
  | None => 32
  end.

(** The state after the character [i]; [None] where the loop breaks.  The index
    is checked against the 121 rows of the table. *)
Definition num_step (s i : Z) : option Z :=
  if 121 <=? i then None
  else if entry i s =? 32 then None
  else Some (entry i s).

(** The class a break in state [s] gives: [s = table[0][s - 'A']]. *)
Definition num_class (s : Z) : Z := entry 0 s.

(** The loop over the characters of [w]: the class found and what is left. *)
Fixpoint num_scan (s : Z) (w : bytes) : Z * bytes :=
  if is_class s then (s, w)
  else
    match w with
    | [] => (num_class s, [])
    | c :: w' =>
        match num_step s c with
        | Some s' => num_scan s' w'
        | None => (num_class s, w)
        end
    end.

(** ** Regular expressions *)

Inductive re :=
| Emp
| Eps
| Cls (l : list Z)
| Cat (a b : re)
| Alt (a b : re)
| Star (a : re).

#[global] Instance re_eq_dec : EqDecision re.
Proof. solve_decision. Defined.

Inductive star (P : bytes -> Prop) : bytes -> Prop :=
| star_nil : star P []
| star_app u v : P u -> star P v -> star P (u ++ v).

Fixpoint lang (r : re) (w : bytes) : Prop :=
  match r with
  | Emp => False
  | Eps => w = []
  | Cls l => exists c, w = [c] /\ c ∈ l
  | Cat a b => exists u v, w = u ++ v /\ lang a u /\ lang b v
  | Alt a b => lang a w \/ lang b w
  | Star a => star (lang a) w
  end.

(** The definitions in the comment above the table. *)
Definition opt_ (r : re) : re := Alt Eps r.
Definition plus (r : re) : re := Cat r (Star r).
Definition cls (s : String.string) : re := Cls (bs s).
Arguments cls _%_string_scope.
Definition O_ : re := cls "01234567".
Definition D_ : re := cls "0123456789".
Definition NZ : re := cls "123456789".
Definition H_ : re := cls "abcdefABCDEF0123456789".
Definition B_ : re := cls "01".
Definition HP : re := Cat (cls "0") (cls "xX").
Definition BP : re := Cat (cls "0") (cls "bB").
Definition E_ : re := Cat (cls "eE") (Cat (opt_ (cls "+-")) (plus D_)).
Definition P_ : re := Cat (cls "pP") (Cat (opt_ (cls "+-")) (plus D_)).
Definition FS : re := cls "flFL".
Definition LL : re := Alt (cls "lL") (Alt (Cat (cls "l") (cls "l")) (Cat (cls "L") (cls "L"))).
Definition IS : re := Alt (Cat (cls "uU") (opt_ LL)) (Cat LL (opt_ (cls "uU"))).
Definition dot : re := cls ".".

Definition float_re : re :=
  Alt (Cat (plus D_) (Cat E_ (opt_ FS)))
  (Alt (Cat (Star D_) (Cat dot (Cat (plus D_) (Cat (opt_ E_) (opt_ FS)))))
  (Alt (Cat (plus D_) (Cat dot (Cat (opt_ E_) (opt_ FS))))
  (Alt (Cat HP (Cat (plus H_) (Cat P_ (opt_ FS))))
  (Alt (Cat HP (Cat (Star H_) (Cat dot (Cat (plus H_) (Cat P_ (opt_ FS))))))
       (Cat HP (Cat (plus H_) (Cat dot (Cat P_ FS)))))))).

Definition int_re : re :=
  Alt (Cat HP (Cat (plus H_) (opt_ IS)))
  (Alt (Cat NZ (Cat (Star D_) (opt_ IS)))
  (Alt (Cat (cls "0") (Cat (Star O_) (opt_ IS)))
       (Cat BP (Cat (plus B_) (opt_ IS))))).

(** ** Derivatives *)

Definition cat (a b : re) : re :=
  match a with
  | Emp => Emp
  | Eps => b
  | _ => match b with Emp => Emp | _ => Cat a b end
  end.

Fixpoint has_alt (a b : re) : bool :=
  if decide (a = b) then true
  else match b with
       | Alt b1 b2 => has_alt a b1 || has_alt a b2
       | _ => false
       end.

(** Alternatives as a right-nested list without repetitions. *)
Fixpoint alt (a b : re) : re :=
  match a with
  | Emp => b
  | Alt a1 a2 => alt a1 (alt a2 b)
  | _ => match b with
         | Emp => a
         | _ => if has_alt a b then b else Alt a b
         end
  end.

Fixpoint nullable (r : re) : bool :=
  match r with
  | Emp | Cls _ => false
  | Eps | Star _ => true
  | Cat a b => nullable a && nullable b
  | Alt a b => nullable a || nullable b
  end.

Fixpoint deriv (c : Z) (r : re) : re :=
  match r with
  | Emp | Eps => Emp
  | Cls l => if decide (c ∈ l) then Eps else Emp
  | Cat a b =>
      if nullable a then alt (cat (deriv c a) b) (deriv c b) else cat (deriv c a) b
  | Alt a b => alt (deriv c a) (deriv c b)
  | Star a => cat (deriv c a) (Star a)
  end.

Lemma lang_nullable r : nullable r = true <-> lang r [].
Proof.
  induction r as [| |l|a IHa b IHb|a IHa b IHb|a IHa]; cbn; try done.
  - split; [done|]. by intros (c & [=] & _).
  - rewrite andb_true_iff, IHa, IHb. split.
    + intros [Ha Hb]. by exists [], [].
    + intros (u & v & E & Hu & Hv). symmetry in E. by apply app_nil in E as [-> ->].
  - by rewrite orb_true_iff, IHa, IHb.
  - split; [constructor|done].
Qed.

Lemma lang_cat a b w : lang (cat a b) w <-> lang (Cat a b) w.
Proof.
  assert (H1 : lang (Cat Emp b) w <-> False) by (cbn; naive_solver).
  assert (H2 : lang (Cat Eps b) w <-> lang b w).
  { cbn. split; [by intros (u & v & -> & -> & ?)|]. intros. by exists [], w. }
  assert (H3 : lang (Cat a Emp) w <-> False) by (cbn; naive_solver).
  destruct a; cbn [cat]; [by rewrite H1|by rewrite H2|..]; (destruct b; [by rewrite H3|done..]).
Qed.

Lemma has_alt_lang a b w : has_alt a b = true -> lang a w -> lang b w.
Proof.
  induction b; cbn [has_alt]; case_decide; subst; try done.
  rewrite orb_true_iff. cbn. naive_solver.
Qed.

Lemma lang_alt a b w : lang (alt a b) w <-> lang a w \/ lang b w.
Proof.
  assert (Hd : forall x y, lang (match y with Emp => x | _ => if has_alt x y then y else Alt x y end) w
      <-> lang x w \/ lang y w).
  { intros x y. destruct (has_alt x y) eqn:E; destruct y; cbn; try tauto;
      (split; [tauto|]; intros [H|H]; [by apply (has_alt_lang _ _ _ E)|done]). }
  revert b. induction a as [| |l|a1 IH1 a2 IH2|a1 IH1 a2 IH2|a1 IH1]; intros b; cbn [alt]; try apply Hd.
  - cbn. tauto.
  - rewrite IH1, IH2. cbn. tauto.
Qed.

Lemma lang_deriv c r w : lang (deriv c r) w <-> lang r (c :: w).
Proof.
  revert w. induction r as [| |l|a IHa b IHb|a IHa b IHb|a IHa]; intros w; cbn [deriv].
  - done.
  - cbn. naive_solver.
  - case_decide; cbn; naive_solver.
  - assert (Hc : lang (cat (deriv c a) b) w <-> exists u v, w = u ++ v /\ lang a (c :: u) /\ lang b v).
    { rewrite lang_cat. cbn. by setoid_rewrite IHa. }
    destruct (nullable a) eqn:En.
    + rewrite lang_alt, Hc, IHb. cbn. split.
      * intros [(u & v & -> & Hu & Hv)|H]; [by exists (c :: u), v|]. apply lang_nullable in En. by exists [], (c :: w).
      * intros ([|x u] & v & E & Hu & Hv); cbn in E; [right; by subst v|]. injection E as <- ->. left. eauto.
    + rewrite Hc. cbn. split.
      * intros (u & v & -> & Hu & Hv). by exists (c :: u), v.
      * intros ([|x u] & v & E & Hu & Hv); cbn in E.
        { apply lang_nullable in Hu. congruence. }
        injection E as <- ->. eauto.
  - rewrite lang_alt. cbn. by rewrite IHa, IHb.
  - rewrite lang_cat. cbn. setoid_rewrite IHa. split.
    + intros (u & v & -> & Hu & Hv). by apply (star_app (lang a) (c :: u) v).
    + intros H. remember (c :: w) as x eqn:Ex. revert Ex. induction H as [|u v Hu Hv IH]; [done|].
      intros E. destruct u as [|y u]; [by apply IH|]. cbn in E. injection E as -> <-. eauto.
Qed.

(** ** The bisimulation *)

(** A state of the automaton with the languages that remain of the integer and
    the floating-point expressions. *)
Definition node : Type := Z * re * re.

(** The characters of the input; NUL does not occur in the buffer. *)
Definition all_bytes : list Z := Z.of_nat <$> seq 1 255.

Definition emp (r : re) : bool := match r with Emp => true | _ => false end.

(** The class of a constant that ends in state [s]. *)
Definition end_class (s : Z) : Z := if is_class s then s else num_class s.

(** The successor by [c]: none where the automaton stops. *)
Definition next (n : node) (c : Z) : option Z :=
  let '(s, _, _) := n in if is_class s then None else num_step s c.

Definition child (n : node) (c : Z) : option node :=
  match next n c with
  | Some s' => let '(_, a, b) := n in Some (s', deriv c a, deriv c b)
  | None => None
  end.

Fixpoint explore (fuel : nat) (todo seen : list node) : list node :=
  match fuel, todo with
  | S f, n :: todo =>
      if bool_decide (n ∈ seen) then explore f todo seen
      else explore f (omap (child n) [48;49;50;56;97;98;101;102;117;120;112;76;108;43;46] ++ todo) (n :: seen)
  | _, _ => seen
  end.

Definition nodes : list node := explore 3000 [(ch "A", int_re, float_re)] [].

(** Acceptance agrees, and every byte leads to a known node or stops both. *)
Definition node_ok (n : node) : bool :=
  let '(s, a, b) := n in
  Bool.eqb (end_class s =? ch "i") (nullable a) && Bool.eqb (end_class s =? ch "f") (nullable b) &&
  forallb (fun c =>
    match child n c with
    | Some n' => bool_decide (n' ∈ nodes)
    | None => emp (deriv c a) && emp (deriv c b)
    end) all_bytes.

Lemma nodes_ok : forallb node_ok nodes = true.
Proof. vm_compute. reflexivity. Qed.

Lemma start_node : (ch "A", int_re, float_re) ∈ nodes.
Proof. apply (bool_decide_eq_true_1 _). vm_compute. reflexivity. Qed.

Definition char_ok (c : Z) : Prop := 1 <= c <= 255.

Lemma all_bytes_spec c : char_ok c -> In c all_bytes.
Proof.
  intros Hc. unfold char_ok in Hc. apply list_elem_of_In, list_elem_of_fmap.
  exists (Z.to_nat c). rewrite Z2Nat.id by lia. split; [done|]. apply elem_of_seq. lia.
Qed.

(** What the automaton says of a whole string. *)
Definition scans_as (cl s : Z) (w : bytes) : Prop := num_scan s w = (cl, []).

Lemma emp_lang r w : emp r = true -> ~ lang r w.
Proof. destruct r; cbn; intros E H; try discriminate; done. Qed.

Lemma num_scan_nil s : num_scan s [] = (end_class s, []).
Proof. unfold end_class. cbn [num_scan]. by destruct (is_class s). Qed.

Lemma num_scan_cons s c w :
  num_scan s (c :: w) =
    match next (s, Emp, Emp) c with
    | Some s' => num_scan s' w
    | None => (end_class s, c :: w)
    end.
Proof. unfold end_class, next. cbn [num_scan]. by destruct (is_class s); [|destruct (num_step s c)]. Qed.

Lemma node_spec s a b w :
  (s, a, b) ∈ nodes -> Forall char_ok w ->
  (scans_as (ch "i") s w <-> lang a w) /\ (scans_as (ch "f") s w <-> lang b w).
Proof.
  intros Hn Hw. revert s a b Hn. induction Hw as [|c w Hc Hw IH]; intros s a b Hn;
    pose proof (proj1 (forallb_forall _ _) nodes_ok _ (proj1 (list_elem_of_In _ _) Hn)) as Hok;
    cbn [node_ok] in Hok; apply andb_true_iff in Hok as [Hacc Hstep];
    apply andb_true_iff in Hacc as [Hi Hf]; apply eqb_prop in Hi, Hf.
  - unfold scans_as. rewrite num_scan_nil, <- !lang_nullable, <- Hi, <- Hf, !Z.eqb_eq.
    split; split; intros H; congruence.
  - rewrite forallb_forall in Hstep. specialize (Hstep c (all_bytes_spec c Hc)).
    unfold scans_as. rewrite num_scan_cons. unfold child in Hstep. change (next (s, Emp, Emp) c) with (next (s, a, b) c).
    destruct (next (s, a, b) c) as [s'|].
    + apply bool_decide_eq_true_1 in Hstep. rewrite <- !lang_deriv. by apply IH.
    + apply andb_true_iff in Hstep as [Ha Hb]. rewrite <- !lang_deriv.
      split; (split; [done|]); intros H; [by apply (emp_lang _ _ Ha) in H|by apply (emp_lang _ _ Hb) in H].
Qed.

(** * Properties *)

(** C20. The number scanner is exact: run on any string of characters the
    table-driven loop consumes all of it and classifies it as an integer exactly
    when the string matches the integer expression of the source, and as a
    floating-point number exactly when it matches the floating-point one. *)
Theorem number_scanner_exact w :
  Forall char_ok w ->
  (num_scan (ch "A") w = (ch "i", []) <-> lang int_re w) /\
  (num_scan (ch "A") w = (ch "f", []) <-> lang float_re w).
Proof. intros Hw. apply (node_spec (ch "A") int_re float_re w start_node Hw). Qed.

Lemma number_scanner_witness :
  (num_scan (ch "A") (bs "0x1fUL") = (ch "i", []) <-> lang int_re (bs "0x1fUL")) /\
  (num_scan (ch "A") (bs "0x1fUL") = (ch "f", []) <-> lang float_re (bs "0x1fUL")).
Proof. apply (number_scanner_exact (bs "0x1fUL")). repeat constructor; vm_compute; discriminate. Defined.

End IndentNumbers.
