(* ===== verification/IndentLexi.v ===== *)
(** * indent(1): src/bsd_additions/indent/lexi.c

    The token scanner: keyword table and its binary search, the sorted array of
    type names, and [lexi] itself, which reads one token from the input buffer
    (refilling it through io.c) and returns its code.

    [lexi] works on a parser state given by its address: the program's own or the
    copy main uses while it looks ahead; [stloc] says which. *)

From S2P Require Import Prelude Monad IndentGlobs IndentIo IndentNumbers.
From stdpp Require Import base list numbers sets.
From Stdlib Require Import ZArith Lia Sorted.

Open Scope Z_scope.

Module IndentLexi.

Import IndentIo IndentNumbers.
Local Open Scope ind_scope.

(** ** Strings and binary search *)

(** strcmp(3): the sign is what matters. *)
Fixpoint strcmp (a b : bytes) : Z :=
  match a, b with
  | [], [] => 0
  | [], _ => -1
  | _, [] => 1
  | x :: a, y :: b => if x <? y then -1 else if y <? x then 1 else strcmp a b
  end.

(** bsearch(3) over the keys of an array: the index found.  [lim] elements from
    [base] remain; each round halves them. *)
Fixpoint bsearch_loop (fuel : nat) (key : bytes) (l : list bytes) (base lim : nat) : option nat :=
  match fuel with
  | O => None
  | S f =>
      if (lim =? 0)%nat then None
      else
        let p := (base + Nat.div2 lim)%nat in
        match l !! p with
        | None => None
        | Some k =>
            let cmp := strcmp key k in
            if cmp =? 0 then Some p
            else if 0 <? cmp then bsearch_loop f key l (S p) (Nat.div2 (lim - 1))
            else bsearch_loop f key l base (Nat.div2 lim)
        end
  end.

Definition bsearch (key : bytes) (l : list bytes) : option nat :=
  bsearch_loop (S (length l)) key l 0 (length l).

(** ** Keywords *)

(** struct templ *)
Record templ := Templ { rwd : bytes; rwcode : Z }.

Definition specials : list templ :=
  [Templ (bs "_Bool") 4;
   Templ (bs "_Complex") 4;
   Templ (bs "_Imaginary") 4;
   Templ (bs "auto") 10;
   Templ (bs "bool") 4;
   Templ (bs "break") 9;
   Templ (bs "case") 8;
   Templ (bs "char") 4;
   Templ (bs "complex") 4;
   Templ (bs "const") 4;
   Templ (bs "continue") 12;
   Templ (bs "default") 8;
   Templ (bs "do") 6;
   Templ (bs "double") 4;
   Templ (bs "else") 6;
   Templ (bs "enum") 3;
   Templ (bs "extern") 10;
   Templ (bs "float") 4;
   Templ (bs "for") 5;
   Templ (bs "global") 4;
   Templ (bs "goto") 9;
   Templ (bs "if") 5;
   Templ (bs "imaginary") 4;
   Templ (bs "inline") 12;
   Templ (bs "int") 4;
   Templ (bs "long") 4;
   Templ (bs "offsetof") 1;
   Templ (bs "register") 10;
   Templ (bs "restrict") 12;
   Templ (bs "return") 9;
   Templ (bs "short") 4;
   Templ (bs "signed") 4;
   Templ (bs "sizeof") 2;
   Templ (bs "static") 10;
   Templ (bs "struct") 3;
   Templ (bs "switch") 7;
   Templ (bs "typedef") 11;
   Templ (bs "union") 3;
   Templ (bs "unsigned") 4;
   Templ (bs "void") 4;
   Templ (bs "volatile") 4;
   Templ (bs "while") 5].

(** The keyword the token is, if it is one. *)
Definition find_special (tok : bytes) : option templ :=
  match bsearch tok (rwd <$> specials) with
  | Some i => specials !! i
  | None => None
  end.

(** ** Type names

    [typenames] holds the entries up to typename_top; [typename_count] is the
    number allocated. *)

Definition alloc_typenames : M () :=
  modify (fun g => g <| typenames := [] |> <| typename_count := 16 |>).

(** [for (p = 0; (comparison = strcmp(key, typenames[p])) > 0; p++)] with what
    follows: a duplicate is dropped, else the key is inserted there. *)
Fixpoint insert_typename (key : bytes) (l : list bytes) : option (list bytes) :=
  match l with
  | [] => None
  | k :: l' =>
      let cmp := strcmp key k in
      if 0 <? cmp then
        match insert_typename key l' with
        | Some l'' => Some (k :: l'')
        | None => None
        end
      else if cmp =? 0 then Some l else Some (key :: l)
  end.

Definition last_typename (l : list bytes) : bytes := default [] (l !! (length l - 1)%nat).

Definition add_typename (key : bytes) : M () :=
  modify (fun g =>
    if typename_count g <=? Z.of_nat (length (typenames g))
    then g <| typename_count := typename_count g * 2 |> else g) ;;
  let! g := get in
  let l := typenames g in
  let! l' :=
    match l with
    | [] => ret [key]
    | _ =>
        let cmp := strcmp key (last_typename l) in
        if 0 <=? cmp then ret (if cmp =? 0 then l else l ++ [key])
        else of_opt (insert_typename key l)
    end in
  if Z.of_nat (length l') <=? typename_count g
  then modify (fun g => g <| typenames := l' |>)
  else mundef.

(** ** The parser state lexi works on *)

Inductive stloc := Main | Transient.

Definition getst {A} (w : stloc) (f : parser_state -> A) : M A :=
  match w with
  | Main => fun g => SRet (f (ps g)) g
  | Transient => fun g => SRet (f (transient_state g)) g
  end.

Definition setst {A} (w : stloc) (f : parser_state -> A) `{Setter _ _ f} (v : A) : M () :=
  match w with
  | Main => modify (fun g => g <| ps := ps g <| f := v |> |>)
  | Transient => modify (fun g => g <| transient_state := transient_state g <| f := v |> |>)
  end.

(** ** The input buffer *)

(** [buf_ptr[k]]; the bytes after buf_end are not part of the line. *)
Definition peek (k : nat) : M Z :=
  let! g := get in of_opt (in_buffer g !! (buf_ptr g + k)%nat).

(** [buf_ptr++]. *)
Definition skip (k : nat) : M () := modify (fun g => g <| buf_ptr := (buf_ptr g + k)%nat |>).

(** [if (buf_ptr >= buf_end) fill_buffer()]. *)
Definition refill : M () :=
  let! g := get in
  if (length (in_buffer g) <=? buf_ptr g)%nat then fill_buffer else ret tt.

(** [if (++buf_ptr >= buf_end) fill_buffer()]. *)
Definition advance : M () := skip 1 ;; refill.

(** [*e_token++ = c]. *)
Definition put_token (c : Z) : M () := modify (fun g => g <| token := token g ++ [c] |>).

(** [*e_token++ = *buf_ptr++]. *)
Definition copy_char : M () := let! c := peek 0 in put_token c ;; skip 1.

(** More rounds than any loop that stops at a newline can make before the buffer
    and the line after it are used up. *)
Definition rounds (g : globals) : nat :=
  (length (in_buffer g) + length (input g) +
   match bp_save g with Some (l, _) => length l | None => O end + 3)%nat.

(** [while ( *buf_ptr == ' ' || *buf_ptr == '\t')]. *)
Fixpoint skip_white (fuel : nat) (on_blank : M ()) : M () :=
  let! c := peek 0 in
  if isblank c then
    match fuel with
    | O => mundef
    | S f => on_blank ;; advance ;; skip_white f on_blank
    end
  else ret tt.

(** ** Words and numbers *)

(** The loop over the transition table. *)
Fixpoint lex_number (fuel : nat) (s : Z) : M () :=
  if is_class s then ret tt
  else
    let! c := peek 0 in
    match num_step s c with
    | None => ret tt
    | Some s' =>
        match fuel with
        | O => mundef
        | S f => copy_char ;; refill ;; lex_number f s'
        end
    end.

Definition is_word (c : Z) : bool := isalnum c || (c =? 95) || (c =? 36).

(** The loop over an identifier, with its line continuations. *)
Fixpoint lex_ident (fuel : nat) : M () :=
  let! c := peek 0 in
  if is_word c || (c =? BACKSLASH) then
    match fuel with
    | O => mundef
    | S f =>
        let! go :=
          (if c =? BACKSLASH then
             let! c1 := peek 1 in
             if c1 =? 10 then skip 2 ;; refill ;; ret true else ret false
           else ret true) in
        if (go : bool) then copy_char ;; refill ;; lex_ident f else ret tt
    end
  else ret tt.

(** [strcmp(strrchr(s_token, '_'), "_t") == 0]. *)
Definition ends_in_t (tok : bytes) : bool :=
  match reverse tok with
  | t :: u :: _ => (t =? 116) && (u =? 95)
  | _ => false
  end.

Definition is_typename (g : globals) (tok : bytes) : bool :=
  (truth (auto_typedefs (opt g)) && ends_in_t tok) ||
  match typenames g with
  | [] => false
  | l => match bsearch tok l with Some _ => true | None => false end
  end.

(** The code after found_typename; [None] where it breaks out of the switch. *)
Definition found_typename (w : stloc) (is_struct : bool) : M (option Z) :=
  let! p := getst w (fun p => p) in
  (if truth (p_l_follow p) then
     setst w cast_mask
       (Z.lor (cast_mask p) (Z.land (Z.shiftl 1 (p_l_follow p)) (Z.lnot (not_cast_mask p))))
   else ret tt) ;;
  if (last_token p =? period) || (last_token p =? unary_op) then
    setst w keyword 0 ;; ret None
  else if is_struct then ret (Some structure)
  else if truth (p_l_follow p) then ret None
  else ret (Some decl).

(** Whether a parenthesis closed before a semicolon or comma follows on the
    line; the character after the last one is not part of it. *)
Fixpoint closes_decl (l : bytes) : option bool :=
  match l with
  | [] => Some false
  | c :: l' =>
      if c =? 41 then
        match l' with
        | [] => None
        | c' :: _ => if (c' =? 59) || (c' =? 44) then Some true else closes_decl l'
        end
      else closes_decl l'
  end.

(** The guesses about a word that is no keyword. *)
Definition lex_other (w : stloc) : M Z :=
  let! p := getst w (fun p => p) in
  let! c := peek 0 in
  let last :=
    (if last_token p =? decl then setst w last_u_d 1 else ret tt) ;; ret ident in
  if (c =? 40) && (tos p <=? 1) && (ind_level p =? 0) &&
     (in_parameter_declaration p =? 0) && (block_init p =? 0) then
    let! g := get in
    let! d := of_opt (closes_decl (drop (buf_ptr g) (in_buffer g))) in
    if (d : bool) then last
    else
      setst w procname (take 99 (token g)) ;;
      (if truth (in_decl p) then setst w in_parameter_declaration 1 else ret tt) ;;
      ret funcname
  else
    let! guess :=
      (if negb (truth (p_l_follow p)) && negb (truth (block_init p)) && negb (truth (in_stmt p)) then
         if c =? 42 then let! c1 := peek 1 in ret (negb (c1 =? 61))
         else ret (isalpha c)
       else ret false) in
    if (guess : bool) && ((last_token p =? semicolon) || (last_token p =? lbrace) || (last_token p =? rbrace)) then
      setst w keyword 4 ;; setst w last_u_d 1 ;; ret decl
    else last.

(** What a scanned word is. *)
Definition lex_word (w : stloc) : M Z :=
  setst w keyword 0 ;;
  let! p := getst w (fun p => p) in
  if (last_token p =? structure) && negb (truth (p_l_follow p)) then
    setst w last_u_d 1 ;; ret decl
  else
    setst w last_u_d (if last_token p =? structure then 1 else 0) ;;
    let! g := get in
    match find_special (token g) with
    | None =>
        if is_typename g (token g) then
          setst w keyword 4 ;; setst w last_u_d 1 ;;
          let! r := found_typename w false in
          match r with Some code => ret code | None => lex_other w end
        else lex_other w
    | Some t =>
        setst w keyword (rwcode t) ;;
        setst w last_u_d 1 ;;
        if rwcode t =? 7 then ret swstmt
        else if rwcode t =? 8 then ret casestmt
        else if (rwcode t =? 3) || (rwcode t =? 4) then
          let! r := found_typename w (rwcode t =? 3) in
          match r with Some code => ret code | None => lex_other w end
        else if rwcode t =? 5 then ret sp_paren
        else if rwcode t =? 6 then ret sp_nparen
        else if rwcode t =? 10 then ret storage
        else if rwcode t =? 11 then ret type_def
        else ret ident
    end.

(** An alphanumeric token. *)
Definition lex_alnum (w : stloc) : M Z :=
  let! g := get in
  let! c := peek 0 in
  (if isdigit c || (c =? 46) then lex_number (rounds g) (ch "A") else lex_ident (rounds g)) ;;
  let! g := get in
  let! c := peek 0 in
  if bool_decide (token g = bs "L") && ((c =? 34) || (c =? 39)) then ret strpfx
  else
    skip_white (rounds g) (ret tt) ;;
    lex_word w.

(** ** Operators and punctuation *)

(** A string or character constant up to its delimiter. *)
Fixpoint lex_quoted (fuel : nat) (qchar : Z) : M () :=
  let! c := peek 0 in
  if c =? 10 then diag2 1 (bs "Unterminated literal")
  else
    match fuel with
    | O => mundef
    | S f =>
        copy_char ;; refill ;;
        if c =? BACKSLASH then
          let! c1 := peek 0 in
          (if c1 =? 10 then modify (fun g => g <| line_no ::= Z.succ |>) else ret tt) ;;
          copy_char ;; refill ;; lex_quoted f qchar
        else if c =? qchar then ret tt
        else lex_quoted f qchar
    end.

(** Minus and plus, with their doubled, assigning and arrow forms. *)
Definition lex_sign (w : stloc) (t0 : Z) : M (Z * Z) :=
  let! p := getst w (fun p => p) in
  let code := if truth (last_u_d p) then unary_op else binary_op in
  let! c := peek 0 in
  if c =? t0 then
    copy_char ;;
    if (last_token p =? ident) || (last_token p =? rparen)
    then ret (if truth (last_u_d p) then unary_op else postop, 0)
    else ret (code, 1)
  else if c =? 61 then copy_char ;; ret (code, 1)
  else if c =? 62 then
    copy_char ;;
    let! b := getopt pointer_as_binop in
    if negb (truth b) then setst w want_blank 0 ;; ret (unary_op, 0)
    else ret (code, 1)
  else ret (code, 1).

Definition lex_equals (w : stloc) : M (Z * Z) :=
  let! p := getst w (fun p => p) in
  (if truth (in_or_st p) then setst w block_init 1 else ret tt) ;;
  let! c := peek 0 in
  (if c =? 61 then copy_char else ret tt) ;;
  ret (binary_op, 1).

Definition lex_compare (w : stloc) : M (Z * Z) :=
  let! u := getst w last_u_d in
  let! c := peek 0 in
  (if (c =? 62) || (c =? 60) || (c =? 61) then put_token c ;; advance else ret tt) ;;
  let! c := peek 0 in
  (if c =? 61 then copy_char else ret tt) ;;
  ret (if truth u then unary_op else binary_op, 1).

(** [while ( *buf_ptr == '*' || isspace( *buf_ptr))]: it crosses lines and does
    not look at had_eof. *)
Fixpoint lex_stars (fuel : nat) : M () :=
  let! c := peek 0 in
  if (c =? 42) || isspace c then
    match fuel with
    | O => mundef
    | S f => (if c =? 42 then put_token c else ret tt) ;; advance ;; lex_stars f
    end
  else ret tt.

(** [tp], an index into the buffer, is moved over letters and white space; at the
    end of the buffer it is refilled while tp stays where it is. *)
Fixpoint scan_declarator (fuel : nat) (tp : nat) : M nat :=
  let! g := get in
  let! c := of_opt (in_buffer g !! tp) in
  if isalpha c || isspace c then
    match fuel with
    | O => mundef
    | S f =>
        (if (length (in_buffer g) <=? S tp)%nat then fill_buffer else ret tt) ;;
        scan_declarator f (S tp)
    end
  else ret tp.

Definition lex_star (w : stloc) : M (Z * Z) :=
  let! u := getst w last_u_d in
  if negb (truth u) then
    let! c := peek 0 in
    (if c =? 61 then copy_char else ret tt) ;;
    ret (binary_op, 1)
  else
    let! g := get in
    lex_stars (rounds g) ;;
    let! g := get in
    (if truth (in_decl (ps g)) then
       let! tp := scan_declarator (rounds g) (buf_ptr g) in
       let! g := get in
       let! c := of_opt (in_buffer g !! tp) in
       if c =? 40 then setps procname (32 :: tail (procname (ps g))) else ret tt
     else ret tt) ;;
    ret (unary_op, 1).

(** [while ( *(e_token - 1) == *buf_ptr || *buf_ptr == '=')]. *)
Fixpoint lex_repeat (fuel : nat) (last : Z) : M () :=
  let! c := peek 0 in
  if (c =? last) || (c =? 61) then
    match fuel with
    | O => mundef
    | S f => put_token c ;; advance ;; lex_repeat f c
    end
  else ret tt.

Definition lex_default (w : stloc) (t0 : Z) : M (Z * Z) :=
  let! u := getst w last_u_d in
  let! c := peek 0 in
  if (t0 =? 47) && (c =? 42) then
    put_token 42 ;; advance ;; ret (comment, u)
  else
    let! g := get in
    lex_repeat (rounds g) t0 ;;
    ret (if truth u then unary_op else binary_op, 1).

(** The switch on the first character [t0]: the code and unary_delim. *)
Definition lex_switch (w : stloc) (t0 : Z) : M (Z * Z) :=
  let! g := get in
  let! u := getst w last_u_d in
  if t0 =? 10 then
    setst w last_nl 1 ;; ret (if had_eof g then 0 else newline, u)
  else if (t0 =? 39) || (t0 =? 34) then lex_quoted (rounds g) t0 ;; ret (ident, 0)
  else if (t0 =? 40) || (t0 =? 91) then ret (lparen, 1)
  else if (t0 =? 41) || (t0 =? 93) then ret (rparen, 0)
  else if t0 =? 35 then ret (preesc, u)
  else if t0 =? 63 then ret (question, 1)
  else if t0 =? 58 then ret (colon, 1)
  else if t0 =? 59 then ret (semicolon, 1)
  else if t0 =? 123 then ret (lbrace, 1)
  else if t0 =? 125 then ret (rbrace, 1)
  else if t0 =? 12 then setst w last_nl 1 ;; ret (form_feed, u)
  else if t0 =? 44 then ret (comma, 1)
  else if t0 =? 46 then ret (period, 0)
  else if (t0 =? 45) || (t0 =? 43) then lex_sign w t0
  else if t0 =? 61 then lex_equals w
  else if (t0 =? 62) || (t0 =? 60) || (t0 =? 33) then lex_compare w
  else if t0 =? 42 then lex_star w
  else lex_default w t0.

Definition lex_operator (w : stloc) : M Z :=
  let! c := peek 0 in
  put_token c ;;
  advance ;;
  let! (code, unary_delim) := lex_switch w c in
  refill ;;
  setst w last_u_d unary_delim ;;
  ret code.

Definition lexi (w : stloc) : M Z :=
  modify (fun g => g <| token := [] |>) ;;
  let! nl := getst w last_nl in
  setst w col_1 nl ;;
  setst w last_nl 0 ;;
  let! g := get in
  skip_white (rounds g) (setst w col_1 0) ;;
  let! c := peek 0 in
  let! c1 := (if c =? 46 then peek 1 else ret 0) in
  if isalnum c || (c =? 95) || (c =? 36) || ((c =? 46) && isdigit c1)
  then lex_alnum w
  else lex_operator w.

(** ** Lemmas: order and search *)

Definition str_lt (a b : bytes) : Prop := strcmp a b < 0.

Lemma strcmp_refl a : strcmp a a = 0.
Proof. induction a as [|x a IH]; cbn; [done|]. by rewrite Z.ltb_irrefl. Qed.

Lemma strcmp_eq a b : strcmp a b = 0 <-> a = b.
Proof.
  split; [|intros ->; apply strcmp_refl]. revert b. induction a as [|x a IH]; intros [|y b]; cbn; try done.
  repeat case_if; bsimp; try done. intros E. f_equal; [lia|auto].
Qed.

Lemma strcmp_antisym a b : 0 < strcmp a b <-> strcmp b a < 0.
Proof.
  revert b. induction a as [|x a IH]; intros [|y b]; cbn; try lia.
  destruct (x <? y) eqn:E1, (y <? x) eqn:E2; bsimp; try lia. apply IH.
Qed.

Lemma str_lt_trans a b c : str_lt a b -> str_lt b c -> str_lt a c.
Proof.
  unfold str_lt. revert b c. induction a as [|x a IH]; intros [|y b] [|z c]; cbn; try lia.
  destruct (x <? y) eqn:E1, (y <? x) eqn:E2, (y <? z) eqn:E3, (z <? y) eqn:E4, (x <? z) eqn:E5, (z <? x) eqn:E6;
    bsimp; try lia. apply IH.
Qed.

Definition sorted (l : list bytes) : Prop := StronglySorted str_lt l.

Lemma sorted_lookup l i j a b :
  sorted l -> l !! i = Some a -> l !! j = Some b -> (i < j)%nat -> str_lt a b.
Proof.
  intros Hs. revert i j. induction Hs as [|x l Hs IH Hx]; intros i j Hi Hj Hij; [done|].
  destruct j as [|j]; [lia|]. destruct i as [|i]; cbn in *.
  - injection Hi as <-. rewrite List.Forall_forall in Hx. apply Hx, list_elem_of_In. by eapply list_elem_of_lookup_2.
  - apply (IH i j); auto; lia.
Qed.

(** Every element equal to the key lies in the window that remains. *)
Lemma bsearch_loop_spec fuel key l base lim :
  sorted l -> (lim < fuel)%nat -> (base + lim <= length l)%nat ->
  (forall j, l !! j = Some key -> (base <= j < base + lim)%nat) ->
  match bsearch_loop fuel key l base lim with
  | Some p => l !! p = Some key
  | None => key ∉ l
  end.
Proof.
  intros Hs. revert base lim. induction fuel as [|fuel IH]; intros base lim Hf Hlen Hwin; [lia|].
  cbn [bsearch_loop]. destruct (lim =? 0)%nat eqn:El; [apply Nat.eqb_eq in El|apply Nat.eqb_neq in El].
  { intros [j Hj]%list_elem_of_lookup. apply Hwin in Hj. lia. }
  pose proof (Nat.div2_decr (lim - 1) (lim - 1) ltac:(lia)) as Hd1.
  assert (Hd : (Nat.div2 lim < lim)%nat) by (apply Nat.lt_div2; lia).
  assert (Hd2 : (Nat.div2 lim + Nat.div2 (lim - 1) + 1 = lim)%nat).
  { destruct lim as [|n]; [lia|]. replace (S n - 1)%nat with n by lia.
    pose proof (Nat.div2_odd n). pose proof (Nat.div2_odd (S n)). rewrite Nat.odd_succ, <- Nat.negb_odd in H0.
    destruct (Nat.odd n); cbn in *; lia. }
  destruct (lookup_lt_is_Some_2 l (base + Nat.div2 lim)) as [k Hk]; [lia|]. rewrite Hk.
  destruct (strcmp key k =? 0) eqn:E0; bsimp; [apply strcmp_eq in E0 as ->; done|].
  destruct (0 <? strcmp key k) eqn:Ep; bsimp.
  - apply IH; [lia|lia|]. intros j Hj. pose proof (Hwin j Hj).
    destruct (decide (j <= base + Nat.div2 lim)%nat); [|lia]. exfalso.
    destruct (decide (j = base + Nat.div2 lim)%nat) as [->|]; [rewrite Hj in Hk; injection Hk as <-; by rewrite strcmp_refl in E0|].
    pose proof (sorted_lookup l j (base + Nat.div2 lim) key k Hs Hj Hk ltac:(lia)). unfold str_lt in *. lia.
  - apply IH; [lia|lia|]. intros j Hj. pose proof (Hwin j Hj).
    destruct (decide (base + Nat.div2 lim <= j)%nat); [|lia]. exfalso.
    destruct (decide (j = base + Nat.div2 lim)%nat) as [->|]; [rewrite Hj in Hk; injection Hk as <-; by rewrite strcmp_refl in E0|].
    pose proof (sorted_lookup l (base + Nat.div2 lim) j k key Hs Hk Hj ltac:(lia)) as Hlt. unfold str_lt in Hlt.
    apply strcmp_antisym in Hlt. lia.
Qed.

Lemma bsearch_spec key l : sorted l ->
  match bsearch key l with Some p => l !! p = Some key | None => key ∉ l end.
Proof.
  intros Hs. apply bsearch_loop_spec; [done|lia|lia|]. intros j Hj. apply lookup_lt_Some in Hj. lia.
Qed.

Lemma specials_sorted : sorted (rwd <$> specials).
Proof. repeat constructor. Qed.

(** ** Lemmas: type names *)

Lemma last_typename_cons k k' l : last_typename (k :: k' :: l) = last_typename (k' :: l).
Proof.
  unfold last_typename.
  by replace (length (k :: k' :: l) - 1)%nat with (S (length (k' :: l) - 1))%nat by (cbn; lia).
Qed.

Lemma insert_typename_spec key l :
  sorted l -> strcmp key (last_typename l) < 0 -> l <> [] ->
  exists l', insert_typename key l = Some l' /\ sorted l' /\
    (forall x, x ∈ l' <-> x = key \/ x ∈ l) /\ (length l' <= S (length l))%nat.
Proof.
  intros Hs. induction Hs as [|k l Hs IH Hk]; intros Hlast Hne; [done|]. cbn [insert_typename].
  destruct (0 <? strcmp key k) eqn:E1; bsimp.
  - destruct l as [|k' l]; [cbn in Hlast; lia|].
    destruct IH as (l' & -> & Hs' & Hin & Hlen).
    { by rewrite last_typename_cons in Hlast. }
    { done. }
    eexists; split; [done|]. split_and!; [|set_solver|cbn in *; lia].
    constructor; [done|]. apply List.Forall_forall. intros x Hx%list_elem_of_In. apply Hin in Hx as [->|Hx].
    + unfold str_lt. by apply strcmp_antisym.
    + rewrite List.Forall_forall in Hk. by apply Hk, list_elem_of_In.
  - destruct (strcmp key k =? 0) eqn:E0; bsimp.
    + apply strcmp_eq in E0 as ->. eexists; split; [done|]. split_and!; [by constructor|set_solver|lia].
    + eexists; split; [done|]. split_and!; [|set_solver|cbn; lia].
      constructor; [by constructor|]. constructor; [unfold str_lt; lia|].
      eapply List.Forall_impl; [|exact Hk]. intros x Hx. apply (str_lt_trans _ k); [unfold str_lt; lia|done].
Qed.

Lemma append_typename_sorted key l :
  sorted l -> l <> [] -> 0 < strcmp key (last_typename l) -> sorted (l ++ [key]).
Proof.
  intros Hs. induction Hs as [|k l Hs IH Hk]; intros Hne Hlast; [done|]. cbn.
  destruct l as [|k' l].
  - repeat constructor. by apply strcmp_antisym.
  - assert (Hl : 0 < strcmp key (last_typename (k' :: l))).
    { by rewrite last_typename_cons in Hlast. }
    constructor; [by apply IH|]. apply List.Forall_app. split; [done|]. constructor; [|constructor].
    destruct (lookup_lt_is_Some_2 (k' :: l) (length (k' :: l) - 1)) as [z Hz]; [cbn; lia|].
    unfold last_typename in Hl. rewrite Hz in Hl. cbn [default] in Hl.
    apply (str_lt_trans _ z); [|by apply strcmp_antisym].
    rewrite List.Forall_forall in Hk. apply Hk, list_elem_of_In. by eapply list_elem_of_lookup_2.
Qed.

(** The array of type names: allocated, sorted, without duplicates. *)
Record types_ok (g : globals) : Prop := {
  ty_sorted : sorted (typenames g);
  ty_room : Z.of_nat (length (typenames g)) <= typename_count g;
  ty_alloc : 0 < typename_count g;
}.

(** ** Lemmas: the buffer *)

Definition no_nl (p : bytes) : Prop := forallb (fun c => negb (c =? 10) && negb (c =? 0)) p = true.

(** The scanner's state between tokens: one line with its newline, the pointer
    inside it; at the end of the input the line ends in the blank that
    fill_buffer supplied. *)
Record lx_ok (g : globals) : Prop := {
  lx_wf : io_wf g;
  lx_line : exists p, in_buffer g = p ++ [10] /\ no_nl p;
  lx_ptr : (buf_ptr g < length (in_buffer g))%nat;
  lx_save : bp_save g = None;
  lx_eof : had_eof g = true -> input g = [] /\ exists q, in_buffer g = q ++ [32; 10];
}.

(** What may still be read. *)
Definition avail (g : globals) : nat :=
  (length (in_buffer g) - buf_ptr g + length (input g) + if had_eof g then 0 else 3)%nat.

(** Everything the scanner's invariant depends on is unchanged. *)
Definition lx_same (g g' : globals) : Prop :=
  in_buffer g' = in_buffer g /\ buf_ptr g' = buf_ptr g /\ bp_save g' = bp_save g /\ input g' = input g /\
  had_eof g' = had_eof g /\ opt g' = opt g /\ case_ind g' = case_ind g /\
  paren_indents (ps g') = paren_indents (ps g) /\ p_l_follow (ps g') = p_l_follow (ps g).

Lemma lx_ok_same g g' : lx_same g g' -> lx_ok g -> lx_ok g'.
Proof.
  intros (H1 & H2 & H3 & H4 & H5 & H6 & H7 & H8 & H9) [[W1 W2 W3 W4] L1 L2 L3 L4].
  split; rewrite ?H1, ?H2, ?H3, ?H4, ?H5; auto. split; rewrite ?H6, ?H7, ?H8, ?H9; auto.
Qed.

Lemma avail_same g g' : lx_same g g' -> avail g' = avail g.
Proof. intros (H1 & H2 & H3 & H4 & H5 & _). unfold avail. by rewrite H1, H2, H4, H5. Qed.

Ltac lx_frame := unfold lx_same; cbn; split_and!; reflexivity.

(** The character under the pointer. *)
Definition cur (g : globals) : Z := default 0 (in_buffer g !! buf_ptr g).

Lemma cur_lookup g : lx_ok g -> in_buffer g !! (buf_ptr g + 0)%nat = Some (cur g).
Proof.
  intros H. rewrite Nat.add_0_r. unfold cur.
  by destruct (lookup_lt_is_Some_2 (in_buffer g) (buf_ptr g) (lx_ptr _ H)) as [c ->].
Qed.

Lemma wp_peek g (Q : Z -> globals -> Prop) X : lx_ok g -> Q (cur g) g -> wp (peek 0) Q X g.
Proof. intros H HQ. unfold peek. wp_steps. eapply wp_of_opt; [by apply cur_lookup|done]. Qed.

(** Only the last character of the line is a newline. *)
Lemma cur_newline g : lx_ok g -> cur g = 10 <-> S (buf_ptr g) = length (in_buffer g).
Proof.
  intros [_ (p & E & Hp) Hlt _ _]. unfold cur. rewrite E in *. rewrite length_app in *. cbn in *. split.
  - intros Hc. destruct (decide (buf_ptr g < length p)%nat) as [H|]; [|lia]. exfalso.
    rewrite lookup_app_l in Hc by done. destruct (lookup_lt_is_Some_2 p (buf_ptr g) H) as [c Hk]. rewrite Hk in Hc. cbn in Hc.
    unfold no_nl in Hp. rewrite forallb_forall in Hp. specialize (Hp c (proj1 (list_elem_of_In _ _) (list_elem_of_lookup_2 _ _ _ Hk))).
    bsimp. lia.
  - intros Hl. rewrite lookup_app_r by lia. by replace (buf_ptr g - length p)%nat with O by lia.
Qed.

(** The character after one that is not the newline. *)
Lemma wp_peek1 g (Q : Z -> globals -> Prop) X :
  lx_ok g -> cur g <> 10 -> (forall c, in_buffer g !! S (buf_ptr g) = Some c -> Q c g) -> wp (peek 1) Q X g.
Proof.
  intros H Hc HQ. unfold peek. wp_steps. rewrite (cur_newline g H) in Hc. pose proof (lx_ptr _ H).
  destruct (lookup_lt_is_Some_2 (in_buffer g) (buf_ptr g + 1)) as [c E]; [lia|].
  eapply wp_of_opt; [exact E|]. apply HQ. by rewrite Nat.add_1_r in E.
Qed.

Lemma skip_ok g : lx_ok g -> cur g <> 10 ->
  lx_ok (g <| buf_ptr := (buf_ptr g + 1)%nat |>) /\ S (avail (g <| buf_ptr := (buf_ptr g + 1)%nat |>)) = avail g.
Proof.
  intros H Hc. rewrite (cur_newline g H) in Hc. pose proof (lx_ptr _ H) as Hp. destruct H as [[W1 W2 W3 W4] L1 L2 L3 L4].
  split; [split; [by split|done| |done|done]; cbn; lia|]. unfold avail. cbn. lia.
Qed.

(** Refilling when the whole line is used. *)
Lemma wp_fill g :
  io_wf g -> bp_save g = None -> (had_eof g = true -> input g = []) ->
  wp fill_buffer (fun _ g' => lx_ok g' /\ buf_ptr g' = O /\
    (had_eof g = false -> avail g' <= length (input g) + 3)%nat) noexit g.
Proof.
  intros Hwf Hbp He. unfold fill_buffer. wp_steps. rewrite Hbp.
  eapply wp_mono; [apply wp_read_buffer; [done|done|lia]|]. intros [] g' [(p & E & Hp) F2 F3 F4 F5 F6 F7].
  split; [|split; [done|]].
  - split; [done|by exists p| |done|auto]. rewrite F2, E, length_app. cbn. lia.
  - intros Hh. specialize (F7 Hh). unfold avail. rewrite F2. lia.
Qed.

(** One step forward: inside the line the pointer moves, at its end the next line
    is read. *)
Lemma wp_advance g :
  lx_ok g -> wp advance (fun _ g' => lx_ok g' /\
    (cur g <> 10 \/ had_eof g = false -> (avail g' < avail g)%nat) /\
    (cur g <> 10 -> g' = g <| buf_ptr := (buf_ptr g + 1)%nat |>)) noexit g.
Proof.
  intros H. unfold advance, skip, refill. wp_steps. cbn [in_buffer buf_ptr].
  destruct (decide (cur g = 10)) as [Hc|Hc].
  - pose proof (proj1 (cur_newline g H) Hc) as Hl. destruct H as [[W1 W2 W3 W4] L1 L2 L3 L4].
    set (g1 := g <| buf_ptr := (buf_ptr g + 1)%nat |>).
    change (length (in_buffer g1) <=? buf_ptr g1)%nat with (length (in_buffer g) <=? buf_ptr g + 1)%nat.
    rewrite (proj2 (Nat.leb_le _ _)) by lia.
    eapply wp_mono; [apply wp_fill; [by split|done|intros He; by apply L4]|].
    intros [] g' (Hok & Hp & Hav). split; [done|]. split; [|done]. intros [?|He]; [done|].
    specialize (Hav He). unfold avail in *. cbn in *. rewrite He. lia.
  - destruct (skip_ok g H Hc) as [Hok Hav]. pose proof (lx_ptr _ Hok) as Hp. cbn in Hp.
    set (g1 := g <| buf_ptr := (buf_ptr g + 1)%nat |>) in *.
    change (length (in_buffer g1) <=? buf_ptr g1)%nat with (length (in_buffer g) <=? buf_ptr g + 1)%nat.
    rewrite (proj2 (Nat.leb_gt _ _)) by lia. wp_steps. split; [done|]. split; [lia|done].
Qed.

(** [copy_char ;; refill] is [advance] after the character has been stored. *)
Lemma wp_copy_refill g (Q : () -> globals -> Prop) :
  lx_ok g ->
  wp advance (fun _ g' => Q tt g') noexit (g <| token := token g ++ [cur g] |>) ->
  wp copy_char (fun _ g' => wp refill Q noexit g') noexit g.
Proof.
  intros H HQ. unfold copy_char, put_token, skip. wp_steps. apply wp_peek; [done|]. wp_steps.
  eapply wp_mono; [exact (wp_bind_inv _ _ _ _ _ HQ)|]. by intros [] g'.
Qed.

(** ** Lemmas: the loops *)

Lemma wp_skip_white fuel m g :
  lx_ok g -> (avail g <= fuel)%nat ->
  (forall h, wp m (fun _ h' => lx_same h h') noexit h) ->
  wp (skip_white fuel m) (fun _ g' => lx_ok g') noexit g.
Proof.
  intros Hok Hf Hm. revert g Hok Hf. induction fuel as [|fuel IH]; intros g Hok Hf; cbn [skip_white]; wp_steps;
    (apply wp_peek; [done|]); (apply wp_if; intros Hb; [|by wp_steps]).
  - pose proof (lx_ptr _ Hok). unfold avail in Hf. lia.
  - assert (Hc : cur g <> 10) by (intros E; by rewrite E in Hb).
    wp_steps. eapply wp_mono; [apply Hm|]. intros [] g1 Hs.
    pose proof (lx_ok_same _ _ Hs Hok) as Hok1. pose proof (avail_same _ _ Hs) as Ha.
    assert (Hc1 : cur g1 = cur g) by (destruct Hs as (H1 & H2 & _); unfold cur; by rewrite H1, H2).
    apply wp_bind. eapply wp_mono; [by apply wp_advance|]. intros [] g2 (Hok2 & Hav & _).
    apply IH; [done|]. assert (avail g2 < avail g1)%nat by (apply Hav; left; congruence). lia.
Qed.

(** Storing a character. *)
Lemma token_same g t : lx_same g (g <| token := t |>).
Proof. lx_frame. Qed.

(** Copy the current character, which does not end the line for good. *)
Lemma wp_copy_advance {A} g (k : M A) Q :
  lx_ok g -> (cur g <> 10 \/ had_eof g = false) ->
  (forall g', lx_ok g' -> (avail g' < avail g)%nat ->
     (cur g <> 10 -> in_buffer g' = in_buffer g /\ buf_ptr g' = S (buf_ptr g) /\ had_eof g' = had_eof g) ->
     wp k Q noexit g') ->
  wp (copy_char ;; refill ;; k) Q noexit g.
Proof.
  intros Hok Hc HQ. apply wp_bind.
  assert (H : wp copy_char (fun _ g' => wp refill (fun _ g' => wp k Q noexit g') noexit g') noexit g).
  { apply wp_copy_refill; [done|]. pose proof (token_same g (token g ++ [cur g])) as Hs.
    eapply wp_mono; [apply wp_advance; by eapply lx_ok_same|]. intros [] g' (Hok' & Hav & Heq).
    rewrite (avail_same _ _ Hs) in Hav. apply HQ; [done|by apply Hav|]. intros Hn. rewrite (Heq Hn). cbn. split_and!; auto; lia. }
  eapply wp_mono; [exact H|]. intros [] g' H'. apply wp_bind. exact H'.
Qed.

Lemma num_step_newline s : num_step s 10 = None.
Proof. reflexivity. Qed.

Lemma wp_lex_number fuel s g :
  lx_ok g -> (avail g <= fuel)%nat -> wp (lex_number fuel s) (fun _ g' => lx_ok g') noexit g.
Proof.
  revert s g. induction fuel as [|fuel IH]; intros s g Hok Hf; cbn [lex_number];
    (apply wp_if; intros _; [by wp_steps|]); wp_steps; (apply wp_peek; [done|]);
    (destruct (num_step s (cur g)) as [s'|] eqn:E; [|by wp_steps]).
  - pose proof (lx_ptr _ Hok). unfold avail in Hf. lia.
  - assert (Hc : cur g <> 10) by (intros Ec; by rewrite Ec, num_step_newline in E).
    apply wp_copy_advance; [done|by left|]. intros g' Hok' Hav _. apply IH; [done|lia].
Qed.

(** A backslash before the newline: not on the line fill_buffer made up at the
    end of the input. *)
Lemma continued_not_eof g :
  lx_ok g -> cur g = BACKSLASH -> in_buffer g !! S (buf_ptr g) = Some 10 -> had_eof g = false.
Proof.
  intros Hok Hc H1. destruct (had_eof g) eqn:E; [|done]. exfalso.
  destruct (lx_eof _ Hok E) as [_ [q Eq]].
  destruct (lx_line _ Hok) as (p & Ep & Hp).
  assert (Hlen : S (S (buf_ptr g)) = length (in_buffer g)).
  { rewrite Ep in H1 |- *. rewrite length_app. cbn. apply lookup_lt_Some in H1 as Hl. rewrite length_app in Hl. cbn in Hl.
    destruct (decide (S (buf_ptr g) < length p)%nat) as [Hlt|]; [|lia]. exfalso. rewrite lookup_app_l in H1 by done.
    unfold no_nl in Hp. rewrite forallb_forall in Hp. specialize (Hp 10 (proj1 (list_elem_of_In _ _) (list_elem_of_lookup_2 _ _ _ H1))).
    discriminate. }
  unfold cur in Hc. rewrite Eq in Hc, Hlen. rewrite length_app in Hlen. cbn in Hlen.
  rewrite lookup_app_r in Hc by lia. replace (buf_ptr g - length q)%nat with O in Hc by lia. discriminate.
Qed.

(** [buf_ptr += 2] over a continuation, then the next line. *)
Lemma wp_continue {A} g (k : M A) Q :
  lx_ok g -> cur g = BACKSLASH -> in_buffer g !! S (buf_ptr g) = Some 10 ->
  (forall g', lx_ok g' -> (avail g' < avail g)%nat -> (cur g' <> 10 \/ had_eof g' = false) -> wp k Q noexit g') ->
  wp (skip 2 ;; refill ;; k) Q noexit g.
Proof.
  intros Hok Hc H1 HQ. pose proof (continued_not_eof g Hok Hc H1) as He.
  assert (Hlen : S (S (buf_ptr g)) = length (in_buffer g)).
  { assert (Hc0 : cur g <> 10) by (rewrite Hc; done). destruct (skip_ok g Hok Hc0) as [Hok1 _].
    pose proof (cur_newline _ Hok1) as Hn. unfold cur in Hn. cbn in Hn. rewrite Nat.add_1_r, H1 in Hn.
    by apply Hn. }
  unfold skip, refill. wp_steps. set (g1 := g <| buf_ptr := (buf_ptr g + 2)%nat |>).
  change (length (in_buffer g1) <=? buf_ptr g1)%nat with (length (in_buffer g) <=? buf_ptr g + 2)%nat.
  rewrite (proj2 (Nat.leb_le _ _)) by lia. destruct Hok as [[W1 W2 W3 W4] L1 L2 L3 L4].
  eapply wp_mono; [apply wp_fill; [by split|done|intros He'; by apply L4]|].
  intros [] g' (Hok & Hp & Hav). apply HQ; [done|..].
  - specialize (Hav He). unfold avail in *. cbn in *. rewrite He. lia.
  - destruct (had_eof g') eqn:Eg; [left|by right]. intros Hn. apply (cur_newline g' Hok) in Hn.
    destruct (lx_eof _ Hok Eg) as [_ [q Eq]]. rewrite Eq, length_app in Hn. cbn in Hn. lia.
Qed.

Lemma wp_lex_ident fuel g :
  lx_ok g -> (avail g <= fuel)%nat -> wp (lex_ident fuel) (fun _ g' => lx_ok g') noexit g.
Proof.
  revert g. induction fuel as [|fuel IH]; intros g Hok Hf; cbn [lex_ident]; wp_steps;
    (apply wp_peek; [done|]); (apply wp_if; intros Hw; [|by wp_steps]).
  - pose proof (lx_ptr _ Hok). unfold avail in Hf. lia.
  - assert (Hc : cur g <> 10) by (intros E; by rewrite E in Hw).
    assert (Hgo : forall h, lx_ok h -> (avail h <= avail g)%nat -> (cur h <> 10 \/ had_eof h = false) ->
      wp (copy_char ;; refill ;; lex_ident fuel) (fun _ g' => lx_ok g') noexit h).
    { intros h Hokh Hav Hh. apply wp_copy_advance; [done|done|]. intros g' Hok' Hav' _. apply IH; [done|lia]. }
    apply wp_bind. destruct (cur g =? BACKSLASH) eqn:Eb; bsimp.
    + wp_steps. apply wp_peek1; [done|done|]. intros c1 H1. apply wp_if; intros E1; bsimp; [subst c1|by wp_steps].
      apply wp_continue; [done|done|done|]. intros g2 Hok2 Hav2 Hcur2. wp_step. apply Hgo; [done|lia|done].
    + wp_step. apply Hgo; [done|lia|by left].
Qed.

Lemma wp_diag_same level msg g : wp (diag2 level msg) (fun _ g' => lx_same g g') noexit g.
Proof.
  unfold diag2, diag. destruct (truth level); wp_steps; cbn; case_if; lx_frame.
Qed.

Lemma wp_lex_quoted fuel q g :
  lx_ok g -> (avail g <= fuel)%nat -> wp (lex_quoted fuel q) (fun _ g' => lx_ok g') noexit g.
Proof.
  revert g. induction fuel as [|fuel IH]; intros g Hok Hf; cbn [lex_quoted]; wp_steps;
    (apply wp_peek; [done|]); (apply wp_if; intros Hc; bsimp;
      [eapply wp_mono; [apply wp_diag_same|]; intros [] g' Hs; by eapply lx_ok_same|]).
  - pose proof (lx_ptr _ Hok). unfold avail in Hf. lia.
  - destruct (cur g =? BACKSLASH) eqn:Eb; bsimp.
    + apply wp_copy_advance; [done|by left|]. intros g1 Hok1 Hav1 Heq. destruct (Heq Hc) as (E1 & E2 & E3).
      wp_steps. apply wp_peek; [done|]. wp_steps.
      set (m := if cur g1 =? 10 then modify (fun g => g <| line_no ::= Z.succ |>) else ret tt).
      assert (Hm : wp m (fun _ g2 => lx_same g1 g2) noexit g1) by (unfold m; case_if; wp_steps; lx_frame).
      eapply wp_mono; [exact Hm|]. intros [] g2 Hs.
      assert (Hc2 : cur g2 <> 10 \/ had_eof g2 = false).
      { destruct Hs as (S1 & S2 & S3 & S4 & S5 & _). unfold cur. rewrite S1, S2, S5. change (default 0 _) with (cur g1).
        destruct (decide (cur g1 = 10)) as [Hn|]; [right|by left]. rewrite E3. apply continued_not_eof; [done|done|].
        pose proof (cur_lookup g1 Hok1) as Hl. by rewrite Nat.add_0_r, E1, E2, Hn in Hl. }
      pose proof (avail_same _ _ Hs). apply wp_copy_advance; [by eapply lx_ok_same|done|].
      intros g3 Hok3 Hav3 _. apply IH; [done|lia].
    + apply wp_copy_advance; [done|by left|]. intros g' Hok' Hav' _. apply wp_if; intros _; [by wp_steps|].
      apply IH; [done|lia].
Qed.

Lemma wp_lex_repeat fuel last g :
  lx_ok g -> last <> 10 -> (avail g <= fuel)%nat -> wp (lex_repeat fuel last) (fun _ g' => lx_ok g') noexit g.
Proof.
  revert last g. induction fuel as [|fuel IH]; intros last g Hok Hl Hf; cbn [lex_repeat]; wp_steps;
    (apply wp_peek; [done|]); (apply wp_if; intros Hw; [|by wp_steps]).
  - pose proof (lx_ptr _ Hok). unfold avail in Hf. lia.
  - assert (Hc : cur g <> 10) by (intros E; rewrite E in Hw; lia).
    unfold put_token. wp_steps. pose proof (token_same g (token g ++ [cur g])) as Hs.
    eapply wp_mono; [apply wp_advance; by eapply lx_ok_same|]. intros [] g' (Hok' & Hav & _).
    apply IH; [done|done|]. rewrite (avail_same _ _ Hs) in Hav. specialize (Hav (or_introl Hc)). lia.
Qed.

Lemma rounds_enough g : lx_ok g -> (avail g <= rounds g)%nat.
Proof. intros H. unfold avail, rounds. destruct (had_eof g); lia. Qed.

(** Setting a field of the state the scanner works on keeps its invariant. *)
Lemma wp_setst {A} w (f : parser_state -> A) `{Setter _ _ f} v (Q : () -> globals -> Prop) X g :
  (forall p, paren_indents (p <| f := v |>) = paren_indents p /\ p_l_follow (p <| f := v |>) = p_l_follow p) ->
  (forall g', lx_same g g' -> token g' = token g -> Q tt g') -> wp (setst w f v) Q X g.
Proof.
  intros Hf HQ. destruct w; unfold setst; apply wp_modify; apply HQ; try done.
  destruct (Hf (ps g)) as [E1 E2]. unfold lx_same. cbn. split_and!; done.
Qed.

Lemma wp_getst {A} w (f : parser_state -> A) (Q : A -> globals -> Prop) X g :
  (forall a, Q a g) -> wp (getst w f) Q X g.
Proof. intros HQ. destruct w; apply HQ. Qed.

(** Run the steps that keep the invariant, one branch at a time. *)
Ltac lx_step :=
  lazymatch goal with
  | |- wp (bind _ _) _ _ _ => apply wp_bind; cbv beta
  | |- wp (ret _) _ _ _ => apply wp_ret; cbv beta
  | |- wp get _ _ _ => apply wp_get; cbv beta
  | |- wp (getopt _) _ _ _ => apply wp_getopt; cbv beta
  | |- wp (getst _ _) _ _ _ => apply wp_getst; let a := fresh "a" in intros a; cbv beta
  | |- wp (setst _ _ _) _ _ _ =>
      apply wp_setst; [by intros []|];
      let g' := fresh "g" in let Hs := fresh "Hs" in let Ht := fresh "Ht" in
      intros g' Hs Ht; cbv beta;
      match goal with H : lx_ok ?h |- _ => 
        lazymatch type of Hs with lx_same h _ => pose proof (lx_ok_same _ _ Hs H) end end
  | |- wp (peek 0) _ _ _ => apply wp_peek; [assumption|]; cbv beta
  | |- wp (if _ then _ else _) _ _ _ => apply wp_if; intros ?
  end.
Ltac lx_steps := repeat lx_step; try done.

Lemma wp_found_typename w b g : lx_ok g -> wp (found_typename w b) (fun _ g' => lx_ok g') noexit g.
Proof. intros Hok. unfold found_typename. lx_steps. Qed.

(** On a whole line the character after a parenthesis exists. *)
Lemma closes_decl_total p : exists b, closes_decl (p ++ [10]) = Some b.
Proof.
  induction p as [|c p [b IH]]; cbn; [eauto|]. case_if; [|eauto].
  destruct (p ++ [10]) as [|c' r] eqn:E; [by destruct p|]. case_if; eauto.
Qed.

Lemma wp_closes_decl g (Q : bool -> globals -> Prop) X :
  lx_ok g -> (forall b, Q b g) -> wp (of_opt (closes_decl (drop (buf_ptr g) (in_buffer g)))) Q X g.
Proof.
  intros Hok HQ. destruct (lx_line _ Hok) as (p & E & _). pose proof (lx_ptr _ Hok) as Hp.
  rewrite E in Hp |- *. rewrite length_app in Hp. cbn in Hp.
  rewrite drop_app_le by lia. destruct (closes_decl_total (drop (buf_ptr g) p)) as [b Eb].
  eapply wp_of_opt; [exact Eb|apply HQ].
Qed.

Lemma wp_lex_other w g : lx_ok g -> wp (lex_other w) (fun _ g' => lx_ok g') noexit g.
Proof.
  intros Hok. unfold lex_other. lx_steps.
  - apply wp_closes_decl; [done|]. intros b. lx_steps.
  - apply wp_peek1; [done|intros E; rewrite E in *; discriminate|]. intros c1 _. lx_steps.
Qed.

Lemma wp_lex_word w g : lx_ok g -> wp (lex_word w) (fun _ g' => lx_ok g') noexit g.
Proof.
  intros Hok. unfold lex_word. lx_steps. destruct (find_special _) as [t|].
  - lx_steps. eapply wp_mono; [by apply wp_found_typename|]. intros [r|] g' Hok'; [by lx_steps|by apply wp_lex_other].
  - lx_steps; [|by apply wp_lex_other].
    eapply wp_mono; [by apply wp_found_typename|]. intros [r|] g' Hok'; [by lx_steps|by apply wp_lex_other].
Qed.

Lemma wp_lex_alnum w g : lx_ok g -> wp (lex_alnum w) (fun _ g' => lx_ok g') noexit g.
Proof.
  intros Hok. unfold lex_alnum. pose proof (rounds_enough g Hok).
  assert (Hrest : forall g, lx_ok g -> wp (let! g := get in
    let! c := peek 0 in
    if bool_decide (token g = bs "L") && ((c =? 34) || (c =? 39)) then ret strpfx
    else skip_white (rounds g) (ret tt) ;; lex_word w) (fun _ g' => lx_ok g') noexit g).
  { intros h Hh. lx_steps. eapply wp_mono; [apply wp_skip_white; [done|by apply rounds_enough|]|].
    - intros h'. lx_steps.
    - intros [] h' Hh'. by apply wp_lex_word. }
  lx_steps.
  - eapply wp_mono; [by apply wp_lex_number|]. intros [] g' Hok'. by apply Hrest.
  - eapply wp_mono; [by apply wp_lex_ident|]. intros [] g' Hok'. by apply Hrest.
Qed.

(** ** Lemmas: operators *)

Lemma wp_copy_only g : lx_ok g -> cur g <> 10 -> wp copy_char (fun _ g' => lx_ok g') noexit g.
Proof.
  intros Hok Hc. unfold copy_char, put_token, skip. wp_steps. apply wp_peek; [done|]. wp_steps.
  pose proof (token_same g (token g ++ [cur g])) as Hs.
  by apply (skip_ok (g <| token := token g ++ [cur g] |>)); [by eapply lx_ok_same|].
Qed.

Ltac not_newline := intros ?E; match goal with E : cur _ = 10 |- _ => rewrite E in * end; try discriminate; lia.

Lemma wp_lex_sign w t0 g : lx_ok g -> t0 <> 10 -> wp (lex_sign w t0) (fun _ g' => lx_ok g') noexit g.
Proof.
  intros Hok Ht. unfold lex_sign. lx_steps; bsimp;
    (eapply wp_mono; [apply wp_copy_only; [done|not_newline]|]; intros [] g' Hok'; cbv beta; lx_steps).
Qed.

Lemma wp_lex_equals w g : lx_ok g -> wp (lex_equals w) (fun _ g' => lx_ok g') noexit g.
Proof.
  intros Hok. unfold lex_equals. lx_steps; bsimp;
    (eapply wp_mono; [apply wp_copy_only; [done|not_newline]|]; intros [] g' Hok'; cbv beta; lx_steps).
Qed.

Lemma wp_put_advance c g : lx_ok g -> wp (put_token c) (fun _ g' => wp advance (fun _ g' => lx_ok g') noexit g') noexit g.
Proof.
  intros Hok. unfold put_token. wp_steps.
  eapply wp_mono; [apply wp_advance; eapply lx_ok_same; [apply token_same|done]|]. by intros [] g' (? & _).
Qed.

Lemma wp_lex_compare w g : lx_ok g -> wp (lex_compare w) (fun _ g' => lx_ok g') noexit g.
Proof.
  intros Hok. unfold lex_compare.
  assert (Hrest : forall h u, lx_ok h -> wp (let! c := peek 0 in
    (if c =? 61 then copy_char else ret tt) ;; ret (if truth u then unary_op else binary_op, 1))
    (fun _ g' => lx_ok g') noexit h).
  { intros h u Hh. lx_steps. bsimp. eapply wp_mono; [apply wp_copy_only; [done|not_newline]|].
    intros [] g' Hok'. cbv beta. lx_steps. }
  apply wp_bind, wp_getst. intros u. apply wp_bind, wp_peek; [done|]. apply wp_bind, wp_if; intros Hc.
  - apply wp_bind. eapply wp_mono; [by apply wp_put_advance|]. intros [] g' H.
    eapply wp_mono; [exact H|]. intros [] g2 Hok2. by apply Hrest.
  - apply wp_ret. by apply Hrest.
Qed.

Lemma wp_lex_default w t0 g : lx_ok g -> t0 <> 10 -> wp (lex_default w t0) (fun _ g' => lx_ok g') noexit g.
Proof.
  intros Hok Ht. unfold lex_default. apply wp_bind, wp_getst. intros u. apply wp_bind, wp_peek; [done|].
  apply wp_if; intros Hc.
  - apply wp_bind. eapply wp_mono; [by apply wp_put_advance|]. intros [] g' H. apply wp_bind.
    eapply wp_mono; [exact H|]. intros [] g2 Hok2. by apply wp_ret.
  - wp_steps. eapply wp_mono; [apply wp_lex_repeat; [done|done|by apply rounds_enough]|].
    intros [] g' Hok'. by wp_steps.
Qed.

(** The switch, unless it is about to read a unary star. *)
Lemma wp_lex_switch w t0 g :
  lx_ok g -> (t0 = 42 -> forall u, wp (getst w last_u_d) (fun a _ => a = u) noexit g -> u = 0) ->
  wp (lex_switch w t0) (fun _ g' => lx_ok g') noexit g.
Proof.
  intros Hok Hstar. unfold lex_switch. do 2 lx_step. apply wp_bind, wp_getst. intros u.
  repeat (apply wp_if; intros ?); bsimp; try (lx_steps; fail).
  - wp_steps. eapply wp_mono; [apply wp_lex_quoted; [done|by apply rounds_enough]|]. intros [] g' Hok'. by wp_steps.
  - by apply wp_lex_sign.
  - by apply wp_lex_equals.
  - by apply wp_lex_compare.
  - subst t0. unfold lex_star. specialize (Hstar eq_refl).
    assert (Hu : exists u, wp (getst w last_u_d) (fun a h => a = u /\ h = g) noexit g) by (destruct w; eexists; by split).
    destruct Hu as [u' Hu']. apply wp_bind. eapply wp_mono; [exact Hu'|]. intros a h [-> ->].
    rewrite (Hstar u'); [|eapply wp_mono; [exact Hu'|]; by intros ? ? [-> _]]. cbn [truth Z.eqb negb].
    change (negb (truth 0)) with true. cbv iota. lx_steps. bsimp.
    eapply wp_mono; [apply wp_copy_only; [done|not_newline]|]. intros [] g' Hok'. cbv beta. lx_steps.
  - by apply wp_lex_default.
Qed.

(** The last_u_d the scanner works with. *)
Definition last_unary (w : stloc) (g : globals) : Z :=
  match w with Main => last_u_d (ps g) | Transient => last_u_d (transient_state g) end.

Lemma wp_refill g : lx_ok g -> wp refill (fun _ g' => g' = g) noexit g.
Proof.
  intros Hok. unfold refill. wp_steps. pose proof (lx_ptr _ Hok). rewrite (proj2 (Nat.leb_gt _ _)) by lia. by wp_steps.
Qed.

Lemma wp_lex_operator w g :
  lx_ok g -> (cur g = 42 -> last_unary w g = 0) -> wp (lex_operator w) (fun _ g' => lx_ok g') noexit g.
Proof.
  intros Hok Hstar. unfold lex_operator. apply wp_bind, wp_peek; [done|]. unfold put_token. wp_steps.
  pose proof (token_same g (token g ++ [cur g])) as Hs.
  eapply wp_mono; [apply wp_advance; by eapply lx_ok_same|]. intros [] g1 (Hok1 & _ & Heq). wp_steps.
  eapply wp_mono; [apply wp_lex_switch; [done|]|].
  - intros Hc u Hu. change (cur (g <| token := token g ++ [cur g] |>)) with (cur g) in Heq.
    rewrite (Heq ltac:(rewrite Hc; done)) in Hu. specialize (Hstar Hc). destruct w; cbn in *; congruence.
  - intros [code u] g2 Hok2. cbv beta iota. apply wp_bind. eapply wp_mono; [by apply wp_refill|]. intros [] g3 ->. lx_steps.
Qed.

(** The first character of the next token. *)
Definition next_char (g : globals) : Z := hd0 (skip_blanks (drop (buf_ptr g) (in_buffer g))).

Lemma drop_cur g : lx_ok g -> drop (buf_ptr g) (in_buffer g) = cur g :: drop (S (buf_ptr g)) (in_buffer g).
Proof. intros Hok. pose proof (cur_lookup g Hok) as H. rewrite Nat.add_0_r in H. by apply drop_S. Qed.

Lemma next_char_cur g : lx_ok g -> isblank (cur g) = false -> next_char g = cur g.
Proof. intros Hok Hb. unfold next_char, skip_blanks. rewrite (drop_cur g Hok). cbn. by rewrite Hb. Qed.

Lemma next_char_skip g :
  lx_ok g -> isblank (cur g) = true -> next_char (g <| buf_ptr := (buf_ptr g + 1)%nat |>) = next_char g.
Proof.
  intros Hok Hb. unfold next_char, skip_blanks. cbn [buf_ptr in_buffer]. rewrite (drop_cur g Hok). cbn. rewrite Hb.
  rewrite Nat.add_1_r. by destruct (span isblank _).
Qed.

(** Skipping the blanks before a token. *)
Lemma wp_skip_leading fuel w g :
  lx_ok g -> (avail g <= fuel)%nat ->
  wp (skip_white fuel (setst w col_1 0)) (fun _ g' => lx_ok g' /\ cur g' = next_char g /\
    last_unary w g' = last_unary w g) noexit g.
Proof.
  revert g. induction fuel as [|fuel IH]; intros g Hok Hf; cbn [skip_white]; wp_steps;
    (apply wp_peek; [done|]); (apply wp_if; intros Hb; [|by wp_steps; rewrite (next_char_cur g Hok Hb)]).
  - pose proof (lx_ptr _ Hok). unfold avail in Hf. lia.
  - assert (Hc : cur g <> 10) by (intros E; by rewrite E in Hb). apply wp_bind.
    assert (Hset : wp (setst w col_1 0) (fun _ g1 => lx_same g g1 /\ last_unary w g1 = last_unary w g) noexit g)
      by (destruct w; cbn; split; [lx_frame|done|lx_frame|done]).
    eapply wp_mono; [exact Hset|]. intros [] g1 [Hs Hu].
    pose proof (lx_ok_same _ _ Hs Hok) as Hok1. pose proof (avail_same _ _ Hs) as Ha.
    assert (Hc1 : cur g1 = cur g /\ next_char g1 = next_char g)
      by (destruct Hs as (H1 & H2 & _); unfold cur, next_char; by rewrite H1, H2). destruct Hc1 as [Hc1 Hn1].
    apply wp_bind. eapply wp_mono; [by apply wp_advance|]. intros [] g2 (Hok2 & Hav & Heq).
    assert (Hlt : (avail g2 < avail g1)%nat) by (apply Hav; left; congruence).
    specialize (Heq ltac:(congruence)).
    eapply wp_mono; [apply IH; [done|lia]|]. intros [] g3 (Hok3 & Hc3 & Hu3). split; [done|].
    rewrite Hc3, Hu3, Heq. split; [|by destruct w]. rewrite next_char_skip; [done|done|by rewrite Hc1].
Qed.

Lemma wp_lexi w g :
  lx_ok g -> (next_char g = 42 -> last_unary w g = 0) -> wp (lexi w) (fun _ g' => lx_ok g') noexit g.
Proof.
  intros Hok Hstar. unfold lexi. wp_steps. apply wp_getst. intros nl. cbv beta. apply wp_bind.
  pose proof (token_same g []) as Hs0. set (g0 := g <| token := [] |>) in *.
  assert (Hset : wp (setst w col_1 nl ;; setst w last_nl 0)
    (fun _ g1 => lx_same g0 g1 /\ last_unary w g1 = last_unary w g0) noexit g0)
    by (destruct w; cbn; split; [lx_frame|done|lx_frame|done]).
  apply wp_bind_inv in Hset. eapply wp_mono; [exact Hset|]. intros [] ga Ha. apply wp_bind.
  eapply wp_mono; [exact Ha|]. intros [] g1 [Hs1 Hu1].
  pose proof (lx_ok_same _ _ Hs1 (lx_ok_same _ _ Hs0 Hok)) as Hok1. wp_steps.
  assert (Hn1 : next_char g1 = next_char g).
  { destruct Hs1 as (E1 & E2 & _). unfold next_char. by rewrite E1, E2. }
  eapply wp_mono; [apply wp_skip_leading; [done|by apply rounds_enough]|]. intros [] g2 (Hok2 & Hc2 & Hu2).
  apply wp_bind, wp_peek; [done|]. apply wp_bind.
  assert (Hrest : forall c1, wp (if isalnum (cur g2) || (cur g2 =? 95) || (cur g2 =? 36) || ((cur g2 =? 46) && isdigit c1)
    then lex_alnum w else lex_operator w) (fun _ g' => lx_ok g') noexit g2).
  { intros c1. apply wp_if; intros _; [by apply wp_lex_alnum|]. apply wp_lex_operator; [done|].
    intros Hc. rewrite Hu2, Hu1. destruct w; apply Hstar; congruence. }
  apply wp_if; intros Hdot; [|by wp_steps; apply Hrest]. bsimp.
  apply wp_peek1; [done|rewrite Hdot; done|]. intros c1 _. apply Hrest.
Qed.

(** ** Lemmas: a unary star before the end of the input *)

(** Nothing but stars and white space is left. *)
Definition only_stars (g : globals) : Prop :=
  lx_ok g /\ input g = [] /\
  Forall (fun c => (c =? 42) || isspace c = true) (drop (buf_ptr g) (in_buffer g)).

Lemma fill_at_eof g :
  bp_save g = None -> input g = [] ->
  exists g', fill_buffer g = SRet tt g' /\ in_buffer g' = [32; 10] /\ buf_ptr g' = O /\ input g' = [].
Proof.
  intros Hbp Hin. unfold fill_buffer, bind, get. rewrite Hbp.
  rewrite (read_buffer_plain _ g [32; 10] [] true) by (rewrite ?Hin; reflexivity).
  eexists; split; [reflexivity|]. done.
Qed.

Lemma only_stars_cur g : only_stars g -> (cur g =? 42) || isspace (cur g) = true.
Proof. intros (Hok & _ & H). rewrite (drop_cur g Hok) in H. by inversion H. Qed.

Lemma only_stars_same g t : only_stars g -> only_stars (g <| token := t |>).
Proof. intros (Hok & Hin & H). split; [by eapply lx_ok_same; [apply token_same|]|]. done. Qed.

Lemma only_stars_advance g : only_stars g -> exists g', advance g = SRet tt g' /\ only_stars g'.
Proof.
  intros (Hok & Hin & H). pose proof (lx_save _ Hok) as Hbp. rewrite (drop_cur g Hok) in H. inversion H as [|? ? _ Hrest]; subst.
  destruct (wp_run _ _ _ (wp_advance g Hok)) as ([] & g' & E & Hok' & _ & Heq). exists g'. split; [done|]. split; [done|].
  destruct (decide (cur g = 10)) as [Hc|Hc].
  - pose proof (proj1 (cur_newline g Hok) Hc) as Hl. set (g1 := g <| buf_ptr := (buf_ptr g + 1)%nat |>).
    assert (Ea : advance g = fill_buffer g1).
    { unfold advance, skip, refill, bind, modify, get. fold g1.
      change (length (in_buffer g1) <=? buf_ptr g1)%nat with (length (in_buffer g) <=? buf_ptr g + 1)%nat.
      by rewrite (proj2 (Nat.leb_le _ _)) by lia. }
    destruct (fill_at_eof g1 Hbp Hin) as (g2 & E2 & Hb & Hp & Hi). rewrite Ea, E2 in E. injection E as <-. split; [done|]. rewrite Hb, Hp. by repeat constructor.
  - rewrite (Heq Hc). cbn. split; [done|]. by rewrite Nat.add_1_r.
Qed.

(** One round of the loop, from a state with only stars and white space ahead to
    another one. *)
Lemma lex_stars_round g :
  only_stars g -> exists g', only_stars g' /\ forall fuel, lex_stars (S fuel) g = lex_stars fuel g'.
Proof.
  intros H. pose proof (only_stars_cur g H) as Hc. pose proof H as (Hok & Hrest).
  assert (Hput : exists h, (if cur g =? 42 then put_token (cur g) else ret tt) g = SRet tt h /\ only_stars h).
  { case_if; (eexists; split; [reflexivity|]); [by apply only_stars_same|done]. }
  destruct Hput as (h & E1 & Hh). destruct (only_stars_advance h Hh) as (h' & E2 & Hh').
  exists h'. split; [done|]. intros fuel. cbn [lex_stars]. unfold bind at 1, peek, bind at 1, get.
  rewrite (cur_lookup g Hok). cbn [ret of_opt]. rewrite Hc. unfold bind at 1. rewrite E1. unfold bind. by rewrite E2.
Qed.

Lemma lex_stars_rounds n g :
  only_stars g -> exists g', only_stars g' /\ forall fuel, lex_stars (n + fuel) g = lex_stars fuel g'.
Proof.
  revert g. induction n as [|n IH]; intros g H; [by exists g|].
  destruct (lex_stars_round g H) as (g1 & H1 & E1). destruct (IH g1 H1) as (g' & H' & E').
  exists g'. split; [done|]. intros fuel. cbn [Nat.add]. by rewrite E1, E'.
Qed.

(** ** Lemmas: keywords and type names *)

Lemma sorted_nodup_index l i j a : sorted l -> l !! i = Some a -> l !! j = Some a -> i = j.
Proof.
  intros Hs Hi Hj. destruct (Nat.lt_trichotomy i j) as [H|[H|H]]; [|done|];
    [pose proof (sorted_lookup l i j a a Hs Hi Hj H) as Hlt|pose proof (sorted_lookup l j i a a Hs Hj Hi H) as Hlt];
    unfold str_lt in Hlt; rewrite strcmp_refl in Hlt; lia.
Qed.

Lemma add_typename_run g key :
  types_ok g -> exists g', add_typename key g = SRet tt g' /\ types_ok g' /\
    forall x, x ∈ typenames g' <-> x = key \/ x ∈ typenames g.
Proof.
  intros [Hs Hr Ha]. unfold add_typename, bind, modify, get.
  set (g1 := if typename_count g <=? Z.of_nat (length (typenames g))
    then g <| typename_count := typename_count g * 2 |> else g).
  assert (H1 : typenames g1 = typenames g /\ Z.of_nat (length (typenames g)) + 1 <= typename_count g1).
  { unfold g1. destruct (_ <=? _) eqn:E; bsimp; cbn; split; auto; lia. }
  destruct H1 as [-> Hroom]. clearbody g1.
  assert (Hfin : forall l', sorted l' -> (length l' <= S (length (typenames g)))%nat ->
    (forall x, x ∈ l' <-> x = key \/ x ∈ typenames g) ->
    exists g', (if Z.of_nat (length l') <=? typename_count g1 then modify (fun g => g <| typenames := l' |>) else mundef) g1
       = SRet tt g' /\ types_ok g' /\ forall x, x ∈ typenames g' <-> x = key \/ x ∈ typenames g).
  { intros l' Hs' Hl' Hin. replace (Z.of_nat (length l') <=? typename_count g1) with true by lia.
    eexists; split; [reflexivity|]. split; [split; cbn; [done|lia|lia]|done]. }
  destruct (typenames g) as [|k l] eqn:El.
  - apply Hfin; [repeat constructor|cbn; lia|set_solver].
  - unfold ret. destruct (0 <=? strcmp key (last_typename (k :: l))) eqn:E; bsimp.
    + destruct (strcmp key (last_typename (k :: l)) =? 0) eqn:E0; bsimp.
      * apply Hfin; [done|lia|]. intros x. split; [by right|]. intros [->|Hx]; [|done]. apply strcmp_eq in E0 as ->.
        unfold last_typename. destruct (lookup_lt_is_Some_2 (k :: l) (length (k :: l) - 1)) as [y Hy]; [cbn; lia|].
        rewrite Hy. by eapply list_elem_of_lookup_2.
      * apply Hfin; [apply append_typename_sorted; [done|done|lia]|rewrite length_app; cbn; lia|set_solver].
    + destruct (insert_typename_spec key (k :: l) Hs E) as (l' & -> & Hs' & Hin & Hlen); [done|]. by apply Hfin.
Qed.

(** * Properties *)


Definition sample_line (l : bytes) (inp : bytes) : globals := sample inp <| in_buffer := l |>.


(** A unary star followed only by stars and white space up to the end of the
    input never gets out of the loop that skips them: after any number of rounds,
    each of them defined, the loop stands at another star or blank and goes on. *)
Theorem unary_star_at_eof_never_ends g :
  lx_ok g -> input g = [] ->
  Forall (fun c => (c =? 42) || isspace c = true) (drop (buf_ptr g) (in_buffer g)) ->
  forall n, exists g', (cur g' =? 42) || isspace (cur g') = true /\
    forall fuel, lex_stars (n + fuel) g = lex_stars fuel g'.
Proof.
  intros Hok Hin H n. destruct (lex_stars_rounds n g) as (g' & H' & E); [by split|].
  exists g'. split; [by apply only_stars_cur|done].
Qed.

Lemma unary_star_witness :
  exists g', (cur g' =? 42) || isspace (cur g') = true /\
    forall fuel, lex_stars (1000 + fuel) (sample_line (bs " *  " ++ [10]) []) = lex_stars fuel g'.
Proof.
  apply (unary_star_at_eof_never_ends (sample_line (bs " *  " ++ [10]) []));
    [|reflexivity|repeat constructor].
  split; [split; cbn; [lia|done|done|lia]|by exists (bs " *  ")|cbn; lia|done|discriminate].
Defined.

(** Keyword recognition is exact: the binary search over the table finds an
    entry exactly when the token is its word. *)
Theorem find_special_exact tok t : find_special tok = Some t <-> t ∈ specials /\ rwd t = tok.
Proof.
  pose proof (bsearch_spec tok (rwd <$> specials) specials_sorted) as H. unfold find_special.
  destruct (bsearch tok (rwd <$> specials)) as [i|].
  - split.
    + intros Hi. split; [by eapply list_elem_of_lookup_2|]. rewrite list_lookup_fmap, Hi in H. by injection H.
    + intros [[j Hj]%list_elem_of_lookup Ht].
      assert (Hj' : (rwd <$> specials) !! j = Some tok) by (by rewrite list_lookup_fmap, Hj; cbn; rewrite Ht).
      by rewrite (sorted_nodup_index _ i j tok specials_sorted H Hj').
  - split; [done|]. intros [Hin <-]. exfalso. apply H. by apply list_elem_of_fmap_2.
Qed.

(** add_typename keeps the array of type names sorted, free of duplicates
    and within its allocation; afterwards exactly the old names and the new one
    are found by the binary search of the scanner. *)
Theorem add_typename_inserts g key :
  types_ok g ->
  exists g', add_typename key g = SRet tt g' /\ types_ok g' /\
    forall x, (exists i, bsearch x (typenames g') = Some i) <->
              x = key \/ (exists i, bsearch x (typenames g) = Some i).
Proof.
  intros Hok. destruct (add_typename_run g key Hok) as (g' & E & Hok' & Hin). exists g'. split; [done|]. split; [done|].
  assert (Hs : forall l x, sorted l -> (exists i, bsearch x l = Some i) <-> x ∈ l).
  { intros l x Hl. pose proof (bsearch_spec x l Hl) as H. destruct (bsearch x l) as [i|].
    - split; [intros _; by eapply list_elem_of_lookup_2|eauto].
    - split; [by intros [? ?]|done]. }
  intros x. rewrite !Hs by (by apply ty_sorted). apply Hin.
Qed.

Lemma add_typename_witness :
  let g := sample [] <| typenames := [bs "foo_t"] |> <| typename_count := 1 |> in
  exists g', add_typename (bs "bar_t") g = SRet tt g' /\ types_ok g' /\
    forall x, (exists i, bsearch x (typenames g') = Some i) <->
              x = bs "bar_t" \/ (exists i, bsearch x (typenames g) = Some i).
Proof. intros g. apply (add_typename_inserts g (bs "bar_t")). split; [repeat constructor|cbn; lia|cbn; lia]. Defined.

(** In a declaration, the look-ahead after a star loses text: when only
    letters and white space follow on the line, the buffer is refilled although
    they have not been read.  Here the declared name is gone after the star has
    been scanned: what is left to read starts with the next line. *)
Theorem star_drops_declared_name :
  match lexi Main (sample_line (bs "*x" ++ [10]) (bs ",   *y[10];" ++ [10])
          <| ps := ps_zero <| last_u_d := 1 |> <| in_decl := 1 |> |>) with
  | SRet code g' => code = unary_op /\ token g' = bs "*" /\
      drop (buf_ptr g') (in_buffer g') = bs ",   *y[10];" ++ [10] /\ input g' = []
  | _ => False
  end.
Proof. vm_compute. auto. Qed.

(** An identifier followed by a continued line takes the first character of the
    next line with it, whatever it is. *)
Example ident_swallows_after_continuation :
  match lexi Main (sample_line (bs "foo\" ++ [10]) (bs "(1);" ++ [10])) with
  | SRet code g' => code = ident /\ token g' = bs "foo(1"
  | _ => False
  end.
Proof. vm_compute. auto. Qed.

End IndentLexi.
