(* ===== verification/IndentComment.v ===== *)
(** * indent(1): src/bsd_additions/indent/pr_comment.c

    Comments.  pr_comment decides where a comment is placed, copies it into the
    comment buffer and, unless it is boxed, fills its lines: a line that grows
    past the right margin is printed up to its last blank and what follows the
    blank is moved to the start of the next one.

    The other files see the comment buffer as the bytes between s_com and e_com.
    pr_comment also looks outside of them (it moves s_com, reads e_com[-1] of an
    empty comment and copies bytes that dump_line has already given up), so here
    the buffer is modelled as memory: [combuf] holds the bytes that have been
    written, and s_com, e_com, l_com and last_bl are offsets from its start. *)

From S2P Require Import Prelude Monad IndentGlobs IndentIo IndentLexi.
From stdpp Require Import base list numbers.
From Stdlib Require Import ZArith Lia SpecFloat.

Import IndentIo IndentLexi.

Open Scope Z_scope.

Module IndentComment.

Local Open Scope ind_scope.

(** ** State *)

(** [said]: what pr_comment itself prints on the standard output. *)
Record comst := Comst {
  glob : globals;
  combuf : bytes;
  s_com : Z;
  e_com : Z;
  l_com : Z;
  last_bl : option Z;
  said : bytes
}.

#[export] Instance set_glob : Setter glob := fun f r => Comst (f (glob r)) (combuf r) (s_com r) (e_com r) (l_com r) (last_bl r) (said r).
#[export] Instance set_combuf : Setter combuf := fun f r => Comst (glob r) (f (combuf r)) (s_com r) (e_com r) (l_com r) (last_bl r) (said r).
#[export] Instance set_s_com : Setter s_com := fun f r => Comst (glob r) (combuf r) (f (s_com r)) (e_com r) (l_com r) (last_bl r) (said r).
#[export] Instance set_e_com : Setter e_com := fun f r => Comst (glob r) (combuf r) (s_com r) (f (e_com r)) (l_com r) (last_bl r) (said r).
#[export] Instance set_l_com : Setter l_com := fun f r => Comst (glob r) (combuf r) (s_com r) (e_com r) (f (l_com r)) (last_bl r) (said r).
#[export] Instance set_last_bl : Setter last_bl := fun f r => Comst (glob r) (combuf r) (s_com r) (e_com r) (l_com r) (f (last_bl r)) (said r).
#[export] Instance set_said : Setter said := fun f r => Comst (glob r) (combuf r) (s_com r) (e_com r) (l_com r) (last_bl r) (f (said r)).

Abbreviation C := (ST comst).

Definition gets {A} (f : comst -> A) : C A := fun c => SRet (f c) c.

(** Code that does not touch the comment buffer. *)
Definition on_glob {A} (m : M A) : C A := fun c =>
  match m (glob c) with
  | SRet a g => SRet a (c <| glob := g |>)
  | SExit n e g => SExit n e (c <| glob := g |>)
  | SUndef => SUndef
  end.

Definition getp {A} (f : parser_state -> A) : C A := gets (fun c => f (ps (glob c))).
Definition geto {A} (f : options -> A) : C A := gets (fun c => f (opt (glob c))).
Definition setp {A} (f : parser_state -> A) `{Setter _ _ f} (v : A) : C () := on_glob (setps f v).

(** ** The comment buffer *)

(** The bytes from offset [a] up to [b]. *)
Definition slice (a b : Z) (m : bytes) : bytes := take (Z.to_nat (b - a)) (drop (Z.to_nat a) m).

Definition text (c : comst) : bytes := slice (s_com c) (e_com c) (combuf c).

(** [combuf[i] = v].  The buffer has [l_com + 5] bytes; the ones never written are
    not read. *)
Definition store (i v : Z) : C () :=
  let! c := get in
  if (0 <=? i) && (i <? l_com c + 5) && (i <=? Z.of_nat (length (combuf c))) then
    modify (fun c => c <| combuf := take (Z.to_nat i) (combuf c) ++ v :: drop (S (Z.to_nat i)) (combuf c) |>)
  else mundef.

Definition load (i : Z) : C Z := let! c := get in of_opt (aget (combuf c) i).

(** [*e_com++ = v]. *)
Definition put (v : Z) : C () :=
  let! e := gets e_com in store e v ;; modify (fun c => c <| e_com := e + 1 |>).

(** [e_com[-1]]. *)
Definition before_end : C Z := let! e := gets e_com in load (e - 1).

(** A last_bl at the first byte of the buffer is not moved with it: from then on
    it points into memory that was freed. *)
Definition dangling : Z := -1.

Definition CHECK_SIZE_COM (desired_size : Z) : C () :=
  modify (fun c =>
    if l_com c <=? e_com c + desired_size then
      let nsize := l_com c - s_com c + 400 + desired_size in
      c <| combuf := take (Z.to_nat nsize) (combuf c) |>
        <| e_com := e_com c - s_com c + 1 |>
        <| last_bl := match last_bl c with Some b => Some (if 0 <? b then b else dangling) | None => None end |>
        <| l_com := nsize - 5 |>
        <| s_com := 1 |>
    else c).

(** [*(e_com = s_com = combuf + 1) = 0], the end of dump_line. *)
Definition com_reset : C () :=
  store 1 0 ;; modify (fun c => c <| s_com := 1 |> <| e_com := 1 |>).

(** dump_line looks for the first byte it will print at [com_st]: past the tabs
    and, while the column is left of the page, past the blanks.  The text is not
    terminated, so the search is on the memory of the buffer; when it passes
    e_com the number of bytes to print is negative.  [printable]: it does not. *)
Definition printable (c : comst) : bool :=
  let p := ps (glob c) in
  let ts := tabsize (opt (glob c)) in
  let m := drop (Z.to_nat (s_com c)) (combuf c) in
  (s_com c =? e_com c) || truth (inhibit_formatting (glob c)) ||
  (s_com c <? e_com c) &&
  (let (target, com_st) := skip_com_tabs ts (com_col p + comment_delta p) m in
   match raise_target ts target com_st with
   | Some (_, com_st) =>
       (0 <? length com_st)%nat && (Z.of_nat (length m - length com_st) <=? e_com c - s_com c)
   | None => false
   end).

(** The comment as dump_line sees it; one that ends before it starts is not
    empty. *)
Definition seen (c : comst) : bytes := if s_com c <=? e_com c then text c else [32].

Definition dump_line : C () :=
  let! c := get in
  if printable c then
    modify (fun c => c <| glob := glob c <| com := seen c |> |>) ;;
    on_glob IndentIo.dump_line ;;
    com_reset
  else mundef.

(** fill_buffer dumps the line when it meets a control comment: something was
    buffered before and nothing is after. *)
Definition fill_buffer : C () :=
  modify (fun c => c <| glob := glob c <| com := seen c |> |>) ;;
  let! c := get in
  on_glob IndentIo.fill_buffer ;;
  let! g := gets glob in
  if negb (empty_line (glob c)) && empty_line g then
    if printable c then com_reset else mundef
  else ret tt.

(** ** The input *)

Definition peek : C Z := on_glob (IndentLexi.peek 0).
Definition skip : C () := on_glob (IndentLexi.skip 1).

Definition refill : C () :=
  let! g := gets glob in
  if (length (in_buffer g) <=? buf_ptr g)%nat then fill_buffer else ret tt.

(** [if (++buf_ptr >= buf_end) fill_buffer()]. *)
Definition advance : C () := skip ;; refill.

(** [while ( *buf_ptr == ' ' || *buf_ptr == TAB) buf_ptr++]: it stops at the
    newline of the line at the latest. *)
Fixpoint skip_blanks (fuel : nat) : C () :=
  let! c := peek in
  if isblank c then
    match fuel with
    | O => mundef
    | S f => skip ;; skip_blanks f
    end
  else ret tt.

Definition line_rounds : C nat := gets (fun c => S (length (in_buffer (glob c)))).

(** ** Where the comment goes *)

(** Whether it is boxed, its column, the right margin and whether its delimiters
    get lines of their own: (adj_max_col, break_delim). *)
Definition place : C (Z * bool) :=
  let! g := gets glob in
  let o := opt g in
  if truth (col_1 (ps g)) && negb (truth (format_col1_comments o)) then
    setp box_com 1 ;; setp com_col 1 ;; ret (max_col o, false)
  else
    let! ch := peek in
    let boxed := (ch =? 45) || (ch =? 42) || ((ch =? 10) && negb (truth (format_block_comments o))) in
    let break_delim := truth (comment_delimiter_on_blankline o) && negb boxed in
    (if boxed then setp box_com 1 else ret tt) ;;
    match lab g, code g with
    | [], [] =>
        let col := (ind_level (ps g) - unindent_displace o) * ind_size o + 1 in
        setp com_col (if col <=? 1 then 1 + (if truth (format_col1_comments o) then 0 else 1) else col) ;;
        ret (block_comment_max_col o, break_delim)
    | _, _ =>
        let! target_col :=
          match code g, lab g with
          | _ :: _, _ => on_glob (let! t := compute_code_target in m_count_spaces t (code g))
          | [], _ :: _ => on_glob (let! t := compute_label_target in m_count_spaces t (lab g))
          | [], [] => ret 1
          end in
        let col := if truth (decl_on_line (ps g)) || (ind_level (ps g) =? 0) then decl_com_ind o else com_ind o in
        let! col := (if col <=? target_col then of_opt (next_tab (tabsize o) target_col) else ret col) in
        setp com_col col ;;
        ret (if max_col o <? col + 24 then col + 24 else max_col o, false)
    end.

(** The indentation the comment had; the blanks before the text. *)
Definition measure_indent : C () :=
  let! g := gets glob in
  if truth (box_com (ps g)) then
    if (buf_ptr g <? 2)%nat then mundef
    else
      let! n := on_glob (m_count_spaces 1 (take (buf_ptr g - 2) (in_buffer g))) in
      setp n_comment_delta (1 - n)
  else
    setp n_comment_delta 0 ;;
    let! n := line_rounds in skip_blanks n.

(** The opening delimiter. *)
Definition open_comment : C () :=
  setp comment_delta 0 ;;
  put 47 ;; put 42 ;;
  let! ch := peek in
  let! box := getp box_com in
  if negb (ch =? 32) && negb (truth box) then put 32 else ret tt.

(** The scan for the end of a one-line comment: the number of bytes up to and
    including its star and slash, or none on this line.  The line ends in a
    newline, so the test against buf_end in the loop is never true of a byte the
    loop can read. *)
Fixpoint closing (k : nat) (s : bytes) : option (option nat) :=
  match s with
  | [] => None
  | x :: s =>
      if (x =? 0) || (x =? 10) then Some None
      else if x =? 42 then
        match s with
        | [] => None
        | y :: _ => if y =? 47 then Some (Some (k + 2)%nat) else closing (S k) s
        end
      else closing (S k) s
  end.

(** A one-liner that does not wrap keeps its delimiters. *)
Definition one_liner (adj_max_col : Z) (break_delim : bool) : C bool :=
  if break_delim then
    let! g := gets glob in
    let rest := drop (buf_ptr g) (in_buffer g) in
    let! o := of_opt (closing 0 rest) in
    match o with
    | Some k =>
        let! n := on_glob (m_count_spaces (com_col (ps g)) (take k rest)) in
        ret (negb (n <=? adj_max_col))
    | None => ret true
    end
  else ret false.

(** [*e_com++ = ' ', *e_com++ = '*', *e_com++ = ' '] of a continued comment. *)
Definition put_star : C () := put 32 ;; put 42 ;; put 32.

Definition star_cont : C () :=
  let! box := getp box_com in
  let! sc := geto star_comment_cont in
  if negb (truth box) && truth sc then put_star else ret tt.

(** The opening delimiter on a line of its own: the rest of the comment starts
    where it would have followed it. *)
Definition break_open (break_delim : bool) : C () :=
  if break_delim then
    let! t := gets e_com in
    let! s := gets s_com in
    modify (fun c => c <| e_com := s + 2 |>) ;;
    store (s + 2) 0 ;;
    let! g := gets glob in
    (if truth (blanklines_before_blockcomments (opt g)) && negb (last_token (ps g) =? lbrace)
     then on_glob (modify (fun g => g <| prefix_blankline_requested := 1 |>)) else ret tt) ;;
    dump_line ;;
    modify (fun c => c <| e_com := t |> <| s_com := t |>) ;;
    star_cont
  else ret tt.

(** ** Copying *)

(** A form feed. *)
Definition copy_form_feed : C () :=
  CHECK_SIZE_COM 3 ;;
  let! box := getp box_com in
  if truth box then advance ;; put 12
  else
    setp use_ff 1 ;;
    dump_line ;;
    modify (fun c => c <| last_bl := None |>) ;;
    star_cont ;;
    skip ;;
    let! n := line_rounds in skip_blanks n.

(** How the text goes on after a newline. *)
Inductive after := Unterminated | Closed | GoesOn.

(** The blanks at the start of the next line, and one star among them; the slash
    after that star ends the comment. *)
Fixpoint next_line (fuel : nat) (nstar : Z) : C after :=
  advance ;;
  let! ch := peek in
  let! (closed, nstar) :=
    (if ch =? 42 then
       if 0 <=? nstar - 1 then
         advance ;;
         let! ch := peek in ret (ch =? 47, nstar - 1)
       else ret (false, nstar - 1)
     else ret (false, nstar)) in
  if closed then ret Closed
  else
    let! ch := peek in
    if isblank ch then
      match fuel with
      | O => mundef
      | S f => next_line f nstar
      end
    else ret GoesOn.

(** printf on the standard output, which is also the program's output unless a
    file was named. *)
Definition say (msg : bytes) : C () :=
  modify (fun c => c <| said := said c ++ msg |>) ;;
  on_glob (modify (fun g => if output_is_stdout g then g <| output := output g ++ msg |> else g)).

(** A newline in a boxed comment, or one after a newline, ends the line. *)
Definition end_line : C () :=
  let! c := get in
  (if s_com c =? e_com c then put 32 else ret tt) ;;
  let! box := getp box_com in
  let! c := get in
  (if negb (truth box) && (3 <? e_com c - s_com c) then
     dump_line ;;
     let! sc := geto star_comment_cont in
     if truth sc then put_star else ret tt
   else ret tt) ;;
  dump_line ;;
  star_cont.

(** Any other is a blank of the text. *)
Definition soft_newline : C () :=
  setp last_nl 1 ;;
  let! b := before_end in
  if isblank b then modify (fun c => c <| last_bl := Some (e_com c - 1) |>)
  else modify (fun c => c <| last_bl := Some (e_com c) |>) ;; put 32.

Definition copy_newline : C after :=
  let! g := gets glob in
  if had_eof g then
    say (bs "Unterminated comment" ++ [10]) ;; dump_line ;; ret Unterminated
  else
    modify (fun c => c <| last_bl := None |>) ;;
    CHECK_SIZE_COM 4 ;;
    (if truth (box_com (ps g)) || truth (last_nl (ps g)) then end_line else soft_newline) ;;
    on_glob (modify (fun g => g <| line_no ::= Z.succ |>)) ;;
    let! box := getp box_com in
    if truth box then advance ;; ret GoesOn
    else
      let! g := gets glob in next_line (rounds g) 1.

(** [memchr("*\n\r\b\t", ch, 6)]: the terminating NUL of the string is among the
    six bytes. *)
Definition stops (ch : Z) : bool :=
  (ch =? 42) || (ch =? 10) || (ch =? 13) || (ch =? 8) || (ch =? 9) || (ch =? 0).

(** The do-while loop over the characters of a run of text: the column reached. *)
Fixpoint copy_run (fuel : nat) (adj_max_col now_col : Z) : C Z :=
  CHECK_SIZE_COM 1 ;;
  let! ch := peek in
  let! e := gets e_com in
  store e ch ;;
  skip ;;
  refill ;;
  let! e := gets e_com in
  let! v := load e in
  (if isblank v then modify (fun c => c <| last_bl := Some e |>) else ret tt) ;;
  modify (fun c => c <| e_com := e + 1 |>) ;;
  let! ch := peek in
  let! b := gets last_bl in
  if negb (stops ch) && ((now_col + 1 <=? adj_max_col) || negb (bool_decide (is_Some b))) then
    match fuel with
    | O => mundef
    | S f => copy_run f adj_max_col (now_col + 1)
    end
  else ret (now_col + 1).

(** The bytes from [i] up to the next NUL. *)
Fixpoint move_back (fuel : nat) (t_ptr : Z) : C () :=
  let! v := load t_ptr in
  if v =? 0 then ret tt
  else
    match fuel with
    | O => mundef
    | S f =>
        (if isblank v then modify (fun c => c <| last_bl := Some (e_com c) |>) else ret tt) ;;
        put v ;;
        move_back f (t_ptr + 1)
    end.

Fixpoint skip_moved (fuel : nat) (t_ptr : Z) : C Z :=
  let! v := load t_ptr in
  if isblank v then
    match fuel with
    | O => mundef
    | S f => skip_moved f (t_ptr + 1)
    end
  else ret t_ptr.

(** The line is too long: it is printed up to its last blank and the rest moved
    to the next one. *)
Definition break_line : C () :=
  let! b := gets last_bl in
  match b with
  | None => dump_line ;; star_cont
  | Some b =>
      let! e := gets e_com in
      store e 0 ;;
      if b =? dangling then mundef
      else
        modify (fun c => c <| e_com := b |>) ;;
        dump_line ;;
        star_cont ;;
        let! n := gets (fun c => length (combuf c)) in
        let! t_ptr := skip_moved n (b + 1) in
        modify (fun c => c <| last_bl := None |>) ;;
        move_back n t_ptr
  end.

(** [e_com[-1] > ' ']: a char is signed. *)
Definition copy_text (adj_max_col : Z) : C () :=
  let! c := get in
  let! now_col := on_glob (m_count_spaces (com_col (ps (glob c))) (text c)) in
  let! now_col := copy_run (rounds (glob c)) adj_max_col now_col in
  setp last_nl 0 ;;
  let! box := getp box_com in
  if (adj_max_col <? now_col) && negb (truth box) then
    let! v := before_end in
    if 32 <? sint 8 v then break_line else ret tt
  else ret tt.

(** The closing delimiter; [decl] is the value of just_saw_decl that is given
    back. *)
Definition end_of_comment (break_delim : bool) (decl : Z) : C () :=
  advance ;;
  (if break_delim then
     let! c := get in
     (if s_com c + 3 <? e_com c then dump_line else modify (fun c => c <| s_com := e_com c |>)) ;;
     put 32
   else ret tt) ;;
  let! v := before_end in
  let! box := getp box_com in
  (if negb (isblank v) && negb (truth box) then put 32 else ret tt) ;;
  put 42 ;; put 47 ;;
  let! e := gets e_com in
  store e 0 ;;
  setp just_saw_decl decl.

(** The loop over the characters of the comment. *)
Fixpoint copy_comment (fuel : nat) (adj_max_col : Z) (break_delim : bool) (decl : Z) : C () :=
  match fuel with
  | O => mundef
  | S f =>
      let! ch := peek in
      if ch =? 12 then copy_form_feed ;; copy_comment f adj_max_col break_delim decl
      else if ch =? 10 then
        let! r := copy_newline in
        match r with
        | Unterminated => ret tt
        | Closed => end_of_comment break_delim decl
        | GoesOn => copy_comment f adj_max_col break_delim decl
        end
      else if ch =? 42 then
        advance ;;
        CHECK_SIZE_COM 4 ;;
        let! ch := peek in
        if ch =? 47 then end_of_comment break_delim decl
        else put 42 ;; copy_comment f adj_max_col break_delim decl
      else copy_text adj_max_col ;; copy_comment f adj_max_col break_delim decl
  end.

(** The callers see the comment as the text of the buffer. *)
Definition publish : C () := fun c => SRet tt (c <| glob := glob c <| com := text c |> |>).

(** Every round of the loop uses a character of the input. *)
Definition pr_comment : C () :=
  modify (fun c => c <| last_bl := None |>) ;;
  let! decl := getp just_saw_decl in
  setp just_saw_decl 0 ;;
  setp box_com 0 ;;
  on_glob (modify (fun g => g <| ps := ps g <| out_coms ::= Z.succ |> |>)) ;;
  let! (adj_max_col, break_delim) := place in
  measure_indent ;;
  open_comment ;;
  let! break_delim := one_liner adj_max_col break_delim in
  break_open break_delim ;;
  let! g := gets glob in
  copy_comment (rounds g) adj_max_col break_delim decl ;;
  publish.

End IndentComment.
