(* ===== verification/IndentFill.v ===== *)
(** * indent(1): the filling of comments

    Proofs about pr_comment.  The main results are about comments that are not
    boxed, continued with stars and whose delimiters are not moved to lines of
    their own: pr_comment returns, it never leaves the comment buffer, and the
    text it prints and keeps is the text of the comment, up to blanks, newlines
    and stars.  The examples at the end show what happens outside of these
    conditions. *)

From S2P Require Import Prelude Monad IndentGlobs IndentIo IndentLexi IndentComment.
From stdpp Require Import base list numbers.
From Stdlib Require Import ZArith Lia SpecFloat.

Import IndentIo IndentLexi IndentComment.

Open Scope Z_scope.

Module IndentFill.

Local Open Scope ind_scope.

(** ** Ink

    What filling must not change: the bytes that are not white space, stars or
    NULs. *)

Definition inked (x : Z) : bool := negb (isspace x) && negb (x =? 42) && negb (x =? 0).
Definition ink (s : bytes) : bytes := List.filter inked s.

Lemma ink_app s t : ink (s ++ t) = ink s ++ ink t.
Proof. apply List.filter_app. Qed.

Lemma ink_none s : forallb (fun x => negb (inked x)) s = true -> ink s = [].
Proof. induction s as [|x s IH]; cbn; [done|]. intros H. bsimp. rewrite H. auto. Qed.

Lemma ink_replicate n x : inked x = false -> ink (replicate n x) = [].
Proof. intros Hx. induction n as [|n IH]; [done|]. cbn. by rewrite Hx. Qed.

Lemma ink_cons x s : ink (x :: s) = (if inked x then [x] else []) ++ ink s.
Proof. unfold ink. cbn. by destruct (inked x). Qed.

Lemma ink_reverse s : ink (reverse s) = reverse (ink s).
Proof.
  induction s as [|x s IH]; [done|]. rewrite reverse_cons, ink_app, IH, !ink_cons, reverse_app, app_nil_r.
  by destruct (inked x).
Qed.

Lemma isspace_no_ink x : isspace x = true -> inked x = false.
Proof. unfold inked. by intros ->. Qed.

Lemma isblank_space x : isblank x = true -> isspace x = true.
Proof. unfold isblank, isspace. intros H. destruct (x =? 32); [done|]. cbn in *. bsimp. subst x. done. Qed.

Lemma ink_span (f : Z -> bool) s :
  (forall x, f x = true -> inked x = false) -> ink (snd (span f s)) = ink s.
Proof.
  intros Hf. induction s as [|x s IH]; [done|]. cbn. destruct (f x) eqn:E; [|done].
  destruct (span f s). cbn in *. by rewrite (Hf x E).
Qed.

Lemma ink_rtrim (f : Z -> bool) s :
  (forall x, f x = true -> inked x = false) -> ink (rtrim f s) = ink s.
Proof. intros Hf. unfold rtrim. by rewrite ink_reverse, ink_span, ink_reverse, reverse_involutive. Qed.

Lemma ink_pad b ts cur target : pad_shape ts cur target b -> ink b = [].
Proof. intros (n & m & -> & _). by rewrite ink_app, !ink_replicate. Qed.

Lemma ink_code_bytes t s : forallb (fun x => negb (x =? 128)) s = true -> code_bytes t s = s.
Proof.
  unfold code_bytes. induction s as [|x s IH]; cbn; [done|]. intros H. bsimp.
  replace (x =? 128) with false by lia. cbn. by rewrite IH.
Qed.

Lemma ink_com_tabs ts t s : ink (snd (skip_com_tabs ts t s)) = ink s.
Proof.
  revert t. induction s as [|x s IH]; intros t; cbn; [done|]. destruct (x =? 9) eqn:E; [|done].
  apply Z.eqb_eq in E as ->. by rewrite IH.
Qed.

Lemma ink_raise ts t s t' s' : raise_target ts t s = Some (t', s') -> ink s' = ink s.
Proof.
  revert t. induction s as [|x s IH]; intros t; cbn [raise_target]; destruct (t <=? 0); try by intros [= _ <-].
  rewrite ink_cons. destruct (x =? 32) eqn:E1; [apply Z.eqb_eq in E1 as ->; apply IH|].
  destruct (x =? 9) eqn:E2; [|intros [= _ <-]; by rewrite ink_cons].
  apply Z.eqb_eq in E2 as ->. destruct (next_tab ts t); [apply IH|done].
Qed.

Lemma ink_read_line inp : let '(l, rest, eof) := read_line inp in ink l ++ ink rest = ink inp.
Proof.
  induction inp as [|x inp IH]; [done|]. cbn [read_line]. destruct (x =? 10) eqn:E; [by apply Z.eqb_eq in E as ->|].
  destruct (read_line inp) as [[l rest] eof]. destruct (x =? 0) eqn:E0.
  - apply Z.eqb_eq in E0 as ->. by rewrite ink_cons.
  - by rewrite !ink_cons, <- IH, app_assoc.
Qed.

(** ** What a dump prints *)

(** The parts of the state a dump leaves alone. *)
Definition stays (g g' : globals) : Prop :=
  box_com (ps g') = box_com (ps g) /\ output_is_stdout g' = output_is_stdout g /\
  (comment_open g = 0 -> comment_open g' = 0).

#[global] Instance stays_preorder : PreOrder stays.
Proof. split; [done|]. unfold stays. intros g1 g2 g3 H1 H2. destruct_and!. split_and!; [congruence..|auto]. Qed.

(** No comment of indent's own is open; the label is not a directive and the code
    holds no placeholder for a column. *)
Definition clean_label (g : globals) : Prop := comment_open g = 0 /\ hd0 (lab g) <> 35.
Definition clean_code (g : globals) : Prop :=
  comment_open g = 0 /\ forallb (fun x => negb (x =? 128)) (code g) = true.

Lemma wp_close_comment_stays g :
  wp close_comment (fun _ g' => io_wf g -> io_wf g' /\ stays g g' /\ lab g' = lab g /\ code g' = code g /\ com g' = com g /\
    ps g' = ps g /\ (comment_open g = 0 -> g' = g)) noexit g.
Proof.
  unfold close_comment. wp_steps. apply wp_if; intros E; wp_steps.
  - apply wp_puts. intros []. split; [by split|]. split_and!; try done.
    intros H0. unfold truth in E. by rewrite H0 in E.
  - done.
Qed.

Lemma hd0_rtrim f s : hd0 s <> 35 -> hd0 (rtrim f s) <> 35.
Proof.
  intros H. destruct (rtrim_prefix f s) as [k E]. destruct (rtrim f s) as [|x t]; [done|].
  rewrite E in H. done.
Qed.

Lemma dump_label_ink g :
  io_wf g ->
  wp dump_label (fun _ g' => stays g g' /\ (clean_label g ->
    ink (output g') = ink (output g) ++ ink (lab g))) noexit g.
Proof.
  intros Hwf. unfold dump_label. wp_steps. destruct (lab g) as [|x l] eqn:El.
  { wp_steps. split; [done|]. intros _. by rewrite app_nil_r. }
  wp_steps. eapply wp_mono; [apply wp_close_comment_stays|]. intros [] g1 H1.
  destruct (H1 Hwf) as (Hwf1 & St & L1 & _ & _ & _ & Heq). wp_steps.
  set (g2 := g1 <| lab := rtrim isblank (lab g1) |>).
  assert (Hwf2 : io_wf g2) by (by destruct Hwf1).
  eapply wp_mono; [by apply wp_label_target|]. intros target ? ->. wp_steps.
  apply wp_pad_output; [done|]. intros pb Hpb. wp_steps.
  apply wp_if; intros E0; apply wp_puts; wp_steps; (apply wp_count_spaces; [by destruct Hwf2|]); intros col _;
    (split; [done|]); intros [Ho Hl]; rewrite El in Hl.
  - cbn -[rtrim hd0] in E0. rewrite L1, El in E0. bsimp. by destruct (hd0_rtrim isblank (x :: l) Hl).
  - cbn -[ink rtrim]. rewrite (Heq Ho), El, !ink_app, (ink_pad _ _ _ _ Hpb), app_nil_r, ink_rtrim; [done|].
    eauto using isspace_no_ink, isblank_space.
Qed.

Lemma dump_code_ink cur g :
  io_wf g ->
  wp (dump_code cur) (fun _ g' => stays g g' /\ (clean_code g ->
    ink (output g') = ink (output g) ++ ink (code g))) noexit g.
Proof.
  intros Hwf. unfold dump_code. wp_steps. destruct (code g) as [|x l] eqn:El.
  { wp_steps. split; [done|]. intros _. by rewrite app_nil_r. }
  wp_steps. eapply wp_mono; [apply wp_close_comment_stays|]. intros [] g1 H1.
  destruct (H1 Hwf) as (Hwf1 & St & _ & C1 & _ & _ & Heq). wp_steps.
  eapply wp_mono; [by apply wp_code_target|]. intros target ? ->. wp_steps.
  destruct (convert_parens_total (Z.to_nat (p_l_follow (ps g1))) 0 target (paren_indents (ps g1)))
    as (l' & El' & Hl'); [lia|rewrite (wf_parens _ Hwf1); pose proof (wf_follow _ Hwf1); lia|].
  wp_some El'. set (g2 := g1 <| ps := ps g1 <| paren_indents := l' |> |>).
  assert (Hwf2 : io_wf g2) by (destruct Hwf1; split; cbn; congruence).
  apply wp_pad_output; [done|]. intros pb Hpb. wp_steps. apply wp_puts. wp_steps.
  apply wp_count_spaces; [by destruct Hwf2|]. intros col _. split; [done|]. intros [Ho Hc]. rewrite El in Hc.
  cbn -[ink code_bytes]. by rewrite (Heq Ho), !ink_app, (ink_pad _ _ _ _ Hpb), app_nil_r, ink_code_bytes.
Qed.

Lemma dump_comment_ink cur g :
  io_wf g ->
  wp (dump_comment cur) (fun _ g' => stays g g' /\ ink (output g') = ink (output g) ++ ink (com g)) noexit g.
Proof.
  intros Hwf. unfold dump_comment. wp_steps. destruct (com g) as [|x l] eqn:Ec.
  { wp_steps. by rewrite app_nil_r. }
  pose proof (ink_com_tabs (tabsize (opt g)) (com_col (ps g) + comment_delta (ps g)) (x :: l)) as Ht.
  destruct (skip_com_tabs _ _ _) as [t s] eqn:Es. cbn [snd] in Ht. wp_steps.
  destruct (raise_target_total (tabsize (opt g)) t s) as ([t' s'] & Er); [apply Hwf|]. wp_some Er.
  apply ink_raise in Er. rewrite Ht in Er.
  assert (Hrest : forall col g1, io_wf g1 -> stays g g1 -> ink (output g1) = ink (output g) ->
    wp (m_pad_output col t' ;; puts (rtrim isspace s') ;;
        modify (fun g => g <| ps := ps g <| comment_delta := n_comment_delta (ps g) |> <| com_lines ::= Z.succ |> |>))
      (fun _ g' => stays g g' /\ ink (output g') = ink (output g) ++ ink (x :: l)) noexit g1).
  { intros col g1 Hwf1 Hst Ho. wp_steps. apply wp_pad_output; [done|]. intros pb Hpb. wp_steps. apply wp_puts. wp_steps.
    split; [by etrans; [exact Hst|]|]. cbn -[ink]. rewrite !ink_app, (ink_pad _ _ _ _ Hpb), app_nil_r, ink_rtrim, Er, Ho; [done|].
    apply isspace_no_ink. }
  apply wp_if; intros _; unfold putc; wp_steps; apply wp_bind_inv, Hrest; try done; [by destruct Hwf|].
  cbn -[ink]. by rewrite ink_app, app_nil_r.
Qed.

Lemma dump_newline_ink g :
  wp dump_newline (fun _ g' => stays g g' /\ ink (output g') = ink (output g)) noexit g.
Proof.
  unfold dump_newline. wp_steps. assert (H : forall x, inked x = false -> ink (output g ++ [x]) = ink (output g)).
  { intros x Hx. rewrite ink_app. cbn. by rewrite Hx, app_nil_r. }
  destruct (truth (use_ff (ps g))); unfold putc; wp_steps; (apply wp_if; intros _; wp_steps; (split; [done|by apply H])).
Qed.

(** What a printed line adds to the output is its label, its code and its
    comment. *)
Lemma dump_text_ink g :
  io_wf g ->
  wp dump_text (fun _ g' => stays g g' /\ (clean_label g -> clean_code g ->
    ink (output g') = ink (output g) ++ ink (lab g) ++ ink (code g) ++ ink (com g))) noexit g.
Proof.
  intros Hwf. unfold dump_text. wp_steps. unfold wp at 1. rewrite dump_prepare_run.
  destruct (at_text_fields g) as ([H0 Ho] & Hl & Hc & Hm & Hff & Hop).
  assert (Hwf0 : io_wf (at_text g)) by (by eapply same_layout_wf).
  assert (Hst : stays g (at_text g)).
  { unfold at_text. cbn -[due_blanklines]. destruct (ind_level (ps g) =? 0); cbn; destruct (lab g), (code g); done. }
  assert (Ho0 : ink (output (at_text g)) = ink (output g)) by (by rewrite Ho, ink_app, ink_replicate, app_nil_r).
  unfold clean_label, clean_code. rewrite <- Ho0, <- Hl, <- Hc, <- Hm, <- Hop. set (g0 := at_text g) in *. clearbody g0. wp_steps.
  eapply wp_mono; [apply wp_and; [by apply dump_label_ink|by apply wp_dump_label]|].
  intros col1 g1 [(S1 & O1) (b1 & H1 & _ & C1 & M1 & _)]. wp_steps.
  set (g1' := g1 <| ps := ps g1 <| pcase := 0 |> |>).
  assert (Hwf1 : io_wf g1') by (destruct (same_layout_wf _ _ (proj1 H1) Hwf0); by split).
  eapply wp_mono; [apply wp_and; [by apply dump_code_ink|by apply wp_dump_code]|].
  intros col2 g2 [(S2 & O2) (b2 & H2 & M2 & _)]. wp_steps.
  assert (Hwf2 : io_wf g2) by (by eapply same_layout_wf; [apply H2|]).
  eapply wp_mono; [by apply dump_comment_ink|]. intros [] g3 (S3 & O3).
  eapply wp_mono; [apply dump_newline_ink|]. intros [] g4 (S4 & O4).
  split; [etrans; [exact Hst|]; etrans; [exact S1|]; etrans; [exact S2|]; etrans; [exact S3|exact S4]|].
  intros Hcl Hcc. rewrite O4, O3, O2, M2.
  - cbn -[ink]. by rewrite (O1 Hcl), C1, M1, <- !app_assoc.
  - split; [apply S1, Hcl|]. cbn. rewrite C1. apply Hcc.
Qed.

Lemma dump_line_ink g :
  io_wf g ->
  wp IndentIo.dump_line (fun _ g' => stays g g' /\ (clean_label g -> clean_code g -> inhibit_formatting g = 0 ->
    ink (output g') = ink (output g) ++ ink (lab g) ++ ink (code g) ++ ink (com g))) noexit g.
Proof.
  intros Hwf. unfold IndentIo.dump_line. wp_steps. destruct (at_proc_same g) as [Hs Ho].
  assert (Hwf1 : io_wf (at_proc g)) by (by eapply same_layout_wf).
  assert (Hst : stays g (at_proc g) /\ lab (at_proc g) = lab g /\ code (at_proc g) = code g /\ com (at_proc g) = com g /\
    comment_open (at_proc g) = comment_open g /\ inhibit_formatting (at_proc g) = inhibit_formatting g).
  { unfold at_proc. case_if; done. }
  destruct Hst as (Hst & El & Ec & Em & Eo & Ei). rewrite app_nil_r in Ho.
  unfold clean_label, clean_code. rewrite <- Ho, <- El, <- Ec, <- Em, <- Eo, <- Ei. generalize dependent (at_proc g). intros g1. intros.
  assert (Hbody : wp dump_body (fun _ g' => stays g1 g' /\ (clean_label g1 -> clean_code g1 -> inhibit_formatting g1 = 0 ->
    ink (output g') = ink (output g1) ++ ink (lab g1) ++ ink (code g1) ++ ink (com g1))) noexit g1).
  { unfold dump_body. wp_steps. destruct (empty_line g1) eqn:Ee.
    - unfold empty_line in Ee. destruct (code g1), (lab g1), (com g1); try done.
      apply wp_if; intros _; wp_steps; (split; [done|]); intros _ _ _; cbn -[ink]; by rewrite app_nil_r.
    - apply wp_if; intros E; bsimp.
      + eapply wp_mono; [by apply dump_text_ink|]. intros [] g2 [S2 O2]. split; [done|]. intros A B _. by apply O2.
      + wp_steps. split; [done|]. intros _ _ Hi. by rewrite Hi in E. }
  eapply wp_mono; [exact (wp_and _ _ _ _ _ Hbody (wp_dump_body _ Hwf1))|].
  intros [] g2 [[S2 O2] (b & [Hb _] & _)]. pose proof (same_layout_wf _ _ Hb Hwf1) as Hwf2. unfold dump_reset. wp_steps.
  apply wp_if; intros E; wp_steps; cbn in E; bsimp.
  - destruct (aget_in (paren_indents (ps g2)) (p_l_follow (ps g2) - 1)) as [v Ev].
    { rewrite (wf_parens _ Hwf2). pose proof (wf_follow _ Hwf2). lia. }
    wp_some Ev. split; [by etrans; [exact Hst|]; etrans; [exact S2|]|exact O2].
  - split; [by etrans; [exact Hst|]; etrans; [exact S2|]|exact O2].
Qed.

(** ** The input *)

(** No line of the input, and no line that starts inside of one, is a control
    comment or a message of indent's own. *)
Fixpoint quiet (inp : bytes) : bool :=
  match inp with
  | [] => true
  | _ :: rest => plain_line (read_line inp).1.1 && quiet rest
  end.

Lemma quiet_line inp l rest eof :
  quiet inp = true -> read_line inp = (l, rest, eof) -> plain_line l = true /\ quiet rest = true.
Proof.
  intros Hq E. split.
  { destruct inp as [|x inp]; [by injection E as <- <- <-|]. cbn [quiet] in Hq. rewrite E in Hq. by bsimp. }
  revert l E. induction inp as [|x inp IH]; intros l; [by intros [= <- <- <-]|].
  cbn [quiet] in Hq. apply andb_true_iff in Hq as [_ Hq]. cbn [read_line]. destruct (x =? 10); [by intros [= <- <- <-]|].
  destruct (read_line inp) as [[l' rest'] eof'] eqn:E'. intros [= _ <- <-]. by eapply IH.
Qed.

(** [buf_ptr++]. *)
Definition next (g : globals) : globals := g <| buf_ptr := (buf_ptr g + 1)%nat |>.

(** What is still to be read. *)
Definition stream (g : globals) : bytes := drop (buf_ptr g) (in_buffer g) ++ input g.

Lemma stream_next g :
  lx_ok g -> stream g = cur g :: stream (next g).
Proof. intros H. unfold stream. cbn. by rewrite (drop_cur g H), Nat.add_1_r. Qed.

Lemma avail_rounds g : lx_ok g -> (avail g <= rounds g)%nat.
Proof. intros H. unfold avail, rounds. rewrite (lx_save _ H). destruct (had_eof g); lia. Qed.

(** At the end of a line the next one is read as it is. *)
Lemma fill_quiet g :
  lx_ok g -> cur g = 10 -> had_eof g = false -> quiet (input g) = true ->
  exists l rest eof, read_line (input g) = (l, rest, eof) /\
    IndentIo.fill_buffer (next g) = SRet tt (echoed l (got_line l rest eof g)) /\
    quiet rest = true.
Proof.
  intros H Hc He Hq. destruct (read_line (input g)) as [[l rest] eof] eqn:E.
  destruct (quiet_line _ _ _ _ Hq E) as [Hp Hr]. exists l, rest, eof. split_and!; [done| |done].
  unfold IndentIo.fill_buffer, bind, get. change (bp_save (next g)) with (bp_save g). rewrite (lx_save _ H).
  by rewrite (read_buffer_plain _ _ l rest eof).
Qed.

(** ** The buffer *)

(** The buffer starts at its first byte and holds [T]. *)
Record holds (c : comst) (T : bytes) : Prop := {
  h_s : s_com c = 1;
  h_e : e_com c = 1 + Z.of_nat (length T);
  h_buf : exists x R, combuf c = x :: T ++ R;
  h_len : Z.of_nat (length (combuf c)) <= l_com c + 5;
  h_l : 195 <= l_com c
}.

Lemma holds_text c T : holds c T -> text c = T.
Proof.
  intros [Hs He (x & R & Hb) _ _]. unfold text, slice. rewrite Hs, He, Hb.
  replace (Z.to_nat (1 + Z.of_nat (length T) - 1)) with (length T) by lia.
  change (drop (Z.to_nat 1) (x :: T ++ R)) with (T ++ R). by rewrite take_app_length.
Qed.

Lemma holds_seen c T : holds c T -> seen c = T.
Proof.
  intros H. unfold seen. pose proof (h_s _ _ H). pose proof (h_e _ _ H).
  replace (s_com c <=? e_com c) with true by lia. by apply holds_text.
Qed.

(** What only appends to the text: everything else is as it was. *)
Record wrote (c c' : comst) : Prop := {
  w_glob : glob c' = glob c;
  w_bl : last_bl c' = last_bl c;
  w_said : said c' = said c;
  w_l : l_com c' = l_com c;
  w_e : e_com c <= e_com c';
  w_rest : drop (Z.to_nat (e_com c')) (combuf c') = drop (Z.to_nat (e_com c')) (combuf c)
}.

#[global] Instance wrote_preorder : PreOrder wrote.
Proof.
  split; [by split|]. intros c1 c2 c3 [A1 A2 A3 A4 A5 A6] [B1 B2 B3 B4 B5 B6]. split; try congruence; [lia|].
  rewrite B6. replace (Z.to_nat (e_com c3)) with (Z.to_nat (e_com c2) + (Z.to_nat (e_com c3) - Z.to_nat (e_com c2)))%nat by lia.
  by rewrite <- !drop_drop, A6.
Qed.

Lemma wp_run_eq {S A} (m : ST S A) (a : A) (s s' : S) Q X : m s = SRet a s' -> Q a s' -> wp m Q X s.
Proof. unfold wp. by intros ->. Qed.

Lemma wp_field {A} (f : comst -> A) (Q : A -> comst -> Prop) X c : Q (f c) c -> wp (gets f) Q X c.
Proof. done. Qed.

Lemma wp_on_glob {A} (m : M A) (Q : A -> comst -> Prop) c :
  wp m (fun a g => Q a (c <| glob := g |>)) noexit (glob c) -> wp (on_glob m) Q noexit c.
Proof. unfold wp, on_glob. by destruct (m (glob c)). Qed.

Lemma wp_store i v (Q : () -> comst -> Prop) X c :
  0 <= i < l_com c + 5 -> i <= Z.of_nat (length (combuf c)) ->
  Q tt (c <| combuf := take (Z.to_nat i) (combuf c) ++ v :: drop (S (Z.to_nat i)) (combuf c) |>) ->
  wp (store i v) Q X c.
Proof.
  intros H1 H2 HQ. unfold store. wp_steps. replace ((0 <=? i) && (i <? l_com c + 5) && (i <=? Z.of_nat (length (combuf c)))) with true by lia.
  by wp_steps.
Qed.

(** The byte at the end of the text. *)
Lemma stored_end c T v :
  holds c T -> e_com c < l_com c + 5 ->
  0 <= e_com c < l_com c + 5 /\ e_com c <= Z.of_nat (length (combuf c)) /\
  exists x R, combuf c = x :: T ++ R /\
    take (Z.to_nat (e_com c)) (combuf c) ++ v :: drop (S (Z.to_nat (e_com c))) (combuf c) = x :: T ++ v :: tail R.
Proof.
  intros [Hs He (x & R & Hb) Hl Hl5] Hroom. rewrite He, Hb in *. cbn [length] in *. rewrite length_app in *.
  split; [lia|]. split; [lia|]. exists x, R. split; [done|].
  replace (Z.to_nat (1 + Z.of_nat (length T))) with (S (length T)) by lia. cbn. rewrite take_app_length. f_equal. f_equal.
  rewrite drop_app_ge by lia. replace (S (length T) - length T)%nat with 1%nat by lia. by destruct R.
Qed.

Lemma stored_length {A} (l : list A) (i : nat) v : (i <= length l)%nat ->
  length (take i l ++ v :: drop (S i) l) = Nat.max (length l) (S i).
Proof. intros H. rewrite length_app, length_take. cbn. rewrite length_drop. lia. Qed.

Lemma wp_store_end v (Q : () -> comst -> Prop) X c T :
  holds c T -> e_com c < l_com c + 5 ->
  (forall c', holds c' T -> e_com c' = e_com c -> glob c' = glob c -> last_bl c' = last_bl c -> said c' = said c ->
     l_com c' = l_com c ->
     (exists x R, combuf c = x :: T ++ R /\ combuf c' = x :: T ++ v :: tail R) -> Q tt c') ->
  wp (store (e_com c) v) Q X c.
Proof.
  intros H Hr HQ. destruct (stored_end c T v H Hr) as (H1 & H2 & x & R & Hb & E).
  apply wp_store; [done|done|]. apply HQ; try done; [|by exists x, R; rewrite <- E].
  pose proof (stored_length (combuf c) (Z.to_nat (e_com c)) v ltac:(lia)) as Hl. rewrite E in Hl. destruct H as [Hs He _ Hl1 Hl2].
  split; cbn; rewrite ?E; try done; [by exists x, (v :: tail R)|]. rewrite Hl. lia.
Qed.

Lemma wp_put v (Q : () -> comst -> Prop) X c T :
  holds c T -> e_com c < l_com c + 5 ->
  (forall c', holds c' (T ++ [v]) -> e_com c' = e_com c + 1 -> wrote c c' -> Q tt c') ->
  wp (put v) Q X c.
Proof.
  intros H Hr HQ. unfold put. wp_step. apply wp_field. wp_step.
  destruct (stored_end c T v H Hr) as (H1 & H2 & x & R & Hb & E). apply wp_store; [done|done|]. wp_steps. cbn.
  pose proof (stored_length (combuf c) (Z.to_nat (e_com c)) v ltac:(lia)) as Hl. rewrite E in Hl. rewrite E.
  destruct H as [Hs He _ Hl1 Hl2]. apply HQ; [| |split]; cbn; try done.
  - split; cbn; try done; [rewrite He, length_app; cbn; lia| |cbn [length] in Hl; lia].
    exists x, (tail R). by rewrite <- app_assoc.
  - lia.
  - rewrite Hb, He. replace (Z.to_nat (1 + Z.of_nat (length T) + 1)) with (S (S (length T))) by lia.
    change (x :: T ++ v :: tail R) with ((x :: T) ++ v :: tail R). change (x :: T ++ R) with ((x :: T) ++ R).
    rewrite !drop_app_ge by (cbn; lia). cbn [length]. replace (S (S (length T)) - S (length T))%nat with 1%nat by lia. by destruct R.
Qed.

Lemma wp_put_star (Q : () -> comst -> Prop) X c T :
  holds c T -> e_com c + 2 < l_com c + 5 ->
  (forall c', holds c' (T ++ [32; 42; 32]) -> wrote c c' -> Q tt c') -> wp put_star Q X c.
Proof.
  intros H Hr HQ. unfold put_star. wp_step. apply (wp_put _ _ _ _ T); [done|lia|]. intros c1 H1 E1 W1.
  pose proof (w_l _ _ W1) as L1. wp_step. eapply wp_put; [exact H1|lia|]. intros c2 H2 E2 W2. pose proof (w_l _ _ W2) as L2.
  eapply wp_put; [exact H2|lia|]. intros c3 H3 _ W3. apply HQ; [by rewrite <- !app_assoc in H3|].
  etrans; [exact W1|]. by etrans; [exact W2|].
Qed.

Lemma wp_load_at i v (Q : Z -> comst -> Prop) X c :
  0 <= i -> combuf c !! Z.to_nat i = Some v -> Q v c -> wp (load i) Q X c.
Proof. intros Hi E HQ. unfold load. wp_steps. eapply wp_of_opt; [|done]. unfold aget. by replace (i <? 0) with false by lia. Qed.

Lemma wp_before_end (Q : Z -> comst -> Prop) X c T v :
  holds c (T ++ [v]) -> Q v c -> wp before_end Q X c.
Proof.
  intros [Hs He (x & R & Hb) _ _] HQ. unfold before_end. wp_step. apply wp_field. rewrite length_app in He. cbn in He.
  apply (wp_load_at _ v); [lia| |done]. rewrite Hb. replace (Z.to_nat (e_com c - 1)) with (S (length T)) by lia. cbn.
  rewrite <- app_assoc. by apply list_lookup_middle.
Qed.

Lemma wp_check n (Q : () -> comst -> Prop) X c T :
  holds c T -> 0 <= n <= 4 -> (forall b, last_bl c = Some b -> 0 < b) ->
  (forall c', holds c' T -> glob c' = glob c -> last_bl c' = last_bl c -> said c' = said c ->
     e_com c' + n < l_com c' -> Q tt c') ->
  wp (CHECK_SIZE_COM n) Q X c.
Proof.
  intros H Hn Hb HQ. unfold CHECK_SIZE_COM. wp_steps. pose proof H as [Hs He (x & R & Hm) Hl Hl5].
  destruct (l_com c <=? e_com c + n) eqn:E; bsimp; [|by apply HQ; try lia].
  apply HQ; cbn; try done; [split; cbn; try lia| |].
  - assert (HT : Z.of_nat (length T) < l_com c + 5) by (rewrite Hm in Hl; cbn in Hl; rewrite length_app in Hl; lia).
    exists x, (take (Z.to_nat (l_com c - s_com c + 400 + n) - S (length T)) R). rewrite Hm.
    destruct (Z.to_nat (l_com c - s_com c + 400 + n)) as [|k] eqn:Ek; [lia|]. cbn. f_equal.
    by rewrite take_app, take_ge by lia.
  - rewrite length_take. lia.
  - destruct (last_bl c) as [b|] eqn:Eb; [|done]. specialize (Hb b eq_refl). by replace (0 <? b) with true by lia.
  - rewrite Hm in Hl. cbn in Hl. rewrite length_app in Hl. lia.
Qed.

(** ** Dumping *)

(** One of the first two bytes is not a blank: dump_line finds it before it
    reaches the end of the text. *)
Definition headed (T : bytes) : Prop := exists x y T', T = x :: y :: T' /\ isblank x && isblank y = false.

Lemma lead_in ts t m T R :
  0 < ts -> headed T -> m = T ++ R ->
  let (target, com_st) := skip_com_tabs ts t m in
  exists target' com_st', raise_target ts target com_st = Some (target', com_st') /\
    (length m <= length com_st' + 1)%nat /\ (2 <= length m)%nat.
Proof.
  intros Hts (x & y & T' & -> & Hb) ->. cbn -[raise_target]. unfold isblank in Hb.
  assert (Hstop : forall t z s, (z =? 32) || (z =? 9) = false -> exists t', raise_target ts t (z :: s) = Some (t', z :: s)).
  { intros t0 z s Hz. bsimp. cbn. replace (z =? 32) with false by lia. replace (z =? 9) with false by lia. case_if; eauto. }
  destruct (x =? 9) eqn:E9.
  - apply Z.eqb_eq in E9 as ->. cbn in Hb. bsimp. replace (y =? 9) with false by lia.
    destruct (Hstop (t + ts) y (T' ++ R)) as [t' ->]; [lia|]. exists t', (y :: T' ++ R). cbn. split; [done|lia].
  - destruct (x =? 32) eqn:E32.
    + apply Z.eqb_eq in E32 as ->. cbn in Hb.
      change (raise_target ts t (32 :: y :: T' ++ R)) with (if t <=? 0 then raise_target ts (t + 1) (y :: T' ++ R) else Some (t, 32 :: y :: T' ++ R)).
      destruct (t <=? 0).
      * destruct (Hstop (t + 1) y (T' ++ R) Hb) as [t' ->]. exists t', (y :: T' ++ R). cbn. split; [done|lia].
      * exists t, (32 :: y :: T' ++ R). cbn. split; [done|lia].
    + destruct (Hstop t x (y :: T' ++ R)) as [t' ->]; [by rewrite E32, E9|]. eexists _, _. split; [done|]. cbn. lia.
Qed.

Lemma headed_printable c T : holds c T -> headed T -> 0 < tabsize (opt (glob c)) -> printable c = true.
Proof.
  intros [Hs He (x & R & Hb) _ _] Hh Hts. unfold printable. rewrite Hs, He, Hb.
  change (drop (Z.to_nat 1) (x :: T ++ R)) with (T ++ R).
  pose proof (lead_in _ (com_col (ps (glob c)) + comment_delta (ps (glob c))) _ _ R Hts Hh eq_refl) as Hl.
  destruct (skip_com_tabs _ _ _) as [t st]. destruct Hl as (t' & st' & -> & H1 & H2).
  assert (HT : (2 <= length T)%nat) by (destruct Hh as (? & ? & ? & -> & _); cbn; lia).
  apply orb_true_iff. right. cbv beta iota. apply andb_true_iff. split; [lia|]. apply andb_true_iff. split; [apply Nat.ltb_lt; lia|].
  apply Z.leb_le. lia.
Qed.

(** What a dump of the text [T] does to the rest of the program's state. *)
Record dumped (g : globals) (T : bytes) (g' : globals) : Prop := {
  d_lay : same_layout g g';
  d_stay : stays g g';
  d_lab : lab g' = [];
  d_code : code g' = [];
  d_ink : clean_label g -> clean_code g -> inhibit_formatting g = 0 ->
    ink (output g') = ink (output g) ++ ink (lab g) ++ ink (code g) ++ ink T
}.

Lemma wp_dump (Q : () -> comst -> Prop) c T :
  holds c T -> headed T -> io_wf (glob c) ->
  (forall c', holds c' [] -> dumped (glob c) T (glob c') -> last_bl c' = last_bl c -> said c' = said c ->
     l_com c' = l_com c -> (exists x, combuf c' = x :: 0 :: drop 2 (combuf c)) -> Q tt c') ->
  wp dump_line Q noexit c.
Proof.
  intros H Hh Hwf HQ. unfold dump_line. wp_steps. rewrite (headed_printable c T) by (done || apply Hwf).
  wp_steps. rewrite (holds_seen c T) by done. apply wp_on_glob. cbn [glob set_field set_glob].
  set (g := glob c <| com := T |>). assert (Hwf1 : io_wf g) by (by destruct Hwf).
  eapply wp_mono; [exact (wp_and _ _ _ _ _ (dump_line_ink g Hwf1) (wp_dump_line g Hwf1))|].
  intros [] g' [[S1 O1] (b & [L1 _] & _ & R1 & _)]. unfold com_reset. wp_step.
  pose proof H as [Hs He (x & R & Hb) Hl Hl5]. assert (HT : (2 <= length T)%nat) by (destruct Hh as (? & ? & ? & -> & _); cbn; lia).
  assert (Hlen : (3 <= length (combuf c))%nat) by (rewrite Hb; cbn; rewrite length_app; lia).
  apply wp_store; [cbn; lia|cbn; lia|]. wp_steps.
  assert (E : take (Z.to_nat 1) (combuf c) ++ 0 :: drop (S (Z.to_nat 1)) (combuf c) = x :: 0 :: drop 2 (combuf c)) by (by rewrite Hb).
  apply HQ; cbn -[drop]; try done.
  - split; cbn -[drop]; try done; [exists x; eexists; exact E|].
    change (Pos.to_nat 1) with 1%nat. rewrite (stored_length (combuf c) 1) by lia. lia.
  - destruct R1 as (? & ? & _). by split.
  - by exists x.
Qed.

(** ** The invariant *)

Section Track.
Context (P : Prop) (K : bytes).

(** Printed, kept and still to be read: together the ink of the comment. *)
Record tracked (g : globals) (T : bytes) : Prop := {
  t_label : clean_label g;
  t_code : clean_code g;
  t_on : inhibit_formatting g = 0;
  t_ink : ink (output g) ++ ink (lab g) ++ ink (code g) ++ ink T ++ ink (stream g) = K
}.

Record inv (c : comst) (T : bytes) : Prop := {
  i_holds : holds c T;
  i_lx : lx_ok (glob c);
  i_quiet : quiet (input (glob c)) = true;
  i_box : box_com (ps (glob c)) = 0;
  i_star : truth (star_comment_cont (opt (glob c))) = true;
  i_nul : Forall (fun x => x <> 0) T;
  i_track : P -> tracked (glob c) T
}.

(** The input has not moved. *)
Record still (c c' : comst) : Prop := {
  st_bl : last_bl c' = last_bl c;
  st_said : said c' = said c;
  st_buf : in_buffer (glob c') = in_buffer (glob c);
  st_ptr : buf_ptr (glob c') = buf_ptr (glob c);
  st_in : input (glob c') = input (glob c);
  st_eof : had_eof (glob c') = had_eof (glob c)
}.

Lemma still_avail c c' : still c c' -> avail (glob c') = avail (glob c).
Proof. intros [_ _ H1 H2 H3 H4]. unfold avail. by rewrite H1, H2, H3, H4. Qed.

Lemma still_cur c c' : still c c' -> cur (glob c') = cur (glob c).
Proof. intros [_ _ H1 H2 H3 H4]. unfold cur. by rewrite H1, H2. Qed.

Lemma layout_lx g g' : same_layout g g' -> lx_ok g -> lx_ok g'.
Proof.
  intros H [W L1 L2 L3 L4]. pose proof (same_layout_wf _ _ H W). unfold same_layout in H. destruct_and!.
  split; congruence || (repeat match goal with E : ?a = _ |- context [?a] => rewrite E end; auto).
Qed.

Lemma layout_avail g g' : same_layout g g' -> avail g' = avail g.
Proof. intros (_ & _ & _ & _ & _ & H1 & H2 & H3 & _ & _ & H4). unfold avail. by rewrite H1, H2, H3, H4. Qed.

Lemma wp_dump_inv (Q : () -> comst -> Prop) c T :
  inv c T -> headed T ->
  (forall c', inv c' [] -> still c c' -> (exists x, combuf c' = x :: 0 :: drop 2 (combuf c)) -> Q tt c') ->
  wp dump_line Q noexit c.
Proof.
  intros [H1 H2 H3 H4 H5 H6 H7] Hh HQ. apply (wp_dump _ _ T); [done|done|by apply lx_wf|].
  intros c' H' [D1 D2 D3 D4 D5] B S L HB. pose proof D1 as D1'. unfold same_layout in D1'. destruct_and!.
  apply HQ; [|split; congruence|done]. split; try congruence; auto.
  - by eapply layout_lx.
  - destruct D2 as (E & _). congruence.
  - intros HP. destruct (H7 HP) as [T1 T2 T3 T4]. specialize (D5 T1 T2 T3). destruct D2 as (_ & _ & Eo).
    split; [split; [apply Eo, T1|by rewrite D3]|split; [apply Eo, T2|by rewrite D4]|congruence|].
    rewrite D5, D3, D4. unfold stream in *. rewrite <- T4, <- !app_assoc. cbn. congruence.
Qed.

Lemma wp_star_inv (Q : () -> comst -> Prop) c :
  inv c [] ->
  (forall c', inv c' [32; 42; 32] -> still c c' -> drop 4 (combuf c') = drop 4 (combuf c) -> Q tt c') ->
  wp star_cont Q noexit c.
Proof.
  intros [H1 H2 H3 H4 H5 H6 H7] HQ. unfold star_cont, getp, geto. wp_step. apply wp_field. wp_step. apply wp_field.
  rewrite H4, H5. cbn. pose proof (h_e _ _ H1) as He. cbn in He. pose proof (h_l _ _ H1).
  apply (wp_put_star _ _ _ []); [done|lia|]. intros c' H' [W1 W2 W3 W4 W5 W6]. cbn in H'.
  pose proof (h_e _ _ H') as He'. cbn in He'. rewrite He' in W6. apply HQ; [|split; congruence|done].
  split; rewrite ?W1; auto. intros HP. destruct (H7 HP) as [T1 T2 T3 T4]. by split.
Qed.

(** ** Reading *)

Lemma wp_peek_c (Q : Z -> comst -> Prop) c : lx_ok (glob c) -> Q (cur (glob c)) c -> wp IndentComment.peek Q noexit c.
Proof. intros H HQ. apply wp_on_glob, wp_peek; [done|]. by destruct c. Qed.

Lemma wp_skip_c (Q : () -> comst -> Prop) c : Q tt (c <| glob := next (glob c) |>) -> wp IndentComment.skip Q noexit c.
Proof. intros HQ. apply wp_on_glob. exact HQ. Qed.

Lemma wp_refill_c (Q : () -> comst -> Prop) c : lx_ok (glob c) -> Q tt c -> wp IndentComment.refill Q noexit c.
Proof.
  intros H HQ. unfold refill. wp_step. apply wp_field. pose proof (lx_ptr _ H) as Hp.
  by rewrite (proj2 (Nat.leb_gt _ _) Hp).
Qed.

Lemma wp_advance_c (Q : () -> comst -> Prop) c :
  lx_ok (glob c) -> cur (glob c) <> 10 -> Q tt (c <| glob := next (glob c) |>) -> wp IndentComment.advance Q noexit c.
Proof.
  intros H Hc HQ. unfold advance. wp_step. apply wp_skip_c. apply wp_refill_c; [|done]. by apply skip_ok.
Qed.

Lemma advance_newline g : lx_ok g -> cur g = 10 -> IndentLexi.advance g = IndentIo.fill_buffer (next g).
Proof.
  intros H Hc. apply (cur_newline g H) in Hc. unfold IndentLexi.advance, IndentLexi.skip, IndentLexi.refill, bind, modify, get.
  fold (next g). change (length (in_buffer (next g)) <=? buf_ptr (next g))%nat with (length (in_buffer g) <=? buf_ptr g + 1)%nat.
  by rewrite (proj2 (Nat.leb_le (length (in_buffer g)) (buf_ptr g + 1))) by lia.
Qed.

(** Past a byte without ink the invariant stays, on the next line too. *)
Record moved (c c' : comst) : Prop := {
  m_bl : last_bl c' = last_bl c;
  m_said : said c' = said c;
  m_buf : combuf c' = combuf c;
  m_l : l_com c' = l_com c;
  m_avail : (avail (glob c') < avail (glob c))%nat
}.

Lemma wp_next_line_inv (Q : () -> comst -> Prop) c T :
  inv c T -> cur (glob c) = 10 -> had_eof (glob c) = false ->
  (forall c', inv c' T -> moved c c' -> Q tt c') -> wp IndentComment.advance Q noexit c.
Proof.
  intros [H1 H2 H3 H4 H5 H6 H7] Hc He HQ. unfold advance. wp_step. apply wp_skip_c. unfold refill. wp_step. apply wp_field.
  cbn [glob set_field set_glob]. pose proof (proj1 (cur_newline _ H2) Hc) as Hl.
  change (length (in_buffer (next (glob c))) <=? buf_ptr (next (glob c)))%nat with (length (in_buffer (glob c)) <=? buf_ptr (glob c) + 1)%nat.
  rewrite (proj2 (Nat.leb_le _ _)) by lia. unfold fill_buffer. wp_steps.
  rewrite (holds_seen _ T) by (by destruct H1). apply wp_on_glob. cbn [glob set_field set_glob].
  set (g := glob c <| com := T |>). assert (H2' : lx_ok g) by (eapply lx_ok_same; [|exact H2]; lx_frame).
  destruct (fill_quiet g H2' Hc He H3) as (l & rest & eof & Er & Ef & Hq).
  change (next (glob c) <| com := T |>) with (next g). eapply wp_run_eq; [exact Ef|]. wp_step. apply wp_field.
  pose proof (wp_advance g H2') as Hadv. unfold wp in Hadv. rewrite (advance_newline g H2' Hc), Ef in Hadv.
  destruct Hadv as (Hlx & Hav & _). specialize (Hav (or_intror He)). cbn [glob set_field set_glob].
  change (empty_line (echoed l (got_line l rest eof g))) with (empty_line (next g)).
  rewrite andb_negb_l. wp_steps. apply HQ; [|by split]. split; try done; [by destruct H1|].
  intros HP. destruct (H7 HP) as [T1 T2 T3 T4]. split; try done. cbn -[ink]. rewrite T3. cbn -[ink]. rewrite app_nil_r.
  rewrite <- T4. do 4 f_equal. unfold stream. cbn -[ink]. rewrite (drop_cur _ H2), Hc, (drop_ge (in_buffer (glob c))) by lia.
  pose proof (ink_read_line (input g)) as Hi. rewrite Er in Hi. rewrite !ink_app. rewrite drop_0. exact Hi.
Qed.

Lemma inv_next c T :
  inv c T -> cur (glob c) <> 10 -> inked (cur (glob c)) = false ->
  inv (c <| glob := next (glob c) |>) T /\ moved c (c <| glob := next (glob c) |>).
Proof.
  intros [H1 H2 H3 H4 H5 H6 H7] Hc Hk. destruct (skip_ok _ H2 Hc) as [Hlx Hav].
  fold (next (glob c)) in Hlx, Hav. assert (Ha : (avail (next (glob c)) < avail (glob c))%nat) by lia.
  split; [|by split]. split; try done; [by destruct H1|].
  intros HP. destruct (H7 HP) as [T1 T2 T3 T4]. split; try done. rewrite <- T4, (stream_next _ H2), (ink_cons (cur _)), Hk. done.
Qed.

Lemma wp_advance_inv (Q : () -> comst -> Prop) c T :
  inv c T -> (cur (glob c) = 10 -> had_eof (glob c) = false) -> inked (cur (glob c)) = false ->
  (forall c', inv c' T -> moved c c' -> Q tt c') -> wp IndentComment.advance Q noexit c.
Proof.
  intros Hi He Hk HQ. destruct (decide (cur (glob c) = 10)) as [Hc|Hc]; [by eapply wp_next_line_inv; auto|].
  apply wp_advance_c; [by apply i_lx in Hi|done|]. by apply HQ; apply (inv_next c T).
Qed.

(** A change of the state that concerns neither the input, nor the output, nor the
    buffers. *)
Lemma inv_glob c T g :
  inv c T -> lx_same (glob c) g -> box_com (ps g) = box_com (ps (glob c)) -> lab g = lab (glob c) -> code g = code (glob c) ->
  output g = output (glob c) -> inhibit_formatting g = inhibit_formatting (glob c) -> comment_open g = comment_open (glob c) ->
  inv (c <| glob := g |>) T.
Proof.
  intros [H1 H2 H3 H4 H5 H6 H7] Hs E1 E2 E3 E4 E5 E6. pose proof (lx_ok_same _ _ Hs H2) as Hlx.
  destruct Hs as (S1 & S2 & S3 & S4 & S5 & S6 & _).
  split; cbn; rewrite ?S4, ?S6, ?E1; auto; [by destruct H1|].
  intros HP. destruct (H7 HP) as [[T1 T1'] [T2 T2'] T3 T4].
  split; unfold clean_label, clean_code, stream in *; by rewrite ?E2, ?E3, ?E4, ?E5, ?E6, ?S1, ?S2, ?S4.
Qed.

Lemma inv_bl c T b : inv c T -> inv (c <| last_bl := b |>) T.
Proof. intros [H1 H2 H3 H4 H5 H6 H7]. split; try done. by destruct H1. Qed.

(** ** Blanks *)

Lemma blank_no_ink x : isblank x = true -> inked x = false.
Proof. eauto using isspace_no_ink, isblank_space. Qed.

Lemma wp_skip_blanks fuel (Q : () -> comst -> Prop) c T :
  inv c T -> (length (in_buffer (glob c)) - buf_ptr (glob c) <= fuel)%nat ->
  (forall c' k, inv c' T -> last_bl c' = last_bl c -> said c' = said c -> combuf c' = combuf c -> l_com c' = l_com c ->
     (avail (glob c') <= avail (glob c))%nat -> isblank (cur (glob c')) = false ->
     glob c' = glob c <| buf_ptr := k |> -> ink (stream (glob c')) = ink (stream (glob c)) -> Q tt c') ->
  wp (IndentComment.skip_blanks fuel) Q noexit c.
Proof.
  intros Hi Hf HQ. revert c Hi Hf HQ. induction fuel as [|fuel IH]; intros c Hi Hf HQ; cbn [skip_blanks]; wp_step;
    (apply wp_peek_c; [by apply i_lx in Hi|]);
    (apply wp_if; intros Hb; [|wp_step; apply (HQ c (buf_ptr (glob c))); try done; by destruct (glob c)]).
  - pose proof (lx_ptr _ (i_lx _ _ Hi)). lia.
  - assert (Hc : cur (glob c) <> 10) by (intros E; by rewrite E in Hb).
    wp_step. apply wp_skip_c. destruct (inv_next c T Hi Hc (blank_no_ink _ Hb)) as [Hi' [M1 M2 M3 M4 M5]].
    apply IH; [done|cbn; lia|]. intros c' k I' A1 A2 A3 A4 A5 A6 A7 A8. apply (HQ c' k); try done; try congruence; [lia|].
    rewrite A8, (stream_next (glob c)), ink_cons, (blank_no_ink _ Hb) by (by apply i_lx in Hi). done.
Qed.

(** The start of the line after a newline. *)
Lemma wp_next_line fuel nstar (Q : after -> comst -> Prop) c T :
  inv c T -> (cur (glob c) = 10 -> had_eof (glob c) = false) -> inked (cur (glob c)) = false -> (avail (glob c) <= fuel)%nat ->
  (forall r c', inv c' T -> moved c c' -> r <> Unterminated -> (r = Closed -> cur (glob c') = 47) -> Q r c') ->
  wp (next_line fuel nstar) Q noexit c.
Proof.
  intros Hi He Hk Hf HQ. revert nstar c Hi He Hk Hf HQ. induction fuel as [|fuel IH]; intros nstar c Hi He Hk Hf HQ.
  { pose proof (lx_ptr _ (i_lx _ _ Hi)). unfold avail in Hf. lia. }
  cbn [next_line]. wp_step. apply (wp_advance_inv _ c T); [done..|]. intros c1 Hi1 M1. wp_step.
  apply wp_peek_c; [by apply i_lx in Hi1|].
  assert (Hrest : forall c2 n, inv c2 T -> moved c c2 ->
    wp (let! ch := IndentComment.peek in if isblank ch then next_line fuel n else ret GoesOn) Q noexit c2).
  { intros c2 n Hi2 [A1 A2 A3 A4 A5]. wp_step. apply wp_peek_c; [by apply i_lx in Hi2|]. apply wp_if; intros Hb.
    - apply IH; [done|intros E; by rewrite E in Hb|by apply blank_no_ink|lia|].
      intros r c' I' [B1 B2 B3 B4 B5] Hr1 Hr2. apply HQ; try done. split; try congruence. lia.
    - wp_step. by apply HQ; [|split| |]. }
  wp_step. apply wp_if; intros Estar; [apply wp_if; intros En|].
  - wp_step. assert (Hc : cur (glob c1) <> 10) by lia.
    apply (wp_advance_inv _ c1 T); [done|done|by apply Z.eqb_eq in Estar as ->|]. intros c2 Hi2 M2.
    assert (M : moved c c2) by (destruct M1, M2; split; try congruence; lia).
    wp_step. apply wp_peek_c; [by apply i_lx in Hi2|]. wp_step. apply wp_if; intros Ec; [|by apply Hrest].
    wp_step. apply HQ; try done. intros _. by apply Z.eqb_eq.
  - wp_step. by apply Hrest.
  - wp_step. by apply Hrest.
Qed.

(** ** Lines *)

(** The blank a line can be broken at has enough text before it. *)
Definition bl_ok (T : bytes) (b : option Z) : Prop :=
  match b with
  | None => True
  | Some k => exists T1 x T2, T = T1 ++ x :: T2 /\ isblank x = true /\ k = 1 + Z.of_nat (length T1) /\ headed T1
  end.

Lemma bl_ok_app T U b : bl_ok T b -> bl_ok (T ++ U) b.
Proof.
  destruct b as [k|]; [|done]. intros (T1 & x & T2 & -> & H). exists T1, x, (T2 ++ U). by rewrite <- app_assoc.
Qed.

Lemma bl_ok_end T x : headed T -> isblank x = true -> bl_ok (T ++ [x]) (Some (1 + Z.of_nat (length T))).
Proof. intros H Hx. by exists T, x, []. Qed.

Lemma bl_ok_pos T b k : bl_ok T b -> b = Some k -> 0 < k.
Proof. intros H ->. destruct H as (T1 & x & T2 & _ & _ & -> & _). lia. Qed.

Lemma headed_app T U : headed T -> headed (T ++ U).
Proof. intros (x & y & T' & -> & H). by exists x, y, (T' ++ U). Qed.

(** A line being filled. *)
Record filling (c : comst) (T : bytes) : Prop := {
  f_inv : inv c T;
  f_head : headed T;
  f_len : (3 <= length T)%nat;
  f_bl : bl_ok T (last_bl c)
}.

Lemma star_headed : headed [32; 42; 32].
Proof. by exists 32, 42, [32]. Qed.

(** A dump and the start of the next line. *)
Lemma wp_dump_star (Q : () -> comst -> Prop) c T :
  inv c T -> headed T -> last_bl c = None ->
  (forall c', filling c' [32; 42; 32] -> still c c' -> Q tt c') ->
  wp (dump_line ;; star_cont) Q noexit c.
Proof.
  intros Hi Hh Hb HQ. wp_step. apply (wp_dump_inv _ c T); [done..|]. intros c1 H1 S1 _.
  apply wp_star_inv; [done|]. intros c2 H2 S2 _. destruct S1, S2.
  apply HQ; [split; [done|apply star_headed|cbn; lia|]|split; congruence]. by replace (last_bl c2) with (@None Z) by congruence.
Qed.

Lemma wp_copy_form_feed (Q : () -> comst -> Prop) c T :
  filling c T -> cur (glob c) = 12 ->
  (forall c' T', filling c' T' -> said c' = said c -> (avail (glob c') < avail (glob c))%nat -> Q tt c') ->
  wp copy_form_feed Q noexit c.
Proof.
  intros [Hi Hh Hl Hb] Hc HQ. unfold copy_form_feed. wp_step.
  apply (wp_check _ _ _ _ T); [by apply i_holds in Hi|lia|by intros b; apply (bl_ok_pos T)|].
  intros c1 H1 G1 B1 S1 _. assert (Hi1 : inv c1 T).
  { destruct Hi. split; rewrite ?G1; auto. }
  unfold getp. wp_step. apply wp_field. rewrite (i_box _ _ Hi1). change (truth 0) with false. cbv iota. wp_step. apply wp_on_glob, wp_setps.
  wp_step. set (c2 := c1 <| glob := _ |>). assert (Hi2 : inv c2 T) by (apply inv_glob; try done; lx_frame).
  apply (wp_dump_inv _ c2 T); [done..|]. intros c3 Hi3 S3 _. wp_steps.
  apply wp_star_inv; [by apply inv_bl|]. intros c4 Hi4 S4 _. wp_step. apply wp_skip_c.
  assert (Hc4 : cur (glob c4) = 12).
  { rewrite (still_cur _ _ S4). cbn. rewrite (still_cur _ _ S3). cbn. by rewrite G1. }
  destruct (inv_next c4 _ Hi4) as [Hi5 M5]; [by rewrite Hc4..|].
  unfold line_rounds. wp_step. apply wp_field. apply (wp_skip_blanks _ _ _ _ Hi5); [lia|].
  intros c6 k6 Hi6 A1 A2 _ _ A5 _ _ _. apply HQ with [32; 42; 32].
  - split; [done|apply star_headed|cbn; lia|]. rewrite A1. cbn. by rewrite (st_bl _ _ S4).
  - rewrite A2. cbn. rewrite (st_said _ _ S4). cbn. rewrite (st_said _ _ S3). done.
  - pose proof (m_avail _ _ M5). rewrite (still_avail _ _ S4) in *. cbn in *. rewrite (still_avail _ _ S3) in *. cbn in *. rewrite G1 in *. unfold avail in *. cbn in *. lia.
Qed.

(** A newline that ends the line. *)
Lemma wp_end_line (Q : () -> comst -> Prop) c T :
  inv c T -> headed T -> last_bl c = None ->
  (forall c', filling c' [32; 42; 32] -> still c c' -> Q tt c') -> wp end_line Q noexit c.
Proof.
  intros Hi Hh Hb HQ. unfold end_line. wp_steps.
  pose proof (h_s _ _ (i_holds _ _ Hi)) as Hs. pose proof (h_e _ _ (i_holds _ _ Hi)) as He.
  assert (HT : (2 <= length T)%nat) by (destruct Hh as (? & ? & ? & -> & _); cbn; lia).
  replace (s_com c =? e_com c) with false by lia. wp_steps. unfold getp. apply wp_field. wp_steps. rewrite (i_box _ _ Hi). cbn [truth negb andb Z.eqb].
  apply wp_if; intros _; [|wp_steps; apply wp_bind_inv; by apply (wp_dump_star _ c T)].
  wp_step. apply (wp_dump_inv _ c T); [done..|]. intros c1 Hi1 S1 _. wp_step. unfold geto. apply wp_field. rewrite (i_star _ _ Hi1).
  pose proof (h_e _ _ (i_holds _ _ Hi1)) as He1. cbn in He1. pose proof (h_l _ _ (i_holds _ _ Hi1)).
  apply (wp_put_star _ _ _ []); [by apply i_holds in Hi1|lia|]. intros c2 H2 W2.
  assert (Hi2 : inv c2 [32; 42; 32]).
  { destruct Hi1 as [? ? ? ? ? ? Ht]. pose proof (w_glob _ _ W2) as G2. split; rewrite ?G2; auto. intros HP. destruct (Ht HP). by split. }
  wp_step. apply wp_bind_inv. apply (wp_dump_star _ c2 [32; 42; 32]); [done|apply star_headed|by rewrite (w_bl _ _ W2), (st_bl _ _ S1)|].
  intros c3 F3 S3. apply HQ; [done|]. destruct S1, S3, W2. split; congruence.
Qed.

(** A newline inside the text. *)
Lemma wp_soft_newline (Q : () -> comst -> Prop) c T :
  filling c T -> e_com c < l_com c ->
  (forall c' T', filling c' T' -> said c' = said c -> in_buffer (glob c') = in_buffer (glob c) -> buf_ptr (glob c') = buf_ptr (glob c) ->
     input (glob c') = input (glob c) -> had_eof (glob c') = had_eof (glob c) ->
     l_com c' = l_com c -> e_com c' <= e_com c + 1 -> Q tt c') ->
  wp soft_newline Q noexit c.
Proof.
  intros [Hi Hh Hl Hb] Hr HQ. unfold soft_newline. wp_step. apply wp_on_glob, wp_setps. set (c1 := c <| glob := _ |>).
  assert (Hi1 : inv c1 T) by (apply inv_glob; try done; lx_frame). wp_step.
  destruct (exists_last (l := T)) as (T0 & v & ET); [intros ->; cbn in Hl; lia|].
  pose proof (i_holds _ _ Hi1) as H1. rewrite ET in H1. apply (wp_before_end _ _ _ T0 v); [done|].
  assert (Hh0 : headed T0).
  { destruct Hh as (x & y & T' & -> & Hxy). rewrite ET in Hl. rewrite length_app in Hl. cbn in Hl.
    destruct T0 as [|x0 [|y0 T0]]; cbn in Hl; [lia..|]. injection ET as -> -> _. by exists x0, y0, T0. }
  apply wp_if; intros Ev.
  - wp_steps. pose proof (h_e _ _ H1) as He1. rewrite length_app in He1. cbn in He1.
    apply HQ with T; try done; [|cbn; lia]. split; [by apply inv_bl|done|done|]. cbn. rewrite ET.
    replace (e_com c - 1) with (1 + Z.of_nat (length T0)) by lia. by apply bl_ok_end.
  - wp_steps. set (c2 := c1 <| last_bl := _ |>). assert (Hi2 : inv c2 T) by (by apply inv_bl).
    apply (wp_put _ _ _ _ T); [by apply i_holds in Hi2|cbn; lia|]. intros c3 H3 E3 W3. pose proof (w_glob _ _ W3) as G3.
    apply HQ with (T ++ [32]); rewrite ?G3, ?(w_l _ _ W3), ?(w_said _ _ W3); try done; [|cbn in E3; lia].
    split.
    + destruct Hi2 as [A1 A2 A3 A4 A5 A6 A7]. split; rewrite ?G3; auto; [by apply Forall_app_2; [|repeat constructor]|].
      intros HP. destruct (A7 HP) as [T1 T2 T3 T4]. split; try done. by rewrite ink_app, app_nil_r.
    + by apply headed_app.
    + rewrite length_app. lia.
    + rewrite (w_bl _ _ W3). cbn. rewrite (h_e _ _ (i_holds _ _ Hi)). by apply bl_ok_end.
Qed.

Definition complaint : bytes := bs "Unterminated comment" ++ [10].

Lemma wp_copy_newline (Q : after -> comst -> Prop) c T :
  filling c T -> cur (glob c) = 10 ->
  (forall c', holds c' [] -> lx_ok (glob c') -> avail (glob c') = avail (glob c) -> said c' = said c ++ complaint -> Q Unterminated c') ->
  (forall c' T', inv c' T' -> headed T' -> cur (glob c') = 47 -> e_com c' + 3 < l_com c' -> said c' = said c ->
     (avail (glob c') < avail (glob c))%nat -> Q Closed c') ->
  (forall c' T', filling c' T' -> said c' = said c -> (avail (glob c') < avail (glob c))%nat -> Q GoesOn c') ->
  wp copy_newline Q noexit c.
Proof.
  intros [Hi Hh Hl Hb] Hc HQ1 HQ2 HQ3. unfold copy_newline. wp_step. apply wp_field. destruct (had_eof (glob c)) eqn:He.
  { unfold say. wp_steps. apply wp_on_glob, wp_modify.
    wp_step. pose proof Hi as [H1 H2 _ _ _ _ _].
    match goal with |- wp dump_line _ _ ?s => set (c1 := s) end.
    assert (Hs : same_layout (glob c) (glob c1)) by (unfold c1; cbn; destruct (output_is_stdout (glob c)); layout).
    assert (H1' : holds c1 T) by (by destruct H1). pose proof (layout_lx _ _ Hs H2) as H2'.
    apply (wp_dump _ _ T); [done|done|by apply lx_wf|]. intros c2 A1 [D1 _ _ _ _] _ A3 _ _. wp_step.
    assert (Hs2 : same_layout (glob c) (glob c2)) by (by etrans).
    apply HQ1; [done|by eapply layout_lx| |by rewrite A3]. by apply layout_avail. }
  wp_steps. set (c1 := c <| last_bl := None |>). assert (Hi1 : inv c1 T) by (by apply inv_bl).
  apply (wp_check _ _ _ _ T); [by apply i_holds in Hi1|lia|done|]. intros c2 H2 G2 B2 S2 R2.
  assert (Hi2 : inv c2 T) by (destruct Hi1; split; rewrite ?G2; auto). cbn in G2, B2, S2. rewrite <- G2 in *.
  assert (Hgo : forall c3 T3, filling c3 T3 -> said c3 = said c2 -> avail (glob c3) = avail (glob c2) -> cur (glob c3) = 10 ->
    had_eof (glob c3) = false -> e_com c3 + 3 < l_com c3 ->
    wp (on_glob (modify (fun g => g <| line_no ::= Z.succ |>)) ;;
      let! box := getp box_com in
      if truth box then IndentComment.advance ;; ret GoesOn else let! g := gets glob in next_line (rounds g) 1) Q noexit c3).
  { intros c3 T3 [Hi3 Hh3 Hl3 Hb3] S3 A3 C3 E3 R3. wp_step. apply wp_on_glob, wp_modify. wp_step.
    match goal with |- wp _ _ _ ?s => set (c4 := s) end.
    assert (Hi4 : inv c4 T3) by (apply inv_glob; try done; lx_frame). unfold getp. apply wp_field. rewrite (i_box _ _ Hi4).
    change (truth 0) with false. cbv iota. wp_step. apply wp_field.
    apply (wp_next_line _ _ _ _ T3); [done|done|by change (cur (glob c4)) with (cur (glob c3)); rewrite C3|by apply avail_rounds, (i_lx _ _ Hi4)|].
    intros r c5 Hi5 [M1 M2 M3 M4 M5] Hr1 Hr2. change (avail (glob c4)) with (avail (glob c3)) in M5.
    assert (Hs : said c5 = said c) by (rewrite M2; change (said c4) with (said c3); congruence).
    destruct r; [done|eapply HQ2|eapply HQ3]; try done; try lia.
    - by apply Hr2.
    - rewrite M4, (h_e _ _ (i_holds _ _ Hi5)), <- (h_e _ _ (i_holds _ _ Hi3)). exact R3.
    - split; try done. by rewrite M1. }
  wp_step. apply wp_if; intros _.
  - apply (wp_end_line _ c2 T); [done..|]. intros c3 F3 S3. apply Hgo with [32; 42; 32]; try done.
    + apply S3.
    + by apply still_avail.
    + by rewrite (still_cur _ _ S3).
    + rewrite (st_eof _ _ S3). done.
    + rewrite (h_e _ _ (i_holds _ _ (f_inv _ _ F3))). cbn. pose proof (h_l _ _ (i_holds _ _ (f_inv _ _ F3))). lia.
  - apply (wp_soft_newline _ c2 T); [split; try done; by rewrite B2|lia|].
    intros c3 T3 F3 S3 E1 E2 E3 E4 E5 E6. apply Hgo with T3; try done.
    + unfold avail. by rewrite E1, E2, E3, E4.
    + unfold cur. rewrite E1, E2. exact Hc.
    + congruence.
    + lia.
Qed.

(** ** Runs of text *)

Lemma stops_newline : stops 10 = true.
Proof. reflexivity. Qed.

Lemma wp_copy_run fuel adj col (Q : Z -> comst -> Prop) c T :
  filling c T -> cur (glob c) <> 10 -> cur (glob c) <> 0 -> (avail (glob c) <= fuel)%nat ->
  (forall n c' T', filling c' T' -> said c' = said c -> (avail (glob c') < avail (glob c))%nat -> e_com c' < l_com c' -> Q n c') ->
  wp (copy_run fuel adj col) Q noexit c.
Proof.
  revert col c T. induction fuel as [|fuel IH]; intros col c T [Hi Hh Hl Hb] Hc Hc0 Hf HQ.
  { pose proof (lx_ptr _ (i_lx _ _ Hi)). unfold avail in Hf. lia. }
  cbn [copy_run]. wp_step. apply (wp_check _ _ _ _ T); [by apply i_holds in Hi|lia|by intros b; apply (bl_ok_pos T)|].
  intros c1 H1 G1 B1 S1 R1. assert (Hi1 : inv c1 T) by (destruct Hi; split; rewrite ?G1; auto). rewrite <- G1 in *.
  wp_step. apply wp_peek_c; [by apply i_lx in Hi1|]. wp_step. apply wp_field. wp_step.
  apply (wp_store_end _ _ _ _ T); [done|lia|]. intros c2 H2 E2 G2 B2 S2 L2 (x & R & Hm1 & Hm2). wp_step. apply wp_skip_c. wp_step.
  destruct (skip_ok _ (i_lx _ _ Hi1) Hc) as [Hlx Hav]. fold (next (glob c1)) in Hlx, Hav.
  assert (Hav' : (avail (next (glob c2)) < avail (glob c1))%nat) by (rewrite G2; lia). rewrite <- G2 in Hlx.
  apply wp_refill_c; [done|]. wp_step. apply wp_field. wp_step. cbn [e_com set_field set_glob].
  apply (wp_load_at _ (cur (glob c1))); [pose proof (h_e _ _ H2); lia| |].
  { cbn. rewrite Hm2, (h_e _ _ H2). replace (Z.to_nat (1 + Z.of_nat (length T))) with (S (length T)) by lia. cbn. by apply list_lookup_middle. }
  (* the state after the byte has been taken over *)
  set (T' := T ++ [cur (glob c1)]).
  assert (Hfill : forall c', glob c' = next (glob c2) -> said c' = said c2 -> l_com c' = l_com c2 -> s_com c' = s_com c2 ->
    combuf c' = combuf c2 -> e_com c' = e_com c2 + 1 -> bl_ok T' (last_bl c') -> filling c' T').
  { intros c' A1 A2 A3 A4 A5 A6 A7. split; [|by apply headed_app|unfold T'; rewrite length_app; lia|done].
    destruct Hi1 as [I1 I2 I3 I4 I5 I6 I7]. split; rewrite ?A1, ?G2; try done.
    - destruct H2 as [B1' B2' _ B4' B5']. split; rewrite ?A3, ?A4, ?A5, ?A6; try done.
      + rewrite B2'. unfold T'. rewrite length_app. cbn. lia.
      + exists x, (tail R). rewrite Hm2. unfold T'. by rewrite <- app_assoc.
    - by rewrite <- G2.
    - apply Forall_app_2; [done|]. repeat constructor. done.
    - intros HP. destruct (I7 HP) as [T1 T2 T3 T4]. split; try done. unfold T'.
      rewrite <- T4, (stream_next _ I2), ink_app, <- app_assoc, (ink_cons _ (stream _)). done. }
  assert (Hgo : forall c', filling c' T' -> glob c' = next (glob c2) -> said c' = said c -> l_com c' = l_com c2 -> e_com c' = e_com c2 + 1 ->
    wp (let! ch := IndentComment.peek in
        let! b := gets last_bl in
        if negb (stops ch) && ((col + 1 <=? adj) || negb (bool_decide (is_Some b))) then copy_run fuel adj (col + 1) else ret (col + 1)) Q noexit c').
  { intros c' F A1 A2 A3 A4. wp_step. apply wp_peek_c; [by rewrite A1|]. wp_step. apply wp_field. rewrite A1.
    apply wp_if; intros Ec.
    - apply (IH _ _ T'); try done; rewrite ?A1; try (intros E0; by rewrite E0 in Ec); [lia|].
      intros n c'' T'' F'' S'' A'' R''. apply (HQ n c'' T''); try done; [congruence|]. lia.
    - wp_step. apply (HQ _ c' T'); try done; [rewrite A1; lia|]. lia. }
  wp_step. apply wp_if; intros Ev; [apply wp_modify|apply wp_ret]; (apply wp_bind, wp_modify); apply Hgo; try done; try (cbn; congruence); apply Hfill; try done.
  - cbn. rewrite (h_e _ _ H2). by apply bl_ok_end.
  - cbn. rewrite B2, B1. by apply bl_ok_app.
Qed.

End Track.

(** ** Breaking a line *)

Lemma drop_head {A} (l : list A) t x r : drop t l = x :: r -> l !! t = Some x /\ drop (S t) l = r.
Proof.
  intros E. split; [by rewrite <- (Nat.add_0_r t), <- lookup_drop, E|].
  by rewrite <- (Nat.add_1_r t), <- drop_drop, E.
Qed.

Lemma wp_skip_moved fuel t (Q : Z -> comst -> Prop) X c U R :
  0 <= t -> drop (Z.to_nat t) (combuf c) = U ++ 0 :: R -> (length U <= fuel)%nat ->
  (forall t' U', t <= t' -> drop (Z.to_nat t') (combuf c) = U' ++ 0 :: R -> (length U' <= length U)%nat -> ink U' = ink U ->
     U' `suffix_of` U -> Q t' c) ->
  wp (skip_moved fuel t) Q X c.
Proof.
  revert t U. induction fuel as [|fuel IH]; intros t U Ht Hd Hf HQ; cbn [skip_moved]; wp_step;
    (destruct U as [|x U]; cbn in Hf; cbn [app] in Hd; destruct (drop_head _ _ _ _ Hd) as [Hx Hd']; (eapply wp_load_at; [done|exact Hx|]));
    try (change (isblank 0) with false; cbv iota; wp_step; by apply (HQ t [])); [lia|].
  apply wp_if; intros Hb; [|by wp_step; apply (HQ t (x :: U))].
  apply (IH _ U); [lia|by replace (Z.to_nat (t + 1)) with (S (Z.to_nat t)) by lia|lia|].
  intros t' U' A1 A2 A3 A4 A5. apply (HQ t' U'); [lia|done|cbn; lia| |by apply suffix_cons_r].
  by rewrite A4, ink_cons, blank_no_ink.
Qed.

Lemma wp_move_back fuel t (Q : () -> comst -> Prop) X c T U R :
  holds c T -> headed T -> bl_ok T (last_bl c) -> e_com c <= t ->
  drop (Z.to_nat t) (combuf c) = U ++ 0 :: R -> Forall (fun x => x <> 0) U -> (length U <= fuel)%nat ->
  (forall c', holds c' (T ++ U) -> glob c' = glob c -> said c' = said c -> bl_ok (T ++ U) (last_bl c') -> Q tt c') ->
  wp (move_back fuel t) Q X c.
Proof.
  revert t c T U. induction fuel as [|fuel IH]; intros t c T U Hh Hd2 Hb He Hd Hn Hf HQ; cbn [move_back]; wp_step;
    pose proof (h_e _ _ Hh) as Hee;
    (destruct U as [|x U]; cbn in Hf; cbn [app] in Hd; destruct (drop_head _ _ _ _ Hd) as [Hx Hd']; (eapply wp_load_at; [lia|exact Hx|]));
    try (change (0 =? 0) with true; cbv iota; wp_step; apply HQ; by rewrite ?app_nil_r); [lia|].
  apply Forall_cons_1 in Hn as [Hx0 Hn]. replace (x =? 0) with false by lia.
  assert (Hroom : e_com c < l_com c + 5).
  { pose proof (h_len _ _ Hh). apply (f_equal length) in Hd. rewrite length_drop in Hd. cbn [length] in Hd. lia. }
  assert (Hgo : forall c1, holds c1 T -> glob c1 = glob c -> said c1 = said c -> e_com c1 = e_com c -> l_com c1 = l_com c -> combuf c1 = combuf c ->
    bl_ok (T ++ [x]) (last_bl c1) -> wp (put x ;; move_back fuel (t + 1)) Q X c1).
  { intros c1 H1 G1 S1 E1 L1 M1 B1. wp_step. apply (wp_put _ _ _ _ T); [done|lia|]. intros c2 H2 E2 [W1 W2 W3 W4 W5 W6].
    apply (IH _ _ (T ++ [x]) U); try done; [by apply headed_app|by rewrite W2|lia| |lia|].
    - replace (Z.to_nat (t + 1)) with (S (Z.to_nat t)) by lia. rewrite <- Hd', <- M1.
      replace (S (Z.to_nat t)) with (Z.to_nat (e_com c2) + (S (Z.to_nat t) - Z.to_nat (e_com c2)))%nat by lia.
      by rewrite <- !drop_drop, W6.
    - rewrite <- app_assoc. intros c' A1 A2 A3 A4. apply HQ; try done; congruence. }
  wp_step. apply wp_if; intros Eb; [apply wp_modify|apply wp_ret]; apply Hgo; try done.
  - by destruct Hh.
  - cbn. rewrite Hee. by apply bl_ok_end.
  - by apply bl_ok_app.
Qed.

Lemma wp_break_line P K (Q : () -> comst -> Prop) c T :
  filling P K c T -> e_com c < l_com c ->
  (forall c' T', filling P K c' T' -> said c' = said c -> avail (glob c') = avail (glob c) -> Q tt c') ->
  wp break_line Q noexit c.
Proof.
  intros F Hr HQ. pose proof F as [Hi Hh Hl Hb]. unfold break_line. wp_step. apply wp_field. destruct (last_bl c) as [b|] eqn:Eb.
  2: { apply (wp_dump_star P K _ c T); [done..|]. intros c' F' S'. apply (HQ c' _ F'); [apply S'|by apply still_avail]. }
  destruct Hb as (T1 & x & T2 & ET & Hx & -> & Hh1). wp_step. apply wp_field. wp_step.
  assert (HT1 : (2 <= length T1)%nat) by (destruct Hh1 as (? & ? & ? & -> & _); cbn; lia).
  apply (wp_store_end _ _ _ _ T); [by apply i_holds in Hi|lia|]. intros c1 H1 E1 G1 B1 S1 L1 (y & R & Hm & Hm1).
  replace (1 + Z.of_nat (length T1) =? dangling) with false by (unfold dangling; lia). wp_steps.
  set (c2 := c1 <| e_com := 1 + Z.of_nat (length T1) |>).
  set (K1 := ink (output (glob c)) ++ ink (lab (glob c)) ++ ink (code (glob c)) ++ ink T1 ++ ink (stream (glob c))).
  pose proof (i_nul _ _ _ _ Hi) as Hnul. rewrite ET in Hnul. apply Forall_app in Hnul as [Hn1 Hn2]. apply Forall_cons_1 in Hn2 as [_ Hn2].
  assert (Hi2 : inv P K1 c2 T1).
  { destruct Hi as [I1 I2 I3 I4 I5 I6 I7]. split; cbn; rewrite ?G1; try done.
    - destruct H1 as [A1 A2 _ A4 A5]. split; cbn; try done. exists y, (x :: T2 ++ 0 :: tail R). rewrite Hm1, ET. by rewrite <- app_assoc.
    - intros HP. destruct (I7 HP). by split. }
  apply (wp_dump_inv P K1 _ c2 T1); [done..|]. intros c3 Hi3 S3 (z & Hm3). wp_step.
  apply (wp_star_inv P K1); [done|]. intros c4 Hi4 S4 Hm4. wp_step. apply wp_field. wp_step.
  assert (Hd : drop (Z.to_nat (1 + Z.of_nat (length T1) + 1)) (combuf c4) = T2 ++ 0 :: tail R).
  { replace (Z.to_nat (1 + Z.of_nat (length T1) + 1)) with (4 + (length T1 - 2))%nat by lia.
    rewrite <- drop_drop, Hm4, Hm3. change (drop 4 (z :: 0 :: drop 2 (combuf c2))) with (drop 2 (drop 2 (combuf c1))).
    rewrite !drop_drop, Hm1, ET. replace (2 + (2 + (length T1 - 2)))%nat with (length (y :: T1 ++ [x])) by (cbn; rewrite length_app; cbn; lia).
    replace (y :: (T1 ++ x :: T2) ++ 0 :: tail R) with ((y :: T1 ++ [x]) ++ T2 ++ 0 :: tail R) by (cbn; by rewrite <- !app_assoc).
    by rewrite drop_app_length. }
  assert (Hlen : (length T2 <= length (combuf c4))%nat).
  { apply (f_equal length) in Hd. rewrite length_drop, length_app in Hd. lia. }
  eapply wp_skip_moved; [|exact Hd|done|]; [lia|]. intros t U Ht HdU HlU HkU Hsuf. wp_steps.
  pose proof (i_holds _ _ _ _ Hi4) as H4.
  eapply (wp_move_back _ _ _ _ _ [32; 42; 32] U); [by destruct H4|apply star_headed|done|cbn; rewrite (h_e _ _ H4); cbn; lia|exact HdU| |lia|].
  { destruct Hsuf as [B EU]. rewrite EU in Hn2. by apply Forall_app in Hn2 as [_ ?]. }
  intros c5 H5 G5 S5 B5. cbn in G5, S5. apply (HQ c5 ([32; 42; 32] ++ U)).
  - split; [|by apply headed_app, star_headed|rewrite length_app; cbn; lia|done].
    destruct Hi4 as [_ I2 I3 I4 I5 _ I7]. split; rewrite ?G5; try done.
    { apply Forall_app_2; [by repeat constructor|]. destruct Hsuf as [B EU]. rewrite EU in Hn2. by apply Forall_app in Hn2 as [_ ?]. }
    intros HP. destruct (I7 HP) as [T1' T2' T3' T4']. split; try done. destruct (i_track _ _ _ _ Hi HP) as [_ _ _ Q4].
    assert (Est : stream (glob c4) = stream (glob c)).
    { unfold stream. destruct S3 as [_ _ A1 A2 A3 _], S4 as [_ _ A1' A2' A3' _]. rewrite A1', A2', A3', A1, A2, A3. cbn. by rewrite G1. }
    rewrite <- Q4, ET, !ink_app, (ink_cons x), (blank_no_ink _ Hx), HkU, Est. unfold K1 in T4'. rewrite Est in T4'.
    cbn [app]. change (ink [32; 42; 32]) with (@nil Z) in *. cbn [app] in *. rewrite !app_assoc in T4' |- *. apply app_inv_tail in T4'. by rewrite T4', <- !app_assoc.
  - rewrite S5, (st_said _ _ S4), (st_said _ _ S3). done.
  - rewrite G5, (still_avail _ _ S4), (still_avail _ _ S3). cbn. by rewrite G1.
Qed.

Section Comment.
Context (P : Prop) (K : bytes).

Lemma wp_text_run adj (Q : () -> comst -> Prop) c T :
  filling P K c T -> cur (glob c) <> 10 -> cur (glob c) <> 0 ->
  (forall c' T', filling P K c' T' -> said c' = said c -> (avail (glob c') < avail (glob c))%nat -> Q tt c') ->
  wp (copy_text adj) Q noexit c.
Proof.
  intros F Hc Hc0 HQ. pose proof (i_lx _ _ _ _ (f_inv _ _ _ _ F)) as Hlx. unfold copy_text. wp_steps. apply wp_on_glob.
  apply wp_count_spaces; [by apply lx_wf|]. intros col _. replace (c <| glob := glob c |>) with c by (by destruct c). wp_step.
  apply (wp_copy_run P K _ _ _ _ _ T); [done..|by apply avail_rounds|]. intros n c1 T1 F1 S1 A1 R1. wp_step. apply wp_on_glob, wp_setps.
  wp_step. match goal with |- wp _ _ _ ?s => set (c2 := s) end.
  assert (F2 : filling P K c2 T1).
  { destruct F1 as [Hi Hh Hl Hb]. split; try done. by apply inv_glob. }
  unfold getp. apply wp_field. rewrite (i_box _ _ _ _ (f_inv _ _ _ _ F2)). change (avail (glob c1)) with (avail (glob c2)) in A1.
  apply wp_if; intros _; [|by wp_step; apply (HQ c2 T1)].
  destruct (exists_last (l := T1)) as (T0 & v & ET); [intros ->; destruct F2 as [_ _ Hl _]; cbn in Hl; lia|].
  wp_step. apply (wp_before_end _ _ _ T0 v); [rewrite <- ET; exact (i_holds _ _ _ _ (f_inv _ _ _ _ F2))|].
  apply wp_if; intros _; [|by wp_step; apply (HQ c2 T1)].
  apply (wp_break_line P K _ c2 T1); [done|done|]. intros c3 T3 F3 S3 A3. apply (HQ c3 T3); [done|by rewrite S3|lia].
Qed.

(** The comment is closed, the buffer ready for the next one. *)
Record finished (c c' : comst) : Prop := {
  fin_holds : exists U, holds c' (U ++ [42; 47]) /\ headed (U ++ [42; 47]) /\ Forall (fun x => x <> 0) U /\
    (P -> tracked K (glob c') (U ++ [42; 47]));
  fin_room : e_com c' < l_com c';
  fin_lx : lx_ok (glob c');
  fin_said : said c' = said c;
  fin_avail : (avail (glob c') < avail (glob c))%nat
}.

Lemma wp_end_of_comment decl (Q : () -> comst -> Prop) c T :
  inv P K c T -> headed T -> cur (glob c) = 47 -> e_com c + 3 < l_com c ->
  (forall c', finished c c' -> Q tt c') -> wp (end_of_comment false decl) Q noexit c.
Proof.
  intros [H1 H2 H3 H4 H5 H6 H7] Hh Hc Hr HQ. unfold end_of_comment. wp_step. apply wp_advance_c; [done|by rewrite Hc|].
  destruct (skip_ok _ H2) as [Hlx Hav]; [by rewrite Hc|]. fold (next (glob c)) in Hlx, Hav. wp_steps.
  set (c1 := c <| glob := next (glob c) |>). assert (H1' : holds c1 T) by (by destruct H1).
  destruct (exists_last (l := T)) as (T0 & v & ET); [intros ->; by destruct Hh as (? & ? & ? & ? & _)|].
  apply (wp_before_end _ _ _ T0 v); [by rewrite <- ET|]. wp_step. unfold getp. apply wp_field.
  assert (Hgo : forall c2 B, holds c2 (T ++ B) -> wrote c1 c2 -> e_com c2 + 2 < l_com c2 -> ink B = [] -> Forall (fun x => x <> 0) B ->
    wp (put 42 ;; put 47 ;; let! e := gets e_com in store e 0 ;; setp just_saw_decl decl) Q noexit c2).
  { intros c2 B A1 A2 A3 A4 A5. wp_step. apply (wp_put _ _ _ _ (T ++ B)); [done|lia|]. intros c3 A6 E3 W3. pose proof (w_l _ _ W3) as L3.
    wp_step. apply (wp_put _ _ _ _ ((T ++ B) ++ [42])); [done|lia|]. intros c4 A7 E4 W4. pose proof (w_l _ _ W4) as L4. wp_step. apply wp_field.
    wp_step. eapply wp_store_end; [exact A7|lia|]. intros c5 A8 E5 G5 _ S5 L5 _. apply wp_on_glob, wp_setps. apply HQ.
    assert (W : wrote c1 c4) by (etrans; [exact A2|]; by etrans). assert (G : glob c5 = next (glob c)) by (by rewrite G5, (w_glob _ _ W)).
    rewrite <- app_assoc in A8. cbn [app] in A8. split.
    - exists (T ++ B). split; [by destruct A8|]. split; [by apply headed_app, headed_app|]. split; [by apply Forall_app_2|]. intros HP.
      destruct (H7 HP) as [T1 T2 T3 T4]. rewrite G. split; try done. cbn -[ink].
      change (stream _) with (stream (next (glob c))).
      rewrite <- T4, (stream_next _ H2), Hc, !ink_app, A4, app_nil_r, (ink_cons 47), <- app_assoc.
      unfold stream. by rewrite (ink_app (drop _ (in_buffer (next _)))).
    - cbn. lia.
    - rewrite G. eapply lx_ok_same; [|exact Hlx]. lx_frame.
    - cbn. rewrite S5, (w_said _ _ W). done.
    - rewrite G. change (S (avail (next (glob c))) <= avail (glob c))%nat. lia. }
  wp_step. apply wp_if; intros _; [|wp_step; apply (Hgo c1 [])]; rewrite ?app_nil_r; try done; [|cbn; lia].
  apply (wp_put _ _ _ _ T); [done|cbn; lia|]. intros c2 A1 E2 W2. apply (Hgo c2 [32]); try done; [|by repeat constructor].
  rewrite (w_l _ _ W2). cbn in *. lia.
Qed.

(** The end of pr_comment: the comment is closed, or the input ended in it. *)
Definition done_with (c c' : comst) : Prop :=
  finished c c' \/
  (holds c' [] /\ lx_ok (glob c') /\ (avail (glob c') <= avail (glob c))%nat /\ said c' = said c ++ complaint).

Lemma done_with_later c c1 c' :
  said c1 = said c -> (avail (glob c1) < avail (glob c))%nat -> done_with c1 c' -> done_with c c'.
Proof.
  intros E A [[F1 F2 F3 F4 F5]|(H1 & H2 & H3 & H4)]; [left|right]; [split; try done; [congruence|lia]|].
  split_and!; try done; [lia|congruence].
Qed.

Lemma cur_not_nul g : lx_ok g -> cur g <> 0.
Proof.
  intros H. destruct (decide (cur g = 10)) as [->|Hc]; [done|]. pose proof (cur_newline g H) as Hn. pose proof (lx_ptr _ H) as Hp.
  destruct (lx_line _ H) as (p & E & Hnn). unfold cur in *. rewrite E in *. rewrite length_app in *. cbn in *.
  destruct (decide (buf_ptr g < length p)%nat) as [Hlt|]; [|lia]. rewrite lookup_app_l by done.
  destruct (lookup_lt_is_Some_2 p (buf_ptr g) Hlt) as [x Hx]. rewrite Hx. cbn.
  unfold no_nl in Hnn. rewrite forallb_forall in Hnn. specialize (Hnn x (proj1 (list_elem_of_In _ _) (list_elem_of_lookup_2 _ _ _ Hx))).
  bsimp. done.
Qed.

Lemma wp_copy_comment fuel adj decl c T :
  filling P K c T -> (avail (glob c) <= fuel)%nat ->
  wp (copy_comment fuel adj false decl) (fun _ c' => done_with c c') noexit c.
Proof.
  revert c T. induction fuel as [|fuel IH]; intros c T F Hf.
  { pose proof (lx_ptr _ (i_lx _ _ _ _ (f_inv _ _ _ _ F))). unfold avail in Hf. lia. }
  pose proof F as [Hi Hh Hl Hb]. pose proof (i_lx _ _ _ _ Hi) as Hlx.
  assert (Hnext : forall c' T', filling P K c' T' -> said c' = said c -> (avail (glob c') < avail (glob c))%nat ->
    wp (copy_comment fuel adj false decl) (fun _ c'' => done_with c c'') noexit c').
  { intros c' T' F' S' A'. eapply wp_mono; [apply (IH c' T'); [done|lia]|]. intros [] c'' D. by eapply done_with_later. }
  cbn [copy_comment]. wp_step. apply wp_peek_c; [done|]. apply wp_if; intros E1; [apply Z.eqb_eq in E1|apply wp_if; intros E2; [apply Z.eqb_eq in E2|apply wp_if; intros E3; [apply Z.eqb_eq in E3|]]].
  - wp_step. apply (wp_copy_form_feed P K _ c T); [done|done|]. apply Hnext.
  - wp_step. apply (wp_copy_newline P K _ c T); [done|done|..].
    + intros c' A1 A2 A3 A4. wp_step. right. split_and!; try done. lia.
    + intros c' T' A1 A2 A3 A4 A5 A6. apply (wp_end_of_comment _ _ c' T'); try done. intros c'' F''. apply (done_with_later _ c'); try done. by left.
    + apply Hnext.
  - wp_step. apply (wp_advance_inv P K _ c T); [done|by rewrite E3|by rewrite E3|]. intros c1 Hi1 [M1 M2 M3 M4 M5]. wp_step.
    assert (Hb1 : bl_ok T (last_bl c1)) by (by rewrite M1).
    apply (wp_check _ _ _ _ T); [by apply i_holds in Hi1|lia|by intros b; apply (bl_ok_pos T)|]. intros c2 H2 G2 B2 S2 R2.
    assert (Hi2 : inv P K c2 T) by (destruct Hi1; split; rewrite ?G2; auto). rewrite <- G2 in M5. rewrite <- B2 in Hb1.
    assert (Hs2 : said c2 = said c) by congruence. wp_step. apply wp_peek_c; [by apply i_lx in Hi2|]. apply wp_if; intros E4; [apply Z.eqb_eq in E4|].
    + apply (wp_end_of_comment _ _ c2 T); [done|done|done|lia|]. intros c' F'. apply (done_with_later _ c2); try done. by left.
    + wp_step. apply (wp_put _ _ _ _ T); [done|lia|]. intros c3 A1 A2 A3. pose proof (w_glob _ _ A3) as G3.
      apply (Hnext c3 (T ++ [42])); rewrite ?G3; try done; [|by rewrite (w_said _ _ A3)].
      split; [|by apply headed_app|rewrite length_app; lia|rewrite (w_bl _ _ A3); by apply bl_ok_app].
      destruct Hi2 as [I1 I2 I3 I4 I5 I6 I7]. split; rewrite ?G3; try done; [by apply Forall_app_2; [|repeat constructor]|].
      intros HP. destruct (I7 HP) as [T1 T2 T3 T4]. split; try done. by rewrite ink_app, app_nil_r.
  - wp_step. apply (wp_text_run _ _ c T); [done|by apply Z.eqb_neq|by apply cur_not_nul|]. apply Hnext.
Qed.
End Comment.

(** ** pr_comment *)

(** The comment is copied as it is, not filled. *)
Definition boxed (g : globals) : bool :=
  truth (col_1 (ps g)) && negb (truth (format_col1_comments (opt g))) || (cur g =? 45) || (cur g =? 42) ||
  (cur g =? 10) && negb (truth (format_block_comments (opt g))).

(** Its delimiters may be put on lines of their own. *)
Definition own_lines (g : globals) : bool :=
  truth (comment_delimiter_on_blankline (opt g)) && match lab g, code g with [], [] => true | _, _ => false end.

(** The comment buffer between two comments: it starts at its first byte, what it
    holds is an earlier comment of the line, and there is room for a delimiter. *)
Record ready (c : comst) : Prop := {
  rd_holds : holds c (text c);
  rd_head : text c = [] \/ headed (text c);
  rd_nul : Forall (fun x => x <> 0) (text c);
  rd_room : e_com c < l_com c;
  rd_lx : lx_ok (glob c)
}.

Section Whole.
Context (P : Prop) (K : bytes).

(** The column and the margin: nothing but the parser's fields changes. *)
Lemma wp_place (Q : Z * bool -> comst -> Prop) c T :
  inv P K c T -> boxed (glob c) = false -> own_lines (glob c) = false ->
  (forall adj c' p, inv P K c' T -> c' = c <| glob := glob c <| ps := p |> |> -> Q (adj, false) c') ->
  wp place Q noexit c.
Proof.
  intros Hi Hb Ho HQ. pose proof (i_lx _ _ _ _ Hi) as Hlx. unfold boxed in Hb. bsimp.
  unfold place. wp_step. apply wp_field.
  replace (truth (col_1 (ps (glob c))) && negb (truth (format_col1_comments (opt (glob c))))) with false by done.
  wp_step. apply wp_peek_c; [done|].
  replace ((cur (glob c) =? 45) || (cur (glob c) =? 42) || (cur (glob c) =? 10) && negb (truth (format_block_comments (opt (glob c))))) with false
    by (symmetry; apply orb_false_iff; split; [apply orb_false_iff; split; lia|done]).
  wp_steps.
  assert (Hset : forall adj col, wp (setp com_col col ;; ret (adj, false)) Q noexit c).
  { intros adj col. wp_step. apply wp_on_glob, wp_setps. wp_step. eapply HQ; [|done]. by apply inv_glob. }
  assert (Hcol : forall t, wp (let! col := (if (if truth (decl_on_line (ps (glob c))) || (ind_level (ps (glob c)) =? 0)
      then decl_com_ind (opt (glob c)) else com_ind (opt (glob c))) <=? t then of_opt (next_tab (tabsize (opt (glob c))) t)
      else ret (if truth (decl_on_line (ps (glob c))) || (ind_level (ps (glob c)) =? 0) then decl_com_ind (opt (glob c)) else com_ind (opt (glob c)))) in
      setp com_col col ;; ret (if max_col (opt (glob c)) <? col + 24 then col + 24 else max_col (opt (glob c)), false)) Q noexit c).
  { intros t. wp_step. apply wp_if; intros _; [|wp_step; apply Hset].
    destruct (next_tab_advances (tabsize (opt (glob c))) t) as (n & En & _); [by apply lx_wf in Hlx as []|].
    eapply wp_of_opt; [exact En|]. apply Hset. }
  assert (Hid : c <| glob := glob c |> = c) by (by destruct c).
  unfold own_lines in Ho. destruct (lab (glob c)) as [|x l] eqn:El, (code (glob c)) as [|y k] eqn:Ec.
  - rewrite andb_true_r in Ho. rewrite Ho. apply Hset.
  - wp_step. apply wp_on_glob. wp_step. eapply wp_mono; [by apply wp_code_target, lx_wf|]. intros t ? ->.
    apply wp_count_spaces; [by apply lx_wf|]. intros n _. rewrite Hid. apply Hcol.
  - wp_step. apply wp_on_glob. wp_step. eapply wp_mono; [by apply wp_label_target, lx_wf|]. intros t ? ->.
    apply wp_count_spaces; [by apply lx_wf|]. intros n _. rewrite Hid. apply Hcol.
  - wp_step. apply wp_on_glob. wp_step. eapply wp_mono; [by apply wp_code_target, lx_wf|]. intros t ? ->.
    apply wp_count_spaces; [by apply lx_wf|]. intros n _. rewrite Hid. apply Hcol.
Qed.
End Whole.

Definition ink_of (c : comst) (t : bytes) : bytes :=
  ink (output (glob c)) ++ ink (lab (glob c)) ++ ink (code (glob c)) ++ ink (text c) ++ t ++ ink (stream (glob c)).

Definition trackable (g : globals) : Prop := clean_label g /\ clean_code g /\ inhibit_formatting g = 0.

Lemma wp_pr_comment c :
  ready c -> quiet (input (glob c)) = true -> boxed (glob c) = false -> own_lines (glob c) = false ->
  truth (star_comment_cont (opt (glob c))) = true ->
  wp pr_comment (fun _ c' => com (glob c') = text c' /\
    exists c1, done_with (trackable (glob c)) (ink_of c [47]) c c1 /\ c' = c1 <| glob := glob c1 <| com := text c1 |> |>) noexit c.
Proof.
  intros [R1 R2 R3 R4 R5] Hq Hb Ho Hstar. set (T := text c) in *. set (P := trackable (glob c)).
  unfold pr_comment. wp_steps. unfold getp. apply wp_field. wp_step. apply wp_on_glob, wp_setps. wp_step. apply wp_on_glob, wp_setps.
  wp_step. apply wp_on_glob, wp_modify. wp_step. match goal with |- wp _ _ _ ?s => set (c1 := s) end.
  assert (Hi1 : inv P (ink_of c []) c1 T).
  { split; try done; [by destruct R1|by eapply lx_ok_same; [|exact R5]; lx_frame|]. intros (A1 & A2 & A3). by split. }
  apply (wp_place P (ink_of c []) _ c1 T); [done..|]. intros adj c2 p Hi2 E2. wp_step.
  unfold measure_indent. wp_step. apply wp_field. rewrite (i_box _ _ _ _ Hi2). change (truth 0) with false. cbv iota.
  wp_step. apply wp_on_glob, wp_setps. wp_step. match goal with |- wp _ _ _ ?s => set (c3 := s) end.
  assert (Hi3 : inv P (ink_of c []) c3 T) by (by apply inv_glob). unfold line_rounds. apply wp_field.
  apply (wp_skip_blanks P (ink_of c []) _ _ _ T); [done|lia|]. intros c4 k Hi4 B4 S4 M4 L4 A4 Hnb G4 St4. wp_step.
  unfold open_comment. wp_step. apply wp_on_glob, wp_setps. wp_step. match goal with |- wp _ _ _ ?s => set (c5 := s) end.
  assert (Hi5 : inv P (ink_of c []) c5 T) by (by apply inv_glob).
  assert (Ee : e_com c5 = e_com c) by (rewrite (h_e _ _ (i_holds _ _ _ _ Hi5)); by rewrite (h_e _ _ R1)).
  assert (Hst5 : ink (stream (glob c5)) = ink (stream (glob c))).
  { change (stream (glob c5)) with (stream (glob c4)). rewrite St4. unfold c3. by subst c2. }
  assert (E5 : output (glob c5) = output (glob c) /\ lab (glob c5) = lab (glob c) /\ code (glob c5) = code (glob c)).
  { unfold c5. cbn. rewrite G4. by subst c2. }
  destruct E5 as (E5o & E5l & E5c).
  assert (El : l_com c5 = l_com c) by (unfold c5; cbn; rewrite L4; subst c2; done).
  apply (wp_put _ _ _ _ T); [by apply i_holds in Hi5|lia|]. intros c6 H6 E6 W6. pose proof (w_l _ _ W6) as L6.
  wp_step. eapply wp_put; [exact H6|lia|]. intros c7 H7 E7 W7. pose proof (w_l _ _ W7) as L7.
  assert (G7 : glob c7 = glob c5) by (rewrite (w_glob _ _ W7); apply W6).
  wp_step. apply wp_peek_c; [rewrite G7; by apply i_lx in Hi5|]. wp_step. apply wp_field.
  assert (Hcur : (cur (glob c7) =? 32) = false) by (rewrite G7; unfold isblank in Hnb; bsimp; by apply Z.eqb_neq).
  rewrite Hcur, G7, (i_box _ _ _ _ Hi5). cbn [truth negb andb Z.eqb]. eapply wp_put; [exact H7|lia|]. intros c8 H8 E8 W8.
  rewrite <- !app_assoc in H8. cbn [app] in H8.
  wp_step. change (one_liner adj false) with (ret (S := comst) false). wp_step. wp_step.
  change (break_open false) with (ret (S := comst) tt). wp_step. wp_step. apply wp_field. wp_step.
  assert (W : wrote c5 c8) by (etrans; [exact W6|]; by etrans).
  assert (G8 : glob c8 = glob c5) by apply W. assert (Hlx8 : lx_ok (glob c8)) by (rewrite G8; by apply i_lx in Hi5).
  assert (F8 : filling P (ink_of c [47]) c8 (T ++ [47; 42; 32])).
  { split.
    - destruct Hi5 as [_ I2 I3 I4 I5 I6 I7]. split; rewrite ?G8; try done; [by apply Forall_app_2; [|repeat constructor]|].
      intros HP. destruct (I7 HP) as [T1 T2 T3 T4]. split; try done. unfold ink_of. fold T.
      by rewrite E5o, E5l, E5c, Hst5, ink_app, <- app_assoc.
    - destruct R2 as [ET|R2]; [rewrite ET; by exists 47, 42, [32]|by apply headed_app].
    - rewrite length_app. cbn. lia.
    - rewrite (w_bl _ _ W). unfold c5. cbn. rewrite B4. subst c2. done. }
  eapply wp_mono; [eapply wp_copy_comment; [exact F8|by apply avail_rounds]|]. intros [] c9 D9. split; [|exists c9; split; [|done]].
  - done.
  - assert (Hs8 : said c8 = said c) by (rewrite (w_said _ _ W); unfold c5; cbn; rewrite S4; subst c2; done).
    assert (Ha8 : (avail (glob c8) <= avail (glob c))%nat).
    { rewrite G8. unfold c5. etrans; [exact A4|]. unfold c3. subst c2. done. }
    destruct D9 as [[F1 F2 F3 F4 F5]|(A1 & A2 & A3 & A5)]; [left; split; try done; [congruence|lia]|].
    right. split_and!; try done; [lia|congruence].
Qed.

(** ** Examples *)

Definition opts (cdb star : Z) : options :=
  opt_zero <| tabsize := 8 |> <| ind_size := 8 |> <| max_col := 78 |> <| block_comment_max_col := 20 |> <| com_ind := 33 |>
    <| decl_com_ind := 33 |> <| format_col1_comments := 1 |> <| format_block_comments := 1 |>
    <| comment_delimiter_on_blankline := cdb |> <| star_comment_cont := star |>.

(** pr_comment called after the first [p] bytes of a line, with an empty comment
    buffer of its initial size. *)
Definition at_comment (o : options) (line rest : bytes) (p : nat) : comst :=
  Comst (globals_zero rest <| opt := o |> <| in_buffer := line |> <| buf_ptr := p |>) [32; 0] 1 1 195 None [].

Definition nl (s : String.string) : bytes := bs s ++ [10].
Arguments nl s%_string_scope.

(** What has been printed and what is left in the comment buffer. *)
Definition result (r : sres comst ()) : option (bytes * bytes) :=
  match r with
  | SRet _ c => Some (output (glob c), com (glob c))
  | _ => None
  end.

Lemma at_comment_ready o p rest k :
  no_nl p -> (k < S (length p))%nat -> 0 < tabsize o -> sf_trunc (flt_mul (S754_zero false) (flt_of_Z (ind_size o))) <> None ->
  ready (at_comment o (p ++ [10]) rest k).
Proof.
  intros Hp Hk Ht Hs. split; cbn; try done; [|by left|].
  2: { split; [by split|by exists p|cbn; rewrite length_app; cbn; lia|done|done]. }
  split; cbn; try done. by exists 32, [0].
Qed.

(** A comment that is filled: the newline and the blanks around it count as one
    blank, the line is broken at the last blank before the margin. *)
Example filled_comment :
  result (pr_comment (at_comment (opts 0 1) (nl "/*one two three four") (nl "   five  six */ x") 2)) =
  Some (nl "/* one two three", bs " * four five  six */").
Proof. vm_compute. reflexivity. Qed.

(** * Properties *)

(** C12. A comment that is not boxed, is continued with stars and does not get its
    delimiters on lines of their own is always processed to its end: pr_comment
    returns, never writes outside the comment buffer (which it grows) and never
    reads a byte that was not written, and leaves the buffer ready for the next
    comment.  What it leaves there ends in the closing delimiter, or is empty
    after the input ended inside the comment, which it reports. *)
Theorem pr_comment_returns c :
  ready c -> quiet (input (glob c)) = true -> boxed (glob c) = false -> own_lines (glob c) = false ->
  truth (star_comment_cont (opt (glob c))) = true ->
  exists c', pr_comment c = SRet tt c' /\ ready c' /\ com (glob c') = text c' /\ (avail (glob c') <= avail (glob c))%nat /\
    ((said c' = said c /\ exists U, com (glob c') = U ++ bs "*/") \/
     (said c' = said c ++ bs "Unterminated comment" ++ [10] /\ com (glob c') = [])).
Proof.
  intros H1 H2 H3 H4 H5. destruct (wp_run _ _ _ (wp_pr_comment c H1 H2 H3 H4 H5)) as ([] & c' & Er & Ec & c1 & D & E1).
  exists c'. split; [done|].
  assert (Hlx : lx_ok (glob c1) -> lx_ok (glob c')) by (intros L; subst c'; eapply lx_ok_same; [|exact L]; lx_frame).
  assert (Ha : avail (glob c') = avail (glob c1)) by (by subst c'). assert (Hs : said c' = said c1) by (by subst c').
  destruct D as [[(U & F1 & F2 & F3 & _) R L S A]|(F1 & L & A & S)]; pose proof (holds_text _ _ F1) as Et;
    replace (text c1) with (text c') in Et by (by subst c'); rewrite Ec, Et.
  - split; [|split_and!; [done|lia|left; split; [congruence|by exists U]]].
    split; rewrite ?Et; subst c'; try done; [by destruct F1|by right|apply Forall_app_2; [done|by repeat constructor]|by apply Hlx].
  - split; [|split_and!; [done|lia|right; split; [by rewrite Hs, S|done]]].
    split; rewrite ?Et; subst c'; try done; [by destruct F1|by left|pose proof (h_e _ _ F1) as He1; pose proof (h_l _ _ F1); cbn in *; lia|by apply Hlx].
Qed.

Definition demo_comment : comst := at_comment (opts 0 1) (nl "/*one two three four") (nl "   five  six */ x") 2.

Lemma demo_ready : ready demo_comment.
Proof. apply at_comment_ready; [done|cbn; lia|done|done]. Qed.

Lemma pr_comment_returns_witness :
  exists c', pr_comment demo_comment = SRet tt c' /\ ready c' /\ com (glob c') = text c' /\ (avail (glob c') <= avail (glob demo_comment))%nat /\
    ((said c' = said demo_comment /\ exists U, com (glob c') = U ++ bs "*/") \/
     (said c' = said demo_comment ++ bs "Unterminated comment" ++ [10] /\ com (glob c') = [])).
Proof. apply pr_comment_returns; [exact demo_ready|vm_compute; reflexivity..]. Defined.



(** Outside of these conditions. *)

(** Without stars (-nsc), a word longer than the line leaves the buffer empty; the
    blank of the newline after it is then looked for before the start of the
    buffer, and the next long word is broken there. *)
Example break_before_buffer :
  pr_comment (at_comment (opts 0 0) (nl "/*abcdefghijklmnopqrstuvwxyz") (nl "abcdefghijklmnopqrstuvwxyz" ++ nl "*/") 2) = SUndef.
Proof. vm_compute. reflexivity. Qed.

(** An empty line of a boxed comment that moves to the left: the search for its
    first byte runs into the line before it, which is still in the buffer. *)
Example boxed_empty_line :
  pr_comment (at_comment (opts 0 1) ([9] ++ nl "/*-") ([9] ++ nl " * one" ++ nl "" ++ nl " */") 3) = SUndef /\
  pr_comment (at_comment (opts 0 1) ([9] ++ nl "/*-") ([9] ++ nl " * one" ++ [9] ++ nl " *" ++ nl " */") 3) <> SUndef.
Proof. split; [vm_compute; reflexivity|vm_compute; discriminate]. Qed.

(** With the opening delimiter on a line of its own the text does not start at the
    first byte of the buffer; when the buffer grows it is taken to, and as many
    bytes are lost. *)
Example growth_loses_text :
  option_map (fun '(o, t) => length (List.filter (Z.eqb 97) (o ++ t)))
    (result (pr_comment (at_comment (opts 1 1) (bs "/*" ++ replicate 200 97 ++ nl "bcd*/") [] 2))) = Some 197%nat.
Proof. vm_compute. reflexivity. Qed.

End IndentFill.
