(* ===== verification/IndentArgs.v ===== *)
(** * indent(1): src/bsd_additions/indent/args.c

    The option table, the defaults, the scanning of one option and of a profile
    file.  A pointer to an option variable is the pair of its read and its
    write; atof(3) and the files a profile names are parameters. *)

From S2P Require Import Prelude Monad IndentGlobs IndentIo IndentNumbers IndentLexi.
From stdpp Require Import base list numbers.
From Stdlib Require Import ZArith Lia SpecFloat.

Open Scope Z_scope.

Module IndentArgs.

Import IndentLexi.
Local Open Scope ind_scope.

(** ** The table *)

(** profile types and specials *)
Definition PRO_SPECIAL : Z := 1.
Definition PRO_BOOL : Z := 2.
Definition PRO_INT : Z := 3.
Definition ON : Z := 1.
Definition OFF : Z := 0.
Definition IGN : Z := 1.
Definition CLI : Z := 2.
Definition STDIN : Z := 3.
Definition KEY : Z := 4.
Definition KEY_FILE : Z := 5.
Definition VERSION : Z := 6.

(** The variable behind a pointer [&opt.f]. *)
Record var := Var { vget : options -> Z; vset : Z -> options -> options }.

Definition obj (f : options -> Z) `{Setter _ _ f} : option var :=
  Some (Var f (fun v o => o <| f := v |>)).

(** struct pro *)
Record pro_t := Pro {
  p_name : bytes;
  p_type : Z;
  p_default : Z;
  p_special : Z;
  p_obj : option var
}.

Definition pro : list pro_t :=
  [Pro (bs "T") PRO_SPECIAL 0 KEY None;
   Pro (bs "U") PRO_SPECIAL 0 KEY_FILE None;
   Pro (bs "-version") PRO_SPECIAL 0 VERSION None;
   Pro (bs "P") PRO_SPECIAL 0 IGN None;
   Pro (bs "bacc") PRO_BOOL 0 ON (obj blanklines_around_conditional_compilation);
   Pro (bs "badp") PRO_BOOL 0 ON (obj blanklines_after_declarations_at_proctop);
   Pro (bs "bad") PRO_BOOL 0 ON (obj blanklines_after_declarations);
   Pro (bs "bap") PRO_BOOL 0 ON (obj blanklines_after_procs);
   Pro (bs "bbb") PRO_BOOL 0 ON (obj blanklines_before_blockcomments);
   Pro (bs "bc") PRO_BOOL 1 OFF (obj leave_comma);
   Pro (bs "bl") PRO_BOOL 1 OFF (obj btype_2);
   Pro (bs "br") PRO_BOOL 1 ON (obj btype_2);
   Pro (bs "bs") PRO_BOOL 0 ON (obj Bill_Shannon);
   Pro (bs "cdb") PRO_BOOL 1 ON (obj comment_delimiter_on_blankline);
   Pro (bs "cd") PRO_INT 0 0 (obj decl_com_ind);
   Pro (bs "ce") PRO_BOOL 1 ON (obj cuddle_else);
   Pro (bs "ci") PRO_INT 0 0 (obj continuation_indent);
   Pro (bs "cli") PRO_SPECIAL 0 CLI None;
   Pro (bs "cs") PRO_BOOL 0 ON (obj space_after_cast);
   Pro (bs "c") PRO_INT 33 0 (obj com_ind);
   Pro (bs "di") PRO_INT 16 0 (obj decl_indent);
   Pro (bs "dj") PRO_BOOL 0 ON (obj ljust_decl);
   Pro (bs "d") PRO_INT 0 0 (obj unindent_displace);
   Pro (bs "eei") PRO_BOOL 0 ON (obj extra_expression_indent);
   Pro (bs "ei") PRO_BOOL 1 ON (obj else_if);
   Pro (bs "fbs") PRO_BOOL 1 ON (obj function_brace_split);
   Pro (bs "fc1") PRO_BOOL 1 ON (obj format_col1_comments);
   Pro (bs "fcb") PRO_BOOL 1 ON (obj format_block_comments);
   Pro (bs "ip") PRO_BOOL 1 ON (obj indent_parameters);
   Pro (bs "i") PRO_INT 8 0 (obj ind_size);
   Pro (bs "lc") PRO_INT 0 0 (obj block_comment_max_col);
   Pro (bs "ldi") PRO_INT (-1) 0 (obj local_decl_indent);
   Pro (bs "lpl") PRO_BOOL 0 ON (obj lineup_to_parens_always);
   Pro (bs "lp") PRO_BOOL 1 ON (obj lineup_to_parens);
   Pro (bs "l") PRO_INT 78 0 (obj max_col);
   Pro (bs "nbacc") PRO_BOOL 0 OFF (obj blanklines_around_conditional_compilation);
   Pro (bs "nbadp") PRO_BOOL 0 OFF (obj blanklines_after_declarations_at_proctop);
   Pro (bs "nbad") PRO_BOOL 0 OFF (obj blanklines_after_declarations);
   Pro (bs "nbap") PRO_BOOL 0 OFF (obj blanklines_after_procs);
   Pro (bs "nbbb") PRO_BOOL 0 OFF (obj blanklines_before_blockcomments);
   Pro (bs "nbc") PRO_BOOL 1 ON (obj leave_comma);
   Pro (bs "nbs") PRO_BOOL 0 OFF (obj Bill_Shannon);
   Pro (bs "ncdb") PRO_BOOL 1 OFF (obj comment_delimiter_on_blankline);
   Pro (bs "nce") PRO_BOOL 1 OFF (obj cuddle_else);
   Pro (bs "ncs") PRO_BOOL 0 OFF (obj space_after_cast);
   Pro (bs "ndj") PRO_BOOL 0 OFF (obj ljust_decl);
   Pro (bs "neei") PRO_BOOL 0 OFF (obj extra_expression_indent);
   Pro (bs "nei") PRO_BOOL 1 OFF (obj else_if);
   Pro (bs "nfbs") PRO_BOOL 1 OFF (obj function_brace_split);
   Pro (bs "nfc1") PRO_BOOL 1 OFF (obj format_col1_comments);
   Pro (bs "nfcb") PRO_BOOL 1 OFF (obj format_block_comments);
   Pro (bs "nip") PRO_BOOL 1 OFF (obj indent_parameters);
   Pro (bs "nlpl") PRO_BOOL 0 OFF (obj lineup_to_parens_always);
   Pro (bs "nlp") PRO_BOOL 1 OFF (obj lineup_to_parens);
   Pro (bs "npcs") PRO_BOOL 0 OFF (obj proc_calls_space);
   Pro (bs "npro") PRO_SPECIAL 0 IGN None;
   Pro (bs "npsl") PRO_BOOL 1 OFF (obj procnames_start_line);
   Pro (bs "nps") PRO_BOOL 0 OFF (obj pointer_as_binop);
   Pro (bs "nsc") PRO_BOOL 1 OFF (obj star_comment_cont);
   Pro (bs "nsob") PRO_BOOL 0 OFF (obj swallow_optional_blanklines);
   Pro (bs "nut") PRO_BOOL 1 OFF (obj use_tabs);
   Pro (bs "nv") PRO_BOOL 0 OFF (obj verbose);
   Pro (bs "pcs") PRO_BOOL 0 ON (obj proc_calls_space);
   Pro (bs "psl") PRO_BOOL 1 ON (obj procnames_start_line);
   Pro (bs "ps") PRO_BOOL 0 ON (obj pointer_as_binop);
   Pro (bs "sc") PRO_BOOL 1 ON (obj star_comment_cont);
   Pro (bs "sob") PRO_BOOL 0 ON (obj swallow_optional_blanklines);
   Pro (bs "st") PRO_SPECIAL 0 STDIN None;
   Pro (bs "ta") PRO_BOOL 0 ON (obj auto_typedefs);
   Pro (bs "ts") PRO_INT 8 0 (obj tabsize);
   Pro (bs "ut") PRO_BOOL 1 ON (obj use_tabs);
   Pro (bs "v") PRO_BOOL 0 ON (obj verbose)].

(** ** set_defaults *)

Definition default_of (o : options) (p : pro_t) : options :=
  if negb (p_type p =? PRO_SPECIAL) then
    match p_obj p with
    | Some x => vset x (p_default p) o
    | None => o
    end
  else o.

Definition set_defaults : M () :=
  modify (fun g => g <| opt := fold_left default_of pro (opt g <| case_indent := S754_zero false |>) |>).

(** ** set_option *)

(** The rest of [s2] after the prefix [s1]; [None] when it is no prefix. *)
Fixpoint eqin (s1 s2 : bytes) : option bytes :=
  match s1, s2 with
  | [], _ => Some s2
  | c :: s1, d :: s2 => if c =? d then eqin s1 s2 else None
  | _ :: _, [] => None
  end.

(** The first entry whose name is a prefix of the argument, and the parameter. *)
Fixpoint find_pro (t : list pro_t) (arg : bytes) : option (pro_t * bytes) :=
  match t with
  | [] => None
  | p :: t =>
      if hd0 (p_name p) =? hd0 arg then
        match eqin (p_name p) arg with
        | Some param => Some (p, param)
        | None => find_pro t arg
        end
      else find_pro t arg
  end.

(** atoi(3): strtol of the digits, converted to int. *)
Definition atoi (s : bytes) : Z :=
  let '(ds, _) := span isdigit s in
  sint 32 (Z.min (num_of_digits 10 ds) (2 ^ 63 - 1)).

Definition BUFSIZ : nat := 1024.

(** The C string in a buffer: what precedes the first NUL. *)
Definition cstr (s : bytes) : bytes := fst (span (fun c => negb (c =? 0)) s).

Section Options.
(** [atof] converted to float; the contents of a file, if it can be opened; the
    name set_profile reports options under. *)
Context (atof : bytes -> float) (fopen : bytes -> option bytes) (option_source : bytes).

Definition unknown {A} (arg : bytes) : M A :=
  mexit 1 (option_source ++ bs ": unknown parameter " ++ [34] ++ arg ++ [34]).

Definition need_param {A} (p : pro_t) : M A :=
  mexit 1 (option_source ++ bs ": ``" ++ p_name p ++ bs "'' requires a parameter").

(** fgets(3): up to BUFSIZ - 1 characters or through a newline. *)
Fixpoint fgets (n : nat) (f : bytes) : bytes * bytes :=
  match n, f with
  | S n, c :: f =>
      if c =? 10 then ([c], f)
      else let (l, rest) := fgets n f in (c :: l, rest)
  | _, _ => ([], f)
  end.

(** [line[strcspn(line, " \t\n\r")] = '\0']. *)
Definition strip_line (l : bytes) : bytes :=
  fst (span (fun c => negb ((c =? 32) || (c =? 9) || (c =? 10) || (c =? 13))) (cstr l)).

Fixpoint add_lines (fuel : nat) (f : bytes) : M () :=
  match f with
  | [] => ret tt
  | _ =>
      match fuel with
      | O => mundef
      | S n =>
          let (line, rest) := fgets (BUFSIZ - 1) f in
          add_typename (strip_line line) ;; add_lines n rest
      end
  end.

Definition add_typedefs_from_file (str : bytes) : M () :=
  match fopen str with
  | None => mexit 1 (bs "indent: cannot open file " ++ str)
  | Some f => add_lines (length f) f
  end.

Definition set_special (p : pro_t) (param_start : bytes) : M () :=
  if p_special p =? IGN then ret tt
  else if p_special p =? CLI then
    match param_start with
    | [] => need_param p
    | _ => modify (fun g => g <| opt := opt g <| case_indent := atof param_start |> |>)
    end
  else if p_special p =? STDIN then
    modify (fun g => if input_set g then g else g <| input := stdin_data g |> <| input_set := true |>) ;;
    modify (fun g => if output_set g then g else g <| output_is_stdout := true |> <| output_set := true |>)
  else if p_special p =? KEY then
    match param_start with
    | [] => need_param p
    | _ => add_typename param_start
    end
  else if p_special p =? KEY_FILE then
    match param_start with
    | [] => need_param p
    | _ => add_typedefs_from_file param_start
    end
  else if p_special p =? VERSION then
    IndentIo.puts (bs "FreeBSD indent 2.0" ++ [10]) ;; mexit 0 []
  else mexit 1 (bs "set_option: internal error: p_special " ++ IndentIo.print_d (p_special p)).

Definition set_var (p : pro_t) (v : Z) : M () :=
  match p_obj p with
  | Some x => modify (fun g => g <| opt := vset x v (opt g) |>)
  | None => mundef
  end.

(** [arg] is the memory from the argument on: the string is what precedes the
    first NUL, and [arg++] skips one character whatever it is. *)
Definition set_option (arg : bytes) : M () :=
  match find_pro pro (cstr (tail arg)) with
  | None => unknown (cstr arg)
  | Some (p, param_start) =>
      if p_type p =? PRO_SPECIAL then set_special p param_start
      else if p_type p =? PRO_BOOL then set_var p (if p_special p =? OFF then 0 else 1)
      else if p_type p =? PRO_INT then
        if negb (isdigit (hd0 param_start)) then need_param p
        else set_var p (atoi param_start)
      else mexit 1 (bs "set_option: internal error: p_type " ++ IndentIo.print_d (p_type p))
  end.

(** ** Profiles *)

(** [*p++ = i] into buf[BUFSIZ]. *)
Definition store (buf : bytes) (i : Z) : option bytes :=
  if (length buf <? BUFSIZ)%nat then Some (buf ++ [i]) else None.

(** The inner loop: the text collected in the buffer and the rest of the file;
    [None] for a store outside the buffer. *)
Fixpoint read_word (f buf : bytes) (comment : nat) : option (bytes * bytes) :=
  match f with
  | [] => Some (buf, [])
  | i :: f =>
      if (i =? 42) && (comment =? 0)%nat && (0 <? length buf)%nat && (hd0 (reverse buf) =? 47) then
        match store buf i with
        | Some buf' => read_word f buf' (length buf)
        | None => None
        end
      else if (i =? 47) && (0 <? comment)%nat && (0 <? length buf)%nat && (hd0 (reverse buf) =? 42) then
        read_word f (take (comment - 1) buf) 0
      else if isspace i then
        if (0 <? length buf)%nat && (comment =? 0)%nat then Some (buf, f) else read_word f buf comment
      else
        match store buf i with
        | Some buf' => read_word f buf' comment
        | None => None
        end
  end.

Fixpoint scan_profile (fuel : nat) (f : bytes) : M () :=
  match fuel with
  | O => mundef
  | S n =>
      let! (buf, rest) := of_opt (read_word f [] 0) in
      match buf with
      | [] => ret tt
      | _ =>
          let! buf0 := of_opt (store buf 0) in
          let! v := getopt verbose in
          (if truth v then IndentIo.puts (bs "profile: " ++ cstr buf0 ++ [10]) else ret tt) ;;
          set_option buf0 ;;
          scan_profile n rest
      end
  end.
End Options.

Definition PATH_MAX : nat := 1024.

(** [getenv("HOME")] is [home]; the name of the option source is the file's. *)
Definition set_profile (atof : bytes -> float) (fopen : bytes -> option bytes) (home : option bytes)
    (fuel : nat) (profile_name : option bytes) : M () :=
  let! fname := match profile_name with
                | None => let! h := of_opt home in ret (take (PATH_MAX - 1) (h ++ bs "/" ++ bs ".indent.pro"))
                | Some n => ret (take (PATH_MAX - 1) (drop 2 n))
                end in
  (match fopen fname with
   | Some f => scan_profile atof fopen fname fuel f
   | None => ret tt
   end) ;;
  (match fopen (bs ".indent.pro") with
   | Some f => scan_profile atof fopen (bs ".indent.pro") fuel f
   | None => ret tt
   end).

(** ** The table is well ordered *)

(** [q] listed before [p] does not hide it: [q]'s name is no prefix of [p]'s, nor
    of [p]'s followed by a digit. *)
Fixpoint hides (q p : bytes) : bool :=
  match q, p with
  | [], _ => true
  | c :: _, [] => isdigit c
  | c :: q, d :: p => (c =? d) && hides q p
  end.

Fixpoint well_ordered (t : list pro_t) : bool :=
  match t with
  | [] => true
  | q :: t => forallb (fun p => negb (hides (p_name q) (p_name p))) t && well_ordered t
  end.

Definition digits (param : bytes) : Prop := forallb isdigit param = true.

Lemma eqin_app s r : eqin s (s ++ r) = Some r.
Proof. induction s as [|c s IH]; cbn; [done|]. by rewrite Z.eqb_refl. Qed.

Lemma eqin_unhidden q p param :
  hides q p = false -> digits param -> eqin q (p ++ param) = None.
Proof.
  revert p. induction q as [|c q IH]; intros p; [done|].
  destruct p as [|d p]; cbn [hides app].
  - intros Hc Hp. destruct param as [|e param]; [done|].
    unfold digits in Hp. cbn [forallb] in Hp. apply andb_prop in Hp as [He _].
    cbn [eqin]. destruct (Z.eqb_spec c e); [congruence|done].
  - cbn [eqin]. destruct (Z.eqb_spec c d) as [->|]; cbn [andb]; [apply IH|done].
Qed.

Lemma find_pro_named t p param :
  well_ordered t = true -> p ∈ t -> p_name p <> [] -> digits param ->
  find_pro t (p_name p ++ param) = Some (p, param).
Proof.
  intros Hw Hin Hn Hd. induction t as [|q t IH]; [by apply elem_of_nil in Hin|].
  cbn [well_ordered] in Hw. apply andb_prop in Hw as [Hq Hw]. cbn [find_pro].
  apply elem_of_cons in Hin as [->|Hin].
  - rewrite eqin_app. destruct (p_name q); [done|]. by rewrite Z.eqb_refl.
  - rewrite (eqin_unhidden _ (p_name p)).
    + rewrite (IH Hw Hin). by destruct (_ =? _).
    + rewrite forallb_forall in Hq. apply negb_true_iff, (Hq p). by apply list_elem_of_In.
    + done.
Qed.

Lemma pro_well_ordered : well_ordered pro = true.
Proof. by vm_compute. Qed.

(** ** The variables behind the table *)

(** A variable that can be read back and whose write changes no other entry's
    variable unless that entry names the same one. *)
Definition var_ok (x : var) : Prop := forall v o, vget x (vset x v o) = v.

Lemma obj_ok p x : p ∈ pro -> p_obj p = Some x -> var_ok x.
Proof.
  assert (H : List.Forall (fun p => forall x, p_obj p = Some x -> var_ok x) pro).
  { unfold pro. repeat (apply List.Forall_cons; [intros y [= <-]; intros v []; reflexivity|]). by apply List.Forall_nil. }
  rewrite List.Forall_forall in H. intros Hp. apply H. by apply list_elem_of_In.
Qed.

Lemma names_nonempty p : p ∈ pro -> p_name p <> [] /\ forallb (fun c => negb (c =? 0)) (p_name p) = true.
Proof.
  assert (H : List.Forall (fun p => p_name p <> [] /\ forallb (fun c => negb (c =? 0)) (p_name p) = true) pro).
  { unfold pro. repeat (apply List.Forall_cons; [by split|]). by apply List.Forall_nil. }
  rewrite List.Forall_forall in H. intros Hp. apply H. by apply list_elem_of_In.
Qed.

Lemma typed_objects p : p ∈ pro -> p_type p <> PRO_SPECIAL ->
  (p_type p = PRO_BOOL \/ p_type p = PRO_INT) /\ exists x, p_obj p = Some x.
Proof.
  assert (H : List.Forall (fun p => p_type p <> PRO_SPECIAL ->
    (p_type p = PRO_BOOL \/ p_type p = PRO_INT) /\ exists x, p_obj p = Some x) pro).
  { unfold pro. repeat (apply List.Forall_cons; [cbn; intros ?; first [done | split; [by auto|by eexists]]|]).
    by apply List.Forall_nil. }
  rewrite List.Forall_forall in H. intros Hp. apply H. by apply list_elem_of_In.
Qed.

Lemma cstr_plain s : forallb (fun c => negb (c =? 0)) s = true -> cstr s = s.
Proof. intros H. unfold cstr. by rewrite span_all_nil. Qed.

Lemma cstr_nul s r : forallb (fun c => negb (c =? 0)) s = true -> cstr (s ++ 0 :: r) = s.
Proof. intros H. unfold cstr. rewrite span_all; [done|done|by right]. Qed.

Lemma digits_plain s : digits s -> forallb (fun c => negb (c =? 0)) s = true.
Proof.
  unfold digits. rewrite !forallb_forall. intros H c Hc. specialize (H c Hc).
  unfold isdigit in H. lia.
Qed.

(** An option made of an entry's name and a parameter of digits selects that entry. *)
Lemma option_selects p param :
  p ∈ pro -> digits param -> find_pro pro (cstr (tail (45 :: p_name p ++ param))) = Some (p, param).
Proof.
  intros Hp Hd. destruct (names_nonempty p Hp) as [Hn Hz]. cbn [tail].
  rewrite cstr_plain by (by rewrite forallb_app, Hz, digits_plain).
  by apply find_pro_named; [exact pro_well_ordered|..].
Qed.

Lemma atoi_print n :
  0 <= n < 2 ^ 31 ->
  digits (print_base 10 n) /\ isdigit (hd0 (print_base 10 n)) = true /\ atoi (print_base 10 n) = n.
Proof.
  intros Hn. destruct (print_base_spec 10 n) as (Hne & Hd & Hv & _); [lia|unfold ULONG_MAX; lia|].
  assert (Hdig : digits (print_base 10 n)).
  { unfold digits. rewrite forallb_forall in *. intros c Hc. by apply base10_isdigit, Hd. }
  split; [done|]. split.
  - unfold digits in Hdig. destruct (print_base 10 n); [done|]. cbn in *. by apply andb_prop in Hdig as [? _].
  - unfold atoi. rewrite span_all_nil by done. rewrite Hv, Z.min_l by lia. apply sint_small; lia.
Qed.

(** What an option with an entry's name does, by the type of the entry. *)
Lemma set_option_entry atof fopen src p param g :
  p ∈ pro -> digits param ->
  set_option atof fopen src (45 :: p_name p ++ param) g =
  (if p_type p =? PRO_SPECIAL then set_special atof fopen src p param
   else if p_type p =? PRO_BOOL then set_var p (if p_special p =? OFF then 0 else 1)
   else if p_type p =? PRO_INT then
     if negb (isdigit (hd0 param)) then need_param src p else set_var p (atoi param)
   else mexit 1 (bs "set_option: internal error: p_type " ++ IndentIo.print_d (p_type p))) g.
Proof. intros Hp Hd. unfold set_option. by rewrite option_selects. Qed.

(** ** Profile texts *)

(** A profile as its author writes it: words that end in white space, blanks, and
    comments. *)
Inductive item :=
| Word (w : bytes) (sp : Z)
| Blank (sp : Z)
| Note (body : bytes).

Definition render_item (i : item) : bytes :=
  match i with
  | Word w sp => w ++ [sp]
  | Blank sp => [sp]
  | Note body => bs "/*" ++ body ++ bs "*/"
  end.

Definition render (l : list item) : bytes := flat_map render_item l.

(** No white space, no NUL, no star (so no comment starts in it), room for the NUL. *)
Definition word_ok (w : bytes) : bool :=
  negb (length w =? 0)%nat && (length w <? BUFSIZ)%nat &&
  forallb (fun c => negb (isspace c) && negb (c =? 42) && negb (c =? 0)) w.

(** No slash in the comment, and room for it and its delimiters. *)
Definition note_ok (body : bytes) : bool :=
  forallb (fun c => negb (c =? 47)) body && (length body + 3 <=? BUFSIZ)%nat.

Definition item_ok (i : item) : bool :=
  match i with
  | Word w sp => word_ok w && isspace sp
  | Blank sp => isspace sp
  | Note body => note_ok body
  end.

Definition words (l : list item) : list bytes :=
  flat_map (fun i => match i with Word w _ => [w] | _ => [] end) l.

(** Reading a word from the buffer position after [buf]. *)
Lemma read_word_step f buf w :
  forallb (fun c => negb (isspace c) && negb (c =? 42) && negb (c =? 0)) w = true ->
  (length buf + length w < BUFSIZ)%nat ->
  read_word (w ++ f) buf 0 = read_word f (buf ++ w) 0.
Proof.
  revert buf. induction w as [|c w IH]; intros buf Hw Hl; [by rewrite app_nil_r|].
  cbn [forallb] in Hw. apply andb_prop in Hw as [Hc Hw]. cbn [app length] in *.
  apply andb_prop in Hc as [Hc _]. apply andb_prop in Hc as [Hs Hc].
  apply negb_true_iff in Hs. apply negb_true_iff in Hc. cbn [read_word].
  rewrite Hc, Hs. rewrite andb_false_r. cbn [andb]. unfold store.
  destruct (length buf <? BUFSIZ)%nat eqn:E; [|apply Nat.ltb_ge in E; lia].
  rewrite (IH (buf ++ [c])); [by rewrite <- app_assoc|done|rewrite length_app; cbn; lia].
Qed.

Definition solid (c : Z) : bool := negb (isspace c).

Lemma read_note_body f buf body :
  forallb (fun c => negb (c =? 47)) body = true -> (length buf + length body <= BUFSIZ)%nat ->
  read_word (body ++ f) buf 1 = read_word f (buf ++ List.filter solid body) 1.
Proof.
  revert buf. induction body as [|c body IH]; intros buf Hb Hl; [by rewrite app_nil_r|].
  cbn [forallb length] in *. apply andb_prop in Hb as [Hc Hb]. apply negb_true_iff in Hc.
  cbn [app read_word List.filter]. rewrite Hc. change (1 =? 0)%nat with false. change (0 <? 1)%nat with true.
  rewrite andb_false_r. cbn [andb]. rewrite andb_false_r. unfold solid at 1.
  destruct (isspace c); cbn [negb]; [apply IH; [done|lia]|].
  unfold store. destruct (length buf <? BUFSIZ)%nat eqn:E; [|apply Nat.ltb_ge in E; lia].
  rewrite (IH (buf ++ [c])); [by rewrite <- app_assoc|done|rewrite length_app; cbn; lia].
Qed.

Lemma filter_length_le (g : Z -> bool) l : (length (List.filter g l) <= length l)%nat.
Proof. induction l as [|c l IH]; cbn; [done|]. destruct (g c); cbn; lia. Qed.

(** A comment leaves nothing in the buffer. *)
Lemma read_note f body :
  note_ok body = true -> read_word (bs "/*" ++ body ++ bs "*/" ++ f) [] 0 = read_word f [] 0.
Proof.
  intros H. apply andb_prop in H as [Hb Hl]. apply Nat.leb_le in Hl.
  change (bs "/*" ++ body ++ bs "*/" ++ f) with (47 :: 42 :: body ++ 42 :: 47 :: f).
  transitivity (read_word (body ++ 42 :: 47 :: f) [47; 42] 1); [reflexivity|].
  rewrite read_note_body by (first [done|cbn [length]; lia]).
  pose proof (filter_length_le solid body) as Hf.
  set (b := [47; 42] ++ List.filter solid body).
  assert (Hlb : (length b < BUFSIZ)%nat) by (unfold b; rewrite length_app; cbn [length]; lia).
  cbn [read_word]. change (1 =? 0)%nat with false. cbn [andb Z.eqb Pos.eqb].
  change (isspace 42) with false. cbv iota. unfold store.
  destruct (length b <? BUFSIZ)%nat eqn:E; [|apply Nat.ltb_ge in E; lia].
  rewrite reverse_snoc. cbn [hd0]. change (0 <? 1)%nat with true. cbn [andb Z.eqb Pos.eqb].
  destruct (Nat.ltb 0 (length (b ++ [42]))) eqn:E2; [done|]. apply Nat.ltb_ge in E2.
  rewrite length_app in E2. cbn in E2. lia.
Qed.

Section Profile.
Context (atof : bytes -> float) (fopen : bytes -> option bytes) (option_source : bytes).

(** One word of a profile: echoed when verbose, then taken as an option. *)
Definition profile_word (w : bytes) : M () :=
  let! v := getopt verbose in
  (if truth v then IndentIo.puts (bs "profile: " ++ w ++ [10]) else ret tt) ;;
  set_option atof fopen option_source w.

Fixpoint profile_words (l : list bytes) : M () :=
  match l with
  | [] => ret tt
  | w :: l => profile_word w ;; profile_words l
  end.

Lemma word_ok_cstr w :
  word_ok w = true ->
  store w 0 = Some (w ++ [0]) /\ cstr (w ++ [0]) = w /\
  forall g, set_option atof fopen option_source (w ++ [0]) g = set_option atof fopen option_source w g.
Proof.
  intros H. unfold word_ok in H. apply andb_prop in H as [H Hw]. apply andb_prop in H as [Hn Hl].
  assert (Hp : forallb (fun c => negb (c =? 0)) w = true).
  { rewrite forallb_forall in *. intros c Hc. specialize (Hw c Hc). by apply andb_prop in Hw as [_ ?]. }
  unfold store. rewrite Hl. split; [done|]. split; [by apply cstr_nul|]. intros g.
  unfold set_option. rewrite cstr_nul, (cstr_plain w) by done.
  destruct w as [|c w]; [done|]. cbn [tail app].
  cbn [forallb] in Hp. apply andb_prop in Hp as [_ Hp]. by rewrite cstr_nul, (cstr_plain w).
Qed.

Lemma scan_blank fuel sp f g :
  isspace sp = true ->
  scan_profile atof fopen option_source fuel (sp :: f) g = scan_profile atof fopen option_source fuel f g.
Proof.
  intros Hs. destruct fuel as [|n]; [done|]. cbn [scan_profile]. f_equal. unfold of_opt.
  assert (E : read_word (sp :: f) [] 0 = read_word f [] 0).
  { cbn [read_word length]. rewrite Hs. change (0 <? 0)%nat with false.
    by rewrite !andb_false_r. }
  by rewrite E.
Qed.

Lemma scan_note fuel body f g :
  note_ok body = true ->
  scan_profile atof fopen option_source fuel (bs "/*" ++ body ++ bs "*/" ++ f) g =
  scan_profile atof fopen option_source fuel f g.
Proof. intros Hs. destruct fuel as [|n]; [done|]. cbn [scan_profile]. by rewrite read_note. Qed.

(** The word collected from [f] is handled and the rest scanned. *)
Lemma scan_collected n w f rest g :
  word_ok w = true -> read_word f [] 0 = Some (w, rest) ->
  scan_profile atof fopen option_source (S n) f g =
  bind (profile_word w) (fun _ => scan_profile atof fopen option_source n rest) g.
Proof.
  intros Hw E. cbn [scan_profile]. rewrite E. unfold of_opt, bind at 1, ret at 1. cbv beta iota.
  destruct (word_ok_cstr w Hw) as (Hst & Hc & Hset).
  destruct w as [|c w]; [done|]. rewrite Hst. unfold profile_word.
  unfold bind, ret, getopt. cbv beta iota. rewrite Hc.
  destruct (truth _); cbv beta iota.
  - destruct (IndentIo.puts _ g); [|done..]. by rewrite Hset.
  - by rewrite Hset.
Qed.

Lemma read_word_spaced w sp f :
  word_ok w = true -> isspace sp = true -> read_word (w ++ sp :: f) [] 0 = Some (w, f).
Proof.
  intros H Hs. unfold word_ok in H. apply andb_prop in H as [H Hw]. apply andb_prop in H as [Hn Hl].
  apply Nat.ltb_lt in Hl. rewrite read_word_step by done. cbn [app read_word].
  assert (E : (sp =? 42) = false) by (unfold isspace in Hs; lia).
  rewrite E, Hs, andb_false_r. cbn [andb]. destruct w; [done|]. done.
Qed.

Lemma read_word_last w : word_ok w = true -> read_word w [] 0 = Some (w, []).
Proof.
  intros H. unfold word_ok in H. apply andb_prop in H as [H Hw]. apply andb_prop in H as [Hn Hl].
  apply Nat.ltb_lt in Hl. rewrite <- (app_nil_r w) at 1. by rewrite read_word_step.
Qed.

Lemma scan_items l last fuel g :
  forallb item_ok l = true -> (last = [] \/ word_ok last = true) ->
  (length (words l) + 1 < fuel)%nat ->
  scan_profile atof fopen option_source fuel (render l ++ last) g =
  profile_words (words l ++ match last with [] => [] | _ => [last] end) g.
Proof.
  intros Hl Hlast. revert fuel g. induction l as [|i l IH]; intros fuel g Hf.
  - destruct fuel as [|[|n]]; [cbn in Hf; lia..|]. cbn [render flat_map app words].
    destruct Hlast as [->|Hw]; [done|].
    rewrite (scan_collected _ last _ []) by (first [done|by apply read_word_last]).
    destruct last as [|c w]; [done|]. cbn [profile_words]. done.
  - cbn [forallb] in Hl. apply andb_prop in Hl as [Hi Hl]. specialize (IH Hl).
    destruct i as [w sp|sp|body]; cbn [render render_item flat_map words item_ok app length] in *.
    + apply andb_prop in Hi as [Hw Hs]. destruct fuel as [|n]; [lia|].
      rewrite <- !app_assoc. cbn [app].
      rewrite (scan_collected _ w _ (render l ++ last)) by (first [done|by apply read_word_spaced]).
      cbn [profile_words]. unfold bind. destruct (profile_word w g) as [? g'|? ? ?|]; [|done..].
      apply IH. unfold words. lia.
    + rewrite scan_blank by done. by apply IH.
    + rewrite <- !app_assoc. rewrite scan_note by done. by apply IH.
Qed.

(** A word that fills the buffer is written past its end. *)
Lemma read_word_overflow w buf f :
  forallb (fun c => negb (isspace c) && negb (c =? 42) && negb (c =? 0)) w = true ->
  (length buf <= BUFSIZ < length buf + length w)%nat ->
  read_word (w ++ f) buf 0 = None.
Proof.
  revert buf. induction w as [|c w IH]; intros buf Hw Hl; [cbn in Hl; lia|].
  cbn [forallb] in Hw. apply andb_prop in Hw as [Hc Hw]. cbn [app length] in *.
  apply andb_prop in Hc as [Hc _]. apply andb_prop in Hc as [Hs Hc].
  apply negb_true_iff in Hs. apply negb_true_iff in Hc. cbn [read_word].
  rewrite Hc, Hs, andb_false_r. cbn [andb]. unfold store.
  destruct (length buf <? BUFSIZ)%nat eqn:E; [|done]. apply Nat.ltb_lt in E.
  apply IH; [done|]. rewrite length_app. cbn [length]. lia.
Qed.

(** scan_profile does not bound what it collects: a word of more than BUFSIZ
    characters is stored outside [buf]. *)
Lemma profile_word_overflows w f n g :
  forallb (fun c => negb (isspace c) && negb (c =? 42) && negb (c =? 0)) w = true ->
  (BUFSIZ < length w)%nat ->
  scan_profile atof fopen option_source (S n) (w ++ f) g = SUndef.
Proof. intros Hw Hl. cbn [scan_profile]. rewrite read_word_overflow; [done|done|cbn [length]; lia]. Qed.
End Profile.

(** ** Properties *)

(** A profile made of words, blanks and comments is read completely, and has
    the effect of giving its words as options one after the other, whatever the
    comments hold: the scan ends at the end of the file, or with the first option
    that ends the process.  (Words shorter than BUFSIZ and without stars;
    comments that fit the buffer and without slashes.) *)
Theorem scan_profile_reads_words atof fopen option_source l last fuel g :
  forallb item_ok l = true -> (last = [] \/ word_ok last = true) ->
  (length (words l) + 1 < fuel)%nat ->
  scan_profile atof fopen option_source fuel (render l ++ last) g =
  profile_words atof fopen option_source (words l ++ match last with [] => [] | _ => [last] end) g.
Proof. apply scan_items. Qed.

Definition sample_profile : list item :=
  [Note (bs " house style * rules "); Blank 10; Word (bs "-bad") 10; Blank 32; Word (bs "-i4") 32;
   Note (bs " tabs of four "); Word (bs "-ts4") 9].

Lemma scan_profile_witness :
  match scan_profile (fun _ => S754_zero false) (fun _ => None) (bs "x") 10
          (render sample_profile ++ bs "-nut") (IndentIo.sample []) with
  | SRet _ g => (ind_size (opt g), tabsize (opt g), use_tabs (opt g)) = (4, 4, 0)
  | _ => False
  end.
Proof.
  rewrite scan_profile_reads_words; [vm_compute; reflexivity|reflexivity|right; reflexivity|vm_compute; lia].
Defined.

(** C36. The table is in the order its comment asks for: every option is found
    under its own name, with a decimal parameter if it takes one, and never hidden
    by an entry before it.  A boolean option sets its variable to its sense; an
    integer option sets it to the number given, for every non-negative int, and
    without a number ends the process with status 1. *)
Theorem set_option_sets_variable atof fopen option_source p x n g :
  p ∈ pro -> p_obj p = Some x -> 0 <= n < 2 ^ 31 ->
  let set v := SRet tt (g <| opt := vset x v (opt g) |>) in
  (p_type p = PRO_BOOL ->
     set_option atof fopen option_source (45 :: p_name p) g = set (if p_special p =? OFF then 0 else 1)) /\
  (p_type p = PRO_INT ->
     set_option atof fopen option_source (45 :: p_name p ++ print_base 10 n) g = set n /\
     set_option atof fopen option_source (45 :: p_name p) g =
       SExit 1 (option_source ++ bs ": ``" ++ p_name p ++ bs "'' requires a parameter") g) /\
  (forall v, vget x (vset x v (opt g)) = v).
Proof.
  intros Hp Hx Hn set. assert (Hv : var_ok x) by (by eapply obj_ok).
  pose proof (set_option_entry atof fopen option_source p [] g Hp eq_refl) as H0.
  rewrite app_nil_r in H0. destruct (atoi_print n Hn) as (Hd & Hh & Ha).
  pose proof (set_option_entry atof fopen option_source p _ g Hp Hd) as H1.
  split_and!; [intros T; rewrite T in *..|auto].
  - rewrite H0. cbn [Z.eqb PRO_BOOL PRO_SPECIAL Pos.eqb]. unfold set_var. by rewrite Hx.
  - rewrite H0, H1. cbn [Z.eqb PRO_BOOL PRO_SPECIAL PRO_INT Pos.eqb]. rewrite Hh, Ha. cbn [negb].
    unfold set_var. by rewrite Hx.
Qed.

Lemma set_option_witness :
  set_option (fun _ => S754_zero false) (fun _ => None) (bs "x") (bs "-ldi12") (IndentIo.sample []) =
  SRet tt (IndentIo.sample [] <| opt := opt (IndentIo.sample []) <| local_decl_indent := 12 |> |>).
Proof.
  refine (proj1 (proj1 (proj2 (set_option_sets_variable (fun _ => S754_zero false) (fun _ => None) (bs "x")
    (Pro (bs "ldi") PRO_INT (-1) 0 (obj local_decl_indent)) _ 12 (IndentIo.sample []) _ eq_refl _)) eq_refl)); [|lia].
  apply list_elem_of_In. unfold pro. repeat (first [left; reflexivity|right]).
Defined.

Lemma defaults_assigned o :
  let o' := fold_left default_of pro (o <| case_indent := S754_zero false |>) in
  case_indent o' = S754_zero false /\
  List.Forall (fun p => forall x, p_obj p = Some x -> vget x o' = p_default p) pro.
Proof.
  destruct o. split; [reflexivity|].
  repeat (apply List.Forall_cons; [intros y [= <-]; reflexivity|]). by apply List.Forall_nil.
Qed.

(** set_defaults gives every variable the default of its entries (an option
    that is listed for both senses has the same default twice), the case
    indentation 0, and touches nothing else of the state. *)
Theorem set_defaults_assigns g :
  exists o, set_defaults g = SRet tt (g <| opt := o |>) /\
    case_indent o = S754_zero false /\
    forall p x, p ∈ pro -> p_obj p = Some x -> vget x o = p_default p.
Proof.
  exists (fold_left default_of pro (opt g <| case_indent := S754_zero false |>)).
  split; [reflexivity|]. destruct (defaults_assigned (opt g)) as [H1 H2]. split; [exact H1|].
  rewrite List.Forall_forall in H2. intros p x Hp. apply H2. by apply list_elem_of_In.
Qed.

End IndentArgs.
