(* ===== verification/IndentMain.v ===== *)
(** * indent(1): src/bsd_additions/indent/indent.c

    The loop of main over the tokens: what lexi returns is added to the label, the
    code or the comment of the line being built, the parser is told about it, and
    the line is printed when it is complete.  After an if, while, else and the like
    the newlines and comments up to the next statement are moved to a buffer, from
    which they are read again once the brace or the statement is known.

    The state is that of pr_comment (the globals and the comment buffer) with the
    variables of main.  The code and label buffers are grown by CHECK_SIZE_CODE and
    CHECK_SIZE_LAB before they are written; they are lists here.  sc_buf has a fixed
    size and a write outside it is undefined. *)

From S2P Require Import Prelude Monad IndentGlobs IndentIo IndentParse IndentLexi IndentComment.
From stdpp Require Import base list numbers.
From Stdlib Require Import ZArith Lia SpecFloat.

Import IndentIo IndentParse IndentLexi IndentComment.

Open Scope Z_scope.

Module IndentMain.

Local Open Scope ind_scope.

(** ** State *)

(** [sc]: sc_buf up to sc_end with the offset of save_com, when sc_end is not
    NULL. *)
Record mainst := MainSt {
  cs : comst;
  dec_ind : Z;
  di_stack : list Z;
  force_nl : bool;
  hd_type : Z;
  scase : Z;
  sp_sw : bool;
  squest : Z;
  tabs_to_var : bool;
  last_else : bool;
  sc : option (bytes * nat);
  ifdef_level : Z;
  state_stack : list parser_state;
  match_state : list parser_state
}.

#[export] Instance set_cs : Setter cs := fun f r => MainSt (f (cs r)) (dec_ind r) (di_stack r) (force_nl r) (hd_type r) (scase r) (sp_sw r) (squest r) (tabs_to_var r) (last_else r) (sc r) (ifdef_level r) (state_stack r) (match_state r).
#[export] Instance set_dec_ind : Setter dec_ind := fun f r => MainSt (cs r) (f (dec_ind r)) (di_stack r) (force_nl r) (hd_type r) (scase r) (sp_sw r) (squest r) (tabs_to_var r) (last_else r) (sc r) (ifdef_level r) (state_stack r) (match_state r).
#[export] Instance set_di_stack : Setter di_stack := fun f r => MainSt (cs r) (dec_ind r) (f (di_stack r)) (force_nl r) (hd_type r) (scase r) (sp_sw r) (squest r) (tabs_to_var r) (last_else r) (sc r) (ifdef_level r) (state_stack r) (match_state r).
#[export] Instance set_force_nl : Setter force_nl := fun f r => MainSt (cs r) (dec_ind r) (di_stack r) (f (force_nl r)) (hd_type r) (scase r) (sp_sw r) (squest r) (tabs_to_var r) (last_else r) (sc r) (ifdef_level r) (state_stack r) (match_state r).
#[export] Instance set_hd_type : Setter hd_type := fun f r => MainSt (cs r) (dec_ind r) (di_stack r) (force_nl r) (f (hd_type r)) (scase r) (sp_sw r) (squest r) (tabs_to_var r) (last_else r) (sc r) (ifdef_level r) (state_stack r) (match_state r).
#[export] Instance set_scase : Setter scase := fun f r => MainSt (cs r) (dec_ind r) (di_stack r) (force_nl r) (hd_type r) (f (scase r)) (sp_sw r) (squest r) (tabs_to_var r) (last_else r) (sc r) (ifdef_level r) (state_stack r) (match_state r).
#[export] Instance set_sp_sw : Setter sp_sw := fun f r => MainSt (cs r) (dec_ind r) (di_stack r) (force_nl r) (hd_type r) (scase r) (f (sp_sw r)) (squest r) (tabs_to_var r) (last_else r) (sc r) (ifdef_level r) (state_stack r) (match_state r).
#[export] Instance set_squest : Setter squest := fun f r => MainSt (cs r) (dec_ind r) (di_stack r) (force_nl r) (hd_type r) (scase r) (sp_sw r) (f (squest r)) (tabs_to_var r) (last_else r) (sc r) (ifdef_level r) (state_stack r) (match_state r).
#[export] Instance set_tabs_to_var : Setter tabs_to_var := fun f r => MainSt (cs r) (dec_ind r) (di_stack r) (force_nl r) (hd_type r) (scase r) (sp_sw r) (squest r) (f (tabs_to_var r)) (last_else r) (sc r) (ifdef_level r) (state_stack r) (match_state r).
#[export] Instance set_last_else : Setter last_else := fun f r => MainSt (cs r) (dec_ind r) (di_stack r) (force_nl r) (hd_type r) (scase r) (sp_sw r) (squest r) (tabs_to_var r) (f (last_else r)) (sc r) (ifdef_level r) (state_stack r) (match_state r).
#[export] Instance set_sc : Setter sc := fun f r => MainSt (cs r) (dec_ind r) (di_stack r) (force_nl r) (hd_type r) (scase r) (sp_sw r) (squest r) (tabs_to_var r) (last_else r) (f (sc r)) (ifdef_level r) (state_stack r) (match_state r).
#[export] Instance set_ifdef_level : Setter ifdef_level := fun f r => MainSt (cs r) (dec_ind r) (di_stack r) (force_nl r) (hd_type r) (scase r) (sp_sw r) (squest r) (tabs_to_var r) (last_else r) (sc r) (f (ifdef_level r)) (state_stack r) (match_state r).
#[export] Instance set_state_stack : Setter state_stack := fun f r => MainSt (cs r) (dec_ind r) (di_stack r) (force_nl r) (hd_type r) (scase r) (sp_sw r) (squest r) (tabs_to_var r) (last_else r) (sc r) (ifdef_level r) (f (state_stack r)) (match_state r).
#[export] Instance set_match_state : Setter match_state := fun f r => MainSt (cs r) (dec_ind r) (di_stack r) (force_nl r) (hd_type r) (scase r) (sp_sw r) (squest r) (tabs_to_var r) (last_else r) (sc r) (ifdef_level r) (state_stack r) (f (match_state r)).

Abbreviation N := (ST mainst).

Definition look {A} (f : mainst -> A) : N A := fun m => SRet (f m) m.
Definition lookg {A} (f : globals -> A) : N A := look (fun m => f (glob (cs m))).
Definition lookp {A} (f : parser_state -> A) : N A := lookg (fun g => f (ps g)).
Definition looko {A} (f : options -> A) : N A := lookg (fun g => f (opt g)).
Definition setm {A} (f : mainst -> A) `{Setter _ _ f} (v : A) : N () := modify (fun m => m <| f := v |>).

Definition on_com {A} (k : C A) : N A := fun m =>
  match k (cs m) with
  | SRet a c => SRet a (m <| cs := c |>)
  | SExit n e c => SExit n e (m <| cs := c |>)
  | SUndef => SUndef
  end.

(** Code that does not touch the comment buffer. *)
Definition ong {A} (k : M A) : N A := on_com (on_glob k).
Definition setf {A} (f : parser_state -> A) `{Setter _ _ f} (v : A) : N () := ong (setps f v).

Definition dump_line : N () := on_com IndentComment.dump_line.
Definition parse (tk : Z) : N () := ong (IndentParse.parse tk).

(** Code that may read lines, and dump the line for a control comment among them;
    whether it did. *)
Definition reading {A} (k : M A) : N (A * bool) :=
  on_com (
    modify (fun c => c <| glob := glob c <| com := seen c |> |>) ;;
    let! c := get in
    let! a := on_glob k in
    let! g := gets glob in
    if negb (empty_line (glob c)) && empty_line g then
      if printable c then com_reset ;; ret (a, true) else mundef
    else ret (a, false)).

Definition lexi (w : stloc) : N Z := let! (t, _) := reading (IndentLexi.lexi w) in ret t.

Definition peek : N Z := ong (IndentLexi.peek 0).
Definition skip : N () := ong (IndentLexi.skip 1).

(** [if (buf_ptr >= buf_end) fill_buffer()]: whether the line was dumped. *)
Definition refill : N bool := let! (_, d) := reading IndentLexi.refill in ret d.
Definition advance : N bool := skip ;; refill.

(** ** The line being built *)

Definition put_code (b : bytes) : N () := ong (modify (fun g => g <| code := code g ++ b |>)).
Definition put_lab (b : bytes) : N () := ong (modify (fun g => g <| lab := lab g ++ b |>)).

Definition code_empty (g : globals) : bool := match code g with [] => true | _ => false end.
Definition com_empty (c : comst) : bool := s_com c =? e_com c.
Definition nothing (m : mainst) : bool :=
  match lab (glob (cs m)), code (glob (cs m)) with [], [] => com_empty (cs m) | _, _ => false end.

(** [if (ps.want_blank) *e_code++ = ' ']. *)
Definition blank_code : N () :=
  let! w := lookp want_blank in if truth w then put_code [32] else ret tt.

(** The token is moved to the code. *)
Definition put_token : N () := let! t := lookg token in put_code t.

Definition line_broken : N () :=
  let! v := looko verbose in if truth v then ong (diag2 0 (bs "Line broken")) else ret tt.

(** *** indent_declaration *)

(** The tabs up to the column of a declared name; with tab stops every tab moves
    on. *)
Fixpoint dec_tabs (fuel : nat) (ts pos cur : Z) : option (bytes * Z) :=
  match fuel with
  | O => None
  | S f =>
      if ts =? 0 then None
      else
        let tpos := ts * (1 + cdiv pos ts) in
        if tpos <=? cur then
          match dec_tabs f ts tpos cur with
          | Some (b, p) => Some (9 :: b, p)
          | None => None
          end
        else Some ([], pos)
  end.

Definition indent_declaration (cur_dec_ind : Z) : N () :=
  let! tabs_to_var := look tabs_to_var in
  let! g := lookg (fun g => g) in
  let o := opt g in
  if tabsize o =? 0 then mundef
  else
    let rem := Z.rem (ind_level (ps g) * ind_size o) (tabsize o) in
    let pos := Z.of_nat (length (code g)) + rem in
    let cur := cur_dec_ind + rem in
    let! (tabs, pos) :=
      (if (tabs_to_var : bool) then of_opt (dec_tabs (S (Z.to_nat (cur - pos))) (tabsize o) pos cur) else ret ([], pos)) in
    let pad := tabs ++ replicate (Z.to_nat (cur - pos)) 32 in
    put_code pad ;;
    match pad with
    | [] => if truth (want_blank (ps g)) then put_code [32] ;; setf want_blank 0 else ret tt
    | _ => ret tt
    end.

(** ** The tokens *)

Definition case_form_feed : N () :=
  setf use_ff 1 ;; dump_line ;; setf want_blank 0.

Definition case_newline : N () :=
  let! m := get in
  let g := glob (cs m) in
  let p := ps g in
  (if negb (last_token p =? comma) || (0 <? p_l_follow p) || negb (truth (leave_comma (opt g))) || truth (block_init p)
      || negb (break_comma g) || negb (com_empty (cs m))
   then dump_line ;; setf want_blank 0 else ret tt) ;;
  ong (modify (fun g => g <| line_no ::= Z.succ |>)).

(** [ps.paren_indents[i] = v], an array of short. *)
Definition set_paren (i v : Z) : N () :=
  let! l := lookp paren_indents in
  let! l := of_opt (aset l i (sint 16 v)) in
  setf paren_indents l.

Definition in_declarator (p : parser_state) : bool :=
  truth (in_decl p) && negb (truth (block_init p)) && negb (truth (dumped_decl_indent p)) && (paren_level p =? 0).

Definition case_lparen : N () :=
  let! n := lookp p_l_follow in
  setf p_l_follow (n + 1) ;;
  (if n + 1 =? 20 then ong (diag3 0 (bs "Reached internal limit of ") (bs " unclosed parens") 20) ;; setf p_l_follow n
   else ret tt) ;;
  let! g := lookg (fun g => g) in
  let p := ps g in
  let! d := look dec_ind in
  (if hd0 (token g) =? 91 then ret tt
   else if in_declarator p && (hd0 (procname p) =? 0) then indent_declaration d ;; setf dumped_decl_indent 1
   else if truth (want_blank p) &&
     ((negb (last_token p =? ident) && negb (last_token p =? funcname)) || truth (proc_calls_space (opt g)) ||
      (2 <? keyword p + Bill_Shannon (opt g)))
   then put_code [32] else ret tt) ;;
  setf want_blank 0 ;;
  put_code [hd0 (token g)] ;;
  let! g := lookg (fun g => g) in
  let! n := of_opt (count_spaces_until (tabsize (opt g)) 1 (code g)) in
  set_paren (p_l_follow (ps g) - 1) (n - 1) ;;
  let! sp := look sp_sw in
  let! g := lookg (fun g => g) in
  (if sp && (p_l_follow (ps g) =? 1) && truth (extra_expression_indent (opt g)) then
     let! v := of_opt (aget (paren_indents (ps g)) 0) in
     if v <? 2 * ind_size (opt g) then set_paren 0 (2 * ind_size (opt g)) else ret tt
   else ret tt) ;;
  (if truth (in_or_st (ps g)) && (hd0 (token g) =? 40) && (tos (ps g) <=? 2) then parse semicolon ;; setf in_or_st 0
   else ret tt) ;;
  let! p := lookp (fun p => p) in
  if (keyword p =? 1) || (keyword p =? 2) then setf not_cast_mask (Z.lor (not_cast_mask p) (Z.shiftl 1 (p_l_follow p)))
  else ret tt.

(** The end of the expression of an if, while, ... *)
Definition end_header : N () :=
  setm sp_sw false ;;
  setm force_nl true ;;
  setf last_u_d 1 ;;
  setf in_stmt 0 ;;
  let! h := look hd_type in parse h.

Definition case_rparen : N () :=
  let! g := lookg (fun g => g) in
  let p := ps g in
  let below := Z.shiftl 1 (p_l_follow p) - 1 in
  (if truth (Z.land (Z.land (cast_mask p) (Z.shiftl 1 (p_l_follow p))) (Z.lnot (not_cast_mask p))) then
     setf last_u_d 1 ;; setf cast_mask (Z.land (cast_mask p) below) ;; setf want_blank (space_after_cast (opt g))
   else setf want_blank 1) ;;
  setf not_cast_mask (Z.land (not_cast_mask p) below) ;;
  setf p_l_follow (p_l_follow p - 1) ;;
  (if p_l_follow p - 1 <? 0 then setf p_l_follow 0 ;; ong (diag 0 (bs "Extra " ++ [hd0 (token g)])) else ret tt) ;;
  let! g := lookg (fun g => g) in
  (if code_empty g then setf paren_level (p_l_follow (ps g)) else ret tt) ;;
  put_code [hd0 (token g)] ;;
  let! sp := look sp_sw in
  (if sp && (p_l_follow (ps g) =? 0) then end_header else ret tt) ;;
  let! b := looko btype_2 in
  setf search_brace b.

Definition case_unary_op : N () :=
  let! g := lookg (fun g => g) in
  let p := ps g in
  let! d := look dec_ind in
  (if in_declarator p && (hd0 (procname p) =? 0) then
     indent_declaration (d - Z.of_nat (length (token g))) ;; setf dumped_decl_indent 1
   else blank_code) ;;
  put_token ;;
  setf want_blank 0.

Definition case_binary_op : N () := blank_code ;; put_token ;; setf want_blank 1.

Definition case_postop : N () :=
  let! t := lookg token in
  put_code [hd0 t; hd0 (tail t)] ;; setf want_blank 1.

Definition case_question : N () :=
  modify (fun m => m <| squest ::= Z.succ |>) ;; blank_code ;; put_code [63] ;; setf want_blank 1.

Definition case_colon : N () :=
  let! q := look squest in
  if 0 <? q then setm squest (q - 1) ;; blank_code ;; put_code [58] ;; setf want_blank 1
  else
    let! s := lookp in_or_st in
    if truth s then put_code [58] ;; setf want_blank 0
    else
      setf in_stmt 0 ;;
      ong (modify (fun g => g <| lab := lab g ++ code g ++ [58] |> <| code := [] |>)) ;;
      let! c := look scase in
      setf pcase c ;;
      setm force_nl (truth c) ;;
      setm scase 0 ;;
      setf want_blank 0.

(** Parentheses still open where a statement ends or a block starts: the header
    they belong to is not lost. *)
Definition unbalanced : N () :=
  ong (diag2 1 (bs "Unbalanced parens")) ;; setf p_l_follow 0.

Definition case_semicolon : N () :=
  let! p := lookp (fun p => p) in
  (if dec_nest p =? 0 then setf in_or_st 0 else ret tt) ;;
  setm scase 0 ;;
  setm squest 0 ;;
  (if last_token p =? rparen then setf in_parameter_declaration 0 else ret tt) ;;
  setf cast_mask 0 ;;
  setf not_cast_mask 0 ;;
  setf block_init 0 ;;
  setf block_init_level 0 ;;
  setf just_saw_decl (just_saw_decl p - 1) ;;
  let! g := lookg (fun g => g) in
  let! d := look dec_ind in
  (if code_empty g && in_declarator (ps g) then indent_declaration (d - 1) ;; setf dumped_decl_indent 1 else ret tt) ;;
  setf in_decl (if 0 <? dec_nest p then 1 else 0) ;;
  let! m := get in
  (if (negb (sp_sw m) || negb (hd_type m =? forstmt)) && (0 <? p_l_follow p) then
     unbalanced ;;
     if sp_sw m then setm sp_sw false ;; parse (hd_type m) else ret tt
   else ret tt) ;;
  put_code [59] ;;
  setf want_blank 1 ;;
  let! n := lookp p_l_follow in
  setf in_stmt (if 0 <? n then 1 else 0) ;;
  let! sp := look sp_sw in
  if negb sp then parse semicolon ;; setm force_nl true else ret tt.

(** [di_stack[i] = v]. *)
Definition set_di (i v : Z) : N () :=
  let! l := look di_stack in
  let! l := of_opt (aset l i v) in
  setm di_stack l.

(** What is on the line before an opening brace. *)
Definition before_brace : N () :=
  let! g := lookg (fun g => g) in
  let p := ps g in
  if negb (code_empty g) && negb (truth (block_init p)) then
    if negb (truth (btype_2 (opt g))) then dump_line ;; setf want_blank 0
    else if truth (in_parameter_declaration p) && negb (truth (in_or_st p)) then
      setf i_l_follow 0 ;;
      if truth (function_brace_split (opt g)) then dump_line ;; setf want_blank 0 else setf want_blank 1
    else ret tt
  else ret tt.

(** The brace of a structure or an initialisation, or of a block. *)
Definition brace_level : N () :=
  let! g := lookg (fun g => g) in
  let p := ps g in
  let! d := look dec_ind in
  if truth (in_decl p) && truth (in_or_st p) then
    set_di (dec_nest p) d ;;
    setf dec_nest (dec_nest p + 1) ;;
    if dec_nest p + 1 =? 20 then
      ong (diag3 0 (bs "Reached internal limit of ") (bs " struct levels") 20) ;; setf dec_nest (dec_nest p)
    else ret tt
  else
    setf decl_on_line 0 ;;
    (if truth (blanklines_after_declarations_at_proctop (opt g)) && truth (in_parameter_declaration p)
     then ong (modify (fun g => g <| postfix_blankline_requested := 1 |>)) else ret tt) ;;
    setf in_parameter_declaration 0 ;;
    setf in_decl 0.

Definition no_prefix_blankline : N () := ong (modify (fun g => g <| prefix_blankline_requested := 0 |>)).

Definition case_lbrace : N () :=
  setf in_stmt 0 ;;
  let! p := lookp (fun p => p) in
  (if negb (truth (block_init p)) then setm force_nl true
   else if block_init_level p <=? 0 then setf block_init_level 1
   else setf block_init_level (block_init_level p + 1)) ;;
  before_brace ;;
  let! p := lookp (fun p => p) in
  (if truth (in_parameter_declaration p) then no_prefix_blankline else ret tt) ;;
  (if 0 <? p_l_follow p then
     unbalanced ;;
     let! m := get in
     if sp_sw m then
       setm sp_sw false ;;
       parse (hd_type m) ;;
       let! v := lookp i_l_follow in setf ind_level v
     else ret tt
   else ret tt) ;;
  let! e := lookg code_empty in
  (if (e : bool) then setf ind_stmt 0 else ret tt) ;;
  brace_level ;;
  setm dec_ind 0 ;;
  parse lbrace ;;
  blank_code ;;
  setf want_blank 0 ;;
  put_code [123] ;;
  setf just_saw_decl 0.

Definition case_rbrace : N () :=
  let! p := lookp (fun p => p) in
  let! top := of_opt (aget (p_stack p) (tos p)) in
  (if (top =? decl) && negb (truth (block_init p)) then parse semicolon else ret tt) ;;
  let! p := lookp (fun p => p) in
  (if truth (p_l_follow p) then unbalanced ;; setm sp_sw false else ret tt) ;;
  setf just_saw_decl 0 ;;
  setf block_init_level (block_init_level p - 1) ;;
  let! g := lookg (fun g => g) in
  (if negb (code_empty g) && negb (truth (block_init p)) then line_broken ;; dump_line else ret tt) ;;
  put_code [125] ;;
  setf want_blank 1 ;;
  setf in_stmt 0 ;;
  setf ind_stmt 0 ;;
  let! m := get in
  let p := ps (glob (cs m)) in
  (if 0 <? dec_nest p then
     let! v := of_opt (aget (di_stack m) (dec_nest p - 1)) in
     setm dec_ind v ;;
     setf dec_nest (dec_nest p - 1) ;;
     (if (dec_nest p - 1 =? 0) && negb (truth (in_parameter_declaration p)) then setf just_saw_decl 2 else ret tt) ;;
     setf in_decl 1
   else ret tt) ;;
  no_prefix_blankline ;;
  parse rbrace ;;
  let! g := lookg (fun g => g) in
  let p := ps g in
  let! sb :=
    (if truth (cuddle_else (opt g)) then
       let! top := of_opt (aget (p_stack p) (tos p)) in
       if top =? ifhead then
         let! l := of_opt (aget (il p) (tos p)) in ret (ind_level p <=? l)
       else ret false
     else ret false) in
  setf search_brace (if (sb : bool) then 1 else 0) ;;
  if (tos p <=? 1) && truth (blanklines_after_procs (opt g)) && (dec_nest p <=? 0)
  then ong (modify (fun g => g <| postfix_blankline_requested := 1 |>)) else ret tt.

(** [copy_id]. *)
Definition copy_id (type_code : Z) : N () :=
  blank_code ;;
  put_token ;;
  if negb (type_code =? funcname) then setf want_blank 1 else ret tt.

(** else and do start a line, except an else after a brace. *)
Definition case_sp_nparen : N () :=
  setf in_stmt 0 ;;
  let! g := lookg (fun g => g) in
  let is_else := hd0 (token g) =? 101 in
  (if negb (code_empty g) && (negb is_else || negb (truth (cuddle_else (opt g))) || negb (hd0 (reverse (code g)) =? 125))
   then line_broken ;; dump_line ;; setf want_blank 0 else ret tt) ;;
  setm force_nl true ;;
  setm last_else is_else ;;
  parse (if is_else then elselit else dolit).

Definition case_decl : N () :=
  parse decl ;;
  let! g := lookg (fun g => g) in
  let p := ps g in
  (if (last_token p =? rparen) && (tos p <=? 1) && negb (code_empty g) then dump_line ;; setf want_blank 0 else ret tt) ;;
  let! g := lookg (fun g => g) in
  let p := ps g in
  (if truth (in_parameter_declaration p) && truth (indent_parameters (opt g)) && (dec_nest p =? 0)
   then setf i_l_follow 1 ;; setf ind_level 1 ;; setf ind_stmt 0 else ret tt) ;;
  setf in_or_st 1 ;;
  let d := if last_token p =? type_def then 0 else 1 in
  setf decl_on_line d ;;
  setf in_decl d ;;
  (if dec_nest p <=? 0 then setf just_saw_decl 2 else ret tt) ;;
  no_prefix_blankline ;;
  let! g := lookg (fun g => g) in
  let o := opt g in
  let i := Z.of_nat (length (token g)) + 1 in
  let width := if (ind_level (ps g) =? 0) || (0 <? dec_nest (ps g)) then decl_indent o else local_decl_indent o in
  setm dec_ind (if 0 <? width then width else i) ;;
  setm tabs_to_var (truth (use_tabs o) && (0 <? width)).

Definition case_ident (type_code : Z) : N () :=
  let! m := get in
  let g := glob (cs m) in
  let p := ps g in
  if truth (in_decl p) then
    if type_code =? funcname then
      setf in_decl 0 ;;
      (if truth (procnames_start_line (opt g)) && negb (code_empty g) then dump_line
       else if truth (want_blank p) then put_code [32] else ret tt) ;;
      setf want_blank 0
    else if in_declarator p then
      indent_declaration (dec_ind m) ;; setf dumped_decl_indent 1 ;; setf want_blank 0
    else ret tt
  else if sp_sw m && (p_l_follow p =? 0) then end_header
  else ret tt.

Definition case_strpfx : N () := blank_code ;; put_token ;; setf want_blank 0.

Definition case_comma : N () :=
  let! g := lookg (fun g => g) in
  setf want_blank (if code_empty g then 0 else 1) ;;
  let! p := lookp (fun p => p) in
  let! d := look dec_ind in
  (if in_declarator p && (hd0 (procname p) =? 0) then indent_declaration (d - 1) ;; setf dumped_decl_indent 1 else ret tt) ;;
  put_code [44] ;;
  let! g := lookg (fun g => g) in
  if p_l_follow (ps g) =? 0 then
    (if block_init_level (ps g) <=? 0 then setf block_init 0 else ret tt) ;;
    if break_comma g then
      if negb (truth (leave_comma (opt g))) then setm force_nl true
      else
        let! n := ong (let! t := compute_code_target in m_count_spaces t (code g)) in
        if max_col (opt g) - tabsize (opt g) <? n then setm force_nl true else ret tt
    else ret tt
  else ret tt.

(** The tokens with text, comments and directives apart. *)
Definition switch_text (type_code : Z) : N () :=
  if type_code =? lparen then case_lparen
  else if type_code =? rparen then case_rparen
  else if type_code =? unary_op then case_unary_op
  else if type_code =? binary_op then case_binary_op
  else if type_code =? postop then case_postop
  else if type_code =? question then case_question
  else if type_code =? casestmt then setm scase 1 ;; copy_id type_code
  else if type_code =? colon then case_colon
  else if type_code =? semicolon then case_semicolon
  else if type_code =? lbrace then case_lbrace
  else if type_code =? rbrace then case_rbrace
  else if type_code =? swstmt then setm sp_sw true ;; setm hd_type swstmt ;; copy_id type_code
  else if type_code =? sp_paren then
    setm sp_sw true ;;
    let! t := lookg token in
    setm hd_type (if hd0 t =? 105 then ifstmt else if hd0 t =? 119 then whilestmt else forstmt) ;;
    copy_id type_code
  else if type_code =? sp_nparen then case_sp_nparen ;; copy_id type_code
  else if (type_code =? type_def) || (type_code =? storage) then no_prefix_blankline ;; copy_id type_code
  else if type_code =? structure then
    let! n := lookp p_l_follow in
    (if 0 <? n then ret tt else case_decl) ;; copy_id type_code
  else if type_code =? decl then case_decl ;; copy_id type_code
  else if (type_code =? funcname) || (type_code =? ident) then case_ident type_code ;; copy_id type_code
  else if type_code =? strpfx then case_strpfx
  else if type_code =? period then put_code [46] ;; setf want_blank 0
  else if type_code =? comma then case_comma
  else ret tt.

(** ** Preprocessor lines *)

(** The scan of a directive into the label: (in_comment, com_start, com_end).  The
    variable quote of the program is never set, so it has no counterpart. *)
Fixpoint copy_directive (fuel : nat) (in_comment : bool) (com_start com_end : nat) : N (nat * nat) :=
  let! ch := peek in
  let! eof := lookg had_eof in
  if negb (ch =? 10) || (in_comment && negb eof) then
    match fuel with
    | O => mundef
    | S f =>
        let! dumped := advance in
        (* a dump empties the label: the byte there is its terminator *)
        let ch := if (dumped : bool) then 0 else ch in
        put_lab [ch] ;;
        if ch =? BACKSLASH then
          (if in_comment then ret tt
           else let! c := peek in put_lab [c] ;; let! _ := advance in ret tt) ;;
          copy_directive f in_comment com_start com_end
        else if ch =? 47 then
          let! c := peek in
          if (c =? 42) && negb in_comment then
            put_lab [c] ;; skip ;;
            let! n := lookg (fun g => length (lab g)) in
            copy_directive f true (n - 2) com_end
          else copy_directive f in_comment com_start com_end
        else if ch =? 42 then
          let! c := peek in
          if (c =? 47) && in_comment then
            put_lab [c] ;; skip ;;
            let! n := lookg (fun g => length (lab g)) in
            copy_directive f false com_start n
          else copy_directive f in_comment com_start com_end
        else copy_directive f in_comment com_start com_end
    end
  else ret (com_start, com_end).

Definition sc_size : nat := 5000.

(** [*sc_end++ = c], within sc_buf. *)
Definition put_sc (b : bytes) : N () :=
  let! s := look sc in
  let! (buf, save) := of_opt s in
  if (length (buf ++ b) <=? sc_size)%nat then setm sc (Some (buf ++ b, save)) else mundef.

(** The input is read from save_com from now on; the line is kept aside. *)
Definition switch_input : N () :=
  put_sc [32] ;;
  let! s := look sc in
  let! (buf, save) := of_opt s in
  ong (modify (fun g => g <| bp_save := Some (in_buffer g, buf_ptr g) |> <| in_buffer := buf |> <| buf_ptr := save |>)) ;;
  setm sc None.

(** A comment at the end of the line is taken off the label, to be read as a
    comment. *)
Definition directive_comment (com_start com_end : nat) : N () :=
  ong (modify (fun g => g <| lab := rtrim isblank (lab g) |>)) ;;
  let! m := get in
  let g := glob (cs m) in
  if (length (lab g) =? com_end)%nat && negb (bool_decide (is_Some (bp_save g))) then
    (match sc m with
     | None => setm sc (Some ([], O))
     | Some _ => put_sc [10; 32] ;; ong (modify (fun g => g <| line_no ::= Z.pred |>))
     end) ;;
    let! s := look sc in
    let! (buf, save) := of_opt s in
    if (com_end <? com_start)%nat then mundef
    else if (sc_size <? length buf - save + (com_end - com_start))%nat then mexit 1 (bs "input too long")
    else
      put_sc (drop com_start (take com_end (lab g))) ;;
      ong (modify (fun g => g <| lab := rtrim isblank (take com_start (lab g)) |>)) ;;
      switch_input
  else ret tt.

(** #if and the others: the parser's state is kept at an #if and taken up again
    at its #else.  Whether the directive was one. *)
Definition directive : N bool :=
  let! m := get in
  let g := glob (cs m) in
  let l := lab g in
  let n := ifdef_level m in
  if starts (bs "#if") l then
    (if n <? 5 then
       let! ms := of_opt (aget (match_state m) n) in
       let! ms := of_opt (aset (match_state m) n (ms <| tos := -1 |>)) in
       setm match_state ms ;;
       let! ss := of_opt (aset (state_stack m) n (ps g)) in
       setm state_stack ss ;;
       setm ifdef_level (n + 1)
     else ong (diag2 1 (bs "#if stack overflow"))) ;;
    ret true
  else if starts (bs "#el") l then
    (if n <=? 0 then ong (diag2 1 (if hd0 (drop 3 l) =? 105 then bs "Unmatched #elif" else bs "Unmatched #else"))
     else
       let! ms := of_opt (aset (match_state m) (n - 1) (ps g)) in
       setm match_state ms ;;
       let! p := of_opt (aget (state_stack m) (n - 1)) in
       ong (modify (fun g => g <| ps := p |>))) ;;
    ret true
  else if starts (bs "#endif") l then
    (if n <=? 0 then ong (diag2 1 (bs "Unmatched #endif")) else setm ifdef_level (n - 1)) ;;
    ret true
  else if existsb (fun d => starts d (tail l)) [bs "include"; bs "define"; bs "undef"; bs "line"; bs "error"; bs "pragma"]
  then ret true
  else ong (diag2 1 (bs "Unrecognized cpp directive")) ;; ret false.

(** [while ( *buf_ptr == ' ' || *buf_ptr == TAB)] with its refill. *)
Fixpoint skip_blanks (fuel : nat) : N () :=
  let! ch := peek in
  if isblank ch then
    match fuel with
    | O => mundef
    | S f => let! _ := advance in skip_blanks f
    end
  else ret tt.

Definition case_preesc : N () :=
  let! m := get in
  (if nothing m then ret tt else dump_line) ;;
  put_lab [35] ;;
  let! n := lookg rounds in
  skip_blanks n ;;
  let! n := lookg rounds in
  let! (com_start, com_end) := copy_directive n false O O in
  directive_comment com_start com_end ;;
  setf pcase 0 ;;
  let! known := directive in
  if (known : bool) then
    let! b := looko blanklines_around_conditional_compilation in
    ong (modify (fun g =>
      if truth b then g <| postfix_blankline_requested ::= Z.succ |> <| n_real_blanklines := 0 |>
      else g <| postfix_blankline_requested := 0 |> <| prefix_blankline_requested := 0 |>))
  else ret tt.

(** ** The next statement *)

(** A comment is moved to the buffer, with the part of the line before it when it
    is the first thing there: the byte count of that memcpy is negative when less
    than two bytes stand before the comment. *)
Definition start_saved : N () :=
  let! m := get in
  match sc m with
  | Some _ => ret tt
  | None =>
      let g := glob (cs m) in
      match bp_save g with
      | Some _ => mundef
      | None =>
          if (buf_ptr g <? 4)%nat then mundef
          else setm sc (Some ([], buf_ptr g - 4)%nat) ;; put_sc (take (buf_ptr g - 4) (in_buffer g) ++ [32; 32])
      end
  end.

(** The comment is moved byte by byte; a comment that does not fit ends the
    program. *)
Fixpoint save_comment (fuel : nat) : N () :=
  match fuel with
  | O => mundef
  | S f =>
      let! ch := peek in
      put_sc [ch] ;;
      let! _ := advance in
      let! c := peek in
      if (ch =? 42) && (c =? 47) then put_sc [47] ;; let! _ := advance in ret tt
      else
        let! s := look sc in
        let! (buf, save) := of_opt s in
        if (sc_size <=? length buf - save)%nat then
          ong (diag2 1 (bs "Internal buffer overflow - Move big comment from right after if, while, or whatever")) ;;
          mexit 1 []
        else save_comment f
  end.

(** The white space after an opening brace, up to the newline. *)
Fixpoint skip_to_newline (fuel : nat) : N () :=
  let! ch := peek in
  if isspace ch then
    match fuel with
    | O => mundef
    | S f =>
        let! _ := advance in
        let! ch := peek in
        if ch =? 10 then ret tt else skip_to_newline f
    end
  else ret tt.

(** The start of a statement: the newlines that are not wanted are dropped from the
    buffer, a wanted one is added, and the token follows them. *)
Definition saved_statement (type_code : Z) (comment_buffered : bool) : N () :=
  let! m := get in
  let g := glob (cs m) in
  let remove_newlines :=
    ((type_code =? sp_nparen) && (hd0 (token g) =? 101) && (hd0 (reverse (code g)) =? 125)) ||
    ((type_code =? sp_paren) && (hd0 (token g) =? 105) && last_else m && truth (else_if (opt g))) in
  (if remove_newlines then setm force_nl false else ret tt) ;;
  match sc m with
  | None => setf search_brace 0
  | Some (buf, save) =>
      let body := rtrim isblank (drop save buf) in
      let swallow := truth (swallow_optional_blanklines (opt g)) || (negb comment_buffered && remove_newlines) in
      let body := if swallow then rtrim (Z.eqb 10) body else body in
      setm sc (Some (take save buf ++ body, save)) ;;
      (if swallow then setm force_nl (negb remove_newlines) else ret tt) ;;
      let! f := look force_nl in
      (if (f : bool) then
         setm force_nl false ;;
         ong (modify (fun g => g <| line_no ::= Z.pred |>)) ;;
         put_sc [10; 32] ;;
         line_broken
       else ret tt) ;;
      put_sc (token g) ;;
      setf search_brace 0 ;;
      switch_input
  end.

(** One token of the search; [true] when the search has found a statement and
    nothing was saved, so that the token is processed at once. *)
Definition search_token (type_code : Z) (comment_buffered : bool) : N (bool * bool) :=
  let! m := get in
  if type_code =? newline then
    (match sc m with
     | None => setm sc (Some ([32; 32; 10], O))
     | Some _ => put_sc [10]
     end) ;;
    setm force_nl false ;; ret (false, comment_buffered)
  else if type_code =? form_feed then ret (false, comment_buffered)
  else if type_code =? comment then
    start_saved ;;
    put_sc [47; 42] ;;
    save_comment (S sc_size) ;; ret (false, true)
  else
    match sc m with
    | Some (buf, save) =>
        if (type_code =? lbrace) && truth (btype_2 (opt (glob (cs m)))) then
          let! buf := of_opt (aset buf (Z.of_nat save) 123) in
          setm sc (Some (buf, save)) ;;
          let! n := lookg rounds in
          skip_to_newline n ;;
          setf search_brace 0 ;;
          switch_input ;; ret (false, comment_buffered)
        else saved_statement type_code comment_buffered ;; ret (false, comment_buffered)
    | None => saved_statement type_code comment_buffered ;; ret (true, comment_buffered)
    end.

(** The blanks before the next token are saved too. *)
Fixpoint save_blanks (fuel : nat) : N () :=
  let! ch := peek in
  if isblank ch then
    match fuel with
    | O => mundef
    | S f =>
        put_sc [ch] ;; skip ;;
        let! s := look sc in
        let! (buf, save) := of_opt s in
        if (sc_size <=? length buf - save)%nat then mexit 1 (bs "input too long") else save_blanks f
    end
  else ret tt.

(** The token after it, with the parser's state set back unless it starts the
    statement. *)
Definition look_ahead : N Z :=
  let! s := look sc in
  (match s with
   | Some _ =>
       let! n := lookg rounds in
       save_blanks n ;;
       let! _ := refill in ret tt
   | None => ret tt
   end) ;;
  ong (modify (fun g => g <| transient_state := ps g |>)) ;;
  let! t := lexi Transient in
  let! p := lookg transient_state in
  (if negb (t =? newline) && negb (t =? form_feed) && negb (t =? comment) && negb (truth (search_brace p))
   then ong (modify (fun g => g <| ps := p |>)) else ret tt) ;;
  ret t.

(** [while (ps.search_brace)]: the token that follows, and whether it was found
    with nothing saved. *)
Fixpoint search (fuel : nat) (type_code : Z) (comment_buffered : bool) : N Z :=
  let! b := lookp search_brace in
  if truth b then
    match fuel with
    | O => mundef
    | S f =>
        let! (found, comment_buffered) := search_token type_code comment_buffered in
        if (found : bool) then ret type_code
        else
          let! t := (if type_code =? 0 then ret 0 else look_ahead) in
          search f t comment_buffered
    end
  else setm last_else false ;; ret type_code.

(** ** The loop *)

Section Loop.

(** The statistics of -v, with a ratio in floating point. *)
Context (statistics : globals -> bytes).

Definition finish : N () :=
  let! m := get in
  (if nothing m then ret tt else dump_line) ;;
  let! g := lookg (fun g => g) in
  (if 1 <? tos (ps g) then ong (diag2 1 (bs "Stuff missing from end of file")) else ret tt) ;;
  (if truth (verbose (opt g)) then on_com (say (statistics g)) else ret tt) ;;
  let! e := lookg found_err in
  mexit e [].

(** What every token with text needs: a forced newline, and a comment before it on
    the line becomes part of the code. *)
Definition before_text (type_code : Z) : N () :=
  let! m := get in
  (if force_nl m && negb (type_code =? semicolon) && (negb (type_code =? lbrace) || negb (truth (btype_2 (opt (glob (cs m))))))
   then line_broken ;; dump_line ;; setf want_blank 0 ;; setm force_nl false else ret tt) ;;
  setf in_stmt 1 ;;
  let! c := look cs in
  if com_empty c then ret tt
  else
    put_code ([32] ++ text c ++ [32]) ;;
    setf want_blank 0 ;;
    on_com (modify (fun c => c <| e_com := s_com c |>)).

Definition process (type_code : Z) : N () :=
  if type_code =? 0 then finish
  else
    (if (type_code =? comment) || (type_code =? newline) || (type_code =? preesc) || (type_code =? form_feed)
     then (if type_code =? comment then ret tt else setm force_nl false)
     else before_text type_code) ;;
    (if type_code =? form_feed then case_form_feed
     else if type_code =? newline then case_newline
     else if type_code =? preesc then case_preesc
     else if type_code =? comment then on_com pr_comment
     else switch_text type_code) ;;
    if (type_code =? comment) || (type_code =? newline) || (type_code =? preesc) then ret tt
    else setf last_token type_code.

(** Every round reads a token. *)
Fixpoint main_loop (fuel : nat) : N () :=
  match fuel with
  | O => mundef
  | S f =>
      let! t := lexi Main in
      let! n := lookg rounds in
      let! t := search n t false in
      process t ;;
      main_loop f
  end.

(** *** The start *)

(** The values of options that were not given. *)
Definition settle_options (o : options) : options :=
  let o := if com_ind o <=? 1 then o <| com_ind := 2 |> else o in
  let o := if block_comment_max_col o <=? 0 then o <| block_comment_max_col := max_col o |> else o in
  let o := if local_decl_indent o <? 0 then o <| local_decl_indent := decl_indent o |> else o in
  let o := if decl_com_ind o <=? 0 then
      o <| decl_com_ind := if truth (ljust_decl o) then (if com_ind o <=? 10 then 2 else com_ind o - 8) else com_ind o |>
    else o in
  if continuation_indent o =? 0 then o <| continuation_indent := ind_size o |> else o.

(** The column of the first line. *)
Fixpoint first_column (ts col : Z) (s : bytes) : option Z :=
  match s with
  | [] => None
  | x :: s =>
      if x =? 32 then first_column ts (col + 1) s
      else if x =? 9 then match next_tab ts col with Some col => first_column ts col s | None => None end
      else Some col
  end.

Definition first_line : N () :=
  let! _ := reading IndentIo.fill_buffer in
  parse semicolon ;;
  let! g := lookg (fun g => g) in
  let! col := of_opt (first_column (tabsize (opt g)) 1 (drop (buf_ptr g) (in_buffer g))) in
  if ind_size (opt g) <? col then
    if ind_size (opt g) =? 0 then mundef
    else
      setf i_l_follow (cdiv col (ind_size (opt g))) ;; setf ind_level (cdiv col (ind_size (opt g)))
  else ret tt.

(** main after its options are read: [o], with the program's text on the input;
    the output is a file or the standard output. *)
Definition start (o : options) (text : bytes) (stdout : bool) : mainst :=
  let p := ps_zero <| p_stack := <[O := stmt]> (p_stack ps_zero) |> <| last_nl := 1 |> <| last_token := semicolon |> <| bl_line := 1 |> in
  let g := globals_zero text <| ps := p |> <| opt := settle_options o |> <| line_no := 1 |> <| output_is_stdout := stdout |> in
  MainSt (Comst g [32; 0] 1 1 195 None []) 0 (replicate 20 0) false 0 0 false 0 false false None 0
    (replicate 5 ps_zero) (replicate 5 ps_zero).

Definition main (fuel : nat) : N () := first_line ;; main_loop fuel.

End Loop.

End IndentMain.
