(* ===== verification/IndentText.v ===== *)
(** * indent(1): tokens keep their text

    Proofs about the loop of main.  Whatever a token does to the layout, the
    characters printed and waiting on the line, white space and stars apart, are
    the ones from before with the text of the token after them, and the indices of
    the open parentheses and structures stay inside their arrays.  The case
    indentation is a float that a switch computes from the depth; [fits] says that
    the ones saved so far can be turned into a column, and the header of a switch is
    left out.  The examples at the end run the whole program. *)

From S2P Require Import Prelude Monad IndentGlobs IndentIo IndentParse IndentLexi IndentArgs IndentComment IndentFill IndentMain.
From stdpp Require Import base list numbers.
From Stdlib Require Import ZArith Lia SpecFloat.

Import IndentIo IndentParse IndentLexi IndentComment IndentFill IndentMain.

Open Scope Z_scope.

Module IndentText.

Local Open Scope ind_scope.

(** ** What code leaves alone

    [keeps R k]: when [k] returns, the states before and after are related. *)

Definition keeps (R : relation globals) {A} (k : M A) : Prop := forall g a g', k g = SRet a g' -> R g g'.

Lemma wp_kept {A} R (k : M A) (Q : A -> globals -> Prop) X g :
  keeps R k -> wp k Q X g -> wp k (fun a g' => Q a g' /\ R g g') X g.
Proof. intros Hk. unfold wp. destruct (k g) as [a g'| |] eqn:E; [|done..]. intros HQ. split; [done|exact (Hk _ _ _ E)]. Qed.

Section Keeps.
Context (R : relation globals) `{!PreOrder R}.

Lemma keep_ret {A} (a : A) : keeps R (ret a).
Proof. by intros g a' g' [= _ <-]. Qed.

Lemma keep_undef {A} : keeps R (mundef (A := A)).
Proof. by intros g a g' [=]. Qed.

Lemma keep_exit {A} n e : keeps R (mexit (A := A) n e).
Proof. by intros g a g' [=]. Qed.

Lemma keep_bind {A B} (k : M A) (h : A -> M B) : keeps R k -> (forall a, keeps R (h a)) -> keeps R (bind k h).
Proof.
  intros Hk Hh g b g' E. unfold bind in E. destruct (k g) as [a g1| |] eqn:E1; [|done..].
  etrans; [exact (Hk _ _ _ E1)|exact (Hh a _ _ _ E)].
Qed.

Lemma keep_if {A} (b : bool) (k h : M A) : keeps R k -> keeps R h -> keeps R (if b then k else h).
Proof. by destruct b. Qed.

Lemma keep_getps {A} (f : parser_state -> A) : keeps R (getps f).
Proof. by intros g a g' [= _ <-]. Qed.

Lemma keep_getopt {A} (f : options -> A) : keeps R (getopt f).
Proof. by intros g a g' [= _ <-]. Qed.

Lemma keep_get : keeps R get.
Proof. by intros g a g' [= _ <-]. Qed.

Lemma keep_of_opt {A} (o : option A) : keeps R (of_opt o).
Proof. intros g a g'. destruct o; [|done]. by intros [= _ <-]. Qed.

Lemma keep_modify (f : globals -> globals) : (forall g, R g (f g)) -> keeps R (modify f).
Proof. intros H g [] g' [= <-]. apply H. Qed.
End Keeps.

Create HintDb keep discriminated.
#[export] Hint Resolve keep_ret keep_undef keep_exit keep_getps keep_getopt keep_get keep_of_opt : keep.

Ltac keep_step :=
  match goal with
  | |- keeps _ (bind _ _) => first [solve [eauto with keep] | apply keep_bind; [typeclasses eauto| |intros ?]]
  | |- keeps _ (if _ then _ else _) => apply keep_if
  | |- keeps _ (match ?x with _ => _ end) => destruct x
  | |- keeps _ (setps _ _) => by apply keep_modify
  | |- keeps _ (puts _) => by apply keep_modify
  | |- keeps _ (putc _) => by apply keep_modify
  | |- keeps _ (modify _) => apply keep_modify; intros ?; first [done | by case_if]
  | |- _ => solve [eauto with keep typeclass_instances]
  end.
Ltac keep_auto := repeat keep_step.

(** ** The case indentations fit an int *)

Definition fit (o : options) (x : float) : Prop := sf_trunc (flt_mul x (flt_of_Z (ind_size o))) <> None.

Definition fits (g : globals) : Prop := fit (opt g) (case_ind g) /\ Forall (fit (opt g)) (cstk (ps g)).

Definition still_fits (g g' : globals) : Prop := fits g -> fits g' /\ opt g' = opt g.

#[global] Instance still_fits_preorder : PreOrder still_fits.
Proof.
  split; [done|]. intros g1 g2 g3 H1 H2 F. destruct (H1 F) as [F2 E2]. destruct (H2 F2) as [F3 E3]. split; [done|congruence].
Qed.

Lemma fit_rd_stack i : keeps still_fits (rd_stack i).
Proof. unfold rd_stack. keep_auto. Qed.
Lemma fit_rd_il i : keeps still_fits (rd_il i).
Proof. unfold rd_il. keep_auto. Qed.
Lemma fit_wr_stack i v : keeps still_fits (wr_stack i v).
Proof. unfold wr_stack. keep_auto. Qed.
Lemma fit_wr_il i v : keeps still_fits (wr_il i v).
Proof. unfold wr_il. keep_auto. Qed.

(** The case indentation saved in the stack. *)
Lemma fit_restore i (h : M bool) :
  keeps still_fits h -> keeps still_fits (let! c := rd_cstk i in modify (fun g => g <| case_ind := c |>) ;; h).
Proof.
  intros Hh g b g' E [F1 F2]. unfold rd_cstk, bind, getps, modify in E.
  destruct (aget (cstk (ps g)) i) as [c|] eqn:Ec; [|done]. cbn in E.
  assert (Fc : fit (opt g) c).
  { rewrite Forall_forall in F2. apply F2, list_elem_of_In, list_elem_of_lookup. unfold aget in Ec. destruct (i <? 0); [done|]. by eexists. }
  exact (Hh _ _ _ E (conj Fc F2)).
Qed.

Lemma fit_diag l t : keeps still_fits (diag l t).
Proof. unfold diag. keep_auto. Qed.
#[export] Hint Resolve fit_rd_stack fit_rd_il fit_wr_stack fit_wr_il fit_diag : keep.

Lemma fit_push tk : keeps still_fits (push tk).
Proof. unfold push. keep_auto. Qed.
Lemma fit_pop_to tk : keeps still_fits (pop_to tk).
Proof. unfold pop_to. keep_auto. Qed.
Lemma fit_follow_top : keeps still_fits follow_top.
Proof. unfold follow_top. keep_auto. Qed.
#[export] Hint Resolve fit_push fit_pop_to fit_follow_top : keep.

Lemma fit_find_base n i : keeps still_fits (find_base n i).
Proof. revert i. induction n as [|n IH]; intros i; cbn [find_base]; keep_auto. Qed.
#[export] Hint Resolve fit_find_base : keep.

Lemma fit_reduce_step : keeps still_fits reduce_step.
Proof. unfold reduce_step. repeat first [apply fit_restore | keep_step]. Qed.
#[export] Hint Resolve fit_reduce_step : keep.

Lemma fit_reduce : keeps still_fits reduce.
Proof.
  assert (H : forall n, keeps still_fits (reduce_loop n)) by (induction n as [|n IH]; cbn [reduce_loop]; keep_auto).
  unfold reduce. apply keep_bind; [typeclasses eauto|keep_auto|auto].
Qed.
#[export] Hint Resolve fit_reduce : keep.

Lemma fit_end_ifs n tk : keeps still_fits (end_ifs n tk).
Proof. induction n as [|n IH]; cbn [end_ifs]; keep_auto. Qed.

Lemma fit_count_decls n : keeps still_fits (count_decls n).
Proof. induction n as [|n IH]; cbn [count_decls]; keep_auto. Qed.
#[export] Hint Resolve fit_count_decls fit_end_ifs : keep.

Lemma fit_parse tk : tk <> swstmt -> keeps still_fits (IndentParse.parse tk).
Proof.
  intros Hsw. unfold IndentParse.parse, shift_reduce. apply keep_bind; [typeclasses eauto|keep_auto|intros t].
  apply keep_bind; [typeclasses eauto|keep_auto|intros _]. apply keep_bind; [typeclasses eauto| |intros []; keep_auto].
  unfold shift. replace (tk =? swstmt) with false by lia.
  unfold parse_decl, parse_if, parse_head, parse_lbrace, lbrace_open, parse_while, parse_else, parse_rbrace, parse_semicolon, diag2. keep_auto.
Qed.

(** ** A dump leaves the parser alone *)

Definition same_stack (g g' : globals) : Prop :=
  p_stack (ps g') = p_stack (ps g) /\ il (ps g') = il (ps g) /\ cstk (ps g') = cstk (ps g) /\ tos (ps g') = tos (ps g) /\
  dec_nest (ps g') = dec_nest (ps g) /\ token g' = token g.

#[global] Instance same_stack_preorder : PreOrder same_stack.
Proof. split; [done|]. unfold same_stack. intros g1 g2 g3 H1 H2. destruct_and!. split_and!; congruence. Qed.

Lemma stack_count c b : keeps same_stack (m_count_spaces c b).
Proof. unfold m_count_spaces. keep_auto. Qed.
Lemma stack_pad c t : keeps same_stack (m_pad_output c t).
Proof. unfold m_pad_output. keep_auto. Qed.
#[export] Hint Resolve stack_count stack_pad : keep.
Lemma stack_code_target : keeps same_stack compute_code_target.
Proof. unfold compute_code_target. keep_auto. Qed.
Lemma stack_label_target : keeps same_stack compute_label_target.
Proof. unfold compute_label_target. keep_auto. Qed.
Lemma stack_close : keeps same_stack close_comment.
Proof. unfold close_comment. keep_auto. Qed.
#[export] Hint Resolve stack_code_target stack_label_target stack_close : keep.

Lemma stack_dump_line : keeps same_stack IndentIo.dump_line.
Proof.
  unfold IndentIo.dump_line, dump_body, dump_text, dump_prepare, dump_blanklines, dump_label, dump_code, dump_comment, dump_newline, dump_reset.
  repeat first [keep_step | apply keep_modify; intros g; unfold at_proc; by case_if].
Qed.

(** ** The invariant of a token *)

(** What a token may not change outside the line, the text waiting on it and the
    parser's stack; the open parentheses and structures stay countable. *)
Record agree (lo : Z) (g g' : globals) : Prop := {
  a_opt : opt g' = opt g;
  a_case : case_ind g' = case_ind g;
  a_S : p_stack (ps g') = p_stack (ps g);
  a_I : il (ps g') = il (ps g);
  a_C : cstk (ps g') = cstk (ps g);
  a_tos : tos (ps g') = tos (ps g);
  a_parens : length (paren_indents (ps g')) = length (paren_indents (ps g));
  a_n : lo <= p_l_follow (ps g') <= 19;
  a_d : 0 <= dec_nest (ps g') <= 19;
  a_tok : token g' = token g;
  a_on : inhibit_formatting g' = inhibit_formatting g;
  a_out : output_is_stdout g' = output_is_stdout g;
  a_open : comment_open g' = comment_open g;
  a_lab : lab g' = lab g;
  a_code : code g' = code g;
  a_ink : ink (output g') = ink (output g)
}.

(** [K] is the ink printed and waiting on the line, [r] bounds the parser's stack;
    the line is as a dump expects it as long as [cl] holds. *)
Record J (lo : Z) (cl : bool) (tok K : bytes) (r : Z) (m : mainst) : Prop := {
  j_lo : 0 <= lo;
  j_com : holds (cs m) [];
  j_ts : 0 < tabsize (opt (glob (cs m)));
  j_parens : length (paren_indents (ps (glob (cs m)))) = 20%nat;
  j_fit : fits (glob (cs m));
  j_par : parser_ok (glob (cs m));
  j_tos : tos (ps (glob (cs m))) <= r;
  j_n : lo <= p_l_follow (ps (glob (cs m))) <= 19;
  j_d : 0 <= dec_nest (ps (glob (cs m))) <= 19;
  j_di : length (di_stack m) = 20%nat;
  j_hd : sp_sw m = true -> hd_type m <> swstmt;
  j_tok : token (glob (cs m)) = tok;
  j_on : inhibit_formatting (glob (cs m)) = 0;
  j_out : output_is_stdout (glob (cs m)) = false;
  j_clean : cl = true -> clean_label (glob (cs m)) /\ clean_code (glob (cs m));
  j_ink : ink (output (glob (cs m))) ++ ink (lab (glob (cs m))) ++ ink (code (glob (cs m))) = K
}.

#[global] Arguments j_lo {_ _ _ _ _ _}.
#[global] Arguments j_com {_ _ _ _ _ _}.
#[global] Arguments j_ts {_ _ _ _ _ _}.
#[global] Arguments j_parens {_ _ _ _ _ _}.
#[global] Arguments j_fit {_ _ _ _ _ _}.
#[global] Arguments j_par {_ _ _ _ _ _}.
#[global] Arguments j_tos {_ _ _ _ _ _}.
#[global] Arguments j_n {_ _ _ _ _ _}.
#[global] Arguments j_d {_ _ _ _ _ _}.
#[global] Arguments j_di {_ _ _ _ _ _}.
#[global] Arguments j_hd {_ _ _ _ _ _}.
#[global] Arguments j_tok {_ _ _ _ _ _}.
#[global] Arguments j_on {_ _ _ _ _ _}.
#[global] Arguments j_out {_ _ _ _ _ _}.
#[global] Arguments j_clean {_ _ _ _ _ _}.
#[global] Arguments j_ink {_ _ _ _ _ _}.

Lemma J_io {lo cl tok K r m} : J lo cl tok K r m -> io_wf (glob (cs m)).
Proof. intros []. split; [done|apply j_fit0|done|lia]. Qed.

Lemma J_weaken {lo cl tok K r m} lo' r' : J lo cl tok K r m -> 0 <= lo' <= lo -> r <= r' -> J lo' cl tok K r' m.
Proof. intros [] Hl Hr. split; try done; lia. Qed.

Lemma J_agree lo cl tok K r lo' m m' g' :
  J lo cl tok K r m -> 0 <= lo' -> agree lo' (glob (cs m)) g' ->
  cs m' = cs m <| glob := g' |> -> length (di_stack m') = length (di_stack m) ->
  (sp_sw m' = true -> hd_type m' <> swstmt) -> J lo' cl tok K r m'.
Proof.
  intros [? [] ? ? [] [] ? ? ? ? ? ? ? ? Hc Hk] Hlo [] E Ed Eh.
  split; rewrite ?E; cbn -[ink]; rewrite ?Ed, ?a_opt0, ?a_tos0, ?a_parens0, ?a_on0, ?a_out0, ?a_lab0, ?a_code0, ?a_ink0, ?a_tok0; try done.
  - by split; rewrite ?a_opt0, ?a_case0, ?a_C0.
  - by split; rewrite ?a_S0, ?a_I0, ?a_C0, ?a_tos0.
  - intros Hcl. destruct (Hc Hcl) as [[? ?] [? ?]]. by split; split; rewrite ?a_open0, ?a_lab0, ?a_code0.
Qed.

Lemma agree_diag lo l t g : lo <= p_l_follow (ps g) <= 19 -> 0 <= dec_nest (ps g) <= 19 ->
  output_is_stdout g = false -> wp (diag l t) (fun _ g' => agree lo g g' /\ ps g' = ps g) noexit g.
Proof.
  intros Hn Hd Ho. unfold diag. wp_steps. apply wp_if; intros _; wp_steps; cbn; rewrite ?Ho; (split; [by split|done]).
Qed.

(** *** The steps of main *)

Lemma wp_aget {S A} (l : list A) i (Q : A -> S -> Prop) X (s : S) :
  0 <= i < Z.of_nat (length l) -> (forall v, Q v s) -> wp (of_opt (aget l i)) Q X s.
Proof. intros Hi HQ. destruct (aget_in l i Hi) as [v Ev]. eapply wp_of_opt; [exact Ev|apply HQ]. Qed.

Lemma wp_look {A} (f : mainst -> A) (Q : A -> mainst -> Prop) X m : Q (f m) m -> wp (look f) Q X m.
Proof. done. Qed.

Lemma wp_on_com {A} (k : C A) (Q : A -> mainst -> Prop) m :
  wp k (fun a c => Q a (m <| cs := c |>)) noexit (cs m) -> wp (on_com k) Q noexit m.
Proof. unfold wp, on_com. by destruct (k (cs m)). Qed.

Lemma wp_ong {A} (k : M A) (Q : A -> mainst -> Prop) m :
  wp k (fun a g => Q a (m <| cs := cs m <| glob := g |> |>)) noexit (glob (cs m)) -> wp (ong k) Q noexit m.
Proof. intros H. apply wp_on_com, wp_on_glob. exact H. Qed.

Section Steps.
Context {lo : Z} {cl : bool} {tok K : bytes} {r : Z} {m : mainst} (HJ : J lo cl tok K r m).

Lemma wp_agree {A} (k : M A) (Q : A -> mainst -> Prop) :
  wp k (fun _ g' => agree lo (glob (cs m)) g') noexit (glob (cs m)) ->
  (forall a m', J lo cl tok K r m' -> Q a m') -> wp (ong k) Q noexit m.
Proof.
  intros Hk HQ. apply wp_ong. eapply wp_mono; [exact Hk|]. intros a g' Ha. apply HQ.
  by eapply J_agree; [exact HJ|apply (j_lo HJ)|exact Ha|done|done|apply (j_hd HJ)].
Qed.

Lemma wp_diag l t (Q : () -> mainst -> Prop) : (forall m', J lo cl tok K r m' -> Q tt m') -> wp (ong (diag l t)) Q noexit m.
Proof.
  intros HQ. apply wp_agree; [|by intros []]. destruct HJ. eapply wp_mono; [by apply agree_diag|]. by intros [] g' [Ha _].
Qed.

(** Any field of the parser's state but the stack. *)
Lemma wp_setf {A} (f : parser_state -> A) `{Setter _ _ f} v (Q : () -> mainst -> Prop) :
  agree lo (glob (cs m)) (glob (cs m) <| ps := ps (glob (cs m)) <| f := v |> |>) ->
  (forall m', J lo cl tok K r m' -> Q tt m') -> wp (setf f v) Q noexit m.
Proof. intros Ha HQ. apply wp_agree; [by apply wp_setps|]. by intros []. Qed.

(** A global of the layout. *)
Lemma wp_setg (f : globals -> globals) (Q : () -> mainst -> Prop) :
  agree lo (glob (cs m)) (f (glob (cs m))) ->
  (forall m', J lo cl tok K r m' -> Q tt m') -> wp (ong (modify f)) Q noexit m.
Proof. intros Ha HQ. apply wp_agree; [by apply wp_modify|]. by intros []. Qed.

(** A variable of main. *)
Lemma wp_setm {A} (f : mainst -> A) `{Setter _ _ f} v (Q : () -> mainst -> Prop) :
  cs (m <| f := v |>) = cs m -> length (di_stack (m <| f := v |>)) = length (di_stack m) ->
  (sp_sw (m <| f := v |>) = true -> hd_type (m <| f := v |>) <> swstmt) ->
  (forall m', J lo cl tok K r m' -> Q tt m') -> wp (setm f v) Q noexit m.
Proof.
  intros E1 E2 Hh HQ. apply wp_modify, HQ. eapply (J_agree _ _ _ _ _ _ m _ (glob (cs m))); [exact HJ|apply (j_lo HJ)| |rewrite E1; by destruct (cs m)|done|done].
  destruct HJ. by split.
Qed.

Lemma wp_put_code b (Q : () -> mainst -> Prop) :
  (cl = true -> forallb (fun x => negb (x =? 128)) b = true) ->
  (forall m', J lo cl tok (K ++ ink b) r m' -> Q tt m') -> wp (put_code b) Q noexit m.
Proof.
  intros Hb HQ. apply wp_ong, wp_modify, HQ. destruct HJ as [? [] ? ? [] [] ? ? ? ? ? ? ? ? Hc Hk].
  split; cbn -[ink]; try done.
  - intros Ec. destruct (Hc Ec) as [H1 [H2 H3]]. split; [done|]. split; [done|]. cbn. by rewrite forallb_app, H3, Hb.
  - by rewrite ink_app, <- Hk, <- !app_assoc.
Qed.

(** Blanks leave no ink. *)
Lemma wp_put_blank b (Q : () -> mainst -> Prop) :
  forallb isblank b = true -> (forall m', J lo cl tok K r m' -> Q tt m') -> wp (put_code b) Q noexit m.
Proof.
  intros Hb HQ. apply wp_put_code.
  - intros _. apply forallb_forall. rewrite forallb_forall in Hb. intros x Hx. specialize (Hb x Hx). unfold isblank in Hb. lia.
  - rewrite ink_none, app_nil_r; [done|]. apply forallb_forall. rewrite forallb_forall in Hb. intros x Hx.
    by rewrite blank_no_ink by auto.
Qed.

End Steps.

Lemma wp_dump_empty (Q : () -> comst -> Prop) c :
  holds c [] -> io_wf (glob c) ->
  (forall c', holds c' [] -> dumped (glob c) [] (glob c') -> same_stack (glob c) (glob c') -> Q tt c') -> wp IndentComment.dump_line Q noexit c.
Proof.
  intros H Hwf HQ. unfold IndentComment.dump_line. wp_steps. pose proof H as [Hs He (x & R & Hb) Hl Hl5]. cbn in He.
  assert (Hp : printable c = true) by (unfold printable; by rewrite Hs, He). rewrite Hp. wp_steps. rewrite (holds_seen c []) by done.
  apply wp_on_glob. cbn [glob set_field set_glob]. set (g := glob c <| com := [] |>). assert (Hwf1 : io_wf g) by (by destruct Hwf).
  eapply wp_mono; [exact (wp_kept _ _ _ _ _ stack_dump_line (wp_and _ _ _ _ _ (dump_line_ink g Hwf1) (wp_dump_line g Hwf1)))|].
  intros [] g' [[[S1 O1] (b & [L1 _] & _ & R1 & _)] K1]. unfold com_reset. wp_step.
  apply wp_store; [cbn; lia|cbn; rewrite Hb; cbn; lia|]. wp_steps.
  apply HQ; [|destruct R1 as (? & ? & _); by split|exact K1].
  split; cbn -[drop take]; try done; [exists x, (0 :: drop 2 (combuf c)); by rewrite Hb|].
  change (Pos.to_nat 1) with 1%nat. rewrite (stored_length (combuf c) 1) by (rewrite Hb; cbn; lia). lia.
Qed.

Lemma still_fits_parse tk g :
  tk <> swstmt -> fits g -> forall g', IndentParse.parse tk g = SRet tt g' -> fits g'.
Proof. intros Hsw F g' E. exact (proj1 (fit_parse tk Hsw _ _ _ E F)). Qed.

(** A token that is not a switch, with room on the stack. *)
Lemma wp_parse_room tk g r :
  tk <> swstmt -> parser_ok g -> output_is_stdout g = false -> tos (ps g) <= r -> r <= 250 ->
  wp (IndentParse.parse tk) (fun _ g' => parser_ok g' /\ tos (ps g') <= r + 2 /\
    exists msg c, g' = mk (diagnosed msg g) c) noexit g.
Proof.
  intros Hsw Hok Ho Hr Hr250. pose proof (parser_ok_Rep g Hok) as HR.
  pose proof (parse_outcome_holds g _ tk HR ltac:(lia)) as HP. unfold parse_outcome in HP.
  pose proof (rep_height _ _ _ _ _ (rstk _ _ HR)) as [Hh _]. cbn [kT core_of] in Hh.
  pose proof (send_ifs_length tk (stack_of g)) as Hl.
  destruct (wp_run _ _ _ (end_ifs_refines tk g (core_of g) _ HR)) as (_ & _ & _ & c1 & _ & HR1).
  assert (Hm : exists s' msg, smid (opt g) (line_empty g) tk (stack_of g) = Some (s', msg) /\
    (Z.of_nat (length (stk s')) <= r + 3)).
  { unfold smid. destruct (sshift _ _ _ _) as [s'|msg|] eqn:Es.
    - pose proof (sshift_height _ _ _ _ _ Es) as Hs. exists s', None. split; [done|]. destruct (tk =? lbrace); lia.
    - eexists _, _. split; [done|]. lia.
    - exfalso. apply sshift_ub in Es as [? _]; [done|]. intros E. pose proof (rstk _ _ HR1) as H1. by rewrite E in H1. }
  destruct Hm as (s' & msg & Em & Hs). rewrite Em in HP.
  rewrite (proj2 (Nat.compare_lt_iff (length (stk s')) 256)) in HP by lia. destruct HP as (c & E & HRc & Hc).
  unfold wp. rewrite E. set (s2 := if is_token tk then sreduce s' else s') in *.
  assert (Hs2 : (length (stk s2) <= length (stk s'))%nat) by (subst s2; case_if; [apply sreduce_n_length|lia]).
  pose proof (rep_height _ _ _ _ _ (rstk _ _ HRc)) as [Hhc _].
  split; [|split; [cbn; lia|by eexists _, _]]. apply (Rep_parser_ok _ s2); [by destruct c|done].
Qed.

Lemma diagnosed_agree lo msg g :
  lo <= p_l_follow (ps g) <= 19 -> 0 <= dec_nest (ps g) <= 19 -> output_is_stdout g = false -> agree lo g (diagnosed msg g).
Proof.
  intros Hn Hd Ho. destruct msg as [t|]; [|by split]. cbn [diagnosed].
  destruct (wp_run _ _ _ (agree_diag lo 1 t g Hn Hd Ho)) as (x & g' & E & Ha & _). unfold diag2. by rewrite E.
Qed.

Section Big.
Context {lo : Z} {cl : bool} {tok K : bytes} {r : Z} {m : mainst} (HJ : J lo cl tok K r m).

Lemma wp_parse tk (Q : () -> mainst -> Prop) :
  tk <> swstmt -> r <= 250 -> (forall m', J lo cl tok K (r + 2) m' -> Q tt m') -> wp (parse tk) Q noexit m.
Proof.
  intros Hsw Hr HQ. apply wp_ong. pose proof HJ as [? [] ? ? ? ? ? ? ? ? ? ? ? ? Hc Hk].
  pose proof (wp_parse_room tk (glob (cs m)) r ltac:(done) ltac:(done) ltac:(done) ltac:(done) ltac:(done)) as Hp.
  destruct (wp_run _ _ _ Hp) as ([] & g' & E & Hok & Ht & msg & c & ->).
  unfold wp. rewrite E. apply HQ. pose proof (still_fits_parse tk _ Hsw j_fit0 _ E) as Hf.
  destruct (diagnosed_agree lo msg (glob (cs m))) as []; [done..|].
  split; cbn -[ink mk]; try done; cbn -[ink]; rewrite ?a_opt0, ?a_parens0, ?a_on0, ?a_out0, ?a_lab0, ?a_code0, ?a_ink0, ?a_tok0; try done.
  intros Hcl. destruct (Hc Hcl) as [[? ?] [? ?]]. by split; split; cbn; rewrite ?a_open0, ?a_lab0, ?a_code0.
Qed.

Lemma wp_dump_J (Q : () -> mainst -> Prop) :
  cl = true -> (forall m', J lo cl tok K r m' -> code (glob (cs m')) = [] -> Q tt m') -> wp dump_line Q noexit m.
Proof.
  intros Hcl HQ. apply wp_on_com. pose proof (J_io HJ) as Hio.
  destruct HJ as [? Hh ? ? [F1 F2] [] ? ? ? ? ? ? ? ? Hc Hk]. apply wp_dump_empty; [done|done|].
  intros c' Hh' [(E1 & E2 & E3 & E4 & _ & _ & _ & _ & E5 & _) (_ & E6 & E7) E8 E9 E10] (S1 & S2 & S3 & S4 & S5 & S6).
  destruct (Hc Hcl) as [[Ho Hl] Hcc]. apply HQ; [|done]. rewrite app_nil_r in E10.
  split; cbn -[ink]; rewrite ?E1, ?E3, ?E4, ?E5, ?E6, ?S4, ?S5, ?S6; try done.
  - by split; rewrite ?E1, ?E2, ?S3.
  - by split; rewrite ?S1, ?S2, ?S3, ?S4.
  - intros _. split; split; rewrite ?E8, ?E9; auto.
  - rewrite E8, E9, E10 by done. by rewrite !app_nil_r.
Qed.

End Big.

(** *** Symbolic execution of a case *)

Ltac agrees HJ := pose proof (j_n HJ); pose proof (j_d HJ); pose proof (j_lo HJ); split; cbn; first [done | lia].

(** One statement; the invariant of the state is found in the context. *)
Ltac j_new := let m := fresh "m" in let HJ := fresh "HJ" in intros m HJ.
Ltac j_step :=
  lazymatch goal with
  | HJ : J ?lo ?cl ?tok ?K ?r ?m |- wp ?k _ noexit ?m =>
      lazymatch k with
      | bind _ _ => apply wp_bind
      | ret _ => apply wp_ret
      | get => apply wp_get
      | look _ => apply wp_look
      | lookg _ => apply wp_look
      | lookp _ => apply wp_look
      | looko _ => apply wp_look
      | setf _ _ => apply (wp_setf HJ); [agrees HJ|j_new]
      | setm _ _ => apply (wp_setm HJ); [done|done|cbn; first [done | exact (j_hd HJ)]|j_new]
      | ong (modify _) => apply (wp_setg HJ); [agrees HJ|j_new]
      | no_prefix_blankline => apply (wp_setg HJ); [agrees HJ|j_new]
      | ong (diag _ _) => apply (wp_diag HJ); j_new
      | ong (diag2 _ _) => apply (wp_diag HJ); j_new
      | ong (diag3 _ _ _ _) => apply (wp_diag HJ); j_new
      | put_code [32] => apply (wp_put_blank HJ); [done|j_new]
      | dump_line => apply (wp_dump_J HJ); [done|let m' := fresh "m" in let HJ' := fresh "HJ" in intros m' HJ' _]
      end
  end; cbv beta iota.
Ltac j_steps := repeat j_step.

(** A conditional whose branches meet again. *)
Ltac j_join K' r' :=
  j_steps;
  lazymatch goal with
  | HJ : J ?lo ?cl ?tok _ _ ?m |- wp _ _ noexit ?m =>
      apply (wp_mono _ (fun _ m' => J lo cl tok K' r' m')); [|cbv beta; intros _; j_new]
  end.
Ltac j_opt :=
  j_steps;
  lazymatch goal with
  | HJ : J ?lo ?cl ?tok ?K ?r ?m |- wp (if _ then _ else _) _ noexit ?m =>
      j_join K r; [repeat (apply wp_if; intros ?; j_steps); try done|]
  end.

Ltac j_use L := j_steps; eapply wp_mono; [eapply L; try eassumption|cbv beta; intros _; j_new].

Lemma J_top {lo cl tok K r m} : J lo cl tok K r m ->
  let p := ps (glob (cs m)) in 0 <= tos p < Z.of_nat (length (p_stack p)) /\ 0 <= tos p < Z.of_nat (length (il p)).
Proof. intros HJ p. destruct (j_par HJ) as [E1 E2 _ E3 _]. fold p in E1, E2, E3. lia. Qed.

Ltac j_parse :=
  lazymatch goal with
  | HJ : J _ _ _ _ _ ?m |- wp (parse _) _ noexit ?m => apply (wp_parse HJ); [first [done | eapply j_hd; eassumption]|lia|j_new]; j_steps
  end.
Ltac j_put :=
  lazymatch goal with
  | HJ : J _ _ _ _ _ ?m |- wp (put_code _) _ noexit ?m => apply (wp_put_code HJ); [try done|j_new]; j_steps
  end.
Ltac j_end := j_steps; by eapply J_weaken.

Lemma wp_blank_code lo cl tok K r m : J lo cl tok K r m -> wp blank_code (fun _ m' => J lo cl tok K r m') noexit m.
Proof. intros HJ. unfold blank_code. j_steps. by j_opt. Qed.

Lemma wp_line_broken lo cl tok K r m : J lo cl tok K r m -> wp line_broken (fun _ m' => J lo cl tok K r m') noexit m.
Proof. intros HJ. unfold line_broken. j_steps. by j_opt. Qed.

(** *** indent_declaration *)

Lemma dec_tabs_total fuel ts pos cur :
  0 < ts -> (Z.to_nat (cur - pos) < fuel)%nat -> exists b p, dec_tabs fuel ts pos cur = Some (b, p) /\ forallb isblank b = true.
Proof.
  intros Hts. revert pos. induction fuel as [|fuel IH]; intros pos Hf; [lia|]. cbn [dec_tabs].
  replace (ts =? 0) with false by lia. set (tpos := ts * (1 + cdiv pos ts)).
  assert (Ht : pos < tpos).
  { unfold tpos, cdiv. pose proof (Z.quot_rem' pos ts). pose proof (Z.rem_bound_abs pos ts). lia. }
  destruct (tpos <=? cur) eqn:E; [|by eexists _, _]. destruct (IH tpos) as (b & p & -> & Hb); [lia|]. by eexists _, _.
Qed.

Lemma blanks_32 n : forallb isblank (replicate n 32) = true.
Proof. induction n; by cbn. Qed.

Lemma wp_indent_declaration v lo cl tok K r m :
  J lo cl tok K r m -> wp (indent_declaration v) (fun _ m' => J lo cl tok K r m') noexit m.
Proof.
  intros HJ. unfold indent_declaration. j_steps. pose proof (j_ts HJ) as Hts.
  replace (tabsize _ =? 0) with false by lia. cbv zeta. apply wp_bind.
  apply (wp_mono _ (fun t m' => m' = m /\ forallb isblank t.1 = true)).
  { apply wp_if; intros _; [|done]. edestruct dec_tabs_total as (b & p & E & Hb); [exact Hts|apply Nat.lt_succ_diag_r|].
    by eapply wp_of_opt; [exact E|]. }
  intros [tabs pos] m' [-> Hb]. cbn [fst] in Hb. apply wp_bind.
  apply (wp_put_blank HJ); [by rewrite forallb_app, Hb, blanks_32|]. intros m1 HJ1.
  destruct (tabs ++ _); [|by j_steps]. by j_opt.
Qed.

(** The declaration of a name is indented once. *)
Ltac j_dec := j_use wp_indent_declaration; j_steps.

Lemma ink1 x : ink [x] = if inked x then [x] else [].
Proof. done. Qed.

(** *** Parentheses *)

Lemma wp_set_paren i v lo cl tok K r m :
  J lo cl tok K r m -> 0 <= i <= 19 -> wp (set_paren i v) (fun _ m' => J lo cl tok K r m') noexit m.
Proof.
  intros HJ Hi. unfold set_paren. j_steps. pose proof (j_parens HJ) as Hp.
  eapply wp_of_opt; [apply aset_in; lia|]. apply (wp_setf HJ); [|done].
  pose proof (j_n HJ). pose proof (j_d HJ). split; cbn; try done; try lia. by rewrite length_insert.
Qed.

Lemma diag_warning t g :
  output_is_stdout g = false -> exists e, diag 0 t g = SRet tt (g <| errout := e |>).
Proof. intros Ho. unfold diag, bind, modify. cbn. rewrite Ho. by eexists. Qed.

(** Opening one more, unless all are open. *)
Lemma wp_open_paren {lo cl tok K r m} (Q : () -> mainst -> Prop) (k : N ()) :
  J lo cl tok K r m ->
  (forall m', J 1 cl tok K r m' -> wp k Q noexit m') ->
  let n := p_l_follow (ps (glob (cs m))) in
  wp (setf p_l_follow (n + 1) ;;
      (if n + 1 =? 20 then ong (diag3 0 (bs "Reached internal limit of ") (bs " unclosed parens") 20) ;; setf p_l_follow n
       else ret tt) ;; k) Q noexit m.
Proof.
  intros HJ Hk n. pose proof (j_n HJ) as Hn. pose proof (j_lo HJ). fold n in Hn. apply wp_bind, wp_ong, wp_setps.
  destruct (n + 1 =? 20) eqn:E; apply wp_bind.
  - apply wp_bind, wp_ong. edestruct diag_warning as [e Ee]; [|eapply wp_run_eq; [exact Ee|]]; [exact (j_out HJ)|]. apply wp_ong, wp_setps, Hk.
    eapply (J_agree _ _ _ _ _ _ m); [exact HJ|first [apply (j_lo HJ)|lia]| |done|done|apply (j_hd HJ)]. agrees HJ.
  - apply wp_ret, Hk. eapply (J_agree _ _ _ _ _ _ m); [exact HJ|first [apply (j_lo HJ)|lia]| |done|done|apply (j_hd HJ)]. agrees HJ.
Qed.

(** Closing one, unless none is open. *)
Lemma wp_close_paren {cl tok K r m} (Q : () -> mainst -> Prop) (k : N ()) t n :
  J 0 cl tok K r m -> 0 <= n <= 19 -> (forall m', J 0 cl tok K r m' -> wp k Q noexit m') ->
  wp (setf p_l_follow (n - 1) ;;
      (if n - 1 <? 0 then setf p_l_follow 0 ;; ong (diag 0 t) else ret tt) ;; k) Q noexit m.
Proof.
  intros HJ Hn Hk. apply wp_bind, wp_ong, wp_setps.
  destruct (n - 1 <? 0) eqn:E; apply wp_bind.
  - apply wp_bind, wp_ong, wp_setps, wp_ong. edestruct diag_warning as [e Ee]; [|eapply wp_run_eq; [exact Ee|]]; [exact (j_out HJ)|]. apply Hk.
    eapply (J_agree _ _ _ _ _ _ m); [exact HJ|first [apply (j_lo HJ)|lia]| |done|done|apply (j_hd HJ)]. agrees HJ.
  - apply wp_ret, Hk. eapply (J_agree _ _ _ _ _ _ m); [exact HJ|first [apply (j_lo HJ)|lia]| |done|done|apply (j_hd HJ)]. agrees HJ.
Qed.

(** The header of a statement ends. *)
Lemma wp_end_header lo cl tok K r r' m :
  J lo cl tok K r m -> sp_sw m = true -> r <= 250 -> r + 2 <= r' -> wp end_header (fun _ m' => J lo cl tok K r' m') noexit m.
Proof.
  intros HJ Hs Hr Hr'. unfold end_header. pose proof (j_hd HJ Hs) as Hh.
  apply wp_bind, wp_modify, wp_bind, wp_modify, wp_bind, wp_ong, wp_setps, wp_bind, wp_ong, wp_setps, wp_bind, wp_look.
  match goal with |- wp _ _ _ ?m' => assert (HJ' : J lo cl tok K r m') end.
  { eapply (J_agree _ _ _ _ _ _ m); [exact HJ|first [apply (j_lo HJ)|lia]| |done|done|done]. agrees HJ. }
  apply (wp_parse HJ'); [done..|]. intros m' HJ1. by apply (J_weaken _ _ HJ1); [pose proof (j_lo HJ); lia|].
Qed.

(** The whole case, with the text it puts on the line. *)
Abbreviation case_spec k tok T := (forall K m,
  J 0 true tok K 240 m -> wp k (fun _ m' => J 0 true tok (K ++ ink T) 246 m') noexit m).

Lemma wp_put_token lo cl tok K r m :
  J lo cl tok K r m -> (cl = true -> forallb (fun x => negb (x =? 128)) tok = true) ->
  wp put_token (fun _ m' => J lo cl tok (K ++ ink tok) r m') noexit m.
Proof. intros HJ Ht. unfold put_token. j_steps. rewrite (j_tok HJ). by apply (wp_put_code HJ). Qed.

Section Cases.
Context (tok : bytes) (Htok : forallb (fun x => negb (x =? 128)) tok = true).

Lemma hd0_clean : forallb (fun x => negb (x =? 128)) [hd0 tok] = true.
Proof using Htok. destruct tok as [|x t]; [done|]. cbn in *. bsimp. lia. Qed.

Lemma lparen_text : case_spec case_lparen tok [hd0 tok].
Proof using Htok.
  intros K m HJ. unfold case_lparen. apply wp_bind, wp_look. apply (wp_open_paren _ _ HJ). clear m HJ. intros m HJ.
  j_steps. cbv zeta. rewrite (j_tok HJ).
  j_join K 240. { repeat (apply wp_if; intros ?); j_steps; try done. by j_dec. }
  j_steps. apply (wp_put_code HJ1); [intros _; apply hd0_clean|j_new]. j_steps.
  destruct (count_spaces_total _ 1 (code (glob (cs m2))) (j_ts HJ2)) as [v Ev]. eapply wp_of_opt; [exact Ev|].
  pose proof (j_n HJ2). j_steps. j_use wp_set_paren; [lia|]. j_steps. rewrite (j_tok HJ3).
  j_join (K ++ ink [hd0 tok]) 240.
  { apply wp_if; intros _; [|by j_steps]. j_steps. apply wp_aget; [pose proof (j_parens HJ3); lia|intros w].
    apply wp_if; intros _; [|by j_steps]. apply wp_set_paren; [done|lia]. }
  j_steps. j_join (K ++ ink [hd0 tok]) 242.
  { apply wp_if; intros _; j_steps; [|by eapply J_weaken]. apply (wp_parse HJ4); [done|lia|]. j_new. by j_steps. }
  j_steps. apply wp_if; intros _; j_steps; by eapply J_weaken.
Qed.

Lemma rparen_text : case_spec case_rparen tok [hd0 tok].
Proof using Htok.
  intros K m HJ. unfold case_rparen. j_steps. cbv zeta. j_join K 240. { apply wp_if; intros _; by j_steps. }
  j_step. j_step. apply (wp_close_paren _ _ _ _ HJ1 (j_n HJ)). intros m2 HJ2. j_steps.
  j_opt. j_steps. rewrite (j_tok HJ2). apply (wp_put_code HJ3); [intros _; apply hd0_clean|j_new]. j_steps.
  j_join (K ++ ink [hd0 tok]) 242.
  { apply wp_if; intros E; j_steps; [|by eapply J_weaken]. apply andb_true_iff in E as [E _]. eapply wp_end_header; [eassumption|exact E|lia|lia]. }
  j_steps. by eapply J_weaken.
Qed.

Lemma unary_text : case_spec case_unary_op tok tok.
Proof using Htok.
  intros K m HJ. unfold case_unary_op. j_steps. cbv zeta.
  j_join K 240. { apply wp_if; intros _; j_steps; [by j_dec|by apply wp_blank_code]. }
  j_use wp_put_token; [done|]. j_steps. by eapply J_weaken.
Qed.

Lemma binary_text : case_spec case_binary_op tok tok.
Proof using Htok.
  intros K m HJ. unfold case_binary_op. j_steps. j_use wp_blank_code. j_steps. j_use wp_put_token; [done|].
  j_steps. by eapply J_weaken.
Qed.

Lemma postop_text : case_spec case_postop tok (hd0 tok :: [hd0 (tail tok)]).
Proof using Htok.
  intros K m HJ. unfold case_postop. j_steps. rewrite (j_tok HJ). apply (wp_put_code HJ).
  - intros _. destruct tok as [|x [|y t]]; cbn in *; bsimp; first [done | lia].
  - j_new. j_steps. by eapply J_weaken.
Qed.

Lemma question_text : case_spec case_question tok [63].
Proof.
  intros K m HJ. unfold case_question. apply wp_bind, wp_modify.
  assert (HJ' : J 0 true tok K 240 (m <| squest ::= Z.succ |>)) by (destruct HJ; by split).
  j_steps. j_use wp_blank_code. j_steps. apply (wp_put_code HJ0); [done|j_new]. j_steps. by eapply J_weaken.
Qed.

Lemma copy_id_text type_code r K m : r <= 246 ->
  J 0 true tok K r m -> wp (copy_id type_code) (fun _ m' => J 0 true tok (K ++ ink tok) 246 m') noexit m.
Proof using Htok.
  intros Hr HJ. unfold copy_id. j_steps. j_use wp_blank_code. j_steps. j_use wp_put_token; [done|]. j_steps.
  apply wp_if; intros _; j_steps; by eapply J_weaken.
Qed.

Lemma strpfx_text : case_spec case_strpfx tok tok.
Proof using Htok.
  intros K m HJ. unfold case_strpfx. j_steps. j_use wp_blank_code. j_steps. j_use wp_put_token; [done|].
  j_steps. by eapply J_weaken.
Qed.

Lemma period_text : case_spec (put_code [46] ;; setf want_blank 0) tok [46].
Proof. intros K m HJ. j_steps. j_put. j_end. Qed.

(** A label takes the code before its colon. *)
Lemma colon_text K m :
  J 0 true tok K 240 m -> wp case_colon (fun _ m' => exists cl, J 0 cl tok (K ++ ink [58]) 246 m') noexit m.
Proof.
  intros HJ. unfold case_colon. j_steps. apply wp_if; intros _; j_steps.
  { j_use wp_blank_code. j_steps. j_put. eexists. j_end. }
  apply wp_if; intros _; j_steps.
  { j_put. eexists. j_end. }
  apply wp_ong, wp_modify. set (m1 := m0 <| cs := _ |>).
  assert (HJ1 : J 0 false tok (K ++ ink [58]) 240 m1).
  { destruct HJ0 as [? [] ? ? [] [] ? ? ? ? ? ? ? ? _ Hk]. split; cbn -[ink]; try done.
    by rewrite !ink_app, <- Hk, app_nil_r, <- !app_assoc. }
  j_steps. eexists. j_end.
Qed.

(** Parentheses that are still open are closed. *)
Lemma wp_unbalanced cl K r m : J 0 cl tok K r m -> wp unbalanced (fun _ m' => J 0 cl tok K r m') noexit m.
Proof. intros HJ. unfold unbalanced. by j_steps. Qed.

Lemma semicolon_text : case_spec case_semicolon tok [59].
Proof.
  intros K m HJ. unfold case_semicolon. j_steps. j_opt. j_steps. j_opt. j_steps.
  j_join K 240. { apply wp_if; intros _; j_steps; [by j_dec|done]. }
  j_steps. j_join K 242.
  { apply wp_if; intros _; j_steps; [|j_end]. j_use wp_unbalanced.
    apply wp_if; intros E; j_steps; [|j_end]. j_parse. j_end. }
  j_steps. j_put. apply wp_if; intros _; j_steps; [|j_end].
  j_parse. j_end.
Qed.

Lemma wp_set_di cl K r v m :
  J 0 cl tok K r m -> wp (set_di (dec_nest (ps (glob (cs m)))) v) (fun _ m' => J 0 cl tok K r m') noexit m.
Proof.
  intros HJ. unfold set_di. j_steps. pose proof (j_di HJ) as Hd. pose proof (j_d HJ). eapply wp_of_opt; [apply aset_in; lia|].
  apply (wp_setm HJ); [done|cbn; by rewrite length_insert|apply (j_hd HJ)|done].
Qed.

(** One more structure, unless the limit is reached. *)
Lemma wp_open_struct cl K r m d :
  J 0 cl tok K r m -> 0 <= d <= 19 ->
  wp (setf dec_nest (d + 1) ;;
      if d + 1 =? 20 then ong (diag3 0 (bs "Reached internal limit of ") (bs " struct levels") 20) ;; setf dec_nest d else ret tt)
    (fun _ m' => J 0 cl tok K r m') noexit m.
Proof.
  intros HJ Hd. apply wp_bind, wp_ong, wp_setps. destruct (d + 1 =? 20) eqn:E.
  - apply wp_bind, wp_ong. edestruct diag_warning as [e Ee]; [|eapply wp_run_eq; [exact Ee|]]; [exact (j_out HJ)|].
    apply wp_ong, wp_setps. eapply (J_agree _ _ _ _ _ _ m); [exact HJ|lia| |done|done|apply (j_hd HJ)]. agrees HJ.
  - apply wp_ret. eapply (J_agree _ _ _ _ _ _ m); [exact HJ|lia| |done|done|apply (j_hd HJ)]. agrees HJ.
Qed.

Lemma wp_brace_level K r m : J 0 true tok K r m -> wp brace_level (fun _ m' => J 0 true tok K r m') noexit m.
Proof.
  intros HJ. unfold brace_level. j_steps. cbv zeta. apply wp_if; intros _; j_steps; [|j_opt; by j_steps].
  j_use wp_set_di. apply wp_open_struct; [done|apply (j_d HJ)].
Qed.

Lemma wp_before_brace K r m : J 0 true tok K r m -> wp before_brace (fun _ m' => J 0 true tok K r m') noexit m.
Proof. intros HJ. unfold before_brace. j_steps. cbv zeta. by repeat (apply wp_if; intros _; j_steps). Qed.

Lemma lbrace_text : case_spec case_lbrace tok [123].
Proof.
  intros K m HJ. unfold case_lbrace. j_steps. j_opt. j_use wp_before_brace. j_steps. j_opt. j_join K 242.
  { apply wp_if; intros _; j_steps; [|j_end]. j_use wp_unbalanced. j_steps. apply wp_if; intros E; j_steps; [|j_end].
    j_parse. j_end. }
  j_steps. j_opt. j_use wp_brace_level. j_steps. j_parse. j_use wp_blank_code. j_steps. j_put. j_end.
Qed.

Lemma rbrace_text : case_spec case_rbrace tok [125].
Proof.
  intros K m HJ. unfold case_rbrace. j_steps. apply wp_aget; [by apply (J_top HJ)|intros top].
  j_join K 242. { apply wp_if; intros _; j_steps; [j_parse|]; j_end. }
  j_join K 242. { apply wp_if; intros _; j_steps; [|done]. j_use wp_unbalanced. by j_steps. }
  j_steps. j_join K 242. { apply wp_if; intros _; j_steps; [|done]. j_use wp_line_broken. by j_steps. }
  j_steps. j_put. cbv zeta. j_join (K ++ ink [125]) 242.
  { apply wp_if; intros Hd; j_steps; [|done].
    lazymatch goal with HJ : J _ _ _ _ _ ?m |- wp _ _ _ ?m => pose proof (j_d HJ) as Hdn; pose proof (j_di HJ) as Hdi end.
    apply wp_aget; [lia|intros v]. j_opt. by j_steps. }
  j_steps. j_parse. cbv zeta. apply (wp_mono _ (fun _ m' => m' = m11)).
  { apply wp_if; intros _; [|done]. apply wp_bind, wp_aget; [by apply (J_top HJ11)|intros t].
    apply wp_if; intros _; [|done]. by apply wp_bind, wp_aget; [apply (J_top HJ11)|]. }
  intros sb m' ->. j_steps. apply wp_if; intros _; j_steps; j_end.
Qed.

(** else and do. *)
Lemma sp_nparen_head K m : J 0 true tok K 240 m -> wp case_sp_nparen (fun _ m' => J 0 true tok K 242 m') noexit m.
Proof.
  intros HJ. unfold case_sp_nparen. j_steps. cbv zeta. j_join K 240.
  { apply wp_if; intros _; j_steps; [|done]. j_use wp_line_broken. by j_steps. }
  j_steps. case_if; j_parse; j_end.
Qed.

Lemma decl_head K m : J 0 true tok K 240 m -> wp case_decl (fun _ m' => J 0 true tok K 242 m') noexit m.
Proof.
  intros HJ. unfold case_decl. j_steps. j_parse. cbv zeta. j_opt. j_opt. j_opt. j_end.
Qed.

Lemma ident_head type_code K m : J 0 true tok K 240 m -> wp (case_ident type_code) (fun _ m' => J 0 true tok K 242 m') noexit m.
Proof.
  intros HJ. unfold case_ident. j_steps. cbv zeta. apply wp_if; intros _.
  - apply wp_if; intros _.
    + j_steps. j_join K 240; [|j_end]. do 2 (apply wp_if; intros _; [by j_steps|]). by j_steps.
    + apply wp_if; intros _; [j_dec|]; j_end.
  - apply wp_if; intros E; [|j_end]. apply andb_true_iff in E as [E _]. eapply wp_end_header; [eassumption|exact E|lia|lia].
Qed.


Lemma comma_text : case_spec case_comma tok [44].
Proof.
  intros K m HJ. unfold case_comma. j_steps. j_join K 240. { apply wp_if; intros _; [by j_dec|by j_steps]. }
  j_steps. j_put. apply wp_if; intros _; [|j_end]. j_opt. apply wp_if; intros _; [|j_end]. apply wp_if; intros _; [j_end|].
  j_steps. lazymatch goal with HJ : J _ _ _ _ _ ?m |- wp _ _ _ ?m => apply (wp_agree HJ) end.
  - apply wp_bind. eapply wp_mono; [apply wp_code_target; by eapply J_io|]. intros t ? ->.
    apply wp_count_spaces; [by eapply J_io|]. intros c _.
    lazymatch goal with |- agree 0 (glob (cs ?m)) _ => lazymatch goal with HJ : J _ _ _ _ _ m |- _ => agrees HJ end end.
  - intros n m' HJ'. apply wp_if; intros _; j_end.
Qed.

(** *** Which header it is *)

(** copy_id does not look at the variables of main. *)
Lemma copy_id_frame type_code m m1 (P : comst -> Prop) : cs m1 = cs m ->
  wp (copy_id type_code) (fun _ m' => P (cs m')) noexit m -> wp (copy_id type_code) (fun _ m' => P (cs m')) noexit m1.
Proof.
  intros E. unfold copy_id. intros H%wp_bind_inv. apply wp_bind. revert H.
  unfold blank_code, put_token, put_code, setf, ong, on_com, on_glob, lookp, lookg, look, modify, setps, bind, wp. rewrite E.
  destruct (truth _); cbn; rewrite E; by destruct (negb _).
Qed.

End Cases.

(** ** The tokens *)

Definition text_tokens : list Z :=
  [lparen; rparen; unary_op; binary_op; postop; question; casestmt; colon; semicolon; lbrace; rbrace; swstmt; sp_paren; sp_nparen;
   type_def; storage; structure; decl; funcname; ident; strpfx; period; comma].

(** The text a token puts on the line. *)
Definition token_text (type_code : Z) (tok : bytes) : bytes :=
  if (type_code =? lparen) || (type_code =? rparen) then [hd0 tok]
  else if type_code =? postop then [hd0 tok; hd0 (tail tok)]
  else if type_code =? question then [63]
  else if type_code =? colon then [58]
  else if type_code =? semicolon then [59]
  else if type_code =? lbrace then [123]
  else if type_code =? rbrace then [125]
  else if type_code =? period then [46]
  else if type_code =? comma then [44]
  else tok.

(** The ink printed and waiting on the line. *)
Definition written (g : globals) : bytes := ink (output g) ++ ink (lab g) ++ ink (code g).

Definition counted (g : globals) : Prop := 0 <= p_l_follow (ps g) <= 19 /\ 0 <= dec_nest (ps g) <= 19.

Lemma J_written cl tok K m : J 0 cl tok K 246 m -> written (glob (cs m)) = K /\ counted (glob (cs m)).
Proof. intros HJ. split; [apply (j_ink HJ)|]. split; [apply (j_n HJ)|apply (j_d HJ)]. Qed.

Lemma wp_switch_text type_code tok K m :
  type_code ∈ text_tokens -> forallb (fun x => negb (x =? 128)) tok = true -> J 0 true tok K 240 m ->
  wp (switch_text type_code)
    (fun _ m' => written (glob (cs m')) = K ++ ink (token_text type_code tok) /\ counted (glob (cs m'))) noexit m.
Proof.
  intros Htc Htok HJ.
  assert (Hspec : forall (k : N ()) T, case_spec k tok T ->
    wp k (fun _ m' => written (glob (cs m')) = K ++ ink T /\ counted (glob (cs m'))) noexit m).
  { intros k T Hk. eapply wp_mono; [exact (Hk K m HJ)|]. intros [] m' HJ'. by eapply J_written. }
  assert (Hid : forall t r m, r <= 246 -> J 0 true tok K r m ->
    wp (copy_id t) (fun _ m' => written (glob (cs m')) = K ++ ink tok /\ counted (glob (cs m'))) noexit m).
  { intros t r m0 Hr HJ0. eapply wp_mono; [exact (copy_id_text tok Htok t r K m0 Hr HJ0)|]. intros [] m' HJ'. by eapply J_written. }
  assert (Hhead : forall (k : N ()) t, wp k (fun _ m' => J 0 true tok K 242 m') noexit m ->
    wp (k ;; copy_id t) (fun _ m' => written (glob (cs m')) = K ++ ink tok /\ counted (glob (cs m'))) noexit m).
  { intros k t Hk. apply wp_bind. eapply wp_mono; [exact Hk|]. intros [] m' HJ'. by eapply Hid; [|exact HJ']. }
  assert (Hframe : forall t m1, cs m1 = cs m ->
    wp (copy_id t) (fun _ m' => written (glob (cs m')) = K ++ ink tok /\ counted (glob (cs m'))) noexit m1).
  { intros t m1 E. apply (copy_id_frame _ m m1 (fun c => written (glob c) = K ++ ink tok /\ counted (glob c)) E).
    by eapply Hid; [|exact HJ]. }
  unfold text_tokens in Htc. repeat (apply elem_of_cons in Htc as [->|Htc]); [..|by apply elem_of_nil in Htc].
  - exact (Hspec _ _ (lparen_text tok Htok)).
  - exact (Hspec _ _ (rparen_text tok Htok)).
  - exact (Hspec _ _ (unary_text tok Htok)).
  - exact (Hspec _ _ (binary_text tok Htok)).
  - exact (Hspec _ _ (postop_text tok Htok)).
  - exact (Hspec _ _ (question_text tok)).
  - apply (Hhead (setm scase 1)). j_end.
  - eapply wp_mono; [exact (colon_text tok K m HJ)|]. intros [] m' [cl HJ']. by eapply J_written.
  - exact (Hspec _ _ (semicolon_text tok)).
  - exact (Hspec _ _ (lbrace_text tok)).
  - exact (Hspec _ _ (rbrace_text tok)).
  - change (switch_text swstmt) with (setm sp_sw true ;; setm hd_type swstmt ;; copy_id swstmt).
    apply wp_bind, wp_modify, wp_bind, wp_modify. by apply Hframe.
  - change (switch_text sp_paren) with (
      setm sp_sw true ;;
      let! t := lookg token in
      setm hd_type (if hd0 t =? 105 then ifstmt else if hd0 t =? 119 then whilestmt else forstmt) ;;
      copy_id sp_paren).
    apply wp_bind, wp_modify, wp_bind, wp_look, wp_bind, wp_modify. by apply Hframe.
  - exact (Hhead _ _ (sp_nparen_head tok K m HJ)).
  - apply (Hhead no_prefix_blankline). j_end.
  - apply (Hhead no_prefix_blankline). j_end.
  - change (switch_text structure) with (
      let! n := lookp p_l_follow in (if 0 <? n then ret tt else case_decl) ;; copy_id structure).
    apply wp_bind, wp_look, Hhead. apply wp_if; intros _; [j_end|exact (decl_head tok K m HJ)].
  - exact (Hhead _ _ (decl_head tok K m HJ)).
  - exact (Hhead _ _ (ident_head tok _ K m HJ)).
  - exact (Hhead _ _ (ident_head tok _ K m HJ)).
  - exact (Hspec _ _ (strpfx_text tok Htok)).
  - exact (Hspec _ _ (period_text tok)).
  - exact (Hspec _ _ (comma_text tok)).
Qed.

(** A line ends. *)
Lemma newline_text K m : forall tok, J 0 true tok K 240 m ->
  wp case_newline (fun _ m' => written (glob (cs m')) = K /\ counted (glob (cs m'))) noexit m.
Proof. intros tok HJ. unfold case_newline. cbv zeta. j_steps. j_opt. j_steps. by eapply J_written, J_weaken. Qed.

Lemma form_feed_text K m : forall tok, J 0 true tok K 240 m ->
  wp case_form_feed (fun _ m' => written (glob (cs m')) = K /\ counted (glob (cs m'))) noexit m.
Proof. intros tok HJ. unfold case_form_feed. j_steps. by eapply J_written, J_weaken. Qed.

Lemma wp_before_text type_code tok K m :
  J 0 true tok K 240 m -> wp (before_text type_code) (fun _ m' => J 0 true tok K 240 m') noexit m.
Proof.
  intros HJ. unfold before_text. j_join K 240.
  { apply wp_if; intros _; [|by j_steps]. j_use wp_line_broken. by j_steps. }
  j_steps. destruct (j_com HJ1) as [Hs He _ _ _]. unfold com_empty. rewrite Hs, He. cbn. by j_steps.
Qed.

(** [tok] is the token that has just been read, everything before it is printed or
    on the line, no comment waits, and the limits of the program are not reached:
    the stack of the parser has room, and the case indentations fit an int. *)
Definition token_ready (m : mainst) : Prop :=
  forallb (fun x => negb (x =? 128)) (token (glob (cs m))) = true /\
  J 0 true (token (glob (cs m))) (written (glob (cs m))) 240 m.

Definition line_tokens : list Z := newline :: form_feed :: text_tokens.

Definition line_text (type_code : Z) (tok : bytes) : bytes :=
  if (type_code =? newline) || (type_code =? form_feed) then [] else token_text type_code tok.

Lemma wp_last_token t K m :
  written (glob (cs m)) = K /\ counted (glob (cs m)) ->
  wp (setf last_token t) (fun _ m' => written (glob (cs m')) = K /\ counted (glob (cs m'))) noexit m.
Proof. intros H. by apply wp_ong, wp_setps. Qed.

Lemma not_line_tokens t : t ∈ text_tokens ->
  (t =? 0) = false /\ (t =? comment) = false /\ (t =? newline) = false /\ (t =? preesc) = false /\ (t =? form_feed) = false /\
  forall tok, line_text t tok = token_text t tok.
Proof.
  intros Ht. unfold text_tokens in Ht. repeat (apply elem_of_cons in Ht as [->|Ht]; [done|]). by apply elem_of_nil in Ht.
Qed.

Section Process.
Context (statistics : globals -> bytes).

Lemma wp_process type_code m :
  type_code ∈ line_tokens -> token_ready m ->
  wp (process statistics type_code) (fun _ m' =>
    written (glob (cs m')) = written (glob (cs m)) ++ ink (line_text type_code (token (glob (cs m)))) /\
    counted (glob (cs m'))) noexit m.
Proof.
  intros Htc [Htok HJ]. unfold process.
  unfold line_tokens in Htc. apply elem_of_cons in Htc as [->|Htc]; [|apply elem_of_cons in Htc as [->|Htc]].
  - cbn -[ink case_newline written]. j_steps. eapply wp_mono; [by eapply newline_text|]. intros [] m' H. apply wp_ret. by rewrite app_nil_r.
  - cbn -[ink case_form_feed written]. j_steps. eapply wp_mono; [by eapply form_feed_text|]. intros [] m' H.
    apply wp_last_token. by rewrite app_nil_r.
  - destruct (not_line_tokens _ Htc) as (-> & -> & -> & -> & -> & E). rewrite E. cbn [orb negb]. cbv iota.
    j_use wp_before_text. apply wp_bind. eapply wp_mono; [by eapply wp_switch_text|]. intros [] m' H. by apply wp_last_token.
Qed.
End Process.

(** ** Theorems *)


(** The closing parenthesis of an if, from the start of a program. *)
Definition after_if : mainst :=
  let m := start (opts 0 1) [] false in
  let g := glob (cs m) in
  m <| cs := cs m <| glob := g <| token := [41] |> <| code := bs "if (x" |>
    <| ps := ps g <| p_stack := <[O := stmtl]> (p_stack (ps g)) |> <| p_l_follow := 1 |> |> |> |>
    <| sp_sw := true |> <| hd_type := ifstmt |>.

Lemma after_if_parser : parser_ok (glob (cs after_if)) /\ fits (glob (cs after_if)).
Proof. split; [by split|]. split; [done|]. by apply Forall_replicate. Qed.

Lemma after_if_line :
  holds (cs after_if) [] /\ clean_label (glob (cs after_if)) /\ clean_code (glob (cs after_if)).
Proof. split; [split; cbn; try done; by exists 32, [0]|by split]. Qed.

Lemma after_if_ready : token_ready after_if.
Proof.
  split; [done|]. destruct after_if_parser as [H1 H2]. destruct after_if_line as [H3 H4].
  split; [lia|exact H3|done|done|exact H2|exact H1|done|done|done|done|done|reflexivity|done|done|by intros _|reflexivity].
Qed.


(** ** The whole program *)

(** The program with its default options. *)
Definition defaults : options :=
  match IndentArgs.set_defaults (globals_zero []) with SRet _ g => opt g | _ => opt_zero end.

(** The text printed by a run that ends normally. *)
Definition run (text : bytes) : option (Z * bytes) :=
  match main (fun _ => []) 300 (start defaults text false) with
  | SExit n _ m => Some (n, output (glob (cs m)))
  | _ => None
  end.

Definition tab : bytes := [9].

Example small_program :
  run (nl "int main(void){int x=1;if(x){x++;}else x--;" ++ nl "return x;}") =
  Some (0, nl "int" ++ nl "main(void)" ++ nl "{" ++ tab ++ bs "int" ++ tab ++ tab ++ nl "x = 1;" ++ tab ++ nl "if (x) {" ++
    tab ++ tab ++ nl "x++;" ++ tab ++ nl "} else" ++ tab ++ tab ++ nl "x--;" ++ tab ++ nl "return x;" ++ nl "}").
Proof. vm_compute. reflexivity. Qed.

(** A comment right after a closing brace at the left margin: the length given to
    memcpy is negative. *)
Example comment_after_brace : run (nl "void f(){if(a){b();" ++ nl "}/* x */" ++ nl "else c();}") = None.
Proof. vm_compute. reflexivity. Qed.

Example comment_after_brace_indented :
  is_Some (run (nl "void f(){if(a){b();" ++ nl "  }/* x */" ++ nl "else c();}")).
Proof. vm_compute. by eexists. Qed.

(** The quotes of a directive are not remembered: a comment starts in its string
    and takes the lines after it. *)
Example comment_in_string :
  run (nl "#define S '/*'" ++ nl "int   a;" ++ nl "int b; /* x */" ++ nl "int   c;") =
  Some (0, bs "#define S '" ++ tab ++ tab ++ tab ++ nl "/* ' int   a; int b; /* x */" ++ bs "int" ++ tab ++ tab ++ nl "c;").
Proof. vm_compute. reflexivity. Qed.

End IndentText.
