(* ===== verification/TiffPrint.v ===== *)
(** * tiffdump: src/mk/compat/libtiff/tiffdump.c, printing

    How the values of a directory entry are written: the tag and type names, the
    escapes of ASCII data, and the printf formats of every data type.  tiff.h is
    not part of the repository: its constants are given by the parameter
    [tiff_h], from the name of a macro or enumerator to its value. *)

From S2P Require Import Prelude.
From stdpp Require Import base list numbers.
From Stdlib Require Import ZArith Lia SpecFloat.
From Stdlib Require String.

Open Scope Z_scope.

Local Delimit Scope string_scope with string.

Module TiffPrint.

(** ** printf *)

(** [%#x] *)
Definition print_hx (n : Z) : bytes := if n =? 0 then [48] else bs "0x" ++ print_base 16 n.

(** [%#0<w>x]: zeros between the prefix and the digits up to width [w]. *)
Definition print_hx0 (w : nat) (n : Z) : bytes :=
  if n =? 0 then replicate w 48
  else
    let ds := print_base 16 n in
    bs "0x" ++ replicate (w - 2 - length ds) 48 ++ ds.

(** [%d] *)
Definition print_d (z : Z) : bytes := if z <? 0 then 45 :: print_base 10 (- z) else print_base 10 z.

(** [%03o] of an unsigned char *)
Definition print_o3 (c : Z) : bytes := [48 + c / 64 mod 8; 48 + c / 8 mod 8; 48 + c mod 8].

(** *** [%g] of a double

    The value is [num / den] exactly.  [x] is the exponent of the decimal
    representation rounded to six significant digits (ties to even); the style
    is decimal when [-4 <= x < 6], and trailing zeros are dropped. *)

(** Rounding a quotient to the nearest integer, ties to even. *)
Definition round_even (a b : Z) : Z :=
  let q := a / b in
  let r := a mod b in
  if 2 * r <? b then q else if b <? 2 * r then q + 1 else if Z.even q then q else q + 1.

(** The largest exponent from [hi] downwards with [10^x <= num / den]; a double
    lies between [10^-324] and [10^309]. *)
Fixpoint dec_exp (n : nat) (hi num den : Z) : Z :=
  match n with
  | O => hi
  | S n =>
      if (if 0 <=? hi then 10 ^ hi * den <=? num else den <=? num * 10 ^ (- hi)) then hi
      else dec_exp n (hi - 1) num den
  end.

Definition six_digits (num den : Z) : Z * Z :=
  let x := dec_exp 700 320 num den in
  let k := 5 - x in
  let r := if 0 <=? k then round_even (num * 10 ^ k) den else round_even num (den * 10 ^ (- k)) in
  if r =? 1000000 then (100000, x + 1) else (r, x).

Definition drop_zeros (ds : bytes) : bytes := reverse (snd (span (fun c => c =? 48) (reverse ds))).

(** Digits with a point after the first [n], without an empty fraction. *)
Definition pointed (n : nat) (ds : bytes) : bytes :=
  let f := drop_zeros (drop n ds) in
  take n ds ++ match f with [] => [] | _ => bs "." ++ f end.

Definition print_exp (x : Z) : bytes :=
  (if x <? 0 then [45] else [43]) ++ (if Z.abs x <? 10 then [48] else []) ++ print_base 10 (Z.abs x).

Definition print_pos (num den : Z) : bytes :=
  let '(r, x) := six_digits num den in
  let ds := print_base 10 r in
  if (-4 <=? x) && (x <? 6) then
    if 0 <=? x then pointed (Z.to_nat (x + 1)) ds
    else pointed 1 (replicate (Z.to_nat (- x)) 48 ++ ds)
  else pointed 1 ds ++ bs "e" ++ print_exp x.

Definition print_g (v : spec_float) : bytes :=
  match v with
  | S754_zero s => (if s then [45] else []) ++ [48]
  | S754_infinity s => (if s then [45] else []) ++ bs "inf"
  | S754_nan => bs "nan"
  | S754_finite s m e =>
      (if s then [45] else []) ++
      (if 0 <=? e then print_pos (Zpos m * 2 ^ e) 1 else print_pos (Zpos m) (2 ^ (- e)))
  end.

(** The number a bit pattern stands for: [mw] bits of fraction, [ew] of exponent. *)
Definition ieee (mw ew z : Z) : spec_float :=
  let s := negb (z / 2 ^ (mw + ew) mod 2 =? 0) in
  let e := z / 2 ^ mw mod 2 ^ ew in
  let m := z mod 2 ^ mw in
  let bias := 2 ^ (ew - 1) - 1 in
  if e =? 2 ^ ew - 1 then if m =? 0 then S754_infinity s else S754_nan
  else if e =? 0 then
    match m with
    | Zpos p => S754_finite s p (1 - bias - mw)
    | _ => S754_zero s
    end
  else
    match m + 2 ^ mw with
    | Zpos p => S754_finite s p (e - bias - mw)
    | _ => S754_nan
    end.

Definition double_of_Z (z : Z) : spec_float := binary_normalize 53 1024 z 0 false.
Definition ddiv (a b : Z) : spec_float := SFdiv 53 1024 (double_of_Z a) (double_of_Z b).

Example print_g_samples :
  map (fun p => print_g (ddiv p.1 p.2)) [(72, 1); (1, 3); (1, 100000); (1234567, 1); (9999995, 10); (-5, 2); (0, 5)] =
  [bs "72"; bs "0.333333"; bs "1e-05"; bs "1.23457e+06"; bs "1e+06"; bs "-2.5"; bs "0"].
Proof. vm_compute. reflexivity. Qed.

(** ** Memory *)

(** The value of the bytes of an object on the (little-endian) host. *)
Definition le (b : bytes) : Z := fold_right (fun c v => c + 256 * v) 0 b.

(** [w] bytes at offset [off] of an object; [None] when they are not inside. *)
Definition load (w off : nat) (mem : bytes) : option bytes :=
  if (off + w <=? length mem)%nat then Some (take w (drop off mem)) else None.

Section Print.
(** tiff.h *)
Context (tiff_h : String.string -> Z).
(** the -h option *)
Context (hex_mode : bool).

(** ** PrintTag, PrintType *)

Definition tagnames : list (Z * bytes) :=
  [(tiff_h "TIFFTAG_SUBFILETYPE"%string, bs "SubFileType");
   (tiff_h "TIFFTAG_OSUBFILETYPE"%string, bs "OldSubFileType");
   (tiff_h "TIFFTAG_IMAGEWIDTH"%string, bs "ImageWidth");
   (tiff_h "TIFFTAG_IMAGELENGTH"%string, bs "ImageLength");
   (tiff_h "TIFFTAG_BITSPERSAMPLE"%string, bs "BitsPerSample");
   (tiff_h "TIFFTAG_COMPRESSION"%string, bs "Compression");
   (tiff_h "TIFFTAG_PHOTOMETRIC"%string, bs "Photometric");
   (tiff_h "TIFFTAG_THRESHHOLDING"%string, bs "Threshholding");
   (tiff_h "TIFFTAG_CELLWIDTH"%string, bs "CellWidth");
   (tiff_h "TIFFTAG_CELLLENGTH"%string, bs "CellLength");
   (tiff_h "TIFFTAG_FILLORDER"%string, bs "FillOrder");
   (tiff_h "TIFFTAG_DOCUMENTNAME"%string, bs "DocumentName");
   (tiff_h "TIFFTAG_IMAGEDESCRIPTION"%string, bs "ImageDescription");
   (tiff_h "TIFFTAG_MAKE"%string, bs "Make");
   (tiff_h "TIFFTAG_MODEL"%string, bs "Model");
   (tiff_h "TIFFTAG_STRIPOFFSETS"%string, bs "StripOffsets");
   (tiff_h "TIFFTAG_ORIENTATION"%string, bs "Orientation");
   (tiff_h "TIFFTAG_SAMPLESPERPIXEL"%string, bs "SamplesPerPixel");
   (tiff_h "TIFFTAG_ROWSPERSTRIP"%string, bs "RowsPerStrip");
   (tiff_h "TIFFTAG_STRIPBYTECOUNTS"%string, bs "StripByteCounts");
   (tiff_h "TIFFTAG_MINSAMPLEVALUE"%string, bs "MinSampleValue");
   (tiff_h "TIFFTAG_MAXSAMPLEVALUE"%string, bs "MaxSampleValue");
   (tiff_h "TIFFTAG_XRESOLUTION"%string, bs "XResolution");
   (tiff_h "TIFFTAG_YRESOLUTION"%string, bs "YResolution");
   (tiff_h "TIFFTAG_PLANARCONFIG"%string, bs "PlanarConfig");
   (tiff_h "TIFFTAG_PAGENAME"%string, bs "PageName");
   (tiff_h "TIFFTAG_XPOSITION"%string, bs "XPosition");
   (tiff_h "TIFFTAG_YPOSITION"%string, bs "YPosition");
   (tiff_h "TIFFTAG_FREEOFFSETS"%string, bs "FreeOffsets");
   (tiff_h "TIFFTAG_FREEBYTECOUNTS"%string, bs "FreeByteCounts");
   (tiff_h "TIFFTAG_GRAYRESPONSEUNIT"%string, bs "GrayResponseUnit");
   (tiff_h "TIFFTAG_GRAYRESPONSECURVE"%string, bs "GrayResponseCurve");
   (tiff_h "TIFFTAG_GROUP3OPTIONS"%string, bs "Group3Options");
   (tiff_h "TIFFTAG_GROUP4OPTIONS"%string, bs "Group4Options");
   (tiff_h "TIFFTAG_RESOLUTIONUNIT"%string, bs "ResolutionUnit");
   (tiff_h "TIFFTAG_PAGENUMBER"%string, bs "PageNumber");
   (tiff_h "TIFFTAG_COLORRESPONSEUNIT"%string, bs "ColorResponseUnit");
   (tiff_h "TIFFTAG_TRANSFERFUNCTION"%string, bs "TransferFunction");
   (tiff_h "TIFFTAG_SOFTWARE"%string, bs "Software");
   (tiff_h "TIFFTAG_DATETIME"%string, bs "DateTime");
   (tiff_h "TIFFTAG_ARTIST"%string, bs "Artist");
   (tiff_h "TIFFTAG_HOSTCOMPUTER"%string, bs "HostComputer");
   (tiff_h "TIFFTAG_PREDICTOR"%string, bs "Predictor");
   (tiff_h "TIFFTAG_WHITEPOINT"%string, bs "Whitepoint");
   (tiff_h "TIFFTAG_PRIMARYCHROMATICITIES"%string, bs "PrimaryChromaticities");
   (tiff_h "TIFFTAG_COLORMAP"%string, bs "Colormap");
   (tiff_h "TIFFTAG_HALFTONEHINTS"%string, bs "HalftoneHints");
   (tiff_h "TIFFTAG_TILEWIDTH"%string, bs "TileWidth");
   (tiff_h "TIFFTAG_TILELENGTH"%string, bs "TileLength");
   (tiff_h "TIFFTAG_TILEOFFSETS"%string, bs "TileOffsets");
   (tiff_h "TIFFTAG_TILEBYTECOUNTS"%string, bs "TileByteCounts");
   (tiff_h "TIFFTAG_BADFAXLINES"%string, bs "BadFaxLines");
   (tiff_h "TIFFTAG_CLEANFAXDATA"%string, bs "CleanFaxData");
   (tiff_h "TIFFTAG_CONSECUTIVEBADFAXLINES"%string, bs "ConsecutiveBadFaxLines");
   (tiff_h "TIFFTAG_SUBIFD"%string, bs "SubIFD");
   (tiff_h "TIFFTAG_INKSET"%string, bs "InkSet");
   (tiff_h "TIFFTAG_INKNAMES"%string, bs "InkNames");
   (tiff_h "TIFFTAG_NUMBEROFINKS"%string, bs "NumberOfInks");
   (tiff_h "TIFFTAG_DOTRANGE"%string, bs "DotRange");
   (tiff_h "TIFFTAG_TARGETPRINTER"%string, bs "TargetPrinter");
   (tiff_h "TIFFTAG_EXTRASAMPLES"%string, bs "ExtraSamples");
   (tiff_h "TIFFTAG_SAMPLEFORMAT"%string, bs "SampleFormat");
   (tiff_h "TIFFTAG_SMINSAMPLEVALUE"%string, bs "SMinSampleValue");
   (tiff_h "TIFFTAG_SMAXSAMPLEVALUE"%string, bs "SMaxSampleValue");
   (tiff_h "TIFFTAG_JPEGPROC"%string, bs "JPEGProcessingMode");
   (tiff_h "TIFFTAG_JPEGIFOFFSET"%string, bs "JPEGInterchangeFormat");
   (tiff_h "TIFFTAG_JPEGIFBYTECOUNT"%string, bs "JPEGInterchangeFormatLength");
   (tiff_h "TIFFTAG_JPEGRESTARTINTERVAL"%string, bs "JPEGRestartInterval");
   (tiff_h "TIFFTAG_JPEGLOSSLESSPREDICTORS"%string, bs "JPEGLosslessPredictors");
   (tiff_h "TIFFTAG_JPEGPOINTTRANSFORM"%string, bs "JPEGPointTransform");
   (tiff_h "TIFFTAG_JPEGTABLES"%string, bs "JPEGTables");
   (tiff_h "TIFFTAG_JPEGQTABLES"%string, bs "JPEGQTables");
   (tiff_h "TIFFTAG_JPEGDCTABLES"%string, bs "JPEGDCTables");
   (tiff_h "TIFFTAG_JPEGACTABLES"%string, bs "JPEGACTables");
   (tiff_h "TIFFTAG_YCBCRCOEFFICIENTS"%string, bs "YCbCrCoefficients");
   (tiff_h "TIFFTAG_YCBCRSUBSAMPLING"%string, bs "YCbCrSubsampling");
   (tiff_h "TIFFTAG_YCBCRPOSITIONING"%string, bs "YCbCrPositioning");
   (tiff_h "TIFFTAG_REFERENCEBLACKWHITE"%string, bs "ReferenceBlackWhite");
   (tiff_h "TIFFTAG_REFPTS"%string, bs "IgReferencePoints (Island Graphics)");
   (tiff_h "TIFFTAG_REGIONTACKPOINT"%string, bs "IgRegionTackPoint (Island Graphics)");
   (tiff_h "TIFFTAG_REGIONWARPCORNERS"%string, bs "IgRegionWarpCorners (Island Graphics)");
   (tiff_h "TIFFTAG_REGIONAFFINE"%string, bs "IgRegionAffine (Island Graphics)");
   (tiff_h "TIFFTAG_MATTEING"%string, bs "OBSOLETE Matteing (Silicon Graphics)");
   (tiff_h "TIFFTAG_DATATYPE"%string, bs "OBSOLETE DataType (Silicon Graphics)");
   (tiff_h "TIFFTAG_IMAGEDEPTH"%string, bs "ImageDepth (Silicon Graphics)");
   (tiff_h "TIFFTAG_TILEDEPTH"%string, bs "TileDepth (Silicon Graphics)");
   (32768, bs "OLD BOGUS Matteing tag");
   (tiff_h "TIFFTAG_COPYRIGHT"%string, bs "Copyright");
   (tiff_h "TIFFTAG_ICCPROFILE"%string, bs "ICC Profile");
   (tiff_h "TIFFTAG_JBIGOPTIONS"%string, bs "JBIG Options");
   (tiff_h "TIFFTAG_STONITS"%string, bs "StoNits");
   (tiff_h "TIFFTAG_GDAL_METADATA"%string, bs "GDALMetadata");
   (tiff_h "TIFFTAG_GDAL_NODATA"%string, bs "GDALNoDataValue")].

Fixpoint find_tag (t : list (Z * bytes)) (tag : Z) : option bytes :=
  match t with
  | [] => None
  | (n, name) :: t => if n =? tag then Some name else find_tag t tag
  end.

Definition PrintTag (tag : Z) : bytes :=
  match find_tag tagnames tag with
  | Some name => name ++ bs " (" ++ print_base 10 tag ++ bs ")"
  | None => print_base 10 tag ++ bs " (" ++ print_hx tag ++ bs ")"
  end.

Definition typenames : list bytes :=
  [bs "0"; bs "BYTE"; bs "ASCII"; bs "SHORT"; bs "LONG";
   bs "RATIONAL"; bs "SBYTE"; bs "UNDEFINED"; bs "SSHORT"; bs "SLONG";
   bs "SRATIONAL"; bs "FLOAT"; bs "DOUBLE"; bs "IFD"; bs "14";
   bs "15"; bs "LONG8"; bs "SLONG8"; bs "IFD8"].

Definition PrintType (type : Z) : bytes :=
  match aget typenames type with
  | Some name => name ++ bs " (" ++ print_base 10 type ++ bs ")"
  | None => print_base 10 type ++ bs " (" ++ print_hx type ++ bs ")"
  end.

(** ** PrintASCII *)

(** The letter of an escape: [tp] steps through pairs of a character and its letter. *)
Fixpoint escape (tp : bytes) (c : Z) : option Z :=
  match tp with
  | x :: l :: tp => if x =? c then Some l else escape tp c
  | _ => None
  end.

Definition escapes : bytes := [9; 116; 8; 98; 13; 114; 10; 110; 11; 118].

Definition print_char (c : Z) : bytes :=
  if isprint c then [c]
  else match escape escapes c with
       | Some l => [92; l]
       | None => if negb (c =? 0) then 92 :: print_o3 c else [92; 48]
       end.

Fixpoint PrintASCII (cc : nat) (cp : bytes) : option bytes :=
  match cc with
  | O => Some []
  | S cc =>
      match cp with
      | [] => None
      | c :: cp => match PrintASCII cc cp with
                   | Some o => Some (print_char c ++ o)
                   | None => None
                   end
      end
  end.

(** ** PrintData *)

(** [count] objects of [w] bytes, each written by [fmt] after [sep]. *)
Fixpoint print_seq (w : nat) (fmt : bytes -> bytes) (sep : bytes) (count : nat) (data : bytes) : option bytes :=
  match count with
  | O => Some []
  | S count =>
      match load w 0 data with
      | None => None
      | Some b => match print_seq w fmt (bs " ") count (drop w data) with
                  | Some o => Some (sep ++ fmt b ++ o)
                  | None => None
                  end
      end
  end.

Definition fmt_rational (signed : bool) (b : bytes) : bytes :=
  let cv := if signed then sint 32 else fun z => z in
  let n := cv (le (take 4 b)) in
  let d := cv (le (drop 4 b)) in
  if d =? 0 then bs "Nan (" ++ print_d n ++ bs "/" ++ print_d d ++ bs ")" else print_g (ddiv n d).

Definition PrintData (type : Z) (count : nat) (data : bytes) : option bytes :=
  let seq w fmt := print_seq w fmt [] count data in
  if type =? tiff_h "TIFF_BYTE"%string then seq 1%nat (fun b => print_hx0 2 (le b))
  else if type =? tiff_h "TIFF_SBYTE"%string then seq 1%nat (fun b => print_d (sint 8 (le b)))
  else if type =? tiff_h "TIFF_UNDEFINED"%string then seq 1%nat (fun b => print_hx0 2 (le b))
  else if type =? tiff_h "TIFF_ASCII"%string then PrintASCII count data
  else if type =? tiff_h "TIFF_SHORT"%string then
    seq 2%nat (fun b => if hex_mode then print_hx (le b) else print_d (le b))
  else if type =? tiff_h "TIFF_SSHORT"%string then
    seq 2%nat (fun b => if hex_mode then print_hx (le b) else print_d (sint 16 (le b)))
  else if type =? tiff_h "TIFF_LONG"%string then
    seq 4%nat (fun b => if hex_mode then print_hx (le b) else print_d (le b))
  else if type =? tiff_h "TIFF_SLONG"%string then
    seq 4%nat (fun b => if hex_mode then print_hx (le b) else print_d (sint 32 (le b)))
  else if type =? tiff_h "TIFF_LONG8"%string then seq 8%nat (fun b => print_d (le b))
  else if type =? tiff_h "TIFF_SLONG8"%string then seq 8%nat (fun b => print_d (sint 64 (le b)))
  else if type =? tiff_h "TIFF_RATIONAL"%string then seq 8%nat (fmt_rational false)
  else if type =? tiff_h "TIFF_SRATIONAL"%string then seq 8%nat (fmt_rational true)
  else if type =? tiff_h "TIFF_FLOAT"%string then seq 4%nat (fun b => print_g (ieee 23 8 (le b)))
  else if type =? tiff_h "TIFF_DOUBLE"%string then seq 8%nat (fun b => print_g (ieee 52 11 (le b)))
  else if type =? tiff_h "TIFF_IFD"%string then seq 4%nat (fun b => print_hx0 4 (le b))
  else if type =? tiff_h "TIFF_IFD8"%string then seq 8%nat (fun b => print_hx0 8 (le b))
  else Some [].

End Print.

End TiffPrint.
