(* ===== verification/TiffDump.v ===== *)
(** * tiffdump: src/mk/compat/libtiff/tiffdump.c, reading

    The header, the chain of directories with its cycle check, the entries of a
    directory, and main.  A file is its bytes and a position; libtiff's swapping
    routines, the allocator and the acceptance of an offset by lseek(2) are
    parameters; the host is little-endian.  Memory is accessed through checked
    loads, so an access outside a block is the outcome [DUndef]. *)

From S2P Require Import Prelude TiffPrint.
From stdpp Require Import base list numbers.
From Stdlib Require Import ZArith Lia.
From Stdlib Require String.

Open Scope Z_scope.
Local Delimit Scope string_scope with string.

Module TiffDump.

Import TiffPrint.

(** ** Effects *)

(** The file position, standard output and standard error. *)
Record dst := Dst { pos : Z; out : bytes; errs : bytes }.

Inductive dres (A : Type) :=
| DRet (a : A) (s : dst)
| DExit (code : Z) (s : dst)
| DUndef.
Arguments DRet {A} a s.
Arguments DExit {A} code s.
Arguments DUndef {A}.

Definition D (A : Type) : Type := dst -> dres A.

Definition dret {A} (a : A) : D A := fun s => DRet a s.
Definition dbind {A B} (m : D A) (f : A -> D B) : D B :=
  fun s => match m s with
           | DRet a s => f a s
           | DExit c s => DExit c s
           | DUndef => DUndef
           end.
Definition dundef {A} : D A := fun _ => DUndef.
Definition dexit {A} (c : Z) : D A := fun s => DExit c s.
Definition printf (b : bytes) : D () := fun s => DRet tt (Dst (pos s) (out s ++ b) (errs s)).
Definition eprintf (b : bytes) : D () := fun s => DRet tt (Dst (pos s) (out s) (errs s ++ b)).
Definition dof {A} (o : option A) : D A := match o with Some a => dret a | None => dundef end.

Declare Scope tiff_scope.
Notation "'let?' x ':=' m 'in' k" := (dbind m (fun x => k))
  (at level 10, x pattern, m at level 200, k at level 200) : tiff_scope.
Notation "m ;; k" := (dbind m (fun _ => k))
  (at level 100, k at level 200, right associativity) : tiff_scope.
Local Open Scope tiff_scope.

(** ** TIFFSafeMultiply

    The macro with [t] = tmsize_t (64 bits, signed) on unsigned 64-bit operands,
    its result stored in an unsigned variable. *)
Definition TIFFSafeMultiply (v m : Z) : Z :=
  if negb (sint 64 m =? 0) && (sint 64 (u64 (v * m) / m) =? sint 64 v) then u64 (sint 64 (u64 (v * m))) else 0.

Definition datawidth : list Z := [0; 1; 1; 2; 4; 8; 1; 1; 2; 4; 8; 4; 8; 4; 0; 0; 8; 8; 8].
Definition NWIDTHS : Z := Z.of_nat (length datawidth).

(** What the header and the options settle before a directory is read. *)
Record env := Env { swabflag : bool; bigtiff : bool; hex_mode : bool; maxitems : Z }.

Section Dump.
(** tiff.h; [TIFFSwabShort], [TIFFSwabLong], [TIFFSwabLong8] on the bytes of an
    object of 2, 4, 8 bytes; [TIFFSwabArrayOf*] on [n] such objects;
    [_TIFFmalloc] of a size; lseek(2) of a non-negative offset. *)
Context (tiff_h : String.string -> Z).
Context (swab : nat -> bytes -> bytes) (swab_array : nat -> nat -> bytes -> bytes).
Context (malloc_ok : Z -> bool) (seek_ok : Z -> bool).
(** The file and its name. *)
Context (file : bytes) (curfile : bytes).

(** ** Errors *)

Definition Error (msg : bytes) : D () := eprintf (curfile ++ bs ": " ++ msg ++ bs "." ++ [10]).
Definition Fatal {A} (msg : bytes) : D A := Error msg ;; dexit 1.
Definition ReadError {A} (what : bytes) : D A := Fatal (bs "Error while reading " ++ what).

(** ** File access *)

(** lseek to [(off_t)off]: whether the result equals it.  A refused offset leaves
    the position and returns -1. *)
Definition lseek (off : Z) : D bool :=
  fun s =>
    let o := sint 64 off in
    if (0 <=? o) && seek_ok o then DRet true (Dst o (out s) (errs s)) else DRet (o =? -1) s.

(** read(2) of [n] bytes: what is left of the file, at most [n]. *)
Definition read (n : Z) : D bytes :=
  fun s =>
    let b := take (Z.to_nat n) (drop (Z.to_nat (pos s)) file) in
    DRet b (Dst (pos s + Z.of_nat (length b)) (out s) (errs s)).

(** An object of [w] bytes in file order. *)
Definition scalar (e : env) (w : nat) (b : bytes) : Z := le (if swabflag e then swab w b else b).

(** ** Directory entries *)

(** The size of an entry's data and how much of it is printed. *)
Record extent := Extent { x_count : Z; x_size : Z; x_fits : bool; x_trunc : bool }.

Definition data_extent (e : env) (typewidth count : Z) : extent :=
  let datasize := TIFFSafeMultiply count typewidth in
  let overflow := (0 <? typewidth) && negb (datasize / typewidth =? count) in
  let fits := negb (overflow || ((if bigtiff e then 8 else 4) <? datasize)) in
  let '(count, datasize, trunc) :=
    if overflow || (65536 <? datasize)
    then let c := 65536 / typewidth in (c, TIFFSafeMultiply c typewidth, true)
    else (count, datasize, false) in
  let '(count, datasize, trunc) :=
    if maxitems e <? count
    then (maxitems e, TIFFSafeMultiply (maxitems e) typewidth, true)
    else (count, datasize, trunc) in
  Extent count datasize fits trunc.

(** The data of an entry that does not fit in it; [None] after an error. *)
Definition fetch_data (tag dataoffset datasize : Z) : D (option bytes) :=
  if malloc_ok datasize then
    let? ok := lseek dataoffset in
    if negb ok then
      Error (bs "Seek error accessing tag " ++ print_base 10 tag ++ bs " value") ;; dret None
    else
      let? b := read datasize in
      if negb (Z.of_nat (length b) =? datasize) then
        Error (bs "Read error accessing tag " ++ print_base 10 tag ++ bs " value") ;; dret None
      else dret (Some b)
  else
    Error (bs "No space for data for tag " ++ print_base 10 tag) ;; dret None.

(** [swab_array] on memory: the objects must be inside the block. *)
Definition swab_block (w n : nat) (b : bytes) : option bytes :=
  if (w * n <=? length b)%nat then Some (swab_array w n b) else None.

Definition swab_data (type : Z) (count : nat) (b : bytes) : option bytes :=
  let ty n := type =? tiff_h n in
  if ty "TIFF_BYTE"%string || ty "TIFF_ASCII"%string || ty "TIFF_SBYTE"%string || ty "TIFF_UNDEFINED"%string
  then Some b
  else if ty "TIFF_SHORT"%string || ty "TIFF_SSHORT"%string then swab_block 2 count b
  else if ty "TIFF_LONG"%string || ty "TIFF_SLONG"%string || ty "TIFF_FLOAT"%string || ty "TIFF_IFD"%string
  then swab_block 4 count b
  else if ty "TIFF_RATIONAL"%string || ty "TIFF_SRATIONAL"%string then swab_block 4 (count * 2) b
  else if ty "TIFF_DOUBLE"%string || ty "TIFF_LONG8"%string || ty "TIFF_SLONG8"%string || ty "TIFF_IFD8"%string
  then swab_block 8 count b
  else Some b.

Definition type_width (type : Z) : option Z := if NWIDTHS <=? type then Some 0 else aget datawidth type.

(** One round of the loop over the entries: the entry at offset [dp] of the
    directory. *)
Definition dump_entry (e : env) (dirmem : bytes) (dp : nat) : D () :=
  let off_w := if bigtiff e then 8%nat else 4%nat in
  let? b := dof (load 2 dp dirmem) in
  let tag := scalar e 2 b in
  let? b := dof (load 2 (dp + 2) dirmem) in
  let type := scalar e 2 b in
  printf (PrintTag tiff_h tag) ;; printf (bs " ") ;; printf (PrintType type) ;; printf (bs " ") ;;
  let? b := dof (load off_w (dp + 4) dirmem) in
  let count := scalar e off_w b in
  printf (print_base 10 count ++ bs "<") ;;
  let? typewidth := dof (type_width type) in
  let x := data_extent e typewidth count in
  let dp := (dp + 4 + off_w)%nat in
  let? datamem :=
    if x_fits x then dret (Some (drop dp dirmem))
    else
      let? b := dof (load off_w dp dirmem) in
      fetch_data tag (scalar e off_w b) (x_size x) in
  (match datamem with
   | None => dret tt
   | Some m =>
       let n := Z.to_nat (u32 (x_count x)) in
       let? m := if swabflag e then dof (swab_data type (Z.to_nat (x_count x)) m) else dret m in
       let? o := dof (PrintData tiff_h (hex_mode e) type n m) in
       printf o ;;
       (if x_trunc x then printf (bs " ...") else dret tt)
   end) ;;
  printf (bs ">" ++ [10]).

Fixpoint dump_entries (n : nat) (e : env) (dirmem : bytes) (dp : nat) : D () :=
  match n with
  | O => dret tt
  | S n => dump_entry e dirmem dp ;; dump_entries n e dirmem (dp + if bigtiff e then 20 else 12)%nat
  end.

(** ** ReadDirectory *)

(** The number of entries; [None] when the sanity check fails. *)
Definition read_dircount (e : env) : D (option Z) :=
  let w := if bigtiff e then 8%nat else 2%nat in
  let? b := read (Z.of_nat w) in
  if negb (length b =? w)%nat then ReadError (bs "directory count")
  else
    let n := scalar e w b in
    if bigtiff e && (65535 <? n) then
      Error (bs "Sanity check on directory count failed") ;; dret None
    else dret (Some n).

(** The offset of the next directory, zero when the file ends before it. *)
Definition read_next (e : env) : D Z :=
  let w := if bigtiff e then 8%nat else 4%nat in
  let? b := read (Z.of_nat w) in
  dret (scalar e w (if (length b =? w)%nat then b else replicate w 0)).

Definition ReadDirectory (e : env) (ix off : Z) : D Z :=
  if off =? 0 then dret 0
  else
    let? ok := lseek off in
    if negb ok then Fatal (bs "Seek error accessing TIFF directory")
    else
      let? c := read_dircount e in
      match c with
      | None => dret 0
      | Some dircount =>
          let direntrysize := if bigtiff e then 20 else 12 in
          if negb (malloc_ok (TIFFSafeMultiply dircount direntrysize)) then Fatal (bs "No space for TIFF directory")
          else
            let? dirmem := read (dircount * direntrysize) in
            let? r :=
              (if negb (Z.of_nat (length dirmem) =? dircount * direntrysize) then
                 let n := Z.of_nat (length dirmem) / direntrysize in
                 Error (bs "Could only read " ++ print_base 10 n ++ bs " of " ++ print_base 10 dircount ++
                        bs " entries in directory at offset " ++ print_base 10 off) ;;
                 dret (u16 n, 0)
               else let? nextdiroff := read_next e in dret (dircount, nextdiroff)) in
            let '(dircount, nextdiroff) := r in
            printf (bs "Directory " ++ print_base 10 ix ++ bs ": offset " ++ print_base 10 off ++
                    bs " (" ++ print_hx off ++ bs ") next " ++ print_base 10 nextdiroff ++
                    bs " (" ++ print_hx nextdiroff ++ bs ")" ++ [10]) ;;
            dump_entries (Z.to_nat dircount) e dirmem 0 ;;
            dret nextdiroff
      end.

(** ** dump *)

(** The chain of directories; [visited] holds the offsets already seen. *)
Fixpoint dump_chain (fuel : nat) (e : env) (i : Z) (visited : list Z) (diroff : Z) : D () :=
  if diroff =? 0 then dret tt
  else
    match fuel with
    | O => dundef
    | S fuel =>
        if existsb (Z.eqb diroff) visited then Fatal (bs "Cycle detected in chaining of TIFF directories!")
        else
          let alloc_size := TIFFSafeMultiply (u32 (Z.of_nat (length visited) + 1)) 8 in
          if (alloc_size =? 0) || negb (malloc_ok alloc_size) then Fatal (bs "Out of memory")
          else
            (if 0 <? i then printf [10] else dret tt) ;;
            let? next := ReadDirectory e i diroff in
            dump_chain fuel e (u32 (i + 1)) (visited ++ [diroff]) next
    end.

(** The magic line. *)
Definition print_magic (magic version : Z) (name : bytes) : D () :=
  printf (bs "Magic: " ++ print_hx magic ++ bs " <" ++
          (if magic =? tiff_h "TIFF_BIGENDIAN"%string then bs "big" else bs "little") ++
          bs "-endian> Version: " ++ print_hx version ++ bs " <" ++ name ++ bs ">" ++ [10]).

Definition read_header (hex : bool) (items : Z) (diroff : Z) : D (env * Z) :=
  let? _ := (fun s => DRet tt (Dst 0 (out s) (errs s))) in
  let? common := read 4 in
  if negb (length common =? 4)%nat then ReadError (bs "TIFF header")
  else
    let magic := le (take 2 common) in
    if negb (magic =? tiff_h "TIFF_BIGENDIAN"%string) && negb (magic =? tiff_h "TIFF_LITTLEENDIAN"%string) &&
       negb (magic =? tiff_h "MDI_LITTLEENDIAN"%string) then
      Fatal (bs "Not a TIFF or MDI file, bad magic number " ++ print_base 10 magic ++ bs " (" ++ print_hx magic ++ bs ")")
    else
      let sw := (magic =? tiff_h "TIFF_BIGENDIAN"%string) || (magic =? tiff_h "MDI_BIGENDIAN"%string) in
      let e := Env sw false hex items in
      let version := scalar e 2 (drop 2 common) in
      if version =? 42 then
        let? b := read 4 in
        if negb (length b =? 4)%nat then ReadError (bs "TIFF header")
        else
          print_magic magic 42 (bs "ClassicTIFF") ;;
          dret (e, if diroff =? 0 then scalar e 4 b else diroff)
      else if version =? 43 then
        let? b := read 12 in
        if negb (length b =? 12)%nat then ReadError (bs "TIFF header")
        else
          print_magic magic 43 (bs "BigTIFF") ;;
          printf (bs "OffsetSize: " ++ print_hx (scalar e 2 (take 2 b)) ++
                  bs " Unused: " ++ print_hx (scalar e 2 (take 2 (drop 2 b))) ++ [10]) ;;
          dret (Env sw true hex items, if diroff =? 0 then scalar e 8 (drop 4 b) else diroff)
      else
        Fatal (bs "Not a TIFF file, bad version number " ++ print_base 10 version ++ bs " (" ++ print_hx version ++ bs ")").

Definition dump (fuel : nat) (hex : bool) (items : Z) (diroff : Z) : D () :=
  let? r := read_header hex items diroff in
  let '(e, diroff) := r in
  dump_chain fuel e 0 [] diroff.
End Dump.

(** ** main *)

(** strtoul(3) with base 0. *)
Definition strtoul0 (s : bytes) : Z :=
  let t := snd (span isspace s) in
  let t := if (hd0 t =? 45) || (hd0 t =? 43) then tail t else t in
  let base := match t with
              | c :: x :: d :: _ =>
                  if (c =? 48) && ((x =? 120) || (x =? 88)) && is_base_digit 16 d then 16
                  else if c =? 48 then 8 else 10
              | c :: _ => if c =? 48 then 8 else 10
              | [] => 10
              end in
  (strtoul base s).1.1.

(** hex_mode, maxitems and diroff, as the options set them. *)
Record opts := Opts { o_hex : bool; o_max : Z; o_off : Z }.

Section Main.
Context (tiff_h : String.string -> Z).
Context (swab : nat -> bytes -> bytes) (swab_array : nat -> nat -> bytes -> bytes).
Context (malloc_ok : Z -> bool) (seek_ok : Z -> bool).
(** open(2) of a name: the contents; [argv[0]] and what perror(3) prints after it. *)
Context (open : bytes -> option bytes) (appname errstr : bytes).

Definition usage {A} : D A :=
  eprintf ([10] ++ bs "Display directory information from TIFF files" ++ [10; 10]) ;;
  eprintf (bs "usage: " ++ appname ++ bs " [-h] [-o offset] [-m maxitems] file.tif ..." ++ [10]) ;;
  dexit 1.

(** The letters and arguments getopt(3) returns. *)
Fixpoint do_options (o : opts) (l : list (Z * bytes)) : D opts :=
  match l with
  | [] => dret o
  | (c, optarg) :: l =>
      if c =? 104 then do_options (Opts true (o_max o) (o_off o)) l
      else if c =? 111 then do_options (Opts (o_hex o) (o_max o) (strtoul0 optarg)) l
      else if c =? 109 then do_options (Opts (o_hex o) (u32 (strtoul0 optarg)) (o_off o)) l
      else usage
  end.

Fixpoint dump_files (multiplefiles : bool) (o : opts) (files : list bytes) : D () :=
  match files with
  | [] => dret tt
  | f :: files =>
      match open f with
      | None => eprintf (appname ++ bs ": " ++ errstr ++ [10]) ;; dexit 1
      | Some file =>
          (if multiplefiles then printf (f ++ bs ":" ++ [10]) else dret tt) ;;
          dump tiff_h swab swab_array malloc_ok seek_ok file f (length file + 2) (o_hex o) (o_max o) (o_off o) ;;
          dump_files multiplefiles o files
      end
  end.

Definition main (argc : Z) (l : list (Z * bytes)) (files : list bytes) : D Z :=
  let? o := do_options (Opts false 24 0) l in
  match files with
  | [] => usage
  | _ => dump_files (1 <? argc) o files ;; dret 0
  end.
End Main.

(** * Proofs *)

(** ** The effect monad *)

(** [m] is free of undefined behaviour, returns in [Q] or exits with status 1. *)
Definition ok {A} (m : D A) (Q : A -> dst -> Prop) (s : dst) : Prop :=
  match m s with
  | DRet a s' => Q a s'
  | DExit c _ => c = 1
  | DUndef => False
  end.

Lemma ok_bind {A B} (m : D A) (f : A -> D B) Q s :
  ok m (fun a s' => ok (f a) Q s') s -> ok (dbind m f) Q s.
Proof. unfold ok, dbind. by destruct (m s). Qed.

Lemma ok_mono {A} (m : D A) (Q Q' : A -> dst -> Prop) s :
  ok m Q s -> (forall a s', Q a s' -> Q' a s') -> ok m Q' s.
Proof. unfold ok. destruct (m s); auto. Qed.

Lemma ok_dof {A} (o : option A) a (Q : A -> dst -> Prop) s : o = Some a -> Q a s -> ok (dof o) Q s.
Proof. by intros ->. Qed.

Lemma ok_ret {A} (a : A) (Q : A -> dst -> Prop) s : Q a s -> ok (dret a) Q s.
Proof. done. Qed.

Lemma ok_printf b (Q : () -> dst -> Prop) s : Q tt (Dst (pos s) (out s ++ b) (errs s)) -> ok (printf b) Q s.
Proof. done. Qed.

Lemma ok_eprintf b (Q : () -> dst -> Prop) s : Q tt (Dst (pos s) (out s) (errs s ++ b)) -> ok (eprintf b) Q s.
Proof. done. Qed.

Lemma ok_exit {A} (Q : A -> dst -> Prop) s : ok (dexit 1) Q s.
Proof. done. Qed.

Ltac ok_step :=
  lazymatch goal with
  | |- ok (dbind _ _) _ _ => apply ok_bind
  | |- ok (dret _) _ _ => apply ok_ret
  | |- ok (printf _) _ _ => apply ok_printf
  | |- ok (eprintf _) _ _ => apply ok_eprintf
  | |- ok (dexit _) _ _ => apply ok_exit
  | |- ok (Error _ _) _ _ => unfold Error
  | |- ok (Fatal _ _) _ _ => unfold Fatal
  | |- ok (ReadError _ _) _ _ => unfold ReadError
  end; cbv beta iota.
Ltac ok_steps := repeat ok_step.

(** ** Machine arithmetic *)

Definition word (w : nat) (z : Z) : Prop := 0 <= z < 2 ^ (8 * Z.of_nat w).

Lemma sint64_inj a b : word 8 a -> word 8 b -> (sint 64 a =? sint 64 b) = (a =? b).
Proof.
  unfold word. intros Ha Hb. change (2 ^ (8 * Z.of_nat 8)) with (2 ^ 64) in *.
  unfold sint. rewrite !Z.mod_small by lia. repeat case_if; bsimp; lia.
Qed.

Lemma u64_sint z : word 8 z -> u64 (sint 64 z) = z.
Proof.
  unfold word, u64, sint. intros Hz. change (2 ^ (8 * Z.of_nat 8)) with (2 ^ 64) in *.
  rewrite (Z.mod_small z) by lia. case_if; bsimp; [rewrite Z.mod_small; lia|].
  replace (z - 2 ^ 64) with (z + -1 * 2 ^ 64) by lia. rewrite Z.mod_add, Z.mod_small; lia.
Qed.

(** The macro is the product, or zero when the product does not fit 64 bits. *)
Lemma TIFFSafeMultiply_spec v m :
  word 8 v -> word 8 m ->
  TIFFSafeMultiply v m = if v * m <? 2 ^ 64 then v * m else 0.
Proof.
  intros Hv Hm. assert (Hv' := Hv). assert (Hm' := Hm).
  unfold word in Hv', Hm'. change (2 ^ (8 * Z.of_nat 8)) with (2 ^ 64) in *.
  unfold TIFFSafeMultiply.
  change (sint 64 m =? 0) with (sint 64 m =? sint 64 0). rewrite sint64_inj by (unfold word in *; lia).
  destruct (Z.eqb_spec m 0) as [->|Hm0]; cbn [negb andb]; [rewrite Z.mul_0_r; by case_if|].
  assert (Hw : word 8 (u64 (v * m))).
  { unfold word, u64. change (2 ^ (8 * Z.of_nat 8)) with (2 ^ 64). apply Z.mod_pos_bound. lia. }
  assert (Hq : word 8 (u64 (v * m) / m)).
  { unfold word in Hw |- *. change (2 ^ (8 * Z.of_nat 8)) with (2 ^ 64) in *.
    split; [apply Z.div_pos; lia|]. apply Z.div_lt_upper_bound; nia. }
  rewrite sint64_inj, u64_sint by done. unfold u64 in *.
  destruct (Z.ltb_spec (v * m) (2 ^ 64)) as [Hl|Hl].
  - rewrite Z.mod_small by nia. rewrite Z.div_mul by done. by rewrite Z.eqb_refl.
  - destruct (Z.eqb_spec ((v * m) mod 2 ^ 64 / m) v) as [E|]; [|done]. exfalso.
    assert (Hr : (v * m) mod 2 ^ 64 <= v * m - 2 ^ 64).
    { rewrite (Z.div_mod (v * m) (2 ^ 64)) at 2 by lia.
      assert (1 <= v * m / 2 ^ 64) by (apply Z.div_le_lower_bound; lia). lia. }
    assert ((v * m) mod 2 ^ 64 / m < v); [|lia]. apply Z.div_lt_upper_bound; lia.
Qed.

(** ** The extent of an entry's data *)

Definition width (w : Z) : Prop := w = 0 \/ w = 1 \/ w = 2 \/ w = 4 \/ w = 8.

Lemma width_word w : width w -> word 8 w.
Proof. unfold width, word. lia. Qed.

Definition slot (e : env) : Z := if bigtiff e then 8 else 4.

(** Data that needs no more than 64 KiB is described as it is, up to the limit on
    the number of items. *)
Lemma data_extent_small e w count :
  width w -> word 8 count -> 0 <= maxitems e < 2 ^ 32 -> count * w <= 65536 ->
  data_extent e w count =
  Extent (Z.min count (maxitems e)) (Z.min count (maxitems e) * w) (count * w <=? slot e) (maxitems e <? count).
Proof.
  intros Hw Hc Hm Hs. pose proof (width_word w Hw) as Hw8.
  assert (Hm8 : word 8 (maxitems e)) by (unfold word; lia).
  assert (Hw0 : 0 <= w <= 8) by (unfold width in Hw; lia). assert (Hc' := Hc). unfold word in Hc'.
  assert (Emax : TIFFSafeMultiply (maxitems e) w = maxitems e * w).
  { rewrite TIFFSafeMultiply_spec by done. by replace (maxitems e * w <? 2 ^ 64) with true by nia. }
  unfold data_extent. rewrite (TIFFSafeMultiply_spec count) by done.
  replace (count * w <? 2 ^ 64) with true by lia.
  assert (Eo : (0 <? w) && negb (count * w / w =? count) = false).
  { destruct (Z.ltb_spec 0 w); [|done]. rewrite Z.div_mul by lia. by rewrite Z.eqb_refl. }
  rewrite Eo. cbn [orb]. replace (65536 <? count * w) with false by lia.
  rewrite <- Z.leb_antisym. unfold slot.
  destruct (Z.ltb_spec (maxitems e) count); [rewrite Emax, Z.min_r by lia|rewrite Z.min_l by lia]; done.
Qed.

(** In every case the sizes agree, nothing exceeds 64 KiB, and data taken from the
    entry itself fits in its last field. *)
Lemma data_extent_ok e w count :
  width w -> word 8 count -> 0 <= maxitems e < 2 ^ 32 ->
  let x := data_extent e w count in
  0 <= x_count x < 2 ^ 32 /\ x_size x = x_count x * w /\ 0 <= x_size x <= 65536 /\
  (x_fits x = true -> x_size x <= slot e).
Proof.
  intros Hw Hc Hm. pose proof (width_word w Hw) as Hw8. cbv zeta.
  assert (Hw0 : 0 <= w <= 8) by (unfold width in Hw; lia). assert (Hc' := Hc). unfold word in Hc'.
  destruct (Z_le_gt_dec (count * w) 65536) as [Hs|Hs].
  { rewrite data_extent_small by done. cbn [x_count x_size x_fits]. split; [lia|]. split; [done|].
    split; [nia|]. intros ?%Z.leb_le. nia. }
  assert (Hm8 : word 8 (maxitems e)) by (unfold word; lia).
  assert (Hwpos : 0 < w) by (destruct (Z.eq_dec w 0) as [->|]; lia).
  assert (Hq8 : word 8 (65536 / w)).
  { unfold word. split; [apply Z.div_pos; lia|]. apply Z.div_lt_upper_bound; lia. }
  assert (Hq : 0 <= 65536 / w <= 65536 /\ 65536 / w * w = 65536).
  { unfold width in Hw. destruct Hw as [->|[->|[->|[->| ->]]]]; [lia|..]; vm_compute; repeat split; discriminate. }
  assert (Emax : TIFFSafeMultiply (maxitems e) w = maxitems e * w).
  { rewrite TIFFSafeMultiply_spec by done. by replace (maxitems e * w <? 2 ^ 64) with true by nia. }
  assert (E64k : TIFFSafeMultiply (65536 / w) w = 65536 / w * w).
  { rewrite TIFFSafeMultiply_spec by done. by replace (65536 / w * w <? 2 ^ 64) with true by lia. }
  unfold data_extent. rewrite (TIFFSafeMultiply_spec count) by done.
  set (d := if count * w <? 2 ^ 64 then count * w else 0).
  assert (Et : (0 <? w) && negb (d / w =? count) || (65536 <? d) = true).
  { unfold d. destruct (Z.ltb_spec (count * w) (2 ^ 64)) as [Hl|Hl].
    - apply orb_true_iff. right. lia.
    - apply orb_true_iff. left. rewrite Z.div_0_l by nia.
      replace (0 =? count) with false by nia. by replace (0 <? w) with true by nia. }
  rewrite Et.
  cbv zeta. rewrite E64k, Emax. destruct (Z.ltb_spec (maxitems e) (65536 / w)); cbn [x_count x_size x_fits];
    (split; [lia|]; split; [done|]; split; [nia|]);
    intros Hf%negb_true_iff; apply orb_false_iff in Hf as [Hf1 Hf2]; exfalso;
    rewrite Hf1 in Et; cbn [orb] in Et; destruct (bigtiff e); lia.
Qed.

(** ** What is assumed of libtiff *)

(** The data types, with the codes the comments of [datawidth] give. *)
Definition type_codes : list (String.string * Z) :=
  [("TIFF_BYTE", 1); ("TIFF_ASCII", 2); ("TIFF_SHORT", 3); ("TIFF_LONG", 4); ("TIFF_RATIONAL", 5);
   ("TIFF_SBYTE", 6); ("TIFF_UNDEFINED", 7); ("TIFF_SSHORT", 8); ("TIFF_SLONG", 9); ("TIFF_SRATIONAL", 10);
   ("TIFF_FLOAT", 11); ("TIFF_DOUBLE", 12); ("TIFF_IFD", 13);
   ("TIFF_LONG8", 16); ("TIFF_SLONG8", 17); ("TIFF_IFD8", 18)]%string.

(** The bytes of each of [n] objects of [w] bytes reversed. *)
Fixpoint swabs (w n : nat) (b : bytes) : bytes :=
  match n with
  | O => b
  | S n => reverse (take w b) ++ swabs w n (drop w b)
  end.

Record libtiff_ok (tiff_h : String.string -> Z) (swab : nat -> bytes -> bytes)
    (swab_array : nat -> nat -> bytes -> bytes) : Prop := {
  lt_types : forall n c, (n, c) ∈ type_codes -> tiff_h n = c;
  lt_swab : forall w b, length b = w -> swab w b = reverse b;
  lt_array : forall w n b, (w * n <= length b)%nat -> swab_array w n b = swabs w n b
}.

Lemma swabs_length w n b : (w * n <= length b)%nat -> length (swabs w n b) = length b.
Proof.
  revert b. induction n as [|n IH]; intros b Hb; [done|]. cbn [swabs].
  rewrite length_app, length_reverse, IH, length_take, length_drop; [lia|rewrite length_drop; nia].
Qed.

(** A block of objects of [w] bytes can be read [n] times. *)
Lemma print_seq_ok w fmt sep n data :
  (w * n <= length data)%nat -> exists o, print_seq w fmt sep n data = Some o.
Proof.
  revert sep data. induction n as [|n IH]; intros sep data Hd; [by eexists|]. cbn [print_seq].
  unfold load. destruct (Nat.leb_spec (0 + w) (length data)); [|nia].
  destruct (IH (bs " ") (drop w data)) as [o ->]; [rewrite length_drop; nia|by eexists].
Qed.

Lemma PrintASCII_ok n data : (n <= length data)%nat -> exists o, PrintASCII n data = Some o.
Proof.
  revert data. induction n as [|n IH]; intros [|c data] Hd; cbn [PrintASCII length] in *; [by eexists..|lia|].
  destruct (IH data) as [o ->]; [lia|by eexists].
Qed.

Lemma type_width_width type w : 0 <= type -> type_width type = Some w -> width w.
Proof.
  intros H0. unfold type_width, NWIDTHS. destruct (Z.leb_spec (Z.of_nat (length datawidth)) type) as [|Hl].
  { intros [= <-]. by left. }
  intros H. unfold aget in H. replace (type <? 0) with false in H by lia.
  apply list_elem_of_lookup_2 in H. unfold datawidth in H. unfold width.
  repeat (apply elem_of_cons in H as [->|H]; [lia|]). by apply elem_of_nil in H.
Qed.

Lemma type_width_total type : 0 <= type -> exists w, type_width type = Some w.
Proof.
  intros H0. unfold type_width, NWIDTHS. destruct (Z.leb_spec (Z.of_nat (length datawidth)) type); [by eexists|].
  apply aget_in. lia.
Qed.

(** Case analysis on the data type: one of the 19 codes, or above them. *)
Lemma type_cases (P : Z -> Prop) :
  List.Forall P [0; 1; 2; 3; 4; 5; 6; 7; 8; 9; 10; 11; 12; 13; 14; 15; 16; 17; 18] ->
  (forall t, 19 <= t -> P t) -> forall t, 0 <= t -> P t.
Proof.
  intros H1 H2 t Ht. destruct (Z_lt_ge_dec t 19); [|apply H2; lia].
  rewrite List.Forall_forall in H1. apply H1. cbn. lia.
Qed.

(** Replace the names of the data types by their codes. *)
Ltac set_codes LT :=
  rewrite ?(lt_types _ _ _ LT "TIFF_BYTE"%string 1), ?(lt_types _ _ _ LT "TIFF_ASCII"%string 2),
    ?(lt_types _ _ _ LT "TIFF_SHORT"%string 3), ?(lt_types _ _ _ LT "TIFF_LONG"%string 4),
    ?(lt_types _ _ _ LT "TIFF_RATIONAL"%string 5), ?(lt_types _ _ _ LT "TIFF_SBYTE"%string 6),
    ?(lt_types _ _ _ LT "TIFF_UNDEFINED"%string 7), ?(lt_types _ _ _ LT "TIFF_SSHORT"%string 8),
    ?(lt_types _ _ _ LT "TIFF_SLONG"%string 9), ?(lt_types _ _ _ LT "TIFF_SRATIONAL"%string 10),
    ?(lt_types _ _ _ LT "TIFF_FLOAT"%string 11), ?(lt_types _ _ _ LT "TIFF_DOUBLE"%string 12),
    ?(lt_types _ _ _ LT "TIFF_IFD"%string 13), ?(lt_types _ _ _ LT "TIFF_LONG8"%string 16),
    ?(lt_types _ _ _ LT "TIFF_SLONG8"%string 17), ?(lt_types _ _ _ LT "TIFF_IFD8"%string 18)
    by (apply list_elem_of_In; cbn; tauto).

Section Types.
Context (tiff_h : String.string -> Z) (swab : nat -> bytes -> bytes) (swab_array : nat -> nat -> bytes -> bytes).
Hypothesis LT : libtiff_ok tiff_h swab swab_array.

(** The size of the objects [PrintData] reads is the one in [datawidth]. *)
Lemma PrintData_ok hex type w n data :
  0 <= type -> type_width type = Some w -> (Z.to_nat w * n <= length data)%nat ->
  exists o, PrintData tiff_h hex type n data = Some o.
Proof.
  intros H0. revert w. pattern type. revert type H0. apply type_cases.
  - unfold PrintData. set_codes LT.
    repeat (apply List.Forall_cons; [intros w [= <-] Hl; cbn -[print_seq PrintASCII];
      first [by eexists|apply print_seq_ok; lia|apply PrintASCII_ok; lia]|]). by apply List.Forall_nil.
  - intros t Ht w Hw Hl. unfold PrintData. set_codes LT.
    repeat (match goal with |- context [t =? ?c] => replace (t =? c) with false by lia end). by eexists.
Qed.

(** The bytes swapped as one object: half a rational, the whole object otherwise. *)
Definition unit_of (type : Z) : nat * nat :=
  if (type =? 5) || (type =? 10) then (4, 2)%nat
  else match type_width type with Some w => (Z.to_nat w, 1%nat) | None => (0, 1)%nat end.

Lemma swabs_0 n b : swabs 0 n b = b.
Proof. induction n as [|n IH]; [done|]. cbn [swabs]. by rewrite take_0, drop_0, IH. Qed.

Lemma swabs_1 n b : swabs 1 n b = b.
Proof.
  revert b. induction n as [|n IH]; intros b; [done|]. cbn [swabs]. rewrite IH.
  destruct b as [|c b]; [done|]. cbn [take drop]. by rewrite take_0, drop_0.
Qed.

Lemma swab_block_eq w n b : (w * n <= length b)%nat -> swab_block swab_array w n b = Some (swabs w n b).
Proof. intros H. unfold swab_block. rewrite (proj2 (Nat.leb_le _ _) H). by rewrite (lt_array _ _ _ LT). Qed.

(** [swab_data] reverses the bytes of each object, or half object. *)
Lemma swab_data_eq type n data :
  0 <= type -> (fst (unit_of type) * (n * snd (unit_of type)) <= length data)%nat ->
  swab_data tiff_h swab_array type n data =
  Some (swabs (fst (unit_of type)) (n * snd (unit_of type)) data).
Proof.
  intros H0. pattern type. revert type H0. apply type_cases.
  - unfold swab_data. set_codes LT.
    repeat (apply List.Forall_cons;
      [cbv [unit_of type_width aget datawidth NWIDTHS]; cbn -[swabs swab_block Nat.mul]; intros Hl;
       rewrite ?Nat.mul_1_r in *;
       first [by rewrite swabs_0|by rewrite swabs_1|by rewrite swab_block_eq by done]|]). by apply List.Forall_nil.
  - intros t Ht Hl. unfold swab_data. set_codes LT.
    repeat (match goal with |- context [t =? ?c] => replace (t =? c) with false by lia end).
    unfold unit_of. replace (t =? 5) with false by lia. replace (t =? 10) with false by lia. cbn [orb].
    unfold type_width. change NWIDTHS with 19. replace (19 <=? t) with true by lia.
    cbn [fst snd]. change (Z.to_nat 0) with 0%nat. by rewrite swabs_0.
Qed.

Lemma unit_width type w :
  0 <= type -> type_width type = Some w -> (fst (unit_of type) * snd (unit_of type))%nat = Z.to_nat w.
Proof.
  intros H0 Hw. unfold unit_of. rewrite Hw. destruct (_ || _) eqn:E; cbn [fst snd]; [|lia].
  apply orb_true_iff in E as [->%Z.eqb_eq| ->%Z.eqb_eq]; cbn in Hw; by injection Hw as <-.
Qed.
End Types.

(** ** Bytes and scalars *)

Definition is_byte (c : Z) : Prop := 0 <= c < 256.

Lemma le_word b : List.Forall is_byte b -> word (length b) (le b).
Proof.
  induction b as [|c b IH]; intros H; [unfold word; cbn; lia|].
  apply List.Forall_cons_iff in H as [Hc Hb]. specialize (IH Hb). unfold word, is_byte in *.
  cbn [length le fold_right]. fold (le b).
  replace (8 * Z.of_nat (S (length b))) with (8 + 8 * Z.of_nat (length b)) by lia.
  rewrite Z.pow_add_r by lia. lia.
Qed.

Lemma Forall_sub (P : Z -> Prop) n m b : List.Forall P b -> List.Forall P (take n (drop m b)).
Proof. intros H. rewrite List.Forall_forall in *. intros x Hx. apply H.
  rewrite <- (take_drop m b). apply in_app_iff. right. rewrite <- (take_drop n (drop m b)). apply in_app_iff. by left.
Qed.

Lemma load_ok w off mem :
  List.Forall is_byte mem -> (off + w <= length mem)%nat ->
  exists b, load w off mem = Some b /\ length b = w /\ List.Forall is_byte b.
Proof.
  intros Hm Hl. unfold load. rewrite (proj2 (Nat.leb_le _ _) Hl). eexists. split; [done|].
  split; [rewrite length_take, length_drop; lia|by apply Forall_sub].
Qed.

Section Safety.
Context (tiff_h : String.string -> Z) (swab : nat -> bytes -> bytes) (swab_array : nat -> nat -> bytes -> bytes).
Hypothesis LT : libtiff_ok tiff_h swab swab_array.
Context (malloc_ok : Z -> bool) (seek_ok : Z -> bool) (file curfile : bytes).
Hypothesis file_bytes : List.Forall is_byte file.

Lemma scalar_word e w b : List.Forall is_byte b -> length b = w -> word w (scalar swab e w b).
Proof.
  intros Hb <-. unfold scalar. destruct (swabflag e); [|by apply le_word].
  rewrite (lt_swab _ _ _ LT) by done. rewrite <- (length_reverse b). apply le_word.
  rewrite List.Forall_forall in *. intros x Hx. apply Hb. apply list_elem_of_In, elem_of_reverse.
  by apply list_elem_of_In.
Qed.

Lemma read_ok n s (Q : bytes -> dst -> Prop) :
  0 <= n ->
  (forall b s', List.Forall is_byte b -> Z.of_nat (length b) <= n ->
     (b <> [] -> pos s < Z.of_nat (length file)) -> Q b s') ->
  ok (read file n) Q s.
Proof.
  intros Hn H. unfold ok, read. apply H.
  - by apply Forall_sub.
  - rewrite length_take. lia.
  - intros Hb. destruct (Z_lt_ge_dec (pos s) (Z.of_nat (length file))); [done|]. destruct Hb.
    rewrite drop_ge by lia. by rewrite take_nil.
Qed.

Lemma fetch_data_ok tag off size s :
  0 <= size ->
  ok (fetch_data malloc_ok seek_ok file curfile tag off size)
     (fun r _ => forall b, r = Some b -> Z.of_nat (length b) = size) s.
Proof.
  intros Hs. unfold fetch_data. case_if; [|ok_steps; done]. apply ok_bind. unfold ok at 1, lseek.
  assert (Hk : forall (o : bool) s', ok (if negb o then
      Error curfile (bs "Seek error accessing tag " ++ print_base 10 tag ++ bs " value") ;; dret None
    else
      let? b := read file size in
      if negb (Z.of_nat (length b) =? size) then
        Error curfile (bs "Read error accessing tag " ++ print_base 10 tag ++ bs " value") ;; dret None
      else dret (Some b)) (fun r _ => forall b, r = Some b -> Z.of_nat (length b) = size) s').
  { intros o s'. case_if; [ok_steps; done|]. apply ok_bind, read_ok; [done|]. intros b s2 Hb Hl _.
    case_if; [ok_steps; done|]. ok_steps. intros b' [= <-]. bsimp. lia. }
  case_if; apply Hk.
Qed.

Definition entry_size (e : env) : nat := if bigtiff e then 20 else 12.
Definition off_width (e : env) : nat := if bigtiff e then 8 else 4.

Lemma entry_size_split e : entry_size e = (4 + off_width e + off_width e)%nat.
Proof. unfold entry_size, off_width. by destruct (bigtiff e). Qed.

Lemma slot_off_width e : slot e = Z.of_nat (off_width e).
Proof. unfold slot, off_width. by destruct (bigtiff e). Qed.

Lemma word_mono w w' z : (w <= w')%nat -> word w z -> word w' z.
Proof. unfold word. intros Hw Hz. split; [lia|]. eapply Z.lt_le_trans; [apply Hz|]. apply Z.pow_le_mono_r; lia. Qed.

(** The values printed from a block that holds as many objects as are counted. *)
Lemma print_block_ok e type w x m s :
  0 <= type -> type_width type = Some w -> width w ->
  0 <= x_count x < 2 ^ 32 -> x_count x * w <= Z.of_nat (length m) ->
  ok (let? m := if swabflag e then dof (swab_data tiff_h swab_array type (Z.to_nat (x_count x)) m) else dret m in
      let? o := dof (PrintData tiff_h (hex_mode e) type (Z.to_nat (u32 (x_count x))) m) in
      printf o ;; (if x_trunc x then printf (bs " ...") else dret tt)) (fun _ _ => True) s.
Proof.
  intros H0 Hw Hwd Hx Hl. assert (Hu : u32 (x_count x) = x_count x) by (unfold u32; apply Z.mod_small; lia).
  rewrite Hu. pose proof (unit_width type w H0 Hw) as Hun.
  assert (Hw0 : 0 <= w) by (unfold width in Hwd; lia).
  assert (Hn : (Z.to_nat w * Z.to_nat (x_count x) <= length m)%nat) by nia.
  assert (Hprint : forall m', length m' = length m ->
    ok (let? o := dof (PrintData tiff_h (hex_mode e) type (Z.to_nat (x_count x)) m') in
        printf o ;; (if x_trunc x then printf (bs " ...") else dret tt)) (fun _ _ => True) s).
  { intros m' Hm'. destruct (PrintData_ok _ _ _ LT (hex_mode e) type w (Z.to_nat (x_count x)) m' H0 Hw) as [o Ho]; [lia|].
    apply ok_bind. eapply ok_dof; [exact Ho|]. ok_steps. by case_if; ok_steps. }
  apply ok_bind. destruct (swabflag e); [|by apply ok_ret, Hprint].
  eapply ok_dof.
  - apply (swab_data_eq _ _ _ LT); [done|]. nia.
  - apply Hprint. apply swabs_length. nia.
Qed.

Lemma dump_entry_ok e dirmem dp s :
  List.Forall is_byte dirmem -> (dp + entry_size e <= length dirmem)%nat -> 0 <= maxitems e < 2 ^ 32 ->
  ok (dump_entry tiff_h swab swab_array malloc_ok seek_ok file curfile e dirmem dp) (fun _ _ => True) s.
Proof.
  intros Hd Hl Hm. rewrite entry_size_split in Hl. unfold dump_entry. fold (off_width e).
  destruct (load_ok 2 dp dirmem Hd) as (b1 & E1 & L1 & B1); [lia|].
  destruct (load_ok 2 (dp + 2) dirmem Hd) as (b2 & E2 & L2 & B2); [lia|].
  destruct (load_ok (off_width e) (dp + 4) dirmem Hd) as (b3 & E3 & L3 & B3); [lia|].
  destruct (load_ok (off_width e) (dp + 4 + off_width e) dirmem Hd) as (b4 & E4 & L4 & B4); [lia|].
  pose proof (scalar_word e 2 b2 B2 L2) as W2. pose proof (scalar_word e _ b3 B3 L3) as W3.
  set (type := scalar swab e 2 b2) in *. set (count := scalar swab e (off_width e) b3) in *.
  assert (H0 : 0 <= type) by (unfold word in W2; lia).
  destruct (type_width_total type H0) as [w Hw]. pose proof (type_width_width type w H0 Hw) as Hwd.
  assert (Hc : word 8 count) by (eapply word_mono; [|exact W3]; unfold off_width; destruct (bigtiff e); lia).
  destruct (data_extent_ok e w count Hwd Hc Hm) as (X1 & X2 & X3 & X4).
  set (x := data_extent e w count) in *. rewrite slot_off_width in X4.
  apply ok_bind. eapply ok_dof; [exact E1|]. apply ok_bind. eapply ok_dof; [exact E2|]. fold type. ok_steps.
  eapply ok_dof; [exact E3|]. fold count. ok_steps. eapply ok_dof; [exact Hw|]. fold x.
  apply ok_bind. eapply ok_mono with (Q := fun r _ => forall m, r = Some m -> x_count x * w <= Z.of_nat (length m)).
  - destruct (x_fits x); [ok_steps; intros m [= <-]; rewrite length_drop; specialize (X4 eq_refl); lia|].
    apply ok_bind. eapply ok_dof; [exact E4|]. eapply ok_mono; [apply fetch_data_ok; lia|].
    intros r s' Hr m Em. rewrite (Hr m Em). lia.
  - intros [m|] s' Hmem; apply ok_bind; [|ok_steps; done].
    eapply ok_mono; [by eapply print_block_ok; [..|by apply Hmem]|]. intros [] s2 _. ok_steps. done.
Qed.

Lemma dump_entries_ok n e dirmem dp s :
  List.Forall is_byte dirmem -> (dp + n * entry_size e <= length dirmem)%nat -> 0 <= maxitems e < 2 ^ 32 ->
  ok (dump_entries tiff_h swab swab_array malloc_ok seek_ok file curfile n e dirmem dp) (fun _ _ => True) s.
Proof.
  intros Hd. revert dp s. induction n as [|n IH]; intros dp s Hl Hm; cbn [dump_entries]; [ok_steps; done|].
  apply ok_bind. eapply ok_mono; [apply dump_entry_ok; [done|lia|done]|]. intros [] s' _.
  fold (entry_size e). apply IH; [lia|done].
Qed.

(** The offsets a directory can be read at: inside the file, or the one lseek's
    error value cannot be told from. *)
Definition places : list Z := (2 ^ 64 - 1) :: map Z.of_nat (seq 0 (length file)).

Lemma places_in off : 0 <= off < Z.of_nat (length file) -> off ∈ places.
Proof.
  intros H. apply list_elem_of_In. right. apply in_map_iff. exists (Z.to_nat off). split; [lia|]. apply in_seq. lia.
Qed.

Lemma lseek_ok off s :
  word 8 off -> ok (lseek seek_ok off) (fun r s' => r = true -> off = 2 ^ 64 - 1 \/ pos s' = off) s.
Proof.
  unfold word. change (2 ^ (8 * Z.of_nat 8)) with (2 ^ 64). intros H. unfold ok, lseek. case_if; cbn [pos].
  - intros _. right. apply andb_prop in Heqb as [Ho _]. unfold sint in *. rewrite Z.mod_small in * by lia.
    case_if; bsimp; lia.
  - intros E. left. unfold sint in E. rewrite Z.mod_small in E by lia. case_if; bsimp; lia.
Qed.

Lemma read_dircount_ok e s :
  ok (read_dircount swab file curfile e)
     (fun r _ => pos s < Z.of_nat (length file) /\ forall n, r = Some n -> word 2 n) s.
Proof.
  unfold read_dircount. set (w := if bigtiff e then 8%nat else 2%nat). apply ok_bind, read_ok; [lia|].
  intros b s' Hb Hl Hp. case_if; [ok_steps|]. apply negb_false_iff, Nat.eqb_eq in Heqb0.
  assert (Hpos : pos s < Z.of_nat (length file)).
  { apply Hp. intros ->. unfold w in Heqb0. destruct (bigtiff e); cbn in Heqb0; lia. }
  pose proof (scalar_word e w b Hb Heqb0) as Hw. case_if; ok_steps; (split; [done|]); intros n [= <-].
  unfold w in *. destruct (bigtiff e); [|done]. cbn [andb] in *. bsimp. unfold word in *. lia.
Qed.

Lemma read_next_ok e s : ok (read_next swab file e) (fun n _ => word 8 n) s.
Proof.
  unfold read_next. set (w := if bigtiff e then 8%nat else 4%nat). apply ok_bind, read_ok; [lia|].
  intros b s' Hb Hl _. ok_steps. apply (word_mono w); [unfold w; destruct (bigtiff e); lia|].
  destruct (length b =? w)%nat eqn:E.
  - apply scalar_word; [done|by apply Nat.eqb_eq].
  - apply scalar_word; [|by rewrite length_replicate]. rewrite List.Forall_forall. intros x Hx.
    apply list_elem_of_In, elem_of_replicate in Hx as [-> _]. unfold is_byte. lia.
Qed.

(** What is done once the entries are in memory. *)
Lemma directory_body_ok e ix off dircount nextdiroff dirmem s :
  List.Forall is_byte dirmem -> word 2 dircount -> 0 <= maxitems e < 2 ^ 32 -> word 8 nextdiroff ->
  dircount * Z.of_nat (entry_size e) <= Z.of_nat (length dirmem) ->
  ok (printf (bs "Directory " ++ print_base 10 ix ++ bs ": offset " ++ print_base 10 off ++
              bs " (" ++ print_hx off ++ bs ") next " ++ print_base 10 nextdiroff ++
              bs " (" ++ print_hx nextdiroff ++ bs ")" ++ [10]) ;;
      dump_entries tiff_h swab swab_array malloc_ok seek_ok file curfile (Z.to_nat dircount) e dirmem 0 ;;
      dret nextdiroff) (fun next _ => word 8 next) s.
Proof.
  intros Hd Hc Hm Hn Hl. unfold word in Hc. apply ok_bind, ok_printf. apply ok_bind.
  eapply ok_mono; [apply dump_entries_ok; [done|nia|done]|]. intros [] s' _. by apply ok_ret.
Qed.

Lemma ReadDirectory_ok e ix off s :
  word 8 off -> 0 <= maxitems e < 2 ^ 32 ->
  ok (ReadDirectory tiff_h swab swab_array malloc_ok seek_ok file curfile e ix off)
     (fun next _ => word 8 next /\ (off = 0 \/ off ∈ places)) s.
Proof.
  intros Ho Hm. unfold ReadDirectory.
  destruct (Z.eqb_spec off 0) as [->|Hoff]; [apply ok_ret; split; [done|by left]|].
  apply ok_bind. eapply ok_mono; [by apply lseek_ok|]. intros [] s1 Hs1; cbn [negb]; [|ok_steps].
  specialize (Hs1 eq_refl). apply ok_bind. eapply ok_mono; [apply read_dircount_ok|]. intros r s2 [Hp Hr].
  assert (Hpl : off = 0 \/ off ∈ places).
  { right. destruct Hs1 as [->|<-]; [apply list_elem_of_In; by left|]. apply places_in. unfold word in Ho. lia. }
  destruct r as [dircount|]; [|apply ok_ret; split; [done|done]]. specialize (Hr _ eq_refl).
  case_if; [ok_steps|]. assert (Hc := Hr). unfold word in Hc. change (2 ^ (8 * Z.of_nat 2)) with 65536 in Hc.
  assert (Es : (if bigtiff e then 20 else 12) = Z.of_nat (entry_size e)) by (unfold entry_size; by destruct (bigtiff e)).
  rewrite Es. assert (Hes : 0 < Z.of_nat (entry_size e)) by (unfold entry_size; destruct (bigtiff e); lia).
  apply ok_bind, read_ok; [nia|]. intros dirmem s3 Hd Hl _. apply ok_bind.
  eapply ok_mono with (Q := fun r _ => word 2 (fst r) /\ word 8 (snd r) /\
    fst r * Z.of_nat (entry_size e) <= Z.of_nat (length dirmem)).
  - case_if; bsimp.
    + assert (Hq : 0 <= Z.of_nat (length dirmem) / Z.of_nat (entry_size e) < 65536).
      { split; [apply Z.div_pos; lia|]. apply Z.div_lt_upper_bound; nia. }
      ok_steps. cbn [fst snd]. unfold u16. rewrite Z.mod_small by lia.
      split; [unfold word; lia|]. split; [done|]. rewrite Z.mul_comm. apply Z.mul_div_le. lia.
    + apply ok_bind. eapply ok_mono; [apply read_next_ok|]. intros n s4 Hn. apply ok_ret. cbn [fst snd]. split_and!; [done|done|lia].
  - intros [c n] s4 (Hc1 & Hn1 & Hl1). eapply ok_mono; [by apply directory_body_ok|]. intros n' s5 Hn'. done.
Qed.

(** The chain ends: no directory is read twice, and only so many places hold one. *)
Lemma dump_chain_ok fuel e i visited diroff s :
  word 8 diroff -> 0 <= maxitems e < 2 ^ 32 -> NoDup visited -> (forall o, o ∈ visited -> o ∈ places) ->
  (length file + 2 <= fuel + length visited)%nat ->
  ok (dump_chain tiff_h swab swab_array malloc_ok seek_ok file curfile fuel e i visited diroff) (fun _ _ => True) s.
Proof.
  revert i visited diroff s. induction fuel as [|fuel IH]; intros i visited diroff s Hd Hm Hnd Hin Hf;
    assert (Hlen : (length visited <= length file + 1)%nat) by
      (replace (length file + 1)%nat with (length places) by (unfold places; cbn [length]; rewrite length_map, length_seq; lia);
       apply submseteq_length, NoDup_submseteq; done);
    cbn [dump_chain]; destruct (Z.eqb_spec diroff 0); try (by apply ok_ret); [lia|].
  case_if; [ok_steps|]. case_if; [ok_steps|]. apply ok_bind.
  assert (Hnv : diroff ∉ visited).
  { intros Hv. apply not_true_iff_false in Heqb. apply Heqb. apply existsb_exists. exists diroff.
    split; [by apply list_elem_of_In|by apply Z.eqb_eq]. }
  eapply ok_mono with (Q := fun _ _ => True); [by case_if; ok_steps|]. intros [] s1 _. apply ok_bind.
  eapply ok_mono; [by apply ReadDirectory_ok|]. intros next s2 [Hn [?|Hp]]; [done|].
  apply IH; [done|done|..].
  - apply list.NoDup_app. split; [done|]. split; [|by apply NoDup_singleton]. intros o Ho Ho'%list_elem_of_singleton. by subst.
  - intros o [Ho|Ho%list_elem_of_singleton]%elem_of_app; [by apply Hin|by subst].
  - rewrite length_app. cbn [length]. lia.
Qed.

Lemma read_header_ok hex items diroff s :
  word 8 diroff ->
  ok (read_header tiff_h swab file curfile hex items diroff)
     (fun r _ => word 8 (snd r) /\ maxitems (fst r) = items) s.
Proof.
  intros Hd. unfold read_header. apply ok_bind. unfold ok at 1.
  apply ok_bind, read_ok; [lia|]. intros common s1 Hb Hl _. case_if; [ok_steps|].
  case_if; [ok_steps|]. cbv zeta. case_if.
  - apply ok_bind, read_ok; [lia|]. intros b s2 Hb2 _ _. case_if; [ok_steps|]. unfold print_magic. ok_steps.
    cbn [fst snd]. split; [|done]. case_if; [|done]. apply (word_mono 4); [lia|]. apply scalar_word; [done|].
    by apply negb_false_iff, Nat.eqb_eq in Heqb2.
  - case_if; [|ok_steps]. apply ok_bind, read_ok; [lia|]. intros b s2 Hb2 _ _. case_if; [ok_steps|].
    unfold print_magic. ok_steps. cbn [fst snd]. split; [|done]. case_if; [|done]. apply scalar_word.
    + rewrite <- (take_ge (drop 4 b) (length b)) by (rewrite length_drop; lia). by apply Forall_sub.
    + apply negb_false_iff, Nat.eqb_eq in Heqb3. rewrite length_drop. lia.
Qed.

Lemma dump_ok hex items diroff s :
  word 8 diroff -> 0 <= items < 2 ^ 32 ->
  ok (dump tiff_h swab swab_array malloc_ok seek_ok file curfile (length file + 2) hex items diroff) (fun _ _ => True) s.
Proof.
  intros Hd Hi. unfold dump. apply ok_bind. eapply ok_mono; [by apply read_header_ok|].
  intros [e d] s1 [Hw Hm]. cbn [fst snd] in *. apply dump_chain_ok; [done|lia|by apply NoDup_nil_2|..].
  - intros o Ho. by apply elem_of_nil in Ho.
  - cbn [length]. lia.
Qed.

End Safety.

(** ** A directory as it is written to a file *)

Fixpoint le_bytes (w : nat) (z : Z) : bytes :=
  match w with
  | O => []
  | S w => z mod 256 :: le_bytes w (z / 256)
  end.

Lemma le_bytes_length w z : length (le_bytes w z) = w.
Proof. revert z. induction w as [|w IH]; intros z; [done|]. cbn. by rewrite IH. Qed.

Lemma le_le_bytes w z : word w z -> le (le_bytes w z) = z.
Proof.
  revert z. induction w as [|w IH]; intros z Hz; unfold word in Hz.
  - change (2 ^ (8 * Z.of_nat 0)) with 1 in Hz. cbn. lia.
  - replace (8 * Z.of_nat (S w)) with (8 + 8 * Z.of_nat w) in Hz by lia. rewrite Z.pow_add_r in Hz by lia.
    cbn [le_bytes le fold_right]. fold (le (le_bytes w (z / 256))). rewrite IH.
    + pose proof (Z.div_mod z 256). lia.
    + unfold word. split; [apply Z.div_pos; lia|apply Z.div_lt_upper_bound; lia].
Qed.

(** The bytes of a scalar in the order of the file. *)
Definition to_file (e : env) (w : nat) (z : Z) : bytes :=
  if swabflag e then reverse (le_bytes w z) else le_bytes w z.

Lemma to_file_length e w z : length (to_file e w z) = w.
Proof. unfold to_file. destruct (swabflag e); by rewrite ?length_reverse, le_bytes_length. Qed.

(** An entry: its data in the host's order, and where it is when it does not fit. *)
Record entry := Entry { e_tag : Z; e_type : Z; e_count : Z; e_data : bytes; e_off : Z }.

Definition entry_units (en : entry) (n : Z) : nat := (Z.to_nat n * snd (unit_of (e_type en)))%nat.

Definition file_data (e : env) (en : entry) : bytes :=
  if swabflag e then swabs (fst (unit_of (e_type en))) (entry_units en (e_count en)) (e_data en) else e_data en.

Definition inline (e : env) (en : entry) : bool := (length (e_data en) <=? off_width e)%nat.

Definition entry_bytes (e : env) (en : entry) : bytes :=
  to_file e 2 (e_tag en) ++ to_file e 2 (e_type en) ++ to_file e (off_width e) (e_count en) ++
  (if inline e en then file_data e en ++ replicate (off_width e - length (e_data en)) 0
   else to_file e (off_width e) (e_off en)).

(** How many items are printed. *)
Definition shown (e : env) (en : entry) : Z := Z.min (e_count en) (maxitems e).

(** [b] is what the file holds from [off] on. *)
Definition at_off (file : bytes) (off : Z) (b : bytes) : Prop :=
  0 <= off < 2 ^ 63 /\ exists r, drop (Z.to_nat off) file = b ++ r.

Record entry_good (malloc_ok seek_ok : Z -> bool) (file : bytes) (e : env) (en : entry) (w : Z) : Prop := {
  eg_tag : word 2 (e_tag en);
  eg_type : word 2 (e_type en);
  eg_width : type_width (e_type en) = Some w;
  eg_count : word (off_width e) (e_count en);
  eg_data : Z.of_nat (length (e_data en)) = e_count en * w;
  eg_size : e_count en * w <= 65536;
  eg_off : word (off_width e) (e_off en);
  eg_file : inline e en = false ->
    at_off file (e_off en) (file_data e en) /\ seek_ok (e_off en) = true /\ malloc_ok (shown e en * w) = true
}.

Definition entry_line (tiff_h : String.string -> Z) (e : env) (en : entry) (vals : bytes) : bytes :=
  PrintTag tiff_h (e_tag en) ++ bs " " ++ PrintType (e_type en) ++ bs " " ++
  print_base 10 (e_count en) ++ bs "<" ++ vals ++
  (if maxitems e <? e_count en then bs " ..." else []) ++ bs ">" ++ [10].

(** ** Swapping back *)

Lemma swabs_back u n N d r :
  (n <= N)%nat -> (u * N <= length d)%nat ->
  take (u * n) (swabs u n (swabs u N d ++ r)) = take (u * n) d.
Proof.
  revert N d. induction n as [|n IH]; intros [|N] d Hn Hl; try lia; [by rewrite Nat.mul_0_r|by rewrite Nat.mul_0_r|].
  assert (Hu : length (reverse (take u d)) = u) by (rewrite length_reverse, length_take; nia).
  assert (Ht : length (take u d) = u) by (by rewrite <- Hu at 2; rewrite length_reverse).
  cbn [swabs]. rewrite <- !app_assoc.
  rewrite (take_app_length' (reverse _) _ u), (drop_app_length' (reverse _) _ u) by done.
  rewrite reverse_involutive. replace (u * S n)%nat with (u + u * n)%nat by lia.
  rewrite <- Ht at 1. rewrite take_app_add, IH; [|lia|rewrite length_drop; nia].
  by rewrite take_take_drop.
Qed.

(** Printing depends on the objects printed only. *)
Lemma print_seq_take w fmt sep n data :
  (w * n <= length data)%nat -> print_seq w fmt sep n (take (w * n) data) = print_seq w fmt sep n data.
Proof.
  revert sep data. induction n as [|n IH]; intros sep data Hl; [done|]. cbn [print_seq]. unfold load.
  rewrite length_take. rewrite !(proj2 (Nat.leb_le _ _)) by nia. rewrite !drop_0, take_take, Nat.min_l by nia.
  rewrite skipn_firstn_comm. replace (w * S n - w)%nat with (w * n)%nat by nia.
  rewrite IH; [done|rewrite length_drop; nia].
Qed.

Lemma PrintASCII_take n data : (n <= length data)%nat -> PrintASCII n (take n data) = PrintASCII n data.
Proof.
  revert data. induction n as [|n IH]; intros [|c data] Hl; cbn [PrintASCII take length] in *; [done..|].
  rewrite IH; [done|lia].
Qed.

Lemma swabs_take u n m : (u * n <= length m)%nat -> take (u * n) (swabs u n m) = swabs u n (take (u * n) m).
Proof.
  revert m. induction n as [|n IH]; intros m Hl; [by rewrite Nat.mul_0_r|].
  assert (Hu : length (reverse (take u m)) = u) by (rewrite length_reverse, length_take; nia).
  cbn [swabs]. replace (u * S n)%nat with (u + u * n)%nat in * by lia.
  rewrite take_app_add' by done. rewrite IH by (rewrite length_drop; lia).
  rewrite take_take, Nat.min_l by lia. f_equal. f_equal. rewrite skipn_firstn_comm. f_equal; lia.
Qed.

(** [m] returns in [Q]. *)
Definition must {A} (m : D A) (Q : A -> dst -> Prop) (s : dst) : Prop := exists a s', m s = DRet a s' /\ Q a s'.

Lemma must_bind {A B} (m : D A) (f : A -> D B) Q s :
  must m (fun a s' => must (f a) Q s') s -> must (dbind m f) Q s.
Proof. intros (a & s1 & E & b & s2 & E2 & H). exists b, s2. unfold dbind. by rewrite E. Qed.

Lemma must_ret {A} (a : A) (Q : A -> dst -> Prop) s : Q a s -> must (dret a) Q s.
Proof. intros H. by exists a, s. Qed.

Lemma must_printf b (Q : () -> dst -> Prop) s : Q tt (Dst (pos s) (out s ++ b) (errs s)) -> must (printf b) Q s.
Proof. intros H. by eexists _, _. Qed.

Lemma must_dof {A} (o : option A) a (Q : A -> dst -> Prop) s : o = Some a -> Q a s -> must (dof o) Q s.
Proof. intros -> H. by exists a, s. Qed.

Lemma must_mono {A} (m : D A) (Q Q' : A -> dst -> Prop) s :
  must m Q s -> (forall a s', Q a s' -> Q' a s') -> must m Q' s.
Proof. intros (a & s' & E & H) HQ. exists a, s'. auto. Qed.

(** Only standard output grows, by [b]. *)
Definition prints (b : bytes) (s s' : dst) : Prop := out s' = out s ++ b /\ errs s' = errs s.

Lemma prints_app a b s1 s2 s3 : prints a s1 s2 -> prints b s2 s3 -> prints (a ++ b) s1 s3.
Proof. intros [E1 F1] [E2 F2]. split; [by rewrite E2, E1, app_assoc|congruence]. Qed.

Lemma load_app w off (mem b r : bytes) : drop off mem = b ++ r -> length b = w -> b <> [] -> load w off mem = Some b.
Proof.
  intros E <- Hb. unfold load.
  assert (Hl : (length (drop off mem) = length b + length r)%nat) by (rewrite E; apply length_app).
  rewrite length_drop in Hl. assert (0 < length b)%nat by (destruct b; cbn; [done|lia]).
  rewrite (proj2 (Nat.leb_le _ _)) by lia. by rewrite E, take_app_length.
Qed.

Lemma drop_app_next off (mem b r : bytes) w : drop off mem = b ++ r -> length b = w -> drop (off + w) mem = r.
Proof. intros E <-. rewrite <- drop_drop, E. apply drop_app_length. Qed.

Section Printing.
Context (tiff_h : String.string -> Z) (swab : nat -> bytes -> bytes) (swab_array : nat -> nat -> bytes -> bytes).
Hypothesis LT : libtiff_ok tiff_h swab swab_array.
Context (malloc_ok : Z -> bool) (seek_ok : Z -> bool) (file curfile : bytes).

Lemma scalar_to_file e w z : word w z -> scalar swab e w (to_file e w z) = z.
Proof.
  intros Hz. unfold scalar, to_file. destruct (swabflag e); [|by apply le_le_bytes].
  rewrite (lt_swab _ _ _ LT) by (by rewrite length_reverse, le_bytes_length).
  rewrite reverse_involutive. by apply le_le_bytes.
Qed.

Lemma PrintData_take hex type w n data :
  0 <= type -> type_width type = Some w -> (Z.to_nat w * n <= length data)%nat ->
  PrintData tiff_h hex type n (take (Z.to_nat w * n) data) = PrintData tiff_h hex type n data.
Proof.
  intros H0. revert w. pattern type. revert type H0. apply type_cases.
  - unfold PrintData. set_codes LT.
    repeat (apply List.Forall_cons; [intros w [= <-] Hl; cbn -[print_seq PrintASCII Nat.mul take];
      first [done|by apply print_seq_take|rewrite Nat.mul_1_l in *; by apply PrintASCII_take]|]). by apply List.Forall_nil.
  - intros t Ht w Hw Hl. unfold PrintData. set_codes LT.
    by repeat (match goal with |- context [t =? ?c] => replace (t =? c) with false by lia end).
Qed.

(** Data read back from the file prints as the data itself. *)
Lemma print_file_data e en w m r vals :
  0 <= e_type en -> type_width (e_type en) = Some w -> 0 <= w -> 0 <= shown e en <= e_count en -> shown e en < 2 ^ 32 ->
  Z.of_nat (length (e_data en)) = e_count en * w ->
  let k := (Z.to_nat w * Z.to_nat (shown e en))%nat in
  (k <= length m)%nat -> take k m = take k (file_data e en ++ r) ->
  PrintData tiff_h (hex_mode e) (e_type en) (Z.to_nat (shown e en)) (e_data en) = Some vals ->
  exists m', (if swabflag e then dof (swab_data tiff_h swab_array (e_type en) (Z.to_nat (shown e en)) m) else dret m) =
             (@dret bytes m') /\
    PrintData tiff_h (hex_mode e) (e_type en) (Z.to_nat (shown e en)) m' = Some vals.
Proof.
  intros H0 Hw Hw0 Hn Hn32 Hd k Hm Et Hv. pose proof (unit_width _ w H0 Hw) as Hu.
  set (n := Z.to_nat (shown e en)) in *. set (u := fst (unit_of (e_type en))) in *. set (j := snd (unit_of (e_type en))) in *.
  assert (Hk : k = (u * (n * j))%nat) by nia.
  assert (HN : (u * (Z.to_nat (e_count en) * j) = length (e_data en))%nat) by nia.
  assert (Hkd : (k <= length (e_data en))%nat) by nia.
  assert (Hfin : forall m', (k <= length m')%nat -> take k m' = take k (e_data en) ->
    PrintData tiff_h (hex_mode e) (e_type en) n m' = Some vals).
  { intros m' Hm' E'. rewrite <- (PrintData_take _ _ w) by done. fold k. rewrite E', <- Hv. by apply PrintData_take. }
  unfold file_data in Et. destruct (swabflag e).
  - rewrite (swab_data_eq _ _ _ LT) by (first [done|fold u j; lia]). fold u j. eexists. split; [reflexivity|].
    apply Hfin; [rewrite swabs_length; lia|]. rewrite Hk, swabs_take, <- Hk, Et by lia.
    unfold entry_units. fold u j. rewrite Hk, <- swabs_take by (rewrite length_app, swabs_length; lia).
    rewrite swabs_back; [done|nia|lia].
  - eexists. split; [reflexivity|]. apply Hfin; [done|]. rewrite Et. by rewrite take_app_le.
Qed.

Lemma lseek_in off s :
  0 <= off < 2 ^ 63 -> seek_ok off = true -> lseek seek_ok off s = DRet true (Dst off (out s) (errs s)).
Proof.
  intros Ho Hs. unfold lseek. rewrite sint_small by lia. rewrite Hs. by replace (0 <=? off) with true by lia.
Qed.

(** Reading what the file holds at the position. *)
Lemma read_at n s b r :
  drop (Z.to_nat (pos s)) file = b ++ r -> Z.of_nat (length b) = n ->
  read file n s = DRet b (Dst (pos s + n) (out s) (errs s)).
Proof.
  intros E <-. unfold read. rewrite E, Nat2Z.id, take_app_length. done.
Qed.

Lemma fetch_data_at tag off size s b r :
  at_off file off (b ++ r) -> seek_ok off = true -> malloc_ok size = true -> Z.of_nat (length b) = size ->
  must (fetch_data malloc_ok seek_ok file curfile tag off size) (fun m s' => m = Some b /\ prints [] s s') s.
Proof.
  intros [Ho [r' E]] Hs Hm Hl. unfold fetch_data. rewrite Hm. apply must_bind. eexists _, _.
  split; [by apply lseek_in|]. cbn [negb]. apply must_bind. eexists _, _.
  split; [apply (read_at _ _ b (r ++ r')); [by rewrite app_assoc|done]|].
  replace (Z.of_nat (length b) =? size) with true by lia. cbn [negb]. apply must_ret.
  split; [done|]. split; cbn; by rewrite ?app_nil_r.
Qed.

(** What an entry's data is read from: the entry's own bytes or the file. *)
Lemma datamem_ok e en w dirmem dp r s :
  entry_good malloc_ok seek_ok file e en w -> 0 <= w -> 0 <= maxitems e ->
  drop dp dirmem = (if inline e en then file_data e en ++ replicate (off_width e - length (e_data en)) 0
                    else to_file e (off_width e) (e_off en)) ++ r ->
  let k := (Z.to_nat w * Z.to_nat (shown e en))%nat in
  must (if inline e en then dret (Some (drop dp dirmem))
        else let? b := dof (load (off_width e) dp dirmem) in
             fetch_data malloc_ok seek_ok file curfile (e_tag en) (scalar swab e (off_width e) b) (shown e en * w))
       (fun m s' => exists m' r', m = Some m' /\ (k <= length m')%nat /\
          take k m' = take k (file_data e en ++ r') /\ prints [] s s') s.
Proof.
  intros [G1 G2 G3 G4 G5 G6 G7 G8] Hw0 Hm E k.
  assert (Hlen : length (file_data e en) = length (e_data en)).
  { unfold file_data. destruct (swabflag e); [|done]. apply swabs_length. unfold entry_units.
    pose proof (unit_width _ w (proj1 G2) G3). unfold word in G4. nia. }
  assert (Hk : (k <= length (e_data en))%nat) by (unfold k, shown; unfold word in G4; nia).
  assert (Hp : prints [] s s) by (split; [by rewrite app_nil_r|done]).
  destruct (inline e en) eqn:Ei.
  - apply must_ret. rewrite E, <- app_assoc. do 2 eexists. split; [done|]. split; [rewrite length_app; lia|]. split; [done|done].
  - destruct (G8 eq_refl) as ((Ho & r1 & Ef) & Hs & Hma). apply must_bind. eapply must_dof.
    { eapply load_app; [exact E|apply to_file_length|]. unfold to_file, off_width. by destruct (swabflag e), (bigtiff e). }
    rewrite scalar_to_file by done. eapply must_mono.
    + apply (fetch_data_at _ _ _ _ (take k (file_data e en)) (drop k (file_data e en))); [|done|done|].
      * split; [done|]. exists r1. by rewrite take_drop.
      * rewrite length_take, Hlen. unfold k in *. unfold shown, word in *. nia.
    + intros m s' [-> Hp']. exists (take k (file_data e en)), []. split; [done|]. rewrite length_take, app_nil_r, take_take, Nat.min_id.
      split; [lia|]. done.
Qed.

Lemma dump_entry_prints e en w dirmem dp r s vals :
  entry_good malloc_ok seek_ok file e en w -> 0 <= maxitems e < 2 ^ 32 ->
  PrintData tiff_h (hex_mode e) (e_type en) (Z.to_nat (shown e en)) (e_data en) = Some vals ->
  drop dp dirmem = entry_bytes e en ++ r ->
  must (dump_entry tiff_h swab swab_array malloc_ok seek_ok file curfile e dirmem dp)
    (fun _ s' => prints (entry_line tiff_h e en vals) s s') s.
Proof.
  intros G Hm Hv E. pose proof G as [G1 G2 G3 G4 G5 G6 G7 G8].
  assert (H0 : 0 <= e_type en) by (unfold word in G2; lia).
  pose proof (type_width_width _ w H0 G3) as Hwd. assert (Hw0 : 0 <= w) by (unfold width in Hwd; lia).
  assert (Hc8 : word 8 (e_count en)) by (eapply word_mono; [|exact G4]; unfold off_width; destruct (bigtiff e); lia).
  unfold entry_bytes in E. rewrite <- !app_assoc in E.
  assert (Hne : forall w z, (0 < w)%nat -> to_file e w z <> []).
  { intros w' z Hw' Hnil. pose proof (to_file_length e w' z) as Hl. rewrite Hnil in Hl. cbn in Hl. lia. }
  pose proof (drop_app_next _ _ _ _ 2%nat E (to_file_length _ _ _)) as E2.
  pose proof (drop_app_next _ _ _ _ 2%nat E2 (to_file_length _ _ _)) as E3.
  pose proof (drop_app_next _ _ _ _ _ E3 (to_file_length _ _ _)) as E4.
  unfold dump_entry. fold (off_width e).
  apply must_bind. eapply must_dof; [eapply load_app; [exact E|apply to_file_length|apply Hne; lia]|].
  apply must_bind. eapply must_dof; [eapply load_app; [exact E2|apply to_file_length|apply Hne; lia]|].
  rewrite !scalar_to_file by done. do 4 (apply must_bind, must_printf).
  replace (dp + 2 + 2)%nat with (dp + 4)%nat in * by lia.
  apply must_bind. eapply must_dof; [eapply load_app; [exact E3|apply to_file_length|apply Hne; unfold off_width; destruct (bigtiff e); lia]|].
  rewrite !scalar_to_file by done. apply must_bind, must_printf. apply must_bind. eapply must_dof; [exact G3|].
  rewrite data_extent_small by (done || lia). cbn [x_fits x_size x_count x_trunc]. fold (shown e en).
  assert (Ei : (e_count en * w <=? slot e) = inline e en).
  { rewrite <- G5, slot_off_width. unfold inline. destruct (Nat.leb_spec (length (e_data en)) (off_width e)); lia. }
  rewrite Ei. apply must_bind. eapply must_mono; [by eapply datamem_ok; [exact G|done|lia|exact E4]|].
  intros m s1 (m' & r' & -> & Hl & Et & Hp). apply must_bind.
  assert (Hsh : 0 <= shown e en <= e_count en /\ shown e en < 2 ^ 32) by (unfold shown; unfold word in Hc8; lia).
  assert (Hu : u32 (shown e en) = shown e en) by (unfold u32; apply Z.mod_small; lia). rewrite Hu.
  destruct (print_file_data e en w m' r' vals) as (m2 & -> & Ep); [first [done|lia]..|].
  apply must_bind, must_ret. apply must_bind. eapply must_dof; [exact Ep|]. apply must_bind, must_printf.
  destruct Hp as [Ho He]. unfold entry_line, prints.
  destruct (maxitems e <? e_count en); [apply must_printf|apply must_ret]; apply must_printf; cbn [out errs];
    rewrite Ho, He; cbn [out errs]; (split; [|done]); rewrite <- !app_assoc; reflexivity.
Qed.

(** The line of an entry, with its values. *)
Definition line (e : env) (en : entry) : bytes :=
  entry_line tiff_h e en
    (default [] (PrintData tiff_h (hex_mode e) (e_type en) (Z.to_nat (shown e en)) (e_data en))).

Definition good (e : env) (en : entry) : Prop := exists w, entry_good malloc_ok seek_ok file e en w.

Lemma entry_bytes_length e en : good e en -> length (entry_bytes e en) = entry_size e.
Proof.
  intros [w [G1 G2 G3 G4 G5 G6 G7 G8]]. unfold entry_bytes. rewrite !length_app, !to_file_length, entry_size_split.
  destruct (inline e en) eqn:Ei; [|rewrite to_file_length; lia]. unfold inline in Ei. apply Nat.leb_le in Ei.
  rewrite length_app, length_replicate. unfold file_data. destruct (swabflag e); [|lia].
  rewrite swabs_length; [lia|]. unfold entry_units. pose proof (unit_width _ w (proj1 G2) G3). unfold word in G4.
  pose proof (type_width_width _ w (proj1 G2) G3) as Hwd. unfold width in Hwd. nia.
Qed.

Lemma dump_good_entry e en dirmem dp r s :
  good e en -> 0 <= maxitems e < 2 ^ 32 -> drop dp dirmem = entry_bytes e en ++ r ->
  must (dump_entry tiff_h swab swab_array malloc_ok seek_ok file curfile e dirmem dp)
    (fun _ s' => prints (line e en) s s') s.
Proof.
  intros [w G] Hm E. pose proof G as [G1 G2 G3 G4 G5 G6 G7 G8]. pose proof (type_width_width _ w (proj1 G2) G3) as Hwd.
  destruct (PrintData_ok _ _ _ LT (hex_mode e) (e_type en) w (Z.to_nat (shown e en)) (e_data en) (proj1 G2) G3) as [v Hv].
  { unfold shown, word, width in *. nia. }
  unfold line. rewrite Hv. by eapply dump_entry_prints.
Qed.

Lemma dump_entries_prints e ens dirmem dp r s :
  List.Forall (good e) ens -> 0 <= maxitems e < 2 ^ 32 -> drop dp dirmem = flat_map (entry_bytes e) ens ++ r ->
  must (dump_entries tiff_h swab swab_array malloc_ok seek_ok file curfile (length ens) e dirmem dp)
    (fun _ s' => prints (flat_map (line e) ens) s s') s.
Proof.
  intros H Hm. revert dp s. induction H as [|en ens He _ IH]; intros dp s E; cbn [length dump_entries flat_map] in *.
  { apply must_ret. split; [by rewrite app_nil_r|done]. }
  rewrite <- app_assoc in E. apply must_bind. eapply must_mono; [by eapply dump_good_entry|]. intros [] s1 Hp.
  fold (entry_size e). eapply must_mono.
  - apply IH. eapply drop_app_next; [exact E|by apply entry_bytes_length].
  - intros [] s2 Hp2. by eapply prints_app.
Qed.

Definition count_width (e : env) : nat := if bigtiff e then 8 else 2.

(** A directory: the number of entries, the entries, the next directory. *)
Definition dir_bytes (e : env) (ens : list entry) (next : Z) : bytes :=
  to_file e (count_width e) (Z.of_nat (length ens)) ++ flat_map (entry_bytes e) ens ++ to_file e (off_width e) next.

Definition dir_line (ix off next : Z) : bytes :=
  bs "Directory " ++ print_base 10 ix ++ bs ": offset " ++ print_base 10 off ++
  bs " (" ++ print_hx off ++ bs ") next " ++ print_base 10 next ++ bs " (" ++ print_hx next ++ bs ")" ++ [10].

Lemma entries_length e ens :
  List.Forall (good e) ens -> length (flat_map (entry_bytes e) ens) = (length ens * entry_size e)%nat.
Proof.
  induction 1 as [|en ens He _ IH]; [done|]. cbn [flat_map length]. rewrite length_app, IH, entry_bytes_length by done. lia.
Qed.

Lemma read_dircount_at e n s r :
  word 2 n -> drop (Z.to_nat (pos s)) file = to_file e (count_width e) n ++ r ->
  read_dircount swab file curfile e s =
  DRet (Some n) (Dst (pos s + Z.of_nat (count_width e)) (out s) (errs s)).
Proof.
  intros Hn E. unfold read_dircount, dbind. fold (count_width e).
  rewrite (read_at _ _ _ _ E) by (by rewrite to_file_length). rewrite to_file_length, Nat.eqb_refl. cbn [negb].
  rewrite scalar_to_file by (eapply word_mono; [|exact Hn]; unfold count_width; destruct (bigtiff e); lia).
  unfold word in Hn. replace (65535 <? n) with false by lia. by rewrite andb_false_r.
Qed.

Lemma read_next_at e n s r :
  word (off_width e) n -> drop (Z.to_nat (pos s)) file = to_file e (off_width e) n ++ r ->
  read_next swab file e s = DRet n (Dst (pos s + Z.of_nat (off_width e)) (out s) (errs s)).
Proof.
  intros Hn E. unfold read_next, dbind. fold (off_width e).
  rewrite (read_at _ _ _ _ E) by (by rewrite to_file_length). rewrite to_file_length, Nat.eqb_refl.
  by rewrite scalar_to_file.
Qed.

(** A directory read at the position [p] that lseek leaves. *)
Lemma directory_prints e ix off p ens next s :
  List.Forall (good e) ens -> Z.of_nat (length ens) < 65536 -> 0 <= maxitems e < 2 ^ 32 ->
  word (off_width e) next -> off <> 0 -> at_off file p (dir_bytes e ens next) ->
  lseek seek_ok off s = DRet true (Dst p (out s) (errs s)) ->
  malloc_ok (Z.of_nat (length ens) * Z.of_nat (entry_size e)) = true ->
  must (ReadDirectory tiff_h swab swab_array malloc_ok seek_ok file curfile e ix off)
    (fun n s' => n = next /\ prints (dir_line ix off next ++ flat_map (line e) ens) s s') s.
Proof.
  intros Hg Hlen Hm Hn Hoff [Ho [r E]] Hs Hma. unfold dir_bytes in E. rewrite <- !app_assoc in E.
  assert (Hw2 : word 2 (Z.of_nat (length ens))) by (unfold word; lia).
  set (n := Z.of_nat (length ens)) in *. unfold ReadDirectory. replace (off =? 0) with false by lia.
  apply must_bind. eexists _, _. split; [exact Hs|]. cbn [negb].
  apply must_bind. eexists _, _. split; [eapply read_dircount_at; [exact Hw2|exact E]|]. cbn [pos out errs].
  assert (Es : (if bigtiff e then 20 else 12) = Z.of_nat (entry_size e)) by (unfold entry_size; by destruct (bigtiff e)).
  assert (Hes : 12 <= Z.of_nat (entry_size e) <= 20) by (unfold entry_size; destruct (bigtiff e); lia).
  rewrite Es. rewrite TIFFSafeMultiply_spec by (unfold word; lia).
  replace (n * Z.of_nat (entry_size e) <? 2 ^ 64) with true by nia. rewrite Hma. cbn [negb].
  pose proof (drop_app_next _ _ _ _ _ E (to_file_length _ _ _)) as E2.
  pose proof (drop_app_next _ _ _ _ _ E2 eq_refl) as E3.
  pose proof (entries_length e ens Hg) as Hel.
  assert (Hmul : n * Z.of_nat (entry_size e) = Z.of_nat (length ens * entry_size e)) by (unfold n; lia).
  rewrite Hmul. apply must_bind. eexists _, _. split.
  { apply (read_at _ _ (flat_map (entry_bytes e) ens) (to_file e (off_width e) next ++ r)); cbn [pos].
    - by replace (Z.to_nat (p + Z.of_nat (count_width e))) with (Z.to_nat p + count_width e)%nat by lia.
    - rewrite Hel. lia. }
  rewrite Hel, Z.eqb_refl. cbn [negb pos out errs].
  apply must_bind, must_bind. eexists _, _. split.
  { eapply (read_next_at _ next _ r Hn). cbn [pos].
    by replace (Z.to_nat (p + Z.of_nat (count_width e) + Z.of_nat (length ens * entry_size e)))
      with (Z.to_nat p + count_width e + length (flat_map (entry_bytes e) ens))%nat by (rewrite Hel; lia). }
  apply must_ret. apply must_bind, must_printf. cbn [pos out errs]. apply must_bind. unfold n. rewrite Nat2Z.id.
  eapply must_mono; [apply (dump_entries_prints e ens _ 0 []); [done|done|by rewrite drop_0, app_nil_r]|].
  intros [] s' [Hp1 Hp2]. apply must_ret. split; [done|]. split; [|done]. rewrite Hp1. cbn [out].
  unfold dir_line. by rewrite <- !app_assoc.
Qed.

End Printing.

(** ** main *)

Lemma num_of_digits_nonneg b ds : 0 <= b -> 0 <= num_of_digits b ds.
Proof.
  intros Hb. unfold num_of_digits. cut (forall acc, 0 <= acc -> 0 <= fold_left (fun acc c => acc * b +
    match digit_val c with Some d => d | None => 0 end) ds acc); [intros H; apply H; lia|].
  induction ds as [|c ds IH]; intros acc Hacc; [done|]. cbn [fold_left]. apply IH.
  destruct (digit_val c) as [d|] eqn:E; [|nia]. unfold digit_val, isdigit, isupper, islower in E.
  repeat (case_if; bsimp; simplify_eq); nia.
Qed.

Lemma strtoul0_word s : word 8 (strtoul0 s).
Proof.
  unfold strtoul0. set (base := match _ with [] => 10 | _ => _ end).
  assert (Hb : 0 <= base) by (unfold base; repeat case_match; lia). clearbody base. unfold strtoul.
  destruct (span _ (skip_prefix_0x _ _)) as [ds rest]. destruct ds as [|d ds]; [done|].
  pose proof (num_of_digits_nonneg base (d :: ds) Hb). unfold word, u64, ULONG_MAX in *.
  case_if; cbn [fst]; [lia|]. bsimp. case_if; [apply Z.mod_pos_bound; lia|lia].
Qed.

Section MainProofs.
Context (tiff_h : String.string -> Z) (swab : nat -> bytes -> bytes) (swab_array : nat -> nat -> bytes -> bytes).
Hypothesis LT : libtiff_ok tiff_h swab swab_array.
Context (malloc_ok : Z -> bool) (seek_ok : Z -> bool) (open : bytes -> option bytes) (appname errstr : bytes).
Hypothesis open_bytes : forall f c, open f = Some c -> List.Forall is_byte c.

Lemma do_options_ok o l s :
  word 8 (o_off o) -> 0 <= o_max o < 2 ^ 32 ->
  ok (do_options appname o l) (fun o' _ => word 8 (o_off o') /\ 0 <= o_max o' < 2 ^ 32) s.
Proof.
  revert o. induction l as [|[c a] l IH]; intros o Ho Hm; cbn [do_options]; [by apply ok_ret|].
  repeat case_if; [apply IH..|unfold usage; ok_steps]; cbn [o_off o_max]; try done.
  - apply strtoul0_word.
  - unfold u32. apply Z.mod_pos_bound. lia.
Qed.

Lemma dump_files_ok multiplefiles o files s :
  word 8 (o_off o) -> 0 <= o_max o < 2 ^ 32 ->
  ok (dump_files tiff_h swab swab_array malloc_ok seek_ok open appname errstr multiplefiles o files) (fun _ _ => True) s.
Proof.
  intros Ho Hm. revert s. induction files as [|f files IH]; intros s; cbn [dump_files]; [by apply ok_ret|].
  destruct (open f) as [c|] eqn:E; [|ok_steps]. apply ok_bind.
  eapply ok_mono with (Q := fun _ _ => True); [by case_if; ok_steps|]. intros [] s1 _. apply ok_bind.
  eapply ok_mono; [by apply dump_ok; [done|by eapply open_bytes|..]|]. intros [] s2 _. apply IH.
Qed.

Lemma main_ok argc l files s :
  ok (main tiff_h swab swab_array malloc_ok seek_ok open appname errstr argc l files) (fun r _ => r = 0) s.
Proof.
  unfold main. apply ok_bind. eapply ok_mono; [apply do_options_ok; [done|cbn; lia]|].
  intros o s1 [Ho Hm]. destruct files as [|f files]; [unfold usage; ok_steps|].
  apply ok_bind. eapply ok_mono; [by apply dump_files_ok|]. intros [] s2 _. by apply ok_ret.
Qed.
End MainProofs.

(** ** A libtiff for the examples *)

Definition demo_table : list (String.string * Z) :=
  (type_codes ++ [("TIFF_BIGENDIAN", 19789); ("TIFF_LITTLEENDIAN", 18761); ("MDI_LITTLEENDIAN", 20549);
   ("MDI_BIGENDIAN", 17744); ("TIFFTAG_IMAGEWIDTH", 256); ("TIFFTAG_SOFTWARE", 305)])%string%list.

Fixpoint assoc (t : list (String.string * Z)) (n : String.string) : Z :=
  match t with
  | [] => -1
  | (m, c) :: t => if String.eqb m n then c else assoc t n
  end.

Definition demo_h : String.string -> Z := assoc demo_table.
Definition demo_swab (w : nat) (b : bytes) : bytes := reverse b.

Lemma demo_libtiff : libtiff_ok demo_h demo_swab swabs.
Proof.
  split; [|done|done]. assert (H : List.Forall (fun p => demo_h (fst p) = snd p) type_codes) by (repeat constructor).
  rewrite List.Forall_forall in H. intros n c Hin. apply (H (n, c)). by apply list_elem_of_In.
Qed.

(** A big-endian file of 64 bytes: the header, one directory at 8 with a width and
    a program name stored at 38. *)
Definition demo_env : env := Env true false false 24.

Definition demo_entries : list entry :=
  [Entry 256 3 1 [64; 1] 0; Entry 305 2 6 (bs "indent") 38].

Definition demo_file : bytes :=
  [77; 77; 0; 42; 0; 0; 0; 8] ++ dir_bytes demo_env demo_entries 0 ++ bs "indent" ++ replicate 20 0.

(** ** Properties *)


Definition demo_open (f : bytes) : option bytes := if bool_decide (f = bs "a.tif") then Some demo_file else None.

Lemma demo_bytes x : In x demo_file -> is_byte x.
Proof.
  assert (H : forallb (fun c => (0 <=? c) && (c <? 256)) demo_file = true) by (vm_compute; reflexivity).
  rewrite forallb_forall in H. intros Hx. specialize (H x Hx). unfold is_byte. lia.
Qed.




(** The value lseek returns for an error is taken for success when the offset
    asked for is 2^64 - 1: whatever directory lies at the current position is
    printed as the one at that offset, without a diagnostic. *)
Theorem seek_error_missed tiff_h swab swab_array malloc_ok seek_ok file curfile e ix ens next s :
  libtiff_ok tiff_h swab swab_array ->
  List.Forall (good malloc_ok seek_ok file e) ens -> Z.of_nat (length ens) < 65536 -> 0 <= maxitems e < 2 ^ 32 ->
  word (off_width e) next -> at_off file (pos s) (dir_bytes e ens next) ->
  malloc_ok (Z.of_nat (length ens) * Z.of_nat (entry_size e)) = true ->
  exists s', ReadDirectory tiff_h swab swab_array malloc_ok seek_ok file curfile e ix (2 ^ 64 - 1) s = DRet next s' /\
    out s' = out s ++ dir_line ix (2 ^ 64 - 1) next ++ flat_map (line tiff_h e) ens /\ errs s' = errs s.
Proof.
  intros LT H1 H2 H3 H4 H5 H6.
  destruct (directory_prints tiff_h swab swab_array LT malloc_ok seek_ok file curfile e ix (2 ^ 64 - 1) (pos s) ens next s H1 H2 H3 H4)
    as (n & s' & E & -> & Hp); [done|done|by destruct s|done|]. by exists s'.
Qed.

Definition big_env : env := Env false true false 24.
Definition big_file : bytes := dir_bytes big_env [Entry 256 3 1 [64; 1] 0] 0.

Lemma seek_error_witness :
  exists s', ReadDirectory demo_h demo_swab swabs (fun _ => true) (fun _ => true) big_file (bs "b.tif") big_env 0 (2 ^ 64 - 1)
               (Dst 0 [] []) = DRet 0 s' /\
    out s' = [] ++ dir_line 0 (2 ^ 64 - 1) 0 ++ flat_map (line demo_h big_env) [Entry 256 3 1 [64; 1] 0] /\ errs s' = [].
Proof.
  apply (seek_error_missed demo_h demo_swab swabs (fun _ => true) (fun _ => true) big_file (bs "b.tif")
    big_env 0 [Entry 256 3 1 [64; 1] 0] 0 (Dst 0 [] [])); [exact demo_libtiff| |vm_compute; reflexivity|cbn; lia|
    vm_compute; split; [discriminate|reflexivity]| |reflexivity].
  - repeat constructor. exists 2; split; vm_compute; (reflexivity || discriminate || (split; [discriminate|reflexivity])).
  - split; [cbn; lia|]. exists []. reflexivity.
Defined.

End TiffDump.
