(* ===== verification/EeState.v ===== *)
(** * ee(1): state

    The globals of src/bsd_additions/ee/ee.c that the editing commands read and
    write, and the memory they work on.  A [struct text] is a node of a heap; its
    [line] is the allocated block, of [max_length] bytes, of which the first
    [line_length - 1] are the text.  The pointer [point] always points into the
    block of [curr_line] and is the offset in it.  The windows of curses are not
    part of the state: drawing is the reading of a line, and [overread] records
    that it left the block. *)

From S2P Require Import Prelude Monad.
From stdpp Require Import base list gmap numbers.
From Stdlib Require Import ZArith Lia.

Open Scope Z_scope.

Module EeState.

(** struct text *)
Record text := Text {
  line : bytes;  (* the block of max_length bytes *)
  line_number : Z;
  line_length : Z;
  max_length : Z;
  next_line : option nat;
  prev_line : option nat
}.

#[export] Instance set_line : Setter line := fun h r => Text (h (line r)) (line_number r) (line_length r) (max_length r) (next_line r) (prev_line r).
#[export] Instance set_line_number : Setter line_number := fun h r => Text (line r) (h (line_number r)) (line_length r) (max_length r) (next_line r) (prev_line r).
#[export] Instance set_line_length : Setter line_length := fun h r => Text (line r) (line_number r) (h (line_length r)) (max_length r) (next_line r) (prev_line r).
#[export] Instance set_max_length : Setter max_length := fun h r => Text (line r) (line_number r) (line_length r) (h (max_length r)) (next_line r) (prev_line r).
#[export] Instance set_next_line : Setter next_line := fun h r => Text (line r) (line_number r) (line_length r) (max_length r) (h (next_line r)) (prev_line r).
#[export] Instance set_prev_line : Setter prev_line := fun h r => Text (line r) (line_number r) (line_length r) (max_length r) (next_line r) (h (prev_line r)).

(** The globals *)
Record ee := Ee {
  heap : gmap nat text;  (* the allocated struct text *)
  fresh_loc : nat;  (* the next address malloc gives *)
  first_line : nat;
  curr_line : nat;
  dlt_length : Z;  (* dlt_line->line_length *)
  d_wrd_len : Z;
  position : Z;
  point : Z;  (* offset of point in curr_line->line *)
  scr_pos : Z;
  scr_vert : Z;
  scr_horz : Z;
  absolute_lin : Z;
  case_sen : bool;
  last_line : Z;
  last_col : Z;
  COLS : Z;
  horiz_offset : Z;
  text_changes : bool;
  expand_tabs : bool;
  right_margin : Z;
  observ_margins : bool;
  formatted : bool;
  auto_format : bool;
  eightbit : bool;
  ee_chinese : bool;
  d_char : bytes;
  d_word : option bytes;
  d_line : option bytes;
  srch_str : option bytes;
  u_srch_str : option bytes;
  in_ : Z;  (* in *)
  in_string : bytes;
  overread : bool  (* draw_line has read outside a line *)
}.

#[export] Instance set_heap : Setter heap := fun h r => Ee (h (heap r)) (fresh_loc r) (first_line r) (curr_line r) (dlt_length r) (d_wrd_len r) (position r) (point r) (scr_pos r) (scr_vert r) (scr_horz r) (absolute_lin r) (case_sen r) (last_line r) (last_col r) (COLS r) (horiz_offset r) (text_changes r) (expand_tabs r) (right_margin r) (observ_margins r) (formatted r) (auto_format r) (eightbit r) (ee_chinese r) (d_char r) (d_word r) (d_line r) (srch_str r) (u_srch_str r) (in_ r) (in_string r) (overread r).
#[export] Instance set_fresh_loc : Setter fresh_loc := fun h r => Ee (heap r) (h (fresh_loc r)) (first_line r) (curr_line r) (dlt_length r) (d_wrd_len r) (position r) (point r) (scr_pos r) (scr_vert r) (scr_horz r) (absolute_lin r) (case_sen r) (last_line r) (last_col r) (COLS r) (horiz_offset r) (text_changes r) (expand_tabs r) (right_margin r) (observ_margins r) (formatted r) (auto_format r) (eightbit r) (ee_chinese r) (d_char r) (d_word r) (d_line r) (srch_str r) (u_srch_str r) (in_ r) (in_string r) (overread r).
#[export] Instance set_first_line : Setter first_line := fun h r => Ee (heap r) (fresh_loc r) (h (first_line r)) (curr_line r) (dlt_length r) (d_wrd_len r) (position r) (point r) (scr_pos r) (scr_vert r) (scr_horz r) (absolute_lin r) (case_sen r) (last_line r) (last_col r) (COLS r) (horiz_offset r) (text_changes r) (expand_tabs r) (right_margin r) (observ_margins r) (formatted r) (auto_format r) (eightbit r) (ee_chinese r) (d_char r) (d_word r) (d_line r) (srch_str r) (u_srch_str r) (in_ r) (in_string r) (overread r).
#[export] Instance set_curr_line : Setter curr_line := fun h r => Ee (heap r) (fresh_loc r) (first_line r) (h (curr_line r)) (dlt_length r) (d_wrd_len r) (position r) (point r) (scr_pos r) (scr_vert r) (scr_horz r) (absolute_lin r) (case_sen r) (last_line r) (last_col r) (COLS r) (horiz_offset r) (text_changes r) (expand_tabs r) (right_margin r) (observ_margins r) (formatted r) (auto_format r) (eightbit r) (ee_chinese r) (d_char r) (d_word r) (d_line r) (srch_str r) (u_srch_str r) (in_ r) (in_string r) (overread r).
#[export] Instance set_dlt_length : Setter dlt_length := fun h r => Ee (heap r) (fresh_loc r) (first_line r) (curr_line r) (h (dlt_length r)) (d_wrd_len r) (position r) (point r) (scr_pos r) (scr_vert r) (scr_horz r) (absolute_lin r) (case_sen r) (last_line r) (last_col r) (COLS r) (horiz_offset r) (text_changes r) (expand_tabs r) (right_margin r) (observ_margins r) (formatted r) (auto_format r) (eightbit r) (ee_chinese r) (d_char r) (d_word r) (d_line r) (srch_str r) (u_srch_str r) (in_ r) (in_string r) (overread r).
#[export] Instance set_d_wrd_len : Setter d_wrd_len := fun h r => Ee (heap r) (fresh_loc r) (first_line r) (curr_line r) (dlt_length r) (h (d_wrd_len r)) (position r) (point r) (scr_pos r) (scr_vert r) (scr_horz r) (absolute_lin r) (case_sen r) (last_line r) (last_col r) (COLS r) (horiz_offset r) (text_changes r) (expand_tabs r) (right_margin r) (observ_margins r) (formatted r) (auto_format r) (eightbit r) (ee_chinese r) (d_char r) (d_word r) (d_line r) (srch_str r) (u_srch_str r) (in_ r) (in_string r) (overread r).
#[export] Instance set_position : Setter position := fun h r => Ee (heap r) (fresh_loc r) (first_line r) (curr_line r) (dlt_length r) (d_wrd_len r) (h (position r)) (point r) (scr_pos r) (scr_vert r) (scr_horz r) (absolute_lin r) (case_sen r) (last_line r) (last_col r) (COLS r) (horiz_offset r) (text_changes r) (expand_tabs r) (right_margin r) (observ_margins r) (formatted r) (auto_format r) (eightbit r) (ee_chinese r) (d_char r) (d_word r) (d_line r) (srch_str r) (u_srch_str r) (in_ r) (in_string r) (overread r).
#[export] Instance set_point : Setter point := fun h r => Ee (heap r) (fresh_loc r) (first_line r) (curr_line r) (dlt_length r) (d_wrd_len r) (position r) (h (point r)) (scr_pos r) (scr_vert r) (scr_horz r) (absolute_lin r) (case_sen r) (last_line r) (last_col r) (COLS r) (horiz_offset r) (text_changes r) (expand_tabs r) (right_margin r) (observ_margins r) (formatted r) (auto_format r) (eightbit r) (ee_chinese r) (d_char r) (d_word r) (d_line r) (srch_str r) (u_srch_str r) (in_ r) (in_string r) (overread r).
#[export] Instance set_scr_pos : Setter scr_pos := fun h r => Ee (heap r) (fresh_loc r) (first_line r) (curr_line r) (dlt_length r) (d_wrd_len r) (position r) (point r) (h (scr_pos r)) (scr_vert r) (scr_horz r) (absolute_lin r) (case_sen r) (last_line r) (last_col r) (COLS r) (horiz_offset r) (text_changes r) (expand_tabs r) (right_margin r) (observ_margins r) (formatted r) (auto_format r) (eightbit r) (ee_chinese r) (d_char r) (d_word r) (d_line r) (srch_str r) (u_srch_str r) (in_ r) (in_string r) (overread r).
#[export] Instance set_scr_vert : Setter scr_vert := fun h r => Ee (heap r) (fresh_loc r) (first_line r) (curr_line r) (dlt_length r) (d_wrd_len r) (position r) (point r) (scr_pos r) (h (scr_vert r)) (scr_horz r) (absolute_lin r) (case_sen r) (last_line r) (last_col r) (COLS r) (horiz_offset r) (text_changes r) (expand_tabs r) (right_margin r) (observ_margins r) (formatted r) (auto_format r) (eightbit r) (ee_chinese r) (d_char r) (d_word r) (d_line r) (srch_str r) (u_srch_str r) (in_ r) (in_string r) (overread r).
#[export] Instance set_scr_horz : Setter scr_horz := fun h r => Ee (heap r) (fresh_loc r) (first_line r) (curr_line r) (dlt_length r) (d_wrd_len r) (position r) (point r) (scr_pos r) (scr_vert r) (h (scr_horz r)) (absolute_lin r) (case_sen r) (last_line r) (last_col r) (COLS r) (horiz_offset r) (text_changes r) (expand_tabs r) (right_margin r) (observ_margins r) (formatted r) (auto_format r) (eightbit r) (ee_chinese r) (d_char r) (d_word r) (d_line r) (srch_str r) (u_srch_str r) (in_ r) (in_string r) (overread r).
#[export] Instance set_absolute_lin : Setter absolute_lin := fun h r => Ee (heap r) (fresh_loc r) (first_line r) (curr_line r) (dlt_length r) (d_wrd_len r) (position r) (point r) (scr_pos r) (scr_vert r) (scr_horz r) (h (absolute_lin r)) (case_sen r) (last_line r) (last_col r) (COLS r) (horiz_offset r) (text_changes r) (expand_tabs r) (right_margin r) (observ_margins r) (formatted r) (auto_format r) (eightbit r) (ee_chinese r) (d_char r) (d_word r) (d_line r) (srch_str r) (u_srch_str r) (in_ r) (in_string r) (overread r).
#[export] Instance set_case_sen : Setter case_sen := fun h r => Ee (heap r) (fresh_loc r) (first_line r) (curr_line r) (dlt_length r) (d_wrd_len r) (position r) (point r) (scr_pos r) (scr_vert r) (scr_horz r) (absolute_lin r) (h (case_sen r)) (last_line r) (last_col r) (COLS r) (horiz_offset r) (text_changes r) (expand_tabs r) (right_margin r) (observ_margins r) (formatted r) (auto_format r) (eightbit r) (ee_chinese r) (d_char r) (d_word r) (d_line r) (srch_str r) (u_srch_str r) (in_ r) (in_string r) (overread r).
#[export] Instance set_last_line : Setter last_line := fun h r => Ee (heap r) (fresh_loc r) (first_line r) (curr_line r) (dlt_length r) (d_wrd_len r) (position r) (point r) (scr_pos r) (scr_vert r) (scr_horz r) (absolute_lin r) (case_sen r) (h (last_line r)) (last_col r) (COLS r) (horiz_offset r) (text_changes r) (expand_tabs r) (right_margin r) (observ_margins r) (formatted r) (auto_format r) (eightbit r) (ee_chinese r) (d_char r) (d_word r) (d_line r) (srch_str r) (u_srch_str r) (in_ r) (in_string r) (overread r).
#[export] Instance set_last_col : Setter last_col := fun h r => Ee (heap r) (fresh_loc r) (first_line r) (curr_line r) (dlt_length r) (d_wrd_len r) (position r) (point r) (scr_pos r) (scr_vert r) (scr_horz r) (absolute_lin r) (case_sen r) (last_line r) (h (last_col r)) (COLS r) (horiz_offset r) (text_changes r) (expand_tabs r) (right_margin r) (observ_margins r) (formatted r) (auto_format r) (eightbit r) (ee_chinese r) (d_char r) (d_word r) (d_line r) (srch_str r) (u_srch_str r) (in_ r) (in_string r) (overread r).
#[export] Instance set_COLS : Setter COLS := fun h r => Ee (heap r) (fresh_loc r) (first_line r) (curr_line r) (dlt_length r) (d_wrd_len r) (position r) (point r) (scr_pos r) (scr_vert r) (scr_horz r) (absolute_lin r) (case_sen r) (last_line r) (last_col r) (h (COLS r)) (horiz_offset r) (text_changes r) (expand_tabs r) (right_margin r) (observ_margins r) (formatted r) (auto_format r) (eightbit r) (ee_chinese r) (d_char r) (d_word r) (d_line r) (srch_str r) (u_srch_str r) (in_ r) (in_string r) (overread r).
#[export] Instance set_horiz_offset : Setter horiz_offset := fun h r => Ee (heap r) (fresh_loc r) (first_line r) (curr_line r) (dlt_length r) (d_wrd_len r) (position r) (point r) (scr_pos r) (scr_vert r) (scr_horz r) (absolute_lin r) (case_sen r) (last_line r) (last_col r) (COLS r) (h (horiz_offset r)) (text_changes r) (expand_tabs r) (right_margin r) (observ_margins r) (formatted r) (auto_format r) (eightbit r) (ee_chinese r) (d_char r) (d_word r) (d_line r) (srch_str r) (u_srch_str r) (in_ r) (in_string r) (overread r).
#[export] Instance set_text_changes : Setter text_changes := fun h r => Ee (heap r) (fresh_loc r) (first_line r) (curr_line r) (dlt_length r) (d_wrd_len r) (position r) (point r) (scr_pos r) (scr_vert r) (scr_horz r) (absolute_lin r) (case_sen r) (last_line r) (last_col r) (COLS r) (horiz_offset r) (h (text_changes r)) (expand_tabs r) (right_margin r) (observ_margins r) (formatted r) (auto_format r) (eightbit r) (ee_chinese r) (d_char r) (d_word r) (d_line r) (srch_str r) (u_srch_str r) (in_ r) (in_string r) (overread r).
#[export] Instance set_expand_tabs : Setter expand_tabs := fun h r => Ee (heap r) (fresh_loc r) (first_line r) (curr_line r) (dlt_length r) (d_wrd_len r) (position r) (point r) (scr_pos r) (scr_vert r) (scr_horz r) (absolute_lin r) (case_sen r) (last_line r) (last_col r) (COLS r) (horiz_offset r) (text_changes r) (h (expand_tabs r)) (right_margin r) (observ_margins r) (formatted r) (auto_format r) (eightbit r) (ee_chinese r) (d_char r) (d_word r) (d_line r) (srch_str r) (u_srch_str r) (in_ r) (in_string r) (overread r).
#[export] Instance set_right_margin : Setter right_margin := fun h r => Ee (heap r) (fresh_loc r) (first_line r) (curr_line r) (dlt_length r) (d_wrd_len r) (position r) (point r) (scr_pos r) (scr_vert r) (scr_horz r) (absolute_lin r) (case_sen r) (last_line r) (last_col r) (COLS r) (horiz_offset r) (text_changes r) (expand_tabs r) (h (right_margin r)) (observ_margins r) (formatted r) (auto_format r) (eightbit r) (ee_chinese r) (d_char r) (d_word r) (d_line r) (srch_str r) (u_srch_str r) (in_ r) (in_string r) (overread r).
#[export] Instance set_observ_margins : Setter observ_margins := fun h r => Ee (heap r) (fresh_loc r) (first_line r) (curr_line r) (dlt_length r) (d_wrd_len r) (position r) (point r) (scr_pos r) (scr_vert r) (scr_horz r) (absolute_lin r) (case_sen r) (last_line r) (last_col r) (COLS r) (horiz_offset r) (text_changes r) (expand_tabs r) (right_margin r) (h (observ_margins r)) (formatted r) (auto_format r) (eightbit r) (ee_chinese r) (d_char r) (d_word r) (d_line r) (srch_str r) (u_srch_str r) (in_ r) (in_string r) (overread r).
#[export] Instance set_formatted : Setter formatted := fun h r => Ee (heap r) (fresh_loc r) (first_line r) (curr_line r) (dlt_length r) (d_wrd_len r) (position r) (point r) (scr_pos r) (scr_vert r) (scr_horz r) (absolute_lin r) (case_sen r) (last_line r) (last_col r) (COLS r) (horiz_offset r) (text_changes r) (expand_tabs r) (right_margin r) (observ_margins r) (h (formatted r)) (auto_format r) (eightbit r) (ee_chinese r) (d_char r) (d_word r) (d_line r) (srch_str r) (u_srch_str r) (in_ r) (in_string r) (overread r).
#[export] Instance set_auto_format : Setter auto_format := fun h r => Ee (heap r) (fresh_loc r) (first_line r) (curr_line r) (dlt_length r) (d_wrd_len r) (position r) (point r) (scr_pos r) (scr_vert r) (scr_horz r) (absolute_lin r) (case_sen r) (last_line r) (last_col r) (COLS r) (horiz_offset r) (text_changes r) (expand_tabs r) (right_margin r) (observ_margins r) (formatted r) (h (auto_format r)) (eightbit r) (ee_chinese r) (d_char r) (d_word r) (d_line r) (srch_str r) (u_srch_str r) (in_ r) (in_string r) (overread r).
#[export] Instance set_eightbit : Setter eightbit := fun h r => Ee (heap r) (fresh_loc r) (first_line r) (curr_line r) (dlt_length r) (d_wrd_len r) (position r) (point r) (scr_pos r) (scr_vert r) (scr_horz r) (absolute_lin r) (case_sen r) (last_line r) (last_col r) (COLS r) (horiz_offset r) (text_changes r) (expand_tabs r) (right_margin r) (observ_margins r) (formatted r) (auto_format r) (h (eightbit r)) (ee_chinese r) (d_char r) (d_word r) (d_line r) (srch_str r) (u_srch_str r) (in_ r) (in_string r) (overread r).
#[export] Instance set_ee_chinese : Setter ee_chinese := fun h r => Ee (heap r) (fresh_loc r) (first_line r) (curr_line r) (dlt_length r) (d_wrd_len r) (position r) (point r) (scr_pos r) (scr_vert r) (scr_horz r) (absolute_lin r) (case_sen r) (last_line r) (last_col r) (COLS r) (horiz_offset r) (text_changes r) (expand_tabs r) (right_margin r) (observ_margins r) (formatted r) (auto_format r) (eightbit r) (h (ee_chinese r)) (d_char r) (d_word r) (d_line r) (srch_str r) (u_srch_str r) (in_ r) (in_string r) (overread r).
#[export] Instance set_d_char : Setter d_char := fun h r => Ee (heap r) (fresh_loc r) (first_line r) (curr_line r) (dlt_length r) (d_wrd_len r) (position r) (point r) (scr_pos r) (scr_vert r) (scr_horz r) (absolute_lin r) (case_sen r) (last_line r) (last_col r) (COLS r) (horiz_offset r) (text_changes r) (expand_tabs r) (right_margin r) (observ_margins r) (formatted r) (auto_format r) (eightbit r) (ee_chinese r) (h (d_char r)) (d_word r) (d_line r) (srch_str r) (u_srch_str r) (in_ r) (in_string r) (overread r).
#[export] Instance set_d_word : Setter d_word := fun h r => Ee (heap r) (fresh_loc r) (first_line r) (curr_line r) (dlt_length r) (d_wrd_len r) (position r) (point r) (scr_pos r) (scr_vert r) (scr_horz r) (absolute_lin r) (case_sen r) (last_line r) (last_col r) (COLS r) (horiz_offset r) (text_changes r) (expand_tabs r) (right_margin r) (observ_margins r) (formatted r) (auto_format r) (eightbit r) (ee_chinese r) (d_char r) (h (d_word r)) (d_line r) (srch_str r) (u_srch_str r) (in_ r) (in_string r) (overread r).
#[export] Instance set_d_line : Setter d_line := fun h r => Ee (heap r) (fresh_loc r) (first_line r) (curr_line r) (dlt_length r) (d_wrd_len r) (position r) (point r) (scr_pos r) (scr_vert r) (scr_horz r) (absolute_lin r) (case_sen r) (last_line r) (last_col r) (COLS r) (horiz_offset r) (text_changes r) (expand_tabs r) (right_margin r) (observ_margins r) (formatted r) (auto_format r) (eightbit r) (ee_chinese r) (d_char r) (d_word r) (h (d_line r)) (srch_str r) (u_srch_str r) (in_ r) (in_string r) (overread r).
#[export] Instance set_srch_str : Setter srch_str := fun h r => Ee (heap r) (fresh_loc r) (first_line r) (curr_line r) (dlt_length r) (d_wrd_len r) (position r) (point r) (scr_pos r) (scr_vert r) (scr_horz r) (absolute_lin r) (case_sen r) (last_line r) (last_col r) (COLS r) (horiz_offset r) (text_changes r) (expand_tabs r) (right_margin r) (observ_margins r) (formatted r) (auto_format r) (eightbit r) (ee_chinese r) (d_char r) (d_word r) (d_line r) (h (srch_str r)) (u_srch_str r) (in_ r) (in_string r) (overread r).
#[export] Instance set_u_srch_str : Setter u_srch_str := fun h r => Ee (heap r) (fresh_loc r) (first_line r) (curr_line r) (dlt_length r) (d_wrd_len r) (position r) (point r) (scr_pos r) (scr_vert r) (scr_horz r) (absolute_lin r) (case_sen r) (last_line r) (last_col r) (COLS r) (horiz_offset r) (text_changes r) (expand_tabs r) (right_margin r) (observ_margins r) (formatted r) (auto_format r) (eightbit r) (ee_chinese r) (d_char r) (d_word r) (d_line r) (srch_str r) (h (u_srch_str r)) (in_ r) (in_string r) (overread r).
#[export] Instance set_in_ : Setter in_ := fun h r => Ee (heap r) (fresh_loc r) (first_line r) (curr_line r) (dlt_length r) (d_wrd_len r) (position r) (point r) (scr_pos r) (scr_vert r) (scr_horz r) (absolute_lin r) (case_sen r) (last_line r) (last_col r) (COLS r) (horiz_offset r) (text_changes r) (expand_tabs r) (right_margin r) (observ_margins r) (formatted r) (auto_format r) (eightbit r) (ee_chinese r) (d_char r) (d_word r) (d_line r) (srch_str r) (u_srch_str r) (h (in_ r)) (in_string r) (overread r).
#[export] Instance set_in_string : Setter in_string := fun h r => Ee (heap r) (fresh_loc r) (first_line r) (curr_line r) (dlt_length r) (d_wrd_len r) (position r) (point r) (scr_pos r) (scr_vert r) (scr_horz r) (absolute_lin r) (case_sen r) (last_line r) (last_col r) (COLS r) (horiz_offset r) (text_changes r) (expand_tabs r) (right_margin r) (observ_margins r) (formatted r) (auto_format r) (eightbit r) (ee_chinese r) (d_char r) (d_word r) (d_line r) (srch_str r) (u_srch_str r) (in_ r) (h (in_string r)) (overread r).
#[export] Instance set_overread : Setter overread := fun h r => Ee (heap r) (fresh_loc r) (first_line r) (curr_line r) (dlt_length r) (d_wrd_len r) (position r) (point r) (scr_pos r) (scr_vert r) (scr_horz r) (absolute_lin r) (case_sen r) (last_line r) (last_col r) (COLS r) (horiz_offset r) (text_changes r) (expand_tabs r) (right_margin r) (observ_margins r) (formatted r) (auto_format r) (eightbit r) (ee_chinese r) (d_char r) (d_word r) (d_line r) (srch_str r) (u_srch_str r) (in_ r) (in_string r) (h (overread r)).

(** ** Access through the monad *)

Abbreviation E := (ST ee).
Local Open Scope ind_scope.

Definition gets {A} (f : ee -> A) : E A := fun s => SRet (f s) s.
Definition sets {A} (f : ee -> A) `{Setter _ _ f} (v : A) : E () := modify (fun s => s <| f := v |>).

(** [p->...]: undefined for a pointer that is not allocated. *)
Definition node (l : nat) : E text := let! h := gets heap in of_opt (h !! l).
Definition set_node (l : nat) (n : text) : E () := modify (fun s => s <| heap ::= <[l := n]> |>).
Definition upd (l : nat) (f : text -> text) : E () := let! n := node l in set_node l (f n).
Definition cur : E text := let! l := gets curr_line in node l.

(** A pointer that may be NULL, dereferenced. *)
Definition deref (p : option nat) : E nat := of_opt p.

(** A byte of a line's block. *)
Definition peek_at (l : nat) (i : Z) : E Z := let! n := node l in of_opt (aget (line n) i).
Definition poke (l : nat) (i c : Z) : E () :=
  let! n := node l in
  let! b := of_opt (aset (line n) i c) in
  set_node l (n <| line := b |>).

(** [point[k]] *)
Definition peek (k : Z) : E Z :=
  let! l := gets curr_line in
  let! p := gets point in
  peek_at l (p + k).

(** ** Memory *)

Section Memory.
(** What malloc leaves in a byte. *)
Context (junk : Z).

Definition malloc (n : Z) : bytes := replicate (Z.to_nat n) junk.
Definition realloc (b : bytes) (n : Z) : bytes :=
  take (Z.to_nat n) b ++ replicate (Z.to_nat n - length b) junk.

(** txtalloc *)
Definition txtalloc : E nat :=
  let! l := gets fresh_loc in
  modify (fun s => s <| fresh_loc := S l |> <| heap ::= <[l := Text [] 0 0 0 None None]> |>) ;;
  ret l.

Definition free_node (l : nat) : E () := node l ;; modify (fun s => s <| heap ::= delete l |>).

(** resiz_line: the offset of the position in the new block. *)
Definition resiz_line (factor : Z) (rline : nat) (rpos : Z) : E Z :=
  let! n := node rline in
  let m := max_length n + factor in
  if m <=? 0 then mundef
  else
    set_node rline (n <| max_length := m |> <| line := realloc (line n) m |>) ;;
    ret (Z.max 0 (rpos - 1)).
End Memory.

(** *** Copying loops *)

(** [n] times [*dst++ = *src++] inside a block. *)
Fixpoint copy_fwd (n : nat) (src dst : Z) (b : bytes) : option bytes :=
  match n with
  | O => Some b
  | S n => match aget b src with
           | Some c => match aset b dst c with
                       | Some b => copy_fwd n (src + 1) (dst + 1) b
                       | None => None
                       end
           | None => None
           end
  end.

(** [n] times [*temp = *(temp - 1); temp--]. *)
Fixpoint shift_up (n : nat) (temp : Z) (b : bytes) : option bytes :=
  match n with
  | O => Some b
  | S n => match aget b (temp - 1) with
           | Some c => match aset b temp c with
                       | Some b => shift_up n (temp - 1) b
                       | None => None
                       end
           | None => None
           end
  end.

(** [n] times [*dst++ = *src++] from one block to another. *)
Fixpoint copy_from (n : nat) (sb : bytes) (src : Z) (b : bytes) (dst : Z) : option bytes :=
  match n with
  | O => Some b
  | S n => match aget sb src with
           | Some c => match aset b dst c with
                       | Some b => copy_from n sb (src + 1) b (dst + 1)
                       | None => None
                       end
           | None => None
           end
  end.

Definition edit_line (l : nat) (f : bytes -> option bytes) : E () :=
  let! n := node l in
  let! b := of_opt (f (line n)) in
  set_node l (n <| line := b |>).

End EeState.
