(* ===== verification/EeEdit.v ===== *)
(** * ee(1): editing commands

    The functions of src/bsd_additions/ee/ee.c that move the cursor and change the
    text.  Calls of curses are left out, except that [draw_line] reads the line it
    draws.  A C while loop is [while_] with a bound on its rounds. *)

From S2P Require Import Prelude Monad EeState.
From stdpp Require Import base list gmap numbers.
From Stdlib Require Import ZArith Lia.

Open Scope Z_scope.

Module EeEdit.

Import EeState.
Local Open Scope ind_scope.

Definition TAB : Z := 9.

(** ** Widths *)

Definition tabshift (temp_int : Z) : Z :=
  let leftover := cmod (temp_int + 1) 8 in
  if leftover =? 0 then 1 else 9 - leftover.

Definition len_char (eb : bool) (character column : Z) : Z :=
  if character =? 9 then tabshift column
  else if (0 <=? character) && (character <? 32) then 2
  else if (32 <=? character) && (character <=? 126) then 1
  else if character =? 127 then 2
  else if ((126 <? character) || (character <? 0)) && negb eb then 5
  else 1.

(** What out_char returns; [None] when its buffer string2[8] overflows. *)
Definition out_char (eb : bool) (character column : Z) : option Z :=
  if character =? TAB then Some (tabshift column)
  else if (0 <=? character) && (character <? 32) then Some 2
  else if (character <? 0) || (127 <=? character) then
    if character =? 127 then Some 2
    else if negb eb then
      let v := if character <? 0 then character + 256 else character in
      let n := Z.of_nat (length (if v <? 0 then 45 :: print_base 10 (- v) else print_base 10 v)) + 2 in
      if n + 1 <=? 8 then Some n else None
    else Some 1
  else Some 1.

(** The width scanline gives a byte of the line. *)
Definition scan_width (eb : bool) (c temp : Z) : Z :=
  if c <=? 8 then 2
  else if c =? 9 then tabshift temp
  else if (10 <=? c) && (c <=? 31) then 2
  else if (32 <=? c) && (c <? 127) then 1
  else if c =? 127 then 2
  else if negb eb then 5
  else 1.

(** The column after the first [n] bytes from [i] on. *)
Fixpoint scan_cols (eb : bool) (n : nat) (i temp : Z) (b : bytes) : option Z :=
  match n with
  | O => Some temp
  | S n => match aget b i with
           | Some c => scan_cols eb n (i + 1) (temp + scan_width eb c temp) b
           | None => None
           end
  end.

(** ** Drawing a line *)

(** The loop over the columns left of the window. *)
Fixpoint skip_hidden (fuel : nat) (eb : bool) (b : bytes) (temp abs_column column posit : Z)
  : option (Z * Z * Z * Z) :=
  if column <? 0 then
    match fuel with
    | O => None
    | S f => match aget b temp with
             | Some c => let d := len_char eb c abs_column in
                         skip_hidden f eb b (temp + 1) (abs_column + d) (column + d) (posit + 1)
             | None => None
             end
    end
  else Some (temp, abs_column, column, posit).

(** The loop over the columns shown: whether every byte read is in the block. *)
Fixpoint draw_shown (fuel : nat) (eb : bool) (b : bytes) (last_col length temp abs_column column posit : Z) : bool :=
  if (posit <? length) && (column <=? last_col) then
    match fuel with
    | O => false
    | S f => match aget b temp with
             | Some c =>
                 let d := if isprint c then 1 else len_char eb c abs_column in
                 draw_shown f eb b last_col length (temp + 1) (abs_column + d) (column + d) (posit + 1)
             | None => false
             end
    end
  else true.

Definition draw_reads (eb : bool) (b : bytes) (horiz_offset last_col horiz ptr t_pos length : Z) : bool :=
  let column := horiz - horiz_offset in
  match skip_hidden (Z.to_nat (- column)) eb b ptr horiz column t_pos with
  | Some (temp, abs_column, column, posit) =>
      draw_shown (Z.to_nat (length - posit)) eb b last_col length temp abs_column column posit
  | None => false
  end.

(** draw_line of a line from offset [ptr] on. *)
Definition draw_line (l : nat) (horiz ptr t_pos length : Z) : E () :=
  let! n := node l in
  let! s := get in
  if draw_reads (eightbit s) (line n) (horiz_offset s) (last_col s) horiz ptr t_pos length then ret tt
  else sets overread true.

Fixpoint draw_screen_loop (fuel : nat) (temp_line : option nat) : E () :=
  match fuel, temp_line with
  | S f, Some l =>
      let! n := node l in
      draw_line l 0 0 1 (line_length n) ;;
      draw_screen_loop f (next_line n)
  | _, _ => ret tt
  end.

Definition draw_screen : E () :=
  let! s := get in
  draw_screen_loop (Z.to_nat (last_line s - scr_vert s + 1)) (Some (curr_line s)).

(** The loop of midscreen that goes up at most [n] lines: how many it went. *)
Fixpoint go_back (n : nat) (i : Z) : E Z :=
  match n with
  | O => ret i
  | S n =>
      let! c := cur in
      match prev_line c with
      | Some p => sets curr_line p ;; go_back n (i + 1)
      | None => ret i
      end
  end.

(** midscreen, given scanline. *)
Definition midscreen_with (scanline : Z -> E ()) (line pnt : Z) : E () :=
  let! s := get in
  let line := Z.min line (last_line s) in
  let mid_line := curr_line s in
  let! i := go_back (Z.to_nat line) 0 in
  sets scr_vert 0 ;; sets scr_horz 0 ;;
  draw_screen ;;
  sets scr_vert i ;;
  sets curr_line mid_line ;;
  scanline pnt.

(** scanline calls midscreen when the column is outside the window, and midscreen
    scanline; with a window of at least 8 columns the second call finds the
    column inside. *)
Fixpoint scanline_loop (fuel : nat) (pos : Z) : E () :=
  let! n := cur in
  let! eb := gets eightbit in
  let! temp := of_opt (scan_cols eb (Z.to_nat pos) 0 0 (line n)) in
  sets scr_horz temp ;;
  let! s := get in
  let again :=
    match fuel with
    | O => mundef
    | S f => midscreen_with (scanline_loop f) (scr_vert s) (point s)
    end in
  if last_col s <? scr_horz s - horiz_offset s then
    sets horiz_offset ((scr_horz s - cmod (scr_horz s) 8) - (COLS s - 8)) ;; again
  else if scr_horz s <? horiz_offset s then
    sets horiz_offset (Z.max 0 (scr_horz s - cmod (scr_horz s) 8)) ;; again
  else ret tt.

Definition scanline (pos : Z) : E () := scanline_loop 3 pos.
Definition midscreen (line pnt : Z) : E () := midscreen_with scanline line pnt.

(** [scr_pos = scr_horz] *)
Definition sync_pos : E () := modify (fun s => s <| scr_pos := scr_horz s |>).

(** [point++, position++] and [point--, position--] *)
Definition step (d : Z) : E () := modify (fun s => s <| point := point s + d |> <| position := position s + d |>).

(** Back to the left edge. *)
Definition reset_offset : E () :=
  let! s := get in
  if negb (horiz_offset s =? 0) then sets horiz_offset 0 ;; midscreen (scr_vert s) (point s) else ret tt.

(** ** Moving *)

Definition nextline : E () :=
  let! c := cur in
  let! l := deref (next_line c) in
  sets curr_line l ;;
  modify (fun s => s <| absolute_lin := absolute_lin s + 1 |> <| point := 0 |> <| position := 1 |>) ;;
  let! s := get in
  let! n := cur in
  if scr_vert s =? last_line s then draw_line l 0 0 1 (line_length n)
  else sets scr_vert (scr_vert s + 1).

Definition prevline : E () :=
  let! c := cur in
  let! l := deref (prev_line c) in
  sets curr_line l ;;
  modify (fun s => s <| absolute_lin := absolute_lin s - 1 |> <| point := 0 |> <| position := 1 |>) ;;
  let! s := get in
  let! n := cur in
  (if scr_vert s =? 0 then draw_line l 0 0 1 (line_length n)
   else sets scr_vert (scr_vert s - 1)) ;;
  (* while (position < curr_line->line_length) *)
  step (Z.max 0 (line_length n - 1)).

Definition left (disp : bool) : E () :=
  let! s := get in
  if negb (point s =? 0) then
    let! wide := (if ee_chinese s && (2 <=? position s) then let! c := peek (-2) in ret (127 <? c) else ret false) in
    (if wide then step (-1) else ret tt) ;;
    step (-1) ;;
    let! p := gets point in
    scanline p ;; sync_pos
  else
    let! c := cur in
    match prev_line c with
    | None => ret tt
    | Some l =>
        if negb disp then
          let! n := node l in
          modify (fun s => s <| absolute_lin := absolute_lin s - 1 |> <| curr_line := l |>
                             <| point := line_length n |> <| position := line_length n |>)
        else
          sets position 1 ;; prevline ;;
          let! p := gets point in
          scanline p ;; sync_pos
    end.

(** A two-byte character starts at the cursor. *)
Definition wide_here : E bool :=
  let! s := get in
  if ee_chinese s then
    let! c := peek 0 in
    let! n := cur in
    ret ((127 <? c) && (2 <=? line_length n - position s))
  else ret false.

Definition right (disp : bool) : E () :=
  let! s := get in
  let! c := cur in
  if position s <? line_length c then
    let! wide := wide_here in
    (if wide then step 1 else ret tt) ;;
    step 1 ;;
    let! p := gets point in
    scanline p ;; sync_pos
  else
    match next_line c with
    | None => ret tt
    | Some l =>
        if negb disp then
          modify (fun s => s <| absolute_lin := absolute_lin s + 1 |> <| curr_line := l |>
                             <| point := 0 |> <| position := 1 |>)
        else
          nextline ;; sets scr_horz 0 ;; sets scr_pos 0 ;; reset_offset ;; sets position 1
    end.

(** The loop of find_pos. *)
Definition find_pos_step : E () :=
  let! c := peek 0 in
  let! s := get in
  let! wide := wide_here in
  (if c =? 9 then sets scr_horz (scr_horz s + tabshift (scr_horz s))
   else if c <? 32 then sets scr_horz (scr_horz s + 2)
   else if wide then sets scr_horz (scr_horz s + 2) ;; step 1
   else sets scr_horz (scr_horz s + 1)) ;;
  step 1.

Definition find_pos : E () :=
  sets scr_horz 0 ;; sets position 1 ;;
  let! c := cur in
  while_ (Z.to_nat (line_length c))
    (let! s := get in let! n := cur in ret ((scr_horz s <? scr_pos s) && (position s <? line_length n)))
    find_pos_step ;;
  let! s := get in
  if last_col s <? scr_horz s - horiz_offset s then
    sets horiz_offset ((scr_horz s - cmod (scr_horz s) 8) - (COLS s - 8)) ;; midscreen (scr_vert s) (point s)
  else if scr_horz s <? horiz_offset s then
    sets horiz_offset (Z.max 0 (scr_horz s - cmod (scr_horz s) 8)) ;; midscreen (scr_vert s) (point s)
  else ret tt.

Definition up : E () :=
  let! c := cur in
  match prev_line c with
  | None => ret tt
  | Some _ => prevline ;; sets point 0 ;; find_pos
  end.

Definition down : E () :=
  let! c := cur in
  match next_line c with
  | None => ret tt
  | Some _ => nextline ;; find_pos
  end.

(** How many lines there are at most. *)
Definition lines_bound : E nat := let! h := gets heap in ret (size h).

Definition bottom : E () :=
  let! n := lines_bound in
  while_ n (let! c := cur in ret (match next_line c with Some _ => true | None => false end))
    (let! c := cur in
     let! l := deref (next_line c) in
     modify (fun s => s <| curr_line := l |> <| absolute_lin := absolute_lin s + 1 |>)) ;;
  modify (fun s => s <| point := 0 |> <| horiz_offset := 0 |> <| position := 1 |>) ;;
  let! s := get in
  midscreen (last_line s) (point s) ;; sync_pos.

Definition top : E () :=
  let! n := lines_bound in
  while_ n (let! c := cur in ret (match prev_line c with Some _ => true | None => false end))
    (let! c := cur in
     let! l := deref (prev_line c) in
     modify (fun s => s <| curr_line := l |> <| absolute_lin := absolute_lin s - 1 |>)) ;;
  modify (fun s => s <| point := 0 |> <| horiz_offset := 0 |> <| position := 1 |>) ;;
  let! s := get in
  midscreen 0 (point s) ;; sync_pos.

(** *** By words *)

Definition is_blank (c : Z) : bool := (c =? 32) || (c =? 9).

(** Left while not at the start of the line and [f] holds of the byte here. *)
Definition left_while (f : Z -> bool) : E () :=
  let! p := gets position in
  while_ (Z.to_nat p)
    (let! p := gets position in
     if negb (p =? 1) then let! c := peek 0 in ret (f c) else ret false)
    (left true).

Definition prev_word : E () :=
  let! p := gets position in
  if negb (p =? 1) then
    let! b := peek (-1) in
    (if is_blank b then left_while (fun c => negb (is_blank c)) else ret tt) ;;
    left_while is_blank ;;
    left_while (fun c => negb (is_blank c)) ;;
    let! p := gets position in
    if negb (p =? 1) then
      let! c := peek 0 in
      if is_blank c then right true else ret tt
    else ret tt
  else left true.

(** Right while inside the line and [f] holds of the byte here. *)
Definition right_while (f : Z -> bool) : E () :=
  let! n := cur in
  while_ (Z.to_nat (line_length n))
    (let! s := get in
     let! n := cur in
     if position s <? line_length n then let! c := peek 0 in ret (f c) else ret false)
    (right true).

Definition adv_word : E () := right_while (fun c => negb (is_blank c)) ;; right_while is_blank.

(** *** By lines *)

Definition eol : E () :=
  let! s := get in
  let! c := cur in
  if position s <? line_length c then right_while (fun _ => true)
  else match next_line c with
       | Some _ => right true ;; right_while (fun _ => true)
       | None => ret tt
       end.

Definition bol : E () :=
  let! p := gets point in
  if negb (p =? 0) then
    while_ (Z.to_nat p) (let! p := gets point in ret (negb (p =? 0))) (left true)
  else
    let! c := cur in
    match prev_line c with
    | Some _ => sets scr_pos 0 ;; up
    | None => ret tt
    end.

Definition adv_line : E () :=
  let! s := get in
  if negb (point s =? 0) || (0 <? scr_pos s) then right_while (fun _ => true) ;; right true
  else
    let! c := cur in
    match next_line c with
    | Some _ => sets scr_pos 0 ;; down
    | None => ret tt
    end.

Definition move_rel (upwards : bool) (lines : Z) : E () :=
  if upwards then
    sets scr_pos 0 ;;
    let! p := gets position in
    while_ (Z.to_nat p) (let! p := gets position in ret (1 <? p)) (left true) ;;
    Nat.iter (Z.to_nat lines) (fun k => up ;; k) (ret tt) ;;
    let! s := get in
    if (5 <? last_line s) && (scr_vert s <? 4) then
      let tmp := point s in
      let tmp_line := curr_line s in
      let! i := Nat.iter 5 (fun (k : Z -> E Z) i =>
        let! c := cur in
        match prev_line c with Some _ => up ;; k (i + 1) | None => ret i end) (fun i => ret i) 0 in
      modify (fun s => s <| scr_vert := scr_vert s + i |> <| curr_line := tmp_line |>
                         <| absolute_lin := absolute_lin s + i |> <| point := tmp |>) ;;
      scanline tmp
    else ret tt
  else
    let! s := get in
    let! c := cur in
    (if negb (position s =? 1) && (match next_line c with Some _ => true | None => false end)
     then nextline ;; sets scr_horz 0 ;; sets scr_pos 0 ;; reset_offset
     else adv_line) ;;
    Nat.iter (Z.to_nat (lines - 1)) (fun k => down ;; k) (ret tt) ;;
    let! s := get in
    if (10 <? last_line s) && (last_line s - 5 <? scr_vert s) then
      let tmp := point s in
      let tmp_line := curr_line s in
      let! i := Nat.iter 5 (fun (k : Z -> E Z) i =>
        let! c := cur in
        match next_line c with Some _ => down ;; k (i + 1) | None => ret i end) (fun i => ret i) 0 in
      modify (fun s => s <| absolute_lin := absolute_lin s - i |> <| scr_vert := scr_vert s - i |>
                         <| curr_line := tmp_line |> <| point := tmp |>) ;;
      scanline tmp
    else ret tt.

End EeEdit.
