(* ===== verification/EeText.v ===== *)
(** * ee(1): changing the text

    Insertion and deletion of characters, lines and words, the undelete commands,
    and search, of src/bsd_additions/ee/ee.c.  [junk] is what malloc leaves in a
    byte it allocates.  insert calls Auto_Format, which calls insert only while
    auto_format is off: insert is defined for any formatter. *)

From S2P Require Import Prelude Monad EeState EeEdit.
From stdpp Require Import base list gmap numbers.
From Stdlib Require Import ZArith Lia.

Open Scope Z_scope.

Module EeText.

Import EeState EeEdit.
Local Open Scope ind_scope.

Section Text.
Context (junk : Z).

(** ** insert_line *)

(** The loop that moves the rest of the line from offset [temp] on into the new
    line, [n] bytes. *)
Fixpoint move_tail (n : nat) (l nod : nat) (temp extra temp_pos : Z) : E Z :=
  match n with
  | O => ret extra
  | S n =>
      let! t := node nod in
      let! extra := (if max_length t - line_length t <? 5 then resiz_line junk 10 nod temp_pos else ret extra) in
      upd nod (fun t => t <| line_length := line_length t + 1 |>) ;;
      let! c := peek_at l temp in
      poke nod extra c ;;
      move_tail n l nod (temp + 1) (extra + 1) (temp_pos + 1)
  end.

(** The new line, linked after the current one. *)
Definition link_new (number len max : Z) (block : bytes) : E nat :=
  let! l := gets curr_line in
  let! nod := txtalloc in
  let! c := node l in
  set_node nod (Text block number len max (next_line c) (Some l)) ;;
  (match next_line c with
   | Some x => upd x (fun t => t <| prev_line := Some nod |>)
   | None => ret tt
   end) ;;
  upd l (fun t => t <| next_line := Some nod |>) ;;
  ret nod.

Definition insert_line (disp : bool) : E () :=
  sets text_changes true ;;
  let! l := gets curr_line in
  let! c := node l in
  let! nod := link_new (line_number c + 1) 1 10 (malloc junk 10) in
  let! s := get in
  let! extra :=
    (if position s <? line_length c then
       let! extra := move_tail (Z.to_nat (line_length c - position s)) l nod (point s) 0 1 in
       poke l (point s) 0 ;;
       let! t := node nod in
       let! temp := resiz_line junk (1 - line_length t) l (position s) in
       upd l (fun t => t <| line_length := 1 + temp |>) ;;
       ret extra
     else ret 0) in
  upd l (fun t => t <| line_length := position s |>) ;;
  modify (fun s => s <| absolute_lin := absolute_lin s + 1 |> <| curr_line := nod |>) ;;
  poke nod extra 0 ;;
  modify (fun s => s <| position := 1 |> <| point := 0 |>) ;;
  if disp then
    let! s := get in
    (if scr_vert s <? last_line s then sets scr_vert (scr_vert s + 1) else ret tt) ;;
    sets scr_horz 0 ;; sets scr_pos 0 ;;
    reset_offset ;;
    let! n := cur in
    let! s := get in
    draw_line (curr_line s) (scr_horz s) (point s) (position s) (line_length n)
  else ret tt.

(** ** insert *)

(** [draw_line(scr_vert, scr_horz, point, position, curr_line->line_length)] *)
Definition redraw_line : E () :=
  let! s := get in
  let! n := cur in
  draw_line (curr_line s) (scr_horz s) (point s) (position s) (line_length n).

(** The character stored at the cursor, the rest of the line shifted. *)
Definition store_char (character : Z) : E () :=
  let! s := get in
  let l := curr_line s in
  let! c := node l in
  (if max_length c - line_length c <? 5 then
     let! p := resiz_line junk 10 l (position s) in sets point p
   else ret tt) ;;
  upd l (fun t => t <| line_length := line_length t + 1 |>) ;;
  let! p := gets point in
  let! c := node l in
  (* temp is one past the last byte of the longer line *)
  let temp := p + Z.max 0 (line_length c - position s) + 1 in
  edit_line l (shift_up (Z.to_nat (temp - p)) temp) ;;
  poke l p (u8 character).

(** The cursor moved over the character just stored. *)
Definition advance_char (character : Z) : E () :=
  let! s := get in
  let! w := (if negb (isprint (u8 character)) then of_opt (out_char (eightbit s) character (scr_horz s)) else ret 1) in
  modify (fun s => s <| scr_horz := scr_horz s + w |> <| scr_pos := scr_horz s + w |>) ;;
  step 1.

(** Words that cross the right margin go to a new line. *)
Definition break_line : E () :=
  let! counter := gets position in
  while_ (Z.to_nat counter)
    (let! s := get in ret (right_margin s <? scr_pos s)) prev_word ;;
  let! s := get in
  if scr_pos s =? 0 then
    while_ (Z.to_nat counter) (let! s := get in ret (position s <? counter)) (right true)
  else
    let counter := counter - position s in
    insert_line true ;;
    Nat.iter (Z.to_nat counter) (fun k => right true ;; k) (ret tt).

Definition insert_one (Auto_Format : E ()) (character : Z) : E () :=
  sets text_changes true ;;
  store_char character ;;
  advance_char character ;;
  let! s := get in
  (if observ_margins s && (right_margin s <? scr_pos s) then break_line else ret tt) ;;
  let! s := get in
  (if last_col s <? scr_horz s - horiz_offset s then
     sets horiz_offset (horiz_offset s + 8) ;; midscreen (scr_vert s) (point s)
   else ret tt) ;;
  let! s := get in
  (if auto_format s && (character =? 32) && negb (formatted s) then Auto_Format
   else if negb (character =? 32) && negb (character =? 9) then sets formatted false
   else ret tt) ;;
  redraw_line.

Definition insert_with (Auto_Format : E ()) (character : Z) : E () :=
  let! s := get in
  if (character =? 9) && expand_tabs s then
    Nat.iter (Z.to_nat (len_char (eightbit s) 9 (scr_horz s))) (fun k => insert_one Auto_Format 32 ;; k) (ret tt) ;;
    let! s := get in
    if auto_format s then Auto_Format else ret tt
  else insert_one Auto_Format character.

(** ** delete *)

Definition save_char (c : bytes) : E () :=
  let! s := get in
  if in_ s =? 8 then sets d_char (c ++ drop (length c) (d_char s)) else ret tt.

(** The character before the cursor removed from the line. *)
Definition delete_back : E () :=
  sets text_changes true ;;
  let! s := get in
  let l := curr_line s in
  let! wide := (if ee_chinese s && (2 <=? position s) then let! c := peek (-2) in ret (127 <? c) else ret false) in
  let w := if wide then 2 else 1 in
  let p := point s in
  step (- w) ;;
  upd l (fun t => t <| line_length := line_length t - w |>) ;;
  let! c0 := peek 0 in
  (if (c0 <? 32) || (127 <=? c0) then let! q := gets point in scanline q
   else modify (fun s => s <| scr_horz := scr_horz s - w |>)) ;;
  sync_pos ;;
  (if wide then let! c1 := peek 1 in save_char [c0; c1; 0] else save_char [c0; 0]) ;;
  let! n := cur in
  let! q := gets point in
  let! pos := gets position in
  edit_line l (copy_fwd (Z.to_nat (line_length n - pos + 1)) p q) ;;
  let! s := get in
  if (scr_horz s <? horiz_offset s) && (0 <? horiz_offset s) then
    sets horiz_offset (horiz_offset s - 8) ;; midscreen (scr_vert s) (point s)
  else ret tt.

(** The lines below the joined one that are still on the screen. *)
Fixpoint line_below (fuel : nat) (temp_vert : Z) (temp_buff : option nat) : E (Z * option nat) :=
  let! s := get in
  match temp_buff with
  | Some l =>
      if temp_vert <? last_line s then
        match fuel with
        | O => mundef
        | S f => let! n := node l in line_below f (temp_vert + 1) (next_line n)
        end
      else ret (temp_vert, temp_buff)
  | None => ret (temp_vert, temp_buff)
  end.

(** The line joined to the one before it. *)
Definition delete_join (disp : bool) : E () :=
  sets text_changes true ;;
  left disp ;;
  let! l := gets curr_line in
  let! c := node l in
  let! b := deref (next_line c) in
  let! bn := node b in
  let! pos := gets position in
  let! p := resiz_line junk (line_length bn) l pos in
  sets point p ;;
  (match next_line bn with
   | Some x => upd x (fun t => t <| prev_line := Some l |>)
   | None => ret tt
   end) ;;
  upd l (fun t => t <| next_line := next_line bn |>) ;;
  save_char [10; 0] ;;
  let n := Z.to_nat (line_length bn - 1) in
  edit_line l (fun blk => match copy_from n (line bn) 0 blk p with
                          | Some blk => aset blk (p + Z.of_nat n) 0
                          | None => None
                          end) ;;
  upd l (fun t => t <| line_length := line_length t + Z.of_nat n |>) ;;
  free_node b ;;
  sync_pos ;;
  let! s := get in
  let! r := line_below (Z.to_nat (last_line s - scr_vert s)) (scr_vert s) (Some l) in
  match r with
  | (v, Some x) =>
      if v =? last_line s then let! n := node x in draw_line x 0 0 1 (line_length n) else ret tt
  | _ => ret tt
  end.

Definition delete (disp : bool) : E () :=
  let! p := gets point in
  (if negb (p =? 0) then delete_back
   else
     let! c := cur in
     match prev_line c with
     | Some _ => delete_join disp
     | None => ret tt
     end) ;;
  redraw_line ;;
  sets formatted false.

(** ** Characters, words and lines *)

Definition del_char : E () :=
  sets in_ 8 ;;
  let! s := get in
  let! c := cur in
  if position s <? line_length c then
    let! wide := wide_here in
    (if wide then step 1 else ret tt) ;;
    step 1 ;;
    let! p := gets point in
    scanline p ;; delete true
  else right true ;; delete true.

Definition undel_char (Auto_Format : E ()) : E () :=
  let! d := gets d_char in
  let! c0 := of_opt (d !! 0%nat) in
  if c0 =? 10 then insert_line true
  else
    sets in_ c0 ;; insert_with Auto_Format c0 ;;
    let! d := gets d_char in
    let! c1 := of_opt (d !! 1%nat) in
    if negb (c1 =? 0) then sets in_ c1 ;; insert_with Auto_Format c1 else ret tt.

(** At most [n] bytes from offset [i] on, as long as [f] holds of them. *)
Fixpoint take_run (f : Z -> bool) (n : nat) (i : Z) (b : bytes) : option bytes :=
  match n with
  | O => Some []
  | S n => match aget b i with
           | Some c => if f c then
                         match take_run f n (i + 1) b with
                         | Some w => Some (c :: w)
                         | None => None
                         end
                       else Some []
           | None => None
           end
  end.

(** [*d++ = *s++] while inside the line, then the NUL, in d_word of
    [curr_line->line_length] bytes: the word at the cursor and the blanks after it. *)
Definition word_here (n : text) (p position : Z) : option bytes :=
  let len := Z.to_nat (line_length n - position) in
  match take_run (fun c => negb (is_blank c)) len p (line n) with
  | Some w1 =>
      match take_run is_blank (len - length w1) (p + Z.of_nat (length w1)) (line n) with
      | Some w2 => if Z.of_nat (length (w1 ++ w2)) + 1 <=? line_length n then Some (w1 ++ w2) else None
      | None => None
      end
  | None => None
  end.

Definition del_word : E () :=
  let! s := get in
  let! n := cur in
  let p := point s in
  let! w := of_opt (word_here n p (position s)) in
  let difference := Z.of_nat (length w) in
  sets d_word (Some (w ++ [0])) ;;
  sets d_wrd_len difference ;;
  let rest := Z.to_nat (line_length n - (position s + difference)) in
  edit_line (curr_line s) (fun blk => match copy_fwd rest (p + difference) p blk with
                                      | Some blk => aset blk (p + Z.of_nat rest) 0
                                      | None => None
                                      end) ;;
  upd (curr_line s) (fun t => t <| line_length := line_length t - difference |>) ;;
  redraw_line ;;
  sets text_changes true ;;
  sets formatted false.

(** The bytes of [d_word] and of the rest of the line, collected and stored back. *)
Definition undel_word : E () :=
  let! s := get in
  let l := curr_line s in
  let! n := cur in
  let d := d_wrd_len s in
  (if max_length n - (line_length n + d) <? 5 then
     let! p := resiz_line junk d l (position s) in sets point p
   else ret tt) ;;
  let! p := gets point in
  let! n := cur in
  let! w := of_opt (match d_word s with
                    | Some w => copy_from (Z.to_nat d) w 0 (malloc junk (line_length n + d)) 0
                    | None => if d <=? 0 then Some (malloc junk (line_length n + d)) else None
                    end) in
  let rest := Z.to_nat (line_length n - position s) in
  let! w := of_opt (copy_from rest (line n) p w d) in
  let len := d + Z.of_nat rest in
  let! w := of_opt (aset w len 0) in
  edit_line l (fun blk => match copy_from (Z.to_nat len) w 0 blk p with
                          | Some blk => aset blk (p + len) 0
                          | None => None
                          end) ;;
  upd l (fun t => t <| line_length := line_length t + d |>) ;;
  redraw_line.

Definition del_line : E () :=
  let! s := get in
  let l := curr_line s in
  let! n := cur in
  let k := Z.to_nat (line_length n - position s) in
  let! d := of_opt (match copy_from k (line n) (point s) (malloc junk (line_length n)) 0 with
                    | Some d => aset d (Z.of_nat k) 0
                    | None => None
                    end) in
  sets d_line (Some d) ;;
  sets dlt_length (1 + Z.of_nat k) ;;
  poke l (point s) 0 ;;
  upd l (fun t => t <| line_length := position s |>) ;;
  (match next_line n with
   | Some _ => right false ;; delete false
   | None => ret tt
   end) ;;
  sets text_changes true.

Definition undel_line : E () :=
  let! len := gets dlt_length in
  if len =? 0 then ret tt
  else
    insert_line true ;; left true ;;
    let! s := get in
    let l := curr_line s in
    let! p := resiz_line junk len l (position s) in
    sets point p ;;
    upd l (fun t => t <| line_length := line_length t + (len - 1) |>) ;;
    let! d := of_opt (d_line s) in
    let k := Z.to_nat (len - 1) in
    edit_line l (fun blk => match copy_from k d 0 blk p with
                            | Some blk => aset blk (p + Z.of_nat k) 0
                            | None => None
                            end) ;;
    redraw_line.

(** delete_text: all lines but the first freed, the first emptied. *)
Definition delete_text : E () :=
  let! n := lines_bound in
  while_ n (let! c := cur in ret (match next_line c with Some _ => true | None => false end))
    (let! c := cur in let! l := deref (next_line c) in sets curr_line l) ;;
  while_ n (let! s := get in ret (negb (curr_line s =? first_line s)%nat))
    (let! l := gets curr_line in
     let! c := node l in
     let! p := deref (prev_line c) in
     modify (fun s => s <| curr_line := p |> <| absolute_lin := absolute_lin s - 1 |>) ;;
     let! pn := node p in
     let! x := deref (next_line pn) in
     free_node x) ;;
  let! l := gets curr_line in
  upd l (fun t => t <| next_line := None |>) ;;
  poke l 0 0 ;;
  upd l (fun t => t <| line_length := 1 |> <| line_number := 1 |>) ;;
  modify (fun s => s <| point := 0 |> <| scr_pos := 0 |> <| scr_vert := 0 |> <| scr_horz := 0 |> <| position := 1 |>).
End Text.

(** ** Search *)

(** Whether the pattern is at offset [i]: the inner loop of search, which reads one
    byte more than it compares; [None] for a read outside the block. *)
Fixpoint match_at (fold : Z -> Z) (b : bytes) (i : Z) (pat : bytes) : option bool :=
  match aget b i with
  | None => None
  | Some x =>
      match pat with
      | [] => Some true
      | c :: pat => if fold x =? c then match_at fold b (i + 1) pat else Some false
      end
  end.

(** The loop over the positions of a line: the offset and position of a match. *)
Fixpoint search_line (fuel : nat) (fold : Z -> Z) (n : text) (pat : bytes) (srch_1 iter : Z) : option (option (Z * Z)) :=
  if iter <? line_length n then
    match fuel with
    | O => None
    | S f =>
        match match_at fold (line n) srch_1 pat with
        | Some true => Some (Some (srch_1, iter))
        | Some false => search_line f fold n pat (srch_1 + 1) (iter + 1)
        | None => None
        end
    end
  else Some None.

(** The loop over the lines: line, offset, position and number of lines passed. *)
Fixpoint search_lines (fuel : nat) (fold : Z -> Z) (pat : bytes) (l : nat) (srch_1 iter lines_moved : Z)
  : E (option (nat * Z * Z * Z)) :=
  match fuel with
  | O => mundef
  | S f =>
      let! n := node l in
      let! r := of_opt (search_line (Z.to_nat (line_length n)) fold n pat srch_1 iter) in
      match r with
      | Some (o, it) => ret (Some (l, o, it, lines_moved))
      | None =>
          match next_line n with
          | Some x => search_lines f fold pat x 0 1 (lines_moved + 1)
          | None => ret None
          end
      end
  end.

Definition right_to (iter : Z) : E () :=
  let! n := cur in
  while_ (Z.to_nat (line_length n)) (let! s := get in ret (position s <? iter)) (right true).

Definition search : E bool :=
  let! s := get in
  match srch_str s with
  | None => ret false
  | Some [] => ret false
  | Some str =>
      let! c := cur in
      let! pat := of_opt (if case_sen s then Some str else u_srch_str s) in
      let fold := if case_sen s then (fun c => c) else toupper in
      let srch_1 := if position s <? line_length c then point s + 1 else point s in
      let! bound := lines_bound in
      let! r := search_lines (S bound) fold pat (curr_line s) srch_1 (position s + 1) 0 in
      match r with
      | None => ret false
      | Some (l, o, iter, lines_moved) =>
          (if lines_moved =? 0 then right_to iter
           else if lines_moved <? 30 then move_rel false lines_moved ;; right_to iter
           else
             modify (fun s => s <| absolute_lin := absolute_lin s + lines_moved |> <| curr_line := l |>
                                <| point := o |> <| position := iter |>) ;;
             scanline o ;; sync_pos ;;
             let! s := get in
             midscreen (cdiv (last_line s) 2) (point s)) ;;
          ret true
      end
  end.

(** What search_prompt does with the string it is given. *)
Definition search_for (str : bytes) : E bool :=
  sets srch_str (Some str) ;; sets u_srch_str (Some (map toupper str)) ;; search.

End EeText.
