(* ===== verification/EeFile.v ===== *)
(** * ee(1): files

    Reading a file into the list of lines and writing it back: get_line, get_file,
    write_file, the part of check_fp that follows a successful open, and the
    commands on line numbers of src/bsd_additions/ee/ee.c.  The contents of a file
    are the results of the successive calls of read(2). *)

From S2P Require Import Prelude Monad EeState EeEdit EeText.
From stdpp Require Import base list gmap numbers.
From Stdlib Require Import ZArith Lia.

Open Scope Z_scope.

Module EeFile.

Import EeState EeEdit EeText.
Local Open Scope ind_scope.

Section File.
Context (junk : Z).

(** ** Reading *)

(** The loop that looks for the end of the line: the offset where it stops. *)
Fixpoint find_eol (fuel : nat) (buf : bytes) (length num : Z) : option Z :=
  match aget buf num with
  | Some c =>
      if negb (c =? 10) && (num <? length) then
        match fuel with
        | O => None
        | S f => find_eol f buf length (num + 1)
        end
      else Some num
  | None => None
  end.

(** The line, or part of one, from [str1] on, of [char_count - 1] bytes, stored in a
    new line or behind the text of the current one.  The two stores that link the
    line below are to different nodes. *)
Definition put_line (buf : bytes) (append : bool) (str1 char_count : Z) : E () :=
  (if negb append then
     let! c := cur in
     let! tline := link_new (line_number c + 1) char_count char_count (malloc junk char_count) in
     sets curr_line tline ;; sets point 0
   else
     let! l := gets curr_line in
     let! c := node l in
     let! p := resiz_line junk char_count l (line_length c) in
     sets point p ;;
     upd l (fun t => t <| line_length := line_length t + (char_count - 1) |>)) ;;
  let! s := get in
  let k := Z.to_nat (char_count - 1) in
  edit_line (curr_line s) (fun blk => match copy_from k buf str1 blk (point s) with
                                      | Some blk => aset blk (point s + Z.of_nat k) 0
                                      | None => None
                                      end) ;;
  sets point (point s + Z.of_nat k).

(** The loop of get_line: whether the next chunk continues the last line. *)
Fixpoint get_line_loop (fuel : nat) (buf : bytes) (length num : Z) (first_time append : bool) : E bool :=
  if num <? length then
    match fuel with
    | O => mundef
    | S f =>
        let str1 := if first_time then num else num + 1 in
        let! num := of_opt (find_eol (Z.to_nat length) buf length str1) in
        put_line buf append str1 (1 + (num - str1)) ;;
        let! c := of_opt (aget buf num) in
        get_line_loop f buf length num false ((num =? length) && negb (c =? 10))
    end
  else ret append.

Definition get_line (length : Z) (append : bool) : E bool :=
  let! buf := gets in_string in
  get_line_loop (S (Z.to_nat length)) buf length 0 true append.

(** [read(get_fd, in_string, 512)] and get_line, until the end of the file. *)
Fixpoint read_loop (chunks : list bytes) (append : bool) : E () :=
  match chunks with
  | [] => ret tt
  | c :: cs =>
      modify (fun s => s <| in_string := c ++ drop (length c) (in_string s) |>) ;;
      let! append := get_line (Z.of_nat (length c)) append in
      read_loop cs append
  end.

(** The empty line left by a newline at the end of the file. *)
Definition drop_last : E () :=
  let! l := gets curr_line in
  let! c := node l in
  let! temp_line := deref (prev_line c) in
  upd temp_line (fun t => t <| next_line := next_line c |>) ;;
  (match next_line c with
   | Some x => upd x (fun t => t <| prev_line := Some temp_line |>)
   | None => ret tt
   end) ;;
  free_node l ;;
  sets curr_line temp_line.

Definition get_file (recv_file input_file : bool) (chunks : list bytes) : E () :=
  let! c := cur in
  let! append := (if 1 <? line_length c then insert_line junk false ;; left false ;; ret false else ret true) in
  read_loop chunks append ;;
  let can_read := negb (bool_decide (chunks = [])) in
  let! c := cur in
  (if can_read && (line_length c =? 1) then drop_last else ret tt) ;;
  (if input_file then ret tt else if can_read then sets text_changes true else ret tt) ;;
  (if recv_file then sets in_ (-1) else ret tt).

(** check_fp after open(2) succeeded: [input_file] for the file to edit, otherwise
    a file read into the text.  No line to start at was given. *)
Definition check_fp (input_file : bool) (chunks : list bytes) : E () :=
  let! s0 := get in
  get_file true input_file chunks ;;
  sets scr_vert (scr_vert s0) ;;
  sets scr_horz (scr_horz s0) ;;
  let! s := get in
  sets curr_line (if input_file then first_line s else curr_line s0) ;;
  sets point 0 ;;
  draw_screen ;;
  (if input_file then ret tt else sets text_changes true).
End File.

(** ** Writing *)

(** The bytes that write_file gives to putc, and the counts it shows. *)
Fixpoint write_lines (fuel : nat) (out_line : option nat) (lines charac : Z) : E (bytes * Z * Z) :=
  match out_line with
  | None => ret ([], lines, charac)
  | Some l =>
      match fuel with
      | O => mundef
      | S f =>
          let! n := node l in
          let k := Z.to_nat (line_length n - 1) in
          if (length (line n) <? k)%nat then mundef
          else
            let! r := write_lines f (next_line n) (lines + 1) (charac + line_length n) in
            let '(out, lines, charac) := r in
            ret (take k (line n) ++ 10 :: out, lines, charac)
      end
  end.

Definition write_file : E (bytes * Z * Z) :=
  let! s := get in
  let! n := lines_bound in
  write_lines n (Some (first_line s)) 0 0.

(** ** Line numbers *)

(** The loop of from_top. *)
Fixpoint count_lines (fuel : nat) (tmpline : option nat) (x : Z) : E Z :=
  let! s := get in
  match tmpline with
  | None => ret x
  | Some l =>
      if (l =? curr_line s)%nat then ret x
      else
        match fuel with
        | O => mundef
        | S f => let! n := node l in count_lines f (next_line n) (x + 1)
        end
  end.

Definition from_top : E () :=
  let! s := get in
  let! n := lines_bound in
  let! x := count_lines n (Some (first_line s)) 1 in
  sets absolute_lin x.

(** The command resequence. *)
Fixpoint resequence_loop (fuel : nat) (tmp_line : option nat) : E () :=
  match tmp_line with
  | None => ret tt
  | Some l =>
      match fuel with
      | O => mundef
      | S f =>
          let! n := node l in
          let! p := deref (prev_line n) in
          let! pn := node p in
          upd l (fun t => t <| line_number := line_number pn + 1 |>) ;;
          resequence_loop f (next_line n)
      end
  end.

Definition resequence : E () :=
  let! s := get in
  let! n := lines_bound in
  let! c := node (first_line s) in
  resequence_loop n (next_line c).

(** goto_line: the lines passed going up, then going down. *)
Fixpoint seek_up (fuel : nat) (number : Z) (t_line : nat) (i : Z) : E (nat * Z) :=
  let! n := node t_line in
  match prev_line n with
  | Some p =>
      if number <? line_number n then
        match fuel with
        | O => mundef
        | S f => seek_up f number p (i + 1)
        end
      else ret (t_line, i)
  | None => ret (t_line, i)
  end.

Fixpoint seek_down (fuel : nat) (number : Z) (t_line : nat) (i : Z) : E (nat * Z) :=
  let! n := node t_line in
  match next_line n with
  | Some p =>
      if line_number n <? number then
        match fuel with
        | O => mundef
        | S f => seek_down f number p (i + 1)
        end
      else ret (t_line, i)
  | None => ret (t_line, i)
  end.

(** The number that starts the command; an int overflow is undefined. *)
Definition line_arg (cmd_str : bytes) : option Z :=
  let n := num_of_digits 10 (fst (span isdigit cmd_str)) in
  if n <? 2 ^ 31 then Some n else None.

Definition goto_line (cmd_str : bytes) : E () :=
  let! number := of_opt (line_arg cmd_str) in
  let! s := get in
  let! bound := lines_bound in
  let! r := seek_up bound number (curr_line s) 0 in
  let! r' := seek_down bound number r.1 r.2 in
  let '(t_line, i) := r' in
  let down := r.2 <? i in
  if (i <? 30) && (0 <? i) then move_rel (negb down) i
  else
    modify (fun s => s <| absolute_lin := if down then absolute_lin s - i else absolute_lin s + i |>
                       <| curr_line := t_line |> <| point := 0 |> <| position := 1 |>) ;;
    midscreen (cdiv (last_line s) 2) 0 ;; sync_pos.

End EeFile.
