(* ===== verification/EeKeys.v ===== *)
(** * ee(1): keys

    The dispatch of the main loop of src/bsd_additions/ee/ee.c and of its two
    tables of control keys.  The commands that prompt for a string or show a menu,
    the function keys and the paragraph formatter are arguments. *)

From S2P Require Import Prelude Monad EeState EeEdit EeText.
From stdpp Require Import base list gmap numbers.
From Stdlib Require Import ZArith Lia.

Open Scope Z_scope.

Module EeKeys.

Import EeState EeEdit EeText.
Local Open Scope ind_scope.

Section Keys.
Context (junk : Z).
Context (Auto_Format function_key command_prompt search_prompt menu_op : E ()).
(** What the prompt for a character code returns: atoi of the string, if any. *)
Context (ascii_code : option Z).
Context (emacs_keys_mode : bool).

Definition insert : Z -> E () := insert_with junk Auto_Format.

Definition insert_code : E () :=
  match ascii_code with
  | Some c => sets in_ c ;; insert c
  | None => ret tt
  end.

(** [max(5, (last_line - 5))] *)
Definition page (upwards : bool) : E () := let! s := get in move_rel upwards (Z.max 5 (last_line s - 5)).

Definition control : E () :=
  let! s := get in
  match in_ s with
  | 1 => insert_code
  | 2 => bottom
  | 3 => command_prompt
  | 4 => down
  | 5 => search_prompt
  | 6 => undel_char junk Auto_Format
  | 7 => bol
  | 8 => delete junk true
  | 10 => insert_line junk true
  | 11 => del_char junk
  | 12 => left true
  | 13 => insert_line junk true
  | 14 => page false
  | 15 => eol
  | 16 => page true
  | 18 => right true
  | 20 => top
  | 21 => up
  | 22 => undel_word junk
  | 23 => del_word
  | 24 => search ;; ret tt
  | 25 => del_line junk
  | 26 => undel_line junk
  | 27 => menu_op
  | _ => ret tt
  end.

Definition emacs_control : E () :=
  let! s := get in
  match in_ s with
  | 1 => bol
  | 2 => left true
  | 3 => command_prompt
  | 4 => del_char junk
  | 5 => eol
  | 6 => right true
  | 7 => page true
  | 8 => delete junk true
  | 10 => undel_char junk Auto_Format
  | 11 => del_line junk
  | 12 => undel_line junk
  | 13 => insert_line junk true
  | 14 => down
  | 15 => insert_code
  | 16 => up
  | 18 => undel_word junk
  | 20 => top
  | 21 => bottom
  | 22 => page false
  | 23 => del_word
  | 24 => search ;; ret tt
  | 25 => search_prompt
  | 26 => adv_word
  | 27 => menu_op
  | _ => ret tt
  end.

(** One round of the main loop, for the key that wgetch returned. *)
Definition edit_key (c : Z) : E () :=
  sets in_ c ;;
  if c =? -1 then mexit 0 []
  else if 255 <? c then function_key
  else if (c =? 8) || (c =? 127) then sets in_ 8 ;; delete junk true
  else if (31 <? c) || (c =? 9) then insert c
  else if (0 <=? c) && (c <=? 31) then (if emacs_keys_mode then emacs_control else control)
  else ret tt.

Fixpoint edit_keys (cs : list Z) : E () :=
  match cs with
  | [] => ret tt
  | c :: cs => edit_key c ;; edit_keys cs
  end.
End Keys.

(** ** The start of main *)

(** The globals as main leaves them for an empty text, in a window of [cols]
    columns whose last line is [last]; the block of the first line and d_char are
    what malloc gave. *)
Definition start (junk last cols : Z) : ee :=
  {| heap := {[ 0%nat := Text (malloc junk 10) 1 1 10 None None ]};
     fresh_loc := 1; first_line := 0; curr_line := 0;
     dlt_length := 0; d_wrd_len := 0; position := 1; point := 0; scr_pos := 0; scr_vert := 0; scr_horz := 0;
     absolute_lin := 1; case_sen := false; last_line := last; last_col := cols - 1; COLS := cols;
     horiz_offset := 0; text_changes := false; expand_tabs := true; right_margin := cols - 1; observ_margins := true;
     formatted := false; auto_format := false; eightbit := true; ee_chinese := false;
     d_char := malloc junk 3; d_word := Some (0 :: malloc junk 149); d_line := None;
     srch_str := None; u_srch_str := None; in_ := 0; in_string := replicate 513 0; overread := false |}.

End EeKeys.
