(* ===== verification/EeStrings.v ===== *)
(** * ee(1): strings

    The string routines of src/bsd_additions/ee/ee.c: the comparison of command names,
    words, the line read by a prompt, the escapes of an echo line, and the names of
    files with a home directory and variables.  Strings are their bytes without the
    NUL; buffers of fixed size are respected or the behaviour is undefined. *)

From S2P Require Import Prelude.
From stdpp Require Import base list numbers.
From Stdlib Require Import ZArith Lia.

Open Scope Z_scope.

Module EeStrings.

Local Open Scope io_scope.

(** ** Comparison *)

(** The byte that ends a name: the NUL or a blank. *)
Definition name_ends (s : bytes) : bool := (hd0 s =? 0) || (hd0 s =? 32).

Fixpoint compare_loop (f : Z -> Z) (s1 s2 : bytes) : bool :=
  match s1, s2 with
  | c1 :: s1, c2 :: s2 =>
      if f c1 =? f c2 then
        if name_ends s1 || name_ends s2 then true else compare_loop f s1 s2
      else false
  | _, _ => false
  end.

(** No caller passes NULL. *)
Definition compare (string1 string2 : bytes) (sensitive : bool) : bool :=
  if (hd0 string1 =? 0) || (hd0 string2 =? 0) then false
  else compare_loop (if sensitive then fun c => c else toupper) string1 string2.

(** How many names of the list the string may stand for. *)
Definition unique_test (string : bytes) (names : list bytes) : nat :=
  length (List.filter (fun n => compare string n false) names).

(** ** Words *)

Definition next_word (string : bytes) : bytes :=
  (span isblank (span (fun c => negb (isblank c)) string).2).2.

(** ** Prompts *)

Definition KEY_BACKSPACE : Z := 263.

(** A byte stored at the end of the 512 bytes of tmp_string. *)
Definition store_key (nam : bytes) (k : Z) : io bytes :=
  if Z.of_nat (length nam) <? 512 then ioret (nam ++ [u8 k]) else undef.

(** The loop of get_string over the keys that wgetch returns; the end of the input
    is its -1.  Returns what was stored and the keys left.  The echo on the screen is
    left out. *)
Fixpoint get_string_loop (nam : bytes) (keys : list Z) : io (bytes * list Z) :=
  match keys with
  | [] => exit_ 0 []
  | k :: keys =>
      if k =? -1 then exit_ 0 []
      else if ((k =? 8) || (k =? 127) || (k =? KEY_BACKSPACE)) && (0 <? Z.of_nat (length nam)) then
        get_string_loop (removelast nam) keys
      else if negb (k =? 8) && negb (k =? 127) && negb (k =? 10) && negb (k =? 13) && (k <? 256) then
        if k =? 22 then
          match keys with
          | [] => exit_ 0 []
          | k' :: keys =>
              if k' =? -1 then exit_ 0 []
              else let* nam := store_key nam k' in get_string_loop nam keys
          end
        else let* nam := store_key nam k in get_string_loop nam keys
      else if (k =? 10) || (k =? 13) then ioret (nam, keys)
      else get_string_loop nam keys
  end.

(** The bytes up to the first NUL. *)
Definition cstr (b : bytes) : bytes := (span (fun c => negb (c =? 0)) b).1.

Definition get_string (advance : bool) (keys : list Z) : io (bytes * list Z) :=
  let* (nam, keys) := get_string_loop [] keys in
  if Z.of_nat (length nam) <? 512 then
    let nam := cstr nam in
    ioret (if isblank (hd0 nam) && advance then next_word nam else nam, keys)
  else undef.

(** ** Echo *)

Definition is_octal_run (s : bytes) : Z * bytes :=
  let (d, r) := span isdigit s in (fold_left (fun n c => 8 * n + (c - 48)) d 0, r).

(** The characters of an escape: what it prints and how much of the string is left; a
    backslash at the end makes the loop step over the NUL. *)
Definition echo_escape (s : bytes) : io bytes :=
  match s with
  | [] => undef
  | c :: r =>
      if c =? ch "n" then put [10] ;; ioret r
      else if c =? ch "t" then put [9] ;; ioret r
      else if c =? ch "b" then put [8] ;; ioret r
      else if c =? ch "r" then put [13] ;; ioret r
      else if c =? ch "f" then put [12] ;; ioret r
      else if (c =? ch "e") || (c =? ch "E") then put [27] ;; ioret r
      else if c =? 92 then put [92] ;; ioret r
      else if c =? 39 then put [39] ;; ioret r
      else if isdigit c then
        let (n, r') := is_octal_run s in
        if n <? 2 ^ 31 then put [u8 n] ;; ioret r' else undef
      else ioret r
  end.

Fixpoint echo_loop (fuel : nat) (s : bytes) : io () :=
  match fuel, s with
  | _, [] => ioret tt
  | O, _ => undef
  | S fuel, c :: r =>
      if c =? 92 then let* r := echo_escape r in echo_loop fuel r
      else put [c] ;; echo_loop fuel r
  end.

Definition echo_string (string : bytes) : io () := echo_loop (length string) string.

(** ** File names *)

(** The rest of [string] from the first byte of it that is in [substring] on. *)
Fixpoint is_in_string (string substring : bytes) : option bytes :=
  match substring with
  | [] => None
  | sub :: substring =>
      match (span (fun c => negb (c =? sub)) string).2 with
      | [] => is_in_string string substring
      | found => Some found
      end
  end.

(** What the loop over the variables leaves: the name, or long_buffer exactly full. *)
Inductive expansion :=
| Expanded (long_buffer : bytes)
| Full.

Section Names.
Context (getenv : bytes -> option bytes).
(** The home directory of the user, and of a user by name. *)
Context (getpwuid_dir : option bytes) (getpwnam_dir : bytes -> option bytes).

(** The name of a variable after the dollar sign, and the rest of the string. *)
Definition var_name (tmp : bytes) : bytes * bytes :=
  match tmp with
  | 123 :: tmp =>
      let (n, r) := span (fun c => negb (c =? 125)) tmp in
      (n, if hd0 r =? 125 then tail r else r)
  | _ => span (fun c => negb (c =? 47) && negb (c =? 36)) tmp
  end.

(** The value put for it at [index], and the new index: [None] when short_buffer or
    long_buffer are written outside their 128 and 1024 bytes. *)
Definition put_var (n text long_buffer : bytes) : option (bytes + unit) :=
  if 128 <=? Z.of_nat (length n) then None
  else
    match getenv n with
    | Some v =>
        let index := Z.of_nat (length long_buffer) + Z.of_nat (length v) in
        if index <? 1024 then Some (inl (long_buffer ++ v))
        else if index =? 1024 then Some (inr tt) else None
    | None => Some (inl (long_buffer ++ take (1024 - length long_buffer) text))
    end.

Fixpoint resolve_loop (fuel : nat) (tmp long_buffer : bytes) : option expansion :=
  let full := if Z.of_nat (length long_buffer) =? 1024 then Some Full else Some (Expanded long_buffer) in
  match fuel, tmp with
  | _, [] => full
  | O, _ => None
  | S fuel, _ =>
      if 1024 <=? Z.of_nat (length long_buffer) then full
      else
        let (lit, tmp) := span (fun c => negb (c =? 36)) tmp in
        let room := (1024 - length long_buffer)%nat in
        let long_buffer := long_buffer ++ take room lit in
        match tmp with
        | _ :: after =>
            if 1024 <=? Z.of_nat (length long_buffer) then Some Full
            else
              let (n, rest) := var_name after in
              match put_var n (take (length tmp - length rest) tmp) long_buffer with
              | None => None
              | Some (inr _) => Some Full
              | Some (inl long_buffer) => resolve_loop fuel rest long_buffer
              end
        | [] => if 1024 <=? Z.of_nat (length long_buffer) then Some Full else Some (Expanded long_buffer)
        end
  end.

(** The name with its home directory: [None] when there is no such user and the name
    is returned as it is. *)
Definition home_name (name : bytes) : option bytes :=
  match name with
  | 126 :: 47 :: _ =>
      match getpwuid_dir with
      | Some dir => Some (dir ++ tail name)
      | None => None
      end
  | 126 :: rest =>
      let (user, slash) := span (fun c => negb (c =? 47)) rest in
      match slash with
      | [] => None
      | _ => match getpwnam_dir user with
             | Some dir => Some (dir ++ slash)
             | None => None
             end
      end
  | _ => Some name
  end.

Definition resolve_name (name : bytes) : option bytes :=
  match home_name name with
  | None => Some name
  | Some buffer =>
      match is_in_string buffer [36] with
      | None => Some buffer
      | Some _ =>
          match resolve_loop (S (length buffer)) buffer [] with
          | None => None
          | Some Full => Some buffer
          | Some (Expanded b) => Some (cstr b)
          end
      end
  end.
End Names.

(** ** What the prompt returns *)

(** A key that stands for itself. *)
Definition typable (k : Z) : Prop := 0 < k < 256 /\ k <> 8 /\ k <> 10 /\ k <> 13 /\ k <> 22 /\ k <> 127.
Definition erase_key (k : Z) : Prop := k = 8 \/ k = 127 \/ k = KEY_BACKSPACE.
Definition enter_key (k : Z) : Prop := k = 10 \/ k = 13.

Lemma get_typed nam k keys : typable k -> (length nam < 512)%nat -> get_string_loop nam (k :: keys) = get_string_loop (nam ++ [k]) keys.
Proof.
  intros (H0 & H8 & H10 & H13 & H22 & H127) Hl. cbn [get_string_loop]. unfold KEY_BACKSPACE.
  rewrite !(proj2 (Z.eqb_neq k _)) by lia. rewrite (proj2 (Z.ltb_lt k 256)) by lia. cbn [negb andb orb].
  unfold store_key. rewrite (proj2 (Z.ltb_lt _ 512)), iobind_ret_l by lia. unfold u8. by rewrite Z.mod_small by lia.
Qed.

Lemma get_typed_all s nam keys : Forall typable s -> (length nam + length s <= 512)%nat ->
  get_string_loop nam (s ++ keys) = get_string_loop (nam ++ s) keys.
Proof.
  intros Hs. revert nam. induction Hs as [|k s Hk Hs IH]; intros nam Hl; cbn [app length] in *; [by rewrite app_nil_r|].
  rewrite get_typed by (done || lia). rewrite IH by (rewrite length_app; cbn; lia). by rewrite <- app_assoc.
Qed.

Lemma get_erased t b nam keys : erase_key b -> get_string_loop (nam ++ t) (replicate (length t) b ++ keys) = get_string_loop nam keys.
Proof.
  intros Hb. revert keys. induction t as [|x t IH] using rev_ind; intros keys; [by rewrite app_nil_r|].
  rewrite length_app, Nat.add_comm. cbn [length Nat.add replicate app get_string_loop]. rewrite app_assoc, removelast_last.
  replace (b =? -1) with false by (destruct Hb as [->|[->| ->]]; reflexivity).
  replace ((b =? 8) || (b =? 127) || (b =? KEY_BACKSPACE)) with true by (destruct Hb as [->|[->| ->]]; reflexivity).
  rewrite (proj2 (Z.ltb_lt 0 _)) by (rewrite length_app; cbn; lia). cbn [andb]. apply IH.
Qed.

Lemma get_entered nam e keys : enter_key e -> get_string_loop nam (e :: keys) = ioret (nam, keys).
Proof. intros [->| ->]; reflexivity. Qed.

Lemma cstr_id b : Forall (fun c => c <> 0) b -> cstr b = b.
Proof.
  intros H. unfold cstr. rewrite span_all_nil; [done|]. induction H as [|c b Hc H IH]; [done|]. cbn. by rewrite (proj2 (Z.eqb_neq c 0)).
Qed.

(** What a prompt returns is what was typed: keys erased with backspace are gone, either
    Enter key ends the line, leading blanks are skipped where the caller asks for it, and
    the keys after it are left for the next reader. *)
Theorem get_string_reads advance s t u b e keys :
  Forall typable (s ++ t ++ u) -> (length s + length t <= 512)%nat -> (length s + length u < 512)%nat -> erase_key b -> enter_key e ->
  get_string advance (s ++ t ++ replicate (length t) b ++ u ++ e :: keys) =
    ioret (if isblank (hd0 (s ++ u)) && advance then next_word (s ++ u) else s ++ u, keys).
Proof.
  intros Ht Hl1 Hl2 Hb He. rewrite !Forall_app in Ht. destruct Ht as (Hs & Ht & Hu). unfold get_string.
  rewrite (get_typed_all s []) by (done || cbn; lia). cbn [app]. rewrite get_typed_all by (done || lia). rewrite get_erased by done.
  rewrite get_typed_all by (done || lia). rewrite get_entered, iobind_ret_l by done.
  rewrite (proj2 (Z.ltb_lt _ 512)) by (rewrite length_app; lia). rewrite cstr_id; [done|].
  apply Forall_app. split; (eapply List.Forall_impl; [|eassumption]); intros c []; lia.
Qed.

Lemma get_string_witness : get_string true (bs "  ab" ++ bs "xy" ++ replicate 2 127 ++ bs "c" ++ 13 :: bs "q") = ioret (bs "abc", bs "q").
Proof.
  change (bs "abc") with (if isblank (hd0 (bs "  ab" ++ bs "c")) && true then next_word (bs "  ab" ++ bs "c") else bs "  ab" ++ bs "c").
  apply (get_string_reads true (bs "  ab") (bs "xy") (bs "c") 127 13 (bs "q")).
  - repeat constructor; cbn; try lia; discriminate.
  - cbn. lia.
  - cbn. lia.
  - right. by left.
  - by right.
Defined.

(** Nothing stops the line from growing: the 512th byte takes the place of the NUL, the
    next one is stored outside the buffer. *)
Lemma get_string_overflows advance s keys : Forall typable s -> (512 <= length s)%nat -> get_string advance (s ++ 10 :: keys) = undef.
Proof.
  intros Hs Hl. unfold get_string. rewrite <- (take_drop 512 s), <- app_assoc.
  rewrite <- (take_drop 512 s), Forall_app in Hs. destruct Hs as [H1 H2]. rewrite get_typed_all by (done || (rewrite length_take; cbn [length]; lia)).
  assert (Hlen : length (take 512 s) = 512%nat) by (rewrite length_take; lia). cbn [app]. destruct (drop 512 s) as [|k r].
  - cbn [app]. rewrite get_entered, iobind_ret_l by (by left). by rewrite (proj2 (Z.ltb_ge _ 512)) by lia.
  - apply Forall_cons_iff in H2 as [(H0 & H8 & H10 & H13 & H22 & H127) _]. cbn [app get_string_loop]. unfold KEY_BACKSPACE.
    rewrite !(proj2 (Z.eqb_neq k _)) by lia. rewrite (proj2 (Z.ltb_lt k 256)) by lia. cbn [negb andb orb].
    unfold store_key. by rewrite (proj2 (Z.ltb_ge _ 512)) by lia.
Qed.

(** ** Names with variables *)

Inductive var :=
| Plain (n : bytes)
| Braced (n : bytes).

Definition var_of (v : var) : bytes := match v with Plain n | Braced n => n end.
Definition var_text (v : var) : bytes := match v with Plain n => 36 :: n | Braced n => 36 :: 123 :: n ++ [125] end.

(** A name as literal text and variables in turn, and a last piece of text. *)
Fixpoint name_text (ps : list (bytes * var)) (last : bytes) : bytes :=
  match ps with
  | [] => last
  | (lit, v) :: ps => lit ++ var_text v ++ name_text ps last
  end.

(** Each variable by its value, or by itself when it has none. *)
Fixpoint value_text (getenv : bytes -> option bytes) (ps : list (bytes * var)) (last : bytes) : bytes :=
  match ps with
  | [] => last
  | (lit, v) :: ps => lit ++ match getenv (var_of v) with Some x => x | None => var_text v end ++ value_text getenv ps last
  end.

(** The name of a variable ends where its text does. *)
Definition var_ok (v : var) (rest : bytes) : Prop :=
  (length (var_of v) < 128)%nat /\
  match v with
  | Plain n => Forall (fun c => c <> 47 /\ c <> 36) n /\ hd0 n <> 123 /\ (rest = [] \/ hd0 rest = 47 \/ hd0 rest = 36)
  | Braced n => Forall (fun c => c <> 125) n
  end.

Fixpoint name_ok (ps : list (bytes * var)) (last : bytes) : Prop :=
  match ps with
  | [] => Forall (fun c => c <> 36) last
  | (lit, v) :: ps => Forall (fun c => c <> 36) lit /\ var_ok v (name_text ps last) /\ name_ok ps last
  end.

Lemma forallb_ne c s : Forall (fun x => x <> c) s -> forallb (fun x => negb (x =? c)) s = true.
Proof. induction 1 as [|x s Hx _ IH]; [done|]. cbn. by rewrite (proj2 (Z.eqb_neq x c)). Qed.

Lemma var_name_text v rest : var_ok v rest -> var_name (tail (var_text v) ++ rest) = (var_of v, rest).
Proof.
  intros [_ H]. destruct v as [n|n]; cbn [var_text tail var_of].
  - destruct H as (Hn & H0 & Hr). assert (Hs : span (fun c => negb (c =? 47) && negb (c =? 36)) (n ++ rest) = (n, rest)).
    { apply span_all; [|destruct Hr as [->|[->| ->]]; [by left|by right|by right]].
      clear -Hn. induction Hn as [|c n [Ha Hb] _ IH]; [done|]. cbn. by rewrite (proj2 (Z.eqb_neq c 47)), (proj2 (Z.eqb_neq c 36)). }
    unfold var_name. destruct (n ++ rest) as [|c r] eqn:E; [exact Hs|]. assert (Hc : c <> 123).
    { destruct n as [|c' n]; cbn in E; [subst; cbn in Hr; intros ->; destruct Hr as [?|[?|?]]; done|]. injection E as -> _. exact H0. }
    destruct c as [|p|p]; try exact Hs. repeat (destruct p as [p|p|]; try exact Hs). by destruct Hc.
  - unfold var_name. cbn [app]. rewrite <- app_assoc. cbn [app]. rewrite span_all; [done|by apply forallb_ne|right; reflexivity].
Qed.

Lemma resolve_loop_expands getenv fuel ps last out :
  name_ok ps last -> (length ps < fuel)%nat -> (length (out ++ value_text getenv ps last) < 1024)%nat ->
  resolve_loop getenv fuel (name_text ps last) out = Some (Expanded (out ++ value_text getenv ps last)).
Proof.
  revert ps out. induction fuel as [|fuel IH]; intros ps out Hok Hf Hl; [lia|].
  destruct ps as [|[lit v] ps]; cbn [name_text value_text name_ok length] in *.
  - rewrite length_app in Hl. cbn [resolve_loop]. rewrite (proj2 (Z.eqb_neq _ 1024)), (proj2 (Z.leb_gt 1024 _)) by lia.
    destruct last as [|c l] eqn:El; [by rewrite app_nil_r|]. rewrite <- El in *. rewrite (span_all_nil _ last) by (by apply forallb_ne).
    rewrite take_ge by lia. by rewrite (proj2 (Z.leb_gt 1024 _)) by (rewrite length_app; lia).
  - destruct Hok as (Hlit & Hv & Hok). pose proof Hv as [Hn _]. set (rest := name_text ps last) in *.
    assert (Hvt : var_text v = 36 :: tail (var_text v)) by (by destruct v).
    assert (Hne : exists c r, lit ++ var_text v ++ rest = c :: r) by (rewrite Hvt; destruct lit; cbn; eauto). destruct Hne as (c & r & Hne).
    rewrite !length_app in Hl. cbn [resolve_loop]. rewrite Hne. cbv iota. rewrite <- Hne.
    rewrite (proj2 (Z.leb_gt 1024 _)) by lia. rewrite (span_all _ lit) by (first [by apply forallb_ne|right; by rewrite Hvt]). rewrite take_ge by lia.
    rewrite Hvt. cbn [app]. rewrite (proj2 (Z.leb_gt 1024 _)) by (rewrite length_app; lia). rewrite (var_name_text v rest Hv).
    assert (Htk : take (length (36 :: tail (var_text v) ++ rest) - length rest) (36 :: tail (var_text v) ++ rest) = var_text v).
    { change (36 :: tail (var_text v) ++ rest) with ((36 :: tail (var_text v)) ++ rest). rewrite <- Hvt, length_app, Nat.add_sub. apply take_app_length. }
    rewrite Htk. unfold put_var. rewrite (proj2 (Z.leb_gt 128 _)) by lia. clear Htk Hne. subst rest.
    destruct (getenv (var_of v)) as [x|] eqn:Ex.
    + rewrite (proj2 (Z.ltb_lt _ 1024)) by (rewrite length_app; lia). rewrite IH; [by rewrite <- !app_assoc|exact Hok|lia|rewrite !length_app; lia].
    + rewrite (take_ge (var_text v)) by (rewrite length_app; lia). rewrite IH; [rewrite <- !app_assoc; by rewrite <- ?Hvt|exact Hok|lia|rewrite !length_app; lia].
Qed.

Lemma is_in_string_none s c : is_in_string s [c] = None -> Forall (fun x => x <> c) s.
Proof.
  cbn. induction s as [|x s IH]; [done|]. cbn. destruct (Z.eqb_spec x c) as [->|Hx]; cbn [negb]; [done|].
  destruct (span (fun c0 => negb (c0 =? c)) s) as [a b]. intros H. constructor; [done|]. by apply IH.
Qed.

Lemma name_no_dollar ps last : Forall (fun c => c <> 36) (name_text ps last) -> ps = [].
Proof. destruct ps as [|[lit v] ps]; [done|]. cbn. rewrite !Forall_app. intros (_ & H & _). destruct v; cbn in H; by apply Forall_cons_iff in H as [? _]. Qed.

Lemma length_pieces ps last : (length ps <= length (name_text ps last))%nat.
Proof. induction ps as [|[lit v] ps IH]; cbn; [lia|]. rewrite !length_app. destruct v; cbn; lia. Qed.

(** C30. resolve_name replaces every variable of a name, plain or in braces, by its value and
    leaves those without a value as they are, as long as the names of variables fit in
    short_buffer and the result in long_buffer. *)
Theorem resolve_name_expands getenv uid nam ps last :
  name_ok ps last -> hd0 (name_text ps last) <> 126 -> (length (value_text getenv ps last) < 1024)%nat ->
  Forall (fun c => c <> 0) (value_text getenv ps last) ->
  resolve_name getenv uid nam (name_text ps last) = Some (value_text getenv ps last).
Proof.
  intros Hok H0 Hl Hz. unfold resolve_name. assert (Hh : home_name uid nam (name_text ps last) = Some (name_text ps last)).
  { unfold home_name. destruct (name_text ps last) as [|c r]; [done|]. cbn in H0. destruct c as [|p|p]; try done.
    repeat (destruct p as [p|p|]; try done). }
  rewrite Hh. destruct (is_in_string (name_text ps last) [36]) eqn:E.
  - rewrite (resolve_loop_expands getenv _ ps last []); [cbn [app]; by rewrite cstr_id|exact Hok| |exact Hl].
    pose proof (length_pieces ps last). lia.
  - apply is_in_string_none, name_no_dollar in E. by subst.
Qed.

Definition demo_env (n : bytes) : option bytes := if decide (n = bs "HOME") then Some (bs "/root") else None.

Lemma resolve_name_witness : resolve_name demo_env None (fun _ => None) (bs "$HOME/${X}.c") = Some (bs "/root/${X}.c").
Proof.
  apply (resolve_name_expands demo_env None (fun _ => None) [([], Plain (bs "HOME")); ([47], Braced (bs "X"))] (bs ".c")).
  - cbn. split_and!; first [lia|discriminate|by right; left|by repeat constructor|by repeat constructor; lia].
  - discriminate.
  - vm_compute. lia.
  - repeat constructor; discriminate.
Defined.

(** A variable name of 128 bytes, or a value that does not fit, is written outside the
    buffers. *)
Example resolve_name_overflows : resolve_name demo_env None (fun _ => None) (36 :: replicate 128 97) = None.
Proof. vm_compute. reflexivity. Qed.

End EeStrings.
