(* ===== verification/EeConf.v ===== *)
(** * ee(1): settings

    The settings of src/bsd_additions/ee/ee.c: the init files that set them at the start
    (ee_init), the file dump_ee_conf saves them in, and the options of the command line.
    The names of settings come from the message catalog. *)

From S2P Require Import Prelude EeStrings.
From stdpp Require Import base list numbers.
From Stdlib Require Import ZArith Lia.

Open Scope Z_scope.

Module EeConf.

Import EeStrings.
Local Open Scope io_scope.

(** The globals that hold settings. *)
Record conf := Conf {
  case_sen : bool;
  expand_tabs : bool;
  info_window : bool;
  observ_margins : bool;
  auto_format : bool;
  print_command : bytes;
  right_margin : Z;
  nohighlight : bool;
  eightbit : bool;
  emacs_keys_mode : bool;
  ee_chinese : bool
}.

#[export] Instance set_case_sen : Setter case_sen := fun h r => Conf (h (case_sen r)) (expand_tabs r) (info_window r) (observ_margins r) (auto_format r) (print_command r) (right_margin r) (nohighlight r) (eightbit r) (emacs_keys_mode r) (ee_chinese r).
#[export] Instance set_expand_tabs : Setter expand_tabs := fun h r => Conf (case_sen r) (h (expand_tabs r)) (info_window r) (observ_margins r) (auto_format r) (print_command r) (right_margin r) (nohighlight r) (eightbit r) (emacs_keys_mode r) (ee_chinese r).
#[export] Instance set_info_window : Setter info_window := fun h r => Conf (case_sen r) (expand_tabs r) (h (info_window r)) (observ_margins r) (auto_format r) (print_command r) (right_margin r) (nohighlight r) (eightbit r) (emacs_keys_mode r) (ee_chinese r).
#[export] Instance set_observ_margins : Setter observ_margins := fun h r => Conf (case_sen r) (expand_tabs r) (info_window r) (h (observ_margins r)) (auto_format r) (print_command r) (right_margin r) (nohighlight r) (eightbit r) (emacs_keys_mode r) (ee_chinese r).
#[export] Instance set_auto_format : Setter auto_format := fun h r => Conf (case_sen r) (expand_tabs r) (info_window r) (observ_margins r) (h (auto_format r)) (print_command r) (right_margin r) (nohighlight r) (eightbit r) (emacs_keys_mode r) (ee_chinese r).
#[export] Instance set_print_command : Setter print_command := fun h r => Conf (case_sen r) (expand_tabs r) (info_window r) (observ_margins r) (auto_format r) (h (print_command r)) (right_margin r) (nohighlight r) (eightbit r) (emacs_keys_mode r) (ee_chinese r).
#[export] Instance set_right_margin : Setter right_margin := fun h r => Conf (case_sen r) (expand_tabs r) (info_window r) (observ_margins r) (auto_format r) (print_command r) (h (right_margin r)) (nohighlight r) (eightbit r) (emacs_keys_mode r) (ee_chinese r).
#[export] Instance set_nohighlight : Setter nohighlight := fun h r => Conf (case_sen r) (expand_tabs r) (info_window r) (observ_margins r) (auto_format r) (print_command r) (right_margin r) (h (nohighlight r)) (eightbit r) (emacs_keys_mode r) (ee_chinese r).
#[export] Instance set_eightbit : Setter eightbit := fun h r => Conf (case_sen r) (expand_tabs r) (info_window r) (observ_margins r) (auto_format r) (print_command r) (right_margin r) (nohighlight r) (h (eightbit r)) (emacs_keys_mode r) (ee_chinese r).
#[export] Instance set_emacs_keys_mode : Setter emacs_keys_mode := fun h r => Conf (case_sen r) (expand_tabs r) (info_window r) (observ_margins r) (auto_format r) (print_command r) (right_margin r) (nohighlight r) (eightbit r) (h (emacs_keys_mode r)) (ee_chinese r).
#[export] Instance set_ee_chinese : Setter ee_chinese := fun h r => Conf (case_sen r) (expand_tabs r) (info_window r) (observ_margins r) (auto_format r) (print_command r) (right_margin r) (nohighlight r) (eightbit r) (emacs_keys_mode r) (h (ee_chinese r)).

(** fgets(s, n, f): the next line with its newline, or as much of it as fits. *)
Definition fgets (n : nat) (f : bytes) : option (bytes * bytes) :=
  match f with
  | [] => None
  | _ =>
      let pre := (span (fun c => negb (c =? 10)) f).1 in
      let k := Nat.min (n - 1) (S (length pre)) in
      Some (take k f, drop k f)
  end.

(** atoi of a string that starts with a digit; undefined when the number is no int. *)
Definition atoi (s : bytes) : option Z :=
  let n := num_of_digits 10 (span isdigit s).1 in if n <? 2 ^ 31 then Some n else None.

Section Conf.
(** catgets: the text of the catalog for a number, the given one without a catalog. *)
Context (catgetlocal : Z -> bytes -> bytes).

Definition HELP : bytes := catgetlocal 116 (bs "HELP").
Definition WRITE : bytes := catgetlocal 117 (bs "WRITE").
Definition READ : bytes := catgetlocal 118 (bs "READ").
Definition LINE : bytes := catgetlocal 119 (bs "LINE").
Definition FILE_str : bytes := catgetlocal 120 (bs "FILE").
Definition CHARACTER : bytes := catgetlocal 121 (bs "CHARACTER").
Definition REDRAW : bytes := catgetlocal 122 (bs "REDRAW").
Definition RESEQUENCE : bytes := catgetlocal 123 (bs "RESEQUENCE").
Definition AUTHOR : bytes := catgetlocal 124 (bs "AUTHOR").
Definition VERSION : bytes := catgetlocal 125 (bs "VERSION").
Definition CASE : bytes := catgetlocal 126 (bs "CASE").
Definition NOCASE : bytes := catgetlocal 127 (bs "NOCASE").
Definition EXPAND : bytes := catgetlocal 128 (bs "EXPAND").
Definition NOEXPAND : bytes := catgetlocal 129 (bs "NOEXPAND").
Definition Exit_string : bytes := catgetlocal 130 (bs "EXIT").
Definition QUIT_string : bytes := catgetlocal 131 (bs "QUIT").
Definition INFO : bytes := catgetlocal 132 (bs "INFO").
Definition NOINFO : bytes := catgetlocal 133 (bs "NOINFO").
Definition MARGINS : bytes := catgetlocal 134 (bs "MARGINS").
Definition NOMARGINS : bytes := catgetlocal 135 (bs "NOMARGINS").
Definition AUTOFORMAT : bytes := catgetlocal 136 (bs "AUTOFORMAT").
Definition NOAUTOFORMAT : bytes := catgetlocal 137 (bs "NOAUTOFORMAT").
Definition Echo : bytes := catgetlocal 138 (bs "ECHO").
Definition PRINTCOMMAND : bytes := catgetlocal 139 (bs "PRINTCOMMAND").
Definition RIGHTMARGIN : bytes := catgetlocal 140 (bs "RIGHTMARGIN").
Definition HIGHLIGHT : bytes := catgetlocal 141 (bs "HIGHLIGHT").
Definition NOHIGHLIGHT : bytes := catgetlocal 142 (bs "NOHIGHLIGHT").
Definition EIGHTBIT : bytes := catgetlocal 143 (bs "EIGHTBIT").
Definition NOEIGHTBIT : bytes := catgetlocal 144 (bs "NOEIGHTBIT").
Definition EMACS_string : bytes := catgetlocal 159 (bs "EMACS").
Definition NOEMACS_string : bytes := catgetlocal 160 (bs "NOEMACS").
Definition chinese_cmd : bytes := catgetlocal 184 (bs "16BIT").
Definition nochinese_cmd : bytes := catgetlocal 185 (bs "NO16BIT").

Definition init_strings : list bytes :=
  [CASE; NOCASE; EXPAND; NOEXPAND; INFO; NOINFO; MARGINS; NOMARGINS; AUTOFORMAT; NOAUTOFORMAT; Echo; PRINTCOMMAND; RIGHTMARGIN; HIGHLIGHT; NOHIGHLIGHT; EIGHTBIT; NOEIGHTBIT; EMACS_string; NOEMACS_string; chinese_cmd; nochinese_cmd].

Definition commands : list bytes :=
  [HELP; WRITE; READ; LINE; FILE_str; REDRAW; RESEQUENCE; AUTHOR; VERSION; CASE; NOCASE; EXPAND; NOEXPAND;
   Exit_string; QUIT_string; bs "<"; bs ">"; bs "!"; bs "0"; bs "1"; bs "2"; bs "3"; bs "4"; bs "5"; bs "6"; bs "7";
   bs "8"; bs "9"; CHARACTER; chinese_cmd; nochinese_cmd].

(** ** Init files *)

(** What a line of an init file sets. *)
Definition init_line (c : conf) (string : bytes) : io conf :=
  if negb (unique_test string init_strings =? 1)%nat then ioret c
  else if compare string CASE false then ioret (c <| case_sen := true |>)
  else if compare string NOCASE false then ioret (c <| case_sen := false |>)
  else if compare string EXPAND false then ioret (c <| expand_tabs := true |>)
  else if compare string NOEXPAND false then ioret (c <| expand_tabs := false |>)
  else if compare string INFO false then ioret (c <| info_window := true |>)
  else if compare string NOINFO false then ioret (c <| info_window := false |>)
  else if compare string MARGINS false then ioret (c <| observ_margins := true |>)
  else if compare string NOMARGINS false then ioret (c <| observ_margins := false |>)
  else if compare string AUTOFORMAT false then ioret (c <| auto_format := true |> <| observ_margins := true |>)
  else if compare string NOAUTOFORMAT false then ioret (c <| auto_format := false |>)
  else if compare string Echo false then
    let str1 := next_word string in
    if negb (hd0 str1 =? 0) then echo_string str1 ;; ioret c else ioret c
  else if compare string PRINTCOMMAND false then ioret (c <| print_command := next_word string |>)
  else if compare string RIGHTMARGIN false then
    let str1 := next_word string in
    if isdigit (hd0 str1) then
      match atoi str1 with
      | Some n => ioret (if 0 <? n then c <| right_margin := n |> else c)
      | None => undef
      end
    else ioret c
  else if compare string HIGHLIGHT false then ioret (c <| nohighlight := false |>)
  else if compare string NOHIGHLIGHT false then ioret (c <| nohighlight := true |>)
  else if compare string EIGHTBIT false then ioret (c <| eightbit := true |>)
  else if compare string NOEIGHTBIT false then ioret (c <| eightbit := false |> <| ee_chinese := false |>)
  else if compare string EMACS_string false then ioret (c <| emacs_keys_mode := true |>)
  else if compare string NOEMACS_string false then ioret (c <| emacs_keys_mode := false |>)
  else if compare string chinese_cmd false then ioret (c <| ee_chinese := true |> <| eightbit := true |>)
  else if compare string nochinese_cmd false then ioret (c <| ee_chinese := false |>)
  else ioret c.

(** The buffer after fgets, and the place of the newline the code looks for without
    stopping at the NUL. *)
Definition fill (s buffer : bytes) : bytes := s ++ 0 :: drop (S (length s)) buffer.
Definition newline_at (buffer : bytes) : option nat :=
  let i := length (span (fun c => negb (c =? 10)) buffer).1 in
  if (i <? length buffer)%nat then Some i else None.

(** The lines of a file, read through the 512 bytes of [string]; undefined when the
    search for the newline leaves them. *)
Fixpoint read_init (fuel : nat) (buffer f : bytes) (c : conf) : io (conf * bytes) :=
  match fgets 512 f with
  | None => ioret (c, buffer)
  | Some (s, f) =>
      match fuel with
      | O => undef
      | S fuel =>
          let buffer := fill s buffer in
          match newline_at buffer with
          | None => undef
          | Some i =>
              let buffer := <[i := 0]> buffer in
              let* c := init_line c (cstr buffer) in
              read_init fuel buffer f c
          end
      end
  end.

(** The readable ones of the three init files, then the language. *)
Fixpoint init_files (files : list (option bytes)) (buffer : bytes) (c : conf) : io conf :=
  match files with
  | [] => ioret c
  | None :: files => init_files files buffer c
  | Some f :: files => let* (c, buffer) := read_init (S (length f)) buffer f c in init_files files buffer c
  end.

Definition ee_init (junk : bytes) (files : list (option bytes)) (lang : option bytes) (c : conf) : io conf :=
  let* c := init_files files (take 512 (junk ++ replicate 512 0)) c in
  ioret (if decide (lang = Some (bs "zh_TW.big5")) then c <| ee_chinese := true |> <| eightbit := true |> else c).

(** ** Saving the settings *)

Definition dump_conf (c : conf) : bytes :=
  concat (map (fun l => l ++ [10])
    [if case_sen c then CASE else NOCASE;
     if expand_tabs c then EXPAND else NOEXPAND;
     if info_window c then INFO else NOINFO;
     if observ_margins c then MARGINS else NOMARGINS;
     if auto_format c then AUTOFORMAT else NOAUTOFORMAT;
     PRINTCOMMAND ++ 32 :: print_command c;
     RIGHTMARGIN ++ 32 :: fmt_d (right_margin c);
     if nohighlight c then NOHIGHLIGHT else HIGHLIGHT;
     if eightbit c then EIGHTBIT else NOEIGHTBIT;
     if emacs_keys_mode c then EMACS_string else NOEMACS_string;
     if ee_chinese c then chinese_cmd else nochinese_cmd]).

(** The lines of the old file that are no settings, or are echo lines. *)
Definition kept (string : bytes) : bool :=
  if (unique_test string init_strings =? 1)%nat then compare string Echo false else true.

Fixpoint copy_old (fuel : nat) (f : bytes) : io bytes :=
  match fgets 512 f with
  | None => ioret []
  | Some (s, f) =>
      match fuel with
      | O => undef
      | S fuel =>
          let length := length (cstr s) in
          if (length =? 0)%nat then undef
          else
            let string := take (length - 1) (cstr s) in
            let* rest := copy_old fuel f in
            ioret (if kept string then string ++ 10 :: rest else rest)
      end
  end.

(** The name and the new contents of the file written, if any: [option] is the choice
    in the menu, [home] the name ~/.init.ee stands for, [old] the file that was there. *)
Definition dump_ee_conf (restricted can_open : bool) (option : Z) (home : bytes) (old : Datatypes.option bytes) (c : conf)
  : io (Datatypes.option (bytes * bytes)) :=
  if restricted then ioret None
  else if option =? 0 then ioret None
  else
    let file_name := if option =? 2 then home else bs ".init.ee" in
    if negb can_open then ioret None
    else
      match old with
      | None => ioret (Some (file_name, dump_conf c))
      | Some f =>
          let* lines := copy_old (S (length f)) f in
          ioret (Some (file_name, lines ++ dump_conf c))
      end.

(** ** The command line *)

Record options := Options { restricted : bool; start_at_line : option bytes; top_of_stack : list bytes; input_file : bool; recv_file : bool }.

Definition usage0 : bytes := catgetlocal 80 (bs "usage: %s [-i] [-e] [-h] [+line_number] [file(s)]" ++ [10]).
Definition usage1 : bytes := catgetlocal 81 (bs "       -i   turn off info window" ++ [10]).
Definition usage2 : bytes := catgetlocal 82 (bs "       -e   do not convert tabs to spaces" ++ [10]).
Definition usage3 : bytes := catgetlocal 83 (bs "       -h   do not use highlighting" ++ [10]).
Definition usage4 : bytes := catgetlocal 161 (bs "       +#   put cursor at line #" ++ [10]).

(** fprintf with a string for the [%s] of the format. *)
Fixpoint printf_s (format arg : bytes) : bytes :=
  match format with
  | 37 :: 115 :: rest => arg ++ rest
  | c :: rest => c :: printf_s rest arg
  | [] => []
  end.

(** The options before the first file name or --. *)
Fixpoint get_flags (arg0 : bytes) (args : list bytes) (start : option bytes) (c : conf) : io (list bytes * option bytes * conf) :=
  match args with
  | [] => ioret ([], start, c)
  | buff :: rest =>
      if decide (buff = bs "-i") then get_flags arg0 rest start (c <| info_window := false |>)
      else if decide (buff = bs "-e") then get_flags arg0 rest start (c <| expand_tabs := false |>)
      else if decide (buff = bs "-h") then get_flags arg0 rest start (c <| nohighlight := true |>)
      else if decide (buff = bs "-?") then exit_ 1 (printf_s usage0 arg0 ++ usage1 ++ usage2 ++ usage3 ++ usage4)
      else if (hd0 buff =? 43) && (match start with None => true | Some _ => false end) then get_flags arg0 rest (Some (tail buff)) c
      else if decide (buff = bs "--") then ioret (rest, start, c)
      else ioret (args, start, c)
  end.

(** The name after the last slash. *)
Definition base_name (arg0 : bytes) : bytes := reverse (span (fun c => negb (c =? 47)) (reverse arg0)).1.

Definition get_options (arg0 : bytes) (args : list bytes) (c : conf) : io (options * conf) :=
  let* (files, start, c) := get_flags arg0 args None c in
  let some := negb (bool_decide (files = [])) in
  ioret (Options (bool_decide (base_name arg0 = bs "ree")) start files some some, c).

End Conf.

(** ** What is saved is read back *)

Section Reading.
(** No catalog is open: every text is the one in the program. *)
Context (catgetlocal : Z -> bytes -> bytes) (no_catalog : forall n s, catgetlocal n s = s).

Definition in_code (n : Z) (s : bytes) : bytes := s.

Lemma init_line_default c s : init_line catgetlocal c s = init_line in_code c s.
Proof.
  unfold init_line, init_strings, CASE, NOCASE, EXPAND, NOEXPAND, INFO, NOINFO, MARGINS, NOMARGINS, AUTOFORMAT, NOAUTOFORMAT, Echo,
    PRINTCOMMAND, RIGHTMARGIN, HIGHLIGHT, NOHIGHLIGHT, EIGHTBIT, NOEIGHTBIT, EMACS_string, NOEMACS_string, chinese_cmd, nochinese_cmd.
  rewrite !no_catalog. reflexivity.
Qed.

Lemma kept_default s : kept catgetlocal s = kept in_code s.
Proof.
  unfold kept, init_strings, CASE, NOCASE, EXPAND, NOEXPAND, INFO, NOINFO, MARGINS, NOMARGINS, AUTOFORMAT, NOAUTOFORMAT, Echo,
    PRINTCOMMAND, RIGHTMARGIN, HIGHLIGHT, NOHIGHLIGHT, EIGHTBIT, NOEIGHTBIT, EMACS_string, NOEMACS_string, chinese_cmd, nochinese_cmd.
  rewrite !no_catalog. reflexivity.
Qed.

Lemma dump_conf_default c : dump_conf catgetlocal c = dump_conf in_code c.
Proof.
  unfold dump_conf, CASE, NOCASE, EXPAND, NOEXPAND, INFO, NOINFO, MARGINS, NOMARGINS, AUTOFORMAT, NOAUTOFORMAT,
    PRINTCOMMAND, RIGHTMARGIN, HIGHLIGHT, NOHIGHLIGHT, EIGHTBIT, NOEIGHTBIT, EMACS_string, NOEMACS_string, chinese_cmd, nochinese_cmd.
  rewrite !no_catalog. reflexivity.
Qed.

(** A line that fits in the buffer, and the lines as a file. *)
Definition line_ok (s : bytes) : Prop := Forall (fun c => c <> 0 /\ c <> 10) s /\ (length s <= 510)%nat.
Definition file_of (lines : list bytes) : bytes := concat (map (fun l => l ++ [10]) lines).

Fixpoint init_lines (c : conf) (lines : list bytes) : io conf :=
  match lines with
  | [] => ioret c
  | l :: lines => let* c := init_line catgetlocal c l in init_lines c lines
  end.

Lemma fgets_line s f : line_ok s -> fgets 512 (s ++ 10 :: f) = Some (s ++ [10], f).
Proof.
  intros [Hs Hl]. unfold fgets. assert (Hsp : span (fun c => negb (c =? 10)) (s ++ 10 :: f) = (s, 10 :: f)).
  { apply span_all; [|right; reflexivity]. apply forallb_ne. eapply List.Forall_impl; [|exact Hs]. by intros c []. }
  rewrite Hsp. cbn [fst]. rewrite Nat.min_r by lia.
  replace (s ++ 10 :: f) with ((s ++ [10]) ++ f) by (by rewrite <- app_assoc).
  replace (S (length s)) with (length (s ++ [10])) by (rewrite length_app; cbn; lia).
  rewrite take_app_length, drop_app_length. destruct ((s ++ [10]) ++ f) eqn:E; [|done]. by destruct s.
Qed.

Lemma newline_found s b : line_ok s -> newline_at (s ++ 10 :: b) = Some (length s).
Proof.
  intros [Hs _]. unfold newline_at. rewrite (span_all _ s (10 :: b)); [|apply forallb_ne; eapply List.Forall_impl; [|exact Hs]; by intros c []|right; reflexivity].
  cbn [fst]. rewrite length_app. cbn [length]. by rewrite (proj2 (Nat.ltb_lt _ _)) by lia.
Qed.

Lemma cstr_app s b : Forall (fun c => c <> 0 /\ c <> 10) s -> cstr (s ++ 0 :: b) = s.
Proof.
  intros Hs. unfold cstr. rewrite (span_all _ s (0 :: b)); [done| |right; reflexivity].
  apply forallb_ne. eapply List.Forall_impl; [|exact Hs]. by intros c [].
Qed.

Lemma read_init_line s f buffer c fuel : line_ok s -> length buffer = 512%nat ->
  exists buffer', length buffer' = 512%nat /\
    read_init catgetlocal (S fuel) buffer (s ++ 10 :: f) c = let* c := init_line catgetlocal c s in read_init catgetlocal fuel buffer' f c.
Proof.
  intros Hs Hb. destruct (Hs) as [Hc Hl]. eexists. split; cycle 1.
  - cbn [read_init]. rewrite fgets_line by done. unfold fill. rewrite <- app_assoc. cbn [app]. rewrite newline_found by done.
    rewrite insert_app_r_alt by lia. rewrite Nat.sub_diag. cbn [list_insert insert]. rewrite cstr_app by done. reflexivity.
  - rewrite length_app. cbn [length]. rewrite length_drop, length_app. cbn [length]. lia.
Qed.

#[local] Opaque init_line compare.

Lemma iobind_Ret {A B} (m : io A) (k : A -> io B) o1 o2 a b : m = (o1, Ret a) -> k a = (o2, Ret b) -> iobind m k = (o1 ++ o2, Ret b).
Proof. intros -> H. unfold iobind. by rewrite H. Qed.

Lemma iobind_Ret_inv {A B} (m : io A) (k : A -> io B) o b : iobind m k = (o, Ret b) ->
  exists o1 o2 a, m = (o1, Ret a) /\ k a = (o2, Ret b) /\ o = o1 ++ o2.
Proof.
  unfold iobind. destruct m as [o1 [a| |]]; try done. destruct (k a) as [o2 r] eqn:E. intros [= <- ->]. eauto 6.
Qed.

Lemma read_init_lines lines : forall buffer c fuel o c', Forall line_ok lines -> length buffer = 512%nat -> (length lines <= fuel)%nat ->
  init_lines c lines = (o, Ret c') ->
  exists buffer', length buffer' = 512%nat /\ read_init catgetlocal fuel buffer (file_of lines) c = (o, Ret (c', buffer')).
Proof.
  induction lines as [|l lines IH]; intros buffer c fuel o c' Hok Hb Hf Hi; cbn [init_lines file_of map concat length] in *.
  - injection Hi as <- <-. exists buffer. split; [done|]. by destruct fuel.
  - apply Forall_cons_iff in Hok as [Hl Hok]. destruct fuel as [|fuel]; [lia|].
    apply iobind_Ret_inv in Hi as (o1 & o2 & c1 & E1 & E2 & ->).
    destruct (read_init_line l (file_of lines) buffer c fuel Hl Hb) as (b1 & Hb1 & E).
    destruct (IH b1 c1 fuel o2 c' Hok Hb1 ltac:(lia) E2) as (b2 & Hb2 & E3).
    exists b2. split; [done|]. rewrite <- app_assoc. cbn [app]. unfold file_of in E. rewrite E. by apply (iobind_Ret _ _ _ _ c1).
Qed.

Lemma init_lines_app c l1 l2 o1 o2 c1 c2 : init_lines c l1 = (o1, Ret c1) -> init_lines c1 l2 = (o2, Ret c2) ->
  init_lines c (l1 ++ l2) = (o1 ++ o2, Ret c2).
Proof.
  revert c o1. induction l1 as [|l l1 IH]; intros c o1 H1 H2; cbn [init_lines app] in *.
  - by injection H1 as <- <-.
  - apply iobind_Ret_inv in H1 as (oa & ob & ca & Ea & Eb & ->). rewrite <- app_assoc. apply (iobind_Ret _ _ _ _ ca); [done|by apply IH].
Qed.

(** A kept line changes nothing; an echo line says what it says. *)
Definition echoes (s : bytes) : Prop := exists o, echo_string (next_word s) = (o, Ret tt).

Lemma only_one {A} (f : A -> bool) l1 x l2 y : length (List.filter f (l1 ++ x :: l2)) = 1%nat -> f x = true -> In y l1 -> f y = false.
Proof.
  intros H Hx Hy. rewrite List.filter_app, length_app in H. cbn [List.filter] in H. rewrite Hx in H. cbn [length] in H.
  destruct (f y) eqn:E; [|done]. assert (Hin : In y (List.filter f l1)) by (by apply List.filter_In).
  destruct (List.filter f l1); [done|]. cbn [length] in H. lia.
Qed.

#[local] Transparent init_line.

Lemma echo_only s : unique_test s (init_strings in_code) = 1%nat -> compare s (Echo in_code) false = true ->
  forall y, In y (take 10 (init_strings in_code)) -> compare s y false = false.
Proof.
  unfold unique_test. intros Hu Hk y. apply (only_one (fun n => compare s n false) _ (Echo in_code) (drop 11 (init_strings in_code))); [|exact Hk].
  assert (E : take 10 (init_strings in_code) ++ Echo in_code :: drop 11 (init_strings in_code) = init_strings in_code) by reflexivity. by rewrite E.
Qed.

#[local] Opaque unique_test.

Lemma init_line_kept c s : kept in_code s = true -> echoes s -> exists o, init_line in_code c s = (o, Ret c).
Proof.
  intros Hk [o Ho]. unfold kept in Hk. destruct (Nat.eqb_spec (unique_test s (init_strings in_code)) 1) as [Hu|Hu].
  - pose proof (echo_only s Hu Hk) as Hf. 
    unfold init_line. replace (negb (unique_test s (init_strings in_code) =? 1)%nat) with false by (by rewrite Hu).
    unfold init_strings in Hf. cbn [take] in Hf. rewrite <- List.Forall_forall in Hf. rewrite !Forall_cons_iff in Hf. destruct_and! Hf.
    repeat match goal with H : compare s _ false = false |- _ => rewrite H; clear H end. rewrite Hk.
    destruct (negb (hd0 (next_word s) =? 0)); [|by eexists]. rewrite Ho. by eexists.
  - unfold init_line. rewrite (proj2 (Nat.eqb_neq _ 1) Hu). by eexists.
Qed.

#[local] Opaque init_line.

Lemma init_lines_kept c lines : Forall (fun s => kept in_code s = true /\ echoes s) lines -> exists o, init_lines c lines = (o, Ret c).
Proof.
  induction 1 as [|s lines [Hk He] _ [o IH]]; [by exists []|]. cbn [init_lines].
  destruct (init_line_kept c s Hk He) as [o1 E]. rewrite init_line_default, E. exists (o1 ++ o). unfold iobind. by rewrite IH.
Qed.

(** *** The settings that can be saved *)

Definition conf_ok (c : conf) : Prop :=
  0 < right_margin c < 2 ^ 31 /\
  (auto_format c = true -> observ_margins c = true) /\
  (ee_chinese c = true -> eightbit c = true) /\
  Forall (fun x => x <> 0 /\ x <> 10) (print_command c) /\ isblank (hd0 (print_command c)) = false /\ (length (print_command c) <= 497)%nat.

Definition conf_lines (c : conf) : list bytes :=
  [if case_sen c then bs "CASE" else bs "NOCASE";
   if expand_tabs c then bs "EXPAND" else bs "NOEXPAND";
   if info_window c then bs "INFO" else bs "NOINFO";
   if observ_margins c then bs "MARGINS" else bs "NOMARGINS";
   if auto_format c then bs "AUTOFORMAT" else bs "NOAUTOFORMAT";
   bs "PRINTCOMMAND" ++ 32 :: print_command c;
   bs "RIGHTMARGIN" ++ 32 :: fmt_d (right_margin c);
   if nohighlight c then bs "NOHIGHLIGHT" else bs "HIGHLIGHT";
   if eightbit c then bs "EIGHTBIT" else bs "NOEIGHTBIT";
   if emacs_keys_mode c then bs "EMACS" else bs "NOEMACS";
   if ee_chinese c then bs "16BIT" else bs "NO16BIT"].

Lemma length_digits fuel b n acc : (length (digits_aux fuel b n acc) <= fuel + length acc)%nat.
Proof.
  revert n acc. induction fuel as [|fuel IH]; intros n acc; [cbn; lia|]. cbn [digits_aux].
  destruct (n / b =? 0); [cbn [length]; lia|]. etransitivity; [apply IH|]. cbn [length]. lia.
Qed.

Lemma fmt_d_digits n : 0 < n < 2 ^ 31 ->
  isdigit (hd0 (fmt_d n)) = true /\ atoi (fmt_d n) = Some n /\ Forall (fun c => c <> 0 /\ c <> 10) (fmt_d n) /\ (length (fmt_d n) <= 64)%nat.
Proof.
  intros Hn. unfold fmt_d. rewrite (proj2 (Z.ltb_ge n 0)) by lia.
  destruct (print_base_spec 10 n) as (Hne & Hd & Hv & _); [lia|unfold ULONG_MAX; lia|].
  assert (Hdig : forallb isdigit (print_base 10 n) = true).
  { rewrite forallb_forall in *. intros c Hc. by apply base10_isdigit, Hd. }
  split_and!.
  - destruct (print_base 10 n); [done|]. cbn in *. by apply andb_prop in Hdig as [? _].
  - unfold atoi. rewrite span_all_nil by done. cbn [fst]. rewrite Hv. by rewrite (proj2 (Z.ltb_lt _ _)) by lia.
  - apply List.Forall_forall. intros c Hc. rewrite forallb_forall in Hdig. apply Hdig in Hc. unfold isdigit in Hc. lia.
  - unfold print_base. etransitivity; [apply length_digits|]. cbn. lia.
Qed.

Lemma next_word_after w s : forallb (fun c => negb (isblank c)) w = true -> isblank (hd0 s) = false -> next_word (w ++ 32 :: s) = s.
Proof.
  intros Hw Hs. unfold next_word. rewrite (span_all _ w (32 :: s)) by (done || by right). cbn [snd span isblank]. cbn.
  destruct s as [|c s]; [done|]. cbn [span]. cbn [hd0] in Hs. by rewrite Hs.
Qed.

#[local] Transparent init_line compare unique_test.

(** One line at a time: the flags, the print command and the margin. *)
Lemma reads_print c s : isblank (hd0 s) = false -> init_line in_code c (bs "PRINTCOMMAND" ++ 32 :: s) = ioret (c <| print_command := s |>).
Proof.
  intros Hs. transitivity (ioret (A := conf) (c <| print_command := next_word (bs "PRINTCOMMAND" ++ 32 :: s) |>)); [reflexivity|].
  by rewrite next_word_after.
Qed.

Lemma reads_margin c n : 0 < n < 2 ^ 31 -> init_line in_code c (bs "RIGHTMARGIN" ++ 32 :: fmt_d n) = ioret (c <| right_margin := n |>).
Proof.
  intros Hn. destruct (fmt_d_digits n Hn) as (Hd & Ha & _). 
  assert (Hw : next_word (bs "RIGHTMARGIN" ++ 32 :: fmt_d n) = fmt_d n).
  { apply next_word_after; [done|]. unfold isdigit in Hd. unfold isblank. lia. }
  transitivity (let str1 := next_word (bs "RIGHTMARGIN" ++ 32 :: fmt_d n) in
    if isdigit (hd0 str1) then
      match atoi str1 with
      | Some n => ioret (if 0 <? n then c <| right_margin := n |> else c)
      | None => undef
      end
    else ioret c); [reflexivity|]. cbv zeta. rewrite Hw, Hd, Ha. by rewrite (proj2 (Z.ltb_lt 0 n)) by lia.
Qed.

Lemma conf_lines_ok c : conf_ok c -> Forall line_ok (conf_lines c).
Proof.
  intros (Hr & _ & _ & Hp & _ & Hl). destruct (fmt_d_digits _ Hr) as (_ & _ & Hd & Hn).
  assert (Hb : forall (b : bool) x y, line_ok x -> line_ok y -> line_ok (if b then x else y)) by (by intros []).
  assert (Hc : forall s, forallb (fun c => negb (c =? 0) && negb (c =? 10)) s = true -> (length s <= 510)%nat -> line_ok s).
  { intros s H H'. split; [|done]. apply List.Forall_forall. intros x Hx. rewrite forallb_forall in H. apply H in Hx. lia. }
  unfold conf_lines. repeat apply Forall_cons_2; try (apply Hb; (apply Hc; [reflexivity|cbn; lia])); [| |constructor].
  - split; [|rewrite length_app; cbn [length bs]; lia]. apply Forall_app. split; [|constructor; [lia|done]]. apply Hc; [reflexivity|cbn; lia].
  - split; [|rewrite length_app; cbn [length bs]; lia]. apply Forall_app. split; [|constructor; [lia|done]]. apply Hc; [reflexivity|cbn; lia].
Qed.

Lemma reads_flags (c : conf) (b : bool) :
  init_line in_code c (if b then bs "CASE" else bs "NOCASE") = ioret (c <| case_sen := b |>) /\
  init_line in_code c (if b then bs "EXPAND" else bs "NOEXPAND") = ioret (c <| expand_tabs := b |>) /\
  init_line in_code c (if b then bs "INFO" else bs "NOINFO") = ioret (c <| info_window := b |>) /\
  init_line in_code c (if b then bs "MARGINS" else bs "NOMARGINS") = ioret (c <| observ_margins := b |>) /\
  init_line in_code c (if b then bs "AUTOFORMAT" else bs "NOAUTOFORMAT") = ioret (c <| auto_format := b |> <| observ_margins := b || observ_margins c |>) /\
  init_line in_code c (if b then bs "NOHIGHLIGHT" else bs "HIGHLIGHT") = ioret (c <| nohighlight := b |>) /\
  init_line in_code c (if b then bs "EIGHTBIT" else bs "NOEIGHTBIT") = ioret (c <| eightbit := b |> <| ee_chinese := b && ee_chinese c |>) /\
  init_line in_code c (if b then bs "EMACS" else bs "NOEMACS") = ioret (c <| emacs_keys_mode := b |>) /\
  init_line in_code c (if b then bs "16BIT" else bs "NO16BIT") = ioret (c <| ee_chinese := b |> <| eightbit := b || eightbit c |>).
Proof. destruct c, b; split_and!; vm_compute; reflexivity. Qed.

Lemma init_step c l ls c' r : init_line in_code c l = ioret c' -> init_lines c' ls = r -> init_lines c (l :: ls) = r.
Proof. intros H <-. cbn [init_lines]. by rewrite init_line_default, H, iobind_ret_l. Qed.

(** The eleven lines set the eleven settings. *)
Lemma init_lines_conf c0 c : conf_ok c -> init_lines c0 (conf_lines c) = ioret c.
Proof.
  intros (Hr & Ha & He & _ & Hb & _). unfold conf_lines.
  do 5 (eapply init_step; [apply reads_flags|]). eapply init_step; [by apply reads_print|]. eapply init_step; [by apply reads_margin|].
  do 4 (eapply init_step; [apply reads_flags|]). cbn [init_lines]. f_equal. destruct c as [cs ex inf om af pc rm nh eb em zh], c0. cbn in Ha, He.
  unfold set_field; cbn. destruct af, om, eb, zh; try reflexivity; naive_solver.
Qed.

(** *** Old files *)

Lemma copy_old_lines lines fuel : Forall line_ok lines -> (length lines <= fuel)%nat ->
  copy_old catgetlocal fuel (file_of lines) = ioret (file_of (List.filter (kept in_code) lines)).
Proof.
  revert fuel. induction lines as [|l lines IH]; intros fuel Hok Hf; [by destruct fuel|]. destruct fuel as [|fuel]; cbn [length] in Hf; [lia|].
  apply Forall_cons_iff in Hok as [Hl Hok]. cbn [file_of map concat]. rewrite <- app_assoc. cbn [app copy_old]. rewrite fgets_line by done.
  rewrite cstr_id by (apply Forall_app; split; [eapply List.Forall_impl; [|apply Hl]; by intros ? []|by repeat constructor]).
  rewrite length_app, Nat.add_comm. cbn [length Nat.add Nat.eqb Nat.sub]. rewrite Nat.sub_0_r, take_app_length.
  fold (file_of lines). rewrite IH, iobind_ret_l by (done || lia). rewrite kept_default. cbn [List.filter]. destruct (kept in_code l); [|done].
  cbn [file_of map concat]. by rewrite <- app_assoc.
Qed.

Lemma length_file_of lines : (length lines <= length (file_of lines))%nat.
Proof. induction lines as [|l lines IH]; [done|]. cbn. rewrite !length_app. cbn. unfold file_of in IH. lia. Qed.

Lemma dump_conf_lines c : dump_conf in_code c = file_of (conf_lines c).
Proof. reflexivity. Qed.

End Reading.

(** C16. Saved settings are read back: whatever settings ee starts with, the file that
    dump_ee_conf writes over an old init file makes ee_init set exactly the settings that
    were saved, and the old file's echo lines and unknown lines do not get in the way. *)
Theorem saved_settings_read_back (catgetlocal : Z -> bytes -> bytes) (junk : bytes) (old : option (list bytes)) (option : Z) (home : bytes) (c0 c : conf) :
  (forall n s, catgetlocal n s = s) -> conf_ok c -> option <> 0 ->
  match old with Some lines => Forall (fun l => line_ok l /\ echoes l) lines | None => True end ->
  exists name file out,
    dump_ee_conf catgetlocal false true option home (file_of <$> old) c = ioret (Some (name, file)) /\
    ee_init catgetlocal junk [None; None; Some file] None c0 = (out, Ret c).
Proof.
  intros Hcat Hc Ho Hold. set (lines := match old with Some l => List.filter (kept in_code) l | None => [] end).
  assert (Hd : exists name, dump_ee_conf catgetlocal false true option home (file_of <$> old) c = ioret (Some (name, file_of (lines ++ conf_lines c)))).
  { unfold dump_ee_conf. rewrite (proj2 (Z.eqb_neq option 0)) by done. cbn [negb]. eexists. unfold file_of at 2. rewrite map_app, concat_app.
    fold (file_of lines) (file_of (conf_lines c)). rewrite dump_conf_default, dump_conf_lines by done. destruct old as [l|]; [|done]. cbn [fmap option_fmap option_map].
    rewrite copy_old_lines, iobind_ret_l; [done|done| |pose proof (length_file_of l); lia]. eapply List.Forall_impl; [|exact Hold]. by intros ? []. }
  assert (Hk : Forall (fun s => line_ok s /\ kept in_code s = true /\ echoes s) lines).
  { subst lines. destruct old as [l|]; [|done]. apply List.Forall_forall. intros s [Hs Hk]%List.filter_In.
    rewrite List.Forall_forall in Hold. destruct (Hold s Hs). done. }
  destruct (init_lines_kept catgetlocal Hcat c0 lines) as [o Ekept]; [eapply List.Forall_impl; [|exact Hk]; by intros ? []|].
  destruct (read_init_lines catgetlocal (lines ++ conf_lines c) (take 512 (junk ++ replicate 512 0)) c0
    (S (length (file_of (lines ++ conf_lines c)))) (o ++ []) c) as (b & Hb & E).
  - apply Forall_app. split; [eapply List.Forall_impl; [|exact Hk]; by intros ? []|by apply conf_lines_ok].
  - rewrite length_take, length_app, length_replicate. lia.
  - pose proof (length_file_of (lines ++ conf_lines c)). lia.
  - eapply init_lines_app; [exact Ekept|by apply init_lines_conf].
  - destruct Hd as [name Hd]. exists name, (file_of (lines ++ conf_lines c)), (((o ++ []) ++ []) ++ []). split; [exact Hd|].
    unfold ee_init. cbn [init_files]. apply (iobind_Ret _ _ _ _ c); [|by rewrite decide_False]. by apply (iobind_Ret _ _ _ _ (c, b)).
Qed.

Definition demo_conf : conf := Conf true false true true true (bs "lpr -h") 72 false true false true.

Lemma saved_settings_witness : exists name file out,
  dump_ee_conf in_code false true 1 [] (Some (bs "echo hello\n" ++ 10 :: bs "NOCASE" ++ [10; 35; 10])) demo_conf = ioret (Some (name, file)) /\
  ee_init in_code [] [None; None; Some file] None (Conf false true false false false [] 80 true false true false) = (out, Ret demo_conf).
Proof.
  apply (saved_settings_read_back in_code [] (Some [bs "echo hello\n"; bs "NOCASE"; [35]]) 1 []).
  - reflexivity.
  - unfold conf_ok. split_and!; first [cbn; lia|reflexivity|repeat constructor; discriminate|by intros _].
  - discriminate.
  - repeat constructor; first [discriminate|cbn; lia|by eexists].
Defined.

(** *** Files that are not as the code expects them *)

(** A last line without a newline is searched for one past what was read: here to the
    end of the buffer and on. *)
Lemma unterminated_line_overruns : ee_init in_code [] [Some (bs "case")] None demo_conf = undef.
Proof. vm_compute. reflexivity. Qed.

(** And when the file is saved, that line loses its last character. *)
Lemma unterminated_line_truncated : copy_old in_code 8 (bs "# mine") = ioret (bs "# min" ++ [10]).
Proof. vm_compute. reflexivity. Qed.

(** Formatting left on when the margins were turned off comes back with margins. *)
Lemma auto_format_brings_margins c : auto_format c = true -> observ_margins c = false ->
  exists c', init_lines in_code demo_conf (conf_lines (c <| print_command := [] |> <| right_margin := 80 |>)) = ioret c' /\ observ_margins c' = true.
Proof. intros Ha Ho. destruct c as [cs ex inf om af pc rm nh eb em zh]. cbn in Ha, Ho. subst. destruct cs, ex, inf, nh, eb, em, zh; (eexists; split; [vm_compute; reflexivity|reflexivity]). Qed.

(** At the command prompt, neither 1 nor 16 nor 16BIT stands for one command. *)
Lemma one_is_ambiguous : unique_test (bs "1") (commands in_code) = 2%nat /\ unique_test (bs "16") (commands in_code) = 2%nat /\
  unique_test (bs "16BIT") (commands in_code) = 2%nat /\ unique_test (bs "2") (commands in_code) = 1%nat.
Proof. vm_compute. repeat split. Qed.

(** ** The command line *)

Definition flag (f : bytes) : Prop := f = bs "-i" \/ f = bs "-e" \/ f = bs "-h".

Definition after_flags (fs : list bytes) (c : conf) : conf :=
  c <| info_window := info_window c && negb (bool_decide (bs "-i" ∈ fs)) |> <| expand_tabs := expand_tabs c && negb (bool_decide (bs "-e" ∈ fs)) |>
    <| nohighlight := nohighlight c || bool_decide (bs "-h" ∈ fs) |>.

(** An argument that ends the options when there is or is not a +line before it. *)
Definition no_option (start : option bytes) (a : bytes) : Prop :=
  ~ flag a /\ a <> bs "-?" /\ a <> bs "--" /\ (hd0 a = 43 -> start <> None).

Lemma get_flags_app cat arg0 fs rest start c : Forall flag fs -> get_flags cat arg0 (fs ++ rest) start c = get_flags cat arg0 rest start (after_flags fs c).
Proof.
  intros Hf. revert c. induction Hf as [|f fs Hf _ IH]; intros c.
  - cbn [app]. f_equal. destruct c as [cs ex inf om af pc rm nh eb em zh]. unfold after_flags, set_field; cbn. by rewrite !andb_true_r, orb_false_r.
  - destruct c as [cs ex inf om af pc rm nh eb em zh]. unfold after_flags.
    assert (Hin : forall x, bool_decide (x ∈ f :: fs) = bool_decide (x = f) || bool_decide (x ∈ fs)).
    { intros x. rewrite <- bool_decide_or. apply bool_decide_ext. apply elem_of_cons. }
    rewrite !Hin. destruct Hf as [->|[->| ->]]; cbn [app get_flags]; repeat (rewrite decide_False by done); rewrite decide_True by done; rewrite IH; f_equal;
      unfold after_flags, set_field; cbn; by destruct (bool_decide (bs "-i" ∈ fs)), (bool_decide (bs "-e" ∈ fs)), (bool_decide (bs "-h" ∈ fs)), ex, inf, nh.
Qed.

Lemma get_flags_ends cat arg0 start sep files c :
  sep = [bs "--"] \/ sep = [] /\ match files with [] => True | f :: _ => no_option start f end ->
  get_flags cat arg0 (sep ++ files) start c = ioret (files, start, c).
Proof.
  intros [->|[-> H]]; [by destruct start|]. destruct files as [|f files]; [done|]. destruct H as (Hf & Hq & Hd & Hp). unfold flag in Hf. cbn [app get_flags].
  rewrite !decide_False by tauto. destruct (Z.eqb_spec (hd0 f) 43) as [E|E]; [|done]. by destruct start; [|destruct (Hp E)].
Qed.

(** The options of the command line: -i, -e and -h set their settings wherever they stand
    before the files, the first +line is the line to go to, -- ends the options, and every
    argument from the first that is no option on is a file, in order. *)
Theorem get_options_reads (catgetlocal : Z -> bytes -> bytes) (arg0 : bytes) (fs1 fs2 : list bytes) (line : option bytes) (sep files : list bytes) (c : conf) :
  Forall flag (fs1 ++ fs2) ->
  sep = [bs "--"] \/ sep = [] /\ match files with [] => True | f :: _ => no_option line f end ->
  get_options catgetlocal arg0 (fs1 ++ match line with Some n => [43 :: n] | None => [] end ++ fs2 ++ sep ++ files) c =
    ioret (Options (bool_decide (base_name arg0 = bs "ree")) line files (negb (bool_decide (files = []))) (negb (bool_decide (files = []))),
           after_flags fs2 (after_flags fs1 c)).
Proof.
  intros [Hf1 Hf2]%Forall_app He. unfold get_options. rewrite get_flags_app by done.
  assert (E : forall c', get_flags catgetlocal arg0 (match line with Some n => [43 :: n] | None => [] end ++ fs2 ++ sep ++ files) None c' =
    get_flags catgetlocal arg0 (fs2 ++ sep ++ files) line c') by (intros c'; by destruct line).
  by rewrite E, get_flags_app, get_flags_ends, iobind_ret_l.
Qed.

Lemma get_options_witness : get_options in_code (bs "/usr/bin/ree") [bs "-h"; bs "+12"; bs "-i"; bs "--"; bs "-e"; bs "+3"] demo_conf =
  ioret (Options true (Some (bs "12")) [bs "-e"; bs "+3"] true true, demo_conf <| nohighlight := true |> <| info_window := false |>).
Proof.
  etransitivity; [apply (get_options_reads in_code (bs "/usr/bin/ree") [bs "-h"] [bs "-i"] (Some (bs "12")) [bs "--"] [bs "-e"; bs "+3"] demo_conf)|].
  - unfold flag. repeat constructor; vm_compute; tauto.
  - by left.
  - vm_compute. reflexivity.
Defined.

End EeConf.
