(* ===== verification/EeMenu.v ===== *)
(** * ee(1): menus

    The pop-up menus of src/bsd_additions/ee/ee.c: what paint_menu draws, the loop of
    menu_op over the keys with its scrolling, the procedure an item calls, and the
    settings menu of modes_op.  A menu is the part of its array before the terminator;
    an index outside it, or a call of a null procedure, is undefined. *)

From Stdlib Require Import String.
From S2P Require Import Prelude EeStrings EeConf.
From stdpp Require Import base list numbers sets.
From Stdlib Require Import ZArith Lia.

Open Scope Z_scope.

Module EeMenu.

Import EeStrings EeConf.
Local Open Scope io_scope.

Definition KEY_DOWN : Z := 258.
Definition KEY_UP : Z := 259.
Definition KEY_LEFT : Z := 260.
Definition KEY_RIGHT : Z := 261.
Definition MENU_WARN : Z := 1.
Definition max_alpha_char : Z := 36.

(** An entry: the procedures by their names, a sub-menu by its name. *)
Record menu_entries := Entry {
  item_string : bytes;
  procedure : option string;
  ptr_argument : option string;
  iprocedure : option string;
  nprocedure : option string;
  argument : Z
}.

Definition item_alpha : bytes := bs "abcdefghijklmnopqrstuvwxyz0123456789 " ++ [0].

(** ** Drawing *)

(** The calls of the screen library, on the window of the menu. *)
Inductive draw :=
| Werase
| Wmove (y x : Z)
| Waddch (c : Z)
| Waddstr (s : bytes)
| Wstandout
| Wstandend.

(** The texts of the catalog a menu shows. *)
Record texts := Texts { menu_cancel_msg : bytes; more_above_str : bytes; more_below_str : bytes }.

Definition entry (menu_list : list menu_entries) (i : Z) : io menu_entries :=
  match aget menu_list i with Some e => ioret e | None => undef end.

(** The letter and the text of an item. *)
Definition paint_item (menu_list : list menu_entries) (list_size counter : Z) : io (list draw) :=
  let* letter :=
    if 1 <? list_size then
      match aget item_alpha (Z.min (counter - 1) max_alpha_char) with
      | Some c => ioret [Waddstr (c :: bs ") ")]
      | None => undef
      end
    else ioret [] in
  let* e := entry menu_list counter in
  ioret (letter ++ [Waddstr (item_string e)]).

(** [n] items from [counter] on, the first on row [y]. *)
Fixpoint paint_items (n : nat) (menu_list : list menu_entries) (list_size y counter : Z) : io (list draw) :=
  match n with
  | O => ioret []
  | S n =>
      let* d := paint_item menu_list list_size counter in
      let* rest := paint_items n menu_list list_size (y + 1) (counter + 1) in
      ioret (Wmove y 3 :: d ++ rest)
  end.

(** A row of the box. *)
Definition box_row (y : Z) (max_width : Z) : list draw :=
  [Wmove y 1; Waddch 43] ++ replicate (Z.to_nat (max_width - 4)) (Waddch 45) ++ [Waddch 43].

Definition sides (max_width top_offset vert_size : Z) : list draw :=
  concat (map (fun counter : Z =>
      let temp_int := if top_offset =? 4 then counter + 2 else counter in
      [Wmove temp_int 1; Waddch 124; Wmove temp_int (max_width - 2); Waddch 124])
    (seqZ 0 (vert_size + top_offset))).

Section Menu.
Context (t : texts) (nohighlight : bool).

Definition standout : list draw := if nohighlight then [] else [Wstandout].

Definition paint_menu (menu_list : list menu_entries) (max_width max_height list_size top_offset off_start vert_size : Z) : io (list draw) :=
  let* title := entry menu_list 0 in
  let box :=
    if vert_size <? max_height then
      [Wmove 1 1] ++ standout ++ tail (box_row 1 max_width) ++ box_row (max_height - 2) max_width ++ [Wstandend] ++
      [Wmove 2 3; Waddstr (item_string title); Wmove (max_height - 3) 3] ++
      (if argument title =? MENU_WARN then [] else [Waddstr (menu_cancel_msg t)])
    else [] in
  let frame := [Werase] ++ box ++ standout ++ sides max_width top_offset vert_size ++ [Wstandend] in
  if vert_size <? list_size then
    let temp_int := if 3 <=? off_start then 1 else 0 in
    let above := if 3 <=? off_start then [Wmove top_offset 3; Waddstr (more_above_str t)] else [] in
    let n := Z.to_nat (vert_size - 1 - temp_int) in
    let* items := paint_items n menu_list list_size (top_offset + temp_int) off_start in
    let counter := off_start + Z.of_nat n in
    let* last :=
      if counter =? list_size then paint_item menu_list list_size counter
      else ioret [Waddstr (more_below_str t)] in
    ioret (frame ++ above ++ items ++ Wmove (top_offset + (vert_size - 1)) 3 :: last)
  else
    let* items := paint_items (Z.to_nat list_size) menu_list list_size top_offset 1 in
    ioret (frame ++ items).

(** ** The size of the window *)

Record geometry := Geometry { list_size : Z; max_width : Z; max_height : Z; top_offset : Z; vert_size : Z }.

(** The items after the title, without the terminator; an array has at least one. *)
Definition size_of (menu_list : list menu_entries) : Z := Z.of_nat (length menu_list) - 1.

Definition width_of (menu_list : list menu_entries) : Z :=
  let w := fold_left (fun w e => let length := Z.of_nat (length (item_string e)) in if w <? length then length else w) menu_list 0 in
  let w := Z.max (w + 3) (Z.of_nat (length (menu_cancel_msg t))) in
  Z.max w (Z.max (Z.of_nat (length (more_above_str t))) (Z.of_nat (length (more_below_str t)))) + 6.

Definition geometry_of (LINES : Z) (warn : bool) (menu_list : list menu_entries) : geometry :=
  let list_size := size_of menu_list in
  let '(max_height, vert_size) :=
    if LINES <? list_size then (LINES, if 11 <? LINES then LINES - 8 else LINES) else (list_size, list_size) in
  let fits := vert_size + 8 <=? LINES in
  Geometry list_size (width_of menu_list)
    (if fits then if warn then vert_size + 7 else vert_size + 8 else max_height) (if fits then 4 else 0) vert_size.

(** ** The loop *)

(** The item the cursor is at, the first item shown, and what is on the window. *)
Record menu_state := Menu_state { counter : Z; off_start : Z; window : list draw }.

Definition paint (menu_list : list menu_entries) (g : geometry) (counter off_start : Z) : io menu_state :=
  let* w := paint_menu menu_list (max_width g) (max_height g) (list_size g) (top_offset g) off_start (vert_size g) in
  ioret (Menu_state counter off_start w).

Definition cursor_row (g : geometry) (s : menu_state) : Z :=
  if 2 <? off_start s then 1 + counter s + top_offset g - off_start s else counter s + top_offset g - off_start s.

(** What a key does to [input] and [counter]; the redraw keys paint the menu. *)
Definition menu_key (warn : bool) (list_size counter input : Z) : Z * Z :=
  if (0 <=? input) && (input <=? 127) && isalnum input then
    let temp := if isalpha input then 1 + tolower input - 97 else (2 + 122 - 97) + (input - 48) in
    if temp <=? list_size then (10, temp) else (input, counter)
  else if (input =? 32) || (input =? 4) || (input =? KEY_RIGHT) || (input =? KEY_DOWN) then
    (input, if list_size <? counter + 1 then 1 else counter + 1)
  else if (input =? 8) || (input =? 21) || (input =? 127) || (input =? KEY_BACKSPACE) || (input =? KEY_LEFT) || (input =? KEY_UP) then
    (input, if counter - 1 =? 0 then list_size else counter - 1)
  else if input =? 27 then (input, if warn then counter else 0)
  else (input, counter).

(** Scrolling: the new first item, when the menu is painted again. *)
Definition scroll (g : geometry) (counter off_start : Z) : option Z :=
  if (vert_size g - 1 <=? list_size g - off_start) && (off_start + vert_size g - 3 <? counter) && (1 <? off_start) then
    Some (if counter =? list_size g then (list_size g - vert_size g) + 2 else off_start + 1)
  else if negb (list_size g =? vert_size g) && (off_start + vert_size g - 2 <? counter) then
    Some (if counter =? list_size g then 2 + (list_size g - vert_size g) else if off_start =? 1 then 3 else off_start + 1)
  else if counter <? off_start then Some (if counter <=? 2 then 1 else counter)
  else None.

(** One turn: the key, the new state, and whether the loop goes on. *)
Definition menu_turn (menu_list : list menu_entries) (warn : bool) (g : geometry) (s : menu_state) (key : Z) : io (menu_state * bool) :=
  let '(input, counter) := menu_key warn (list_size g) (counter s) key in
  let* s :=
    if (key =? 12) || (key =? 18) then paint menu_list g counter (off_start s)
    else ioret (Menu_state counter (off_start s) (window s)) in
  let* s :=
    match scroll g counter (off_start s) with
    | Some off => paint menu_list g counter off
    | None => ioret s
    end in
  ioret (s, negb (input =? 13) && negb (input =? 10) && negb (counter =? 0)).

Fixpoint menu_loop (menu_list : list menu_entries) (warn : bool) (g : geometry) (s : menu_state) (keys : list Z) : io (menu_state * list Z) :=
  match keys with
  | [] => exit_ 0 []
  | key :: keys =>
      if key =? -1 then exit_ 0 []
      else
        let* (s, more) := menu_turn menu_list warn g s key in
        if more then menu_loop menu_list warn g s keys else ioret (s, keys)
  end.

(** The procedure called for an item. *)
Inductive call :=
| Icall (iprocedure : string) (argument : Z)
| Pcall (procedure : string) (menu : string)
| Ncall (nprocedure : string).

Definition menu_call (e : menu_entries) : io (option call) :=
  match procedure e, iprocedure e, nprocedure e with
  | None, None, None => ioret None
  | p, i, n =>
      if negb (argument e =? -1) then
        match i with Some i => ioret (Some (Icall i (argument e))) | None => undef end
      else
        match ptr_argument e with
        | Some a => match p with Some p => ioret (Some (Pcall p a)) | None => undef end
        | None => match n with Some n => ioret (Some (Ncall n)) | None => undef end
        end
  end.

(** The item chosen and the call it makes; 0 when the window is too narrow. *)
Definition menu_op (LINES COLS : Z) (menu_list : list menu_entries) (keys : list Z) : io (Z * option call * list Z) :=
  let* title := entry menu_list 0 in
  let warn := argument title =? MENU_WARN in
  let g := geometry_of LINES warn menu_list in
  if COLS <? max_width g then ioret (0, None, keys)
  else
    let* s := paint menu_list g 1 1 in
    let* (s, keys) := menu_loop menu_list warn g s keys in
    let* e := entry menu_list (counter s) in
    let* c := menu_call e in
    ioret (counter s, c, keys).

End Menu.

(** ** The menus of ee *)

Section Menus.
Context (catgetlocal : Z -> bytes -> bytes).

Definition text (n : Z) (s : string) : bytes := catgetlocal n (bs s).

Definition config_dump_menu : list menu_entries :=
  [Entry (text 165 "save ee configuration") None None None None 0;
   Entry (text 166 "save in current directory") None None None None (-1);
   Entry (text 167 "save in home directory") None None None None (-1)].

Definition leave_menu : list menu_entries :=
  [Entry (text 9 "leave menu") None None None None (-1);
   Entry (text 10 "save changes") None None None (Some "finish"%string) (-1);
   Entry (text 11 "no save") None None (Some "quit"%string) None 1].

Definition READ_FILE : Z := 1.
Definition WRITE_FILE : Z := 2.
Definition SAVE_FILE : Z := 3.

Definition file_menu : list menu_entries :=
  [Entry (text 12 "file menu") None None None None (-1);
   Entry (text 13 "read a file") None None (Some "file_op"%string) None READ_FILE;
   Entry (text 14 "write a file") None None (Some "file_op"%string) None WRITE_FILE;
   Entry (text 15 "save file") None None (Some "file_op"%string) None SAVE_FILE;
   Entry (text 16 "print editor contents") None None None (Some "print_buffer"%string) (-1)].

Definition search_menu : list menu_entries :=
  [Entry (text 17 "search menu") None None None None 0;
   Entry (text 18 "search for ...") None None None (Some "search_prompt"%string) (-1);
   Entry (text 19 "search") None None (Some "search"%string) None 1].

Definition spell_menu : list menu_entries :=
  [Entry (text 20 "spell menu") None None None None (-1);
   Entry (text 21 "use 'spell'") None None None (Some "spell_op"%string) (-1);
   Entry (text 22 "use 'ispell'") None None None (Some "ispell_op"%string) (-1)].

Definition misc_menu : list menu_entries :=
  [Entry (text 23 "miscellaneous menu") None None None None (-1);
   Entry (text 24 "format paragraph") None None None (Some "Format"%string) (-1);
   Entry (text 25 "shell command") None None None (Some "shell_op"%string) (-1);
   Entry (text 26 "check spelling") (Some "menu_op"%string) (Some "spell_menu"%string) None None (-1)].

Definition main_menu : list menu_entries :=
  [Entry (text 27 "main menu") None None None None (-1);
   Entry (text 28 "leave editor") None None None (Some "leave_op"%string) (-1);
   Entry (text 29 "help") None None None (Some "help"%string) (-1);
   Entry (text 30 "file operations") (Some "menu_op"%string) (Some "file_menu"%string) None None (-1);
   Entry (text 31 "redraw screen") None None None (Some "redraw"%string) (-1);
   Entry (text 32 "settings") None None None (Some "modes_op"%string) (-1);
   Entry (text 33 "search") (Some "menu_op"%string) (Some "search_menu"%string) None None (-1);
   Entry (text 34 "miscellaneous") (Some "menu_op"%string) (Some "misc_menu"%string) None None (-1)].

(** The settings menu shows the settings. *)
Definition mode (n : Z) (s : string) (v : bytes) : menu_entries := Entry (text n s ++ 32 :: v) None None None None (-1).

Definition modes_menu (c : conf) : list menu_entries :=
  let on (b : bool) := if b then text 114 "ON" else text 115 "OFF" in
  [Entry (text 1 "modes menu") None None None None 0;
   mode 2 "tabs to spaces       " (on (expand_tabs c));
   mode 3 "case sensitive search" (on (case_sen c));
   mode 4 "margins observed     " (on (observ_margins c));
   mode 5 "auto-paragraph format" (on (auto_format c));
   mode 6 "eightbit characters  " (on (eightbit c));
   mode 7 "info window          " (on (info_window c));
   mode 145 "emacs key bindings   " (on (emacs_keys_mode c));
   mode 8 "right margin         " (fmt_d (right_margin c));
   mode 183 "16 bit characters    " (on (ee_chinese c));
   Entry (text 164 "save editor configuration") None None None (Some "dump_ee_conf"%string) (-1)].

Definition menu_texts : texts :=
  Texts (text 105 "press Esc to cancel") (text 181 "^^more^^") (text 182 "VVmoreVV").

(** ** Settings *)

(** What the choice of an item does to the settings; 8 prompts for the margin. *)
Definition modes_choice (ret_value : Z) (c : conf) (keys : list Z) : io (conf * list Z) :=
  if ret_value =? 1 then ioret (c <| expand_tabs ::= negb |>, keys)
  else if ret_value =? 2 then ioret (c <| case_sen ::= negb |>, keys)
  else if ret_value =? 3 then ioret (c <| observ_margins ::= negb |>, keys)
  else if ret_value =? 4 then
    let c := c <| auto_format ::= negb |> in
    ioret (if auto_format c then c <| observ_margins := true |> else c, keys)
  else if ret_value =? 5 then
    let c := c <| eightbit ::= negb |> in
    ioret (if eightbit c then c else c <| ee_chinese := false |>, keys)
  else if ret_value =? 6 then ioret (c <| info_window ::= negb |>, keys)
  else if ret_value =? 7 then ioret (c <| emacs_keys_mode ::= negb |>, keys)
  else if ret_value =? 8 then
    let* (string, keys) := get_string true keys in
    match atoi_line string with
    | Some counter => ioret (if 0 <? counter then c <| right_margin := counter |> else c, keys)
    | None => undef
    end
  else if ret_value =? 9 then
    let c := c <| ee_chinese ::= negb |> in
    ioret (if ee_chinese c then c <| eightbit := true |> else c, keys)
  else ioret (c, keys).

(** [save] is what the last item does with the keys: dump_ee_conf reads some. *)
Fixpoint modes_op (fuel : nat) (LINES COLS : Z) (save : conf -> list Z -> list Z) (c : conf) (keys : list Z) : io (conf * list Z) :=
  match fuel with
  | O => undef
  | S fuel =>
      let* (ret_value, call, keys) := menu_op menu_texts (EeConf.nohighlight c) LINES COLS (modes_menu c) keys in
      let keys := match call with Some _ => save c keys | None => keys end in
      let* (c, keys) := modes_choice ret_value c keys in
      if ret_value =? 0 then ioret (c, keys) else modes_op fuel LINES COLS save c keys
  end.

End Menus.

(** ** What is on the window *)

Section Shows.
Context (t : texts) (nohighlight : bool) (menu_list : list menu_entries).

(** Item [c] stands on row [y]. *)
Definition item_at (w : list draw) (y c : Z) : Prop :=
  exists pre d post, paint_item menu_list (size_of menu_list) c = ioret d /\ w = pre ++ Wmove y 3 :: d ++ post.

Lemma item_at_app w1 w w2 y c : item_at w y c -> item_at (w1 ++ w ++ w2) y c.
Proof.
  intros (pre & d & post & Hd & ->). exists (w1 ++ pre), d, (post ++ w2). split; [done|]. by rewrite <- !app_assoc, <- app_comm_cons, <- app_assoc.
Qed.

Lemma paint_item_in c : 1 <= c <= size_of menu_list -> exists d, paint_item menu_list (size_of menu_list) c = ioret d.
Proof.
  intros Hc. unfold paint_item, entry. unfold size_of in *. destruct (aget_in menu_list c) as [e He]; [lia|].
  destruct (aget_in item_alpha (Z.min (c - 1) max_alpha_char)) as [l Hl]; [unfold max_alpha_char; cbn; lia|].
  rewrite Hl, He. destruct (1 <? _); rewrite ?iobind_ret_l; eauto.
Qed.

Lemma paint_items_in n y c : 1 <= c -> c + Z.of_nat n - 1 <= size_of menu_list ->
  exists w, paint_items n menu_list (size_of menu_list) y c = ioret w /\ forall k, c <= k < c + Z.of_nat n -> item_at w (y + (k - c)) k.
Proof.
  revert y c. induction n as [|n IH]; intros y c H1 H2; cbn [paint_items].
  - eexists. split; [done|]. lia.
  - destruct (paint_item_in c) as [d Hd]; [lia|]. destruct (IH (y + 1) (c + 1)) as (w & Hw & Hin); [lia..|]. rewrite Hd, Hw, !iobind_ret_l. eexists. split; [done|].
    intros k Hk. destruct (decide (k = c)) as [->|Hne].
    + rewrite Z.sub_diag, Z.add_0_r. exists [], d, w. by rewrite Hd.
    + replace (y + (k - c)) with (y + 1 + (k - (c + 1))) by lia. rewrite <- (app_nil_r w). apply (item_at_app (Wmove y 3 :: d) w []), Hin. lia.
Qed.

(** The rows the items from [off] on take, with or without the line above them. *)
Definition shown (L v off c : Z) : Prop :=
  off <= c /\ (v < L -> let n := v - 1 - (if 3 <=? off then 1 else 0) in c < off + n \/ c = off + n /\ c = L).
Definition in_view (L v off : Z) : Prop := off = 1 \/ v < L /\ 3 <= off <= L - v + 2.

Lemma paint_menu_in mw mh top off v : let L := size_of menu_list in
  1 <= L -> 1 <= v <= L -> (v = L \/ 3 <= v) -> in_view L v off ->
  exists w, paint_menu t nohighlight menu_list mw mh L top off v = ioret w /\
    forall c, 1 <= c <= L -> shown L v off c -> item_at w (top + (if 2 <? off then 1 else 0) + c - off) c.
Proof.
  intros L HL Hv Hv3 Hoff. unfold paint_menu, entry. destruct (aget_in menu_list 0) as [e ->]; [unfold L, size_of in *; lia|]. rewrite iobind_ret_l.
  assert (H23 : (2 <? off) = (3 <=? off)) by (destruct (Z.ltb_spec 2 off), (Z.leb_spec 3 off); lia). rewrite H23.
  destruct (Z.ltb_spec v L) as [Hlt|Hge].
  - set (n := Z.to_nat (v - 1 - _)). set (b := if 3 <=? off then 1 else 0) in *.
    assert (Hb : b = 1 /\ 3 <= off \/ b = 0 /\ off < 3) by (subst b; destruct (Z.leb_spec 3 off); lia).
    assert (Hn : Z.of_nat n = v - 1 - b) by (subst n; destruct Hb as [[-> ?]|[-> ?]]; lia).
    destruct (paint_items_in n (top + b) off) as (w & Hw & Hin); [unfold in_view in Hoff; lia|unfold in_view in Hoff; lia|]. fold L in Hw. rewrite Hw, iobind_ret_l.
    assert (Hlast : exists d, (if off + Z.of_nat n =? L then paint_item menu_list L (off + Z.of_nat n) else ioret [Waddstr (more_below_str t)]) = ioret d).
    { destruct (Z.eqb_spec (off + Z.of_nat n) L); [apply paint_item_in; unfold L in *; lia|eauto]. }
    destruct Hlast as [d Hd]. rewrite Hd, iobind_ret_l. eexists. split; [done|]. intros c Hc [Ho Hs]. specialize (Hs Hlt). cbv zeta in Hs. fold b in Hs.
    rewrite !app_assoc. destruct Hs as [Hs|[Hs HcL]].
    + rewrite <- (app_assoc _ w). apply item_at_app. replace (top + b + c - off) with (top + b + (c - off)) by lia. apply Hin. lia.
    + replace (top + b + c - off) with (top + (v - 1)) by lia. eexists _, d, []. rewrite app_nil_r. split; [|done].
      rewrite Hn in Hd. rewrite (proj2 (Z.eqb_eq _ L)) in Hd by lia. fold L. rewrite <- Hd. f_equal. lia.
  - destruct (paint_items_in (Z.to_nat L) top 1) as (w & Hw & Hin); [lia|unfold L in *; lia|]. fold L in Hw. rewrite Hw, iobind_ret_l. eexists. split; [done|].
    intros c Hc [Ho _]. assert (off = 1) as -> by (unfold in_view in Hoff; lia). change (if 3 <=? 1 then 1 else 0) with 0. rewrite <- (app_nil_r w). apply item_at_app.
    replace (top + 0 + c - 1) with (top + (c - 1)) by lia. apply Hin. lia.
Qed.

(** *** The loop *)

Context (LINES : Z) (warn : bool) (lines3 : 3 <= LINES) (has_item : 1 <= size_of menu_list).

Definition geo : geometry := geometry_of t LINES warn menu_list.

Lemma geo_sizes : list_size geo = size_of menu_list /\ 1 <= vert_size geo <= list_size geo /\ (vert_size geo = list_size geo \/ 3 <= vert_size geo).
Proof.
  unfold geo, geometry_of. destruct (Z.ltb_spec LINES (size_of menu_list)), (Z.ltb_spec 11 LINES); cbn; lia.
Qed.

(** The cursor is at an item that is on the window, and the window is painted for it. *)
Definition on_item (s : menu_state) : Prop :=
  1 <= counter s <= list_size geo /\ in_view (list_size geo) (vert_size geo) (off_start s) /\
  shown (list_size geo) (vert_size geo) (off_start s) (counter s) /\
  paint t nohighlight menu_list geo (counter s) (off_start s) = ioret s.

Lemma paint_in c off : in_view (list_size geo) (vert_size geo) off ->
  exists w, paint t nohighlight menu_list geo c off = ioret (Menu_state c off w) /\
    forall c', paint t nohighlight menu_list geo c' off = ioret (Menu_state c' off w).
Proof.
  destruct geo_sizes as (HL & Hv & Hv3). intros Hoff. unfold paint. rewrite HL in *.
  destruct (paint_menu_in (max_width geo) (max_height geo) (top_offset geo) off (vert_size geo)) as (w & Hw & _); try lia; [done|].
  rewrite Hw. exists w. by setoid_rewrite iobind_ret_l.
Qed.

Lemma on_item_start : exists s, paint t nohighlight menu_list geo 1 1 = ioret s /\ on_item s /\ counter s = 1 /\ off_start s = 1.
Proof.
  destruct (paint_in 1 1) as (w & Hw & _); [by left|]. exists (Menu_state 1 1 w). split; [done|].
  destruct geo_sizes as (HL & Hv & Hv3). unfold on_item, in_view, shown; cbn [counter off_start]. split_and!; try done; try lia. cbn. lia.
Qed.

(** A new first item is in view whatever item was chosen, and shows the one the arrows
    lead to. *)
Lemma scroll_in_view c off off' : 0 <= c <= list_size geo -> in_view (list_size geo) (vert_size geo) off ->
  scroll geo c off = Some off' -> in_view (list_size geo) (vert_size geo) off'.
Proof.
  destruct geo_sizes as (HL & Hv & Hv3). unfold scroll, in_view. intros Hc Ho.
  destruct (Z.leb_spec (vert_size geo - 1) (list_size geo - off)), (Z.ltb_spec (off + vert_size geo - 3) c), (Z.ltb_spec 1 off), (Z.eqb_spec (list_size geo) (vert_size geo)),
    (Z.ltb_spec (off + vert_size geo - 2) c), (Z.ltb_spec c off), (Z.eqb_spec c (list_size geo)), (Z.eqb_spec off 1), (Z.leb_spec c 2); cbn [andb negb];
    try done; intros [= <-]; lia.
Qed.

Definition next_item (c c' : Z) : Prop := c' = c \/ c' = c + 1 \/ c' = c - 1 \/ c' = 1 \/ c' = list_size geo.

Lemma scroll_shows c c' off : 1 <= c' <= list_size geo -> next_item c c' -> 1 <= c <= list_size geo ->
  in_view (list_size geo) (vert_size geo) off -> shown (list_size geo) (vert_size geo) off c ->
  shown (list_size geo) (vert_size geo) (match scroll geo c' off with Some off' => off' | None => off end) c'.
Proof.
  destruct geo_sizes as (HL & Hv & Hv3). unfold scroll, in_view, shown, next_item. cbv zeta. intros Hc' Hn Hc Ho [Hs1 Hs2].
  destruct (Z.leb_spec (vert_size geo - 1) (list_size geo - off)), (Z.ltb_spec (off + vert_size geo - 3) c'), (Z.ltb_spec 1 off), (Z.eqb_spec (list_size geo) (vert_size geo)),
    (Z.ltb_spec (off + vert_size geo - 2) c'), (Z.ltb_spec c' off), (Z.eqb_spec c' (list_size geo)), (Z.eqb_spec off 1), (Z.leb_spec c' 2), (Z.leb_spec 3 off); cbn [andb negb];
    try lia; repeat match goal with |- context [3 <=? ?x] => destruct (Z.leb_spec 3 x) end; lia.
Qed.

Lemma menu_key_in c key : 1 <= c <= list_size geo ->
  let '(input, c') := menu_key warn (list_size geo) c key in
  0 <= c' <= list_size geo /\ (input <> 10 -> c' <> 0 -> next_item c c').
Proof.
  destruct geo_sizes as (HL & Hv & _). intros Hc. unfold menu_key, next_item.
  destruct ((0 <=? key) && (key <=? 127) && isalnum key) eqn:Ea.
  - assert (H1 : 1 <= if isalpha key then 1 + tolower key - 97 else 2 + 122 - 97 + (key - 48)).
    { apply andb_prop in Ea as [_ Ea]. unfold isalnum in Ea. unfold isalpha in *. unfold tolower, isupper, islower, isdigit in *.
      destruct (Z.leb_spec 65 key), (Z.leb_spec key 90), (Z.leb_spec 97 key), (Z.leb_spec key 122), (Z.leb_spec 48 key), (Z.leb_spec key 57); cbn in *; lia. }
    destruct (Z.leb_spec (if isalpha key then 1 + tolower key - 97 else 2 + 122 - 97 + (key - 48)) (list_size geo)); split; lia.
  - destruct (_ || _ || _ || _); [destruct (Z.ltb_spec (list_size geo) (c + 1)); lia|].
    destruct (_ || _ || _ || _ || _ || _); [destruct (Z.eqb_spec (c - 1) 0); lia|]. destruct (key =? 27), warn; lia.
Qed.

Lemma menu_turn_in s key : on_item s ->
  let '(input, c') := menu_key warn (list_size geo) (counter s) key in
  exists s', menu_turn t nohighlight menu_list warn geo s key = ioret (s', negb (input =? 13) && negb (input =? 10) && negb (c' =? 0)) /\
    counter s' = c' /\ (next_item (counter s) c' -> c' <> 0 -> on_item s').
Proof.
  intros (Hc & Ho & Hs & Hp). pose proof (menu_key_in (counter s) key Hc) as Hk. unfold menu_turn. destruct (menu_key _ _ _ _) as [input c']. destruct Hk as [Hc' _].
  destruct (paint_in (counter s) (off_start s) Ho) as (w & Hw & Hany). rewrite Hw in Hp. injection Hp as Hp.
  assert (E : (if (key =? 12) || (key =? 18) then paint t nohighlight menu_list geo c' (off_start s) else ioret (Menu_state c' (off_start s) (window s))) =
    ioret (Menu_state c' (off_start s) w)).
  { rewrite Hany. replace (window s) with w by (by rewrite <- Hp). by destruct (_ || _). }
  rewrite E, iobind_ret_l. cbn [off_start]. pose proof (scroll_shows (counter s) c' (off_start s)) as Hshow.
  destruct (scroll geo c' (off_start s)) as [off'|] eqn:Esc.
  - pose proof (scroll_in_view c' _ _ Hc' Ho Esc) as Ho'. destruct (paint_in c' off' Ho') as (w' & Hw' & Hany'). rewrite Hw', !iobind_ret_l.
    eexists. split; [done|]. split; [done|]. intros Hn H0. split_and!; cbn [counter off_start]; try done; [lia..|apply Hshow; (done || lia)].
  - rewrite !iobind_ret_l. eexists. split; [done|]. split; [done|]. intros Hn H0. split_and!; cbn [counter off_start]; try done; [lia..|apply Hshow; (done || lia)].
Qed.

(** The turns of the loop that do not end it. *)
Inductive turns (s : menu_state) : list Z -> menu_state -> Prop :=
| turns_none : turns s [] s
| turns_more key s1 keys s2 : menu_turn t nohighlight menu_list warn geo s key = ioret (s1, true) -> turns s1 keys s2 -> turns s (key :: keys) s2.

Lemma turns_on_item s keys s' : turns s keys s' -> on_item s -> on_item s'.
Proof.
  induction 1 as [|s key s1 keys s2 E _ IH]; [done|]. intros Hs. apply IH. pose proof (menu_turn_in s key Hs) as H. destruct Hs as [Hc _].
  pose proof (menu_key_in (counter s) key Hc) as Hk. destruct (menu_key _ _ _ _) as [input c']. destruct H as (s'' & E' & Hc' & Hon). destruct Hk as [_ Hk].
  rewrite E in E'. injection E' as -> Em. destruct (Z.eqb_spec input 13), (Z.eqb_spec input 10), (Z.eqb_spec c' 0); try done. auto.
Qed.

Lemma on_item_shows s : on_item s -> item_at (window s) (cursor_row geo s) (counter s).
Proof.
  destruct geo_sizes as (HL & Hv & Hv3). intros (Hc & Ho & Hs & Hp). unfold paint in Hp. rewrite HL in *.
  destruct (paint_menu_in (max_width geo) (max_height geo) (top_offset geo) (off_start s) (vert_size geo)) as (w & Hw & Hin); try lia; [done|].
  rewrite Hw, iobind_ret_l in Hp. injection Hp as Hp. rewrite <- Hp. cbn [window].
  replace (cursor_row geo _) with (top_offset geo + (if 2 <? off_start s then 1 else 0) + counter s - off_start s); [by apply Hin|].
  unfold cursor_row. cbn [counter off_start]. destruct (2 <? off_start s); lia.
Qed.

(** *** Arrows *)

Definition arrow (k : Z) : Z :=
  if bool_decide (k ∈ [32; 4; KEY_RIGHT; KEY_DOWN]) then 1
  else if bool_decide (k ∈ [8; 21; 127; KEY_BACKSPACE; KEY_LEFT; KEY_UP]) then -1 else 0.

Definition arrows (ks : list Z) : Z := fold_right (fun k n => arrow k + n) 0 ks.

Lemma arrow_key c k : 1 <= c <= list_size geo -> arrow k <> 0 ->
  menu_key warn (list_size geo) c k = (k, 1 + (c - 1 + arrow k) mod list_size geo) /\ k <> -1 /\ k <> 13 /\ k <> 10.
Proof.
  intros Hc Hk. assert (Hin : k ∈ [32; 4; KEY_RIGHT; KEY_DOWN] \/ k ∈ [8; 21; 127; KEY_BACKSPACE; KEY_LEFT; KEY_UP]).
  { unfold arrow in Hk. destruct (bool_decide_reflect (k ∈ [32; 4; KEY_RIGHT; KEY_DOWN])); [by left|]. case_bool_decide; [by right|done]. }
  assert (Hd : (if list_size geo <? c + 1 then 1 else c + 1) = 1 + (c - 1 + 1) mod list_size geo).
  { replace (c - 1 + 1) with c by lia. destruct (Z.ltb_spec (list_size geo) (c + 1)); [|rewrite Z.mod_small by lia; lia].
    replace c with (list_size geo) by lia. by rewrite Z_mod_same_full. }
  assert (Hu : (if c - 1 =? 0 then list_size geo else c - 1) = 1 + (c - 1 + -1) mod list_size geo).
  { destruct (Z.eqb_spec (c - 1) 0) as [E|E]; [|rewrite Z.mod_small by lia; lia].
    rewrite E, <- (Z_mod_plus_full (0 + -1) 1), Z.mod_small by lia. lia. }
  unfold KEY_RIGHT, KEY_DOWN, KEY_BACKSPACE, KEY_LEFT, KEY_UP in Hin. rewrite !elem_of_cons, !elem_of_nil in Hin.
  destruct Hin as [[->|[->|[->|[->|[]]]]]|[->|[->|[->|[->|[->|[->|[]]]]]]]]; (split; [|lia]); unfold menu_key; cbn; rewrite ?Hd, ?Hu; done.
Qed.

Lemma loop_arrows ks s keys : Forall (fun k => arrow k <> 0) ks -> on_item s ->
  exists s', on_item s' /\ counter s' = 1 + (counter s - 1 + arrows ks) mod list_size geo /\
    menu_loop t nohighlight menu_list warn geo s (ks ++ keys) = menu_loop t nohighlight menu_list warn geo s' keys.
Proof.
  destruct geo_sizes as (HL & Hv & _). intros Hk. revert s. induction Hk as [|k ks Hk _ IH]; intros s Hs; pose proof Hs as [Hc _].
  - exists s. split; [done|]. split; [|done]. cbn. rewrite Z.mod_small by lia. lia.
  - destruct (arrow_key (counter s) k Hc Hk) as (E & H1 & H2 & H3). pose proof (menu_turn_in s k Hs) as Ht. rewrite E in Ht. destruct Ht as (s1 & Et & Hc1 & Hon).
    pose proof (Z.mod_pos_bound (counter s - 1 + arrow k) (list_size geo) ltac:(lia)) as Hm.
    assert (Hs1 : on_item s1).
    { pose proof (menu_key_in (counter s) k Hc) as Hmk. rewrite E in Hmk. apply Hon; [apply Hmk; lia|lia]. }
    destruct (IH s1 Hs1) as (s2 & Hs2 & Hc2 & El). exists s2. split; [done|]. split.
    + rewrite Hc2, Hc1. cbn [arrows fold_right]. fold (arrows ks). f_equal.
      replace (1 + (counter s - 1 + arrow k) mod list_size geo - 1 + arrows ks) with ((counter s - 1 + arrow k) mod list_size geo + arrows ks) by lia.
      rewrite Zplus_mod_idemp_l. f_equal. lia.
    + cbn [app menu_loop]. rewrite (proj2 (Z.eqb_neq k (-1))), Et, iobind_ret_l by done.
      rewrite (proj2 (Z.eqb_neq k 13)), (proj2 (Z.eqb_neq k 10)), (proj2 (Z.eqb_neq _ 0)) by lia. cbn [negb andb]. exact El.
Qed.

(** The letter or digit of item [i]. *)
Definition item_key (k i : Z) : Prop := 1 <= i <= list_size geo /\ i <= 36 /\ (aget item_alpha (i - 1) = Some (tolower k)) /\ 0 <= k <= 127.

Lemma item_key_selects c k i : item_key k i -> menu_key warn (list_size geo) c k = (10, i) /\ k <> -1.
Proof.
  intros (Hi & H36 & Ha & Hk). assert (Hall : forallb (fun k => forallb (fun i => negb (bool_decide (aget item_alpha (i - 1) = Some (tolower k))) ||
    (isalnum k && ((if isalpha k then 1 + tolower k - 97 else 2 + 122 - 97 + (k - 48)) =? i))) (seqZ 1 36)) (seqZ 0 128) = true) by (vm_compute; reflexivity).
  rewrite forallb_forall in Hall. specialize (Hall k). rewrite <- list_elem_of_In, elem_of_seqZ, forallb_forall in Hall.
  specialize (Hall ltac:(lia) i). rewrite <- list_elem_of_In, elem_of_seqZ in Hall. specialize (Hall ltac:(lia)).
  rewrite bool_decide_true in Hall by done. cbn [negb orb] in Hall. apply andb_prop in Hall as [H1 H2]. apply Z.eqb_eq in H2.
  split; [|lia]. unfold menu_key. rewrite (proj2 (Z.leb_le 0 k)), (proj2 (Z.leb_le k 127)), H1 by lia. cbn [andb]. rewrite H2. by rewrite (proj2 (Z.leb_le i _)) by lia.
Qed.

(** What ends the loop, and with which item when the cursor is at [c]. *)
Inductive ends (c : Z) : Z -> Z -> Prop :=
| ends_enter k : enter_key k -> ends c k c
| ends_letter k i : item_key k i -> ends c k i
| ends_escape : warn = false -> ends c 27 0.

Lemma loop_ends s k i keys : on_item s -> ends (counter s) k i ->
  exists s', counter s' = i /\ menu_loop t nohighlight menu_list warn geo s (k :: keys) = ioret (s', keys).
Proof.
  intros Hs He. pose proof (menu_turn_in s k Hs) as Ht. cbn [menu_loop].
  assert (H : exists input, menu_key warn (list_size geo) (counter s) k = (input, i) /\ k <> -1 /\ negb (input =? 13) && negb (input =? 10) && negb (i =? 0) = false).
  { destruct He as [k [->| ->]|k i Hk|Hw].
    - exists 10. by split_and!.
    - exists 13. by split_and!.
    - destruct (item_key_selects (counter s) k i Hk) as [E Hne]. exists 10. by split_and!.
    - exists 27. split_and!; [|done|by rewrite andb_false_r]. rewrite Hw. reflexivity. }
  destruct H as (input & E & Hne & Hend). rewrite E in Ht. destruct Ht as (s' & Et & Hc & _). exists s'. split; [done|].
  rewrite (proj2 (Z.eqb_neq k (-1))), Et, iobind_ret_l, Hend by done. done.
Qed.
End Shows.

(** C17. The cursor of a menu is always at the item it stands for: on a terminal of three
    lines or more, however the menu has been scrolled, the row the cursor is moved to is
    the row paint_menu has put the letter and the text of the current item on. *)
Theorem menu_cursor_on_item t nohighlight menu_list LINES warn :
  3 <= LINES -> 1 <= size_of menu_list ->
  exists s0, paint t nohighlight menu_list (geo t menu_list LINES warn) 1 1 = ioret s0 /\
    forall keys s, turns t nohighlight menu_list LINES warn s0 keys s ->
      1 <= counter s <= size_of menu_list /\
      item_at menu_list (window s) (cursor_row (geo t menu_list LINES warn) s) (counter s).
Proof.
  intros Hl Hs. destruct (on_item_start t nohighlight menu_list LINES warn Hl Hs) as (s0 & Hp & Hon & _). exists s0. split; [done|]. intros keys s Ht.
  assert (H : on_item t nohighlight menu_list LINES warn s) by (eapply turns_on_item; eassumption).
  split; [|by apply (on_item_shows t nohighlight)]. destruct H as [H _]. by destruct (geo_sizes t menu_list LINES warn Hl Hs) as [<- _].
Qed.

Definition no_texts : texts := Texts [] [] [].

Lemma menu_cursor_witness : exists s0, paint no_texts false (main_menu in_code) (geo no_texts (main_menu in_code) 5 false) 1 1 = ioret s0 /\
  forall keys s, turns no_texts false (main_menu in_code) 5 false s0 keys s ->
    1 <= counter s <= size_of (main_menu in_code) /\
    item_at (main_menu in_code) (window s) (cursor_row (geo no_texts (main_menu in_code) 5 false) s) (counter s).
Proof. apply menu_cursor_on_item; [lia|vm_compute; discriminate]. Defined.

(** C28. What a menu returns: arrow keys go round the items in both directions, Enter takes the
    item they lead to, an item's letter takes it from anywhere, Escape leaves with 0 where
    the menu may be left, and the item's procedure is called. *)
Theorem menu_selects t nohighlight menu_list LINES COLS title ks k i keys :
  3 <= LINES -> 1 <= size_of menu_list -> aget menu_list 0 = Some title -> width_of t menu_list <= COLS ->
  Forall (fun k => arrow k <> 0) ks ->
  ends t menu_list LINES (argument title =? MENU_WARN) (1 + arrows ks mod size_of menu_list) k i ->
  exists e, aget menu_list i = Some e /\
    menu_op t nohighlight LINES COLS menu_list (ks ++ k :: keys) = (let* c := menu_call e in ioret (i, c, keys)).
Proof.
  intros Hl Hs Ht Hw Hks He. set (warn := argument title =? MENU_WARN) in *. destruct (geo_sizes t menu_list LINES warn Hl Hs) as (HL & _).
  destruct (on_item_start t nohighlight menu_list LINES warn Hl Hs) as (s0 & Hp & Hon & Hc & _).
  destruct (loop_arrows t nohighlight menu_list LINES warn Hl Hs ks s0 (k :: keys) Hks Hon) as (s1 & Hon1 & Hc1 & E1).
  rewrite Hc, HL in Hc1. change (1 - 1 + arrows ks) with (arrows ks) in Hc1. rewrite <- Hc1 in He.
  destruct (loop_ends t nohighlight menu_list LINES warn Hl Hs s1 k i keys Hon1 He) as (s2 & Hc2 & E2).
  assert (Hi : 0 <= i <= size_of menu_list).
  { destruct Hon1 as [Hb _]. destruct He as [? ?|? ? [Hb' _]|?]; [rewrite HL in Hb; lia|rewrite <- HL; unfold geo in *; lia|lia]. }
  destruct (aget_in menu_list i) as [e He']; [unfold size_of in Hi; lia|]. exists e. split; [done|].
  unfold menu_op, entry. rewrite Ht, iobind_ret_l. fold warn. fold (geo t menu_list LINES warn).
  change (max_width (geo t menu_list LINES warn)) with (max_width (geometry_of t LINES warn menu_list)).
  replace (COLS <? max_width (geometry_of t LINES warn menu_list)) with false.
  2: { unfold geometry_of. destruct (LINES <? size_of menu_list); cbn; symmetry; apply Z.ltb_ge; lia. }
  by rewrite Hp, iobind_ret_l, E1, E2, iobind_ret_l, Hc2, He', iobind_ret_l.
Qed.

Lemma menu_selects_witness : exists e, aget (main_menu in_code) 6 = Some e /\
  menu_op no_texts true 24 80 (main_menu in_code) ([KEY_UP; 8; 32; KEY_LEFT] ++ 13 :: []) = (let* c := menu_call e in ioret (6, c, [])).
Proof.
  apply (menu_selects no_texts true (main_menu in_code) 24 80 (Entry (bs "main menu") None None None None (-1)) [KEY_UP; 8; 32; KEY_LEFT] 13 6 []);
    try (vm_compute; first [reflexivity|discriminate]).
  - repeat constructor; discriminate.
  - change (1 + arrows [KEY_UP; 8; 32; KEY_LEFT] mod size_of (main_menu in_code)) with 6. apply ends_enter. by right.
Defined.

(** No item of a menu of ee calls a null procedure, and every sub-menu an item opens is
    one of them. *)
Theorem menus_call catgetlocal c menu e :
  menu ∈ [config_dump_menu catgetlocal; leave_menu catgetlocal; file_menu catgetlocal; search_menu catgetlocal; spell_menu catgetlocal;
          misc_menu catgetlocal; main_menu catgetlocal; modes_menu catgetlocal c] ->
  e ∈ menu -> exists k, menu_call e = ioret k /\
    match k with Some (Pcall f m) => f = "menu_op"%string /\ m ∈ ["spell_menu"; "file_menu"; "search_menu"; "misc_menu"]%string | _ => True end.
Proof.
  intros Hm. rewrite !elem_of_cons, elem_of_nil in Hm. unfold config_dump_menu, leave_menu, file_menu, search_menu, spell_menu, misc_menu, main_menu, modes_menu in Hm.
  repeat destruct Hm as [->|Hm]; try done; rewrite !elem_of_cons, elem_of_nil;
    intros He; repeat destruct He as [->|He]; try done; (eexists; split; [reflexivity|]); try done; (split; [done|]); set_solver.
Qed.

Lemma menus_call_witness : exists k, menu_call (Entry (bs "check spelling") (Some "menu_op"%string) (Some "spell_menu"%string) None None (-1)) = ioret k /\
  match k with Some (Pcall f m) => f = "menu_op"%string /\ m ∈ ["spell_menu"; "file_menu"; "search_menu"; "misc_menu"]%string | _ => True end.
Proof. apply (menus_call in_code demo_conf (misc_menu in_code)); [set_solver|unfold misc_menu; set_solver]. Defined.

(** ** Settings that belong together *)

(** Sixteen-bit text needs eight-bit characters, and the margin is an int above 0. *)
Definition settings_ok (c : conf) : Prop := (ee_chinese c = true -> eightbit c = true) /\ 0 < right_margin c < 2 ^ 31.

Lemma atoi_line_range s n : atoi_line s = Some n -> - 2 ^ 31 <= n < 2 ^ 31.
Proof.
  unfold atoi_line. destruct (if hd0 _ =? 45 then _ else _) as [neg r]. set (k := num_of_digits _ _). destruct neg; cbv zeta;
    match goal with |- context [(?a <=? ?b) && (?b <? ?c)] => destruct (Z.leb_spec a b), (Z.ltb_spec b c) end; cbn [andb]; intros [=]; lia.
Qed.

Lemma init_line_settings cat c s o c' : settings_ok c -> init_line cat c s = (o, Ret c') -> settings_ok c'.
Proof.
  intros Hc. unfold init_line. destruct (negb _); [by intros [= _ <-]|].
  repeat match goal with |- (if ?b then _ else _) = _ -> _ => destruct b end;
    try (intros [= _ <-]; destruct Hc; by split);
    try (destruct (atoi _) as [n|] eqn:E; [|done]; intros [= _ <-]; destruct (Z.ltb_spec 0 n); [|done]; destruct Hc; split; [done|];
         unfold atoi in E; match type of E with (if ?x <? ?y then _ else _) = _ => destruct (Z.ltb_spec x y) end; [injection E as <-; cbn; lia|done]).
  intros (o1 & o2 & a & _ & H & _)%iobind_Ret_inv. by injection H as _ <-.
Qed.

Lemma read_init_settings cat fuel : forall buffer f c o c' b, settings_ok c -> read_init cat fuel buffer f c = (o, Ret (c', b)) -> settings_ok c'.
Proof.
  induction fuel as [|fuel IH]; intros buffer f c o c' b Hc; cbn [read_init].
  - destruct (fgets 512 f) as [[s f']|]; [done|]. by intros [= _ <- _].
  - destruct (fgets 512 f) as [[s f']|]; [|by intros [= _ <- _]]. destruct (newline_at _) as [i|]; [|done].
    intros (o1 & o2 & a & E1 & E2 & _)%iobind_Ret_inv. eapply IH; [|exact E2]. by eapply init_line_settings.
Qed.

Lemma init_files_settings cat files : forall buffer c o c', settings_ok c -> init_files cat files buffer c = (o, Ret c') -> settings_ok c'.
Proof.
  induction files as [|[f|] files IH]; intros buffer c o c' Hc; cbn [init_files]; [by intros [= _ <-]| |by apply IH].
  intros (o1 & o2 & [a b] & E1 & E2 & _)%iobind_Ret_inv. eapply IH; [|exact E2]. by eapply read_init_settings.
Qed.

Lemma modes_choice_settings r c keys o c' keys' : settings_ok c -> modes_choice r c keys = (o, Ret (c', keys')) -> settings_ok c'.
Proof.
  intros Hc. unfold modes_choice. destruct c as [cs ex inf om af pc rm nh eb em zh]. destruct Hc as [Hz Hm]. cbn in Hz, Hm.
  repeat match goal with |- (if ?b then _ else _) = _ -> _ => destruct b end; cbv zeta;
    try (intros [= _ <- _]; split; cbn; destruct zh, eb, af; cbn; naive_solver lia).
  intros (o1 & o2 & [s ks] & _ & E & _)%iobind_Ret_inv. destruct (atoi_line s) as [n|] eqn:Ea; [|done]. apply atoi_line_range in Ea.
  injection E as _ <- _. destruct (Z.ltb_spec 0 n); split; cbn; (done || lia).
Qed.

Lemma modes_op_settings cat fuel LINES COLS save : forall c keys o c' keys', settings_ok c -> modes_op cat fuel LINES COLS save c keys = (o, Ret (c', keys')) -> settings_ok c'.
Proof.
  induction fuel as [|fuel IH]; intros c keys o c' keys' Hc; cbn [modes_op]; [done|].
  intros (o1 & o2 & [[r call] ks] & _ & E & _)%iobind_Ret_inv. apply iobind_Ret_inv in E as (o3 & o4 & [c1 ks1] & E1 & E2 & _).
  assert (H1 : settings_ok c1) by (by eapply modes_choice_settings). destruct (r =? 0); [by injection E2 as _ <- _|by eapply IH].
Qed.



(** ** The fuel of the settings menu *)

Lemma menu_loop_uses t nh ml warn g keys : forall s o s' keys', menu_loop t nh ml warn g s keys = (o, Ret (s', keys')) -> (length keys' < length keys)%nat.
Proof.
  induction keys as [|k keys IH]; intros s o s' keys'; cbn [menu_loop length]; [done|]. destruct (k =? -1); [done|].
  intros (o1 & o2 & [s1 more] & _ & E & _)%iobind_Ret_inv. destruct more; [apply IH in E; lia|]. injection E as _ _ <-. lia.
Qed.

Lemma get_string_loop_uses keys : forall nam o nam' keys', get_string_loop nam keys = (o, Ret (nam', keys')) -> (length keys' < length keys)%nat.
Proof.
  induction keys as [keys IH] using (induction_ltof1 _ (@length Z)). unfold ltof in IH. intros nam o nam' keys'. destruct keys as [|k keys]; cbn [get_string_loop]; [done|].
  assert (IH' : forall nam o nam' keys', get_string_loop nam keys = (o, Ret (nam', keys')) -> (length keys' < length (k :: keys))%nat).
  { intros n o0 n' k' H. apply IH in H; cbn [length]; lia. }
  destruct (k =? -1); [done|]. destruct (_ && _); [apply IH'|]. destruct (_ && _).
  - destruct (k =? 22); [|intros (? & ? & ? & _ & E & _)%iobind_Ret_inv; by apply IH' in E].
    destruct keys as [|k' keys]; [done|]. destruct (k' =? -1); [done|]. intros (? & ? & ? & _ & E & _)%iobind_Ret_inv. apply IH in E; cbn [length] in *; lia.
  - destruct (_ || _); [|apply IH']. intros [= _ _ <-]. cbn [length]. lia.
Qed.

Lemma modes_choice_uses r c keys o c' keys' : modes_choice r c keys = (o, Ret (c', keys')) -> (length keys' <= length keys)%nat.
Proof.
  unfold modes_choice. repeat match goal with |- (if ?b then _ else _) = _ -> _ => destruct b end; cbv zeta; try (by intros [= _ _ <-]).
  intros (o1 & o2 & [s ks] & E1 & E & _)%iobind_Ret_inv. destruct (atoi_line s) as [n|]; [|done]. injection E as _ _ <-.
  unfold get_string in E1. apply iobind_Ret_inv in E1 as (o3 & o4 & [nam ks'] & Eg & E1 & _). apply get_string_loop_uses in Eg.
  destruct (_ <? 512); [|done]. injection E1 as _ _ <-. lia.
Qed.

(** The settings menu ends: every choice uses at least one key, so as many turns as there
    are keys, and one, are enough; more fuel changes nothing. *)
Theorem modes_op_ends cat LINES COLS save : (forall c keys, (length (save c keys) <= length keys)%nat) ->
  forall fuel fuel' c keys, (length keys < fuel)%nat -> (length keys < fuel')%nat ->
  modes_op cat fuel LINES COLS save c keys = modes_op cat fuel' LINES COLS save c keys.
Proof.
  intros Hsave. induction fuel as [|fuel IH]; intros fuel' c keys Hf Hf'; [lia|]. destruct fuel' as [|fuel']; [lia|]. cbn [modes_op].
  destruct (menu_op _ _ _ _ _ _) as [o [[[r call] ks]| |]] eqn:Em; [|done..]. unfold iobind at 1 3.
  assert (Hr : r = 0 \/ (length ks < length keys)%nat).
  { unfold menu_op in Em. apply iobind_Ret_inv in Em as (? & ? & title & _ & Em & _). destruct (COLS <? _); [injection Em as _ -> _ _; by left|].
    apply iobind_Ret_inv in Em as (? & ? & s & _ & Em & _). apply iobind_Ret_inv in Em as (? & ? & [s' k'] & El & Em & _).
    apply iobind_Ret_inv in Em as (? & ? & e & _ & Em & _). apply iobind_Ret_inv in Em as (? & ? & e' & _ & Em & _). injection Em as _ _ _ <-.
    apply menu_loop_uses in El. by right. }
  set (ks1 := match call with Some _ => save c ks | None => ks end).
  assert (Hks : (length ks1 <= length ks)%nat) by (subst ks1; destruct call; [apply Hsave|done]).
  destruct (modes_choice r c ks1) as [o' [[c' ks2]| |]] eqn:Ec; [|done..]. apply modes_choice_uses in Ec. unfold iobind.
  destruct (Z.eqb_spec r 0) as [->|Hne]; [done|]. rewrite (IH fuel') by (destruct Hr; lia). done.
Qed.

Lemma modes_op_ends_witness : modes_op in_code 3 24 80 (fun _ k => k) demo_conf [97; 27] = modes_op in_code 9 24 80 (fun _ k => k) demo_conf [97; 27].
Proof. apply modes_op_ends; [done|cbn; lia|cbn; lia]. Defined.

End EeMenu.
