(* ===== verification/EeFormat.v ===== *)
(** * ee(1): paragraphs

    Blank_Line, Format, first_word_len and Auto_Format of src/bsd_additions/ee/ee.c,
    written with the commands they call.  Format turns auto_format off and
    Auto_Format does too, so the formatter that insert would call is never reached
    from them. *)

From S2P Require Import Prelude Monad EeState EeEdit EeText EeStrings.
From stdpp Require Import base list gmap numbers.
From Stdlib Require Import ZArith Lia.

Open Scope Z_scope.

Module EeFormat.

Import EeState EeEdit EeText.
Local Open Scope ind_scope.

(** ** Blank lines *)

(** The loop over the blanks: the value of [length] it ends with. *)
Fixpoint blank_run (fuel : nat) (b : bytes) (i length line_length : Z) : option Z :=
  match aget b i with
  | None => None
  | Some c =>
      if is_blank c && (length <? line_length) then
        match fuel with
        | O => None
        | S fuel => blank_run fuel b (i + 1) (length + 1) line_length
        end
      else Some length
  end.

Definition blank_text (n : text) : option bool :=
  match aget (line n) 0 with
  | None => None
  | Some c =>
      if (c =? 46) || (c =? 62) then Some true
      else
        match blank_run (Z.to_nat (line_length n)) (line n) 0 1 (line_length n) with
        | Some length => Some (length =? line_length n)
        | None => None
        end
  end.

Definition Blank_Line (test_line : option nat) : E bool :=
  match test_line with
  | None => ret true
  | Some l => let! n := node l in of_opt (blank_text n)
  end.

(** ** Common steps *)

(** Enough rounds for a loop that uses up the characters of the text. *)
Definition text_bound : E nat :=
  let! h := gets heap in
  ret (map_fold (fun _ n k => (Z.to_nat (line_length n) + k)%nat) 1%nat h).

Definition prev_blank : E bool := let! c := cur in Blank_Line (prev_line c).
Definition next_blank : E bool := let! c := cur in Blank_Line (next_line c).

(** [if (position != 1) bol(); while (!Blank_Line(curr_line->prev_line)) bol();] *)
Definition to_paragraph : E () :=
  let! p := gets position in
  (if negb (p =? 1) then bol else ret tt) ;;
  let! n := lines_bound in
  while_ n (let! b := prev_blank in ret (negb b)) bol.

(** The word at the cursor, up to a blank, a NUL or the end of the line. *)
Fixpoint word_at (fuel : nat) (b : bytes) (i counter line_length : Z) : option bytes :=
  match aget b i with
  | None => None
  | Some c =>
      if negb (c =? 0) && negb (is_blank c) && (counter <? line_length) then
        match fuel with
        | O => None
        | S fuel => match word_at fuel b (i + 1) (counter + 1) line_length with
                    | Some w => Some (c :: w)
                    | None => None
                    end
        end
      else Some []
  end.

(** The word the cursor is in made the string to search for; returns the offset of the
    cursor in it and where it stands. *)
Definition note_word (offset : Z) : E (Z * (nat * Z)) :=
  let! s := get in
  let! n := cur in
  let size := 1 + line_length n - position s in
  let! c := peek 0 in
  (if is_blank c then adv_word else ret tt) ;;
  let! s := get in
  let! n := cur in
  let! w := of_opt (word_at (Z.to_nat (line_length n)) (line n) (point s) (position s) (line_length n)) in
  if Z.of_nat (length w) + 1 <=? size then
    sets srch_str (Some w) ;; ret (offset - position s, (curr_line s, point s))
  else mundef.

(** How many times the word is found from the start of the paragraph on until the cursor
    is back, and whether the last search found it. *)
Fixpoint count_words (fuel : nat) (line : nat * Z) (string_count : nat) (status : bool) : E (nat * bool) :=
  let! s := get in
  if negb (bool_decide (line = (curr_line s, point s))) && status then
    match fuel with
    | O => mundef
    | S fuel => let! status := search in count_words fuel line (S string_count) status
    end
  else ret (string_count, status).

(** [left(TRUE); if ( *point != ' ') { right(TRUE); insert(' '); } else right(TRUE);] *)
Definition end_with_space (junk : Z) : E () :=
  left true ;;
  let! c := peek 0 in
  if negb (c =? 32) then right true ;; insert_with junk mundef 32 else right true.

Definition rights (n : nat) : E () := Nat.iter n (fun k => right true ;; k) (ret tt).

(** A loop as long as the cursor is before the end of the line. *)
Definition along_line (body : E ()) : E () :=
  let! n := cur in
  while_ (Z.to_nat (line_length n)) (let! s := get in let! n := cur in ret (position s <? line_length n)) body.

Section Format.
Context (junk : Z).

(** ** Format *)

(** The lines of the paragraph made one. *)
Definition join_paragraph : E () :=
  let! n := lines_bound in
  while_ n (let! b := next_blank in ret (negb b))
    (eol ;; end_with_space junk ;;
     del_char junk ;;
     let! c := peek 0 in
     if is_blank c then del_word else ret tt).

(** Runs of spaces after the first word made one space. *)
Definition squeeze : E () :=
  along_line
    (let! c := peek 0 in
     let! twice := (if c =? 32 then let! c := peek 1 in ret (c =? 32) else ret false) in
     if twice then del_char junk else right true).

(** Two spaces after a period; the last step may go on to the next line. *)
Definition two_spaces : E () :=
  let! bound := text_bound in
  while_ bound (let! s := get in let! n := cur in ret (position s <? line_length n))
    ((let! c := peek 0 in
      let! stop := (if c =? 46 then let! c := peek 1 in ret (c =? 32) else ret false) in
      if stop then
        right true ;; insert_with junk mundef 32 ;; insert_with junk mundef 32 ;;
        let! n := cur in
        while_ (Z.to_nat (line_length n)) (let! c := peek 0 in ret (c =? 32)) (del_char junk)
      else ret tt) ;;
     right true).

(** Lines between the margins. *)
Definition fill_lines : E () :=
  along_line
    (let! n := cur in
     while_ (Z.to_nat (line_length n))
       (let! s := get in let! n := cur in ret ((scr_pos s <? right_margin s) && (position s <? line_length n))) (right true) ;;
     let! s := get in
     let! n := cur in
     if position s <? line_length n then
       prev_word ;;
       let! p := gets position in
       (if p =? 1 then adv_word else ret tt) ;;
       insert_line junk true
     else ret tt).

(** The word found again. *)
Fixpoint find_again (string_count : nat) : E () :=
  match string_count with
  | O => ret tt
  | S k => search ;; find_again k
  end.

Definition Format : E () :=
  let! s := get in
  let temp_d_char := d_char s in
  let! blank := (if observ_margins s then Blank_Line (Some (curr_line s)) else ret true) in
  if blank then ret tt
  else
    sets auto_format false ;;
    let offset := position s in
    (if negb (position s =? 1) then prev_word else ret tt) ;;
    sets d_word None ;; sets case_sen true ;;
    let! (offset, line) := note_word offset in
    to_paragraph ;;
    let! bound := text_bound in
    let! (string_count, status) := count_words bound line 0 true in
    to_paragraph ;;
    sets observ_margins false ;;
    join_paragraph ;;
    bol ;; adv_word ;; squeeze ;;
    bol ;; two_spaces ;;
    sets observ_margins true ;;
    bol ;; fill_lines ;;
    bol ;;
    let! n := lines_bound in
    while_ n (let! b := prev_blank in ret (negb b)) bol ;;
    (if status then find_again string_count else ret tt) ;;
    rights (Z.to_nat offset) ;;
    modify (fun s' => s' <| d_word := d_word s |> <| case_sen := case_sen s |> <| srch_str := srch_str s |>
                        <| d_char := temp_d_char |> <| auto_format := auto_format s |>) ;;
    let! s := get in
    midscreen (scr_vert s) (point s).

(** ** Auto_Format *)

(** The line is read as a string, up to its first NUL. *)
Definition first_word_len (test_line : option nat) : E Z :=
  match test_line with
  | None => ret 0
  | Some l =>
      let! n := node l in
      let! c := of_opt (aget (line n) 0) in
      if (c =? 0) || (c =? 46) || (c =? 62) then ret 0
      else
        let pnt := EeStrings.cstr (line n) in
        let start := if is_blank c then EeStrings.next_word pnt else pnt in
        let (w, rest) := span (fun c => negb (is_blank c)) start in
        let (blanks, rest) := span is_blank rest in
        match rest with
        | [] => if (length pnt =? length (line n))%nat then mundef else ret (Z.of_nat (length w + length blanks))
        | _ => ret (Z.of_nat (length w + length blanks))
        end
  end.

(** Words of the next line that fit are moved up; returns [not_blank]. *)
Fixpoint fill_up (fuel : nat) (not_blank : bool) : E bool :=
  let! c := cur in
  let! word_len := (match next_line c with Some _ => first_word_len (next_line c) | None => ret 0 end) in
  let! s := get in
  if (0 <? word_len) && (scr_pos s + word_len <? right_margin s) then
    match fuel with
    | O => mundef
    | S fuel =>
        adv_line ;;
        let! c := peek 0 in
        (if is_blank c then adv_word else ret tt) ;;
        del_word ;;
        let! p := gets position in
        (if negb (p =? 1) then bol else ret tt) ;;
        let! l := gets curr_line in
        let! blank := Blank_Line (Some l) in
        let! c := peek_at l 0 in
        let gone := blank && negb (c =? 46) && negb (c =? 62) in
        (if gone then del_line junk else ret tt) ;;
        left true ;;
        undel_word junk ;;
        eol ;;
        end_with_space junk ;;
        fill_up fuel (negb gone)
    end
  else ret not_blank.

(** Words that cross the margin are moved down. *)
Fixpoint move_down (fuel : nat) (not_blank : bool) : E bool :=
  let! s := get in
  if right_margin s <=? scr_pos s then
    match fuel with
    | O => mundef
    | S fuel =>
        prev_word ;;
        let! p := gets position in
        if negb (p =? 1) then
          del_word ;;
          let! b := next_blank in
          (if b then insert_line junk true else adv_line) ;;
          let! c := peek 0 in
          (if is_blank c then adv_word else ret tt) ;;
          undel_word junk ;;
          let! p := gets position in
          (if negb (p =? 1) then bol else ret tt) ;;
          left true ;;
          move_down fuel true
        else move_down fuel not_blank
    end
  else ret not_blank.

(** The lines of the paragraph one after the other; returns [counter]. *)
Fixpoint fill_paragraph (fuel : nat) (counter : nat) : E nat :=
  match fuel with
  | O => mundef
  | S fuel =>
      let! s := get in
      let! n := cur in
      (if negb (position s =? line_length n) then eol else ret tt) ;;
      end_with_space junk ;;
      let! bound := text_bound in
      let! not_blank := fill_up bound false in
      let! bound := text_bound in
      let! not_blank := move_down bound not_blank in
      let! b := next_blank in
      if negb b || not_blank then adv_line ;; fill_paragraph fuel (S counter) else ret counter
  end.

(** [while ((counter-- > 0) || (!Blank_Line(curr_line->prev_line))) bol();] *)
Fixpoint back_up (fuel : nat) (counter : nat) : E () :=
  let! go := (match counter with S _ => ret true | O => let! b := prev_blank in ret (negb b) end) in
  if go then
    match fuel with
    | O => mundef
    | S fuel => bol ;; back_up fuel (counter - 1)
    end
  else ret tt.

(** The searches from the start of the paragraph: how many were not made. *)
Fixpoint find_word (string_count : nat) (status : bool) : E nat :=
  match string_count with
  | S k => if status then let! status := search in find_word k status else ret string_count
  | O => ret O
  end.

Definition Auto_Format : E () :=
  let! s := get in
  let! blank := (if observ_margins s then Blank_Line (Some (curr_line s)) else ret true) in
  if blank then ret tt
  else
    sets d_line None ;; sets auto_format false ;;
    let offset := position s in
    let! n := cur in
    let! back := (if negb (position s =? 1) then
                    let! c := peek 0 in ret (is_blank c || (position s =? line_length n) || (c =? 0))
                  else ret false) in
    (if back then prev_word else ret tt) ;;
    sets d_wrd_len 0 ;; sets d_word None ;; sets case_sen true ;;
    let! (offset, line) := note_word offset in
    to_paragraph ;;
    let! bound := text_bound in
    let! (string_count, _) := count_words bound line 0 true in
    to_paragraph ;;
    let! bound := text_bound in
    let! counter := fill_paragraph bound 0 in
    let! p := gets position in
    (if negb (p =? 1) then bol else ret tt) ;;
    let! n := lines_bound in
    back_up (n + counter) counter ;;
    let! string_count := find_word string_count true in
    rights (Z.to_nat offset) ;;
    (if (0 <? string_count)%nat && (offset <? 0) then Nat.iter (Z.to_nat (- offset)) (fun k => left true ;; k) (ret tt) else ret tt) ;;
    modify (fun s' => s' <| d_word := d_word s |> <| d_wrd_len := d_wrd_len s |> <| case_sen := case_sen s |> <| srch_str := srch_str s |>
                        <| d_char := d_char s |> <| auto_format := true |> <| dlt_length := dlt_length s |> <| d_line := d_line s |>
                        <| formatted := true |>) ;;
    let! s := get in
    midscreen (scr_vert s) (point s).

End Format.

End EeFormat.
