(* ===== verification/EeKeeps.v ===== *)
(** * ee(1): what commands leave alone

    Parts of the state that a command does not change, whatever it does otherwise: the
    moves of EeEdit and search keep the heap, so they keep the text. *)

From S2P Require Import Prelude Monad EeState EeEdit EeText.
From stdpp Require Import base list gmap numbers.
From Stdlib Require Import ZArith Lia.

Open Scope Z_scope.

Module EeKeeps.

Import EeState EeEdit EeText.
Local Open Scope ind_scope.

(** ** What the moves leave alone *)

(** A part of the state that [m] does not change. *)
Definition keeps {B A} (f : ee -> B) (m : E A) : Prop := forall s a s', m s = SRet a s' -> f s' = f s.

Lemma wp_keeps {B A} (f : ee -> B) (m : E A) (Q : A -> ee -> Prop) X s :
  keeps f m -> wp m Q X s -> wp m (fun a s' => Q a s' /\ f s' = f s) X s.
Proof. unfold wp. intros K. specialize (K s). destruct (m s); [|done|done]. intros H. split; [exact H|by eapply K]. Qed.

Section Keeps.
Context {B : Type} (f : ee -> B).

Lemma keeps_bind {A C} (m : E A) (k : A -> E C) : keeps f m -> (forall a, keeps f (k a)) -> keeps f (bind m k).
Proof.
  intros Hm Hk s a s'. unfold bind. destruct (m s) as [x s1| |] eqn:E; [|done|done]. intros H. by rewrite (Hk x s1 a s' H), (Hm s x s1 E).
Qed.

Lemma keeps_read {A} (g : ee -> sres ee A) : (forall s a s', g s = SRet a s' -> s' = s) -> keeps f g.
Proof. intros H s a s' E. by rewrite (H s a s' E). Qed.

Lemma keeps_modify g : (forall s, f (g s) = f s) -> keeps f (modify g).
Proof. intros H s a s' [= <- <-]. apply H. Qed.

Lemma keeps_while fuel c (body : E ()) : keeps f c -> keeps f body -> keeps f (while_ fuel c body).
Proof.
  intros Hc Hb. induction fuel as [|fuel IH]; cbn [while_]; (apply keeps_bind; [exact Hc|]); intros [];
    try (by apply keeps_read; intros ??? [= _ <-]).
  by apply keeps_bind.
Qed.

Lemma keeps_iter n (m : E ()) : keeps f m -> keeps f (Nat.iter n (fun k => m ;; k) (ret tt)).
Proof.
  intros Hm. induction n as [|n IH]; [by apply keeps_read; intros ??? [= _ <-]|]. rewrite Nat.iter_succ. by apply keeps_bind.
Qed.
End Keeps.

Create HintDb keeps.

(** Step by step; [reflexivity] for the fields set. *)
Ltac keeps_step :=
  lazymatch goal with
  | |- keeps _ (bind _ _) => apply keeps_bind; [|intros ?]
  | |- keeps _ (while_ _ _ _) => apply keeps_while
  | |- keeps _ (Nat.iter _ _ _) => apply keeps_iter
  | |- keeps _ (match ?x with _ => _ end) => destruct x
  | |- keeps _ (modify _) => apply keeps_modify; intros ?; reflexivity
  | |- keeps _ (sets _ _) => apply keeps_modify; intros ?; reflexivity
  | |- keeps _ mundef => let H := fresh in intros ??? H; cbv beta delta [mundef] in H; discriminate H
  | |- keeps _ (of_opt ?o) => by apply keeps_read; intros ???; destruct o; intros [= _ <-]
  | |- keeps _ (ret _) => by apply keeps_read; intros ??? [= _ <-]
  | |- keeps _ get => by apply keeps_read; intros ??? [= _ <-]
  | |- keeps _ (gets _) => by apply keeps_read; intros ??? [= _ <-]
  | |- _ => solve [auto with keeps]
  end.
Ltac keeps_steps := repeat keeps_step.

(** The text and the column aimed at. *)
Definition kept (s : ee) := (heap s, fresh_loc s, first_line s, scr_pos s).

Lemma keeps_node l : keeps kept (node l).
Proof. unfold node. keeps_steps. Qed.

Lemma keeps_cur : keeps kept cur.
Proof. pose proof keeps_node. unfold cur. keeps_steps. Qed.
#[export] Hint Resolve keeps_node keeps_cur : keeps.

Lemma keeps_peek k : keeps kept (peek k).
Proof. unfold peek, peek_at. keeps_steps. Qed.

Lemma keeps_draw_line l h p t len : keeps kept (draw_line l h p t len).
Proof. unfold draw_line. keeps_steps. Qed.
#[export] Hint Resolve keeps_peek keeps_draw_line : keeps.

Lemma keeps_draw_screen : keeps kept draw_screen.
Proof.
  unfold draw_screen. keeps_steps. generalize (Some (curr_line a)) as p. generalize (Z.to_nat (last_line a - scr_vert a + 1)) as fuel.
  induction fuel as [|n IH]; intros p; cbn [draw_screen_loop]; keeps_steps.
Qed.

Lemma keeps_go_back n i : keeps kept (go_back n i).
Proof. revert i. induction n as [|n IH]; intros i; cbn [go_back]; keeps_steps. Qed.
#[export] Hint Resolve keeps_draw_screen keeps_go_back : keeps.

Lemma keeps_midscreen_with (scan : Z -> E ()) line pnt : (forall p, keeps kept (scan p)) -> keeps kept (midscreen_with scan line pnt).
Proof. intros H. unfold midscreen_with. keeps_steps. Qed.

Lemma keeps_scanline p : keeps kept (scanline p).
Proof.
  unfold scanline. generalize 3%nat as fuel. intros fuel. revert p. induction fuel as [|n IH]; intros p; cbn [scanline_loop]; keeps_steps; by apply keeps_midscreen_with.
Qed.

Lemma keeps_midscreen line pnt : keeps kept (midscreen line pnt).
Proof. apply keeps_midscreen_with. apply keeps_scanline. Qed.
#[export] Hint Resolve keeps_scanline keeps_midscreen : keeps.

Lemma keeps_nextline : keeps kept nextline.
Proof. unfold nextline, deref. keeps_steps. Qed.

Lemma keeps_prevline : keeps kept prevline.
Proof. unfold prevline, deref, step. keeps_steps. Qed.

Lemma keeps_find_pos : keeps kept find_pos.
Proof. unfold find_pos, find_pos_step, wide_here, step. keeps_steps. Qed.
#[export] Hint Resolve keeps_nextline keeps_prevline keeps_find_pos : keeps.

Lemma keeps_up : keeps kept up.
Proof. unfold up. keeps_steps. Qed.

Lemma keeps_down : keeps kept down.
Proof. unfold down. keeps_steps. Qed.

#[export] Hint Resolve keeps_up keeps_down : keeps.

(** ** The heap *)

Lemma keeps_part {B C A} (f : ee -> B) (g : B -> C) (m : E A) : keeps f m -> keeps (fun s => g (f s)) m.
Proof. intros H s a s' E. by rewrite (H s a s' E). Qed.

Lemma kept_heap {A} (m : E A) : keeps kept m -> keeps heap m.
Proof. exact (keeps_part kept (fun k => k.1.1.1) m). Qed.

Ltac heap_step := first [apply kept_heap; solve [auto with keeps]|keeps_step].
Ltac heap_steps := repeat heap_step.

Lemma heap_sync_pos : keeps heap sync_pos.
Proof. unfold sync_pos. keeps_steps. Qed.

Lemma heap_step_cursor d : keeps heap (step d).
Proof. unfold step. keeps_steps. Qed.

Lemma heap_wide_here : keeps heap wide_here.
Proof. unfold wide_here. heap_steps. Qed.
#[export] Hint Resolve heap_sync_pos heap_step_cursor heap_wide_here : keeps.

Lemma heap_left disp : keeps heap (left disp).
Proof. unfold left. heap_steps. Qed.

Lemma heap_reset_offset : keeps heap reset_offset.
Proof. unfold reset_offset. heap_steps. Qed.
#[export] Hint Resolve heap_left heap_reset_offset : keeps.

Lemma heap_right disp : keeps heap (right disp).
Proof. unfold right. heap_steps. Qed.
#[export] Hint Resolve heap_right : keeps.

Lemma heap_right_while f : keeps heap (right_while f).
Proof. unfold right_while. heap_steps. Qed.

Lemma heap_left_while f : keeps heap (left_while f).
Proof. unfold left_while. heap_steps. Qed.
#[export] Hint Resolve heap_right_while heap_left_while : keeps.

Lemma heap_prev_word : keeps heap prev_word.
Proof. unfold prev_word. heap_steps. Qed.

Lemma heap_adv_word : keeps heap adv_word.
Proof. unfold adv_word. heap_steps. Qed.

Lemma heap_eol : keeps heap eol.
Proof. unfold eol. heap_steps. Qed.

Lemma heap_bol : keeps heap bol.
Proof. unfold bol. heap_steps. Qed.

Lemma heap_adv_line : keeps heap adv_line.
Proof. unfold adv_line. heap_steps. Qed.
#[export] Hint Resolve heap_prev_word heap_adv_word heap_eol heap_bol heap_adv_line : keeps.

Lemma heap_look (pr : text -> option nat) (m : E ()) n i : keeps heap m ->
  keeps heap (Nat.iter n (fun (k : Z -> E Z) i => let! c := cur in match pr c with Some _ => m ;; k (i + 1) | None => ret i end) (fun i => ret i) i).
Proof.
  intros Hm. revert i. induction n as [|n IH]; intros i; cbn [Nat.iter nat_rect]; [heap_steps|].
  apply keeps_bind; [heap_step|]. intros c. destruct (pr c); [|heap_steps]. apply keeps_bind; [exact Hm|]. intros _. apply IH.
Qed.

Lemma heap_move_rel upwards lines : keeps heap (move_rel upwards lines).
Proof.
  unfold move_rel. heap_steps; try (apply (heap_look prev_line up 5 0), kept_heap, keeps_up);
    try (apply (heap_look next_line down 5 0), kept_heap, keeps_down).
Qed.
#[export] Hint Resolve heap_move_rel : keeps.

Lemma heap_search_lines fuel fold pat l srch_1 iter m : keeps heap (search_lines fuel fold pat l srch_1 iter m).
Proof. revert l srch_1 iter m. induction fuel as [|fuel IH]; intros l srch_1 iter m; cbn [search_lines]; heap_steps. Qed.
#[export] Hint Resolve heap_search_lines : keeps.

Lemma heap_search : keeps heap search.
Proof. unfold search, right_to, lines_bound. heap_steps. Qed.
#[export] Hint Resolve heap_search : keeps.

End EeKeeps.
