(* ===== verification/EeRep.v ===== *)
(** * ee(1): the text a state holds

    A document is a list of lines with a cursor.  [Rep s d] says that the doubly
    linked list of the state [s] holds the document [d].  This file has the rules
    for the parts that only look at the text (drawing, columns) and for moving. *)

From S2P Require Import Prelude Monad EeState EeEdit.
From stdpp Require Import base list gmap numbers.
From Stdlib Require Import ZArith Lia.

Open Scope Z_scope.

Module EeRep.

Import EeState EeEdit.
Local Open Scope ind_scope.

(** ** Frames *)

(** The state without what is shown on the screen. *)
Definition unseen (s : ee) : ee :=
  s <| scr_pos := 0 |> <| scr_vert := 0 |> <| scr_horz := 0 |> <| horiz_offset := 0 |> <| overread := false |>.

(** Only the screen differs. *)
Definition same (s s' : ee) : Prop := unseen s' = unseen s.

#[export] Instance same_equiv : Equivalence same.
Proof. unfold same. split; [done|intros ???; congruence|intros ?????; congruence]. Qed.

(** The settings and saved strings: the state without text, cursor and screen. *)
Definition settings (s : ee) : ee :=
  unseen s <| heap := ∅ |> <| fresh_loc := O |> <| first_line := O |> <| curr_line := O |> <| position := 0 |> <| point := 0 |>
    <| absolute_lin := 0 |> <| formatted := false |>.

(** Only text, cursor and screen differ. *)
Definition quiet (s s' : ee) : Prop := settings s' = settings s.

#[export] Instance quiet_equiv : Equivalence quiet.
Proof. unfold quiet. split; [done|intros ???; congruence|intros ?????; congruence]. Qed.

Lemma same_quiet s s' : same s s' -> quiet s s'.
Proof. unfold same, quiet, settings. by intros ->. Qed.

(** Records that are equal field by field: compute both. *)
Ltac same_refl := unfold same, quiet; vm_compute; reflexivity.

(** A field that [same] keeps. *)
Lemma same_field {A} (f : ee -> A) s s' : (forall s, f (unseen s) = f s) -> same s s' -> f s' = f s.
Proof. intros Hf H. rewrite <- (Hf s'), <- (Hf s). by rewrite H. Qed.

Lemma quiet_field {A} (f : ee -> A) s s' : (forall s, f (settings s) = f s) -> quiet s s' -> f s' = f s.
Proof. intros Hf H. rewrite <- (Hf s'), <- (Hf s). by rewrite H. Qed.

(** Rewrite the fields that [same] keeps. *)
Ltac same_fields H :=
  rewrite ?(same_field heap _ _ (fun s => eq_refl) H), ?(same_field fresh_loc _ _ (fun s => eq_refl) H),
    ?(same_field first_line _ _ (fun s => eq_refl) H), ?(same_field curr_line _ _ (fun s => eq_refl) H),
    ?(same_field position _ _ (fun s => eq_refl) H), ?(same_field point _ _ (fun s => eq_refl) H),
    ?(same_field absolute_lin _ _ (fun s => eq_refl) H), ?(same_field eightbit _ _ (fun s => eq_refl) H),
    ?(same_field COLS _ _ (fun s => eq_refl) H), ?(same_field last_col _ _ (fun s => eq_refl) H),
    ?(same_field last_line _ _ (fun s => eq_refl) H), ?(same_field ee_chinese _ _ (fun s => eq_refl) H).

(** What the commands look at beside the text. *)
Definition facts (s : ee) :=
  (observ_margins s, auto_format s, expand_tabs s, d_char s, d_word s, d_wrd_len s, d_line s, dlt_length s, right_margin s, eightbit s, last_line s).

(** ** Symbolic execution *)

Lemma wp_gets {A} (f : ee -> A) (Q : A -> ee -> Prop) X s : Q (f s) s -> wp (gets f) Q X s.
Proof. done. Qed.

Lemma wp_sets {A} (f : ee -> A) `{Setter _ _ f} v (Q : () -> ee -> Prop) X s :
  Q tt (s <| f := v |>) -> wp (sets f v) Q X s.
Proof. done. Qed.

Lemma wp_node l n (Q : text -> ee -> Prop) X s : heap s !! l = Some n -> Q n s -> wp (node l) Q X s.
Proof. intros E H. apply wp_bind, wp_gets. by eapply wp_of_opt. Qed.

Lemma wp_cur n (Q : text -> ee -> Prop) X s : heap s !! curr_line s = Some n -> Q n s -> wp cur Q X s.
Proof. intros E H. apply wp_bind, wp_gets. by eapply wp_node. Qed.

Lemma wp_step d (Q : () -> ee -> Prop) X s :
  Q tt (s <| point := point s + d |> <| position := position s + d |>) -> wp (step d) Q X s.
Proof. done. Qed.

Lemma wp_sync_pos (Q : () -> ee -> Prop) X s : Q tt (s <| scr_pos := scr_horz s |>) -> wp sync_pos Q X s.
Proof. done. Qed.

Ltac ee_step :=
  lazymatch goal with
  | |- wp (bind _ _) _ _ _ => apply wp_bind
  | |- wp (ret _) _ _ _ => apply wp_ret
  | |- wp get _ _ _ => apply wp_get
  | |- wp (modify _) _ _ _ => apply wp_modify
  | |- wp (gets _) _ _ _ => apply wp_gets
  | |- wp (sets _ _) _ _ _ => apply wp_sets
  | |- wp (step _) _ _ _ => apply wp_step
  | |- wp sync_pos _ _ _ => apply wp_sync_pos
  end; cbv beta iota.
Ltac ee_steps := repeat ee_step.

(** The state reached, named. *)
Ltac name_state s' := lazymatch goal with |- wp _ _ _ ?st => set (s' := st) end.

(** ** Columns *)

Lemma tabshift_pos t : 0 <= t -> 1 <= tabshift t <= 8.
Proof.
  intros Ht. unfold tabshift, cmod. rewrite Z.rem_mod_nonneg by lia.
  pose proof (Z.mod_pos_bound (t + 1) 8). case_if; bsimp; lia.
Qed.

Lemma scan_width_pos eb c t : 0 <= t -> 1 <= scan_width eb c t.
Proof. intros Ht. pose proof (tabshift_pos t Ht). unfold scan_width. repeat case_if; lia. Qed.

Lemma scan_cols_total eb n i t b :
  0 <= i -> i + Z.of_nat n <= Z.of_nat (length b) -> 0 <= t ->
  exists t', scan_cols eb n i t b = Some t' /\ t + Z.of_nat n <= t'.
Proof.
  revert i t. induction n as [|n IH]; intros i t Hi Hl Ht; cbn [scan_cols]; [exists t; split; [done|lia]|].
  destruct (aget_in b i) as [c ->]; [lia|]. pose proof (scan_width_pos eb c t Ht).
  destruct (IH (i + 1) (t + scan_width eb c t)) as (t' & -> & H'); [lia|lia|lia|]. exists t'. split; [done|lia].
Qed.

(** Only the bytes before the cursor count. *)
Lemma scan_cols_app eb n i h t r :
  0 <= i -> i + Z.of_nat n <= Z.of_nat (length t) -> scan_cols eb n i h (t ++ r) = scan_cols eb n i h t.
Proof.
  revert i h. induction n as [|n IH]; intros i h Hi Hl; cbn [scan_cols]; [done|].
  assert (E : aget (t ++ r) i = aget t i).
  { unfold aget. destruct (i <? 0); [done|]. apply lookup_app_l. lia. }
  rewrite E. destruct (aget t i); [|done]. apply IH; lia.
Qed.

(** ** Drawing changes nothing but the screen *)

Lemma wp_draw_line l n horiz ptr t_pos len s :
  heap s !! l = Some n -> wp (draw_line l horiz ptr t_pos len) (fun _ s' => same s s' /\ scr_vert s' = scr_vert s /\
    scr_horz s' = scr_horz s /\ horiz_offset s' = horiz_offset s /\ scr_pos s' = scr_pos s) noexit s.
Proof.
  intros E. unfold draw_line. apply wp_bind. eapply wp_node; [exact E|]. ee_steps. case_if; ee_steps; done.
Qed.

(** Every link of a node leads to a node. *)
Definition closed (h : gmap nat text) : Prop :=
  forall l n, h !! l = Some n ->
    (forall x, next_line n = Some x -> is_Some (h !! x)) /\ (forall x, prev_line n = Some x -> is_Some (h !! x)).

Lemma wp_draw_screen_loop fuel p s :
  closed (heap s) -> (forall l, p = Some l -> is_Some (heap s !! l)) ->
  wp (draw_screen_loop fuel p) (fun _ s' => same s s' /\ horiz_offset s' = horiz_offset s) noexit s.
Proof.
  revert p s. induction fuel as [|f IH]; intros p s Hc Hp; cbn [draw_screen_loop]; [ee_steps; done|].
  destruct p as [l|]; [|ee_steps; done]. destruct (Hp l eq_refl) as [n E]. apply wp_bind.
  eapply wp_node; [exact E|]. apply wp_bind. eapply wp_mono; [by eapply wp_draw_line|].
  intros [] s' (Hs & _ & _ & Ho & _). eapply wp_mono.
  - apply IH; same_fields Hs; [done|]. by apply (Hc l n E).
  - intros [] s2 [Hs2 Ho2]. split; [by transitivity s'|congruence].
Qed.

(** Going up leaves the place found in [curr_line]. *)
Lemma wp_go_back n i s :
  closed (heap s) -> is_Some (heap s !! curr_line s) ->
  wp (go_back n i) (fun _ s' => exists l, s' = s <| curr_line := l |> /\ is_Some (heap s !! l)) noexit s.
Proof.
  revert i s. induction n as [|n IH]; intros i s Hc [t E]; cbn [go_back].
  { ee_steps. exists (curr_line s). split; [by destruct s|eauto]. }
  apply wp_bind. eapply wp_cur; [exact E|]. destruct (prev_line t) as [p|] eqn:Ep.
  - ee_steps. eapply wp_mono; [apply IH; [done|]; by apply (proj2 (Hc _ _ E))|].
    intros k s' (l & -> & Hl). by exists l.
  - ee_steps. exists (curr_line s). split; [by destruct s|eauto].
Qed.

(** midscreen runs scanline in a state that differs in the screen only. *)
Lemma wp_midscreen_with (scan : Z -> E ()) line pnt s (Q : () -> ee -> Prop) :
  closed (heap s) -> is_Some (heap s !! curr_line s) ->
  (forall s', same s s' -> horiz_offset s' = horiz_offset s -> wp (scan pnt) Q noexit s') ->
  wp (midscreen_with scan line pnt) Q noexit s.
Proof.
  intros Hc Hcur H. unfold midscreen_with. ee_steps. eapply wp_mono; [by apply wp_go_back|].
  intros i s1 (l & -> & Hl). ee_steps. unfold draw_screen. ee_steps.
  eapply wp_mono; [apply wp_draw_screen_loop; [done|]; intros ? [= <-]; done|].
  intros [] s2 [Hs Ho]. ee_steps. apply H; [|exact Ho]. unfold same in *.
  transitivity (unseen s2 <| curr_line := curr_line s |>); [vm_compute; reflexivity|]. rewrite Hs.
  vm_compute; reflexivity.
Qed.

(** ** scanline *)

(** The window is at least 8 columns wide. *)
Definition window_ok (s : ee) : Prop := 8 <= COLS s /\ last_col s = COLS s - 1.

(** The column is shown. *)
Definition in_window (s : ee) : Prop := horiz_offset s <= scr_horz s <= horiz_offset s + last_col s.

Lemma wp_scanline_inside fuel s n t :
  heap s !! curr_line s = Some n -> scan_cols (eightbit s) (Z.to_nat (point s)) 0 0 (line n) = Some t ->
  t - horiz_offset s <= last_col s -> horiz_offset s <= t ->
  wp (scanline_loop fuel (point s)) (fun _ s' => same s s' /\ scr_horz s' = t /\ in_window s') noexit s.
Proof.
  intros E Et H1 H2. destruct fuel; cbn [scanline_loop]; apply wp_bind; (eapply wp_cur; [exact E|]); ee_steps;
    (eapply wp_of_opt; [exact Et|]); ee_steps; fld;
    (replace (last_col s <? t - horiz_offset s) with false by lia);
    (replace (t <? horiz_offset s) with false by lia); ee_steps; (split; [same_refl|]); (split; [done|]);
    unfold in_window; fld; lia.
Qed.

Lemma wp_scanline s n :
  closed (heap s) -> heap s !! curr_line s = Some n -> 0 <= point s <= Z.of_nat (length (line n)) -> window_ok s ->
  wp (scanline (point s)) (fun _ s' => same s s' /\
    scan_cols (eightbit s) (Z.to_nat (point s)) 0 0 (line n) = Some (scr_horz s') /\ in_window s') noexit s.
Proof.
  intros Hc E Hp [Hw1 Hw2].
  destruct (scan_cols_total (eightbit s) (Z.to_nat (point s)) 0 0 (line n)) as (t & Et & Ht); [lia..|].
  rewrite Et. unfold scanline. cbn [scanline_loop]. apply wp_bind. eapply wp_cur; [exact E|]. ee_steps.
  eapply wp_of_opt; [exact Et|]. ee_steps.
  set (s1 := s <| scr_horz := t |>). assert (Hs1 : same s s1) by same_refl.
  change (scr_horz s1) with t.
  assert (Hagain : forall ho, t - ho <= last_col s -> ho <= t ->
    wp (midscreen_with (scanline_loop 2) (scr_vert s1) (point s1)) (fun _ s' => same s s' /\ Some t = Some (scr_horz s') /\ in_window s')
      noexit (s1 <| horiz_offset := ho |>)).
  { intros ho H1 H2. apply wp_midscreen_with; [done|by eexists|]. intros s2 Hs2 Ho2.
    assert (Hs : same s s2) by (transitivity (s1 <| horiz_offset := ho |>); [same_refl|done]).
    replace (point s1) with (point s2) by (by same_fields Hs).
    eapply wp_mono.
    - apply (wp_scanline_inside 2 s2 n t); same_fields Hs; rewrite ?Ho2; done.
    - intros [] s3 (Hs3 & -> & Hw). split; [by transitivity s2|done]. }
  unfold cmod. rewrite Z.rem_mod_nonneg by lia. pose proof (Z.mod_pos_bound t 8).
  case_if; [ee_steps; apply Hagain; change (COLS s1) with (COLS s); bsimp; lia|].
  case_if; ee_steps; [apply Hagain; lia|]. split; [same_refl|]. split; [done|].
  unfold in_window. bsimp. unfold s1 in *. fld. fld_in Heqb. fld_in Heqb0. lia.
Qed.

(** ** Documents *)

(** The lines above the cursor (nearest first), the line with the cursor and the
    number of characters before it, and the lines below. *)
Record doc := Doc { above : list bytes; this : bytes; col : nat; below : list bytes }.

(** The lines in order. *)
Definition lines_of (d : doc) : list bytes := reverse (above d) ++ this d :: below d.

(** A node holds the text [t] of a line: one byte more than the text is in use and
    the block is as long as [max_length] says. *)
Record node_ok (n : text) (t : bytes) : Prop := {
  nk_text : take (length t) (line n) = t;
  nk_length : line_length n = 1 + Z.of_nat (length t);
  nk_max : max_length n = Z.of_nat (length (line n));
  nk_room : line_length n <= max_length n
}.

(** Nodes linked upwards from the one above [c], and downwards from the one below. *)
Fixpoint upw (h : gmap nat text) (c : nat) (ls : list nat) (ts : list bytes) : Prop :=
  match ls, ts with
  | [], [] => True
  | l :: ls, t :: ts =>
      exists n, h !! l = Some n /\ node_ok n t /\ next_line n = Some c /\ prev_line n = head ls /\ upw h l ls ts
  | _, _ => False
  end.

Fixpoint dnw (h : gmap nat text) (c : nat) (ls : list nat) (ts : list bytes) : Prop :=
  match ls, ts with
  | [], [] => True
  | l :: ls, t :: ts =>
      exists n, h !! l = Some n /\ node_ok n t /\ prev_line n = Some c /\ next_line n = head ls /\ dnw h l ls ts
  | _, _ => False
  end.

Lemma upw_frame h k v c ls ts : k ∉ ls -> upw h c ls ts -> upw (<[k := v]> h) c ls ts.
Proof.
  revert c ts. induction ls as [|l ls IH]; intros c [|t ts] Hk; cbn; try done.
  intros (n & E & H). exists n. apply not_elem_of_cons in Hk as [Hk Hk'].
  rewrite lookup_insert_ne by done. split; [done|]. destruct H as (? & ? & ? & H). split_and!; auto.
Qed.

Lemma dnw_frame h k v c ls ts : k ∉ ls -> dnw h c ls ts -> dnw (<[k := v]> h) c ls ts.
Proof.
  revert c ts. induction ls as [|l ls IH]; intros c [|t ts] Hk; cbn; try done.
  intros (n & E & H). exists n. apply not_elem_of_cons in Hk as [Hk Hk'].
  rewrite lookup_insert_ne by done. split; [done|]. destruct H as (? & ? & ? & H). split_and!; auto.
Qed.

Lemma upw_delete h k c ls ts : k ∉ ls -> upw h c ls ts -> upw (delete k h) c ls ts.
Proof.
  revert c ts. induction ls as [|l ls IH]; intros c [|t ts] Hk; cbn; try done.
  intros (n & E & H). exists n. apply not_elem_of_cons in Hk as [Hk Hk'].
  rewrite lookup_delete_ne by done. split; [done|]. destruct H as (? & ? & ? & H). split_and!; auto.
Qed.

Lemma dnw_delete h k c ls ts : k ∉ ls -> dnw h c ls ts -> dnw (delete k h) c ls ts.
Proof.
  revert c ts. induction ls as [|l ls IH]; intros c [|t ts] Hk; cbn; try done.
  intros (n & E & H). exists n. apply not_elem_of_cons in Hk as [Hk Hk'].
  rewrite lookup_delete_ne by done. split; [done|]. destruct H as (? & ? & ? & H). split_and!; auto.
Qed.

Lemma upw_lookup h c ls ts l : upw h c ls ts -> l ∈ ls -> exists n, h !! l = Some n /\
  (next_line n = Some c \/ exists x, x ∈ ls /\ next_line n = Some x) /\ (forall x, prev_line n = Some x -> x ∈ ls).
Proof.
  revert c ts. induction ls as [|k ls IH]; intros c [|t ts] H Hl; cbn in H; try done; [by apply elem_of_nil in Hl|].
  destruct H as (n & E & _ & Hn & Hp & H). apply elem_of_cons in Hl as [->|Hl].
  - exists n. split; [done|]. split; [by left|]. intros x Hx. rewrite Hp in Hx. destruct ls; [done|]. injection Hx as ->. right. left.
  - destruct (IH k ts H Hl) as (n' & E' & H1 & H2). exists n'. split; [done|]. split.
    + right. destruct H1 as [H1|(x & Hx & H1)]; [exists k; split; [left|done]|exists x; split; [by right|done]].
    + intros x Hx. right. auto.
Qed.

Lemma dnw_lookup h c ls ts l : dnw h c ls ts -> l ∈ ls -> exists n, h !! l = Some n /\
  (prev_line n = Some c \/ exists x, x ∈ ls /\ prev_line n = Some x) /\ (forall x, next_line n = Some x -> x ∈ ls).
Proof.
  revert c ts. induction ls as [|k ls IH]; intros c [|t ts] H Hl; cbn in H; try done; [by apply elem_of_nil in Hl|].
  destruct H as (n & E & _ & Hn & Hp & H). apply elem_of_cons in Hl as [->|Hl].
  - exists n. split; [done|]. split; [by left|]. intros x Hx. rewrite Hp in Hx. destruct ls; [done|]. injection Hx as ->. right. left.
  - destruct (IH k ts H Hl) as (n' & E' & H1 & H2). exists n'. split; [done|]. split.
    + right. destruct H1 as [H1|(x & Hx & H1)]; [exists k; split; [left|done]|exists x; split; [by right|done]].
    + intros x Hx. right. auto.
Qed.

(** The places of the nodes: [up] nearest first, [l] the current one, [dn]. *)
Record placed (h : gmap nat text) (fr : nat) (d : doc) (up : list nat) (l : nat) (dn : list nat) (n : text) : Prop := {
  pl_cur : h !! l = Some n;
  pl_ok : node_ok n (this d);
  pl_prev : prev_line n = head up;
  pl_next : next_line n = head dn;
  pl_up : upw h l up (above d);
  pl_dn : dnw h l dn (below d);
  pl_nodup : NoDup (l :: up ++ dn);
  pl_all : forall k, is_Some (h !! k) -> k ∈ l :: up ++ dn;
  pl_fresh : forall k, k ∈ l :: up ++ dn -> (k < fr)%nat
}.

(** The state holds the document. *)
Record Rep (s : ee) (d : doc) : Prop := {
  rp_nodes : exists up dn n, placed (heap s) (fresh_loc s) d up (curr_line s) dn n /\
    head (reverse (curr_line s :: up)) = Some (first_line s);
  rp_pos : position s = 1 + Z.of_nat (col d);
  rp_point : point s = Z.of_nat (col d);
  rp_col : (col d <= length (this d))%nat;
  rp_abs : absolute_lin s = 1 + Z.of_nat (length (above d));
  rp_window : window_ok s;
  rp_narrow : ee_chinese s = false
}.

Lemma placed_closed h fr d up l dn n : placed h fr d up l dn n -> closed h.
Proof.
  intros H k m E. destruct H as [P1 P2 P3 P4 P5 P6 P7 P8 P9].
  assert (Hin : forall x, x ∈ l :: up ++ dn -> is_Some (h !! x)).
  { intros x [->|[Hx|Hx]%elem_of_app]%elem_of_cons; [by eexists| |].
    - destruct (upw_lookup _ _ _ _ x P5 Hx) as (? & -> & _). by eexists.
    - destruct (dnw_lookup _ _ _ _ x P6 Hx) as (? & -> & _). by eexists. }
  assert (Hk : k ∈ l :: up ++ dn) by (apply P8; by eexists).
  apply elem_of_cons in Hk as [->|[Hk|Hk]%elem_of_app].
  - rewrite P1 in E. injection E as <-. split; intros x Hx; apply Hin; right; apply elem_of_app;
      [right; rewrite P4 in Hx; destruct dn|left; rewrite P3 in Hx; destruct up]; try done; injection Hx as ->; left.
  - destruct (upw_lookup _ _ _ _ k P5 Hk) as (m' & E' & H1 & H2). rewrite E in E'. injection E' as <-. split; intros x Hx; apply Hin.
    + destruct H1 as [H1|(y & Hy & H1)]; rewrite H1 in Hx; injection Hx as <-; [left|right; apply elem_of_app; by left].
    + right. apply elem_of_app. left. by apply H2.
  - destruct (dnw_lookup _ _ _ _ k P6 Hk) as (m' & E' & H1 & H2). rewrite E in E'. injection E' as <-. split; intros x Hx; apply Hin.
    + right. apply elem_of_app. right. by apply H2.
    + destruct H1 as [H1|(y & Hy & H1)]; rewrite H1 in Hx; injection Hx as <-; [left|right; apply elem_of_app; by right].
Qed.

(** What the document depends on. *)
Definition view (s : ee) :=
  (heap s, (fresh_loc s, first_line s, curr_line s, position s, point s, absolute_lin s, COLS s, last_col s, ee_chinese s)).

Lemma Rep_view s s' d : view s' = view s -> Rep s d -> Rep s' d.
Proof.
  intros H [R1 R2 R3 R4 R5 R6 R7]. injection H as V1 V2 V3 V4 V5 V6 V7 V8 V9 V10. unfold window_ok in R6.
  split; unfold window_ok; rewrite ?V1, ?V2, ?V3, ?V4, ?V5, ?V6, ?V7, ?V8, ?V9, ?V10; done.
Qed.

(** A change of the screen keeps the document. *)
Lemma Rep_same s s' d : same s s' -> Rep s d -> Rep s' d.
Proof. intros H. apply Rep_view. exact (same_field view _ _ (fun s => eq_refl) H). Qed.

(** The block of the current line holds the cursor. *)
Lemma Rep_point s d n : Rep s d -> heap s !! curr_line s = Some n -> 0 <= point s <= Z.of_nat (length (line n)).
Proof.
  intros [(up & dn & m & P & _) R2 R3 R4 R5 R6 R7] E. destruct P as [P1 P2 P3 P4 P5 P6 P7 P8 P9].
  rewrite E in P1. injection P1 as ->. destruct P2 as [N1 N2 N3 N4]. lia.
Qed.

Lemma wp_scanline_Rep s d (Q : () -> ee -> Prop) :
  Rep s d -> (forall s', same s s' -> Q tt s') -> wp (scanline (point s)) Q noexit s.
Proof.
  intros R H. pose proof R as [(up & dn & n & P & _) R2 R3 R4 R5 R6 R7]. eapply wp_mono.
  - eapply wp_scanline; [by eapply placed_closed|by eapply pl_cur| |done]. eapply Rep_point; [done|by eapply pl_cur].
  - intros [] s' [Hs _]. by apply H.
Qed.

(** The column aimed at is the one of the cursor. *)
Definition synced (s : ee) (d : doc) : Prop := scan_cols (eightbit s) (col d) 0 0 (this d) = Some (scr_pos s).

Lemma wp_midscreen_Rep s d line (Q : () -> ee -> Prop) :
  Rep s d -> (forall s', same s s' -> Q tt s') -> wp (midscreen line (point s)) Q noexit s.
Proof.
  intros R H. pose proof R as [(up & dn & n & P & _) R2 R3 R4 R5 R6 R7]. apply wp_midscreen_with.
  - by eapply placed_closed.
  - eexists. by eapply pl_cur.
  - intros s' Hs _. replace (point s) with (point s') by (by same_fields Hs). eapply wp_scanline_Rep; [by eapply Rep_same|].
    intros s2 Hs2. apply H. by transitivity s'.
Qed.

(** ** The NUL after a line *)

(** The byte after the text of a line is a NUL.  The program keeps it so but does not
    make it so for the empty line it starts with. *)
Definition ended (n : text) : Prop := aget (line n) (line_length n - 1) = Some 0.
Definition terminated (s : ee) : Prop := forall l n, heap s !! l = Some n -> ended n.
Definition ends_kept (s s' : ee) : Prop := terminated s -> terminated s'.

#[export] Instance ends_kept_preorder : PreOrder ends_kept.
Proof. split; [intros s H; exact H|intros s1 s2 s3 H1 H2 H; exact (H2 (H1 H))]. Qed.

Lemma ends_heap s s' : heap s' = heap s -> ends_kept s s'.
Proof. unfold ends_kept, terminated. by intros ->. Qed.

Lemma ends_same s s' : same s s' -> ends_kept s s'.
Proof. intros H. apply ends_heap. exact (same_field heap _ _ (fun s => eq_refl) H). Qed.

(** One node changed. *)
Lemma ends_set s s' l n : heap s' = <[l := n]> (heap s) -> (terminated s -> ended n) -> ends_kept s s'.
Proof.
  intros H Hn Ht k m. rewrite H. destruct (decide (l = k)) as [<-|Hne]; [rewrite lookup_insert_eq; intros [= <-]; auto|].
  rewrite lookup_insert_ne by done. apply Ht.
Qed.

Lemma ended_tail n t r : line n = t ++ r -> line_length n = 1 + Z.of_nat (length t) -> ended n <-> head r = Some 0.
Proof.
  intros Hl Hn. unfold ended, aget. rewrite Hl, Hn. rewrite (proj2 (Z.ltb_ge _ 0)) by lia. rewrite lookup_app_r by lia.
  replace (Z.to_nat _ - length t)%nat with O by lia. by destruct r.
Qed.

End EeRep.
