(* ===== verification/EeMove.v ===== *)
(** * ee(1): moving the cursor

    The document after a move, and that the commands of EeEdit make it: each runs
    without undefined behaviour on a state that holds a document, and ends in one
    that holds the document with the cursor moved. *)

From S2P Require Import Prelude Monad EeState EeEdit EeRep.
From stdpp Require Import base list gmap numbers.
From Stdlib Require Import ZArith Lia.

Open Scope Z_scope.

Module EeMove.

Import EeState EeEdit EeRep.
Local Open Scope ind_scope.

(** ** The moves of a document *)

Definition at_col (d : doc) (c : nat) : doc := Doc (above d) (this d) c (below d).

(** To column [c d] of the line above, and of the line below. *)
Definition d_prev (d : doc) : doc :=
  match above d with
  | [] => d
  | t :: ts => Doc ts t (length t) (this d :: below d)
  end.

Definition d_next (d : doc) : doc :=
  match below d with
  | [] => d
  | t :: ts => Doc (this d :: above d) t 0 ts
  end.

Definition d_left (d : doc) : doc :=
  match col d with
  | O => d_prev d
  | S c => at_col d c
  end.

Definition d_right (d : doc) : doc := if (col d <? length (this d))%nat then at_col d (S (col d)) else d_next d.

(** ** Steps along the list of nodes *)

Lemma placed_above h fr t ts x c bs up l dn n c' :
  placed h fr (Doc (t :: ts) x c bs) up l dn n ->
  exists u us n', up = u :: us /\ placed h fr (Doc ts t c' (x :: bs)) us u (l :: dn) n' /\ prev_line n = Some u.
Proof.
  intros [P1 P2 P3 P4 P5 P6 P7 P8 P9]. destruct up as [|u us]; [done|]. cbn in P5.
  destruct P5 as (n' & E & Hok & Hn & Hp & Hu). exists u, us, n'. split; [done|]. split; [|done].
  assert (Hperm : u :: us ++ l :: dn ≡ₚ l :: (u :: us) ++ dn) by (rewrite Permutation_app_comm; cbn; solve_Permutation).
  split; try done.
  - cbn. exists n. split_and!; try done.
  - by rewrite Hperm.
  - intros k Hk. rewrite Hperm. by apply P8.
  - intros k Hk. apply P9. by rewrite <- Hperm.
Qed.

Lemma placed_below h fr ts x c t bs up l dn n c' :
  placed h fr (Doc ts x c (t :: bs)) up l dn n ->
  exists u us n', dn = u :: us /\ placed h fr (Doc (x :: ts) t c' bs) (l :: up) u us n' /\ next_line n = Some u.
Proof.
  intros [P1 P2 P3 P4 P5 P6 P7 P8 P9]. destruct dn as [|u us]; [done|]. cbn in P6.
  destruct P6 as (n' & E & Hok & Hn & Hp & Hu). exists u, us, n'. split; [done|]. split; [|done].
  assert (Hperm : u :: (l :: up) ++ us ≡ₚ l :: up ++ u :: us) by (cbn; solve_Permutation).
  split; try done.
  - cbn. exists n. split_and!; try done.
  - by rewrite Hperm.
  - intros k Hk. rewrite Hperm. by apply P8.
  - intros k Hk. apply P9. by rewrite <- Hperm.
Qed.

Lemma placed_col h fr ts x c bs up l dn n c' :
  placed h fr (Doc ts x c bs) up l dn n -> placed h fr (Doc ts x c' bs) up l dn n.
Proof. by intros [P1 P2 P3 P4 P5 P6 P7 P8 P9]. Qed.

Lemma head_reverse_cons {A} (x y : A) l : head (reverse (x :: y :: l)) = head (reverse (y :: l)).
Proof.
  rewrite (reverse_cons (y :: l)). destruct (reverse (y :: l)) eqn:E; [|done].
  by apply (f_equal length) in E; rewrite length_reverse in E.
Qed.

(** ** What every command promises *)

(** The command turns a state that holds [d] into one that holds [d']; settings and
    saved strings stay. *)
Definition moves (m : E ()) (s : ee) (d' : doc) : Prop :=
  wp m (fun _ s' => Rep s' d' /\ quiet s s') noexit s.

Lemma Rep_cursor s d c :
  Rep s d -> (c <= length (this d))%nat ->
  Rep (s <| point := Z.of_nat c |> <| position := 1 + Z.of_nat c |>) (at_col d c).
Proof.
  intros [(up & dn & n & P & Hf) R2 R3 R4 R5 R6 R7] Hc. destruct d. split; try done.
  exists up, dn, n. split; [by eapply placed_col|done].
Qed.

Lemma Rep_step s d k c :
  Rep s d -> Z.of_nat c = Z.of_nat (col d) + k -> (c <= length (this d))%nat ->
  Rep (s <| point := point s + k |> <| position := position s + k |>) (at_col d c).
Proof.
  intros R Hk Hc. pose proof (Rep_cursor s d c R Hc) as R'.
  rewrite (rp_point _ _ R), (rp_pos _ _ R). by rewrite <- Z.add_assoc, <- Hk.
Qed.

Lemma Rep_cur s d : Rep s d -> exists n, heap s !! curr_line s = Some n /\ node_ok n (this d) /\
  (next_line n = None <-> below d = []) /\ (prev_line n = None <-> above d = []).
Proof.
  intros [(up & dn & n & [P1 P2 P3 P4 P5 P6 P7 P8 P9] & _) R2 R3 R4 R5 R6 R7]. exists n. split_and!; [done..| |].
  - rewrite P4. by destruct dn, (below d).
  - rewrite P3. by destruct up, (above d).
Qed.

(** The columns scanline counts are those of the text. *)
Lemma Rep_cols s d n : Rep s d -> heap s !! curr_line s = Some n ->
  scan_cols (eightbit s) (Z.to_nat (point s)) 0 0 (line n) = scan_cols (eightbit s) (col d) 0 0 (this d).
Proof.
  intros R E. destruct (Rep_cur s d R) as (n' & E' & Hn & _). assert (n' = n) as -> by congruence. destruct Hn as [N1 N2 N3 N4].
  rewrite (rp_point _ _ R), Nat2Z.id. rewrite <- (take_drop (length (this d)) (line n)), N1. apply scan_cols_app; [lia|].
  pose proof (rp_col _ _ R). lia.
Qed.

(** Ending with the screen brought up to date. *)
Lemma wp_show s0 s d (Q : () -> ee -> Prop) :
  Rep s d -> quiet s0 s -> (forall s', Rep s' d -> quiet s0 s' -> synced s' d -> Q tt s') ->
  wp (scanline (point s)) (fun _ s' => wp sync_pos Q noexit s') noexit s.
Proof.
  intros R Hq H. pose proof R as [(up & dn & n & P & _) _ _ _ _ Hw _]. pose proof (pl_cur _ _ _ _ _ _ _ P) as E.
  eapply wp_mono; [eapply wp_scanline; [by eapply placed_closed|exact E|by eapply Rep_point|exact Hw]|].
  intros [] s' (Hs & Hc & _). ee_steps. apply H.
  - eapply Rep_same; [|exact R]. transitivity s'; [done|same_refl].
  - transitivity s; [done|]. apply same_quiet. transitivity s'; [done|same_refl].
  - unfold synced. fld. rewrite (Rep_cols s d n R E) in Hc. by rewrite (same_field eightbit _ _ (fun s => eq_refl) Hs).
Qed.

(** ** Lines *)

Lemma Rep_next s d t ts : Rep s d -> below d = t :: ts -> exists n l, heap s !! curr_line s = Some n /\
  next_line n = Some l /\ is_Some (heap s !! l) /\
  Rep (s <| curr_line := l |> <| absolute_lin := absolute_lin s + 1 |> <| point := 0 |> <| position := 1 |>) (d_next d).
Proof.
  intros R E. pose proof R as [(up & dn & n & P & Hf) R2 R3 R4 R5 R6 R7]. destruct d as [ab x c be]. cbn in E. subst be.
  destruct (placed_below _ _ _ _ _ _ _ _ _ _ _ 0%nat P) as (u & us & n' & -> & P' & Hn). exists n, u.
  split_and!; [apply P|done|eexists; apply P'|]. split; try done; fld; cbn [d_next above this col below length] in *; [|lia|lia].
  exists (curr_line s :: up), us, n'. split; [done|]. fld. rewrite head_reverse_cons. done.
Qed.

Lemma Rep_prev s d t ts : Rep s d -> above d = t :: ts -> exists n l m, heap s !! curr_line s = Some n /\
  prev_line n = Some l /\ heap s !! l = Some m /\ node_ok m t /\
  Rep (s <| curr_line := l |> <| absolute_lin := absolute_lin s - 1 |> <| point := Z.of_nat (length t) |>
         <| position := 1 + Z.of_nat (length t) |>) (d_prev d).
Proof.
  intros R E. pose proof R as [(up & dn & n & P & Hf) R2 R3 R4 R5 R6 R7]. destruct d as [ab x c be]. cbn in E. subst ab.
  destruct (placed_above _ _ _ _ _ _ _ _ _ _ _ (length t) P) as (u & us & n' & -> & P' & Hn). exists n, u, n'.
  split_and!; [apply P|done|apply P'|apply (pl_ok _ _ _ _ _ _ _ P')|]. split; try done; fld; cbn [d_prev above this col below length] in *; [|lia].
  exists us, (curr_line s :: dn), n'. split; [done|]. fld. rewrite head_reverse_cons in Hf. done.
Qed.

(** Either the line is drawn or the cursor moves on the screen. *)
Lemma wp_draw_or_scroll (b : bool) l n h p t len v s (Q : () -> ee -> Prop) :
  heap s !! l = Some n -> (forall s', same s s' -> scr_pos s' = scr_pos s -> Q tt s') ->
  wp (if b then draw_line l h p t len else sets scr_vert v) Q noexit s.
Proof.
  intros E H. destruct b.
  - eapply wp_mono; [by eapply wp_draw_line|]. intros [] s' (Hs & _ & _ & _ & Hp). by apply H.
  - ee_steps. apply H; [same_refl|reflexivity].
Qed.

Lemma nextline_moves s d : Rep s d -> below d <> [] -> moves nextline s (d_next d).
Proof.
  intros R Hb. destruct (below d) as [|t ts] eqn:E; [done|].
  destruct (Rep_next s d t ts R E) as (n & l & En & El & [m Em] & R').
  unfold moves, nextline. apply wp_bind. eapply wp_cur; [exact En|]. rewrite El. cbn [deref of_opt]. ee_steps.
  eapply wp_cur; [exact Em|]. eapply wp_draw_or_scroll; [exact Em|]. intros s' Hs _. split.
  - eapply Rep_same; [exact Hs|exact R'].
  - etransitivity; [|by apply same_quiet, Hs]. same_refl.
Qed.

Lemma prevline_moves s d : Rep s d -> above d <> [] -> moves prevline s (d_prev d).
Proof.
  intros R Hb. destruct (above d) as [|t ts] eqn:E; [done|].
  destruct (Rep_prev s d t ts R E) as (n & l & m & En & El & Em & Hm & R').
  unfold moves, prevline. apply wp_bind. eapply wp_cur; [exact En|]. rewrite El. cbn [deref of_opt]. ee_steps.
  eapply wp_cur; [exact Em|]. apply wp_bind. eapply wp_draw_or_scroll; [exact Em|]. intros s' Hs _. ee_steps.
  rewrite (nk_length _ _ Hm). replace (Z.max 0 (1 + Z.of_nat (length t) - 1)) with (Z.of_nat (length t)) by lia.
  assert (Hd : this (d_prev d) = t /\ at_col (d_prev d) (length t) = d_prev d) by (unfold d_prev; by rewrite E).
  destruct Hd as [Ht Hd]. split.
  - rewrite <- Hd. change (at_col (d_prev d) (length t)) with (at_col (at_col (d_prev d) 0) (length t)).
    apply Rep_step; [|cbn; lia|cbn; by rewrite Ht]. eapply Rep_same; [exact Hs|]. eapply Rep_same; [|apply Rep_cursor; [exact R'|lia]].
    same_refl.
  - etransitivity; [|etransitivity; [apply same_quiet, Hs|]]; same_refl.
Qed.

(** ** Characters *)

(** The same with the column, for the steps inside a line. *)
Definition walks (m : E ()) (s : ee) (d' : doc) : Prop :=
  wp m (fun _ s' => Rep s' d' /\ quiet s s' /\ synced s' d') noexit s.

Lemma left_walks s d c : Rep s d -> col d = S c -> walks (left true) s (at_col d c).
Proof.
  intros R Ec. unfold walks, left. ee_steps. rewrite (rp_point _ _ R), (rp_narrow _ _ R), Ec.
  rewrite (proj2 (Z.eqb_neq (Z.of_nat (S c)) 0)) by lia. cbn [negb andb]. ee_steps.
  apply (wp_show s _ (at_col d c)); [|same_refl|auto]. pose proof (rp_col _ _ R). apply Rep_step; [done|lia|lia].
Qed.

Lemma right_walks s d : Rep s d -> (col d < length (this d))%nat -> walks (right true) s (at_col d (S (col d))).
Proof.
  intros R Hc. destruct (Rep_cur s d R) as (n & En & Hn & _). unfold walks, right. ee_steps. eapply wp_cur; [exact En|].
  rewrite (nk_length _ _ Hn), (rp_pos _ _ R), (proj2 (Z.ltb_lt _ _)) by lia. unfold wide_here. ee_steps. rewrite (rp_narrow _ _ R). ee_steps.
  apply (wp_show s _ (at_col d (S (col d)))); [|same_refl|auto]. apply Rep_step; [done|lia|lia].
Qed.

Lemma walks_moves m s d : walks m s d -> moves m s d.
Proof. intros H. eapply wp_mono; [exact H|]. intros [] s' (R & Hq & _). by split. Qed.

Lemma left_moves s d : Rep s d -> moves (left true) s (d_left d).
Proof.
  intros R. unfold d_left. destruct (col d) as [|c] eqn:Ec; [|by apply walks_moves, left_walks].
  destruct (Rep_cur s d R) as (n & En & Hn & _ & Hprev). unfold moves, left. ee_steps. rewrite (rp_point _ _ R), Ec.
  change (negb (Z.of_nat 0 =? 0)) with false. cbv iota. apply wp_bind. eapply wp_cur; [exact En|].
  destruct (prev_line n) as [l|] eqn:El; cbv iota.
  - cbn [negb]. ee_steps. assert (R1 : Rep (s <| position := 1 |>) d).
    { replace 1 with (position s) by (rewrite (rp_pos _ _ R), Ec; lia). eapply Rep_same; [|exact R]. same_refl. }
    eapply wp_mono; [apply prevline_moves; [exact R1|]|].
    + intros Hd. by apply Hprev in Hd.
    + intros [] s' [R' Hq]. ee_steps. eapply (wp_show s); [exact R'| |auto]. etransitivity; [|exact Hq]. same_refl.
  - ee_steps. split; [|reflexivity]. unfold d_prev. by rewrite (proj1 Hprev eq_refl).
Qed.

(** The window moved if need be. *)
Lemma wp_scroll (b : bool) v line s d (Q : () -> ee -> Prop) :
  Rep s d -> (forall s', same s s' -> Q tt s') ->
  wp (if b then sets horiz_offset v ;; midscreen line (point s) else ret tt) Q noexit s.
Proof.
  intros R H. case_if; ee_steps; [|apply H; same_refl].
  change (point s) with (point (s <| horiz_offset := v |>)).
  apply (wp_midscreen_Rep _ d); [eapply Rep_same; [|exact R]; same_refl|]. intros s' Hs. apply H.
  etransitivity; [|exact Hs]. same_refl.
Qed.

Lemma wp_reset_offset s d (Q : () -> ee -> Prop) :
  Rep s d -> (forall s', same s s' -> Q tt s') -> wp reset_offset Q noexit s.
Proof.
  intros R H. unfold reset_offset. ee_steps. by eapply wp_scroll.
Qed.

(** The rest of a move to the line below. *)
Lemma wp_line_start s0 s d (Q : () -> ee -> Prop) :
  Rep s d -> quiet s0 s -> (forall s', Rep s' d -> quiet s0 s' -> Q tt s') ->
  wp (sets scr_horz 0 ;; sets scr_pos 0 ;; reset_offset) Q noexit s.
Proof.
  intros R Hq H. ee_steps. apply (wp_reset_offset _ d); [eapply Rep_same; [|exact R]; same_refl|].
  intros s' Hs. assert (Hs' : same s s') by (etransitivity; [|exact Hs]; same_refl).
  apply H; [by eapply Rep_same|]. transitivity s; [done|by apply same_quiet].
Qed.

Lemma d_right_inside d : (col d < length (this d))%nat -> d_right d = at_col d (S (col d)).
Proof. intros H. unfold d_right. by rewrite (proj2 (Nat.ltb_lt _ _) H). Qed.

Lemma right_moves s d : Rep s d -> moves (right true) s (d_right d).
Proof.
  intros R. destruct (Nat.ltb_spec (col d) (length (this d))) as [Hlt|Hge].
  { rewrite d_right_inside by done. by apply walks_moves, right_walks. }
  destruct (Rep_cur s d R) as (n & En & Hn & Hnext & _). unfold moves, right. ee_steps. eapply wp_cur; [exact En|].
  pose proof (nk_length _ _ Hn) as Hl. pose proof (rp_pos _ _ R) as Hp. rewrite (proj2 (Z.ltb_ge _ _)) by lia.
  unfold d_right. rewrite (proj2 (Nat.ltb_ge _ _)) by lia. destruct (next_line n) as [l|] eqn:El; cbn [negb]; cbv iota.
  - ee_steps. eapply wp_mono; [apply nextline_moves; [done|]; intros Hd; by apply Hnext in Hd|].
    intros [] s1 [R1 Hq1]. ee_steps. apply (wp_reset_offset _ (d_next d)); [eapply Rep_same; [|exact R1]; same_refl|].
    intros s2 Hs2. ee_steps. assert (Hs : same s1 s2) by (etransitivity; [|exact Hs2]; same_refl).
    assert (E1 : position s2 = 1).
    { same_fields Hs. rewrite (rp_pos _ _ R1). unfold d_next. destruct (below d) as [|] eqn:Eb; [by destruct Hnext as [_ Hnext]; specialize (Hnext eq_refl)|]. cbn; lia. }
    rewrite <- E1. split.
    + eapply Rep_same; [|exact R1]. transitivity s2; [done|same_refl].
    + transitivity s1; [done|]. transitivity s2; [by apply same_quiet|same_refl].
  - ee_steps. split; [|reflexivity]. unfold d_next. by rewrite (proj1 Hnext eq_refl).
Qed.

End EeMove.
