(* ===== verification/EeBlock.v ===== *)
(** * ee(1): the blocks of lines

    What the copying loops do to a block, and the rules for the steps that change
    nodes of the heap. *)

From S2P Require Import Prelude Monad EeState EeEdit EeRep.
From stdpp Require Import base list gmap numbers.
From Stdlib Require Import ZArith Lia.

Open Scope Z_scope.

Module EeBlock.

Import EeState EeEdit EeRep.
Local Open Scope ind_scope.

(** ** Copying *)

Lemma aget_app_l {A} (u w : list A) c x : u !! c = Some x -> aget (u ++ w) (Z.of_nat c) = Some x.
Proof. intros H. unfold aget. rewrite (proj2 (Z.ltb_ge _ _)), Nat2Z.id by lia. by apply lookup_app_l_Some. Qed.

Lemma aget_app {A} (u : list A) x w i : i = Z.of_nat (length u) -> aget (u ++ x :: w) i = Some x.
Proof.
  intros ->. unfold aget. rewrite (proj2 (Z.ltb_ge _ _)) by lia. by rewrite Nat2Z.id, list_lookup_middle.
Qed.

Lemma aset_app {A} (u : list A) y w x i : i = Z.of_nat (length u) -> aset (u ++ y :: w) i x = Some (u ++ x :: w).
Proof.
  intros ->. rewrite aset_in by (rewrite length_app; cbn; lia). by rewrite Nat2Z.id, <- (Nat.add_0_r (length u)), insert_app_r.
Qed.

Lemma copy_from_spec xs a z u v w src dst :
  length v = length xs -> src = Z.of_nat (length a) -> dst = Z.of_nat (length u) ->
  copy_from (length xs) (a ++ xs ++ z) src (u ++ v ++ w) dst = Some (u ++ xs ++ w).
Proof.
  revert a u v src dst. induction xs as [|x xs IH]; intros a u v src dst Hv Hs Hd; destruct v as [|y v]; try done.
  cbn [copy_from length app]. rewrite aget_app, aset_app by done.
  specialize (IH (a ++ [x]) (u ++ [x]) v (src + 1) (dst + 1)). rewrite <- !app_assoc in IH. cbn [app] in IH.
  apply IH; [by injection Hv|rewrite length_app; cbn; lia..].
Qed.

Lemma copy_from_spec0 xs z u v w dst :
  length v = length xs -> dst = Z.of_nat (length u) ->
  copy_from (length xs) (xs ++ z) 0 (u ++ v ++ w) dst = Some (u ++ xs ++ w).
Proof. intros Hv Hd. exact (copy_from_spec xs [] z u v w 0 dst Hv eq_refl Hd). Qed.

(** The text after a gap moves down over it. *)
Lemma copy_fwd_spec xs u g w src dst :
  dst = Z.of_nat (length u) -> src = dst + Z.of_nat (length g) ->
  exists w', copy_fwd (length xs) src dst (u ++ g ++ xs ++ w) = Some (u ++ xs ++ w') /\ length w' = (length g + length w)%nat.
Proof.
  revert u g src dst. induction xs as [|x xs IH]; intros u g src dst Hd Hs.
  - exists (g ++ w). split; [done|by rewrite length_app].
  - cbn [copy_fwd length]. rewrite app_assoc. change ((x :: xs) ++ w) with (x :: xs ++ w).
    rewrite aget_app by (rewrite length_app; lia). rewrite <- app_assoc.
    assert (Hg : exists g', length g' = length g /\ aset (u ++ g ++ x :: xs ++ w) dst x = Some ((u ++ [x]) ++ g' ++ xs ++ w)).
    { destruct g as [|y g]; [exists []|exists (g ++ [x])]; (split; [rewrite ?length_app; cbn; lia|]); cbn [app];
        rewrite aset_app by done; by rewrite <- !app_assoc. }
    destruct Hg as (g' & Hg & ->).
    destruct (IH (u ++ [x]) g' (src + 1) (dst + 1)) as (w' & -> & Hw); [rewrite length_app; cbn; lia|lia|].
    exists w'. rewrite <- app_assoc. split; [done|lia].
Qed.

(** A text copied behind another, and a byte after it. *)
Lemma append_block p t x r z b2 :
  (length x + 1 <= length r)%nat ->
  exists r', match copy_from (length x) (p ++ x ++ z) (Z.of_nat (length p)) (t ++ r) (Z.of_nat (length t)) with
             | Some blk => aset blk (Z.of_nat (length t) + Z.of_nat (length x)) b2
             | None => None
             end = Some ((t ++ x) ++ b2 :: r') /\ (length x + S (length r') = length r)%nat.
Proof.
  intros H. destruct (drop (length x) r) as [|y w] eqn:Ed; [apply (f_equal length) in Ed; rewrite length_drop in Ed; cbn in Ed; lia|].
  exists w. rewrite <- (take_drop (length x) r), Ed at 1.
  rewrite copy_from_spec by (rewrite ?length_take; done || lia).
  rewrite app_assoc. rewrite aset_app by (rewrite length_app; lia). split; [done|].
  apply (f_equal length) in Ed. rewrite length_drop in Ed. cbn in Ed. lia.
Qed.

(** The text moves up by one byte. *)
Lemma shift_up_spec xs u y w temp :
  temp = Z.of_nat (length u + length xs) ->
  exists y', shift_up (length xs) temp (u ++ xs ++ y :: w) = Some (u ++ y' :: xs ++ w).
Proof.
  revert y w temp. induction xs as [|x xs IH] using rev_ind; intros y w temp Ht; [by exists y|].
  rewrite length_app, Nat.add_comm. cbn [length Nat.add shift_up].
  rewrite length_app in Ht. cbn in Ht. rewrite <- !app_assoc. cbn [app]. rewrite app_assoc.
  rewrite aget_app by (rewrite length_app; lia).
  replace ((u ++ xs) ++ x :: y :: w) with ((u ++ xs ++ [x]) ++ y :: w) by (by rewrite <- !app_assoc).
  rewrite aset_app by (rewrite !length_app; cbn; lia).
  destruct (IH x (x :: w) (temp - 1)) as [y' E]; [lia|]. exists y'.
  rewrite <- !app_assoc. cbn [app]. rewrite E. done.
Qed.

(** ** Nodes *)

Lemma nk_split n t : node_ok n t -> exists r, line n = t ++ r /\ (1 <= length r)%nat /\
  max_length n = Z.of_nat (length t + length r) /\ line_length n = 1 + Z.of_nat (length t).
Proof.
  intros [N1 N2 N3 N4]. exists (drop (length t) (line n)). split; [rewrite <- N1 at 1; by rewrite take_drop|].
  rewrite length_drop. split_and!; lia.
Qed.

Lemma nk_make n t r :
  line n = t ++ r -> (1 <= length r)%nat -> max_length n = Z.of_nat (length t + length r) ->
  line_length n = 1 + Z.of_nat (length t) -> node_ok n t.
Proof.
  intros E Hr Hm Hl. split; [by rewrite E, take_app_length|done|by rewrite E, length_app|lia].
Qed.

(** A block made longer keeps what it held. *)
Lemma realloc_app junk b n :
  (length b <= Z.to_nat n)%nat -> exists r, realloc junk b n = b ++ r /\ length r = (Z.to_nat n - length b)%nat.
Proof.
  intros H. unfold realloc. rewrite take_ge by done. eexists. split; [done|]. by rewrite length_replicate.
Qed.

(** ** Rules *)

Lemma wp_set_node l n (Q : () -> ee -> Prop) X s : Q tt (s <| heap ::= <[l := n]> |>) -> wp (set_node l n) Q X s.
Proof. done. Qed.

Lemma wp_upd l f n (Q : () -> ee -> Prop) X s :
  heap s !! l = Some n -> Q tt (s <| heap ::= <[l := f n]> |>) -> wp (upd l f) Q X s.
Proof. intros E H. apply wp_bind. by eapply wp_node. Qed.

Lemma wp_edit_line l f n b (Q : () -> ee -> Prop) X s :
  heap s !! l = Some n -> f (line n) = Some b -> Q tt (s <| heap ::= <[l := n <| line := b |>]> |>) ->
  wp (edit_line l f) Q X s.
Proof. intros E Ef H. apply wp_bind. eapply wp_node; [done|]. apply wp_bind. by eapply wp_of_opt. Qed.

Lemma wp_poke l i c n b (Q : () -> ee -> Prop) X s :
  heap s !! l = Some n -> aset (line n) i c = Some b -> Q tt (s <| heap ::= <[l := n <| line := b |>]> |>) ->
  wp (poke l i c) Q X s.
Proof. intros E Ef H. apply wp_bind. eapply wp_node; [done|]. apply wp_bind. by eapply wp_of_opt. Qed.

Lemma wp_peek_at l i n c (Q : Z -> ee -> Prop) X s :
  heap s !! l = Some n -> aget (line n) i = Some c -> Q c s -> wp (peek_at l i) Q X s.
Proof. intros E Ef H. apply wp_bind. eapply wp_node; [done|]. by eapply wp_of_opt. Qed.

Lemma wp_peek_cur k n c (Q : Z -> ee -> Prop) X s :
  heap s !! curr_line s = Some n -> aget (line n) (point s + k) = Some c -> Q c s -> wp (peek k) Q X s.
Proof. intros E Ef H. apply wp_bind, wp_gets, wp_bind, wp_gets. by eapply wp_peek_at. Qed.

Lemma wp_resiz_line junk factor l rpos n (Q : Z -> ee -> Prop) X s :
  heap s !! l = Some n -> 0 < max_length n + factor -> 1 <= rpos ->
  Q (rpos - 1) (s <| heap ::= <[l := n <| max_length := max_length n + factor |>
                                       <| line := realloc junk (line n) (max_length n + factor) |>]> |>) ->
  wp (resiz_line junk factor l rpos) Q X s.
Proof.
  intros E Hm Hp H. apply wp_bind. eapply wp_node; [done|]. cbv beta zeta. rewrite (proj2 (Z.leb_gt _ _)) by done.
  apply wp_bind, wp_set_node, wp_ret. by rewrite Z.max_r by lia.
Qed.

Lemma wp_free_node l (Q : () -> ee -> Prop) X s :
  is_Some (heap s !! l) -> Q tt (s <| heap ::= delete l |>) -> wp (free_node l) Q X s.
Proof. intros [n E] H. apply wp_bind. by eapply wp_node. Qed.

End EeBlock.
