(* ===== verification/EeLink.v ===== *)
(** * ee(1): linking a line in and out

    Two neighbouring nodes of the list, the state between a document before and
    after a line is added or joined. *)

From S2P Require Import Prelude Monad EeState EeEdit EeText EeRep EeMove EeBlock.
From stdpp Require Import base list gmap numbers.
From Stdlib Require Import ZArith Lia.

Open Scope Z_scope.

Module EeLink.

Import EeState EeEdit EeText EeRep EeMove EeBlock.
Local Open Scope ind_scope.

(** The nodes [l] and [nod], neighbours between the lines above and below. *)
Record gap (h : gmap nat text) (fr : nat) (ab be : list bytes) (up : list nat) (l nod : nat) (dn : list nat) (n m : text)
  : Prop := {
  gp_l : h !! l = Some n;
  gp_nod : h !! nod = Some m;
  gp_next : next_line n = Some nod;
  gp_prev : prev_line n = head up;
  gp_mprev : prev_line m = Some l;
  gp_mnext : next_line m = head dn;
  gp_up : upw h l up ab;
  gp_dn : dnw h nod dn be;
  gp_nodup : NoDup (l :: nod :: up ++ dn);
  gp_all : forall k, is_Some (h !! k) -> k ∈ l :: nod :: up ++ dn;
  gp_fresh : forall k, k ∈ l :: nod :: up ++ dn -> (k < fr)%nat
}.

Arguments gp_l {_ _ _ _ _ _ _ _ _ _} _.
Arguments gp_nod {_ _ _ _ _ _ _ _ _ _} _.

Lemma gap_notin h fr ab be up l nod dn n m : gap h fr ab be up l nod dn n m ->
  l <> nod /\ l ∉ up /\ l ∉ dn /\ nod ∉ up /\ nod ∉ dn.
Proof.
  intros G. pose proof (gp_nodup _ _ _ _ _ _ _ _ _ _ G) as H. pose proof (NoDup_cons_1_1 _ _ H) as H1.
  pose proof (NoDup_cons_1_1 _ _ (NoDup_cons_1_2 _ _ H)) as H2.
  rewrite not_elem_of_cons, not_elem_of_app in H1. rewrite not_elem_of_app in H2. naive_solver.
Qed.

(** The text of either node may change. *)
Lemma gap_set_l h fr ab be up l nod dn n m n' :
  gap h fr ab be up l nod dn n m -> prev_line n' = prev_line n -> next_line n' = next_line n ->
  gap (<[l := n']> h) fr ab be up l nod dn n' m.
Proof.
  intros G Hp Hn. destruct (gap_notin _ _ _ _ _ _ _ _ _ _ G) as (N1 & N2 & N3 & N4 & N5). destruct G.
  split; try congruence; try done.
  - apply lookup_insert_eq.
  - by rewrite lookup_insert_ne.
  - by apply upw_frame.
  - by apply dnw_frame.
  - intros k Hk. destruct (decide (k = l)) as [->|?]; [left|]. rewrite lookup_insert_ne in Hk by done. auto.
Qed.

Lemma gap_set_nod h fr ab be up l nod dn n m m' :
  gap h fr ab be up l nod dn n m -> prev_line m' = prev_line m -> next_line m' = next_line m ->
  gap (<[nod := m']> h) fr ab be up l nod dn n m'.
Proof.
  intros G Hp Hn. destruct (gap_notin _ _ _ _ _ _ _ _ _ _ G) as (N1 & N2 & N3 & N4 & N5). destruct G.
  split; try congruence; try done.
  - by rewrite lookup_insert_ne.
  - apply lookup_insert_eq.
  - by apply upw_frame.
  - by apply dnw_frame.
  - intros k Hk. destruct (decide (k = nod)) as [->|?]; [right; left|]. rewrite lookup_insert_ne in Hk by done. auto.
Qed.

(** Either node may be the current one. *)
Lemma gap_lower h fr ab be up l nod dn n m t1 t2 c :
  gap h fr ab be up l nod dn n m -> node_ok n t1 -> node_ok m t2 ->
  placed h fr (Doc (t1 :: ab) t2 c be) (l :: up) nod dn m.
Proof.
  intros [] H1 H2. assert (Hp : nod :: (l :: up) ++ dn ≡ₚ l :: nod :: up ++ dn) by (cbn; solve_Permutation).
  split; cbn [above this below]; try done.
  - cbn. by exists n.
  - by rewrite Hp.
  - intros k Hk. rewrite Hp. auto.
  - intros k Hk. apply gp_fresh0. by rewrite <- Hp.
Qed.

Lemma gap_upper h fr ab be up l nod dn n m t1 t2 c :
  gap h fr ab be up l nod dn n m -> node_ok n t1 -> node_ok m t2 ->
  placed h fr (Doc ab t1 c (t2 :: be)) up l (nod :: dn) n.
Proof.
  intros [] H1 H2. assert (Hp : l :: up ++ nod :: dn ≡ₚ l :: nod :: up ++ dn) by solve_Permutation.
  split; cbn [above this below]; try done.
  - cbn. by exists m.
  - by rewrite Hp.
  - intros k Hk. rewrite Hp. auto.
  - intros k Hk. apply gp_fresh0. by rewrite <- Hp.
Qed.

Lemma upper_gap h fr ab be up l dn' n t1 t2 c :
  placed h fr (Doc ab t1 c (t2 :: be)) up l dn' n ->
  exists nod dn m, dn' = nod :: dn /\ gap h fr ab be up l nod dn n m /\ node_ok m t2.
Proof.
  intros [P1 P2 P3 P4 P5 P6 P7 P8 P9]. destruct dn' as [|nod dn]; [done|]. cbn in P6.
  destruct P6 as (m & E & Hok & Hp & Hn & Hd). exists nod, dn, m. split; [done|]. split; [|done].
  assert (Hq : l :: up ++ nod :: dn ≡ₚ l :: nod :: up ++ dn) by solve_Permutation.
  split; try done.
  - by rewrite <- Hq.
  - intros k Hk. rewrite <- Hq. auto.
  - intros k Hk. apply P9. by rewrite Hq.
Qed.

(** The first line below linked to another node above it. *)
Definition relinked (h : gmap nat text) (dn : list nat) (c : nat) : gmap nat text :=
  match dn with
  | [] => h
  | u :: _ => match h !! u with
              | Some n => <[u := n <| prev_line := Some c |>]> h
              | None => h
              end
  end.

Lemma dnw_relinked h c c' dn be : dnw h c dn be -> NoDup dn -> dnw (relinked h dn c') c' dn be.
Proof.
  destruct dn as [|u us], be as [|t ts]; cbn [dnw relinked]; try done. intros (n & E & Hok & Hp & Hn & Hd) Hu.
  rewrite E. exists (n <| prev_line := Some c' |>). split; [apply lookup_insert_eq|]. split_and!; try done.
  - destruct Hok. by split.
  - apply dnw_frame; [by apply NoDup_cons_1_1|done].
Qed.

Lemma relinked_lookup h dn c k : k ∉ dn -> relinked h dn c !! k = h !! k.
Proof.
  destruct dn as [|u us]; [done|]. intros H. cbn [relinked]. destruct (h !! u); [|done].
  apply lookup_insert_ne. intros ->. apply H. left.
Qed.

Lemma relinked_line h dn c k n : relinked h dn c !! k = Some n -> exists m, h !! k = Some m /\ line n = line m /\ line_length n = line_length m.
Proof.
  destruct dn as [|u us]; cbn [relinked]; [eauto|]. destruct (h !! u) as [m|] eqn:E; [|eauto].
  destruct (decide (u = k)) as [<-|Hne]; [rewrite lookup_insert_eq; intros [= <-]; eauto|]. rewrite lookup_insert_ne by done. eauto.
Qed.

Lemma relinked_dom h dn c k : is_Some (relinked h dn c !! k) -> is_Some (h !! k).
Proof.
  destruct dn as [|u us]; [done|]. cbn [relinked]. destruct (h !! u) eqn:E; [|done].
  destruct (decide (k = u)) as [->|?]; [by rewrite E|by rewrite lookup_insert_ne].
Qed.

Lemma upw_relinked h c ls ts dn c' : (forall k, k ∈ ls -> k ∉ dn) -> upw h c ls ts -> upw (relinked h dn c') c ls ts.
Proof.
  intros H. destruct dn as [|u us]; [done|]. cbn [relinked]. destruct (h !! u); [|done].
  apply upw_frame. intros Hu. apply (H u Hu). left.
Qed.

(** [p->next_line->prev_line = c] when there is a line below. *)
Lemma wp_relink s dn c be c' (Q : () -> ee -> Prop) :
  dnw (heap s) c dn be -> Q tt (s <| heap := relinked (heap s) dn c' |>) ->
  wp (match head dn with
      | Some x => upd x (fun t => t <| prev_line := Some c' |>)
      | None => ret tt
      end) Q noexit s.
Proof.
  intros Hd H. destruct dn as [|u us], be as [|t ts]; try done; cbn [head].
  - apply wp_ret. cbn [relinked] in H. by destruct s.
  - cbn in Hd. destruct Hd as (n & E & _). eapply wp_upd; [exact E|]. cbn [relinked] in H. rewrite E in H. exact H.
Qed.

(** ** A line linked in *)

Section Link.
Context (h : gmap nat text) (fr : nat) (d : doc) (up : list nat) (l : nat) (dn : list nat) (n : text).
Hypothesis (P : placed h fr d up l dn n).

Lemma placed_notin : l ∉ up /\ l ∉ dn /\ (forall k, k ∈ up -> k ∉ dn) /\ NoDup dn.
Proof.
  pose proof (pl_nodup _ _ _ _ _ _ _ P) as H. pose proof (NoDup_cons_1_1 _ _ H) as H1.
  apply NoDup_cons_1_2 in H. rewrite not_elem_of_app in H1. apply list.NoDup_app in H. naive_solver.
Qed.

Lemma fresh_notin : fr ∉ l :: up ++ dn /\ h !! fr = None.
Proof.
  assert (Hf : fr ∉ l :: up ++ dn) by (intros Hk; apply (pl_fresh _ _ _ _ _ _ _ P) in Hk; lia).
  split; [done|]. destruct (h !! fr) eqn:E; [|done]. destruct Hf. apply (pl_all _ _ _ _ _ _ _ P). by rewrite E.
Qed.

(** The heap has at least the lines of the list. *)
Lemma placed_count : (length (l :: up ++ dn) <= size h)%nat.
Proof.
  rewrite <- (size_list_to_set (C := gset nat) (l :: up ++ dn) (pl_nodup _ _ _ _ _ _ _ P)), <- size_dom.
  apply subseteq_size. intros k Hk. apply elem_of_list_to_set in Hk. apply elem_of_dom. apply elem_of_cons in Hk as [->|[Hk|Hk]%elem_of_app].
  - by rewrite (pl_cur _ _ _ _ _ _ _ P).
  - destruct (upw_lookup _ _ _ _ k (pl_up _ _ _ _ _ _ _ P) Hk) as (m & -> & _). done.
  - destruct (dnw_lookup _ _ _ _ k (pl_dn _ _ _ _ _ _ _ P) Hk) as (m & -> & _). done.
Qed.

(** The node [m] at the fresh address, linked after the current one. *)
Lemma link_gap m :
  prev_line m = Some l -> next_line m = head dn ->
  gap (<[l := n <| next_line := Some fr |>]> (relinked (<[fr := m]> h) dn fr)) (S fr) (above d) (below d) up l fr dn
    (n <| next_line := Some fr |>) m.
Proof.
  intros Hp Hn. destruct placed_notin as (N1 & N2 & N3 & N4). destruct fresh_notin as [F1 F2].
  rewrite not_elem_of_cons, not_elem_of_app in F1. destruct F1 as (F1 & F3 & F4). destruct P as [P1 P2 P3 P4 P5 P6 P7 P8 P9].
  split; try done.
  - apply lookup_insert_eq.
  - rewrite lookup_insert_ne, relinked_lookup by done. apply lookup_insert_eq.
  - apply upw_frame; [done|]. apply upw_relinked; [done|]. by apply upw_frame.
  - apply dnw_frame; [done|]. eapply dnw_relinked; [|done]. apply dnw_frame; [done|exact P6].
  - assert (Hq : l :: fr :: up ++ dn ≡ₚ fr :: l :: up ++ dn) by solve_Permutation. rewrite Hq.
    apply list.NoDup_cons. split; [|done]. rewrite not_elem_of_cons, not_elem_of_app. done.
  - intros k Hk. destruct (decide (k = l)) as [->|?]; [left|]. rewrite lookup_insert_ne in Hk by done.
    apply relinked_dom in Hk. destruct (decide (k = fr)) as [->|?]; [right; left|]. rewrite lookup_insert_ne in Hk by done.
    apply P8 in Hk. set_solver.
  - intros k Hk. destruct (decide (k = fr)) as [->|?]; [lia|]. assert (k < fr)%nat; [|lia]. apply P9. set_solver.
Qed.
End Link.

(** ** A line linked out *)

Lemma unlink_placed h fr ab be up l nod dn n m n' t c :
  gap h fr ab be up l nod dn n m -> node_ok n' t -> prev_line n' = prev_line n -> next_line n' = next_line m ->
  placed (base.delete nod (<[l := n']> (relinked h dn l))) fr (Doc ab t c be) up l dn n'.
Proof.
  intros G Hok Hp Hn. destruct (gap_notin _ _ _ _ _ _ _ _ _ _ G) as (N1 & N2 & N3 & N4 & N5). destruct G.
  pose proof (NoDup_cons_1_2 _ _ (NoDup_cons_1_2 _ _ gp_nodup0)) as Hnd. apply list.NoDup_app in Hnd as (_ & D1 & D2).
  split; cbn [above this below]; try congruence.
  - rewrite lookup_delete_ne by done. apply lookup_insert_eq.
  - apply upw_delete; [done|]. apply upw_frame; [done|]. by apply upw_relinked.
  - apply dnw_delete; [done|]. apply dnw_frame; [done|]. by eapply dnw_relinked.
  - apply list.NoDup_cons. apply NoDup_cons_1_2, NoDup_cons_1_2 in gp_nodup0. rewrite not_elem_of_app. done.
  - intros k Hk. destruct (decide (k = nod)) as [->|?]; [rewrite lookup_delete_eq in Hk; by destruct Hk|].
    rewrite lookup_delete_ne in Hk by done. destruct (decide (k = l)) as [->|?]; [left|].
    rewrite lookup_insert_ne in Hk by done. apply relinked_dom, gp_all0 in Hk. set_solver.
  - intros k Hk. apply gp_fresh0. set_solver.
Qed.

End EeLink.
