(* ===== verification/EeInsert.v ===== *)
(** * ee(1): inserting characters and lines

    A character typed goes before the cursor, a newline splits the line at it. *)

From S2P Require Import Prelude Monad EeState EeEdit EeText EeRep EeMove EeBlock EeLink.
From stdpp Require Import base list gmap numbers.
From Stdlib Require Import ZArith Lia.

Open Scope Z_scope.

Module EeInsert.

Import EeState EeEdit EeText EeRep EeMove EeBlock EeLink.
Local Open Scope ind_scope.

Definition d_insert (c : Z) (d : doc) : doc :=
  Doc (above d) (take (col d) (this d) ++ c :: drop (col d) (this d)) (S (col d)) (below d).

Definition d_newline (d : doc) : doc :=
  Doc (take (col d) (this d) :: above d) (drop (col d) (this d)) 0 (below d).

(** ** The current line changed *)

Definition with_this (d : doc) (t : bytes) : doc := Doc (above d) t (col d) (below d).

(** The current node replaced, nothing else but the screen. *)
Definition renewed (s s' : ee) (n : text) : Prop :=
  heap s' = <[curr_line s := n]> (heap s) /\ snd (view s') = snd (view s) /\ quiet s s'.

Lemma placed_set h fr d up l dn n n' t' :
  placed h fr d up l dn n -> node_ok n' t' -> prev_line n' = prev_line n -> next_line n' = next_line n ->
  placed (<[l := n']> h) fr (with_this d t') up l dn n'.
Proof.
  intros [P1 P2 P3 P4 P5 P6 P7 P8 P9] Hn Hp Hx.
  pose proof (NoDup_cons_1_1 _ _ P7) as Hl. rewrite not_elem_of_app in Hl. destruct Hl as [Hu Hd].
  split; cbn [with_this above this below]; try congruence.
  - apply lookup_insert_eq.
  - by apply upw_frame.
  - by apply dnw_frame.
  - intros k Hk. destruct (decide (k = l)) as [->|Hne]; [left|]. rewrite lookup_insert_ne in Hk by done. by apply P8.
  - done.
Qed.

Lemma Rep_renewed s s' d n n' t' :
  Rep s d -> heap s !! curr_line s = Some n -> renewed s s' n' -> node_ok n' t' ->
  prev_line n' = prev_line n -> next_line n' = next_line n -> (col d <= length t')%nat -> Rep s' (with_this d t').
Proof.
  intros [(up & dn & m & P & Hf) R2 R3 R4 R5 R6 R7] E (Hh & Hv & _) Hok Hp Hn Hc.
  assert (m = n) as -> by (apply pl_cur in P; congruence).
  injection Hv as V1 V2 V3 V4 V5 V6 V7 V8 V9. unfold window_ok in R6.
  split; unfold window_ok; rewrite ?V1, ?V2, ?V3, ?V4, ?V5, ?V6, ?V7, ?V8, ?V9; try done.
  exists up, dn, n'. rewrite Hh. split; [by eapply placed_set|done].
Qed.

(** ** insert *)

Section Insert.
Context (junk : Z).

(** The block of the current line made longer if need be. *)
Lemma wp_make_room (b : bool) factor s d n (Q : () -> ee -> Prop) :
  Rep s d -> heap s !! curr_line s = Some n -> 0 <= factor ->
  (forall s' n', renewed s s' n' -> node_ok n' (this d) -> prev_line n' = prev_line n -> next_line n' = next_line n ->
     max_length n' = max_length n + (if b then factor else 0) -> (ended n -> ended n') -> Q tt s') ->
  wp (if b then let! p := resiz_line junk factor (curr_line s) (position s) in sets point p else ret tt) Q noexit s.
Proof.
  intros R E Hf H. destruct (Rep_cur s d R) as (n0 & E0 & Hn & _). assert (n0 = n) as -> by congruence.
  destruct (nk_split _ _ Hn) as (r & El & Hr & Hm & Hll). pose proof (rp_pos _ _ R). pose proof (rp_point _ _ R).
  destruct b.
  - apply wp_bind. eapply wp_resiz_line; [done|lia|lia|]. ee_steps.
    destruct (realloc_app junk (line n) (max_length n + factor)) as (r2 & -> & Hr2); [rewrite El, length_app; lia|].
    eapply H.
    + split; [done|]. split; [|same_refl]. unfold view. cbn [snd]. fld. do 5 f_equal. lia.
    + eapply (nk_make _ _ (r ++ r2)); fld; [rewrite El; by rewrite app_assoc|rewrite length_app; lia| |done].
      rewrite El, !length_app in *. lia.
    + done.
    + done.
    + done.
    + rewrite (ended_tail n (this d) r El Hll). rewrite (ended_tail _ (this d) (r ++ r2)); fld; [by destruct r|rewrite El; by rewrite app_assoc|done].
  - ee_steps. apply (H _ n); [|done|done|done|lia|done]. split; [by rewrite insert_id|]. split; [done|reflexivity].
Qed.

(** The rest of the line moved up and the character stored. *)
Lemma shift_store t c r ch :
  (c <= length t)%nat -> (3 <= length r)%nat ->
  exists b r', shift_up (length t - c + 2) (Z.of_nat (length t + 2)) (t ++ r) = Some b /\
    aset b (Z.of_nat c) ch = Some (take c t ++ ch :: drop c t ++ r') /\ S (length r') = length r /\ head r' = head r.
Proof.
  intros Hc Hr. destruct r as [|x1 [|x2 [|y w]]]; cbn in Hr; try lia.
  destruct (shift_up_spec (drop c t ++ [x1; x2]) (take c t) y w (Z.of_nat (length t + 2))) as [y' E].
  { rewrite length_app, length_take, length_drop. cbn. lia. }
  exists (take c t ++ y' :: (drop c t ++ [x1; x2]) ++ w), (x1 :: x2 :: w). split.
  - rewrite <- E. f_equal; [rewrite length_app, length_drop; cbn; lia|].
    rewrite <- (take_drop c t) at 1. by rewrite <- !app_assoc.
  - split; [|by split]. rewrite aset_app by (rewrite length_take; lia). by rewrite <- !app_assoc.
Qed.

Lemma wp_store_char s d ch (Q : () -> ee -> Prop) :
  Rep s d ->
  (forall s', Rep s' (with_this d (take (col d) (this d) ++ u8 ch :: drop (col d) (this d))) -> quiet s s' -> ends_kept s s' -> Q tt s') ->
  wp (store_char junk ch) Q noexit s.
Proof.
  intros R H. destruct (Rep_cur s d R) as (n & E & Hn & _). unfold store_char. ee_steps.
  eapply wp_node; [exact E|]. apply wp_bind. eapply wp_make_room; [exact R|exact E|lia|].
  intros s1 n1 (Hh & Hv & Hq) Hn1 Hp1 Hx1 Hmx Hend. ee_steps.
  assert (E1 : heap s1 !! curr_line s = Some n1) by (rewrite Hh; apply lookup_insert_eq).
  eapply wp_upd; [exact E1|]. ee_steps. fld.
  eapply wp_node; [apply lookup_insert_eq|]. cbv zeta. ee_steps.
  destruct (nk_split _ _ Hn1) as (r & El & Hr & Hm & Hll). pose proof (rp_col _ _ R) as Hc.
  assert (Hroom : line_length n1 + 5 <= max_length n1).
  { rewrite Hmx, Hll, <- (nk_length _ _ Hn). destruct (Z.ltb_spec (max_length n - line_length n) 5); pose proof (nk_room _ _ Hn); lia. }
  assert (Hpt : point s1 = Z.of_nat (col d)) by (injection Hv as ??????; rewrite <- (rp_point _ _ R); congruence).
  destruct (shift_store (this d) (col d) r (u8 ch)) as (b & r' & Hs & Ha & Hr' & Hhd); [done|lia|].
  fld. rewrite Hpt, (rp_pos _ _ R), Hll.
  replace (Z.to_nat _) with (length (this d) - col d + 2)%nat by lia.
  replace (_ + _ + 1) with (Z.of_nat (length (this d) + 2)) by lia.
  eapply wp_edit_line; [apply lookup_insert_eq|fld; rewrite El; exact Hs|]. fld.
  eapply wp_poke; [apply lookup_insert_eq|fld; exact Ha|]. fld.
  apply H; [|etransitivity; [exact Hq|same_refl]|].
  2: { eapply (ends_set _ _ (curr_line s)); [fld; rewrite Hh, !insert_insert_eq; reflexivity|]. intros Ht. specialize (Hend (Ht _ _ E)).
       rewrite (ended_tail n1 (this d) r El Hll) in Hend. rewrite <- Hhd in Hend.
       eapply (ended_tail _ (take (col d) (this d) ++ u8 ch :: drop (col d) (this d)) r'); fld; [by rewrite <- app_assoc| |exact Hend].
       rewrite length_app; cbn; rewrite length_take, length_drop; lia. }
  eapply (Rep_renewed s _ d n); [exact R|exact E|split; [|split; [exact Hv|etransitivity; [exact Hq|same_refl]]]|..].
  - fld. rewrite Hh. by rewrite !insert_insert_eq.
  - eapply (nk_make _ _ r'); fld; [by rewrite <- app_assoc|lia|..]; rewrite length_app; cbn; rewrite length_take, length_drop; lia.
  - done.
  - done.
  - rewrite length_app, length_take. cbn. rewrite length_drop. lia.
Qed.

Lemma print_base_3 c : 128 <= c < 256 -> length (print_base 10 c) = 3%nat.
Proof.
  intros Hc. assert (H : forallb (fun k => (length (print_base 10 k) =? 3)%nat) (seqZ 128 128) = true) by (vm_compute; reflexivity).
  rewrite forallb_forall in H. apply Nat.eqb_eq, H, list_elem_of_In, elem_of_seqZ. lia.
Qed.

(** A byte shown as it is measured: the buffer of out_char holds <255>. *)
Lemma out_char_byte eb c t : 0 <= c < 256 -> out_char eb c t = Some (len_char eb c t).
Proof.
  intros Hc. unfold out_char, len_char, TAB.
  destruct (Z.eqb_spec c 9); [done|]. destruct (Z.ltb_spec c 32).
  { rewrite (proj2 (Z.leb_le 0 c)) by lia. done. }
  rewrite (proj2 (Z.leb_le 0 c)), (proj2 (Z.ltb_ge c 0)), (proj2 (Z.leb_le 32 c)) by lia. cbn [andb orb].
  destruct (Z.leb_spec 127 c).
  - rewrite (proj2 (Z.leb_gt c 126)) by lia. destruct (Z.eqb_spec c 127); [done|].
    rewrite (proj2 (Z.ltb_lt 126 c)) by lia. destruct eb; [done|]. cbn [negb andb]. cbv zeta iota.
    rewrite (proj2 (Z.ltb_ge c 0)), print_base_3 by lia. done.
  - rewrite (proj2 (Z.leb_le c 126)) by lia. done.
Qed.

(** A command that changes the text and says so. *)
Definition edits (m : E ()) (s : ee) (d' : doc) : Prop :=
  wp m (fun _ s' => Rep s' d' /\ quiet (s <| text_changes := true |>) s') noexit s.

Lemma wp_redraw_line s d (Q : () -> ee -> Prop) : Rep s d -> (forall s', same s s' -> Q tt s') -> wp redraw_line Q noexit s.
Proof.
  intros R H. destruct (Rep_cur s d R) as (n & E & _). unfold redraw_line. ee_steps. eapply wp_cur; [exact E|].
  eapply wp_mono; [by eapply wp_draw_line|]. intros [] s' [Hs _]. by apply H.
Qed.

(** ** insert_line *)

Lemma wp_link_new s d up dn n number len max block (Q : nat -> ee -> Prop) :
  placed (heap s) (fresh_loc s) d up (curr_line s) dn n ->
  Q (fresh_loc s) (s <| fresh_loc := S (fresh_loc s) |>
    <| heap := <[curr_line s := n <| next_line := Some (fresh_loc s) |>]>
        (relinked (<[fresh_loc s := Text block number len max (next_line n) (Some (curr_line s))]> (heap s)) dn (fresh_loc s)) |>) ->
  wp (link_new number len max block) Q noexit s.
Proof.
  intros P H. destruct (fresh_notin _ _ _ _ _ _ _ P) as [F1 F2]. destruct (placed_notin _ _ _ _ _ _ _ P) as (N1 & N2 & N3 & N4).
  rewrite not_elem_of_cons, not_elem_of_app in F1. destruct F1 as (F1 & F3 & F4).
  unfold link_new, txtalloc. ee_steps. eapply wp_node; [fld; rewrite lookup_insert_ne by done; apply (pl_cur _ _ _ _ _ _ _ P)|].
  apply wp_bind, wp_set_node. ee_steps. rewrite (pl_next _ _ _ _ _ _ _ P).
  assert (Hd : dnw (<[fresh_loc s := Text block number len max (head dn) (Some (curr_line s))]> (heap s)) (curr_line s) dn (below d))
    by (apply dnw_frame; [done|apply (pl_dn _ _ _ _ _ _ _ P)]).
  eapply wp_relink; [fld; rewrite insert_insert_eq; exact Hd|]. ee_steps.
  eapply wp_upd; [fld; rewrite insert_insert_eq, relinked_lookup, lookup_insert_ne by done; apply (pl_cur _ _ _ _ _ _ _ P)|].
  ee_steps. rewrite (pl_next _ _ _ _ _ _ _ P) in H. fld. rewrite insert_insert_eq. exact H.
Qed.

(** One byte of a line copied to the end of another. *)
Lemma wp_move_byte l nod c a x z s m t (k : Z -> E Z) (Q : Z -> ee -> Prop) :
  l <> nod -> heap s !! l = Some c -> line c = a ++ x :: z -> heap s !! nod = Some m -> node_ok m t ->
  (forall m', node_ok m' (t ++ [x]) -> prev_line m' = prev_line m -> next_line m' = next_line m ->
     wp (k (Z.of_nat (length t))) Q noexit (s <| heap := <[nod := m']> (heap s) |>)) ->
  wp (let! extra := (if max_length m - line_length m <? 5 then resiz_line junk 10 nod (1 + Z.of_nat (length t))
                     else ret (Z.of_nat (length t))) in
      upd nod (fun t => t <| line_length := line_length t + 1 |>) ;;
      let! c := peek_at l (Z.of_nat (length a)) in poke nod extra c ;; k extra) Q noexit s.
Proof.
  intros Hne El Ec Em Hm H. destruct (nk_split _ _ Hm) as (r & Er & Hr & Hmax & Hll).
  assert (Hgo : forall m1 r1, line m1 = t ++ r1 -> (2 <= length r1)%nat -> max_length m1 = Z.of_nat (length t + length r1) ->
    line_length m1 = line_length m -> prev_line m1 = prev_line m -> next_line m1 = next_line m ->
    wp (upd nod (fun t => t <| line_length := line_length t + 1 |>) ;;
        let! c := peek_at l (Z.of_nat (length a)) in poke nod (Z.of_nat (length t)) c ;; k (Z.of_nat (length t))) Q noexit
      (s <| heap := <[nod := m1]> (heap s) |>)).
  { intros m1 r1 E1 Hr1 Hm1 Hl1 Hp1 Hn1. apply wp_bind. eapply wp_upd; [apply lookup_insert_eq|]. apply wp_bind. fld.
    destruct r1 as [|y r1]; [cbn in Hr1; lia|].
    eapply wp_peek_at; [fld; rewrite insert_insert_eq, lookup_insert_ne by done; exact El|rewrite Ec; by apply aget_app|]. apply wp_bind.
    eapply wp_poke; [fld; rewrite insert_insert_eq; apply lookup_insert_eq|fld; rewrite E1; by apply aset_app|].
    set (m2 := m1 <| line_length := line_length m1 + 1 |> <| line := t ++ x :: r1 |>).
    specialize (H m2). rewrite <- (insert_insert_eq (heap s) nod _ m1) in H.
    rewrite <- (insert_insert_eq (<[nod := m1]> (heap s)) nod _ (m1 <| line_length := line_length m1 + 1 |>)) in H.
    apply H; [|done|done].
    eapply (nk_make _ _ r1); unfold m2; fld; [by rewrite <- app_assoc|cbn in Hr1; lia|..]; rewrite length_app; cbn in *; lia. }
  apply wp_bind. case_if; bsimp.
  - eapply wp_resiz_line; [exact Em|lia|lia|]. replace (1 + Z.of_nat (length t) - 1) with (Z.of_nat (length t)) by lia.
    destruct (realloc_app junk (line m) (max_length m + 10)) as (r2 & -> & Hr2); [rewrite Er, length_app; lia|].
    apply (Hgo _ (r ++ r2)); fld; try done; [rewrite Er; by rewrite app_assoc|..]; rewrite ?length_app; rewrite Er, length_app in Hr2; lia.
  - apply wp_ret. specialize (Hgo m r Er). rewrite insert_id in Hgo by done. destruct s. apply Hgo; try done. lia.
Qed.

Lemma set_heap_twice s h1 h2 : s <| heap := h1 |> <| heap := h2 |> = s <| heap := h2 |>.
Proof. reflexivity. Qed.

(** The rest of a line copied to the end of another, byte by byte. *)
Lemma wp_move_tail l nod c a xs z s m t temp extra temp_pos (Q : Z -> ee -> Prop) :
  l <> nod -> heap s !! l = Some c -> line c = a ++ xs ++ z -> temp = Z.of_nat (length a) ->
  heap s !! nod = Some m -> node_ok m t -> extra = Z.of_nat (length t) -> temp_pos = 1 + Z.of_nat (length t) ->
  (forall m', node_ok m' (t ++ xs) -> prev_line m' = prev_line m -> next_line m' = next_line m ->
     Q (Z.of_nat (length (t ++ xs))) (s <| heap := <[nod := m']> (heap s) |>)) ->
  wp (move_tail junk (length xs) l nod temp extra temp_pos) Q noexit s.
Proof.
  revert a s m t temp extra temp_pos. induction xs as [|x xs IH]; intros a s m t temp extra temp_pos Hne El Ec -> Em Hm -> -> H;
    cbn [length move_tail].
  { apply wp_ret. rewrite app_nil_r in H. specialize (H m Hm eq_refl eq_refl). rewrite insert_id in H by done. by destruct s. }
  apply wp_bind. eapply wp_node; [exact Em|]. eapply (wp_move_byte l nod c a x (xs ++ z) s m t); try done.
  intros m2 Hm2 Hp2 Hn2. apply (IH (a ++ [x]) _ m2 (t ++ [x])); try done; try (rewrite length_app; cbn; lia).
  - fld. by rewrite lookup_insert_ne.
  - by rewrite <- app_assoc.
  - apply lookup_insert_eq.
  - intros m' Hm' Hp' Hn'. rewrite <- app_assoc in *. rewrite set_heap_twice. fld. rewrite insert_insert_eq.
    apply H; [done|congruence|congruence].
Qed.

(** What is right of the cursor moved to the new node. *)
Lemma wp_split_rest s fr ab be up l nod dn n n0 m t1 t2 (Q : Z -> ee -> Prop) :
  gap (heap s) fr ab be up l nod dn n m -> node_ok n (t1 ++ t2) -> node_ok m [] -> line_length n0 = line_length n ->
  position s = 1 + Z.of_nat (length t1) -> point s = Z.of_nat (length t1) ->
  (forall h1 n1 m1, gap h1 fr ab be up l nod dn n1 m1 -> node_ok (n1 <| line_length := position s |>) t1 ->
     node_ok m1 t2 -> (forall k, k <> l -> k <> nod -> h1 !! k = heap s !! k) -> (ended n -> ended (n1 <| line_length := position s |>)) ->
     Q (Z.of_nat (length t2)) (s <| heap := h1 |>)) ->
  wp (if position s <? line_length n0 then
        let! extra := move_tail junk (Z.to_nat (line_length n0 - position s)) l nod (point s) 0 1 in
        poke l (point s) 0 ;;
        let! t := node nod in
        let! temp := resiz_line junk (1 - line_length t) l (position s) in
        upd l (fun t => t <| line_length := 1 + temp |>) ;;
        ret extra
      else ret 0) Q noexit s.
Proof.
  intros G Hn Hm Hl0 Hpos Hpt H. destruct (nk_split _ _ Hn) as (r & Er & Hr & Hmax & Hll). rewrite Hl0, Hll, Hpos.
  rewrite length_app in *. rewrite <- app_assoc in Er. case_if; bsimp.
  - replace (Z.to_nat _) with (length t2) by lia. apply wp_bind. destruct (gap_notin _ _ _ _ _ _ _ _ _ _ G) as (Hne & _).
    eapply (wp_move_tail l nod n t1 t2 r s m []); try done; [fld; exact (gp_l G)|exact (gp_nod G)|].
    intros m1 Hm1 Hp1 Hn1. cbn [app] in *. pose proof (gap_set_nod _ _ _ _ _ _ _ _ _ _ m1 G Hp1 Hn1) as G1.
    destruct t2 as [|x xs]; [cbn in *; lia|].
    apply wp_bind. eapply (wp_poke _ _ _ n (t1 ++ 0 :: xs ++ r)); [fld; exact (gp_l G1)|rewrite Er; by apply aset_app|].
    set (n1 := n <| line := t1 ++ 0 :: xs ++ r |>).
    pose proof (gap_set_l _ _ _ _ _ _ _ _ _ _ n1 G1 eq_refl eq_refl) as G2.
    apply wp_bind. eapply wp_node; [fld; exact (gp_nod G2)|]. pose proof (nk_length _ _ Hm1) as Hl1. rewrite Hl1.
    apply wp_bind. eapply wp_resiz_line; [fld; exact (gp_l G2)|fld; cbn in *; lia|lia|]. fld.
    set (k := max_length n + (1 - (1 + Z.of_nat (length (x :: xs))))).
    set (n2 := n1 <| max_length := k |> <| line := realloc junk (t1 ++ 0 :: xs ++ r) k |>).
    pose proof (gap_set_l _ _ _ _ _ _ _ _ _ _ n2 G2 eq_refl eq_refl) as G3.
    apply wp_bind. eapply wp_upd; [fld; exact (gp_l G3)|]. apply wp_ret.
    set (n3 := n2 <| line_length := 1 + (1 + Z.of_nat (length t1) - 1) |>).
    pose proof (gap_set_l _ _ _ _ _ _ _ _ _ _ n3 G3 eq_refl eq_refl) as G4.
    assert (Ereal : exists r', realloc junk (t1 ++ 0 :: xs ++ r) k = t1 ++ r' /\ head r' = Some 0 /\ length r' = length r).
    { unfold realloc. rewrite take_app_ge by (unfold k; cbn in *; lia). eexists. rewrite <- app_assoc. split; [done|]. split.
      { destruct (Z.to_nat k - length t1)%nat eqn:Ek; [unfold k in Ek; cbn in *; lia|done]. }
      rewrite length_app, length_take, length_replicate, !length_app. unfold k. cbn. rewrite length_app. cbn in *. lia. }
    destruct Ereal as (r' & Ereal & Hhd & Hr'). apply (H _ _ _ G4); [|done|..].
    + apply (nk_make _ _ r'); [exact Ereal|lia|unfold n2, k; fld; cbn in *; lia|exact Hpos].
    + intros j Hj1 Hj2. by rewrite !lookup_insert_ne by done.
    + intros _. apply (ended_tail _ t1 r'); [exact Ereal|exact Hpos|exact Hhd].
  - destruct t2 as [|]; [|cbn in *; lia]. apply wp_ret. specialize (H (heap s) n m G). destruct s. apply H; [|done|done|].
    + apply (nk_make _ _ r); [exact Er|done|fld; cbn in *; lia|exact Hpos].
    + intros He. rewrite (ended_tail n t1 r) in He; [|exact Er|cbn in *; lia]. by apply (ended_tail _ t1 r).
Qed.

Lemma nk_malloc number p q : node_ok (Text (malloc junk 10) number 1 10 p q) [].
Proof. apply (nk_make _ _ (malloc junk 10)); unfold malloc; rewrite ?length_replicate; cbn [length max_length line_length]; [done|lia|lia|done]. Qed.

Lemma nk_next n t p : node_ok n t -> node_ok (n <| next_line := p |>) t.
Proof. intros []. by split. Qed.

(** The screen after a line is added. *)
Lemma wp_show_line s d (Q : () -> ee -> Prop) :
  Rep s d -> (forall s', same s s' -> Q tt s') ->
  wp (let! s := get in
      (if scr_vert s <? last_line s then sets scr_vert (scr_vert s + 1) else ret tt) ;;
      sets scr_horz 0 ;; sets scr_pos 0 ;; reset_offset ;;
      let! n := cur in
      let! s := get in
      draw_line (curr_line s) (scr_horz s) (point s) (position s) (line_length n)) Q noexit s.
Proof.
  intros R H. ee_steps. assert (Hv : wp (if scr_vert s <? last_line s then sets scr_vert (scr_vert s + 1) else ret tt)
    (fun _ s' => same s s') noexit s) by (case_if; same_refl).
  eapply wp_mono; [exact Hv|]. intros [] s1 Hs1. ee_steps. name_state s2.
  assert (Hs2 : same s s2) by (transitivity s1; [done|same_refl]). clearbody s2.
  eapply wp_reset_offset; [by eapply Rep_same|]. intros s3 Hs3. assert (Hs : same s s3) by (by transitivity s2).
  destruct (Rep_cur s3 d) as (n & E & _); [by eapply Rep_same|]. ee_steps. eapply wp_cur; [exact E|]. ee_steps.
  eapply wp_mono; [by eapply wp_draw_line|]. intros [] s4 [Hs4 _]. apply H. by transitivity s3.
Qed.

(** The newline itself, the screen apart; lines stay terminated. *)
Lemma insert_line_all s d disp : Rep s d ->
  wp (insert_line junk disp) (fun _ s' => (Rep s' (d_newline d) /\ quiet (s <| text_changes := true |>) s') /\ ends_kept s s') noexit s.
Proof.
  intros R. destruct d as [ab t c be]. pose proof R as [(up & dn & n & P & Hf) R2 R3 R4 R5 R6 R7]. cbn [col this above] in *.
  pose proof (pl_ok _ _ _ _ _ _ _ P) as Hn. rewrite <- (take_drop c t) in Hn. cbn [this] in Hn.
  unfold insert_line, d_newline. cbn [above this col below]. ee_steps.
  eapply wp_node; [exact (pl_cur _ _ _ _ _ _ _ P)|]. apply wp_bind. eapply wp_link_new; [exact P|].
  set (m := Text (malloc junk 10) (line_number n + 1) 1 10 (next_line n) (Some (curr_line s))).
  pose proof (link_gap _ _ _ _ _ _ _ P m eq_refl (pl_next _ _ _ _ _ _ _ P)) as G. cbn [above below] in G. ee_steps.
  eapply (wp_split_rest _ _ _ _ _ _ _ _ _ _ _ (take c t) (drop c t)); fld; [exact G|by apply nk_next|apply nk_malloc|done|..].
  { rewrite length_take. lia. }
  { rewrite length_take. lia. }
  intros h1 n1 m1 G1 Hn1 Hm1 Hrest Hend. fld_in Hrest. ee_steps. fld. eapply wp_upd; [fld; exact (gp_l G1)|]. ee_steps.
  set (n2 := n1 <| line_length := position s |>). pose proof (gap_set_l _ _ _ _ _ _ _ _ _ _ n2 G1 eq_refl eq_refl) as G2.
  destruct (nk_split _ _ Hm1) as (r & Er & Hr & Hmax & Hll). destruct r as [|y r]; [cbn in Hr; lia|].
  eapply (wp_poke _ _ _ m1 (drop c t ++ 0 :: r)); [fld; exact (gp_nod G2)|rewrite Er; by apply aset_app|]. ee_steps.
  set (m2 := m1 <| line := drop c t ++ 0 :: r |>). pose proof (gap_set_nod _ _ _ _ _ _ _ _ _ _ m2 G2 eq_refl eq_refl) as G3.
  name_state s2. assert (R' : Rep s2 (Doc (take c t :: ab) (drop c t) 0 be)).
  { split; try done; unfold s2; fld; cbn [above this col below length] in *; [|lia|lia].
    exists (curr_line s :: up), dn, m2. rewrite head_reverse_cons. split; [|exact Hf].
    eapply gap_lower; [exact G3|done|]. eapply (nk_make _ _ (0 :: r)); try done. }
  assert (He : ends_kept s s2).
  { intros Ht k nk. unfold s2. fld. destruct (decide (k = fresh_loc s)) as [->|K1].
    { rewrite lookup_insert_eq. intros [= <-]. by apply (ended_tail m2 (drop c t) (0 :: r)). }
    rewrite lookup_insert_ne by done. destruct (decide (k = curr_line s)) as [->|K2].
    { rewrite lookup_insert_eq. intros [= <-]. apply Hend. exact (Ht _ _ (pl_cur _ _ _ _ _ _ _ P)). }
    rewrite lookup_insert_ne, Hrest, lookup_insert_ne by done. intros Hk.
    apply relinked_line in Hk as (mk & Hk & E1 & E2). rewrite lookup_insert_ne in Hk by done. unfold ended. rewrite E1, E2. exact (Ht _ _ Hk). }
  assert (Hq : quiet (s <| text_changes := true |>) s2) by same_refl. clearbody s2.
  destruct disp; [|by apply wp_ret].
  eapply wp_show_line; [exact R'|]. intros s3 Hs3. split; [split; [by eapply Rep_same|]; etransitivity; [exact Hq|by apply same_quiet]|].
  etransitivity; [exact He|by apply ends_same].
Qed.

Lemma insert_line_edits s d disp : Rep s d -> edits (insert_line junk disp) s (d_newline d).
Proof. intros R. eapply wp_mono; [exact (insert_line_all s d disp R)|]. by intros [] s' [H _]. Qed.

End Insert.

End EeInsert.
