(* ===== verification/EeWrap.v ===== *)
(** * ee(1): the right margin

    A character typed beyond the right margin takes the word it ends to a new line:
    prev_word goes back to the start of a word that fits, and the line is broken there.
    What insert does to the document, with and without margins. *)

From S2P Require Import Prelude Monad EeState EeEdit EeText EeRep EeMove EeBlock EeLink EeInsert.
From stdpp Require Import base list gmap numbers.
From Stdlib Require Import ZArith Lia.

Open Scope Z_scope.

Module EeWrap.

Import EeState EeEdit EeText EeRep EeMove EeBlock EeLink EeInsert.
Local Open Scope ind_scope.

(** ** The byte at the cursor *)

Lemma Rep_byte s d n ch : Rep s d -> heap s !! curr_line s = Some n -> this d !! col d = Some ch -> aget (line n) (point s + 0) = Some ch.
Proof.
  intros R E Hc. destruct (Rep_cur s d R) as (n' & E' & Hn & _). assert (n' = n) as -> by congruence.
  destruct (nk_split _ _ Hn) as (r & Er & _). rewrite Er, Z.add_0_r, (rp_point _ _ R). by apply aget_app_l.
Qed.

(** The byte [*point]; at the end of the line, the one after the text. *)
Definition here (s : ee) (b : Z) : Prop := exists n, heap s !! curr_line s = Some n /\ aget (line n) (point s + 0) = Some b.

Lemma here_text s d b ch : Rep s d -> here s b -> this d !! col d = Some ch -> b = ch.
Proof. intros R (n & E & Hb) Hc. rewrite (Rep_byte s d n ch R E Hc) in Hb. congruence. Qed.

Lemma here_eq s b b' : here s b -> here s b' -> b = b'.
Proof. intros (n & E & H) (n' & E' & H'). congruence. Qed.

Lemma at_col_col d c c' : at_col (at_col d c) c' = at_col d c'.
Proof. done. Qed.

(** There is one, and reading it gives it. *)
Lemma wp_here s d (Q : Z -> ee -> Prop) : Rep s d -> (forall b, here s b -> Q b s) -> wp (peek 0) Q noexit s.
Proof.
  intros R H. destruct (Rep_cur s d R) as (n & E & Hn & _). destruct (nk_split _ _ Hn) as (r & Er & Hr & _).
  destruct (aget_in (line n) (point s + 0)) as [b Hb].
  { rewrite (rp_point _ _ R), Er, length_app. pose proof (rp_col _ _ R). lia. }
  eapply wp_peek_cur; [exact E|exact Hb|]. apply H. by exists n.
Qed.

(** ** Back by words *)

(** Where a walk to the left from [s], at [d], is: still there, or further left with the
    column up to date. *)
Definition gone_left (s : ee) (d : doc) (s' : ee) (c : nat) : Prop :=
  Rep s' (at_col d c) /\ quiet s s' /\ (c = col d /\ s' = s \/ (c < col d)%nat /\ synced s' (at_col d c)).

Lemma gone_left_refl s d : Rep s d -> gone_left s d s (col d).
Proof. intros R. split; [by destruct d|]. split; [reflexivity|by left]. Qed.

Lemma gone_left_trans s d s1 c1 s2 c2 : gone_left s d s1 c1 -> gone_left s1 (at_col d c1) s2 c2 -> gone_left s d s2 c2.
Proof.
  intros (R1 & Q1 & H1) (R2 & Q2 & H2). cbn [at_col col] in H2. split; [exact R2|]. split; [by transitivity s1|].
  destruct H2 as [[-> ->]|[Hlt Hs]]; [exact H1|]. right. split; [|exact Hs]. destruct H1 as [[-> _]|[? _]]; lia.
Qed.

Lemma left_while_goes f s d (Q : () -> ee -> Prop) :
  Rep s d ->
  (forall s' c, gone_left s d s' c -> c = O \/ (exists b, here s' b /\ f b = false) -> Q tt s') ->
  wp (left_while f) Q noexit s.
Proof.
  intros R H. unfold left_while. ee_steps. rewrite (rp_pos _ _ R).
  eapply (wp_while (fun k s' => gone_left s d s' k) _ _ _ _ _ (col d)); [by apply gone_left_refl|lia|].
  intros k s1 Hg. pose proof Hg as (R1 & _ & _). ee_steps. rewrite (rp_pos _ _ R1). cbn [at_col col]. destruct k as [|k].
  - change (negb (1 + Z.of_nat 0 =? 1)) with false. apply wp_ret. apply (H s1 O Hg). by left.
  - rewrite (proj2 (Z.eqb_neq _ 1)) by lia. cbn [negb]. apply wp_bind. eapply wp_here; [exact R1|]. intros b Hb. apply wp_ret.
    destruct (f b) eqn:Ef; [|apply (H s1 _ Hg); right; by exists b].
    exists k. split; [done|]. eapply wp_mono; [exact (left_walks s1 _ k R1 eq_refl)|]. intros [] s2 (R2 & Hq2 & Hs2).
    eapply gone_left_trans; [exact Hg|]. split; [exact R2|]. split; [exact Hq2|]. right. split; [cbn; lia|exact Hs2].
Qed.

(** Column [c] is the start of the line or follows a blank. *)
Definition word_start (t : bytes) (c : nat) : Prop :=
  match c with
  | O => True
  | S c => exists ch, t !! c = Some ch /\ is_blank ch = true
  end.

(** The blank a walk stopped at, and the cursor put after it. *)
Lemma wp_after_blank s d s3 c3 (Q : () -> ee -> Prop) :
  gone_left s d s3 c3 -> (c3 < col d)%nat -> (col d <= length (this d))%nat ->
  (c3 <> O -> (exists b, here s3 b /\ is_blank b = true) /\ (S c3 < col d)%nat) ->
  (forall s' c, gone_left s d s' c -> (c < col d)%nat -> word_start (this d) c -> Q tt s') ->
  wp (let! p := gets position in
      if negb (p =? 1) then
        let! c := peek 0 in
        if is_blank c then right true else ret tt
      else ret tt) Q noexit s3.
Proof.
  intros Hg Hlt Hlen Hb H. pose proof Hg as (R & Hq & _). ee_steps. rewrite (rp_pos _ _ R). cbn [at_col col]. destruct c3 as [|c].
  - change (negb (1 + Z.of_nat 0 =? 1)) with false. apply wp_ret. by apply (H s3 O).
  - rewrite (proj2 (Z.eqb_neq _ 1)) by lia. cbn [negb]. apply wp_bind. eapply wp_here; [exact R|]. intros b Hh.
    destruct (Hb ltac:(lia)) as [(b' & Hh' & Hbl) Hlt']. rewrite (here_eq _ _ _ Hh Hh'), Hbl.
    destruct (lookup_lt_is_Some_2 (this d) (S c)) as [ch Hch]; [lia|].
    pose proof (here_text _ _ _ ch R Hh' Hch) as ->.
    eapply wp_mono; [apply right_walks; [exact R|cbn; lia]|]. intros [] s4 (R4 & Hq4 & Hs4). cbn [at_col col] in R4, Hs4.
    apply (H s4 (S (S c))); [|exact Hlt'|by exists ch]. split; [exact R4|]. split; [by transitivity s3|]. by right.
Qed.

(** prev_word inside a line goes left, to the start of a word. *)
Lemma prev_word_goes s d (Q : () -> ee -> Prop) :
  Rep s d -> col d <> O ->
  (forall s' c, gone_left s d s' c -> (c < col d)%nat -> word_start (this d) c -> Q tt s') ->
  wp prev_word Q noexit s.
Proof.
  intros R Hc H. pose proof (rp_col _ _ R) as Hlen. destruct (Rep_cur s d R) as (n & E & Hn & _). destruct (nk_split _ _ Hn) as (r & Er & _).
  destruct (lookup_lt_is_Some_2 (this d) (col d - 1)) as [p Hp]; [lia|].
  unfold prev_word. ee_steps. rewrite (rp_pos _ _ R), (proj2 (Z.eqb_neq _ 1)) by lia. cbn [negb]. apply wp_bind.
  eapply (wp_peek_cur _ n p); [exact E| |].
  { rewrite Er, (rp_point _ _ R). replace (_ + -1) with (Z.of_nat (col d - 1)) by lia. by apply aget_app_l. }
  assert (Hfirst : wp (if is_blank p then left_while (fun c => negb (is_blank c)) else ret tt) (fun _ s1 => exists c1, gone_left s d s1 c1 /\
    (is_blank p = true -> c1 = O \/ exists b, here s1 b /\ is_blank b = true)) noexit s).
  { destruct (is_blank p); [|apply wp_ret; exists (col d); by split; [apply gone_left_refl|]].
    apply (left_while_goes _ s d _ R). intros s1 c1 Hg Hb. exists c1. split; [exact Hg|]. intros _. destruct Hb as [Hb|(b & Hb & Hf)]; [by left|].
    right. exists b. by rewrite negb_false_iff in Hf. }
  apply wp_bind. eapply wp_mono; [exact Hfirst|]. clear Hfirst. intros [] s1 (c1 & G1 & B1). apply wp_bind.
  apply (left_while_goes _ _ _ _ (proj1 G1)). intros s2 c2 G2 B2. apply wp_bind.
  apply (left_while_goes _ _ _ _ (proj1 G2)). intros s3 c3 G3 B3. rewrite at_col_col in G3.
  pose proof (gone_left_trans _ _ _ _ _ _ G1 G2) as G12. pose proof (gone_left_trans _ _ _ _ _ _ G12 G3) as G123.
  assert (Hblank : c3 <> O -> exists b, here s3 b /\ is_blank b = true).
  { intros H0. destruct B3 as [B3|(b & Hb & Hf)]; [done|]. exists b. by rewrite negb_false_iff in Hf. }
  assert (Hlt : c3 <> O -> (S c3 < col d)%nat).
  { intros H0. destruct (Hblank H0) as (b & Hb & Hbl). destruct G3 as (_ & _ & G3). cbn [at_col col] in G3.
    destruct G12 as (_ & _ & G12). destruct B2 as [->|(b2 & Hb2 & Hf2)]; [destruct G3 as [[? _]|[? _]]; lia|].
    destruct G3 as [[-> ->]|[G3 _]]; [by rewrite (here_eq _ _ _ Hb Hb2), Hf2 in Hbl|].
    destruct G12 as [[-> ->]|[? _]]; [|lia]. destruct G2 as (_ & _ & G2). cbn [at_col col] in G2.
    destruct G1 as (_ & _ & G1). destruct G2 as [[<- <-]|[? _]]; [|destruct G1 as [[-> _]|[? _]]; lia].
    destruct (is_blank p) eqn:Ep.
    { destruct (B1 eq_refl) as [?|(b1 & Hb1 & Hf1)]; [lia|]. by rewrite (here_eq _ _ _ Hb1 Hb2), Hf2 in Hf1. }
    destruct (decide (S c3 = col d)) as [Heq|]; [|lia]. replace (col d - 1)%nat with c3 in Hp by lia.
    by rewrite (here_text _ _ _ p (proj1 G123) Hb Hp), Ep in Hbl. }
  eapply (wp_after_blank s d); [exact G123| |exact Hlen|auto|exact H]. destruct (decide (c3 = O)); [lia|]. specialize (Hlt n0). lia.
Qed.

(** ** Breaking the line *)

(** The margin in force. *)
Definition margin_of (s : ee) : option Z := if observ_margins s then Some (right_margin s) else None.

(** The line broken at column [c], the cursor at the same character. *)
Definition d_break (c : nat) (d : doc) : doc := Doc (take c (this d) :: above d) (drop c (this d)) (col d - c) (below d).

(** The text after the margin is observed: as it was, or with the line broken before the
    cursor at the start of a word, where what stays fits the margin. *)
Definition wraps (eb : bool) (margin : option Z) (d d' : doc) : Prop :=
  d' = d \/ exists m c w, margin = Some m /\ (0 < c < col d)%nat /\ word_start (this d) c /\
    scan_cols eb c 0 0 (this d) = Some w /\ w <= m /\ d' = d_break c d.

Lemma synced_0 s d : synced s (at_col d 0) -> scr_pos s = 0.
Proof. intros H. injection H. done. Qed.

Lemma rights_move k s d : Rep s d -> (col d + k <= length (this d))%nat ->
  moves (Nat.iter k (fun m => right true ;; m) (ret tt)) s (at_col d (col d + k)).
Proof.
  revert s d. induction k as [|k IH]; intros s d R Hk.
  { rewrite Nat.add_0_r. apply wp_ret. split; [by destruct d|reflexivity]. }
  rewrite Nat.iter_succ. apply wp_bind. eapply wp_mono; [apply right_walks; [exact R|lia]|]. intros [] s1 (R1 & Hq1 & _).
  eapply wp_mono; [apply (IH s1 _ R1); cbn; lia|]. intros [] s2 [R2 Hq2]. cbn [at_col col] in R2. rewrite at_col_col in R2.
  replace (S (col d) + k)%nat with (col d + S k)%nat in R2 by lia. split; [exact R2|by transitivity s1].
Qed.

Lemma right_until_moves s d c : Rep s (at_col d c) -> (c <= col d)%nat -> (col d <= length (this d))%nat ->
  moves (while_ (Z.to_nat (1 + Z.of_nat (col d))) (let! s := get in ret (position s <? 1 + Z.of_nat (col d))) (right true)) s d.
Proof.
  intros R Hc Hl. unfold moves. eapply (wp_while (fun k s' => Rep s' (at_col d (col d - k)) /\ quiet s s' /\ (k <= col d)%nat) _ _ _ _ _ (col d - c)).
  { split; [by replace (col d - (col d - c))%nat with c by lia|]. split; [reflexivity|lia]. }
  { lia. }
  intros k s1 (R1 & Hq1 & Hk). ee_steps. rewrite (rp_pos _ _ R1). cbn [at_col col]. destruct k as [|k].
  - rewrite Nat.sub_0_r in *. rewrite (proj2 (Z.ltb_ge _ _)) by lia. split; [by destruct d|exact Hq1].
  - rewrite (proj2 (Z.ltb_lt _ _)) by lia. exists k. split; [done|]. eapply wp_mono; [apply right_walks; [exact R1|cbn; lia]|].
    intros [] s2 (R2 & Hq2 & _). cbn [at_col col] in R2. rewrite at_col_col in R2. replace (S (col d - S k))%nat with (col d - k)%nat in R2 by lia.
    split; [exact R2|]. split; [by transitivity s1|lia].
Qed.

Section Wrap.
Context (junk : Z).

(** The loop of break_line: back to a word start inside the margin. *)
Lemma wp_back_to_margin s d (Q : () -> ee -> Prop) :
  Rep s d -> col d <> O -> 0 <= right_margin s < scr_pos s ->
  (forall s' c, Rep s' (at_col d c) -> quiet s s' -> (c < col d)%nat -> synced s' (at_col d c) -> word_start (this d) c ->
     scr_pos s' <= right_margin s -> Q tt s') ->
  wp (while_ (Z.to_nat (position s)) (let! s := get in ret (right_margin s <? scr_pos s)) prev_word) Q noexit s.
Proof.
  intros R Hc Hm H. rewrite (rp_pos _ _ R).
  eapply (wp_while (fun k s' => exists c, (c <= k)%nat /\ gone_left s d s' c /\ ((c < col d)%nat -> word_start (this d) c)) _ _ _ _ _ (col d));
    [exists (col d); split_and!; [lia|by apply gone_left_refl|lia]|lia|].
  intros k s1 (c & Hk & G & Hw). pose proof G as (R1 & Hq1 & G1). ee_steps.
  assert (Hrm : right_margin s1 = right_margin s) by exact (quiet_field right_margin _ _ (fun s => eq_refl) Hq1). rewrite Hrm.
  destruct (Z.ltb_spec (right_margin s) (scr_pos s1)) as [Hlt|Hge].
  - assert (Hc0 : c <> O) by (intros ->; destruct G1 as [[? _]|[_ Hs]]; [by symmetry in H0|]; rewrite (synced_0 _ _ Hs) in Hlt; lia).
    destruct k as [|k]; [lia|]. exists k. split; [done|]. apply (prev_word_goes s1 _ _ R1); [done|]. cbn [at_col col this].
    intros s2 c2 G2 Hlt2 Hw2. exists c2. split_and!; [lia|by eapply gone_left_trans|done].
  - destruct G1 as [[_ ->]|[Hlt Hs]]; [lia|]. apply (H s1 c); auto.
Qed.

Lemma break_line_wraps s d (Q : () -> ee -> Prop) :
  Rep s d -> col d <> O -> observ_margins s = true -> 0 <= right_margin s < scr_pos s -> text_changes s = true ->
  (forall s' d', wraps (eightbit s) (margin_of s) d d' -> Rep s' d' -> quiet s s' -> Q tt s') ->
  wp (break_line junk) Q noexit s.
Proof.
  intros R Hc Ho Hm Htc H. pose proof (rp_col _ _ R) as Hlen. unfold break_line. ee_steps.
  apply (wp_back_to_margin s d _ R Hc Hm). intros s1 c R1 Hq1 Hlt Hs1 Hw Hfit. ee_steps. rewrite (rp_pos _ _ R). destruct (Z.eqb_spec (scr_pos s1) 0) as [Hz|Hz].
  - eapply wp_mono; [apply (right_until_moves s1 d c R1); lia|]. intros [] s2 [R2 Hq2]. apply (H s2 d); [by left|exact R2|by transitivity s1].
  - assert (Hc0 : c <> O) by (intros ->; by apply synced_0 in Hs1).
    rewrite (rp_pos _ _ R1). cbn [at_col col]. replace (Z.to_nat _) with (col d - c)%nat by lia. ee_steps.
    eapply wp_mono; [exact (insert_line_edits junk s1 _ true R1)|]. intros [] s2 [R2 Hq2]. unfold d_newline in R2. cbn [at_col above this col below] in R2.
    eapply wp_mono; [apply (rights_move (col d - c) s2 _ R2); cbn; rewrite length_drop; lia|]. intros [] s3 [R3 Hq3]. cbn in R3.
    apply (H s3 (d_break c d)); [|exact R3|].
    + right. exists (right_margin s), c, (scr_pos s1). unfold margin_of. rewrite Ho. unfold synced in Hs1. cbn [at_col col this] in Hs1.
      rewrite (quiet_field eightbit _ _ (fun s => eq_refl) Hq1) in Hs1. split_and!; try done; lia.
    + transitivity s1; [exact Hq1|]. transitivity s2; [|exact Hq3]. transitivity (s1 <| text_changes := true |>); [|exact Hq2].
      assert (Ht1 : text_changes s1 = true) by (rewrite <- Htc; exact (quiet_field text_changes _ _ (fun s => eq_refl) Hq1)).
      destruct s1. cbn in Ht1. subst. reflexivity.
Qed.

(** ** insert *)

(** The character stored and the cursor moved over it. *)
Lemma wp_put_char s d ch (m : E ()) (Q : () -> ee -> Prop) :
  Rep s d -> 0 <= ch < 256 -> (forall s', Rep s' (d_insert ch d) -> quiet s s' -> ends_kept s s' -> wp m Q noexit s') ->
  wp (store_char junk ch ;; advance_char ch ;; m) Q noexit s.
Proof.
  intros R Hch H. apply wp_bind. eapply wp_store_char; [exact R|].
  intros s1 R1 Hq1 He1. assert (Hu : u8 ch = ch) by (unfold u8; apply Z.mod_small; lia). rewrite Hu in R1.
  unfold advance_char. ee_steps.
  assert (Ew : wp (if negb (isprint (u8 ch)) then of_opt (out_char (eightbit s1) ch (scr_horz s1)) else ret 1)
    (fun _ s' => s' = s1) noexit s1).
  { case_if; [|done]. by rewrite out_char_byte. }
  eapply wp_mono; [exact Ew|]. intros w s2 ->. ee_steps. apply H; [|etransitivity; [exact Hq1|same_refl]|etransitivity; [exact He1|by apply ends_heap]].
  eapply Rep_view; [|apply (Rep_step s1 _ 1 (S (col d)) R1); cbn [with_this col this]; [lia|]]; [reflexivity|].
  pose proof (rp_col _ _ R). rewrite length_app, length_take. cbn. rewrite length_drop. lia.
Qed.

(** The end of insert without the formatter: the window and the line drawn. *)
Lemma wp_insert_end af s d ch (Q : () -> ee -> Prop) :
  Rep s d -> auto_format s = false -> (forall s', Rep s' d -> quiet s s' -> ends_kept s s' -> Q tt s') ->
  wp (let! s := get in
      (if last_col s <? scr_horz s - horiz_offset s then
         sets horiz_offset (horiz_offset s + 8) ;; midscreen (scr_vert s) (point s)
       else ret tt) ;;
      let! s := get in
      (if auto_format s && (ch =? 32) && negb (formatted s) then af
       else if negb (ch =? 32) && negb (ch =? 9) then sets formatted false
       else ret tt) ;;
      redraw_line) Q noexit s.
Proof.
  intros R Ha H. ee_steps. apply (wp_scroll _ _ _ _ _ _ R). intros s3 Hs3. ee_steps.
  rewrite (same_field auto_format _ _ (fun s => eq_refl) Hs3), Ha. cbn [andb].
  assert (R3 := Rep_same _ _ _ Hs3 R). assert (Hq3 := same_quiet _ _ Hs3).
  apply wp_if; intros _; ee_steps; (eapply wp_redraw_line; [eapply Rep_view; [|exact R3]; reflexivity|]); intros s4 Hs4;
    (apply H; [eapply Rep_same; [exact Hs4|]; eapply Rep_view; [|exact R3]; reflexivity
              |transitivity s3; [done|]; (etransitivity; [|by apply same_quiet]); same_refl
              |transitivity s3; [by apply ends_same|]; (etransitivity; [|by apply ends_same]); by apply ends_heap]).
Qed.

(** A character is inserted, and the line broken if the margin asks for it. *)
Lemma insert_one_wraps af s d ch (Q : () -> ee -> Prop) :
  Rep s d -> 0 <= ch < 256 -> (observ_margins s = true -> 0 <= right_margin s) -> auto_format s = false ->
  (forall s' d', wraps (eightbit s) (margin_of s) (d_insert ch d) d' -> Rep s' d' -> quiet (s <| text_changes := true |>) s' -> Q tt s') ->
  wp (insert_one junk af ch) Q noexit s.
Proof.
  intros R Hch Hrm Ha H. unfold insert_one. apply wp_bind, wp_sets. set (s0 := s <| text_changes := true |>).
  eapply wp_put_char; [eapply Rep_view; [|exact R]; reflexivity|exact Hch|]. intros s1 R1 Hq1 _. ee_steps.
  pose proof (quiet_field (fun s => (observ_margins s, right_margin s, eightbit s, auto_format s, text_changes s)) _ _ (fun s => eq_refl) Hq1) as Hf.
  injection Hf as F1 F2 F3 F4 F5.
  assert (Hb : wp (if observ_margins s1 && (right_margin s1 <? scr_pos s1) then break_line junk else ret tt)
    (fun _ s' => exists d', wraps (eightbit s) (margin_of s) (d_insert ch d) d' /\ Rep s' d' /\ quiet s1 s') noexit s1).
  { destruct (observ_margins s1 && (right_margin s1 <? scr_pos s1)) eqn:E; [|apply wp_ret; exists (d_insert ch d); split_and!; [by left|done|reflexivity]].
    apply andb_true_iff in E as [E1 E2]. apply (break_line_wraps s1 _ _ R1); [done|exact E1| |exact F5|].
    { rewrite F2. rewrite F1 in E1. specialize (Hrm E1). rewrite F2 in E2. change (right_margin s0) with (right_margin s) in *. lia. }
    intros s2 d2 W R2 Hq2. exists d2. split_and!; [|exact R2|exact Hq2]. unfold margin_of in *. rewrite F1, F2, F3 in W. exact W. }
  eapply wp_mono; [exact Hb|]. intros [] s2 (d2 & W & R2 & Hq2).
  eapply wp_insert_end; [exact R2|rewrite (quiet_field auto_format _ _ (fun s => eq_refl) Hq2), F4; exact Ha|].
  intros s3 R3 Hq3 _. apply (H s3 d2 W R3). transitivity s1; [exact Hq1|]. by transitivity s2.
Qed.

(** Without margins the text is as typed and lines stay terminated. *)
Lemma insert_plain af s d ch (Q : () -> ee -> Prop) :
  Rep s d -> 0 <= ch < 256 -> observ_margins s = false -> auto_format s = false ->
  (forall s', Rep s' (d_insert ch d) -> quiet (s <| text_changes := true |>) s' -> ends_kept s s' -> Q tt s') ->
  wp (insert_one junk af ch) Q noexit s.
Proof.
  intros R Hch Hm Ha H. unfold insert_one. apply wp_bind, wp_sets. set (s0 := s <| text_changes := true |>).
  eapply wp_put_char; [eapply Rep_view; [|exact R]; reflexivity|exact Hch|]. intros s1 R1 Hq1 He1. ee_steps.
  pose proof (quiet_field (fun s => (observ_margins s, auto_format s)) _ _ (fun s => eq_refl) Hq1) as Hf. injection Hf as F1 F2.
  rewrite F1. change (observ_margins s0) with (observ_margins s). rewrite Hm. cbn [andb]. ee_steps. apply wp_bind_inv.
  eapply wp_insert_end; [exact R1|rewrite F2; exact Ha|]. intros s3 R3 Hq3 He3. apply H; [exact R3|by transitivity s1|].
  transitivity s1; [|exact He3]. etransitivity; [|exact He1]. by apply ends_heap.
Qed.

(** With the margins off. *)
Lemma insert_edits af s d ch :
  Rep s d -> 0 <= ch < 256 -> observ_margins s = false -> auto_format s = false -> (ch = 9 -> expand_tabs s = false) ->
  edits (insert_with junk af ch) s (d_insert ch d).
Proof.
  intros R Hch Hm Ha Ht. unfold edits, insert_with. ee_steps. replace ((ch =? 9) && expand_tabs s) with false.
  - apply (insert_one_wraps af s d ch _ R Hch ltac:(congruence) Ha). intros s' d' W R' Hq. unfold margin_of in W. rewrite Hm in W.
    destruct W as [->|(m & c & w & Hw & _)]; [by split|discriminate Hw].
  - destruct (Z.eqb_spec ch 9); [by rewrite Ht|done].
Qed.

End Wrap.

End EeWrap.
