(* ===== verification/EeDelete.v ===== *)
(** * ee(1): deleting characters

    Backspace removes the character before the cursor; at the start of a line it
    joins the line to the one above. *)

From S2P Require Import Prelude Monad EeState EeEdit EeText EeKeeps EeRep EeMove EeBlock EeLink EeInsert.
From stdpp Require Import base list gmap numbers.
From Stdlib Require Import ZArith Lia.

Open Scope Z_scope.

Module EeDelete.

Import EeState EeEdit EeText EeKeeps EeRep EeMove EeBlock EeLink EeInsert.
Local Open Scope ind_scope.

Definition d_join (d : doc) : doc :=
  match above d with
  | [] => d
  | t :: ts => Doc ts (t ++ this d) (length t) (below d)
  end.

Definition d_delete (d : doc) : doc :=
  match col d with
  | O => d_join d
  | S c => Doc (above d) (take c (this d) ++ drop (S c) (this d)) c (below d)
  end.

(** What delete saves for the undelete command. *)
Definition saved (s : ee) (c : bytes) : bytes :=
  if in_ s =? 8 then c ++ drop (length c) (d_char s) else d_char s.

(** The bytes it saves. *)
Definition d_removed (d : doc) : bytes :=
  match col d with
  | O => [10; 0]
  | S c => [default 0 (this d !! c); 0]
  end.

Lemma wp_save_char s c (Q : () -> ee -> Prop) : Q tt (s <| d_char := saved s c |>) -> wp (save_char c) Q noexit s.
Proof. intros H. unfold save_char, saved in *. ee_steps. case_if; ee_steps; [exact H|]. by destruct s. Qed.

Lemma quiet_saved s s' c : quiet s s' -> quiet (s <| d_char := saved s c |>) (s' <| d_char := saved s' c |>).
Proof.
  intros H. assert (saved s' c = saved s c) as ->.
  { unfold saved. by rewrite (quiet_field in_ _ _ (fun s => eq_refl) H), (quiet_field d_char _ _ (fun s => eq_refl) H). }
  unfold quiet in *. transitivity (settings s' <| d_char := saved s c |>); [vm_compute; reflexivity|].
  rewrite H. vm_compute; reflexivity.
Qed.

(** A command that removes [c], and saves it for backspace. *)
Definition deletes (m : E ()) (s : ee) (c : bytes) (d' : doc) : Prop :=
  wp m (fun _ s' => Rep s' d' /\ quiet (s <| text_changes := true |> <| d_char := saved s c |>) s') noexit s.

Section Delete.
Context (junk : Z).

(** The block with the byte before the cursor taken out. *)
Lemma copy_over t c r :
  (c < length t)%nat -> (1 <= length r)%nat ->
  exists r', copy_fwd (length t - c) (Z.of_nat c + 1) (Z.of_nat c) (t ++ r) = Some (take c t ++ drop (S c) t ++ r') /\
    length r' = S (length r) /\ head r' = head r.
Proof.
  intros Hc Hr. destruct r as [|x w]; [cbn in Hr; lia|].
  destruct (lookup_lt_is_Some_2 t c Hc) as [y Hy].
  destruct (copy_fwd_spec (drop (S c) t ++ [x]) (take c t) [y] w (Z.of_nat c + 1) (Z.of_nat c)) as (w' & E & Hw);
    [rewrite length_take; lia|done|].
  exists (x :: w'). rewrite <- (take_drop_middle t c y Hy) at 2. rewrite <- !app_assoc in *. cbn [app] in *.
  rewrite <- E. split; [|split; [cbn in *; lia|done]]. f_equal. rewrite length_app, length_drop. cbn. lia.
Qed.

(** The last part of the removal: the line is one shorter and the cursor back. *)
Lemma wp_close_up s d c ch p n r (Q : () -> ee -> Prop) :
  Rep s (with_this (at_col d c) (take (length (this d) - 1) (this d))) -> this d !! c = Some ch -> p = point s + 1 ->
  heap s !! curr_line s = Some n -> line n = this d ++ r -> (1 <= length r)%nat ->
  (forall s' n', Rep s' (Doc (above d) (take c (this d) ++ drop (S c) (this d)) c (below d)) ->
     quiet (s <| d_char := saved s [ch; 0] |>) s' -> heap s' = <[curr_line s := n']> (heap s) -> (head r = Some 0 -> ended n') -> Q tt s') ->
  wp (let! c0 := peek 0 in
      (if (c0 <? 32) || (127 <=? c0) then let! q := gets point in scanline q
       else modify (fun s => s <| scr_horz := scr_horz s - 1 |>)) ;;
      sync_pos ;;
      save_char [c0; 0] ;;
      let! n := cur in
      let! q := gets point in
      let! pos := gets position in
      edit_line (curr_line s) (copy_fwd (Z.to_nat (line_length n - pos + 1)) p q) ;;
      let! s := get in
      if (scr_horz s <? horiz_offset s) && (0 <? horiz_offset s) then
        sets horiz_offset (horiz_offset s - 8) ;; midscreen (scr_vert s) (point s)
      else ret tt) Q noexit s.
Proof.
  intros R Hch -> E Er Hr H. pose proof (lookup_lt_Some _ _ _ Hch) as Hc.
  pose proof (rp_point _ _ R) as Hpt. pose proof (rp_pos _ _ R) as Hpos. cbn [with_this at_col col] in Hpt, Hpos.
  destruct (Rep_cur _ _ R) as (n' & E' & Hn & _). assert (n' = n) as -> by congruence. cbn [with_this this] in Hn.
  apply wp_bind. eapply (wp_peek_cur _ n ch); [exact E| |].
  { rewrite Er, Hpt, Z.add_0_r. unfold aget. rewrite (proj2 (Z.ltb_ge _ _)), Nat2Z.id by lia. by apply lookup_app_l_Some. }
  assert (Hshow : wp (if (ch <? 32) || (127 <=? ch) then let! q := gets point in scanline q
       else modify (fun s => s <| scr_horz := scr_horz s - 1 |>)) (fun _ s' => same s s') noexit s).
  { apply wp_if; intros _; ee_steps; [|same_refl]. eapply wp_scanline_Rep; [exact R|done]. }
  apply wp_bind. eapply wp_mono; [exact Hshow|]. intros [] s1 Hs1. ee_steps. apply wp_save_char. ee_steps. name_state s2.
  assert (Hq2 : quiet (s <| d_char := saved s [ch; 0] |>) s2).
  { transitivity (s1 <| d_char := saved s1 [ch; 0] |>); [|same_refl]. apply quiet_saved. by apply same_quiet. }
  assert (Hv2 : view s2 = view s) by exact (same_field view _ _ (fun s => eq_refl) Hs1).
  clearbody s2. assert (R2 := Rep_view _ _ _ Hv2 R). injection Hv2 as V1 V2 V3 V4 V5 V6 V7 V8 V9 V10.
  eapply wp_cur; [rewrite V1, V4; exact E|]. ee_steps.
  destruct (nk_split _ _ Hn) as (r0 & Er0 & Hr0 & Hmax & Hll). rewrite length_take, Nat.min_l in Hll, Hmax by lia.
  destruct (copy_over (this d) c r) as (r' & Ec & Hr' & Hhd); [done|done|].
  eapply (wp_edit_line _ _ n); [rewrite V1; exact E| |].
  { rewrite Er, Hll, V5, V6, Hpos, Hpt. replace (Z.to_nat _) with (length (this d) - c)%nat by lia. exact Ec. }
  ee_steps. name_state s3. set (n3 := n <| line := take c (this d) ++ drop (S c) (this d) ++ r' |>) in *.
  assert (Hlen : length (take c (this d) ++ drop (S c) (this d)) = (length (this d) - 1)%nat)
    by (rewrite length_app, length_take, length_drop; lia).
  assert (R3 : Rep s3 (Doc (above d) (take c (this d) ++ drop (S c) (this d)) c (below d))).
  { change (Doc _ _ _ _) with (with_this (with_this (at_col d c) (take (length (this d) - 1) (this d))) (take c (this d) ++ drop (S c) (this d))).
    apply (Rep_renewed s2 _ _ n n3); [exact R2|rewrite V1, V4; exact E| | |done|done|cbn [with_this at_col col]; lia].
    - split; [unfold s3; fld; by rewrite V4|]. split; [reflexivity|same_refl].
    - eapply (nk_make _ _ r'); unfold n3; fld; [by rewrite app_assoc|lia| |lia].
      pose proof (nk_max _ _ Hn) as Hx. rewrite Er, length_app in Hx. lia. }
  assert (Hq3 : quiet (s <| d_char := saved s [ch; 0] |>) s3) by (etransitivity; [exact Hq2|same_refl]).
  assert (Hh3 : heap s3 = <[curr_line s := n3]> (heap s)) by (unfold s3; fld; by rewrite V1).
  clearbody s3. eapply wp_scroll; [exact R3|]. intros s4 Hs4. apply (H _ n3); [by eapply Rep_same| | |].
  - etransitivity; [exact Hq3|by apply same_quiet].
  - by rewrite (same_field heap _ _ (fun s => eq_refl) Hs4).
  - intros H0. rewrite <- Hhd in H0. eapply (ended_tail n3 (take c (this d) ++ drop (S c) (this d)) r'); unfold n3; fld; [by rewrite app_assoc|lia|exact H0].
Qed.

Lemma delete_back_all s d c : Rep s d -> col d = S c ->
  wp delete_back (fun _ s' => (Rep s' (d_delete d) /\ quiet (s <| text_changes := true |> <| d_char := saved s (d_removed d) |>) s') /\ ends_kept s s') noexit s.
Proof.
  intros R Ec. pose proof (rp_col _ _ R) as Hcol. destruct (lookup_lt_is_Some_2 (this d) c) as [ch Hch]; [lia|].
  unfold delete_back, d_removed, d_delete. rewrite Ec, Hch. cbn [default].
  ee_steps. fld. rewrite (rp_narrow _ _ R). cbn [andb]. ee_steps. fld.
  destruct (Rep_cur s d R) as (n & E & Hn & _). destruct (nk_split _ _ Hn) as (r & Er & Hr & Hmax & Hll).
  eapply wp_upd; [fld; exact E|].
  set (n1 := n <| line_length := line_length n - 1 |>).
  set (s1 := s <| text_changes := true |> <| point := point s + - (1) |> <| position := position s + - (1) |>).
  assert (R1 : Rep s1 (at_col d c)).
  { eapply Rep_view; [|exact (Rep_step s d (-1) c R ltac:(lia) ltac:(lia))]. reflexivity. }
  name_state s2. assert (H12 : renewed s1 s2 n1) by (split; [done|]; split; [reflexivity|same_refl]).
  assert (Hq1 : quiet (s <| text_changes := true |>) s1) by same_refl.
  assert (E1 : heap s1 !! curr_line s1 = Some n) by exact E.
  assert (Hp1 : point s1 = point s - 1 /\ curr_line s1 = curr_line s /\ in_ s1 = in_ s /\ d_char s1 = d_char s) by done.
  assert (E0 := E). clear E. eapply (wp_close_up s2 d c ch _ n1 r); [|exact Hch|unfold s2; fld; lia|unfold s2; fld; apply lookup_insert_eq|exact Er|done|].
  - apply (Rep_renewed s1 _ (at_col d c) n n1); [exact R1|exact E1|exact H12| |done|done|cbn [at_col col]; rewrite length_take; lia].
    destruct (nk_split _ _ Hn) as (r2 & Er2 & _). eapply (nk_make _ _ (drop (length (this d) - 1) (this d) ++ r));
      unfold n1; fld; rewrite ?length_app, ?length_take, ?length_drop; [by rewrite app_assoc, take_drop|lia..].
  - intros s' n' R' Hq' Hh' He'. split; [split; [exact R'|]; etransitivity; [|exact Hq']; same_refl|].
    eapply (ends_set _ _ (curr_line s)); [rewrite Hh'; unfold s2; fld; by rewrite insert_insert_eq|].
    intros Ht. apply He'. exact (proj1 (ended_tail n (this d) r Er Hll) (Ht _ _ E0)).
Qed.

Lemma delete_back_deletes s d c : Rep s d -> col d = S c -> deletes delete_back s (d_removed d) (d_delete d).
Proof. intros R Ec. eapply wp_mono; [exact (delete_back_all s d c R Ec)|]. by intros [] s' [H _]. Qed.

(** The cursor at the end of the line above; left(FALSE) leaves point one too far. *)
Lemma wp_left_join s d t ts disp (Q : () -> ee -> Prop) :
  Rep s d -> col d = O -> above d = t :: ts ->
  (forall s', Rep (s' <| point := position s' - 1 |>) (d_prev d) -> quiet s s' -> heap s' = heap s -> Q tt s') ->
  wp (left disp) Q noexit s.
Proof.
  intros R Ec Ea HQ. enough (Hw : wp (left disp) (fun _ s' => Rep (s' <| point := position s' - 1 |>) (d_prev d) /\ quiet s s') noexit s).
  { eapply wp_mono; [exact (wp_keeps heap _ _ _ s (heap_left disp) Hw)|]. intros [] s' [[? ?] ?]. by apply HQ. }
  destruct (Rep_prev s d t ts R Ea) as (n & l & m & En & El & Em & Hm & R').
  destruct disp.
  - eapply wp_mono; [exact (left_moves s d R)|]. unfold d_left. rewrite Ec. intros [] s' [R2 Hq]. split; [|exact Hq].
    replace (position s' - 1) with (point s') by (rewrite (rp_point _ _ R2), (rp_pos _ _ R2); lia).
    eapply Rep_view; [|exact R2]. reflexivity.
  - unfold left. ee_steps. rewrite (rp_point _ _ R), Ec. change (negb (Z.of_nat 0 =? 0)) with false. cbv iota.
    apply wp_bind. eapply wp_cur; [exact En|]. rewrite El. cbn [negb]. apply wp_bind. eapply wp_node; [exact Em|]. ee_steps.
    split; [|same_refl]. eapply Rep_view; [|exact R']. rewrite (nk_length _ _ Hm). unfold view. fld.
    replace (1 + Z.of_nat (length t) - 1) with (Z.of_nat (length t)) by lia. reflexivity.
Qed.

Lemma wp_line_below fuel v p s :
  closed (heap s) -> (forall l, p = Some l -> is_Some (heap s !! l)) -> last_line s - v <= Z.of_nat fuel ->
  wp (line_below fuel v p) (fun r s' => s' = s /\ forall l, r.2 = Some l -> is_Some (heap s !! l)) noexit s.
Proof.
  revert v p. induction fuel as [|f IH]; intros v p Hc Hp Hf; cbn [line_below]; ee_steps; (destruct p as [l|]; [|ee_steps; done]);
    case_if; bsimp; ee_steps; try done; [lia|].
  destruct (Hp l eq_refl) as [n E]. eapply wp_node; [exact E|]. apply IH; [done| |lia]. apply (Hc _ _ E).
Qed.

(** The last line of the screen drawn after a line went. *)
Lemma wp_fill_bottom s d (Q : () -> ee -> Prop) :
  Rep s d -> (forall s', same s s' -> Q tt s') ->
  wp (let! r := line_below (Z.to_nat (last_line s - scr_vert s)) (scr_vert s) (Some (curr_line s)) in
      match r with
      | (v, Some x) => if v =? last_line s then let! n := node x in draw_line x 0 0 1 (line_length n) else ret tt
      | _ => ret tt
      end) Q noexit s.
Proof.
  intros R H. destruct (Rep_cur s d R) as (n & E & _). pose proof R as [(up & dn & m & P & _) _ _ _ _ _ _].
  apply wp_bind. eapply wp_mono; [apply wp_line_below; [by eapply placed_closed| |lia]|].
  { intros ? [= <-]. by rewrite E. }
  intros [v [x|]] s' [-> Hx]; [|by apply H]. case_if; [|by apply H].
  destruct (Hx x eq_refl) as [nx Ex]. apply wp_bind. eapply wp_node; [exact Ex|].
  eapply wp_mono; [by eapply wp_draw_line|]. intros [] s2 [Hs _]. by apply H.
Qed.

Lemma delete_join_all s d disp :
  Rep s d -> col d = O -> above d <> [] ->
  wp (delete_join junk disp) (fun _ s' => (Rep s' (d_join d) /\ quiet (s <| text_changes := true |> <| d_char := saved s [10; 0] |>) s') /\ ends_kept s s') noexit s.
Proof.
  intros R Ec Ha. destruct (above d) as [|t ts] eqn:Ea; [done|]. unfold delete_join. ee_steps.
  eapply (wp_left_join _ d); [eapply Rep_view; [|exact R]; reflexivity|done|done|].
  intros s1 R1 Hq1 Hh1. fld_in Hh1. pose proof R1 as [(up & dn' & n & P & Hf) S2 S3 S4 S5 S6 S7].
  unfold window_ok in S6. fld_in P. fld_in Hf. fld_in S2. fld_in S5. fld_in S6. fld_in S7. unfold d_prev in *. rewrite Ea in *. cbn [above this col below] in *.
  destruct (upper_gap _ _ _ _ _ _ _ _ _ _ _ P) as (nod & dn & m & -> & G & Hm).
  pose proof (pl_ok _ _ _ _ _ _ _ P) as Hn. cbn [this] in Hn.
  destruct (nk_split _ _ Hn) as (r & Er & Hr & Hmax & Hll). destruct (nk_split _ _ Hm) as (r2 & Er2 & Hr2 & Hmax2 & Hll2).
  ee_steps. eapply wp_node; [exact (gp_l G)|]. rewrite (gp_next _ _ _ _ _ _ _ _ _ _ G). cbn [deref of_opt]. ee_steps.
  eapply wp_node; [exact (gp_nod G)|]. ee_steps. eapply wp_resiz_line; [exact (gp_l G)|lia|lia|]. ee_steps.
  destruct (realloc_app junk (line n) (max_length n + line_length m)) as (r3 & -> & Hr3); [rewrite Er, length_app; lia|].
  name_state s2. set (n1 := n <| max_length := max_length n + line_length m |> <| line := line n ++ r3 |>).
  pose proof (gap_set_l _ _ _ _ _ _ _ _ _ _ n1 G eq_refl eq_refl) as G1.
  destruct (gap_notin _ _ _ _ _ _ _ _ _ _ G1) as (N1 & N2 & N3 & N4 & N5). rewrite (gp_mnext _ _ _ _ _ _ _ _ _ _ G1).
  eapply (wp_relink s2 dn); [exact (gp_dn _ _ _ _ _ _ _ _ _ _ G1)|]. ee_steps. unfold s2 at 1. fld.
  set (h1 := relinked (<[curr_line s1 := n1]> (heap s1)) dn (curr_line s1)).
  assert (El : h1 !! curr_line s1 = Some n1) by (unfold h1; rewrite relinked_lookup by done; apply lookup_insert_eq).
  eapply wp_upd; [exact El|]. ee_steps. apply wp_save_char. ee_steps.
  replace (Z.to_nat (line_length m - 1)) with (length (this d)) by lia. rewrite S2.
  destruct (append_block [] t (this d) (r ++ r3) r2 0) as (r' & Ej & Hr'); [rewrite Er in Hr3; rewrite length_app in *; lia|].
  eapply wp_edit_line; [fld; apply lookup_insert_eq|fld; unfold n1; fld; rewrite Er, Er2, <- app_assoc;
    replace (1 + Z.of_nat (length t) - 1) with (Z.of_nat (length t)) by lia; exact Ej|]. ee_steps.
  eapply wp_upd; [fld; apply lookup_insert_eq|]. ee_steps.
  set (n2 := n1 <| next_line := head dn |> <| line := (t ++ this d) ++ 0 :: r' |>
               <| line_length := line_length n1 + Z.of_nat (length (this d)) |>).
  eapply wp_free_node.
  { fld. rewrite !lookup_insert_ne by done. unfold h1. rewrite relinked_lookup, lookup_insert_ne by done. by rewrite (gp_nod G). }
  ee_steps. name_state s3.
  assert (R3 : Rep s3 (d_join d)).
  { unfold d_join. rewrite Ea. split; cbn [above this col below] in *.
    - exists up, dn, n2. unfold s3, s2. fld. split; [|exact Hf]. rewrite !insert_insert_eq.
      eapply unlink_placed; [exact G1| |reflexivity|exact (eq_sym (gp_mnext _ _ _ _ _ _ _ _ _ _ G1))].
      eapply (nk_make _ _ (0 :: r')); unfold n2, n1; fld; [reflexivity|cbn; lia|..]; rewrite ?length_app; cbn [length];
        rewrite Er in Hr3; rewrite !length_app in *; lia.
    - unfold s3, s2. fld. exact S2.
    - unfold s3, s2. fld. lia.
    - rewrite length_app. lia.
    - unfold s3, s2. fld. exact S5.
    - unfold window_ok, s3, s2. fld. exact S6.
    - unfold s3, s2. fld. exact S7. }
  assert (Hq3 : quiet (s <| text_changes := true |> <| d_char := saved s [10; 0] |>) s3).
  { transitivity (s1 <| d_char := saved s1 [10; 0] |>); [exact (quiet_saved _ _ _ Hq1)|]. same_refl. }
  assert (He3 : ends_kept s s3).
  { intros Ht k nk. unfold s3, s2. fld. destruct (decide (nod = k)) as [<-|K0]; [by rewrite lookup_delete_eq|]. rewrite lookup_delete_ne by done.
    destruct (decide (curr_line s1 = k)) as [<-|K1].
    { rewrite !insert_insert_eq, lookup_insert_eq. intros [= <-]. apply (ended_tail _ (t ++ this d) (0 :: r')); [done| |done].
      change (line_length n + Z.of_nat (length (this d)) = 1 + Z.of_nat (length (t ++ this d))). rewrite length_app. lia. }
    rewrite !lookup_insert_ne by done. unfold h1. assert (Ht1 : terminated s1) by (unfold terminated; rewrite Hh1; exact Ht). clear Ht. rename Ht1 into Ht. intros Hk.
    apply relinked_line in Hk as (mk & Hk & E1 & E2). rewrite lookup_insert_ne in Hk by done. unfold ended. rewrite E1, E2. exact (Ht _ _ Hk). }
  assert (Hc : curr_line s1 = curr_line s3) by (unfold s3, s2; fld; reflexivity). rewrite Hc. clearbody s3.
  apply wp_bind_inv, (wp_fill_bottom s3 (d_join d)); [exact R3|]. intros s4 Hs4.
  split; [split; [by eapply Rep_same|etransitivity; [exact Hq3|by apply same_quiet]]|etransitivity; [exact He3|by apply ends_same]].
Qed.

Lemma delete_join_deletes s d disp :
  Rep s d -> col d = O -> above d <> [] -> deletes (delete_join junk disp) s [10; 0] (d_join d).
Proof. intros R Ec Ha. eapply wp_mono; [exact (delete_join_all s d disp R Ec Ha)|]. by intros [] s' [H _]. Qed.

(** The end of delete: the line drawn again. *)
Lemma wp_delete_end s0 s d (Q : () -> ee -> Prop) :
  Rep s d -> quiet s0 s -> (forall s', Rep s' d -> quiet s0 s' -> heap s' = heap s -> Q tt s') ->
  wp (redraw_line ;; sets formatted false) Q noexit s.
Proof.
  intros R Hq H. ee_steps. eapply wp_redraw_line; [exact R|]. intros s1 Hs1. ee_steps. apply H.
  - eapply Rep_view; [|exact (Rep_same _ _ _ Hs1 R)]. reflexivity.
  - transitivity s; [done|]. etransitivity; [by apply same_quiet, Hs1|]. same_refl.
  - exact (same_field heap _ _ (fun s => eq_refl) Hs1).
Qed.

(** There is something before the cursor. *)
Definition d_some (d : doc) : Prop := col d <> O \/ above d <> [].

Lemma delete_all s d disp : Rep s d -> d_some d ->
  wp (delete junk disp) (fun _ s' => (Rep s' (d_delete d) /\ quiet (s <| text_changes := true |> <| d_char := saved s (d_removed d) |>) s') /\ ends_kept s s') noexit s.
Proof.
  intros R Hd. unfold delete. ee_steps. rewrite (rp_point _ _ R). destruct (col d) as [|c] eqn:Ec.
  - change (negb (Z.of_nat 0 =? 0)) with false. cbv iota. destruct Hd as [Hd|Ha]; [done|].
    destruct (Rep_cur s d R) as (n & En & _ & _ & Hprev). apply wp_bind. eapply wp_cur; [exact En|].
    destruct (prev_line n) as [l|]; [|by destruct Ha; apply Hprev].
    eapply wp_mono; [exact (delete_join_all s d disp R Ec Ha)|]. intros [] s1 [[R1 Hq1] He1].
    unfold d_removed, d_delete. rewrite Ec. eapply wp_delete_end; [exact R1|exact Hq1|]. intros s2 R2 Hq2 Hh2. split; [done|].
    transitivity s1; [done|by apply ends_heap].
  - rewrite (proj2 (Z.eqb_neq (Z.of_nat (S c)) 0)) by lia. cbn [negb].
    eapply wp_mono; [exact (delete_back_all s d c R Ec)|]. intros [] s1 [[R1 Hq1] He1].
    eapply wp_delete_end; [exact R1|exact Hq1|]. intros s2 R2 Hq2 Hh2. split; [done|]. transitivity s1; [done|by apply ends_heap].
Qed.

Lemma delete_deletes s d disp : Rep s d -> d_some d -> deletes (delete junk disp) s (d_removed d) (d_delete d).
Proof. intros R Hd. eapply wp_mono; [exact (delete_all s d disp R Hd)|]. by intros [] s' [H _]. Qed.

(** At the start of the text nothing is deleted. *)
Lemma delete_nothing s d disp : Rep s d -> ~ d_some d -> moves (delete junk disp) s d.
Proof.
  intros R Hd. assert (Ec : col d = O) by (destruct (col d) eqn:E; [done|]; destruct Hd; left; congruence).
  assert (Ea : above d = []) by (destruct (above d) eqn:E; [done|]; destruct Hd; right; congruence).
  unfold moves, delete. ee_steps. rewrite (rp_point _ _ R), Ec. change (negb (Z.of_nat 0 =? 0)) with false. cbv iota.
  destruct (Rep_cur s d R) as (n & En & _ & _ & Hprev). apply wp_bind. eapply wp_cur; [exact En|].
  rewrite (proj2 Hprev Ea). ee_steps. apply wp_bind_inv. eapply wp_delete_end; [exact R|reflexivity|auto].
Qed.

(** The same after a move. *)
Lemma deletes_after s0 s m c d' (Q : () -> ee -> Prop) :
  quiet s0 s -> deletes m s c d' ->
  (forall s', Rep s' d' -> quiet (s0 <| text_changes := true |> <| d_char := saved s0 c |>) s' -> Q tt s') -> wp m Q noexit s.
Proof.
  intros Hq Hm H. eapply wp_mono; [exact Hm|]. intros [] s' [R' Hq']. apply H; [exact R'|]. etransitivity; [|exact Hq'].
  assert (E : saved s c = saved s0 c).
  { unfold saved. by rewrite (quiet_field in_ _ _ (fun s => eq_refl) Hq), (quiet_field d_char _ _ (fun s => eq_refl) Hq). }
  rewrite E. unfold quiet in *. transitivity (settings s <| text_changes := true |> <| d_char := saved s0 c |>); [vm_compute; reflexivity|].
  rewrite Hq. vm_compute; reflexivity.
Qed.

(** del_char takes the character at the cursor: right, then backspace. *)
Lemma wp_del_char s d (Q : () -> ee -> Prop) :
  Rep s d -> d_some (d_right d) ->
  (forall s', Rep s' (d_delete (d_right d)) ->
     quiet (s <| in_ := 8 |> <| text_changes := true |> <| d_char := d_removed (d_right d) ++ drop 2 (d_char s) |>) s' ->
     ends_kept s s' -> Q tt s') ->
  wp (del_char junk) Q noexit s.
Proof.
  intros R Hd H. set (s8 := s <| in_ := 8 |>). assert (R8 : Rep s8 d) by (eapply Rep_view; [|exact R]; reflexivity).
  assert (Hend : forall s1, Rep s1 (d_right d) -> quiet s8 s1 -> heap s1 = heap s -> wp (delete junk true) Q noexit s1).
  { intros s1 R1 Hq1 Hh1. pose proof (delete_all s1 _ true R1 Hd) as Hall. assert (Hw : wp (delete junk true) (fun _ s' => ends_kept s1 s') noexit s1) by (eapply wp_mono; [exact Hall|]; by intros [] ? [_ ?]).
    assert (Hd1 := delete_deletes s1 _ true R1 Hd). unfold deletes in Hd1. eapply wp_mono; [exact (wp_and _ _ _ _ _ Hw Hd1)|].
    intros [] s' [He' Hd']. enough (Hq' : quiet (s8 <| text_changes := true |> <| d_char := saved s8 (d_removed (d_right d)) |>) s').
    { apply H; [by destruct Hd'|etransitivity; [|exact Hq']; unfold saved, s8, d_removed; destruct (col (d_right d)); same_refl|].
      transitivity s1; [by apply ends_heap|exact He']. }
    assert (Hx : deletes (fun _ => SRet tt s') s1 (d_removed (d_right d)) (d_delete (d_right d))) by exact Hd'.
    exact (deletes_after s8 s1 _ _ _ (fun _ s' => quiet (s8 <| text_changes := true |> <| d_char := saved s8 (d_removed (d_right d)) |>) s') Hq1 Hx (fun _ _ H => H)). }
  unfold del_char. ee_steps. change (s <| in_ := 8 |>) with s8. destruct (Rep_cur s8 d R8) as (n & En & Hn & _).
  eapply wp_cur; [exact En|]. pose proof (nk_length _ _ Hn). pose proof (rp_pos _ _ R8). case_if; bsimp.
  - unfold wide_here. ee_steps. rewrite (rp_narrow _ _ R8). ee_steps. name_state s1.
    assert (R1 : Rep s1 (d_right d)) by (rewrite d_right_inside by lia; apply Rep_step; [exact R8|lia|lia]).
    eapply wp_scanline_Rep; [exact R1|]. intros s2 Hs2. apply Hend; [by eapply Rep_same| |exact (same_field heap _ _ (fun s => eq_refl) Hs2)].
    etransitivity; [|by apply same_quiet]. same_refl.
  - apply wp_bind. eapply wp_mono; [exact (wp_keeps heap _ _ _ _ (heap_right true) (right_moves s8 d R8))|]. intros [] s1 [[R1 Hq1] Hh1]. by apply Hend.
Qed.

End Delete.
End EeDelete.
