(* ===== verification/EeDemo.v ===== *)
(** * ee(1): concrete states

    The state at the start of main holds an empty text; a small text with two lines
    to run the commands on. *)

From S2P Require Import Prelude Monad EeState EeEdit EeText EeKeys EeFile EeRep EeMove EeBlock.
From stdpp Require Import base list gmap numbers.
From Stdlib Require Import ZArith Lia.

Open Scope Z_scope.

Module EeDemo.

Import EeState EeEdit EeText EeKeys EeFile EeRep EeMove EeBlock.
Local Open Scope ind_scope.

Lemma lookup_one (n : text) k : ({[ 0%nat := n ]} : gmap nat text) !! k = if decide (k = 0%nat) then Some n else None.
Proof. case_decide as H; [subst; apply lookup_singleton_eq|by apply lookup_singleton_ne]. Qed.

(** The start of main. *)
Lemma Rep_start junk last cols : 8 <= cols -> Rep (start junk last cols) (Doc [] [] 0 []).
Proof.
  intros Hc. split; try done.
  exists [], [], (Text (malloc junk 10) 1 1 10 None None). split; [|done]. split; try done.
  - apply NoDup_singleton.
  - intros k [m Hk]. change (heap (start junk last cols)) with ({[ 0%nat := Text (malloc junk 10) 1 1 10 None None ]} : gmap nat text) in Hk.
    rewrite lookup_one in Hk. case_decide; [subst; left|done].
  - intros k Hk. apply elem_of_cons in Hk as [->|Hk]; [cbn; lia|by apply elem_of_nil in Hk].
Qed.

(** The lines "ab c" and "d", the cursor on the first character; margins off. *)
Definition demo_1 : text := Text [97; 98; 32; 99; 0; 0; 0; 0; 0; 0] 1 5 10 (Some 1%nat) None.
Definition demo_2 : text := Text [100; 0; 0; 0; 0; 0; 0; 0; 0; 0] 2 2 10 None (Some 0%nat).
Definition demo : ee :=
  start 0 20 80 <| heap := {[ 0%nat := demo_1; 1%nat := demo_2 ]} |> <| fresh_loc := 2%nat |>
    <| observ_margins := false |> <| expand_tabs := false |>.
Definition demo_doc : doc := Doc [] [97; 98; 32; 99] 0 [[100]].

Lemma Rep_demo : Rep demo demo_doc.
Proof.
  split; try done; [|cbn; lia].
  exists [], [1%nat], demo_1. split; [|done]. split; try done.
  - exists demo_2. split; [done|]. split; [by split|done].
  - repeat constructor; set_solver.
  - intros k Hk. change (heap demo) with ({[ 0%nat := demo_1; 1%nat := demo_2 ]} : gmap nat text) in Hk. destruct Hk as [m Hk].
    destruct (decide (k = 0%nat)) as [->|H0]; [left|]. destruct (decide (k = 1%nat)) as [->|H1]; [right; left|].
    rewrite lookup_insert_ne, lookup_singleton_ne in Hk by done. done.
  - intros k Hk. change (fresh_loc demo) with 2%nat. set_solver by lia.
Qed.

End EeDemo.
