(* ===== verification/EeUndo.v ===== *)
(** * ee(1): deleting and undeleting

    What del_char, del_word and del_line take out, undel_char, undel_word and
    undel_line put back. *)

From S2P Require Import Prelude Monad EeState EeEdit EeText EeRep EeMove EeBlock EeLink EeInsert EeWrap EeDelete EeDemo.
From stdpp Require Import base list gmap numbers.
From Stdlib Require Import ZArith Lia.

Open Scope Z_scope.

Module EeUndo.

Import EeState EeEdit EeText EeRep EeMove EeBlock EeLink EeInsert EeWrap EeDelete EeDemo.
Local Open Scope ind_scope.

Section Undo.
Context (junk : Z).

(** ** Characters *)

(** Typing is not reformatted. *)
Definition typing (s : ee) : Prop := observ_margins s = false /\ auto_format s = false /\ expand_tabs s = false.

Lemma typing_quiet s s' : typing s -> quiet s s' -> typing s'.
Proof.
  intros (H1 & H2 & H3) H. unfold typing. rewrite (quiet_field observ_margins _ _ (fun s => eq_refl) H),
    (quiet_field auto_format _ _ (fun s => eq_refl) H), (quiet_field expand_tabs _ _ (fun s => eq_refl) H). done.
Qed.

(** A byte that a line can hold. *)
Definition plain (c : Z) : Prop := 0 <= c < 256 /\ c <> 10.

Lemma wp_undel_char af s d c r (Q : () -> ee -> Prop) :
  Rep s d -> d_char s = c :: 0 :: r -> typing s -> (c = 10 \/ plain c) ->
  (forall s', Rep s' (if c =? 10 then d_newline d else d_insert c d) -> Q tt s') ->
  wp (undel_char junk af) Q noexit s.
Proof.
  intros R Hd (Ht1 & Ht2 & Ht3) Hc H. unfold undel_char. ee_steps. rewrite Hd. cbn [lookup list_lookup of_opt]. ee_steps.
  destruct (Z.eqb_spec c 10) as [->|Hne].
  - eapply wp_mono; [exact (insert_line_edits junk s d true R)|]. intros [] s' [R' _]. by apply H.
  - destruct Hc as [|[Hc _]]; [done|]. ee_steps.
    assert (R1 : Rep (s <| in_ := c |>) d) by (eapply Rep_view; [|exact R]; reflexivity).
    eapply wp_mono; [exact (insert_edits junk af _ d c R1 Hc Ht1 Ht2 (fun _ => Ht3))|]. intros [] s' [R' Hq]. ee_steps.
    assert (E : d_char s' = d_char s) by exact (quiet_field d_char _ _ (fun s => eq_refl) Hq).
    rewrite E, Hd. cbn [lookup list_lookup of_opt]. ee_steps. change (negb (0 =? 0)) with false. ee_steps. by apply H.
Qed.

(** Deleting and inserting again, on documents. *)
Lemma d_delete_insert d c ch :
  col d = S c -> this d !! c = Some ch -> d_insert ch (d_delete d) = d.
Proof.
  intros Ec Hc. unfold d_delete, d_insert. rewrite Ec. cbn [above this col below].
  pose proof (lookup_lt_Some _ _ _ Hc). rewrite take_app_length' by (rewrite length_take; lia).
  rewrite drop_app_length' by (rewrite length_take; lia). rewrite take_drop_middle by done. destruct d. cbn in *. by subst.
Qed.

Lemma d_join_newline d : col d = O -> above d <> [] -> d_newline (d_join d) = d.
Proof.
  intros Ec Ha. destruct d as [[|t ts] x c be]; [done|]. cbn in Ec. subst c. unfold d_join, d_newline. cbn [above this col below].
  by rewrite take_app_length, drop_app_length.
Qed.

(** The two ways to go right. *)
Lemma d_right_cases d :
  (col d <= length (this d))%nat -> (col d < length (this d))%nat \/ below d <> [] ->
  (exists ch, this d !! col d = Some ch /\ d_right d = at_col d (S (col d))) \/
  (col (d_right d) = O /\ above (d_right d) = this d :: above d).
Proof.
  intros Hc H. destruct (decide (col d < length (this d))%nat) as [Hlt|Hge].
  - left. destruct (lookup_lt_is_Some_2 _ _ Hlt) as [ch Hch]. exists ch. split; [done|by apply d_right_inside].
  - right. destruct H as [|H]; [done|]. unfold d_right. rewrite (proj2 (Nat.ltb_ge _ _)) by lia.
    unfold d_next. by destruct (below d).
Qed.


(** ** Words *)

(** The word at the start of a text, with the blanks after it. *)
Definition first_word (t : bytes) : bytes :=
  let (w, r) := span (fun c => negb (is_blank c)) t in w ++ fst (span is_blank r).

Lemma take_run_spec f xs u w i :
  i = Z.of_nat (length u) -> take_run f (length xs) i (u ++ xs ++ w) = Some (fst (span f xs)).
Proof.
  revert u i. induction xs as [|x xs IH]; intros u i Hi; [done|]. cbn [take_run length app span]. rewrite aget_app by done.
  destruct (f x); [|done]. specialize (IH (u ++ [x]) (i + 1)). rewrite <- app_assoc in IH. cbn [app] in IH.
  rewrite IH by (rewrite length_app; cbn; lia). by destruct (span f xs).
Qed.

Lemma first_word_prefix t : exists r, t = first_word t ++ r.
Proof.
  unfold first_word. destruct (span (fun c => negb (is_blank c)) t) as [w r] eqn:E. apply span_app in E as ->.
  destruct (span is_blank r) as [w2 r2] eqn:E2. apply span_app in E2 as ->. exists r2. cbn [fst]. by rewrite app_assoc.
Qed.

Lemma first_word_split t : first_word t ++ drop (length (first_word t)) t = t.
Proof.
  destruct (first_word_prefix t) as [r E]. set (w := first_word t) in *. clearbody w. subst t. by rewrite drop_app_length.
Qed.

Lemma word_here_spec n u xs p position :
  node_ok n (u ++ xs) -> p = Z.of_nat (length u) -> position = 1 + Z.of_nat (length u) ->
  word_here n p position = Some (first_word xs).
Proof.
  intros Hn -> ->. destruct (nk_split _ _ Hn) as (r & Er & Hr & Hmax & Hll). rewrite length_app in *. rewrite <- app_assoc in Er.
  unfold word_here. rewrite Hll, Er. replace (Z.to_nat _) with (length xs) by lia. rewrite take_run_spec by done.
  unfold first_word. destruct (span (fun c => negb (is_blank c)) xs) as [w1 r1] eqn:E. apply span_app in E as ->. cbn [fst].
  rewrite length_app, Nat.add_comm, Nat.add_sub. rewrite <- (app_assoc w1), app_assoc.
  rewrite take_run_spec by (rewrite length_app; lia). destruct (span is_blank r1) as [w2 r2] eqn:E2. apply span_app in E2 as ->.
  cbn [fst]. rewrite !length_app. rewrite (proj2 (Z.leb_le _ _)) by (rewrite !length_app in *; lia). done.
Qed.

Definition d_del_word (d : doc) : doc :=
  with_this d (take (col d) (this d) ++ drop (length (first_word (drop (col d) (this d)))) (drop (col d) (this d))).

Definition d_put_word (w : bytes) (d : doc) : doc :=
  with_this d (take (col d) (this d) ++ w ++ drop (col d) (this d)).

(** The block with the word taken out. *)
Lemma cut_block u w v r b2 :
  (1 <= length r)%nat ->
  exists r', match copy_fwd (length v) (Z.of_nat (length u) + Z.of_nat (length w)) (Z.of_nat (length u)) (u ++ w ++ v ++ r) with
             | Some blk => aset blk (Z.of_nat (length u) + Z.of_nat (length v)) b2
             | None => None
             end = Some ((u ++ v) ++ b2 :: r') /\ S (length r') = (length w + length r)%nat.
Proof.
  intros Hr. destruct (copy_fwd_spec v u w r (Z.of_nat (length u) + Z.of_nat (length w)) (Z.of_nat (length u))) as (w' & -> & Hw); [done|done|].
  destruct w' as [|y w']; [cbn in Hw; lia|]. exists w'. rewrite app_assoc. rewrite aset_app by (rewrite length_app; lia). done.
Qed.

Lemma wp_del_word s d (Q : () -> ee -> Prop) :
  Rep s d ->
  (forall s', Rep s' (d_del_word d) ->
     quiet (s <| d_word := Some (first_word (drop (col d) (this d)) ++ [0]) |>
              <| d_wrd_len := Z.of_nat (length (first_word (drop (col d) (this d)))) |> <| text_changes := true |>) s' -> ends_kept s s' -> Q tt s') ->
  wp del_word Q noexit s.
Proof.
  intros R H. destruct (Rep_cur s d R) as (n & E & Hn & _). pose proof (rp_col _ _ R) as Hc.
  destruct (first_word_prefix (drop (col d) (this d))) as [v Hv]. set (w := first_word (drop (col d) (this d))) in *.
  set (u := take (col d) (this d)). assert (Eu : length u = col d) by (unfold u; rewrite length_take; lia).
  assert (Ht : this d = u ++ w ++ v) by (unfold u; rewrite <- Hv; by rewrite take_drop).
  assert (Hd : d_del_word d = with_this d (u ++ v)).
  { unfold d_del_word. fold w. rewrite Hv, drop_app_length. done. }
  pose proof (rp_point _ _ R) as Hpt. pose proof (rp_pos _ _ R) as Hpos. rewrite <- Eu in Hpt, Hpos.
  unfold del_word. ee_steps. eapply wp_cur; [exact E|]. cbv zeta. apply wp_bind.
  eapply wp_of_opt; [rewrite Ht in Hn; exact (word_here_spec n u (w ++ v) _ _ Hn Hpt Hpos)|].
  rewrite <- Hv. fold w. ee_steps. rewrite Ht in Hn.
  destruct (nk_split _ _ Hn) as (r & Er & Hr & Hmax & Hll). rewrite !length_app in *. rewrite <- !app_assoc in Er.
  destruct (cut_block u w v r 0) as (r' & Ec & Hr'); [done|].
  eapply wp_edit_line; [fld; exact E|fld; rewrite Er, Hll, Hpos, Hpt; replace (Z.to_nat _) with (length v) by lia; exact Ec|]. ee_steps.
  eapply wp_upd; [fld; apply lookup_insert_eq|]. ee_steps. name_state s2.
  set (s1 := s <| d_word := Some (w ++ [0]) |> <| d_wrd_len := Z.of_nat (length w) |>).
  assert (R1 : Rep s1 d) by (eapply Rep_view; [|exact R]; reflexivity).
  set (n2 := n <| line := (u ++ v) ++ 0 :: r' |> <| line_length := line_length n - Z.of_nat (length w) |>).
  assert (R2 : Rep s2 (d_del_word d)).
  { rewrite Hd. apply (Rep_renewed s1 _ d n n2); [exact R1|exact E| | |done|done|rewrite length_app; lia].
    - split; [unfold s2, s1; fld; by rewrite insert_insert_eq|]. split; [reflexivity|same_refl].
    - eapply (nk_make _ _ (0 :: r')); unfold n2; fld; [done|cbn; lia|..]; rewrite ?length_app; cbn [length]; lia. }
  assert (Hq2 : quiet s1 s2) by same_refl.
  assert (He2 : ends_kept s s2).
  { eapply (ends_set _ _ (curr_line s)); [unfold s2; fld; rewrite insert_insert_eq; reflexivity|]. intros _.
    apply (ended_tail n2 (u ++ v) (0 :: r')); [done| |done]. unfold n2. fld. rewrite length_app. lia. }
  clearbody s2.
  eapply wp_redraw_line; [exact R2|]. intros s3 Hs3. ee_steps. apply H.
  - eapply Rep_view; [|exact (Rep_same _ _ _ Hs3 R2)]. reflexivity.
  - assert (Hq3 : quiet s1 s3) by (etransitivity; [exact Hq2|by apply same_quiet]). unfold quiet in *.
    transitivity (settings s3 <| text_changes := true |>); [vm_compute; reflexivity|]. rewrite Hq3. vm_compute; reflexivity.
  - transitivity s2; [exact He2|]. etransitivity; [by apply ends_same|]. by apply ends_heap.
Qed.

(** The saved word and the rest of the line put together and stored back. *)
Lemma put_block w u v r z :
  (length w + 1 <= length r)%nat ->
  exists b r', copy_from (length w) (w ++ z) 0 (malloc junk (1 + Z.of_nat (length (u ++ v)) + Z.of_nat (length w))) 0 = Some b /\
  exists b2 b3, copy_from (length v) (u ++ v ++ r) (Z.of_nat (length u)) b (Z.of_nat (length w)) = Some b2 /\
  aset b2 (Z.of_nat (length w) + Z.of_nat (length v)) 0 = Some b3 /\
  match copy_from (length w + length v) b3 0 (u ++ v ++ r) (Z.of_nat (length u)) with
  | Some blk => aset blk (Z.of_nat (length u) + (Z.of_nat (length w) + Z.of_nat (length v))) 0
  | None => None
  end = Some ((u ++ w ++ v) ++ 0 :: r') /\ (length w + S (length r') = length r)%nat.
Proof.
  intros H. unfold malloc. rewrite length_app.
  replace (Z.to_nat _) with (length w + (length v + (1 + length u)))%nat by lia. rewrite !replicate_add.
  exists (w ++ replicate (length v) junk ++ replicate (1 + length u) junk).
  destruct (drop (length w) r) as [|y r'] eqn:Ed; [apply (f_equal length) in Ed; rewrite length_drop in Ed; cbn in Ed; lia|].
  exists r'. split; [exact (copy_from_spec w [] z [] (replicate (length w) junk) _ 0 0 (length_replicate _ _) eq_refl eq_refl)|].
  exists (w ++ v ++ replicate (1 + length u) junk), ((w ++ v) ++ 0 :: replicate (length u) junk).
  split; [by apply copy_from_spec; [rewrite length_replicate| |]|]. split.
  { rewrite app_assoc. apply aset_app. rewrite length_app. lia. }
  apply (f_equal length) in Ed as Hl. rewrite length_drop in Hl. cbn in Hl. split; [|lia].
  assert (Er : r = take (length w) r ++ y :: r') by (by rewrite <- Ed, take_drop).
  replace (u ++ v ++ r) with (u ++ (v ++ take (length w) r) ++ y :: r') by (rewrite Er at 2; by rewrite <- !app_assoc).
  rewrite <- length_app. rewrite copy_from_spec0 by (rewrite ?length_app, ?length_take; done || lia).
  rewrite app_assoc. rewrite aset_app by (rewrite !length_app; lia). done.
Qed.

Lemma wp_undel_word s d w z (Q : () -> ee -> Prop) :
  Rep s d -> d_word s = Some (w ++ z) -> d_wrd_len s = Z.of_nat (length w) ->
  (forall s', Rep s' (d_put_word w d) -> quiet s s' -> Q tt s') -> wp (undel_word junk) Q noexit s.
Proof.
  intros R Hw Hl H. destruct (Rep_cur s d R) as (n & E & Hn & _). pose proof (rp_col _ _ R) as Hc.
  set (u := take (col d) (this d)). set (v := drop (col d) (this d)).
  assert (Eu : length u = col d) by (unfold u; rewrite length_take; lia).
  assert (Ht : this d = u ++ v) by (unfold u, v; by rewrite take_drop).
  unfold undel_word. ee_steps. eapply wp_cur; [exact E|]. rewrite Hl. cbv zeta. apply wp_bind.
  eapply wp_make_room; [exact R|exact E|lia|]. intros s1 n1 (Hh & Hv & Hq) Hn1 Hp1 Hx1 Hmx _. ee_steps.
  injection Hv as V2 V3 V4 V5 V6 V7 V8 V9 V10.
  assert (E1 : heap s1 !! curr_line s1 = Some n1) by (rewrite Hh, V4; apply lookup_insert_eq).
  eapply wp_cur; [exact E1|]. rewrite Ht in Hn1. destruct (nk_split _ _ Hn1) as (r & Er & Hr & Hmax & Hll).
  assert (Hroom : (length w + 1 <= length r)%nat).
  { pose proof (nk_room _ _ Hn). pose proof (nk_length _ _ Hn). pose proof (nk_max _ _ Hn1) as Hx. rewrite Er, length_app in Hx.
    rewrite Ht in *. rewrite !length_app in *.
    destruct (Z.ltb_spec (max_length n - (line_length n + Z.of_nat (length w))) 5); lia. }
  destruct (put_block w u v r z Hroom) as (b & r' & Eb & b2 & b3 & Eb2 & Eb3 & Ebl & Hr').
  rewrite <- app_assoc in Er. rewrite Hw, Hll, Er, (rp_pos _ _ R), V6, (rp_point _ _ R), <- Eu, Nat2Z.id.
  replace (Z.to_nat _) with (length v) by (rewrite length_app; lia).
  apply wp_bind. eapply wp_of_opt; [exact Eb|]. apply wp_bind. eapply wp_of_opt; [exact Eb2|].
  apply wp_bind. eapply wp_of_opt; [exact Eb3|]. replace (Z.to_nat _) with (length w + length v)%nat by lia.
  apply wp_bind. eapply wp_edit_line; [rewrite <- V4; exact E1|rewrite Er; exact Ebl|].
  apply wp_bind. eapply wp_upd; [fld; apply lookup_insert_eq|]. name_state s2.
  set (n2 := n1 <| line := (u ++ w ++ v) ++ 0 :: r' |> <| line_length := line_length n1 + Z.of_nat (length w) |>).
  assert (R2 : Rep s2 (d_put_word w d)).
  { apply (Rep_renewed s _ d n n2 (u ++ w ++ v)); [exact R|exact E| | |done|done|rewrite length_app; lia].
    - split; [unfold s2; fld; by rewrite Hh, !insert_insert_eq|]. split; [unfold view, s2; cbn [snd]; fld; congruence|].
      etransitivity; [exact Hq|same_refl].
    - eapply (nk_make _ _ (0 :: r')); unfold n2; fld; [done|cbn; lia|..]; rewrite ?length_app in *; cbn [length]; lia. }
  assert (Hq2 : quiet s s2) by (etransitivity; [exact Hq|same_refl]). clearbody s2.
  eapply wp_redraw_line; [exact R2|]. intros s3 Hs3. apply H; [by eapply Rep_same|]. etransitivity; [exact Hq2|by apply same_quiet].
Qed.

(** The word deleted with del_word and put back with undel_word gives the same text
    with the cursor at the same place. *)
Theorem undel_word_restores s d : Rep s d -> wp (del_word ;; undel_word junk) (fun _ s' => Rep s' d) noexit s.
Proof.
  intros R. apply wp_bind, (wp_del_word _ _ _ R). intros s1 R1 Hq1 _.
  eapply wp_undel_word; [exact R1|exact (quiet_field d_word _ _ (fun s => eq_refl) Hq1)|exact (quiet_field d_wrd_len _ _ (fun s => eq_refl) Hq1)|].
  intros s2 R2 _. assert (Hd : d_put_word (first_word (drop (col d) (this d))) (d_del_word d) = d); [|by rewrite Hd in R2].
  pose proof (rp_col _ _ R). unfold d_put_word, d_del_word, with_this. cbn [above this col below].
  rewrite take_app_length', drop_app_length' by (rewrite length_take; lia).
  rewrite first_word_split, take_drop. by destruct d.
Qed.

(** ** Lines *)

(** The line cut at the cursor; what follows is what the line below held. *)
Definition d_del_line (d : doc) : doc :=
  match below d with
  | [] => with_this d (take (col d) (this d))
  | x :: be => Doc (above d) (take (col d) (this d) ++ x) (col d) be
  end.

(** A text put at the cursor, and the line cut after it. *)
Definition d_put_line (v : bytes) (d : doc) : doc :=
  Doc (above d) (take (col d) (this d) ++ v) (col d) (drop (col d) (this d) :: below d).

(** right(FALSE) at the end of a line. *)
Lemma wp_right_next s d x be (Q : () -> ee -> Prop) :
  Rep s d -> col d = length (this d) -> below d = x :: be ->
  (forall s', Rep s' (d_next d) -> quiet s s' -> Q tt s') -> wp (right false) Q noexit s.
Proof.
  intros R Ec Eb H. destruct (Rep_next s d x be R Eb) as (n & l & En & El & _ & R').
  destruct (Rep_cur s d R) as (n0 & En0 & Hn & _). assert (n0 = n) as -> by congruence.
  unfold right. ee_steps. eapply wp_cur; [exact En|]. rewrite (nk_length _ _ Hn), (rp_pos _ _ R), Ec, Z.ltb_irrefl, El. cbn [negb].
  ee_steps. apply H; [|same_refl]. eapply Rep_view; [|exact R']. reflexivity.
Qed.

(** The rest of the line saved and cut off. *)
Lemma cut_rest u v r :
  exists z, match copy_from (length v) (u ++ v ++ r) (Z.of_nat (length u)) (malloc junk (1 + Z.of_nat (length (u ++ v)))) 0 with
            | Some d => aset d (Z.of_nat (length v)) 0
            | None => None
            end = Some (v ++ 0 :: z).
Proof.
  unfold malloc. rewrite length_app. replace (Z.to_nat _) with (length v + S (length u))%nat by lia. rewrite replicate_add.
  pose proof (copy_from_spec v u r [] (replicate (length v) junk) (replicate (S (length u)) junk) _ 0 (length_replicate _ _) eq_refl eq_refl) as Ec.
  rewrite !app_nil_l in Ec. rewrite Ec. exists (replicate (length u) junk). by apply aset_app.
Qed.

Lemma wp_del_line s d (Q : () -> ee -> Prop) :
  Rep s d -> in_ s <> 8 ->
  (forall s' z, Rep s' (d_del_line d) ->
     quiet (s <| d_line := Some (drop (col d) (this d) ++ z) |>
              <| dlt_length := 1 + Z.of_nat (length (drop (col d) (this d))) |> <| text_changes := true |>) s' -> Q tt s') ->
  wp (del_line junk) Q noexit s.
Proof.
  intros R Hin H. destruct (Rep_cur s d R) as (n & E & Hn & Hnext & _). pose proof (rp_col _ _ R) as Hc.
  unfold d_del_line in H. set (u := take (col d) (this d)) in *. set (v := drop (col d) (this d)) in *.
  assert (Eu : length u = col d) by (unfold u; rewrite length_take; lia).
  assert (Ht : this d = u ++ v) by (unfold u, v; by rewrite take_drop).
  unfold del_line. ee_steps. eapply wp_cur; [exact E|]. rewrite Ht in Hn.
  destruct (nk_split _ _ Hn) as (r & Er & Hr & Hmax & Hll). rewrite <- app_assoc in Er.
  rewrite Er, Hll, (rp_pos _ _ R), (rp_point _ _ R), <- Eu. replace (Z.to_nat _) with (length v) by (rewrite length_app; lia).
  destruct (cut_rest u v r) as [z Ez]. apply wp_bind. eapply wp_of_opt; [exact Ez|]. ee_steps.
  assert (Hb : exists y rest, v ++ r = y :: rest) by (destruct v, r; cbn in *; eauto; lia). destruct Hb as (y & rest & Hb).
  eapply (wp_poke _ _ _ n (u ++ 0 :: rest)); [fld; exact E|rewrite Er, Hb; by apply aset_app|]. ee_steps.
  eapply wp_upd; [fld; apply lookup_insert_eq|]. ee_steps. name_state s2.
  set (s1 := s <| d_line := Some (v ++ 0 :: z) |> <| dlt_length := 1 + Z.of_nat (length v) |>).
  set (n2 := n <| line := u ++ 0 :: rest |> <| line_length := 1 + Z.of_nat (length u) |>).
  assert (R2 : Rep s2 (with_this d u)).
  { apply (Rep_renewed s1 _ d n n2 u); [eapply Rep_view; [|exact R]; reflexivity|exact E| | |done|done|lia].
    - split; [unfold s2, s1; fld; by rewrite insert_insert_eq|]. split; [reflexivity|same_refl].
    - eapply (nk_make _ _ (0 :: rest)); unfold n2; fld; [done|cbn; lia| |done].
      apply (f_equal length) in Hb. rewrite !length_app in *. cbn [length] in *. lia. }
  assert (Hq2 : quiet s1 s2) by same_refl. clearbody s2. destruct (below d) as [|x be] eqn:Eb.
  - rewrite (proj2 Hnext eq_refl). ee_steps. eapply (H _ (0 :: z)); [eapply Rep_view; [|exact R2]; reflexivity|].
    unfold quiet in *. transitivity (settings s2 <| text_changes := true |>); [vm_compute; reflexivity|]. rewrite Hq2. vm_compute; reflexivity.
  - destruct (next_line n) as [l|]; [|discriminate (proj1 Hnext eq_refl)]. ee_steps.
    eapply wp_right_next; [exact R2|cbn; lia|exact Eb|]. intros s3 R3 Hq3. ee_steps.
    eapply (deletes_after s1); [etransitivity; [exact Hq2|exact Hq3]|apply delete_deletes; [exact R3|right; unfold d_next; cbn; by rewrite Eb]|].
    intros s4 R4 Hq4. ee_steps.
    assert (Ed : d_delete (d_next (with_this d u)) = Doc (above d) (u ++ x) (col d) be)
      by (unfold d_next, with_this; cbn [below above]; rewrite Eb; unfold d_delete, d_join; cbn; by rewrite Eu).
    rewrite Ed in R4. apply (H _ (0 :: z)); [eapply Rep_view; [|exact R4]; reflexivity|].
    assert (Es : saved s1 (d_removed (d_next (with_this d u))) = d_char s) by (unfold saved; by rewrite (proj2 (Z.eqb_neq (in_ s1) 8))).
    rewrite Es in Hq4. unfold quiet in *. transitivity (settings s4 <| text_changes := true |>); [vm_compute; reflexivity|].
    rewrite Hq4. vm_compute; reflexivity.
Qed.

Lemma wp_undel_line s d v z (Q : () -> ee -> Prop) :
  Rep s d -> d_line s = Some (v ++ z) -> dlt_length s = 1 + Z.of_nat (length v) ->
  (forall s', Rep s' (d_put_line v d) -> quiet (s <| text_changes := true |>) s' -> Q tt s') -> wp (undel_line junk) Q noexit s.
Proof.
  intros R Hv Hl H. pose proof (rp_col _ _ R) as Hc. unfold undel_line. ee_steps. rewrite (proj2 (Z.eqb_neq (dlt_length s) 0)) by lia.
  apply wp_bind. eapply wp_mono; [exact (insert_line_edits junk s d true R)|]. intros [] s1 [R1 Hq1].
  apply wp_bind. eapply wp_mono; [exact (left_moves s1 _ R1)|]. intros [] s2 [R2 Hq2].
  set (u := take (col d) (this d)) in *. set (w := drop (col d) (this d)) in *.
  assert (Eu : length u = col d) by (unfold u; rewrite length_take; lia).
  change (d_left (d_newline d)) with (Doc (above d) u (length u) (w :: below d)) in R2.
  assert (Hq : quiet (s <| text_changes := true |>) s2) by (etransitivity; [exact Hq1|exact Hq2]). clear R1 Hq1 Hq2.
  destruct (Rep_cur s2 _ R2) as (n & E & Hn & _). pose proof (rp_pos _ _ R2) as Hpos. cbn [col this] in *.
  destruct (nk_split _ _ Hn) as (r & Er & Hr & Hmax & Hll).
  ee_steps. eapply wp_resiz_line; [exact E|lia|lia|]. ee_steps.
  destruct (realloc_app junk (line n) (max_length n + dlt_length s)) as (r2 & -> & Hr2); [rewrite Er, length_app; lia|].
  eapply wp_upd; [fld; apply lookup_insert_eq|]. ee_steps.
  assert (Edl : d_line s2 = Some (v ++ z)) by (rewrite (quiet_field d_line _ _ (fun s => eq_refl) Hq); exact Hv).
  eapply wp_of_opt; [exact Edl|]. apply wp_bind. rewrite Er, length_app in Hr2.
  destruct (append_block [] u v (r ++ r2) z 0) as (r' & Ej & Hr'); [rewrite length_app; lia|].
  eapply wp_edit_line; [fld; apply lookup_insert_eq|fld; rewrite Er, Hpos, <- app_assoc, Hl;
    replace (Z.to_nat _) with (length v) by lia; replace (1 + Z.of_nat (length u) - 1) with (Z.of_nat (length u)) by lia; exact Ej|].
  name_state s3. set (n2 := n <| max_length := max_length n + dlt_length s |> <| line := (u ++ v) ++ 0 :: r' |>
                               <| line_length := line_length n + (dlt_length s - 1) |>).
  assert (R3 : Rep s3 (d_put_line v d)).
  { unfold d_put_line. fold u w. rewrite <- Eu. change (Doc _ _ _ _) with (with_this (Doc (above d) u (length u) (w :: below d)) (u ++ v)).
    apply (Rep_renewed s2 _ _ n n2 (u ++ v)); [exact R2|exact E| | |done|done|cbn; rewrite length_app; lia].
    - split; [unfold s3; fld; rewrite !insert_insert_eq; reflexivity|]. split; [|same_refl].
      pose proof (rp_point _ _ R2) as Hpt. cbn [col] in Hpt. unfold view, s3. cbn [snd]. fld. do 5 f_equal. lia.
    - eapply (nk_make _ _ (0 :: r')); unfold n2; fld; [done|cbn; lia|..]; rewrite ?length_app in *; cbn [length]; lia. }
  assert (Hq3 : quiet (s <| text_changes := true |>) s3) by (etransitivity; [exact Hq|same_refl]). clearbody s3.
  eapply wp_redraw_line; [exact R3|]. intros s4 Hs4. apply H; [by eapply Rep_same|]. etransitivity; [exact Hq3|by apply same_quiet].
Qed.

(** C32. The rest of the line deleted with del_line and put back with undel_line gives the
    same text with the cursor at the same place, when there is a line below. *)
Theorem undel_line_restores s d :
  Rep s d -> below d <> [] -> in_ s <> 8 -> wp (del_line junk ;; undel_line junk) (fun _ s' => Rep s' d) noexit s.
Proof.
  intros R Hb Hin. apply wp_bind, (wp_del_line _ _ _ R Hin). intros s1 z R1 Hq1.
  eapply wp_undel_line; [exact R1|exact (quiet_field d_line _ _ (fun s => eq_refl) Hq1)|exact (quiet_field dlt_length _ _ (fun s => eq_refl) Hq1)|].
  intros s2 R2 _. assert (Hd : d_put_line (drop (col d) (this d)) (d_del_line d) = d); [|by rewrite Hd in R2].
  pose proof (rp_col _ _ R). unfold d_del_line, d_put_line. destruct d as [ab t c [|x be]]; [done|]. cbn [above this col below] in *.
  rewrite take_app_length', drop_app_length' by (rewrite length_take; lia). by rewrite take_drop.
Qed.

(** On the last line the undeleted text is followed by a new empty line. *)
Lemma undel_line_adds s d :
  Rep s d -> below d = [] -> in_ s <> 8 ->
  wp (del_line junk ;; undel_line junk) (fun _ s' => Rep s' (Doc (above d) (this d) (col d) [[]])) noexit s.
Proof.
  intros R Hb Hin. apply wp_bind, (wp_del_line _ _ _ R Hin). intros s1 z R1 Hq1.
  eapply wp_undel_line; [exact R1|exact (quiet_field d_line _ _ (fun s => eq_refl) Hq1)|exact (quiet_field dlt_length _ _ (fun s => eq_refl) Hq1)|].
  intros s2 R2 _. pose proof (rp_col _ _ R). unfold d_del_line, d_put_line in R2. destruct d as [ab t c be]. cbn [below] in Hb. subst be.
  cbn [above this col below with_this] in *. rewrite take_take, Nat.min_id, take_drop in R2. rewrite drop_ge in R2 by (rewrite length_take; lia). exact R2.
Qed.

(** undel_word changes the text and leaves the flag text_changes, by which quit
    asks before it throws changes away, as it was. *)
Theorem undel_word_unmarked s d w z :
  Rep s d -> d_word s = Some (w ++ z) -> d_wrd_len s = Z.of_nat (length w) -> w <> [] -> text_changes s = false ->
  wp (undel_word junk) (fun _ s' => exists d', Rep s' d' /\ lines_of d' <> lines_of d /\ text_changes s' = false) noexit s.
Proof.
  intros R Hw Hl Hne Ht. apply (wp_undel_word s d w z _ R Hw Hl). intros s' R' Hq. exists (d_put_word w d). split; [exact R'|]. split.
  - unfold lines_of, d_put_word, with_this. cbn [above this below]. intros E. apply app_inv_head in E. injection E as E.
    apply (f_equal length) in E. pose proof (rp_col _ _ R). rewrite !length_app, length_take, length_drop in E. destruct w; [done|]. cbn in E. lia.
  - rewrite <- Ht. exact (quiet_field text_changes _ _ (fun s => eq_refl) Hq).
Qed.
End Undo.


Lemma undel_word_witness : wp (del_word ;; undel_word 0) (fun _ s' => Rep s' demo_doc) noexit demo.
Proof. apply (undel_word_restores 0 demo demo_doc). exact Rep_demo. Defined.

Lemma undel_line_witness : wp (del_line 0 ;; undel_line 0) (fun _ s' => Rep s' demo_doc) noexit demo.
Proof. apply (undel_line_restores 0 demo demo_doc); [exact Rep_demo|discriminate|vm_compute; lia]. Defined.

(** The state after a word was deleted and the file saved. *)
Definition demo_saved : ee := demo <| d_word := Some [120; 0] |> <| d_wrd_len := 1 |>.

Lemma undel_word_unmarked_witness :
  wp (undel_word 0) (fun _ s' => exists d', Rep s' d' /\ lines_of d' <> lines_of demo_doc /\ text_changes s' = false) noexit demo_saved.
Proof.
  apply (undel_word_unmarked 0 demo_saved demo_doc [120] [0]); try reflexivity; [|discriminate].
  eapply Rep_view; [|exact Rep_demo]. reflexivity.
Defined.
End EeUndo.
