(* ===== verification/EeWalk.v ===== *)
(** * ee(1): moving by words, lines and pages

    The moves of EeEdit that are loops of the single steps of EeMove, and the document
    after each. *)

From S2P Require Import Prelude Monad EeState EeEdit EeText EeKeeps EeRep EeMove EeBlock EeLink EeInsert EeWrap EeDelete EeUndo.
From stdpp Require Import base list gmap numbers.
From Stdlib Require Import ZArith Lia.

Open Scope Z_scope.

Module EeWalk.

Import EeState EeEdit EeText EeKeeps EeRep EeMove EeBlock EeLink EeInsert EeWrap EeDelete EeUndo.
Local Open Scope ind_scope.

(** ** Moves along a line *)

Definition run (f : Z -> bool) (t : bytes) : nat := length (span f t).1.

Lemma run_step f t c ch : t !! c = Some ch -> run f (drop c t) = if f ch then S (run f (drop (S c) t)) else O.
Proof.
  intros H. unfold run. rewrite (drop_S t ch c H). cbn [span]. destruct (f ch); [|done].
  by destruct (span f (drop (S c) t)).
Qed.

Lemma right_while_moves f s d :
  Rep s d -> moves (right_while f) s (at_col d (col d + run f (drop (col d) (this d)))).
Proof.
  intros R. destruct (Rep_cur s d R) as (n & E & Hn & _). unfold moves, right_while. apply wp_bind. eapply wp_cur; [exact E|].
  rewrite (nk_length _ _ Hn). set (tgt := (col d + run f (drop (col d) (this d)))%nat).
  eapply (wp_while (fun k s' => exists c, Rep s' (at_col d c) /\ quiet s s' /\ (c + run f (drop c (this d)))%nat = tgt /\ k = (length (this d) - c)%nat)
    _ _ _ _ _ (length (this d) - col d)); [exists (col d); destruct d; split_and!; done|lia|].
  clear n E Hn. intros k s1 (c & R1 & Hq1 & Hc & ->). destruct (Rep_cur s1 _ R1) as (n & E & Hn & _). pose proof (rp_pos _ _ R1) as Hp.
  pose proof (nk_length _ _ Hn) as Hl. cbn [at_col this col] in Hp, Hl, Hn. ee_steps. eapply wp_cur; [exact E|].
  destruct (Z.ltb_spec (position s1) (line_length n)) as [Hlt|Hge].
  - destruct (lookup_lt_is_Some_2 (this d) c) as [ch Hch]; [lia|]. apply wp_bind.
    eapply wp_peek_cur; [exact E|exact (Rep_byte s1 (at_col d c) n ch R1 E Hch)|]. apply wp_ret. rewrite (run_step f _ _ ch Hch) in Hc.
    destruct (f ch).
    + exists (length (this d) - S c)%nat. split; [lia|]. eapply wp_mono; [exact (right_moves s1 _ R1)|]. intros [] s2 [R2 Hq2].
      exists (S c). rewrite d_right_inside in R2 by (cbn; lia). split_and!; [exact R2|by transitivity s1|lia|lia].
    + rewrite Nat.add_0_r in Hc. subst c. split; [exact R1|exact Hq1].
  - apply wp_ret. pose proof (rp_col _ _ R1) as Hcol. cbn in Hcol. assert (c = length (this d)) as -> by lia.
    rewrite drop_all in Hc. cbn in Hc. rewrite Nat.add_0_r in Hc. rewrite Hc in R1. split; [exact R1|exact Hq1].
Qed.

Definition d_eol (d : doc) : doc := let d := (if (col d <? length (this d))%nat then d else d_next d) in at_col d (length (this d)).

Lemma run_all t : run (fun _ => true) t = length t.
Proof. unfold run. rewrite span_all_nil; [done|]. by induction t. Qed.

Lemma moves_trans m1 m2 s d1 d2 :
  moves m1 s d1 -> (forall s', Rep s' d1 -> moves m2 s' d2) -> moves (m1 ;; m2) s d2.
Proof.
  intros H1 H2. apply wp_bind. eapply wp_mono; [exact H1|]. intros [] s1 [R1 Hq1]. eapply wp_mono; [exact (H2 s1 R1)|].
  intros [] s2 [R2 Hq2]. split; [exact R2|by transitivity s1].
Qed.

Lemma to_end_moves s d : Rep s d -> moves (right_while (fun _ => true)) s (at_col d (length (this d))).
Proof.
  intros R. pose proof (right_while_moves (fun _ => true) s d R) as H. pose proof (rp_col _ _ R). rewrite run_all, length_drop in H.
  by replace (col d + (length (this d) - col d))%nat with (length (this d)) in H by lia.
Qed.

Lemma eol_moves s d : Rep s d -> moves eol s (d_eol d).
Proof.
  intros R. destruct (Rep_cur s d R) as (n & E & Hn & Hnext & _). unfold eol, d_eol. unfold moves. ee_steps. eapply wp_cur; [exact E|].
  rewrite (nk_length _ _ Hn), (rp_pos _ _ R). destruct (Nat.ltb_spec (col d) (length (this d))) as [Hlt|Hge].
  - rewrite (proj2 (Z.ltb_lt _ _)) by lia. by apply to_end_moves.
  - rewrite (proj2 (Z.ltb_ge _ _)) by lia. destruct (next_line n) eqn:En.
    + apply (moves_trans _ _ s (d_next d)); [|intros s1 R1; exact (to_end_moves s1 _ R1)].
      pose proof (right_moves s d R) as H. unfold d_right in H. by rewrite (proj2 (Nat.ltb_ge _ _)) in H by lia.
    + apply wp_ret. split; [|reflexivity]. unfold d_next. rewrite (proj1 Hnext eq_refl). pose proof (rp_col _ _ R).
      replace (length (this d)) with (col d) by lia. by destruct d.
Qed.

Lemma adv_word_moves s d : Rep s d -> moves adv_word s (at_col d (col d + length (first_word (drop (col d) (this d))))).
Proof.
  intros R. unfold adv_word. eapply moves_trans; [exact (right_while_moves _ s d R)|]. intros s1 R1.
  pose proof (right_while_moves is_blank s1 _ R1) as H. rewrite at_col_col in H. cbn [at_col col this] in H.
  replace (col d + length (first_word (drop (col d) (this d))))%nat with
    (col d + run (fun c => negb (is_blank c)) (drop (col d) (this d)) +
      run is_blank (drop (col d + run (fun c => negb (is_blank c)) (drop (col d) (this d))) (this d)))%nat; [exact H|].
  unfold first_word, run. rewrite <- drop_drop. destruct (span (fun c => negb (is_blank c)) (drop (col d) (this d))) as [w r] eqn:Es.
  apply span_app in Es as ->. cbn [fst]. rewrite drop_app_length, length_app. lia.
Qed.

(** ** Between lines *)

(** find_pos from the start of a line: to the column aimed at, or the end of the line. *)
Lemma wp_find_pos s d (Q : () -> ee -> Prop) :
  Rep (s <| position := 1 |>) (at_col d 0) ->
  (forall s' c, Rep s' (at_col d c) -> quiet s s' -> (scr_pos s = 0 -> c = O) -> Q tt s') -> wp find_pos Q noexit s.
Proof.
  intros R H. unfold find_pos. ee_steps. destruct (Rep_cur _ _ R) as (n & E & Hn & _). eapply wp_cur; [exact E|].
  rewrite (nk_length _ _ Hn). name_state s1. cbn [at_col this] in *. apply wp_bind.
  eapply (wp_while (fun k s' => exists c, Rep s' (at_col d c) /\ quiet s s' /\ scr_pos s' = scr_pos s /\
      (c <> O -> scr_pos s <> 0) /\ (c = O -> scr_horz s' = 0) /\ k = (length (this d) - c)%nat)
    _ _ _ _ _ (length (this d))); [exists O; split_and!; [eapply Rep_view; [|exact R]; reflexivity|same_refl|reflexivity|done|done|lia]|lia|].
  clear n E Hn. clearbody s1. intros k s2 (c & R2 & Hq2 & Hsp & Hc0 & Hh & ->). destruct (Rep_cur s2 _ R2) as (n & E & Hn & _).
  pose proof (rp_pos _ _ R2) as Hp. pose proof (nk_length _ _ Hn) as Hl. cbn [at_col this col] in Hp, Hl, Hn. ee_steps. eapply wp_cur; [exact E|].
  apply wp_ret. destruct ((scr_horz s2 <? scr_pos s2) && (position s2 <? line_length n)) eqn:Hb; bsimp.
  - exists (length (this d) - S c)%nat. split; [lia|]. unfold find_pos_step.
    destruct (lookup_lt_is_Some_2 (this d) c) as [ch Hch]; [lia|]. apply wp_bind.
    eapply wp_peek_cur; [exact E|exact (Rep_byte s2 (at_col d c) n ch R2 E Hch)|]. unfold wide_here. ee_steps. rewrite (rp_narrow _ _ R2). ee_steps.
    assert (Hstep : forall v, exists c', Rep (s2 <| scr_horz := v |> <| point := point s2 + 1 |> <| position := position s2 + 1 |>) (at_col d c') /\
      quiet s (s2 <| scr_horz := v |> <| point := point s2 + 1 |> <| position := position s2 + 1 |>) /\ scr_pos s2 = scr_pos s /\
      (c' <> O -> scr_pos s <> 0) /\ (c' = O -> v = 0) /\ (length (this d) - S c)%nat = (length (this d) - c')%nat).
    { intros v. exists (S c). split_and!; [|etransitivity; [exact Hq2|same_refl]|done| |done|done].
      - eapply Rep_view; [|exact (Rep_step s2 (at_col d c) 1 (S c) R2 ltac:(cbn; lia) ltac:(cbn; lia))]. reflexivity.
      - intros _ Hz. destruct c; [|by apply Hc0]. rewrite Hh in * by done. lia. }
    repeat (apply wp_if; intros _); ee_steps; apply Hstep.
  - assert (Hend : forall s', same s2 s' -> Q tt s').
    { intros s' Hs. apply (H s' c); [by eapply Rep_same|etransitivity; [exact Hq2|by apply same_quiet]|]. intros Hz.
      destruct c; [done|]. by destruct (Hc0 ltac:(done)). }
    ee_steps. apply wp_if; intros _; [|apply wp_if; intros _; [|ee_steps; by apply Hend]].
    all: match goal with |- wp (bind (sets horiz_offset ?v) _) _ _ _ => apply (wp_scroll true v (scr_vert s2) s2 (at_col d c)); [exact R2|exact Hend] end.
Qed.

Lemma wp_up s d (Q : () -> ee -> Prop) :
  Rep s d ->
  (forall s' c, Rep s' (if above d is [] then d else at_col (d_prev d) c) -> quiet s s' -> (scr_pos s = 0 -> c = O) -> Q tt s') ->
  wp up Q noexit s.
Proof.
  intros R H. destruct (Rep_cur s d R) as (n & E & Hn & _ & Hprev). unfold up. apply wp_bind. eapply wp_cur; [exact E|].
  destruct (above d) as [|t ts] eqn:Ea.
  - rewrite (proj2 Hprev eq_refl). apply wp_ret. apply (H s O); [exact R|reflexivity|done].
  - destruct (prev_line n) as [l|]; [|discriminate (proj1 Hprev eq_refl)]. assert (Hne : above d <> []) by (by rewrite Ea).
    ee_steps. eapply wp_mono; [exact (wp_keeps _ _ _ _ _ keeps_prevline (prevline_moves s d R Hne))|].
    intros [] s1 [[R1 Hq1] Hs1]. ee_steps. eapply wp_find_pos.
    + eapply Rep_view; [|exact (Rep_cursor s1 _ 0 R1 ltac:(lia))]. reflexivity.
    + intros s2 c R2 Hq2 Hc. apply (H s2 c); [exact R2|etransitivity; [exact Hq1|etransitivity; [|exact Hq2]]; same_refl|].
      intros Hz. apply Hc. fld. injection Hs1 as _ _ _ Hp. by rewrite Hp.
Qed.

Lemma wp_down s d (Q : () -> ee -> Prop) :
  Rep s d ->
  (forall s' c, Rep s' (if below d is [] then d else at_col (d_next d) c) -> quiet s s' -> (scr_pos s = 0 -> c = O) -> Q tt s') ->
  wp down Q noexit s.
Proof.
  intros R H. destruct (Rep_cur s d R) as (n & E & Hn & Hnext & _). unfold down. apply wp_bind. eapply wp_cur; [exact E|].
  destruct (below d) as [|t ts] eqn:Eb.
  - rewrite (proj2 Hnext eq_refl). apply wp_ret. apply (H s O); [exact R|reflexivity|done].
  - destruct (next_line n) as [l|]; [|discriminate (proj1 Hnext eq_refl)]. ee_steps.
    assert (Hne : below d <> []) by (by rewrite Eb).
    eapply wp_mono; [exact (wp_keeps _ _ _ _ _ keeps_nextline (nextline_moves s d R Hne))|]. intros [] s1 [[R1 Hq1] Hs1]. eapply (wp_find_pos s1 (d_next d)).
    + eapply Rep_view; [|exact (Rep_cursor s1 _ 0 R1 ltac:(lia))]. unfold view. fld.
      rewrite (rp_point _ _ R1). unfold d_next. rewrite Eb. reflexivity.
    + intros s2 c R2 Hq2 Hc. apply (H s2 c); [exact R2|by transitivity s1|]. intros Hz. apply Hc. injection Hs1 as _ _ _ Hp. by rewrite Hp.
Qed.

Definition d_bol (d : doc) : doc := if decide (col d = O) then (if above d is [] then d else at_col (d_prev d) 0) else at_col d 0.

Lemma bol_moves s d : Rep s d -> wp bol (fun _ s' => Rep s' (d_bol d) /\ quiet s s') noexit s.
Proof.
  intros R. unfold bol, d_bol. ee_steps. rewrite (rp_point _ _ R). case_decide as Hc.
  - rewrite Hc. change (negb (Z.of_nat 0 =? 0)) with false. cbv iota. destruct (Rep_cur s d R) as (n & E & Hn & _ & Hprev).
    apply wp_bind. eapply wp_cur; [exact E|]. destruct (prev_line n) as [l|].
    + ee_steps. eapply (wp_up _ d); [eapply Rep_view; [|exact R]; reflexivity|]. intros s' c R' Hq Hz. rewrite (Hz eq_refl) in R'.
      split; [exact R'|]. etransitivity; [|exact Hq]. same_refl.
    + apply wp_ret. rewrite (proj1 Hprev eq_refl). split; [exact R|reflexivity].
  - rewrite (proj2 (Z.eqb_neq _ 0)) by lia. cbn [negb]. rewrite Nat2Z.id.
    eapply (wp_while (fun k s' => Rep s' (at_col d k) /\ quiet s s') _ _ _ _ _ (col d)); [destruct d; done|lia|].
    intros k s1 [R1 Hq1]. ee_steps. rewrite (rp_point _ _ R1). cbn [at_col col]. destruct k as [|k].
    + split; [exact R1|exact Hq1].
    + rewrite (proj2 (Z.eqb_neq _ 0)) by lia. exists k. split; [done|]. eapply wp_mono; [exact (left_moves s1 _ R1)|].
      intros [] s2 [R2 Hq2]. split; [exact R2|by transitivity s1].
Qed.

(** ** The ends of the text *)

Definition d_top (d : doc) : doc := if lines_of d is t :: ts then Doc [] t 0 ts else d.
Definition d_bottom (d : doc) : doc := if reverse (lines_of d) is t :: ts then Doc ts t 0 [] else d.

Lemma lines_prev d c : lines_of (at_col (d_prev d) c) = lines_of d.
Proof. destruct d as [[|t ts] x k be]; [done|]. unfold lines_of. cbn [d_prev at_col above this below]. by rewrite reverse_cons, <- app_assoc. Qed.

Lemma lines_next d c : lines_of (at_col (d_next d) c) = lines_of d.
Proof. destruct d as [ab x k [|t ts]]; [done|]. unfold lines_of. cbn [d_next at_col above this below]. by rewrite reverse_cons, <- app_assoc. Qed.

Lemma upw_length h c ls ts : upw h c ls ts -> length ls = length ts.
Proof. revert c ts. induction ls as [|l ls IH]; intros c [|t ts]; cbn; try done. intros (n & _ & _ & _ & _ & H). by erewrite IH. Qed.

Lemma dnw_length h c ls ts : dnw h c ls ts -> length ls = length ts.
Proof. revert c ts. induction ls as [|l ls IH]; intros c [|t ts]; cbn; try done. intros (n & _ & _ & _ & _ & H). by erewrite IH. Qed.

(** The bound on the loops over the lines is enough. *)
Lemma Rep_size s d : Rep s d -> (length (above d) + length (below d) < size (heap s))%nat.
Proof.
  intros [(up & dn & n & P & _) _ _ _ _ _ _]. pose proof (placed_count _ _ _ _ _ _ _ P) as H. cbn [length] in H. rewrite length_app in H.
  rewrite (upw_length _ _ _ _ (pl_up _ _ _ _ _ _ _ P)), (dnw_length _ _ _ _ (pl_dn _ _ _ _ _ _ _ P)) in H. lia.
Qed.

(** The cursor at the start of the line, its place not yet set. *)
Definition at_line (s : ee) (d : doc) : Prop := Rep (s <| point := 0 |> <| position := 1 |>) d /\ col d = O.

Lemma at_line_start s d : Rep s d -> at_line s (at_col d 0).
Proof. intros R. split; [|done]. eapply Rep_view; [|exact (Rep_cursor s d 0 R ltac:(lia))]. reflexivity. Qed.

(** The end of top and bottom. *)
Lemma wp_at_end s0 s d line (Q : () -> ee -> Prop) :
  at_line s d -> quiet s0 s -> (forall s', Rep s' d -> quiet s0 s' -> Q tt s') ->
  wp (modify (fun s => s <| point := 0 |> <| horiz_offset := 0 |> <| position := 1 |>) ;;
      let! s := get in midscreen (line s) (point s) ;; sync_pos) Q noexit s.
Proof.
  intros [R Hc] Hq H. ee_steps. eapply wp_midscreen_Rep; [eapply Rep_view; [|exact R]; reflexivity|]. intros s1 Hs1. ee_steps.
  assert (Hs : same (s <| point := 0 |> <| position := 1 |>) (s1 <| scr_pos := scr_horz s1 |>)).
  { etransitivity; [|transitivity s1; [exact Hs1|same_refl]]. same_refl. }
  apply H; [by eapply Rep_same|]. transitivity s; [exact Hq|]. etransitivity; [|by apply same_quiet]. same_refl.
Qed.

Lemma top_moves s d : Rep s d -> moves top s (d_top d).
Proof.
  intros R. unfold moves, top, lines_bound. ee_steps. pose proof (Rep_size s d R) as Hsz.
  eapply (wp_while (fun k s' => exists d', at_line s' d' /\ quiet s s' /\ lines_of d' = lines_of d /\ k = length (above d'))
    _ _ _ _ _ (length (above d))); [exists (at_col d 0); split_and!; [by apply at_line_start|reflexivity|done|done]|lia|].
  intros k s1 (d1 & [R1 Hc1] & Hq1 & Hl1 & ->). destruct (above d1) as [|t ts] eqn:Ea.
  - destruct (Rep_cur _ _ R1) as (n & E & _ & _ & Hprev). apply wp_bind. eapply wp_cur; [exact E|]. rewrite (proj2 Hprev Ea). apply wp_ret.
    eapply wp_at_end; [split; [exact R1|exact Hc1]|exact Hq1|]. intros s2 R2 Hq2. split; [|exact Hq2].
    unfold d_top. rewrite <- Hl1. destruct d1. cbn in *. by subst.
  - destruct (Rep_prev _ _ _ _ R1 Ea) as (n & l & m & E & El & Em & _ & R2). apply wp_bind. eapply wp_cur; [exact E|]. rewrite El. apply wp_ret.
    exists (length ts). split; [done|]. apply wp_bind. eapply wp_cur; [exact E|]. rewrite El. cbn [deref of_opt]. ee_steps.
    exists (at_col (d_prev d1) 0). split_and!.
    + split; [|done]. eapply Rep_view; [|exact (Rep_cursor _ _ 0 R2 ltac:(lia))]. reflexivity.
    + transitivity s1; [done|same_refl].
    + by rewrite lines_prev.
    + unfold d_prev. by rewrite Ea.
Qed.

Lemma bottom_moves s d : Rep s d -> moves bottom s (d_bottom d).
Proof.
  intros R. unfold moves, bottom, lines_bound. ee_steps. pose proof (Rep_size s d R) as Hsz.
  eapply (wp_while (fun k s' => exists d', at_line s' d' /\ quiet s s' /\ lines_of d' = lines_of d /\ k = length (below d'))
    _ _ _ _ _ (length (below d))); [exists (at_col d 0); split_and!; [by apply at_line_start|reflexivity|done|done]|lia|].
  intros k s1 (d1 & [R1 Hc1] & Hq1 & Hl1 & ->). destruct (below d1) as [|t ts] eqn:Ea.
  - destruct (Rep_cur _ _ R1) as (n & E & _ & Hnext & _). apply wp_bind. eapply wp_cur; [exact E|]. rewrite (proj2 Hnext Ea). apply wp_ret.
    eapply wp_at_end; [split; [exact R1|exact Hc1]|exact Hq1|]. intros s2 R2 Hq2. split; [|exact Hq2].
    unfold d_bottom. rewrite <- Hl1. destruct d1 as [ab1 x1 c1 be1]. cbn [below col] in *. subst. unfold lines_of. cbn [above this below].
    rewrite reverse_app, reverse_involutive. exact R2.
  - destruct (Rep_next _ _ _ _ R1 Ea) as (n & l & E & El & _ & R2). apply wp_bind. eapply wp_cur; [exact E|]. rewrite El. apply wp_ret.
    exists (length ts). split; [done|]. apply wp_bind. eapply wp_cur; [exact E|]. rewrite El. cbn [deref of_opt]. ee_steps.
    exists (at_col (d_next d1) 0). split_and!.
    + split; [|done]. eapply Rep_view; [|exact (Rep_cursor _ _ 0 R2 ltac:(lia))]. reflexivity.
    + transitivity s1; [done|same_refl].
    + by rewrite lines_next.
    + unfold d_next. by rewrite Ea.
Qed.

End EeWalk.
