(* ===== verification/EePage.v ===== *)
(** * ee(1): moving by many lines

    move_rel, the pages of the control keys: the line it ends on, and that looking a few
    lines further, to keep some of them on the screen, leaves the cursor where it was. *)

From S2P Require Import Prelude Monad EeState EeEdit EeText EeKeeps EeRep EeMove EeBlock EeInsert EeWrap EeWalk.
From stdpp Require Import base list gmap numbers.
From Stdlib Require Import ZArith Lia.

Open Scope Z_scope.

Module EePage.

Import EeState EeEdit EeText EeKeeps EeRep EeMove EeBlock EeInsert EeWrap EeWalk.
Local Open Scope ind_scope.

Definition d_up (d : doc) : doc := if above d is [] then d else at_col (d_prev d) 0.

(** [n] lines up from the start of the line; the same down. *)
Definition d_ups (n : nat) (d : doc) : doc := Nat.iter n d_up (at_col d 0).
Definition d_downs (n : nat) (d : doc) : doc := Nat.iter n d_next d.

(** ** One line, aiming at the left edge *)

(** A step keeps the text, and stays at the start of lines. *)
Definition lines_step (m : E ()) (s : ee) (d' : doc) : Prop :=
  wp m (fun _ s' => Rep s' d' /\ quiet s s' /\ kept s' = kept s) noexit s.

Lemma up_steps s d : Rep s d -> scr_pos s = 0 -> lines_step up s (d_up d).
Proof.
  intros R Hz. unfold lines_step. eapply wp_mono; [apply (wp_keeps _ _ (fun _ s' => Rep s' (d_up d) /\ quiet s s') _ _ keeps_up)|].
  - apply (wp_up s d _ R). intros s' c R' Hq Hc. rewrite (Hc Hz) in R'. by split.
  - intros [] s' [[R' Hq] Hk]. done.
Qed.

Lemma col_up d : col d = O -> col (d_up d) = O.
Proof. unfold d_up. by destruct (above d). Qed.

(** Aiming at the left edge from there, or nowhere to go. *)
Definition at_left (s : ee) (d : doc) : Prop := scr_pos s = 0 /\ col d = O \/ below d = [].

Lemma next_last d : below d = [] -> d_next d = d.
Proof. unfold d_next. by intros ->. Qed.

Lemma col_next d : below d <> [] -> col (d_next d) = O.
Proof. unfold d_next. by destruct (below d). Qed.

Lemma down_steps s d : Rep s d -> at_left s d -> lines_step down s (d_next d).
Proof.
  intros R J. unfold lines_step. eapply wp_mono; [apply (wp_keeps _ _ (fun _ s' => Rep s' (d_next d) /\ quiet s s') _ _ keeps_down)|].
  - apply (wp_down s d _ R). intros s' c R' Hq Hc. split; [|exact Hq]. destruct (below d) eqn:Eb; [by rewrite next_last|].
    destruct J as [[Hz _]|]; [|congruence]. rewrite (Hc Hz) in R'. unfold d_next in *. rewrite Eb in *. exact R'.
  - intros [] s' [[R' Hq] Hk]. done.
Qed.

Lemma at_left_next s s' d : at_left s d -> kept s' = kept s -> at_left s' (d_next d).
Proof.
  intros [[Hz Hc]|Hb] Hk; [|right; by rewrite next_last]. destruct (below d) eqn:Eb; [right; by rewrite next_last|].
  left. injection Hk as _ _ _ Hp. split; [congruence|]. apply col_next. congruence.
Qed.

(** Many lines. *)
Lemma ups_step n s d : Rep s d -> scr_pos s = 0 ->
  lines_step (Nat.iter n (fun k => up ;; k) (ret tt)) s (Nat.iter n d_up d).
Proof.
  revert s d. induction n as [|n IH]; intros s d R Hz; [apply wp_ret; split_and!; [done|reflexivity|done]|].
  rewrite Nat.iter_succ. apply wp_bind. eapply wp_mono; [exact (up_steps s d R Hz)|]. intros [] s1 (R1 & Hq1 & Hk1).
  eapply wp_mono; [apply (IH s1 _ R1); by injection Hk1 as _ _ _ ->|]. intros [] s2 (R2 & Hq2 & Hk2). rewrite Nat.iter_succ_r.
  split_and!; [exact R2|by transitivity s1|congruence].
Qed.

Lemma downs_step n s d : Rep s d -> at_left s d ->
  wp (Nat.iter n (fun k => down ;; k) (ret tt)) (fun _ s' => Rep s' (d_downs n d) /\ quiet s s' /\ at_left s' (d_downs n d)) noexit s.
Proof.
  unfold d_downs. revert s d. induction n as [|n IH]; intros s d R J; [apply wp_ret; split_and!; [done|reflexivity|done]|].
  rewrite Nat.iter_succ. apply wp_bind. eapply wp_mono; [exact (down_steps s d R J)|]. intros [] s1 (R1 & Hq1 & Hk1).
  eapply wp_mono; [exact (IH s1 _ R1 (at_left_next _ _ _ J Hk1))|]. intros [] s2 (R2 & Hq2 & J2). rewrite Nat.iter_succ_r.
  split_and!; [exact R2|by transitivity s1|exact J2].
Qed.

(** ** Looking further *)

(** What the loops that look further leave: the text, the settings, the column, and the
    number of lines passed. *)
Definition looked (s : ee) (s' : ee) (lines : Z) : Prop :=
  quiet s s' /\ kept s' = kept s /\ position s' = position s /\ absolute_lin s' = absolute_lin s + lines.

Lemma look_up n i s d : Rep s d -> col d = O -> scr_pos s = 0 ->
  wp (Nat.iter n (fun (k : Z -> E Z) i => let! c := cur in match prev_line c with Some _ => up ;; k (i + 1) | None => ret i end)
    (fun i => ret i) i) (fun j s' => looked s s' (i - j)) noexit s.
Proof.
  assert (Hret : forall s i, looked s s (i - i)) by (intros; rewrite Z.sub_diag; split_and!; [reflexivity|done|done|lia]).
  revert i s d. induction n as [|n IH]; intros i s d R Hc Hz; [apply wp_ret; apply Hret|]. rewrite Nat.iter_succ.
  destruct (Rep_cur s d R) as (m & E & _ & _ & Hp). apply wp_bind. eapply wp_cur; [exact E|].
  destruct (prev_line m) as [l|]; [|apply wp_ret; apply Hret]. apply wp_bind.
  eapply wp_mono; [exact (up_steps s d R Hz)|]. intros [] s1 (R1 & Hq1 & Hk1).
  eapply wp_mono; [apply (IH (i + 1) s1 _ R1); [by apply col_up|by injection Hk1 as _ _ _ ->]|]. intros j s2 (Hq2 & Hk2 & Hp2 & Ha2).
  split_and!; [by transitivity s1|congruence|rewrite Hp2, (rp_pos _ _ R1), (rp_pos _ _ R), col_up, Hc; done|].
  rewrite Ha2, (rp_abs _ _ R1), (rp_abs _ _ R). unfold d_up, d_prev. destruct (above d) as [|t ts]; [destruct Hp as [_ Hp]; by specialize (Hp eq_refl)|].
  cbn [at_col above length]. lia.
Qed.

Lemma look_down n i s d : Rep s d -> at_left s d ->
  wp (Nat.iter n (fun (k : Z -> E Z) i => let! c := cur in match next_line c with Some _ => down ;; k (i + 1) | None => ret i end)
    (fun i => ret i) i) (fun j s' => looked s s' (j - i)) noexit s.
Proof.
  assert (Hret : forall s i, looked s s (i - i)) by (intros; rewrite Z.sub_diag; split_and!; [reflexivity|done|done|lia]).
  revert i s d. induction n as [|n IH]; intros i s d R J; [apply wp_ret; apply Hret|]. rewrite Nat.iter_succ.
  destruct (Rep_cur s d R) as (m & E & _ & Hp & _). apply wp_bind. eapply wp_cur; [exact E|].
  destruct (next_line m) as [l|]; [|apply wp_ret; apply Hret]. assert (Hb : below d <> []) by (intros Hb; apply Hp in Hb; done). apply wp_bind.
  eapply wp_mono; [exact (down_steps s d R J)|]. intros [] s1 (R1 & Hq1 & Hk1).
  eapply wp_mono; [exact (IH (i + 1) s1 _ R1 (at_left_next _ _ _ J Hk1))|]. intros j s2 (Hq2 & Hk2 & Hp2 & Ha2).
  destruct J as [[_ Hc]|]; [|done].
  split_and!; [by transitivity s1|congruence|rewrite Hp2, (rp_pos _ _ R1), (rp_pos _ _ R), col_next, Hc; done|].
  rewrite Ha2, (rp_abs _ _ R1), (rp_abs _ _ R). unfold d_next. destruct (below d) as [|t ts]; [done|]. cbn [above length]. lia.
Qed.

(** Back to the line: the document is the one before looking. *)
Lemma wp_look_back s d s' j v (Q : () -> ee -> Prop) :
  Rep s d -> looked s s' (- j) -> (forall s2, Rep s2 d -> quiet s s2 -> Q tt s2) ->
  wp (scanline (point s)) Q noexit (s' <| scr_vert := v |> <| curr_line := curr_line s |> <| absolute_lin := absolute_lin s' + j |> <| point := point s |>).
Proof.
  intros R (Hq & Hk & Hp & Ha) H. set (s1 := s' <| scr_vert := v |> <| curr_line := curr_line s |> <| absolute_lin := absolute_lin s' + j |> <| point := point s |>).
  injection Hk as K1 K2 K3 _. pose proof (quiet_field (fun s => (COLS s, last_col s, ee_chinese s)) _ _ (fun s => eq_refl) Hq) as Hf. injection Hf as F1 F2 F3.
  assert (R1 : Rep s1 d).
  { eapply Rep_view; [|exact R]. unfold view, s1. fld. rewrite K1, K2, K3, Hp, Ha, F1, F2, F3. do 5 f_equal. lia. }
  change (point s) with (point s1). apply (wp_scanline_Rep s1 d _ R1). intros s2 Hs2. apply H; [by eapply Rep_same|].
  transitivity s'; [exact Hq|]. transitivity s1; [same_refl|by apply same_quiet].
Qed.

(** ** move_rel *)

Lemma to_start s d (Q : () -> ee -> Prop) : Rep s d -> scr_pos s = 0 ->
  (forall s', Rep s' (at_col d 0) -> quiet s s' -> scr_pos s' = 0 -> Q tt s') ->
  wp (while_ (Z.to_nat (position s)) (let! p := gets position in ret (1 <? p)) (left true)) Q noexit s.
Proof.
  intros R Hz H. rewrite (rp_pos _ _ R).
  eapply (wp_while (fun k s' => gone_left s d s' k) _ _ _ _ _ (col d)); [by apply gone_left_refl|lia|].
  intros k s1 G. pose proof G as (R1 & Hq1 & G1). ee_steps. rewrite (rp_pos _ _ R1). cbn [at_col col]. destruct k as [|k].
  - change (1 <? 1 + Z.of_nat 0) with false. cbv iota. apply (H s1 R1 Hq1). destruct G1 as [[_ ->]|[_ Hs]]; [done|by apply synced_0 in Hs].
  - rewrite (proj2 (Z.ltb_lt _ _)) by lia. exists k. split; [done|]. eapply wp_mono; [exact (left_walks s1 _ k R1 eq_refl)|].
    intros [] s2 (R2 & Hq2 & Hs2). eapply gone_left_trans; [exact G|]. split; [exact R2|]. split; [exact Hq2|]. right. split; [cbn; lia|exact Hs2].
Qed.

Lemma move_up_moves n s d : Rep s d -> moves (move_rel true n) s (d_ups (Z.to_nat n) d).
Proof.
  intros R. unfold moves, move_rel. ee_steps. eapply (to_start _ d); [eapply Rep_view; [|exact R]; reflexivity|reflexivity|]. intros s1 R1 Hq1 Hz1.
  assert (Hq1' : quiet s s1) by (etransitivity; [|exact Hq1]; same_refl).
  apply wp_bind. eapply wp_mono; [exact (ups_step (Z.to_nat n) s1 _ R1 Hz1)|]. intros [] s2 (R2 & Hq2 & Hk2). ee_steps.
  fold (d_ups (Z.to_nat n) d) in R2. assert (Hq : quiet s s2) by (by transitivity s1). case_if; [|by apply wp_ret].
  assert (Hc2 : col (d_ups (Z.to_nat n) d) = O).
  { unfold d_ups. generalize (Z.to_nat n) as k. induction k as [|k IH]; [done|]. rewrite Nat.iter_succ. by apply col_up. }
  apply wp_bind. eapply wp_mono; [apply (look_up 5 0 s2 _ R2 Hc2); by injection Hk2 as _ _ _ ->|]. intros j s3 Hl. ee_steps.
  apply (wp_look_back s2 _ s3 j _ _ R2); [by replace (- j) with (0 - j) by lia|]. intros s4 R4 Hq4. split; [exact R4|by transitivity s2].
Qed.

(** From inside the text, [n] lines down (at least one); on the last line, at most to
    its end. *)
Definition goes_down (n : nat) (d d' : doc) : Prop :=
  match below d with
  | [] => d' = d \/ d' = at_col d (length (this d))
  | _ => d' = d_downs (S (n - 1)) d
  end.

Lemma keeps_reset_offset : keeps kept reset_offset.
Proof. pose proof keeps_midscreen. unfold reset_offset. keeps_steps. Qed.

(** To the start of the next line, the column with it. *)
Lemma wp_line_left s0 s d (Q : () -> ee -> Prop) :
  Rep s d -> quiet s0 s -> (forall s', Rep s' d -> quiet s0 s' -> scr_pos s' = 0 -> Q tt s') ->
  wp (sets scr_horz 0 ;; sets scr_pos 0 ;; reset_offset) Q noexit s.
Proof.
  intros R Hq H. eapply wp_mono.
  - eapply (wp_and _ (fun _ s' => Rep s' d /\ quiet s0 s') (fun _ s' => scr_pos s' = 0)); [by apply (wp_line_start s0 s d)|].
    ee_steps. eapply wp_mono; [apply (wp_keeps kept reset_offset (fun _ _ => True)); [exact keeps_reset_offset|]|].
    + eapply (wp_reset_offset _ d); [eapply Rep_view; [|exact R]; reflexivity|done].
    + intros [] s' [_ Hk]. by injection Hk as _ _ _ ->.
  - intros [] s' [[R' Hq'] Hz]. by apply H.
Qed.

(** right at the end of a line. *)
Lemma wp_right_left s d (Q : () -> ee -> Prop) :
  Rep s d -> col d = length (this d) -> below d <> [] ->
  (forall s', Rep s' (d_next d) -> quiet s s' -> scr_pos s' = 0 -> Q tt s') -> wp (right true) Q noexit s.
Proof.
  intros R Hc Hb H. pose proof (right_moves s d R) as Hm. unfold d_right in Hm. rewrite (proj2 (Nat.ltb_ge _ _)) in Hm by lia.
  eapply wp_mono; [apply (wp_and _ _ (fun _ s' => scr_pos s' = 0) _ _ Hm)|intros [] s' [[R' Hq] Hz]; by apply H].
  destruct (Rep_cur s d R) as (n & E & Hn & Hnext & _). unfold right. ee_steps. eapply wp_cur; [exact E|].
  rewrite (nk_length _ _ Hn), (rp_pos _ _ R), (proj2 (Z.ltb_ge _ _)) by lia. destruct (next_line n) as [l|]; [|by destruct (Hb (proj1 Hnext eq_refl))].
  cbn [negb]. apply wp_bind. eapply wp_mono; [exact (nextline_moves s d R Hb)|]. intros [] s1 [R1 Hq1]. ee_steps.
  eapply wp_mono; [apply (wp_keeps kept reset_offset (fun _ _ => True)); [exact keeps_reset_offset|]|].
  - eapply (wp_reset_offset _ (d_next d)); [eapply Rep_view; [|exact R1]; reflexivity|done].
  - intros [] s' [_ Hk]. ee_steps. fld. injection Hk as _ _ _ Hp. by rewrite Hp.
Qed.

Lemma adv_line_goes s d (Q : () -> ee -> Prop) :
  Rep s d -> (below d <> [] -> col d = O) ->
  (forall s' d', Rep s' d' -> quiet s s' -> (below d <> [] -> d' = d_next d /\ scr_pos s' = 0) ->
     (below d = [] -> d' = d \/ d' = at_col d (length (this d))) -> Q tt s') ->
  wp adv_line Q noexit s.
Proof.
  intros R Hc0 H. unfold adv_line. ee_steps. destruct (negb (point s =? 0) || (0 <? scr_pos s)) eqn:E.
  - apply wp_bind. eapply wp_mono; [exact (to_end_moves s d R)|]. intros [] s1 [R1 Hq1]. destruct (below d) as [|t ts] eqn:Eb.
    + eapply wp_mono; [exact (right_moves s1 _ R1)|]. intros [] s2 [R2 Hq2]. unfold d_right in R2. cbn [at_col col this] in R2.
      rewrite Nat.ltb_irrefl, next_last in R2 by exact Eb. apply (H s2 _ R2); [by transitivity s1|done|by right].
    + eapply wp_right_left; [exact R1|done|cbn; congruence|]. intros s2 R2 Hq2 Hz.
      apply (H s2 (d_next d)); [unfold d_next in *; cbn [at_col below] in R2; rewrite Eb in *; exact R2|by transitivity s1|done|done].
  - destruct (Rep_cur s d R) as (n & En & Hn & Hnext & _). apply wp_bind. eapply wp_cur; [exact En|]. destruct (next_line n) as [l|].
    + assert (Hb : below d <> []) by (intros Hb; apply Hnext in Hb; done). ee_steps. set (s1 := s <| scr_pos := 0 |>).
      assert (R1 : Rep s1 d) by (eapply Rep_view; [|exact R]; reflexivity).
      eapply wp_mono; [apply (down_steps s1 d R1); left; split; [done|by apply Hc0]|]. intros [] s2 (R2 & Hq2 & Hk2). injection Hk2 as _ _ _ Hz.
      apply (H s2 (d_next d) R2); [etransitivity; [|exact Hq2]; same_refl|by rewrite Hz|done].
    + apply wp_ret. apply (H s d R); [reflexivity| |by left]. intros Hb. destruct (Hb (proj1 Hnext eq_refl)).
Qed.

Lemma move_down_goes n s d (Q : () -> ee -> Prop) :
  Rep s d -> (forall s' d', goes_down (Z.to_nat n) d d' -> Rep s' d' -> quiet s s' -> Q tt s') -> wp (move_rel false n) Q noexit s.
Proof.
  intros R H. unfold move_rel. ee_steps. destruct (Rep_cur s d R) as (m & E & _ & Hnext & _). eapply wp_cur; [exact E|].
  assert (Hfirst : wp (if negb (position s =? 1) && (match next_line m with Some _ => true | None => false end)
      then nextline ;; sets scr_horz 0 ;; sets scr_pos 0 ;; reset_offset else adv_line)
    (fun _ s' => exists d', Rep s' d' /\ quiet s s' /\ at_left s' d' /\
       (below d <> [] -> d' = d_next d) /\ (below d = [] -> d' = d \/ d' = at_col d (length (this d)))) noexit s).
  { destruct (next_line m) as [l|] eqn:El; [destruct (Z.eqb_spec (position s) 1) as [Hp|Hp]|rewrite andb_false_r]; cbn [negb andb].
    2: { assert (Hb : below d <> []) by (intros Hb; apply Hnext in Hb; done).
      apply wp_bind. eapply wp_mono; [exact (nextline_moves s d R Hb)|]. intros [] s1 [R1 Hq1]. eapply wp_line_left; [exact R1|exact Hq1|].
      intros s2 R2 Hq2 Hz. exists (d_next d). split_and!; [done|done|left; split; [done|by apply col_next]|done|done]. }
    all: apply (adv_line_goes s d _ R); [intros Hb; pose proof (rp_pos _ _ R); try (by destruct (Hb (proj1 Hnext eq_refl))); lia|].
    all: intros s1 d1 R1 Hq1 H1 H2; exists d1; split_and!; [done|done| |intros Hb; by apply H1|exact H2].
    all: destruct (below d) as [|t ts] eqn:Eb; [right; destruct (H2 eq_refl) as [->| ->]; done|].
    all: destruct (H1 ltac:(done)) as [-> Hz]; left; split; [exact Hz|apply col_next; congruence]. }
  apply wp_bind. eapply wp_mono; [exact Hfirst|]. clear Hfirst. intros [] s1 (d1 & R1 & Hq1 & J1 & H1 & H2). apply wp_bind.
  eapply wp_mono; [exact (downs_step (Z.to_nat (n - 1)) s1 d1 R1 J1)|]. intros [] s2 (R2 & Hq2 & J2). ee_steps. set (d2 := d_downs (Z.to_nat (n - 1)) d1) in *.
  assert (Hd : goes_down (Z.to_nat n) d d2).
  { unfold goes_down, d2, d_downs. destruct (below d) as [|t ts] eqn:Eb.
    - assert (Hs : forall k x, below x = [] -> Nat.iter k d_next x = x).
      { intros k x Hx. induction k as [|k IH]; [done|]. rewrite Nat.iter_succ, IH. by apply next_last. }
      rewrite Hs; [by apply H2|]. by destruct (H2 eq_refl) as [->| ->].
    - rewrite (H1 ltac:(done)), Nat.iter_succ_r. by replace (Z.to_nat (n - 1)) with (Z.to_nat n - 1)%nat by lia. }
  assert (Hq : quiet s s2) by (by transitivity s1). case_if; [|apply wp_ret; by apply (H s2 d2)].
  apply wp_bind. eapply wp_mono; [exact (look_down 5 0 s2 d2 R2 J2)|]. intros j s3 Hl. ee_steps.
  eapply (wp_look_back s2 d2 s3 (- j)); [exact R2|by replace (- - j) with (j - 0) by lia|]. intros s4 R4 Hq4. apply (H s4 d2 Hd R4). by transitivity s2.
Qed.

End EePage.
