(* ===== verification/EeSearch.v ===== *)
(** * ee(1): search

    search goes to the first occurrence of the string after the cursor, in the line of
    the cursor or in a line below, whichever way it moves there. *)

From S2P Require Import Prelude Monad EeState EeEdit EeText EeKeeps EeRep EeMove EeBlock EeInsert EeWrap EeWalk EePage EeDemo.
From stdpp Require Import base list gmap numbers.
From Stdlib Require Import ZArith Lia.

Open Scope Z_scope.

Module EeSearch.

Import EeState EeEdit EeText EeKeeps EeRep EeMove EeBlock EeInsert EeWrap EeWalk EePage EeDemo.
Local Open Scope ind_scope.

(** ** Occurrences *)

(** [pat] occurs at column [c] of [t], its letters folded. *)
Definition occurs (fold : Z -> Z) (pat t : bytes) (c : nat) : bool :=
  bool_decide (take (length pat) (map fold (drop c t)) = pat).

(** The first column from [c] on where it does. *)
Definition first_in (fold : Z -> Z) (pat t : bytes) (c : nat) : option nat :=
  head (filter (fun k => occurs fold pat t k = true) (seq c (length t - c))).

(** The first line and column: how many lines further, and where. *)
Fixpoint find_lines (fold : Z -> Z) (pat : bytes) (ts : list bytes) (c : nat) : option (nat * nat) :=
  match ts with
  | [] => None
  | t :: ts =>
      match first_in fold pat t c with
      | Some k => Some (O, k)
      | None => match find_lines fold pat ts 0 with
                | Some (j, k) => Some (S j, k)
                | None => None
                end
      end
  end.

Definition d_found (d : doc) (p : nat * nat) : doc := at_col (d_downs p.1 d) p.2.

(** ** One line *)

Section Line.
Context (fold : Z -> Z) (pat : bytes).
Hypothesis fold_0 : fold 0 = 0.
Hypothesis pat_nul : Forall (fun c => c <> 0) pat.

Lemma match_at_occurs t r c : (c <= length t)%nat -> match_at fold (t ++ 0 :: r) (Z.of_nat c) pat = Some (occurs fold pat t c).
Proof.
  revert c. induction pat_nul as [|x p Hx Hp IH]; intros c Hc; cbn [match_at].
  - destruct (aget_in (t ++ 0 :: r) (Z.of_nat c)) as [y ->]; [rewrite length_app; cbn; lia|]. done.
  - destruct (decide (c = length t)) as [->|Hne].
    + rewrite aget_app by done. rewrite fold_0, (proj2 (Z.eqb_neq 0 x)) by done. unfold occurs. rewrite drop_all. cbn [map]. by rewrite take_nil.
    + destruct (lookup_lt_is_Some_2 t c) as [y Hy]; [lia|]. rewrite (aget_app_l t (0 :: r) c y Hy).
      replace (Z.of_nat c + 1) with (Z.of_nat (S c)) by lia. rewrite (IH Hp) by lia. unfold occurs. rewrite (drop_S t y c Hy). cbn [map length take].
      destruct (Z.eqb_spec (fold y) x) as [->|Hxy].
      * f_equal. apply bool_decide_ext. split; [by intros ->|by intros [=]].
      * f_equal. symmetry. apply bool_decide_eq_false. intros [=]. done.
Qed.

Lemma first_in_step t c : (c < length t)%nat -> first_in fold pat t c = if occurs fold pat t c then Some c else first_in fold pat t (S c).
Proof.
  intros Hc. unfold first_in. replace (length t - c)%nat with (S (length t - S c)) by lia. cbn [seq]. rewrite filter_cons.
  destruct (occurs fold pat t c); [by rewrite decide_True|by rewrite decide_False].
Qed.

Lemma first_in_end t c : (length t <= c)%nat -> first_in fold pat t c = None.
Proof. intros Hc. unfold first_in. by replace (length t - c)%nat with O by lia. Qed.

(** The loop over the columns. *)
Lemma search_line_finds n t r fuel srch_1 c :
  line n = t ++ 0 :: r -> line_length n = 1 + Z.of_nat (length t) -> (length t - c <= fuel)%nat -> ((c < length t)%nat -> srch_1 = Z.of_nat c) ->
  search_line fuel fold n pat srch_1 (Z.of_nat c + 1) = Some (match first_in fold pat t c with
                                                              | Some k => Some (Z.of_nat k, Z.of_nat k + 1)
                                                              | None => None
                                                              end).
Proof.
  intros El Ell. revert srch_1 c. induction fuel as [|fuel IH]; intros srch_1 c Hf Hs; cbn [search_line]; rewrite Ell.
  - rewrite (proj2 (Z.ltb_ge _ _)), first_in_end by lia. done.
  - destruct (decide (c < length t)%nat) as [Hlt|Hge].
    + rewrite (proj2 (Z.ltb_lt _ _)), (Hs Hlt), El, match_at_occurs, first_in_step by lia. destruct (occurs fold pat t c); [done|].
      replace (Z.of_nat c + 1) with (Z.of_nat (S c)) by lia. apply IH; [lia|done].
    + rewrite (proj2 (Z.ltb_ge _ _)), first_in_end by lia. done.
Qed.
End Line.


(** ** The lines below *)

(** The cursor at the start of line [l], [m] lines further, without moving there. *)
Definition ahead (s : ee) (l : nat) (m : Z) : ee :=
  s <| curr_line := l |> <| absolute_lin := absolute_lin s + m |> <| point := 0 |> <| position := 1 |>.

Lemma ahead_line s l m d n : terminated s -> Rep (ahead s l m) d -> heap s !! l = Some n ->
  exists r, line n = this d ++ 0 :: r /\ line_length n = 1 + Z.of_nat (length (this d)).
Proof.
  intros Ht R E. destruct (Rep_cur _ _ R) as (n' & E' & Hn & _). assert (n' = n) as -> by (unfold ahead in E'; fld_in E'; congruence).
  destruct (nk_split _ _ Hn) as (r & Er & Hr & _ & Hl). specialize (Ht l n E). unfold ended in Ht. rewrite Hl, Er in Ht. destruct r as [|x r]; [cbn in Hr; lia|].
  rewrite aget_app in Ht by lia. injection Ht as ->. by exists r.
Qed.

Lemma ahead_next s l m d t ts : Rep (ahead s l m) d -> below d = t :: ts -> exists n l', heap s !! l = Some n /\
  next_line n = Some l' /\ Rep (ahead s l' (m + 1)) (d_next d).
Proof.
  intros R Eb. destruct (Rep_next _ _ _ _ R Eb) as (n & l' & E & El & _ & R'). exists n, l'. split; [exact E|]. split; [exact El|].
  eapply Rep_view; [|exact R']. unfold view, ahead. fld. do 5 f_equal. lia.
Qed.

Lemma wp_search_lines fold pat fuel s l m d c srch_1 (Q : option (nat * Z * Z * Z) -> ee -> Prop) :
  fold 0 = 0 -> Forall (fun c => c <> 0) pat -> terminated s ->
  Rep (ahead s l m) d -> (length (below d) < fuel)%nat -> ((c < length (this d))%nat -> srch_1 = Z.of_nat c) ->
  (match find_lines fold pat (this d :: below d) c with
   | Some (j, k) => forall l', Rep (ahead s l' (m + Z.of_nat j)) (at_col (d_downs j (at_col d 0)) 0) ->
       Q (Some (l', Z.of_nat k, Z.of_nat k + 1, m + Z.of_nat j)) s
   | None => Q None s
   end) ->
  wp (search_lines fuel fold pat l srch_1 (Z.of_nat c + 1) m) Q noexit s.
Proof.
  intros Hf Hp Ht. revert l m d c srch_1 Q. induction fuel as [|fuel IH]; intros l m d c srch_1 Q R Hfu Hs H; [lia|].
  destruct (Rep_cur _ _ R) as (n & E & Hn & Hnext & _). assert (En : heap s !! l = Some n) by exact E. clear E.
  destruct (ahead_line s l m d n Ht R En) as (r & Er & Hl). cbn [search_lines]. apply wp_bind. eapply wp_node; [exact En|]. apply wp_bind.
  eapply wp_of_opt; [eapply (search_line_finds fold pat Hf Hp n (this d) r); [exact Er|exact Hl|lia|exact Hs]|]. cbn [find_lines] in H.
  assert (R0 : Rep (ahead s l m) (at_col d 0)) by (eapply Rep_view; [|exact (Rep_cursor _ _ 0 R ltac:(lia))]; reflexivity).
  destruct (first_in fold pat (this d) c) as [k|].
  - apply wp_ret. specialize (H l). rewrite Z.add_0_r in H. exact (H R0).
  - destruct (below d) as [|t ts] eqn:Eb.
    + rewrite (proj2 Hnext eq_refl). by apply wp_ret.
    + destruct (ahead_next s l m _ t ts R0 Eb) as (n' & l' & En' & El' & R'). assert (n' = n) as -> by congruence. rewrite El'.
      assert (Hd : d_next (at_col d 0) = Doc (this d :: above d) t 0 ts) by (unfold d_next; cbn [at_col below]; by rewrite Eb).
      apply (IH l' (m + 1) _ O 0 _ R'); [rewrite Hd; cbn in *; lia|done|]. rewrite Hd. cbn [this below].
      destruct (find_lines fold pat (t :: ts) 0) as [[j k]|]; [|exact H]. intros l2 R2. specialize (H l2).
      replace (m + Z.of_nat (S j)) with (m + 1 + Z.of_nat j) in H by lia. apply H. unfold d_downs in *. rewrite Nat.iter_succ_r, Hd. exact R2.
Qed.


(** ** Going there *)

Lemma first_in_range fold pat t c k : first_in fold pat t c = Some k -> (c <= k < length t)%nat /\ occurs fold pat t k = true.
Proof.
  unfold first_in. intros H. assert (Hk : k ∈ filter (fun k => occurs fold pat t k = true) (seq c (length t - c))) by (destruct (filter _ _); [done|injection H as ->; left]).
  apply list_elem_of_filter in Hk as [Ho Hk]. apply elem_of_seq in Hk. split; [lia|done].
Qed.

Lemma downs_col j d : (0 < j <= length (below d))%nat -> col (d_downs j d) = O.
Proof.
  unfold d_downs. destruct j as [|j]; [lia|]. intros [_ Hj]. rewrite Nat.iter_succ_r. revert d Hj.
  induction j as [|j IH]; intros d Hj; (destruct d as [ab t c [|x be]]; [cbn in Hj; lia|]); [done|]. rewrite Nat.iter_succ_r.
  apply (IH (Doc (t :: ab) x 0 be)). cbn in *. lia.
Qed.

Lemma find_lines_range fold pat d c j k : find_lines fold pat (this d :: below d) c = Some (j, k) ->
  (j <= length (below d))%nat /\ (k < length (this (d_downs j d)))%nat /\ (j = O -> (c <= k)%nat).
Proof.
  revert c j k. destruct d as [ab t cl be]. cbn [this below]. revert ab t cl. induction be as [|x be IH]; intros ab t cl c j k; cbn [find_lines].
  - destruct (first_in fold pat t c) eqn:E; [|done]. apply first_in_range in E. intros [= <- <-]. cbn. lia.
  - destruct (first_in fold pat t c) eqn:E; [apply first_in_range in E; intros [= <- <-]; cbn; lia|].
    specialize (IH (t :: ab) x O O). cbn [find_lines] in IH. destruct (first_in fold pat x 0) as [k0|] eqn:E0.
    + intros [= <- <-]. destruct (IH O k0 eq_refl) as (H1 & H2 & _). cbn in *. lia.
    + destruct (find_lines fold pat be 0) as [[j0 k0]|]; [|done]. intros [= <- <-]. destruct (IH (S j0) k0 eq_refl) as (H1 & H2 & _).
      split; [cbn in *; lia|]. split; [|lia]. unfold d_downs in *. rewrite Nat.iter_succ_r. exact H2.
Qed.

Lemma right_to_moves s d k : Rep s d -> (col d <= k <= length (this d))%nat -> moves (right_to (Z.of_nat k + 1)) s (at_col d k).
Proof.
  intros R Hk. unfold moves, right_to. destruct (Rep_cur s d R) as (n & E & Hn & _). apply wp_bind. eapply wp_cur; [exact E|].
  rewrite (nk_length _ _ Hn). eapply (wp_while (fun i s' => Rep s' (at_col d (k - i)) /\ quiet s s' /\ (i <= k)%nat) _ _ _ _ _ (k - col d)).
  { split; [|split; [reflexivity|lia]]. replace (k - (k - col d))%nat with (col d) by lia. by destruct d. }
  { lia. }
  intros i s1 (R1 & Hq1 & Hi). ee_steps. rewrite (rp_pos _ _ R1). cbn [at_col col]. destruct i as [|i].
  - rewrite Nat.sub_0_r in *. rewrite (proj2 (Z.ltb_ge _ _)) by lia. by split.
  - rewrite (proj2 (Z.ltb_lt _ _)) by lia. exists i. split; [done|]. eapply wp_mono; [apply right_walks; [exact R1|cbn; lia]|].
    intros [] s2 (R2 & Hq2 & _). cbn [at_col col] in R2. rewrite at_col_col in R2. replace (S (k - S i))%nat with (k - i)%nat in R2 by lia.
    split; [exact R2|]. split; [by transitivity s1|lia].
Qed.

(** Far away: the cursor is put there and the screen drawn around it. *)
Lemma wp_jump s l m d k (Q : () -> ee -> Prop) :
  Rep (ahead s l m) d -> (k <= length (this d))%nat -> (forall s', Rep s' (at_col d k) -> quiet s s' -> Q tt s') ->
  wp (modify (fun s => s <| absolute_lin := absolute_lin s + m |> <| curr_line := l |> <| point := Z.of_nat k |> <| position := Z.of_nat k + 1 |>) ;;
      scanline (Z.of_nat k) ;; sync_pos ;;
      let! s := get in midscreen (cdiv (last_line s) 2) (point s)) Q noexit s.
Proof.
  intros R Hk H. ee_steps. set (s1 := s <| absolute_lin := absolute_lin s + m |> <| curr_line := l |> <| point := Z.of_nat k |> <| position := Z.of_nat k + 1 |>).
  assert (R1 : Rep s1 (at_col d k)).
  { eapply Rep_view; [|exact (Rep_cursor _ _ k R Hk)]. unfold view, ahead, s1. fld. by rewrite (Z.add_comm (Z.of_nat k) 1). }
  change (Z.of_nat k) with (point s1). apply (wp_scanline_Rep s1 _ _ R1). intros s2 Hs2. ee_steps.
  assert (R2 : Rep s2 (at_col d k)) by (by eapply Rep_same).
  eapply wp_midscreen_Rep; [eapply Rep_view; [|exact R2]; reflexivity|]. intros s3 Hs3.
  assert (Hs : same s1 s3) by (transitivity s2; [exact Hs2|]; etransitivity; [|exact Hs3]; same_refl).
  apply H; [by eapply Rep_same|]. transitivity s1; [same_refl|by apply same_quiet].
Qed.

(** C18. search moves the cursor to the first occurrence of the string after it, in its
    line or in the first line below that has one, letters folded when the search is not
    case sensitive, whether it walks there or jumps; when there is none it reports that
    and nothing moves.  The lines are terminated in their blocks. *)
Theorem search_finds_first s d str pat :
  Rep s d -> terminated s -> srch_str s = Some str -> str <> [] ->
  (if case_sen s then Some str else u_srch_str s) = Some pat -> Forall (fun c => c <> 0) pat ->
  wp search (fun found s' => quiet s s' /\
    match find_lines (if case_sen s then fun c => c else toupper) pat (this d :: below d) (S (col d)) with
    | Some p => found = true /\ Rep s' (d_found d p)
    | None => found = false /\ s' = s
    end) noexit s.
Proof.
  intros R Ht Hstr Hne Hpat Hnul. unfold search. ee_steps. rewrite Hstr. destruct str as [|x str]; [done|].
  set (fold := if case_sen s then fun c => c else toupper). assert (Hf : fold 0 = 0) by (unfold fold; by destruct (case_sen s)).
  destruct (Rep_cur s d R) as (n & E & Hn & _). apply wp_bind. eapply wp_cur; [exact E|]. apply wp_bind. eapply wp_of_opt; [exact Hpat|].
  unfold lines_bound. ee_steps. pose proof (rp_col _ _ R) as Hc. pose proof (Rep_size s d R) as Hsz.
  rewrite (nk_length _ _ Hn), (rp_pos _ _ R), (rp_point _ _ R).
  assert (R0 : Rep (ahead s (curr_line s) 0) (at_col d 0)).
  { eapply Rep_view; [|exact (Rep_cursor s d 0 R ltac:(lia))]. unfold view, ahead. fld. do 5 f_equal. lia. }
  replace (1 + Z.of_nat (col d) + 1) with (Z.of_nat (S (col d)) + 1) by lia.
  apply (wp_search_lines fold pat (S (size (heap s))) s (curr_line s) 0 (at_col d 0) (S (col d)) _ _ Hf Hnul Ht R0); cbn [at_col this below]; [lia| |].
  { intros Hlt. rewrite (proj2 (Z.ltb_lt _ _)) by lia. lia. }
  destruct (find_lines fold pat (this d :: below d) (S (col d))) as [[j k]|] eqn:Ef; [|apply wp_ret; by split; [reflexivity|]].
  destruct (find_lines_range _ _ _ _ _ _ Ef) as (Hj & Hk & Hjk). intros l' R'. rewrite Z.add_0_l in *. unfold d_found. cbn [fst snd].
  apply wp_bind. destruct (Z.eqb_spec (Z.of_nat j) 0) as [Hj0|Hj0].
  - assert (j = O) as -> by lia. specialize (Hjk eq_refl). cbn in Hk. eapply wp_mono; [apply (right_to_moves s d k R); lia|].
    intros [] s' [Rk Hq]. ee_steps. by split.
  - assert (Hcol : col (d_downs j d) = O) by (apply downs_col; lia).
    assert (Hat : d_downs j (at_col d 0) = d_downs j d).
    { unfold d_downs. destruct j as [|i]; [lia|]. rewrite !Nat.iter_succ_r. f_equal. unfold d_next. cbn [at_col below]. destruct (below d); [cbn in Hj; lia|done]. }
    rewrite at_col_col, Hat in R'. destruct (Z.ltb_spec (Z.of_nat j) 30).
    + apply wp_bind. apply (move_down_goes _ s d _ R). intros s1 d1 Hd R1 Hq1. rewrite Nat2Z.id in Hd.
      assert (d1 = d_downs j d) as ->.
      { unfold goes_down in Hd. destruct (below d); [cbn in Hj; lia|]. by replace (S (j - 1)) with j in Hd by lia. }
      eapply wp_mono; [apply (right_to_moves s1 _ k R1); lia|]. intros [] s2 [R2 Hq2]. ee_steps. split; [by transitivity s1|by split].
    + apply (wp_jump s l' _ _ k _ R'); [cbn; lia|]. intros s' Rk Hq. ee_steps. split; [exact Hq|by split].
Qed.


(** The lines "ab c" and "d", looking for D in any case. *)
Definition seeking : ee := demo <| srch_str := Some [68] |> <| u_srch_str := Some [68] |>.

Lemma search_witness :
  wp search (fun found s' => quiet seeking s' /\
    match find_lines toupper [68] [[97; 98; 32; 99]; [100]] 1 with
    | Some p => found = true /\ Rep s' (d_found demo_doc p)
    | None => found = false /\ s' = seeking
    end) noexit seeking.
Proof.
  apply (search_finds_first seeking demo_doc [68] [68]).
  - eapply Rep_view; [|exact Rep_demo]. reflexivity.
  - intros l n H. change (heap seeking) with ({[ 0%nat := demo_1; 1%nat := demo_2 ]} : gmap nat text) in H.
    apply lookup_insert_Some in H as [[_ <-]|[_ H]]; [reflexivity|]. apply lookup_singleton_Some in H as [_ <-]. reflexivity.
  - reflexivity.
  - discriminate.
  - reflexivity.
  - repeat constructor; discriminate.
Defined.

Example seeking_found : find_lines toupper [68] [[97; 98; 32; 99]; [100]] 1 = Some (1%nat, 0%nat).
Proof. reflexivity. Qed.

End EeSearch.
