(* ===== verification/EeParagraph.v ===== *)
(** * ee(1): formatting keeps the words

    Format moves words between lines and changes the blanks between them.  Here: that it
    ends, and that the words of the text, in order, are what they were. *)

From S2P Require Import Prelude Monad EeState EeEdit EeText EeKeys EeFormat EeKeeps EeRep EeMove EeBlock EeLink EeInsert EeWrap EeDelete EeUndo EeWalk EePage EeSearch EeDemo.
From stdpp Require Import base list gmap numbers.
From Stdlib Require Import ZArith Lia.

Open Scope Z_scope.

Module EeParagraph.

Import EeState EeEdit EeText EeFormat EeKeeps EeRep EeMove EeBlock EeLink EeInsert EeWrap EeDelete EeUndo EeWalk EePage EeSearch EeDemo.
Local Open Scope ind_scope.

(** ** Words *)

Definition word_of (w : bytes) : list bytes := match w with [] => [] | _ => [w] end.

(** The words of a line after the letters [w] of the first. *)
Fixpoint words_from (w t : bytes) : list bytes :=
  match t with
  | [] => word_of w
  | c :: t => if is_blank c then word_of w ++ words_from [] t else words_from (w ++ [c]) t
  end.

Definition words (t : bytes) : list bytes := words_from [] t.

Lemma words_cut a c b : is_blank c = true -> words (a ++ c :: b) = words a ++ words b.
Proof.
  intros Hc. unfold words. generalize (@nil Z) at 1 2 as w. induction a as [|x a IH]; intros w; cbn [app words_from]; [by rewrite Hc|].
  destruct (is_blank x); [|apply IH]. by rewrite IH, app_assoc.
Qed.

Lemma words_blank_l c b : is_blank c = true -> words (c :: b) = words b.
Proof. intros Hc. exact (words_cut [] c b Hc). Qed.

Lemma words_blank_r a c : is_blank c = true -> words (a ++ [c]) = words a.
Proof. intros Hc. rewrite words_cut by done. apply app_nil_r. Qed.

Lemma words_blanks bl b : forallb is_blank bl = true -> words (bl ++ b) = words b.
Proof. induction bl as [|c bl IH]; [done|]. cbn [forallb app]. intros [Hc Hb]%andb_prop. by rewrite words_blank_l, IH. Qed.

(** A line cut at the start of a word. *)
Lemma words_split t c : word_start t c -> words (take c t) ++ words (drop c t) = words t.
Proof.
  destruct c as [|c]; [done|]. intros (x & Hx & Hb). rewrite <- (take_drop_middle t c x Hx) at 3. rewrite words_cut by done. f_equal.
  rewrite (take_S_r _ _ _ Hx). by apply words_blank_r.
Qed.

Lemma words_split_end t c : (length t <= c)%nat -> words (take c t) ++ words (drop c t) = words t.
Proof. intros H. rewrite take_ge, drop_ge by done. apply app_nil_r. Qed.

(** The words of a text. *)
Definition all_words (d : doc) : list bytes := concat (map words (lines_of d)).

Lemma all_words_at d : all_words d = concat (map words (reverse (above d))) ++ words (this d) ++ concat (map words (below d)).
Proof. unfold all_words, lines_of. by rewrite map_app, concat_app. Qed.

Lemma all_words_this d t : words t = words (this d) -> all_words (with_this d t) = all_words d.
Proof. intros H. rewrite !all_words_at. cbn [with_this above this below]. by rewrite H. Qed.

Lemma all_words_lines d d' : lines_of d' = lines_of d -> all_words d' = all_words d.
Proof. unfold all_words. by intros ->. Qed.

Lemma all_words_newline d : words (take (col d) (this d)) ++ words (drop (col d) (this d)) = words (this d) ->
  all_words (d_newline d) = all_words d.
Proof.
  intros H. rewrite !all_words_at. unfold d_newline. cbn [above this below]. rewrite reverse_cons, map_app, concat_app. cbn [map concat].
  rewrite app_nil_r, <- !app_assoc. f_equal. by rewrite app_assoc, H.
Qed.

(** A line that ends in a blank joined with the next. *)
Lemma all_words_join d t c ts : above d = (t ++ [c]) :: ts -> is_blank c = true -> all_words (d_join d) = all_words d.
Proof.
  intros Ha Hc. rewrite !all_words_at. unfold d_join. rewrite Ha. cbn [above this below]. rewrite reverse_cons, map_app, concat_app. cbn [map concat].
  rewrite app_nil_r, <- !app_assoc. f_equal. cbn [app]. rewrite words_cut, words_blank_r by done. by rewrite <- app_assoc.
Qed.

Lemma lines_at_col d c : lines_of (at_col d c) = lines_of d.
Proof. done. Qed.

Lemma lines_d_left d : lines_of (d_left d) = lines_of d.
Proof.
  unfold d_left. destruct (col d); [|done]. unfold d_prev. destruct (above d) as [|t ts] eqn:E; [done|]. unfold lines_of. cbn [above this below].
  by rewrite E, reverse_cons, <- app_assoc.
Qed.

Lemma lines_d_next d : lines_of (d_next d) = lines_of d.
Proof.
  unfold d_next. destruct (below d) as [|t ts] eqn:E; [done|]. unfold lines_of. cbn [above this below]. by rewrite E, reverse_cons, <- app_assoc.
Qed.

Lemma lines_d_right d : lines_of (d_right d) = lines_of d.
Proof. unfold d_right. destruct (_ <? _)%nat; [done|apply lines_d_next]. Qed.

Lemma lines_d_bol d : lines_of (d_bol d) = lines_of d.
Proof. unfold d_bol. destruct (decide _); [|done]. destruct (above d) eqn:E; [done|]. apply lines_prev. Qed.

Lemma lines_d_eol d : lines_of (d_eol d) = lines_of d.
Proof. unfold d_eol. destruct (_ <? _)%nat; [done|]. rewrite lines_at_col. apply lines_d_next. Qed.

(** ** States of the formatter *)

(** The settings without what the formatter's commands leave behind. *)
Definition loose (s : ee) : ee :=
  settings s <| text_changes := false |> <| d_wrd_len := 0 |> <| in_ := 0 |> <| d_char := [] |> <| d_word := None |>.
Definition calm (s s' : ee) : Prop := loose s' = loose s.

#[export] Instance calm_equiv : Equivalence calm.
Proof. unfold calm. split; [done|intros ???; congruence|intros ?????; congruence]. Qed.

Lemma quiet_calm s s' : quiet s s' -> calm s s'.
Proof. unfold quiet, calm, loose. by intros ->. Qed.

Lemma calm_field {A} (f : ee -> A) s s' : (forall s, f (loose s) = f s) -> calm s s' -> f s' = f s.
Proof. intros Hf H. rewrite <- (Hf s'), <- (Hf s). by rewrite H. Qed.

(** Only what [loose] forgets differs. *)
Ltac calm_refl := unfold calm; vm_compute; reflexivity.

(** The text is [d], its words are [ws], and the settings those of [s0]. *)
Record par (s0 : ee) (ws : list bytes) (s : ee) (d : doc) : Prop := {
  pr_rep : Rep s d;
  pr_words : all_words d = ws;
  pr_ends : terminated s;
  pr_calm : calm s0 s
}.

Section Par.
Context (s0 : ee) (ws : list bytes).

Lemma par_moves {A} (m : E A) s d (P : A -> ee -> doc -> Prop) (Q : A -> ee -> Prop) :
  par s0 ws s d -> keeps heap m ->
  wp m (fun a s' => exists d', Rep s' d' /\ quiet s s' /\ lines_of d' = lines_of d /\ P a s' d') noexit s ->
  (forall a s' d', par s0 ws s' d' -> lines_of d' = lines_of d -> P a s' d' -> Q a s') -> wp m Q noexit s.
Proof.
  intros [R W T C] K Hm H. eapply wp_mono; [exact (wp_keeps heap _ _ _ _ K Hm)|]. intros a s' [(d' & R' & Hq & Hl & HP) Hh].
  apply (H a s' d'); [|done|done]. split; [done|rewrite (all_words_lines _ _ Hl); done|by apply (ends_heap s s' Hh)|].
  transitivity s; [done|by apply quiet_calm].
Qed.

(** A move with a known end. *)
Lemma par_move m s d d' (Q : () -> ee -> Prop) :
  par s0 ws s d -> keeps heap m -> moves m s d' -> lines_of d' = lines_of d -> (forall s', par s0 ws s' d' -> Q tt s') -> wp m Q noexit s.
Proof.
  intros Hp K Hm Hl H. apply (par_moves m s d (fun _ _ x => x = d') Q Hp K).
  - eapply wp_mono; [exact Hm|]. intros [] s' [R' Hq]. by exists d'.
  - intros [] s' x Hx _ ->. by apply H.
Qed.

Lemma par_left s d (Q : () -> ee -> Prop) : par s0 ws s d -> (forall s', par s0 ws s' (d_left d) -> Q tt s') -> wp (left true) Q noexit s.
Proof. intros Hp. eapply par_move; [exact Hp|apply heap_left|apply left_moves, Hp|apply lines_d_left]. Qed.

Lemma par_right s d (Q : () -> ee -> Prop) : par s0 ws s d -> (forall s', par s0 ws s' (d_right d) -> Q tt s') -> wp (right true) Q noexit s.
Proof. intros Hp. eapply par_move; [exact Hp|apply heap_right|apply right_moves, Hp|apply lines_d_right]. Qed.

Lemma par_bol s d (Q : () -> ee -> Prop) : par s0 ws s d -> (forall s', par s0 ws s' (d_bol d) -> Q tt s') -> wp bol Q noexit s.
Proof. intros Hp. eapply par_move; [exact Hp|apply heap_bol|apply bol_moves, Hp|apply lines_d_bol]. Qed.

Lemma par_eol s d (Q : () -> ee -> Prop) : par s0 ws s d -> (forall s', par s0 ws s' (d_eol d) -> Q tt s') -> wp eol Q noexit s.
Proof. intros Hp. eapply par_move; [exact Hp|apply heap_eol|apply eol_moves, Hp|apply lines_d_eol]. Qed.

Lemma par_adv_word s d (Q : () -> ee -> Prop) : par s0 ws s d ->
  (forall s', par s0 ws s' (at_col d (col d + length (first_word (drop (col d) (this d))))) -> Q tt s') -> wp adv_word Q noexit s.
Proof. intros Hp. eapply par_move; [exact Hp|apply heap_adv_word|apply adv_word_moves, Hp|done]. Qed.

Lemma par_prev_word s d (Q : () -> ee -> Prop) : par s0 ws s d -> col d <> O ->
  (forall s' c, par s0 ws s' (at_col d c) -> (c < col d)%nat -> word_start (this d) c -> Q tt s') -> wp prev_word Q noexit s.
Proof.
  intros Hp Hc H. apply (par_moves _ s d (fun _ _ d' => exists c, d' = at_col d c /\ (c < col d)%nat /\ word_start (this d) c) Q Hp heap_prev_word).
  - eapply prev_word_goes; [apply Hp|done|]. intros s' c (R & Hq & _) Hlt Hw. exists (at_col d c). split_and!; [done..|]. by exists c.
  - intros [] s' d' Hp' _ (c & -> & Hlt & Hw). by eapply H.
Qed.

(** The word before the cursor, or the line above. *)
Lemma par_prev_word_any s d (Q : () -> ee -> Prop) : par s0 ws s d ->
  (forall s' d', par s0 ws s' d' -> Q tt s') -> wp prev_word Q noexit s.
Proof.
  intros Hp H. destruct (decide (col d = O)) as [Hc|Hc].
  - unfold prev_word. ee_steps. rewrite (rp_pos _ _ (pr_rep _ _ _ _ Hp)), Hc. change (negb (1 + Z.of_nat 0 =? 1)) with false. cbv iota.
    eapply par_left; [exact Hp|]. intros s' Hp'. by eapply H.
  - eapply par_prev_word; [done|done|]. intros s' c Hp' _ _. by eapply H.
Qed.

(** A part of the settings changed, with the base they are compared to. *)
Lemma par_set s s' d s0' : par s0 ws s d -> view s' = view s -> calm s0' s' -> par s0' ws s' d.
Proof.
  intros [R W T C] Hv Hc. split; [by eapply Rep_view|done| |done]. apply (ends_heap s s'); [|done]. exact (f_equal fst Hv).
Qed.

(** The byte at the cursor, and one further: a NUL at the end of the line. *)
Lemma par_byte s d n k : par s0 ws s d -> heap s !! curr_line s = Some n -> (col d + k <= length (this d))%nat ->
  aget (line n) (point s + Z.of_nat k) = Some (nth (col d + k) (this d ++ [0]) 0).
Proof.
  intros [R W T C] E Hk. destruct (Rep_cur s d R) as (n' & E' & Hn & _). assert (n' = n) as -> by congruence.
  destruct (nk_split _ _ Hn) as (r & Er & Hr & _ & Hl). pose proof (proj1 (ended_tail n (this d) r Er Hl) (T _ _ E)) as H0.
  destruct r as [|x r]; [done|]. injection H0 as ->. rewrite Er, (rp_point _ _ R). unfold aget. rewrite (proj2 (Z.ltb_ge _ 0)) by lia.
  replace (Z.to_nat _) with (col d + k)%nat by lia. replace (this d ++ 0 :: r) with ((this d ++ [0]) ++ r) by (by rewrite <- app_assoc).
  rewrite lookup_app_l by (rewrite length_app; cbn; lia). destruct (lookup_lt_is_Some_2 (this d ++ [0]) (col d + k)) as [x Hx]; [rewrite length_app; cbn; lia|].
  rewrite Hx. f_equal. symmetry. by apply nth_lookup_Some.
Qed.

Lemma par_peek s d k (Q : Z -> ee -> Prop) : par s0 ws s d -> (col d + k <= length (this d))%nat ->
  Q (nth (col d + k) (this d ++ [0]) 0) s -> wp (peek (Z.of_nat k)) Q noexit s.
Proof.
  intros Hp Hk H. destruct (Rep_cur s d (pr_rep _ _ _ _ Hp)) as (n & E & _). eapply (wp_peek_cur _ n); [exact E| |exact H]. by eapply par_byte.
Qed.

Lemma par_peek0 s d (Q : Z -> ee -> Prop) : par s0 ws s d -> Q (nth (col d) (this d ++ [0]) 0) s -> wp (peek 0) Q noexit s.
Proof.
  intros Hp H. apply (par_peek s d 0 Q Hp); [pose proof (rp_col _ _ (pr_rep _ _ _ _ Hp)); lia|]. by rewrite Nat.add_0_r.
Qed.

(** The test of a loop along a line. *)
Lemma par_inside s d (Q : bool -> ee -> Prop) : par s0 ws s d -> Q (bool_decide (col d < length (this d))%nat) s ->
  wp (let! s := get in let! n := cur in ret (position s <? line_length n)) Q noexit s.
Proof.
  intros Hp H. destruct (Rep_cur s d (pr_rep _ _ _ _ Hp)) as (n & E & Hn & _). ee_steps. eapply wp_cur; [exact E|]. apply wp_ret.
  replace (position s <? line_length n) with (bool_decide (col d < length (this d))%nat); [done|].
  rewrite (rp_pos _ _ (pr_rep _ _ _ _ Hp)), (nk_length _ _ Hn). destruct (Z.ltb_spec (1 + Z.of_nat (col d)) (1 + Z.of_nat (length (this d)))).
  - apply bool_decide_eq_true_2. lia.
  - apply bool_decide_eq_false_2. lia.
Qed.

(** *** Edits *)

Context (junk : Z).

(** A space put where a line may be cut. *)
Lemma par_space s d (Q : () -> ee -> Prop) :
  par s0 ws s d -> observ_margins s0 = false -> auto_format s0 = false ->
  words (take (col d) (this d)) ++ words (drop (col d) (this d)) = words (this d) ->
  (forall s', par s0 ws s' (d_insert 32 d) -> Q tt s') -> wp (insert_with junk mundef 32) Q noexit s.
Proof.
  intros [R W T C] Hm Ha Hcut H. unfold insert_with. ee_steps. change ((32 =? 9) && expand_tabs s) with false. cbv iota.
  eapply (insert_plain junk mundef s d 32); [exact R|lia|by rewrite (calm_field observ_margins _ _ (fun s => eq_refl) C)|by rewrite (calm_field auto_format _ _ (fun s => eq_refl) C)|].
  intros s' R' Hq He. apply H. split; [done| |by apply He|].
  - rewrite <- W. unfold d_insert. change (Doc (above d) ?t (S (col d)) (below d)) with (at_col (with_this d t) (S (col d))).
    rewrite (all_words_lines (with_this d (take (col d) (this d) ++ 32 :: drop (col d) (this d)))) by done. apply all_words_this. by rewrite words_cut.
  - transitivity s; [done|]. etransitivity; [|by apply quiet_calm]. calm_refl.
Qed.

Lemma par_del_char s d (Q : () -> ee -> Prop) :
  par s0 ws s d -> d_some (d_right d) -> all_words (d_delete (d_right d)) = all_words d ->
  (forall s', par s0 ws s' (d_delete (d_right d)) -> Q tt s') -> wp (del_char junk) Q noexit s.
Proof.
  intros [R W T C] Hd Hw H. eapply wp_del_char; [exact R|exact Hd|]. intros s' R' Hq He. apply H. split; [done|by rewrite Hw|by apply He|].
  transitivity s; [done|]. etransitivity; [|by apply quiet_calm]. calm_refl.
Qed.

Lemma par_del_word s d (Q : () -> ee -> Prop) :
  par s0 ws s d -> all_words (d_del_word d) = all_words d -> (forall s', par s0 ws s' (d_del_word d) -> Q tt s') -> wp del_word Q noexit s.
Proof.
  intros [R W T C] Hw H. eapply wp_del_word; [exact R|]. intros s' R' Hq He. apply H. split; [done|by rewrite Hw|by apply He|].
  transitivity s; [done|]. etransitivity; [|by apply quiet_calm]. calm_refl.
Qed.

Lemma par_newline s d (Q : () -> ee -> Prop) :
  par s0 ws s d -> words (take (col d) (this d)) ++ words (drop (col d) (this d)) = words (this d) ->
  (forall s', par s0 ws s' (d_newline d) -> Q tt s') -> wp (insert_line junk true) Q noexit s.
Proof.
  intros [R W T C] Hw H. eapply wp_mono; [exact (insert_line_all junk s d true R)|]. intros [] s' [[R' Hq] He].
  apply H. split; [done|by rewrite (all_words_newline d Hw)|by apply He|]. transitivity s; [done|]. etransitivity; [|by apply quiet_calm]. calm_refl.
Qed.
End Par.

(** ** Blank lines *)

(** A line that separates paragraphs: blank, or starting with a period or a bracket. *)
Definition blank_line (t : bytes) : bool := (hd0 t =? 46) || (hd0 t =? 62) || forallb is_blank t.

Lemma blank_run_spec t : forall fuel b a r, b = a ++ t ++ r -> r <> [] -> (length t <= fuel)%nat ->
  blank_run fuel b (Z.of_nat (length a)) (1 + Z.of_nat (length a)) (1 + Z.of_nat (length a + length t)) = Some (1 + Z.of_nat (length a + run is_blank t)).
Proof.
  induction t as [|c t IH]; intros fuel b a r -> Hr Hf.
  - destruct r as [|x r]; [done|]. cbn [app length run span fst]. rewrite Nat.add_0_r.
    assert (E : aget (a ++ x :: r) (Z.of_nat (length a)) = Some x) by (by apply aget_app).
    destruct fuel; cbn [blank_run]; rewrite E, Z.ltb_irrefl, andb_false_r; done.
  - destruct fuel as [|fuel]; cbn [length] in Hf; [lia|]. cbn [blank_run app]. rewrite aget_app by done.
    rewrite (proj2 (Z.ltb_lt _ _)), andb_true_r by (cbn [length]; lia). unfold run. cbn [span]. destruct (is_blank c); [|cbn; f_equal; lia].
    specialize (IH fuel ((a ++ [c]) ++ t ++ r) (a ++ [c]) r eq_refl Hr ltac:(lia)). rewrite length_app in IH. cbn [length] in *. rewrite <- app_assoc in IH. cbn [app] in IH.
    replace (Z.of_nat (length a) + 1) with (Z.of_nat (length a + 1)) by lia. replace (1 + Z.of_nat (length a) + 1) with (1 + Z.of_nat (length a + 1)) by lia.
    replace (length a + S (length t))%nat with (length a + 1 + length t)%nat by lia. rewrite IH. unfold run. destruct (span is_blank t) as [x y]. cbn. f_equal. lia.
Qed.

Lemma run_whole f t : (run f t =? length t)%nat = forallb f t.
Proof.
  induction t as [|c t IH]; [done|]. unfold run in *. cbn [span forallb]. destruct (f c); [|done]. destruct (span f t) as [x y]. cbn in *. exact IH.
Qed.

Lemma blank_text_spec n t : node_ok n t -> blank_text n = Some (blank_line t).
Proof.
  intros Hn. destruct (nk_split _ _ Hn) as (r & Er & Hr & _ & Hl). assert (Hne : r <> []) by (destruct r; [cbn in Hr; lia|done]).
  unfold blank_text, blank_line. pose proof (blank_run_spec t (Z.to_nat (line_length n)) (line n) [] r Er Hne ltac:(lia)) as Hb. cbn [length Nat.add Z.of_nat] in Hb.
  rewrite <- Hl in Hb. change (Z.of_nat 0) with 0 in Hb. change (1 + 0) with 1 in Hb. rewrite Hb. rewrite Er.
  assert (Hend : (1 + Z.of_nat (run is_blank t) =? line_length n) = forallb is_blank t).
  { rewrite <- run_whole, Hl. destruct (Nat.eqb_spec (run is_blank t) (length t)) as [->|Hx]; [apply Z.eqb_refl|apply Z.eqb_neq; lia]. }
  rewrite Hend. destruct t as [|c t].
  - destruct r as [|x r]; [done|]. change (aget ([] ++ x :: r) 0) with (Some x). cbv iota beta. by destruct ((x =? 46) || (x =? 62)).
  - change (aget ((c :: t) ++ r) 0) with (Some c). cbv iota beta. cbn [hd0]. by destruct ((c =? 46) || (c =? 62)).
Qed.

(** The lines next to the cursor. *)
Lemma wp_blank_line p s (Q : bool -> ee -> Prop) : (forall l, p = Some l -> exists n t, heap s !! l = Some n /\ node_ok n t) ->
  (forall b, (p = None -> b = true) -> Q b s) -> wp (Blank_Line p) Q noexit s.
Proof.
  intros Hp H. destruct p as [l|]; [|by apply wp_ret, H]. destruct (Hp l eq_refl) as (n & t & E & Hn). unfold Blank_Line. apply wp_bind.
  eapply wp_node; [exact E|]. eapply wp_of_opt; [by apply blank_text_spec|]. by apply H.
Qed.

Lemma wp_prev_blank s d (Q : bool -> ee -> Prop) : Rep s d -> (forall b, (above d = [] -> b = true) -> Q b s) -> wp prev_blank Q noexit s.
Proof.
  intros R H. destruct (Rep_cur s d R) as (n & E & _ & _ & Hprev). unfold prev_blank. apply wp_bind. eapply wp_cur; [exact E|].
  apply wp_blank_line; [|intros b Hb; apply H; intros Ha; by apply Hb, Hprev]. intros l Hl. destruct (above d) as [|t ts] eqn:Ea; [by rewrite (proj2 Hprev eq_refl) in Hl|].
  destruct (Rep_prev s d t ts R Ea) as (n' & l' & m & E' & El' & Em & Hm & _). assert (n' = n) as -> by congruence. assert (l' = l) as -> by congruence. eauto.
Qed.

Lemma wp_next_blank s d (Q : bool -> ee -> Prop) : Rep s d ->
  Q (match below d with [] => true | t :: _ => blank_line t end) s -> wp next_blank Q noexit s.
Proof.
  intros R H. destruct (Rep_cur s d R) as (n & E & _ & Hnext & _). unfold next_blank. apply wp_bind. eapply wp_cur; [exact E|].
  destruct (below d) as [|t ts] eqn:Ea; [rewrite (proj2 Hnext eq_refl); by apply wp_ret|].
  destruct (Rep_next s d t ts R Ea) as (n' & l & E' & El & _ & R'). assert (n' = n) as -> by congruence. rewrite El.
  destruct (Rep_cur _ _ R') as (m & Em & Hm & _). fld_in Em. unfold d_next in Hm. rewrite Ea in Hm. cbn [this] in Hm.
  unfold Blank_Line. apply wp_bind. eapply wp_node; [exact Em|]. eapply wp_of_opt; [by apply blank_text_spec|]. exact H.
Qed.

(** Blocks of commands. *)
Lemma wp_assoc {A B C} (m : E A) (f : A -> E B) (g : B -> E C) Q s :
  wp (bind (bind m f) g) Q noexit s -> wp (bind m (fun a => bind (f a) g)) Q noexit s.
Proof. unfold wp, bind. by destruct (m s). Qed.

(** The test for the end of the line, and what depends on it. *)
Lemma wp_test {A} (m1 m2 : E A) Q s :
  wp (let! b := (let! s := get in let! n := cur in ret (position s <? line_length n)) in if b then m1 else m2) Q noexit s ->
  wp (let! s := get in let! n := cur in if position s <? line_length n then m1 else m2) Q noexit s.
Proof. unfold wp, bind, get, ret. by destruct (cur s). Qed.

(** ** The start of the paragraph *)

Section Steps.
Context (s0 : ee) (ws : list bytes).

Lemma par_climb fuel s d (Q : () -> ee -> Prop) : par s0 ws s d -> col d = O -> (length (above d) <= fuel)%nat ->
  (forall s' d', par s0 ws s' d' -> col d' = O -> Q tt s') ->
  wp (while_ fuel (let! b := prev_blank in ret (negb b)) bol) Q noexit s.
Proof.
  intros Hp Hc Hf H. apply (wp_while (fun n s => exists d, par s0 ws s d /\ col d = O /\ length (above d) = n) _ _ _ _ _ (length (above d))); [eauto|done|].
  clear s d Hp Hc Hf. intros n s (d & Hp & Hc & Hn). apply wp_bind, (wp_prev_blank s d _ (pr_rep _ _ _ _ Hp)). intros b Hb. apply wp_ret. destruct b; cbn [negb]; [by eapply H|].
  destruct n as [|n]; [destruct (above d); [by specialize (Hb eq_refl)|done]|]. exists n. split; [done|].
  eapply par_bol; [exact Hp|]. intros s' Hp'. unfold d_bol in Hp'. rewrite decide_True in Hp' by done. destruct (above d) as [|t ts] eqn:Ea; [done|].
  eexists. split; [exact Hp'|]. split; [done|]. unfold d_prev. rewrite Ea. cbn in *. lia.
Qed.

Lemma par_lines_bound s d (Q : nat -> ee -> Prop) : par s0 ws s d -> (forall n, (length (above d) + length (below d) < n)%nat -> Q n s) -> wp lines_bound Q noexit s.
Proof. intros Hp H. unfold lines_bound. ee_steps. apply H, (Rep_size s d), Hp. Qed.

(** To the start of the line, if not there. *)
Lemma par_line_start s d (Q : () -> ee -> Prop) : par s0 ws s d ->
  (forall s', par s0 ws s' (at_col d 0) -> Q tt s') -> wp (let! p := gets position in if negb (p =? 1) then bol else ret tt) Q noexit s.
Proof.
  intros Hp H. ee_steps. rewrite (rp_pos _ _ (pr_rep _ _ _ _ Hp)). destruct (Z.eqb_spec (1 + Z.of_nat (col d)) 1) as [E|E]; cbn [negb].
  - apply wp_ret. apply H. replace (at_col d 0) with d; [done|]. destruct d; cbn in *. unfold at_col; cbn. f_equal. lia.
  - eapply par_bol; [exact Hp|]. intros s' Hp'. apply H. unfold d_bol in Hp'. rewrite decide_False in Hp' by lia. exact Hp'.
Qed.

Lemma par_to_paragraph s d (Q : () -> ee -> Prop) : par s0 ws s d ->
  (forall s' d', par s0 ws s' d' -> col d' = O -> Q tt s') -> wp to_paragraph Q noexit s.
Proof.
  intros Hp H. unfold to_paragraph. apply wp_assoc, wp_bind. eapply par_line_start; [exact Hp|]. intros s1 Hp1. apply wp_bind.
  eapply par_lines_bound; [exact Hp1|]. intros n Hn. eapply par_climb; [exact Hp1|done|cbn in Hn |- *; lia|exact H].
Qed.

(** ** One line *)

Context (junk : Z).
Hypothesis no_margins : observ_margins s0 = false.
Hypothesis no_auto : auto_format s0 = false.

Lemma nth_last t c x : t !! c = Some x -> nth c (t ++ [0]) 0 = x.
Proof. intros H. apply nth_lookup_Some. by apply lookup_app_l_Some. Qed.

Lemma nth_end t : nth (length t) (t ++ [0]) 0 = 0.
Proof. rewrite app_nth2 by lia. by rewrite Nat.sub_diag. Qed.

Lemma par_end_with_space s d (Q : () -> ee -> Prop) : par s0 ws s d -> col d = length (this d) -> this d <> [] ->
  (forall s' t, par s0 ws s' (Doc (above d) (t ++ [32]) (length (t ++ [32])) (below d)) -> Q tt s') -> wp (end_with_space junk) Q noexit s.
Proof.
  intros Hp Hc Hne H. unfold end_with_space. apply wp_bind. eapply par_left; [exact Hp|]. intros s1 Hp1. apply wp_bind.
  destruct (this d) as [|y t0 _] eqn:Et using rev_ind; [done|]. rewrite length_app, Nat.add_comm in Hc. cbn [length Nat.add] in Hc.
  assert (El : d_left d = at_col d (length t0)) by (unfold d_left; by rewrite Hc). rewrite El in Hp1.
  assert (Er : d_right (at_col d (length t0)) = d).
  { unfold d_right. cbn [at_col col this]. rewrite Et, length_app. cbn [length]. rewrite (proj2 (Nat.ltb_lt _ _)) by lia. destruct d; cbn in *. unfold at_col; cbn. by rewrite Hc. }
  assert (Ed : d = Doc (above d) (t0 ++ [y]) (length (t0 ++ [y])) (below d)) by (rewrite length_app, Nat.add_comm; cbn [length Nat.add]; rewrite <- Hc, <- Et; by destruct d).
  eapply par_peek0; [exact Hp1|]. cbn [at_col col this]. rewrite (nth_last (this d) (length t0) y) by (rewrite Et; by rewrite lookup_app_r, Nat.sub_diag by lia).
  destruct (Z.eqb_spec y 32) as [->|Hy]; cbn [negb].
  - eapply par_right; [exact Hp1|]. intros s2 Hp2. rewrite Er, Ed in Hp2. by eapply H.
  - apply wp_bind. eapply par_right; [exact Hp1|]. intros s2 Hp2. rewrite Er, Ed in Hp2.
    eapply par_space; [exact Hp2|done|done|cbn [col this]; by rewrite words_split_end by lia|]. intros s3 Hp3. unfold d_insert in Hp3. cbn [above this col below] in Hp3.
    rewrite take_ge, drop_ge in Hp3 by lia. apply (H s3 (t0 ++ [y])). rewrite (length_app (t0 ++ [y])), Nat.add_comm. exact Hp3.
Qed.

Lemma first_word_blank t c r : t = c :: r -> is_blank c = true -> first_word t = (span is_blank t).1.
Proof. intros -> Hc. unfold first_word. cbn [span]. rewrite Hc. cbn [negb app span]. by rewrite Hc. Qed.

Lemma span_forallb f t : forallb f (span f t).1 = true.
Proof. induction t as [|c t IH]; [done|]. cbn [span]. destruct (f c) eqn:E; [|done]. destruct (span f t). cbn in *. by rewrite E. Qed.

(** Blanks after a blank taken out. *)
Lemma all_words_del_blanks d u c r : take (col d) (this d) = u ++ [32] -> drop (col d) (this d) = c :: r -> is_blank c = true ->
  all_words (d_del_word d) = all_words d.
Proof.
  intros Hu Hr Hc. unfold d_del_word. apply all_words_this. rewrite Hu, Hr. rewrite <- (take_drop (col d) (this d)), Hu, Hr, <- !app_assoc. cbn [app].
  rewrite !words_cut by done. f_equal. pose proof (first_word_blank (c :: r) c r eq_refl Hc) as Hf.
  transitivity (words (first_word (c :: r) ++ drop (length (first_word (c :: r))) (c :: r))); [|by rewrite first_word_split].
  symmetry. apply words_blanks. rewrite Hf. apply span_forallb.
Qed.

Lemma d_delete_last ab u x be : d_delete (Doc ab (u ++ [x]) (length (u ++ [x])) be) = Doc ab u (length u) be.
Proof.
  unfold d_delete. cbn [col above this below]. replace (length (u ++ [x])) with (S (length u)) by (rewrite length_app; cbn; lia).
  rewrite take_app_length, drop_ge, app_nil_r by (rewrite length_app; cbn; lia). done.
Qed.

Lemma par_join_step s d (Q : () -> ee -> Prop) : par s0 ws s d -> (exists t ts, below d = t :: ts /\ t <> []) ->
  (forall s' d', par s0 ws s' d' -> (length (below d') < length (below d))%nat -> Q tt s') ->
  wp (eol ;; end_with_space junk ;; del_char junk ;; let! c := peek 0 in if is_blank c then del_word else ret tt) Q noexit s.
Proof.
  intros Hp (t & ts & Hb & Ht) H. apply wp_bind. eapply par_eol; [exact Hp|]. intros s1 Hp1. apply wp_bind.
  assert (H1 : exists ab t1 be, d_eol d = Doc ab t1 (length t1) be /\ t1 <> [] /\ (be = below d \/ be = ts)).
  { unfold d_eol. destruct (Nat.ltb_spec (col d) (length (this d))) as [Hlt|Hge].
    - exists (above d), (this d), (below d). split_and!; [done|intros E; rewrite E in Hlt; cbn in Hlt; lia|by left].
    - unfold d_next. rewrite Hb. exists (this d :: above d), t, ts. split_and!; [done|done|by right]. }
  destruct H1 as (ab & t1 & be & E1 & Hne & Hbe). rewrite E1 in Hp1.
  eapply par_end_with_space; [exact Hp1|done|done|]. cbn [above below]. intros s2 u Hp2. apply wp_bind. set (d2 := Doc ab (u ++ [32]) (length (u ++ [32])) be) in *.
  assert (E2 : d_right d2 = d_next d2) by (unfold d_right; cbn [d2 col this]; by rewrite Nat.ltb_irrefl).
  destruct be as [|t2 be].
  - assert (E3 : d_delete (d_right d2) = Doc ab u (length u) []).
    { rewrite E2. apply d_delete_last. }
    eapply par_del_char; [exact Hp2| | |]; rewrite ?E3.
    + rewrite E2. left. unfold d_next. cbn [d2 below col]. rewrite length_app. cbn. lia.
    + rewrite !all_words_at. cbn [d2 above this below]. by rewrite words_blank_r.
    + intros s3 Hp3. apply wp_bind. eapply par_peek0; [exact Hp3|]. cbn [col this]. rewrite nth_end. apply wp_ret. eapply H; [exact Hp3|]. cbn. rewrite Hb. cbn. lia.
  - assert (E3 : d_right d2 = Doc ((u ++ [32]) :: ab) t2 0 be) by (rewrite E2; done).
    assert (E4 : d_delete (d_right d2) = Doc ab ((u ++ [32]) ++ t2) (length (u ++ [32])) be) by (rewrite E3; done).
    assert (Hlen : (length be < length (below d))%nat) by (rewrite Hb; destruct Hbe as [Hbe| <-]; [rewrite Hb in Hbe; injection Hbe as -> ->|]; cbn; lia).
    eapply par_del_char; [exact Hp2| | |]; rewrite ?E4.
    + rewrite E3. right. done.
    + change (Doc ab ((u ++ [32]) ++ t2) (length (u ++ [32])) be) with (d_join (Doc ((u ++ [32]) :: ab) t2 0 be)).
      rewrite (all_words_join _ u 32 ab) by done. rewrite <- E3. apply all_words_lines, lines_d_right.
    + intros s3 Hp3. apply wp_bind. eapply par_peek0; [exact Hp3|]. cbn [col this]. destruct t2 as [|c r].
      { rewrite app_nil_r, nth_end. apply wp_ret. by eapply H. }
      rewrite (nth_last _ _ c) by (by rewrite lookup_app_r, Nat.sub_diag by lia). destruct (is_blank c) eqn:Hcb; [|apply wp_ret; by eapply H].
      eapply par_del_word; [exact Hp3| |].
      * eapply (all_words_del_blanks _ u c r); cbn [col this]; [by rewrite take_app_length|by rewrite drop_app_length|done].
      * intros s4 Hp4. eapply H; [exact Hp4|]. exact Hlen.
Qed.

Lemma par_join s d (Q : () -> ee -> Prop) : par s0 ws s d -> (forall s' d', par s0 ws s' d' -> Q tt s') -> wp (join_paragraph junk) Q noexit s.
Proof.
  intros Hp H. unfold join_paragraph. apply wp_bind. eapply par_lines_bound; [exact Hp|]. intros n Hn.
  apply (wp_while (fun n s => exists d, par s0 ws s d /\ (length (below d) <= n)%nat) _ _ _ _ _ (length (below d))); [eauto|lia|].
  clear s d Hp Hn. intros k s (d & Hp & Hk). apply wp_bind, (wp_next_blank s d _ (pr_rep _ _ _ _ Hp)). apply wp_ret.
  destruct (below d) as [|t ts] eqn:Eb; [cbn [negb]; by eapply H|]. destruct (blank_line t) eqn:Et; cbn [negb]; [by eapply H|].
  destruct k as [|k]; [cbn in Hk; lia|]. exists k. split; [done|]. eapply par_join_step; [exact Hp| |].
  - exists t, ts. split; [done|]. by intros ->.
  - intros s' d' Hp' Hlt. exists d'. split; [done|]. rewrite Eb in Hlt. cbn in *. lia.
Qed.

(** A character inside the line taken out. *)
Lemma d_delete_here d : (col d < length (this d))%nat -> d_delete (d_right d) = with_this d (take (col d) (this d) ++ drop (S (col d)) (this d)).
Proof. intros H. by rewrite d_right_inside. Qed.

Lemma par_del_here s d (Q : () -> ee -> Prop) : par s0 ws s d -> (col d < length (this d))%nat ->
  words (take (col d) (this d) ++ drop (S (col d)) (this d)) = words (this d) ->
  (forall s', par s0 ws s' (with_this d (take (col d) (this d) ++ drop (S (col d)) (this d))) -> Q tt s') -> wp (del_char junk) Q noexit s.
Proof.
  intros Hp Hc Hw H. eapply par_del_char; [exact Hp|rewrite d_right_inside by done; by left| |]; rewrite d_delete_here by done; [by apply all_words_this|exact H].
Qed.

Lemma words_del t c : t !! c = Some 32 -> (t !! S c = Some 32 \/ exists k, c = S k /\ t !! k = Some 32) -> words (take c t ++ drop (S c) t) = words t.
Proof.
  intros Hc Hn. rewrite <- (take_drop_middle t c 32 Hc) at 3. rewrite words_cut by done. destruct Hn as [Hn|(k & -> & Hk)].
  - rewrite (drop_S t 32 (S c) Hn). by rewrite words_cut, words_blank_l by done.
  - rewrite (take_S_r _ _ _ Hk), <- app_assoc. cbn [app]. by rewrite words_cut, words_blank_r by done.
Qed.

Lemma nth_32 t c : nth c (t ++ [0]) 0 = 32 -> t !! c = Some 32.
Proof.
  intros H. destruct (decide (c < length t)%nat) as [Hc|Hc].
  - destruct (lookup_lt_is_Some_2 t c Hc) as [x Hx]. by rewrite (nth_last t c x Hx) in H; subst.
  - destruct (decide (c = length t)) as [->|]; [by rewrite nth_end in H|]. rewrite nth_overflow in H by (rewrite length_app; cbn; lia). done.
Qed.

(** What is left of the text, a newline counted for each line. *)
Definition rem (d : doc) : nat := length (this d) - col d + sum_list (map (fun t => S (length t)) (below d)).

Lemma rem_right d : (rem (d_right d) <= rem d)%nat /\ ((col d < length (this d))%nat -> (rem (d_right d) < rem d)%nat).
Proof.
  unfold d_right, rem. destruct (Nat.ltb_spec (col d) (length (this d))); [cbn [at_col this col below]; lia|]. unfold d_next.
  destruct (below d) as [|t ts] eqn:E; [rewrite E; lia|]. cbn [this col below map sum_list_with]. unfold id. lia.
Qed.

Lemma par_squeeze s d (Q : () -> ee -> Prop) : par s0 ws s d -> (forall s' d', par s0 ws s' d' -> Q tt s') -> wp (squeeze junk) Q noexit s.
Proof.
  intros Hp H. unfold squeeze, along_line. destruct (Rep_cur s d (pr_rep _ _ _ _ Hp)) as (n & E & Hn & _). apply wp_bind. eapply wp_cur; [exact E|].
  apply (wp_while (fun k s => exists d, par s0 ws s d /\ (length (this d) - col d <= k)%nat) _ _ _ _ _ (length (this d) - col d)); [eauto|rewrite (nk_length _ _ Hn); lia|].
  clear s d n Hp E Hn. intros k s (d & Hp & Hk). eapply par_inside; [exact Hp|]. case_bool_decide as Hc; [|by eapply H]. destruct k as [|k]; [lia|]. exists k. split; [done|].
  apply wp_bind. eapply par_peek0; [exact Hp|]. set (c := nth (col d) _ _). assert (Hright : wp (right true) (fun _ s' => exists d, par s0 ws s' d /\ (length (this d) - col d <= k)%nat) noexit s).
  { eapply par_right; [exact Hp|]. intros s' Hp'. rewrite d_right_inside in Hp' by done. eexists. split; [exact Hp'|]. cbn [at_col this col]. lia. }
  destruct (Z.eqb_spec c 32) as [Hc32|_]; [|ee_steps; exact Hright]. apply wp_bind. apply wp_bind. eapply (par_peek _ _ _ _ 1); [exact Hp|lia|]. apply wp_ret.
  destruct (Z.eqb_spec (nth (col d + 1) (this d ++ [0]) 0) 32) as [Hn32|_]; [|exact Hright].
  apply nth_32 in Hc32, Hn32. rewrite Nat.add_1_r in Hn32. eapply par_del_here; [exact Hp|done|apply words_del; auto|].
  intros s' Hp'. eexists. split; [exact Hp'|]. cbn [with_this this col]. rewrite length_app, length_take, length_drop. lia.
Qed.

(** ** Two spaces *)

Definition total (_ : nat) (n : text) (k : nat) : nat := (Z.to_nat (line_length n) + k)%nat.

Lemma total_ge lk : forall h, NoDup (map fst lk) -> Forall (fun p => exists n, h !! p.1 = Some n /\ (p.2 <= Z.to_nat (line_length n))%nat) lk ->
  (1 + sum_list (map snd lk) <= map_fold total 1 h)%nat.
Proof.
  induction lk as [|[l k] lk IH]; intros h Hnd Hf; cbn [map fst snd] in *.
  - apply (map_fold_weak_ind (fun r _ => (1 + sum_list [] <= r)%nat)); [done|]. unfold total. intros. lia.
  - apply list.NoDup_cons in Hnd as [Hl Hnd]. apply Forall_cons_iff in Hf as [(n & En & Hk) Hf]. cbn [fst snd] in *.
    rewrite (map_fold_delete_L total 1%nat l n h); [|unfold total; intros; lia|done].
    specialize (IH (base.delete l h) Hnd). unfold total at 1. cbn [sum_list_with]. unfold id at 1. enough (1 + sum_list (map snd lk) <= map_fold total 1 (base.delete l h))%nat by lia. apply IH.
    apply List.Forall_forall. intros [l' k'] Hin. rewrite List.Forall_forall in Hf. destruct (Hf _ Hin) as (n' & En' & Hk'). exists n'. split; [|done]. cbn [fst] in *.
    rewrite lookup_delete_ne; [done|]. intros <-. apply Hl, list_elem_of_In, in_map_iff. by exists (l, k').
Qed.

Lemma dnw_total h c ls ts : dnw h c ls ts ->
  Forall (fun p => exists n, h !! p.1 = Some n /\ (p.2 <= Z.to_nat (line_length n))%nat) (zip ls (map (fun t => S (length t)) ts)) /\
  map fst (zip ls (map (fun t => S (length t)) ts)) = ls /\ map snd (zip ls (map (fun t => S (length t)) ts)) = map (fun t => S (length t)) ts.
Proof.
  revert c ts. induction ls as [|l ls IH]; intros c [|t ts]; cbn [dnw map zip zip_with]; try done. intros (n & En & Hn & _ & _ & Hd).
  destruct (IH l ts Hd) as (H1 & H2 & H3). split_and!; [|cbn; f_equal; exact H2|cbn; f_equal; exact H3]. constructor; [|exact H1].
  exists n. split; [done|]. rewrite (nk_length _ _ Hn). cbn. lia.
Qed.

Lemma par_text_bound s d (Q : nat -> ee -> Prop) : par s0 ws s d -> (forall n, (rem d < n)%nat -> Q n s) -> wp text_bound Q noexit s.
Proof.
  intros Hp H. unfold text_bound. ee_steps. apply H. pose proof (pr_rep _ _ _ _ Hp) as R. destruct R as [(up & dn & n & P & _) _ _ _ _ _ _].
  destruct (dnw_total _ _ _ _ (pl_dn _ _ _ _ _ _ _ P)) as (H1 & H2 & H3). pose proof (nk_length _ _ (pl_ok _ _ _ _ _ _ _ P)) as Hn.
  pose proof (total_ge ((curr_line s, S (length (this d))) :: zip dn (map (fun t => S (length t)) (below d))) (heap s)) as Ht. cbn [map fst snd] in Ht.
  rewrite H2, H3 in Ht. cbn [sum_list_with] in Ht. unfold id at 1 in Ht. unfold rem. enough (1 + (S (length (this d)) + sum_list (map (fun t => S (length t)) (below d))) <= map_fold total 1 (heap s))%nat by (unfold total in *; lia).
  apply Ht.
  - pose proof (pl_nodup _ _ _ _ _ _ _ P) as Hnd. apply list.NoDup_cons in Hnd as [Hl Hnd]. apply list.NoDup_app in Hnd as (_ & _ & Hnd). apply list.NoDup_cons. split; [|done].
    intros Hx. apply Hl, elem_of_app. by right.
  - constructor; [|exact H1]. exists n. split; [apply (pl_cur _ _ _ _ _ _ _ P)|]. rewrite Hn. cbn. lia.
Qed.

Lemma words_split_before t c x : t !! c = Some x -> is_blank x = true -> words (take c t) ++ words (drop c t) = words t.
Proof.
  intros Hx Hb. rewrite (drop_S t x c Hx), words_blank_l by done. rewrite <- (take_drop_middle t c x Hx) at 3. by rewrite words_cut.
Qed.

(** The spaces at the cursor, after a space, taken out. *)
Lemma par_del_spaces s d k (Q : () -> ee -> Prop) : par s0 ws s d -> col d = S k -> this d !! k = Some 32 ->
  (forall s' d', par s0 ws s' d' -> (rem d' <= rem d)%nat -> Q tt s') ->
  wp (let! n := cur in while_ (Z.to_nat (line_length n)) (let! c := peek 0 in ret (c =? 32)) (del_char junk)) Q noexit s.
Proof.
  intros Hp Hk H32 H. destruct (Rep_cur s d (pr_rep _ _ _ _ Hp)) as (n & E & Hn & _). apply wp_bind. eapply wp_cur; [exact E|].
  apply (wp_while (fun m s => exists d', par s0 ws s d' /\ col d' = S k /\ this d' !! k = Some 32 /\ (rem d' <= rem d)%nat /\ (length (this d') - col d' <= m)%nat) _ _ _ _ _ (length (this d) - col d));
    [exists d; split_and!; try done; lia|rewrite (nk_length _ _ Hn); lia|].
  clear s n E Hn Hp. intros m s (d' & Hp & Hk' & H32' & Hr & Hm). apply wp_bind. eapply par_peek0; [exact Hp|]. apply wp_ret.
  destruct (Z.eqb_spec (nth (col d') (this d' ++ [0]) 0) 32) as [Hc|_]; [|by eapply H]. apply nth_32 in Hc. pose proof (lookup_lt_Some _ _ _ Hc) as Hlt.
  destruct m as [|m]; [lia|]. exists m. split; [done|]. eapply par_del_here; [exact Hp|done|apply words_del; [done|right; exists k; split; [done|by rewrite Hk' in *]]|].
  intros s' Hp'. eexists. split; [exact Hp'|]. cbn [with_this this col]. unfold rem in *. cbn [with_this this col below]. rewrite length_app, length_take, length_drop.
  split_and!; [done| |lia|lia]. rewrite lookup_app_l by (rewrite length_take; lia). rewrite lookup_take_lt by lia. done.
Qed.

Lemma par_space_after_stop s d (Q : () -> ee -> Prop) : par s0 ws s d -> this d !! col d = Some 46 -> this d !! S (col d) = Some 32 ->
  (forall s' d', par s0 ws s' d' -> (rem d' < rem d)%nat -> Q tt s') ->
  wp (right true ;; insert_with junk mundef 32 ;; insert_with junk mundef 32 ;;
      let! n := cur in while_ (Z.to_nat (line_length n)) (let! c := peek 0 in ret (c =? 32)) (del_char junk)) Q noexit s.
Proof.
  intros Hp Hc Hn H. pose proof (lookup_lt_Some _ _ _ Hn) as Hlt. apply wp_bind. eapply par_right; [exact Hp|]. intros s1 Hp1. rewrite d_right_inside in Hp1 by lia.
  apply wp_bind. eapply par_space; [exact Hp1|done|done|cbn [at_col col this]; by apply (words_split_before _ _ 32)|]. intros s2 Hp2.
  set (d2 := d_insert 32 (at_col d (S (col d)))) in *. assert (H2 : this d2 !! S (col d) = Some 32).
  { unfold d2, d_insert. cbn [at_col col this]. rewrite lookup_app_r by (rewrite length_take; lia). by rewrite length_take, Nat.min_l, Nat.sub_diag by lia. }
  assert (Hr2 : (rem d2 < rem d)%nat).
  { unfold rem, d2, d_insert. cbn [at_col col this below]. rewrite length_app. cbn [length]. rewrite length_take, length_drop. lia. }
  assert (Hc2 : col d2 = S (S (col d))) by done. clearbody d2. apply wp_bind. eapply par_space; [exact Hp2|done|done| |].
  { apply words_split. rewrite Hc2. by exists 32. }
  intros s3 Hp3. eapply (par_del_spaces _ _ (S (S (col d)))); [exact Hp3|unfold d_insert; cbn [col]; by rewrite Hc2| |].
  { pose proof (lookup_lt_Some _ _ _ H2). unfold d_insert. cbn [this]. rewrite Hc2. rewrite lookup_app_r by (rewrite length_take; lia). by rewrite length_take, Nat.min_l, Nat.sub_diag by lia. }
  intros s4 d4 Hp4 Hr4. eapply H; [exact Hp4|]. assert (Hr3 : (rem (d_insert 32 d2) <= rem d2)%nat); [|lia].
  unfold rem, d_insert. cbn [col this below]. rewrite length_app. cbn [length]. rewrite length_take, length_drop. lia.
Qed.

Lemma par_two_spaces s d (Q : () -> ee -> Prop) : par s0 ws s d -> (forall s' d', par s0 ws s' d' -> Q tt s') -> wp (two_spaces junk) Q noexit s.
Proof.
  intros Hp H. unfold two_spaces. apply wp_bind. eapply par_text_bound; [exact Hp|]. intros bound Hb.
  apply (wp_while (fun k s => exists d, par s0 ws s d /\ (rem d <= k)%nat) _ _ _ _ _ (rem d)); [eauto|lia|].
  clear s d Hp bound Hb. intros k s (d & Hp & Hk). eapply par_inside; [exact Hp|]. case_bool_decide as Hc; [|by eapply H].
  destruct k as [|k]; [unfold rem in Hk; lia|]. exists k. split; [done|]. apply wp_bind.
  assert (Hright : forall s1 d1, par s0 ws s1 d1 -> (rem (d_right d1) <= k)%nat -> wp (right true) (fun _ s' => exists d, par s0 ws s' d /\ (rem d <= k)%nat) noexit s1).
  { intros s1 d1 Hp1 Hr1. eapply par_right; [exact Hp1|]. intros s' Hp'. eexists. by split; [exact Hp'|]. }
  apply wp_bind. eapply par_peek0; [exact Hp|]. apply wp_bind. destruct (rem_right d) as [_ Hrd]. specialize (Hrd Hc).
  destruct (Z.eqb_spec (nth (col d) (this d ++ [0]) 0) 46) as [Hdot|_]; [|ee_steps; apply (Hright s d Hp); lia]. apply wp_bind.
  eapply (par_peek _ _ _ _ 1); [exact Hp|lia|]. apply wp_ret. destruct (Z.eqb_spec (nth (col d + 1) (this d ++ [0]) 0) 32) as [Hn|_]; [|ee_steps; apply (Hright s d Hp); lia].
  apply nth_32 in Hn. rewrite Nat.add_1_r in Hn. destruct (lookup_lt_is_Some_2 _ _ Hc) as [x Hx]. rewrite (nth_last _ _ x Hx) in Hdot. subst x.
  eapply par_space_after_stop; [exact Hp|done|done|]. intros s1 d1 Hp1 Hr1. apply (Hright s1 d1 Hp1). pose proof (proj1 (rem_right d1)). lia.
Qed.
End Steps.

(** ** Lines between the margins *)

Lemma first_word_cut t : words (take (length (first_word t)) t) ++ words (drop (length (first_word t)) t) = words t.
Proof.
  unfold first_word. destruct (span (fun c => negb (is_blank c)) t) as [w r] eqn:Es. pose proof (span_app _ _ _ _ Es) as ->.
  destruct (span is_blank r) as [bl v] eqn:Ev. pose proof (span_app _ _ _ _ Ev) as ->. cbn [fst]. destruct bl as [|y bl' _] using rev_ind.
  - rewrite app_nil_r. cbn [app]. apply words_split_end. rewrite length_app. destruct v as [|c v]; [cbn; lia|].
    cbn [app] in *. cbn [span] in Ev. destruct (is_blank c) eqn:Ec; [destruct (span is_blank v); done|].
    exfalso. clear Ev. revert Es. revert w. induction w as [|x w IH]; cbn [app span]; [rewrite Ec; cbn [negb]; by destruct (span _ v)|]. destruct (is_blank x); [done|]. cbn [negb].
    destruct (span _ (w ++ c :: v)) as [a b] eqn:E'. intros [= -> ->]. by apply IH.
  - apply words_split. rewrite !length_app, Nat.add_assoc, Nat.add_comm. cbn [length Nat.add]. exists y. split.
    + rewrite lookup_app_r by lia. rewrite Nat.add_comm, Nat.add_sub, <- app_assoc. by rewrite lookup_app_r, Nat.sub_diag by lia.
    + pose proof (span_forallb is_blank ((bl' ++ [y]) ++ v)) as Hb. rewrite Ev in Hb. cbn [fst] in Hb. rewrite forallb_app in Hb. apply andb_prop in Hb as [_ Hb].
      cbn in Hb. by rewrite andb_true_r in Hb.
Qed.

Lemma first_word_pos t : t <> [] -> (0 < length (first_word t))%nat.
Proof.
  destruct t as [|c t]; [done|]. intros _. unfold first_word. cbn [span]. destruct (is_blank c) eqn:E; cbn [negb].
  - cbn [app span]. rewrite E. destruct (span is_blank t). cbn. lia.
  - destruct (span _ t). cbn. lia.
Qed.

Section Fill.
Context (s0 : ee) (ws : list bytes) (junk : Z).

Lemma par_to_margin s d (Q : () -> ee -> Prop) : par s0 ws s d ->
  (forall s' c, par s0 ws s' (at_col d c) -> (c <= length (this d))%nat -> Q tt s') ->
  wp (let! n := cur in while_ (Z.to_nat (line_length n))
       (let! s := get in let! n := cur in ret ((scr_pos s <? right_margin s) && (position s <? line_length n))) (right true)) Q noexit s.
Proof.
  intros Hp H. destruct (Rep_cur s d (pr_rep _ _ _ _ Hp)) as (n & E & Hn & _). apply wp_bind. eapply wp_cur; [exact E|].
  apply (wp_while (fun k s => exists c, par s0 ws s (at_col d c) /\ (c + k = length (this d))%nat) _ _ _ _ _ (length (this d) - col d)).
  - exists (col d). pose proof (rp_col _ _ (pr_rep _ _ _ _ Hp)). split; [by destruct d|lia].
  - rewrite (nk_length _ _ Hn). lia.
  - clear s n E Hn Hp. intros k s (c & Hp & Hk). destruct (Rep_cur s _ (pr_rep _ _ _ _ Hp)) as (n & E & Hn & _). ee_steps. eapply wp_cur; [exact E|]. apply wp_ret.
    rewrite (rp_pos _ _ (pr_rep _ _ _ _ Hp)), (nk_length _ _ Hn). cbn [at_col col this].
    destruct (scr_pos s <? right_margin s); cbn [andb]; [|eapply H; [exact Hp|lia]].
    destruct (Z.ltb_spec (1 + Z.of_nat c) (1 + Z.of_nat (length (this d)))); [|eapply H; [exact Hp|lia]].
    destruct k as [|k]; [lia|]. exists k. split; [done|]. eapply par_right; [exact Hp|]. intros s' Hp'. rewrite d_right_inside in Hp' by (cbn; lia).
    exists (S c). split; [exact Hp'|lia].
Qed.

(** The line broken before the word that crosses the margin. *)
Lemma par_break s d (Q : () -> ee -> Prop) : par s0 ws s d -> (col d < length (this d))%nat ->
  (forall s' d', par s0 ws s' d' -> (length (this d') < length (this d))%nat -> Q tt s') ->
  wp (prev_word ;; let! p := gets position in (if p =? 1 then adv_word else ret tt) ;; insert_line junk true) Q noexit s.
Proof.
  intros Hp Hc H. assert (Hne : this d <> []) by (intros E; rewrite E in Hc; cbn in Hc; lia). pose proof (first_word_pos _ Hne) as Hfw. assert (Hpos : (0 < length (this d))%nat) by lia.
  assert (Hins : forall s1 d1, par s0 ws s1 d1 -> words (take (col d1) (this d1)) ++ words (drop (col d1) (this d1)) = words (this d1) ->
    (length (this d1) - col d1 < length (this d))%nat -> wp (insert_line junk true) Q noexit s1).
  { intros s1 d1 Hp1 Hw1 Hl1. eapply par_newline; [exact Hp1|exact Hw1|]. intros s2 Hp2. eapply H; [exact Hp2|]. unfold d_newline. cbn [this]. rewrite length_drop. lia. }
  assert (Hadv : forall s1 d1, par s0 ws s1 d1 -> col d1 = O -> (this d1 = this d \/ this d1 = []) ->
    wp (adv_word ;; insert_line junk true) Q noexit s1).
  { intros s1 d1 Hp1 Hc1 Ht1. apply wp_bind. eapply par_adv_word; [exact Hp1|]. intros s2 Hp2. rewrite Hc1, drop_0 in Hp2. cbn [Nat.add] in Hp2.
    apply (Hins s2 _ Hp2); cbn [at_col col this]; [apply first_word_cut|]. destruct Ht1 as [->| ->]; cbn [length]; lia. }
  apply wp_bind. destruct (decide (col d = O)) as [Hz|Hz].
  - unfold prev_word. ee_steps. rewrite (rp_pos _ _ (pr_rep _ _ _ _ Hp)), Hz. change (negb (1 + Z.of_nat 0 =? 1)) with false. cbv iota.
    eapply par_left; [exact Hp|]. intros s1 Hp1. ee_steps. rewrite (rp_pos _ _ (pr_rep _ _ _ _ Hp1)). unfold d_left in *. rewrite Hz in *. unfold d_prev in *.
    destruct (above d) as [|t ts] eqn:Ea.
    + rewrite Hz. change (1 + Z.of_nat 0 =? 1) with true. cbv iota. apply wp_bind_inv. apply (Hadv s1 d Hp1 Hz). by left.
    + cbn [col]. destruct (Z.eqb_spec (1 + Z.of_nat (length t)) 1) as [Hl|Hl].
      * apply wp_bind_inv. apply (Hadv s1 _ Hp1); cbn [col this]; [lia|right; destruct t; [done|cbn in Hl; lia]].
      * ee_steps. apply (Hins s1 _ Hp1); cbn [col this]; [apply words_split_end; lia|lia].
  - eapply par_prev_word; [exact Hp|done|]. intros s1 c Hp1 Hlt Hw. ee_steps. rewrite (rp_pos _ _ (pr_rep _ _ _ _ Hp1)). cbn [at_col col].
    destruct (Z.eqb_spec (1 + Z.of_nat c) 1) as [H0|H0].
    + apply wp_bind_inv. apply (Hadv s1 _ Hp1); cbn [at_col col this]; [lia|by left].
    + ee_steps. apply (Hins s1 _ Hp1); cbn [at_col col this]; [by apply words_split|lia].
Qed.

Lemma par_fill_lines s d (Q : () -> ee -> Prop) : par s0 ws s d -> (forall s' d', par s0 ws s' d' -> Q tt s') -> wp (fill_lines junk) Q noexit s.
Proof.
  intros Hp H. unfold fill_lines, along_line. destruct (Rep_cur s d (pr_rep _ _ _ _ Hp)) as (n & E & Hn & _). apply wp_bind. eapply wp_cur; [exact E|].
  apply (wp_while (fun k s => exists d, par s0 ws s d /\ ((col d < length (this d))%nat -> (length (this d) <= k)%nat)) _ _ _ _ _ (length (this d))); [exists d; split; [done|lia]|rewrite (nk_length _ _ Hn); lia|].
  clear s d n Hp E Hn. intros k s (d & Hp & Hk). eapply par_inside; [exact Hp|]. case_bool_decide as Hc; [|by eapply H]. specialize (Hk Hc).
  destruct k as [|k]; [lia|]. exists k. split; [done|].
  apply wp_assoc, wp_bind. eapply par_to_margin; [exact Hp|]. intros s1 c Hp1 Hcl. apply wp_test, wp_bind. eapply par_inside; [exact Hp1|]. cbn [at_col col this].
  case_bool_decide as Hc1.
  - eapply par_break; [exact Hp1|exact Hc1|]. intros s2 d2 Hp2 Hl2. exists d2. split; [done|]. cbn [at_col this] in Hl2. lia.
  - apply wp_ret. eexists. split; [exact Hp1|]. cbn [at_col col this]. lia.
Qed.
End Fill.

(** ** Finding the place again *)

Definition word_byte (c : Z) : bool := negb (c =? 0) && negb (is_blank c).

Lemma word_at_spec t : forall fuel b a r, b = a ++ t ++ r -> r <> [] -> (length t <= fuel)%nat ->
  word_at fuel b (Z.of_nat (length a)) (1 + Z.of_nat (length a)) (1 + Z.of_nat (length a + length t)) = Some (span word_byte t).1.
Proof.
  induction t as [|c t IH]; intros fuel b a r -> Hr Hf.
  - destruct r as [|x r]; [done|]. cbn [app length span fst]. rewrite Nat.add_0_r.
    assert (E : aget (a ++ x :: r) (Z.of_nat (length a)) = Some x) by (by apply aget_app).
    destruct fuel; cbn [word_at]; rewrite E, Z.ltb_irrefl, andb_false_r; done.
  - destruct fuel as [|fuel]; cbn [length] in Hf; [lia|]. cbn [word_at app]. rewrite aget_app by done.
    rewrite (proj2 (Z.ltb_lt _ _)), andb_true_r by (cbn [length]; lia). cbn [span]. change (negb (c =? 0) && negb (is_blank c)) with (word_byte c). destruct (word_byte c); [|done].
    specialize (IH fuel ((a ++ [c]) ++ t ++ r) (a ++ [c]) r eq_refl Hr ltac:(lia)). rewrite length_app in IH. cbn [length] in *. rewrite <- app_assoc in IH. cbn [app] in IH.
    replace (Z.of_nat (length a) + 1) with (Z.of_nat (length a + 1)) by lia. replace (1 + Z.of_nat (length a) + 1) with (1 + Z.of_nat (length a + 1)) by lia.
    replace (length a + S (length t))%nat with (length a + 1 + length t)%nat by lia. rewrite IH. by destruct (span word_byte t).
Qed.

Lemma word_bytes_nul t : Forall (fun c => c <> 0) (span word_byte t).1.
Proof.
  pose proof (span_forallb word_byte t) as H. rewrite forallb_forall in H. apply List.Forall_forall. intros c Hc. apply H in Hc. unfold word_byte in Hc.
  destruct (Z.eqb_spec c 0); [done|done].
Qed.

(** A setting changed on both sides. *)
Lemma calm_srch s s' v : calm s s' -> calm (s <| srch_str := v |>) (s' <| srch_str := v |>).
Proof. unfold calm. intros H. transitivity (loose s' <| srch_str := v |>); [vm_compute; reflexivity|]. rewrite H. vm_compute. reflexivity. Qed.

Lemma calm_margins s s' v : calm s s' -> calm (s <| observ_margins := v |>) (s' <| observ_margins := v |>).
Proof. unfold calm. intros H. transitivity (loose s' <| observ_margins := v |>); [vm_compute; reflexivity|]. rewrite H. vm_compute. reflexivity. Qed.

Lemma calm_case s s' v w : calm s s' -> calm (s <| case_sen := v |>) (s' <| d_word := w |> <| case_sen := v |>).
Proof. unfold calm. intros H. transitivity (loose s' <| case_sen := v |>); [vm_compute; reflexivity|]. rewrite H. vm_compute. reflexivity. Qed.

Lemma par_note_word s0 ws offset s d (Q : Z * (nat * Z) -> ee -> Prop) : par s0 ws s d ->
  (forall r s' d' w, par (s0 <| srch_str := Some w |>) ws s' d' -> Forall (fun c => c <> 0) w -> Q r s') -> wp (note_word offset) Q noexit s.
Proof.
  intros Hp H. unfold note_word. ee_steps. destruct (Rep_cur s d (pr_rep _ _ _ _ Hp)) as (n & E & Hn & _). eapply wp_cur; [exact E|]. cbv zeta.
  assert (Hmove : forall Q', (forall s' c, par s0 ws s' (at_col d c) -> (col d <= c)%nat -> wp Q' Q noexit s') ->
    wp (let! c := peek 0 in (if is_blank c then adv_word else ret tt) ;; Q') Q noexit s).
  { intros Q' HQ. apply wp_bind. eapply par_peek0; [exact Hp|]. apply wp_bind. apply wp_if; intros _.
    - eapply par_adv_word; [exact Hp|]. intros s' Hp'. eapply HQ; [exact Hp'|lia].
    - apply wp_ret. apply (HQ s (col d)); [by destruct d|lia]. }
  apply Hmove. intros s1 c Hp1 Hc. ee_steps. destruct (Rep_cur s1 _ (pr_rep _ _ _ _ Hp1)) as (n1 & E1 & Hn1 & _). eapply wp_cur; [exact E1|].
  destruct (nk_split _ _ Hn1) as (r & Er & Hr & _ & Hl1). cbn [at_col this] in *. pose proof (rp_col _ _ (pr_rep _ _ _ _ Hp1)) as Hc1. cbn [at_col col this] in Hc1.
  pose proof (word_at_spec (drop c (this d)) (Z.to_nat (line_length n1)) (line n1) (take c (this d)) r) as Hw.
  rewrite length_take, length_drop, Nat.min_l in Hw by lia. replace (c + (length (this d) - c))%nat with (length (this d)) in Hw by lia. rewrite <- Hl1 in Hw.
  rewrite (rp_point _ _ (pr_rep _ _ _ _ Hp1)), (rp_pos _ _ (pr_rep _ _ _ _ Hp1)). cbn [at_col col]. apply wp_bind.
  eapply wp_of_opt; [apply Hw; [by rewrite app_assoc, take_drop|destruct r; [cbn in Hr; lia|done]|lia]|].
  set (w := (span word_byte (drop c (this d))).1). assert (Hwl : (length w <= length (this d) - c)%nat).
  { unfold w. rewrite <- length_drop. destruct (span word_byte (drop c (this d))) as [x y] eqn:Ew. apply span_app in Ew. rewrite Ew, length_app. cbn. lia. }
  rewrite (proj2 (Z.leb_le _ _)) by (rewrite (rp_pos _ _ (pr_rep _ _ _ _ Hp)), (nk_length _ _ Hn); lia). ee_steps.
  eapply (H _ _ (at_col d c) w); [|apply word_bytes_nul]. eapply par_set; [exact Hp1|reflexivity|]. apply calm_srch, Hp1.
Qed.

Lemma lines_d_downs j d : lines_of (d_downs j d) = lines_of d.
Proof. unfold d_downs. induction j as [|j IH]; [done|]. cbn [Nat.iter nat_rect]. rewrite lines_d_next. exact IH. Qed.

Lemma rem_downs j d : (j <= length (below d))%nat -> (rem (d_downs j d) + j <= rem d)%nat /\ length (below (d_downs j d)) = (length (below d) - j)%nat.
Proof.
  unfold d_downs. induction j as [|j IH]; intros Hj; [cbn; lia|]. cbn [Nat.iter nat_rect]. destruct IH as [IH1 IH2]; [lia|]. set (e := Nat.iter j d_next d) in *.
  change (nat_rect (fun _ => doc) d (fun _ => d_next) j) with e. unfold d_next. destruct (below e) as [|t ts] eqn:Eb; [cbn in IH2; lia|].
  unfold rem in *. cbn [this col below]. rewrite Eb in IH1. cbn [map sum_list_with length] in *. unfold id in IH1 at 1. lia.
Qed.

Lemma rem_found d j k : (j <= length (below d))%nat -> (k < length (this (d_downs j d)))%nat ->
  (j = O -> (S (col d) <= k)%nat) -> (rem (d_found d (j, k)) < rem d)%nat.
Proof.
  intros Hj Hk Hc. destruct (rem_downs j d Hj) as [Hr _]. unfold d_found. cbn [fst snd]. unfold rem at 1. cbn [at_col this col below].
  destruct j as [|j]; [specialize (Hc eq_refl); unfold d_downs in *; cbn [Nat.iter nat_rect] in *; unfold rem; lia|].
  pose proof (downs_col (S j) d ltac:(lia)) as Hcol. unfold rem in Hr at 1. rewrite Hcol in Hr. lia.
Qed.

Section Find.
Context (s0 : ee) (ws : list bytes) (w : bytes).
Hypothesis searching : srch_str s0 = Some w.
Hypothesis exactly : case_sen s0 = true.
Hypothesis no_nul : Forall (fun c => c <> 0) w.

Lemma par_search s d (Q : bool -> ee -> Prop) : par s0 ws s d ->
  (forall found s' d', par s0 ws s' d' -> (found = true -> (rem d' < rem d)%nat) -> Q found s') -> wp search Q noexit s.
Proof.
  intros Hp H. pose proof (calm_field srch_str _ _ (fun s => eq_refl) (pr_calm _ _ _ _ Hp)) as Hs. pose proof (calm_field case_sen _ _ (fun s => eq_refl) (pr_calm _ _ _ _ Hp)) as Hc.
  rewrite searching in Hs. rewrite exactly in Hc. destruct w as [|x w'].
  - unfold search. ee_steps. rewrite Hs. apply wp_ret. by apply (H false s d Hp).
  - apply (par_moves s0 ws search s d (fun found _ d' => found = true -> (rem d' < rem d)%nat) Q Hp heap_search).
    + eapply wp_mono; [apply (search_finds_first s d (x :: w') (x :: w')); [apply Hp|apply Hp|done|done|by rewrite Hc|done]|]. rewrite Hc.
      intros found s' [Hq Hf]. destruct (find_lines _ _ _ _) as [[j k]|] eqn:Ef.
      * destruct Hf as [-> R']. exists (d_found d (j, k)). split_and!; [done|done|apply lines_d_downs|]. intros _.
        destruct (find_lines_range _ _ _ _ _ _ Ef) as (H1 & H2 & H3). by apply rem_found.
      * destruct Hf as [-> ->]. exists d. split_and!; [apply Hp|reflexivity|done|done].
    + intros found s' d' Hp' _ HP. by eapply H.
Qed.

Lemma par_count fuel : forall line count status s d (Q : nat * bool -> ee -> Prop), par s0 ws s d -> (rem d < fuel)%nat ->
  (forall r s' d', par s0 ws s' d' -> Q r s') -> wp (count_words fuel line count status) Q noexit s.
Proof.
  induction fuel as [|fuel IH]; intros line count status s d Q Hp Hf H; [lia|]. cbn [count_words]. ee_steps. destruct (_ && _); [|by eapply H].
  apply wp_bind. eapply par_search; [exact Hp|]. intros found s1 d1 Hp1 Hr. destruct found; [eapply IH; [exact Hp1|specialize (Hr eq_refl); lia|exact H]|].
  destruct fuel; cbn [count_words]; ee_steps; rewrite andb_false_r; by eapply H.
Qed.

Lemma par_find_again k : forall s d (Q : () -> ee -> Prop), par s0 ws s d -> (forall s' d', par s0 ws s' d' -> Q tt s') -> wp (find_again k) Q noexit s.
Proof.
  induction k as [|k IH]; intros s d Q Hp H; cbn [find_again]; [by eapply H|]. apply wp_bind. eapply par_search; [exact Hp|].
  intros found s1 d1 Hp1 _. by eapply IH.
Qed.

Lemma par_rights k : forall s d (Q : () -> ee -> Prop), par s0 ws s d -> (forall s' d', par s0 ws s' d' -> Q tt s') -> wp (rights k) Q noexit s.
Proof.
  unfold rights. induction k as [|k IH]; intros s d Q Hp H; [by eapply H|]. rewrite Nat.iter_succ. apply wp_bind. eapply par_right; [exact Hp|].
  intros s1 Hp1. by eapply IH.
Qed.
End Find.

(** ** Format *)

Lemma col_bol d : col (d_bol d) = O.
Proof. unfold d_bol. destruct (decide (col d = O)); [|done]. by destruct (above d). Qed.

(** The text made one line and split again, margins off and on. *)
Lemma par_rework junk s0 ws s d (k : E ()) (Q : () -> ee -> Prop) : par s0 ws s d -> auto_format s0 = false ->
  (forall s' d', par (s0 <| observ_margins := false |> <| observ_margins := true |>) ws s' d' -> col d' = O -> wp k Q noexit s') ->
  wp (sets observ_margins false ;; join_paragraph junk ;; bol ;; adv_word ;; squeeze junk ;; bol ;; two_spaces junk ;;
      sets observ_margins true ;; bol ;; fill_lines junk ;; bol ;; k) Q noexit s.
Proof.
  intros Hp Ha H. ee_steps. set (s1 := s0 <| observ_margins := false |>). assert (Hp1 : par s1 ws (s <| observ_margins := false |>) d).
  { eapply par_set; [exact Hp|reflexivity|]. apply calm_margins, Hp. }
  assert (M1 : observ_margins s1 = false) by done. assert (A1 : auto_format s1 = false) by done.
  eapply par_join; [done|done|exact Hp1|]. intros s2 d2 Hp2. ee_steps. eapply par_bol; [exact Hp2|]. intros s3 Hp3. ee_steps.
  eapply par_adv_word; [exact Hp3|]. intros s4 Hp4. ee_steps. eapply par_squeeze; [exact Hp4|]. intros s5 d5 Hp5. ee_steps.
  eapply par_bol; [exact Hp5|]. intros s6 Hp6. ee_steps. eapply par_two_spaces; [done|done|exact Hp6|]. intros s7 d7 Hp7. ee_steps.
  assert (Hp8 : par (s1 <| observ_margins := true |>) ws (s7 <| observ_margins := true |>) d7) by (eapply par_set; [exact Hp7|reflexivity|]; apply calm_margins, Hp7).
  eapply par_bol; [exact Hp8|]. intros s9 Hp9. ee_steps. eapply par_fill_lines; [exact Hp9|]. intros s10 d10 Hp10. ee_steps.
  eapply par_bol; [exact Hp10|]. intros s11 Hp11. eapply H; [exact Hp11|apply col_bol].
Qed.

(** The settings put back. *)
Definition restored (s s' : ee) : Prop := calm s s' /\ d_char s' = d_char s /\ d_word s' = d_word s.

Lemma par_restore s s1 ws d w (Q : () -> ee -> Prop) :
  par (s <| auto_format := false |> <| case_sen := true |> <| srch_str := Some w |> <| observ_margins := false |> <| observ_margins := true |>) ws s1 d ->
  observ_margins s = true -> (forall s', Rep s' d -> all_words d = ws -> terminated s' -> restored s s' -> Q tt s') ->
  wp (modify (fun s' => s' <| d_word := d_word s |> <| case_sen := case_sen s |> <| srch_str := srch_str s |>
                           <| d_char := d_char s |> <| auto_format := auto_format s |>) ;;
      let! s := get in midscreen (scr_vert s) (point s)) Q noexit s1.
Proof.
  intros [R W T C] Hm H. ee_steps. name_state s2. assert (Hc2 : calm s s2).
  { unfold calm in *. transitivity (loose s1 <| case_sen := case_sen s |> <| srch_str := srch_str s |> <| auto_format := auto_format s |>); [vm_compute; reflexivity|].
    rewrite C. destruct s. cbn in Hm. subst. vm_compute. reflexivity. }
  assert (Hh2 : heap s2 = heap s1) by reflexivity. assert (Hd2 : d_char s2 = d_char s) by reflexivity. assert (Hw2 : d_word s2 = d_word s) by reflexivity.
  assert (R2 : Rep s2 d) by (eapply Rep_view; [|exact R]; reflexivity). clearbody s2.
  eapply wp_midscreen_Rep; [exact R2|]. intros s3 Hs3. apply H; [by eapply Rep_same|done| |].
  - apply (ends_same _ _ Hs3), (ends_heap s1 s2 Hh2), T.
  - split; [transitivity s2; [done|by apply quiet_calm, same_quiet]|].
    by rewrite (same_field d_char _ _ (fun s => eq_refl) Hs3), (same_field d_word _ _ (fun s => eq_refl) Hs3).
Qed.

Lemma wp_Format junk s d (Q : () -> ee -> Prop) : Rep s d -> terminated s ->
  (forall s' d', Rep s' d' -> all_words d' = all_words d -> terminated s' -> restored s s' -> Q tt s') -> wp (Format junk) Q noexit s.
Proof.
  intros R T H. unfold Format. ee_steps. cbv zeta. destruct (Rep_cur s d R) as (n & E & Hn & _).
  assert (Hblank : wp (if observ_margins s then Blank_Line (Some (curr_line s)) else ret true) (fun b s' => s' = s /\ (b = false -> observ_margins s = true)) noexit s).
  { destruct (observ_margins s); [|by apply wp_ret]. unfold Blank_Line. apply wp_bind. eapply wp_node; [exact E|]. eapply wp_of_opt; [by apply blank_text_spec|]. done. }
  eapply wp_mono; [exact Hblank|]. intros b s' [-> Hm]. destruct b; [apply wp_ret; apply (H s d); try done; by split_and!|]. specialize (Hm eq_refl).
  ee_steps. set (s1 := s <| auto_format := false |>). set (ws := all_words d). assert (Hp1 : par s1 ws s1 d) by (split; [eapply Rep_view; [|exact R]; reflexivity|done|exact T|reflexivity]).
  assert (Hprev : wp (if negb (position s =? 1) then prev_word else ret tt) (fun _ s' => exists d', par s1 ws s' d') noexit s1).
  { destruct (negb (position s =? 1)); [|apply wp_ret; by exists d]. eapply par_prev_word_any; [exact Hp1|]. eauto. }
  eapply wp_mono; [exact Hprev|]. intros [] s2 (d2 & Hp2). ee_steps.
  assert (Hp3 : par (s1 <| case_sen := true |>) ws (s2 <| d_word := None |> <| case_sen := true |>) d2) by (eapply par_set; [exact Hp2|reflexivity|]; apply calm_case, Hp2).
  eapply par_note_word; [exact Hp3|]. intros [offset line] s4 d4 w Hp4 Hw. ee_steps. eapply par_to_paragraph; [exact Hp4|]. intros s5 d5 Hp5 _. ee_steps.
  eapply par_text_bound; [exact Hp5|]. intros bound Hb. ee_steps.
  eapply (par_count (s1 <| case_sen := true |> <| srch_str := Some w |>) ws w); [reflexivity|reflexivity|exact Hw|exact Hp5|exact Hb|]. intros [string_count status] s6 d6 Hp6. ee_steps.
  eapply par_to_paragraph; [exact Hp6|]. intros s7 d7 Hp7 _. eapply par_rework; [exact Hp7|reflexivity|]. intros s8 d8 Hp8 Hc8. ee_steps.
  eapply par_lines_bound; [exact Hp8|]. intros nl Hnl. ee_steps. eapply par_climb; [exact Hp8|exact Hc8|lia|]. intros s9 d9 Hp9 _. ee_steps.
  assert (Hfind : wp (if status then find_again string_count else ret tt) (fun _ s' => exists d', par (s <| auto_format := false |> <| case_sen := true |> <| srch_str := Some w |> <| observ_margins := false |> <| observ_margins := true |>) ws s' d') noexit s9).
  { destruct status; [|apply wp_ret; by exists d9]. eapply (par_find_again (s <| auto_format := false |> <| case_sen := true |> <| srch_str := Some w |> <| observ_margins := false |> <| observ_margins := true |>) ws w); [reflexivity|reflexivity|exact Hw|exact Hp9|]. eauto. }
  eapply wp_mono; [exact Hfind|]. intros [] s10 (d10 & Hp10). ee_steps. eapply par_rights; [exact Hp10|]. intros s11 d11 Hp11.
  eapply par_restore; [exact Hp11|exact Hm|]. intros s12 R12 W12 T12 S12. by eapply H.
Qed.

(** C15. Formatting a paragraph ends and keeps the words of the text, all of them and in order,
    whatever the text and the margins, and puts back the settings it changes for itself:
    the search string, the case of searches, automatic formatting, and the character and
    the word last deleted. *)
Theorem Format_keeps_words junk s d : Rep s d -> terminated s ->
  exists s' d', Format junk s = SRet tt s' /\ Rep s' d' /\ all_words d' = all_words d /\ terminated s' /\ restored s s'.
Proof.
  intros R T. destruct (wp_run (Format junk) (fun _ s' => exists d', Rep s' d' /\ all_words d' = all_words d /\ terminated s' /\ restored s s') s) as ([] & s' & E & d' & H).
  - apply (wp_Format junk s d _ R T). intros s' d' R' W' T' S'. by exists d'.
  - by exists s', d'.
Qed.

(** A text, with the cursor in line [l] at offset [p]. *)
Fixpoint nodes (i n : nat) (ls : list bytes) : gmap nat text :=
  match ls with
  | [] => ∅
  | t :: ls => <[i := Text (t ++ replicate 10 0) (Z.of_nat i + 1) (1 + Z.of_nat (length t)) (Z.of_nat (length t) + 10)
                        (if (S i <? n)%nat then Some (S i) else None) (pred <$> (if (i =? 0)%nat then None else Some i))]> (nodes (S i) n ls)
  end.

Definition text_at (ls : list bytes) (l : nat) (p margin : Z) : ee :=
  EeKeys.start 0 20 80 <| heap := nodes 0 (length ls) ls |> <| fresh_loc := length ls |> <| right_margin := margin |>
    <| curr_line := l |> <| point := p |> <| position := p + 1 |> <| absolute_lin := 1 + Z.of_nat l |>.

(** The lines from the first on. *)
Fixpoint read_lines (fuel : nat) (h : gmap nat text) (l : option nat) : list bytes :=
  match fuel, l with
  | S fuel, Some l => match h !! l with
                      | Some n => take (Z.to_nat (line_length n - 1)) (line n) :: read_lines fuel h (next_line n)
                      | None => []
                      end
  | _, _ => []
  end.

Definition lines_after {A} (r : sres ee A) : option (list bytes) :=
  match r with SRet _ s => Some (read_lines (size (heap s)) (heap s) (Some (first_line s))) | _ => None end.

Lemma Format_witness : exists s' d', Format 0 (demo <| observ_margins := true |> <| right_margin := 3 |>) = SRet tt s' /\ Rep s' d' /\
  all_words d' = all_words demo_doc /\ terminated s' /\ restored (demo <| observ_margins := true |> <| right_margin := 3 |>) s'.
Proof.
  apply (Format_keeps_words 0 _ demo_doc).
  - eapply Rep_view; [|exact Rep_demo]. reflexivity.
  - intros l n. change (heap (demo <| observ_margins := true |> <| right_margin := 3 |>)) with ({[ 0%nat := demo_1; 1%nat := demo_2 ]} : gmap nat text).
    rewrite lookup_insert_Some, lookup_singleton_Some. intros [[_ <-]|[_ [_ <-]]]; reflexivity.
Defined.

(** A paragraph of two lines as the margin of 12 has it. *)
Example Format_paragraph : lines_after (Format 0 (text_at [bs "first para. it has"; bs "  two lines   of text"; []; bs "next"] 0 3 12)) =
  Some [bs "first "; bs "para.  it "; bs "has two "; bs "lines of "; bs "text"; []; bs "next"].
Proof. vm_compute. reflexivity. Qed.

(** A paragraph of one line is left as it is: bol at the start of a line goes to the line
    above, and the paragraph there is formatted instead. *)
Example Format_one_line : lines_after (Format 0 (text_at [bs "above it"; []; bs "this is too long"] 2 0 6)) =
  Some [bs "above "; bs "it"; []; bs "this is too long"].
Proof. vm_compute. reflexivity. Qed.

(** A word longer than the margin gets an empty line after it, each time. *)
Example Format_long_word : lines_after (Format 0 (text_at [bs "incomprehensible"] 0 0 8)) = Some [bs "incomprehensible"; []].
Proof. vm_compute. reflexivity. Qed.

(** Blanks taken from the start of a line leave their number in d_wrd_len, while d_word is
    the old word again: undelete word then inserts that many bytes of it, and more than it
    has when it is shorter. *)
Example Format_d_wrd_len :
  let s := text_at [bs "ab"; bs "   cd"] 0 0 8 <| d_word := Some (bs "x" ++ [0]) |> <| d_wrd_len := 1 |> in
  match Format 0 s with SRet _ s' => d_wrd_len s' = 3 /\ d_word s' = Some (bs "x" ++ [0]) /\ undel_word 0 s' = SUndef | _ => False end.
Proof. vm_compute. repeat split. Qed.

(** Words that do not fit go to the next line, words that do come from it. *)
Example Auto_Format_paragraph : lines_after (Auto_Format 0 (text_at [bs "a bb ccc"; bs "dd e"; bs "  fff gg"; []; bs "x"] 1 1 8)) =
  Some [bs "a bb "; bs "ccc dd "; bs "e fff "; bs "  gg "; []; bs "x"].
Proof. vm_compute. reflexivity. Qed.

End EeParagraph.
