(* ===== verification/EeLoad.v ===== *)
(** * ee(1): what is read is what is written

    A file read in chunks of at most 512 bytes becomes the list of its lines, and
    writing the text gives the bytes of the file back. *)

From S2P Require Import Prelude Monad EeState EeEdit EeText EeFile EeRep EeMove EeBlock EeKeys EeLink EeInsert EeDemo.
From stdpp Require Import base list gmap numbers.
From Stdlib Require Import ZArith Lia.

Open Scope Z_scope.

Module EeLoad.

Import EeState EeEdit EeText EeFile EeKeys EeRep EeMove EeBlock EeLink EeInsert EeDemo.
Local Open Scope ind_scope.

(** ** Lines of a file *)

(** The first line of a text and the further ones; a newline at the end starts an
    empty last line. *)
Fixpoint segs (xs : bytes) : bytes * list bytes :=
  match xs with
  | [] => ([], [])
  | c :: xs => let (a, r) := segs xs in if c =? 10 then ([], a :: r) else (c :: a, r)
  end.

Lemma segs_cases xs a r : segs xs = (a, r) ->
  (xs = a /\ r = []) \/ exists xs', xs = a ++ 10 :: xs' /\ r = (segs xs').1 :: (segs xs').2.
Proof.
  revert a r. induction xs as [|x xs IH]; intros a r E; cbn in E; [left; by injection E as <- <-|].
  destruct (segs xs) as [b q] eqn:Es. destruct (Z.eqb_spec x 10) as [->|Hx]; injection E as <- <-.
  - right. exists xs. by rewrite Es.
  - destruct (IH b q eq_refl) as [[-> ->]|(xs' & -> & ->)]; [by left|right; by exists xs'].
Qed.

(** The text so far: the lines above, nearest first, and the last line; a piece that
    goes on with the last line, or a line of its own. *)
Definition piece (append : bool) (l : list bytes * bytes) (a : bytes) : list bytes * bytes :=
  if append then (l.1, l.2 ++ a) else (l.2 :: l.1, a).

Definition pieces (append : bool) (l : list bytes * bytes) (xs : bytes) : list bytes * bytes :=
  let (a, r) := segs xs in foldl (piece false) (piece append l a) r.

(** ** The state while reading *)

Definition loaded (s : ee) (l : list bytes * bytes) (be : list bytes) : Prop :=
  exists up dn n, placed (heap s) (fresh_loc s) (Doc l.1 l.2 0 be) up (curr_line s) dn n /\
    head (reverse (curr_line s :: up)) = Some (first_line s).

(** What reading leaves alone. *)
Definition rest (s : ee) : ee := s <| heap := ∅ |> <| fresh_loc := O |> <| curr_line := O |> <| point := 0 |>.

Section Load.
Context (junk : Z).

Lemma find_eol_spec fuel pre xs y z length num :
  num = Z.of_nat (base.length pre) -> length = Z.of_nat (base.length pre + base.length xs) -> (base.length xs <= fuel)%nat ->
  find_eol fuel (pre ++ xs ++ y :: z) length num = Some (num + Z.of_nat (base.length (segs xs).1)).
Proof.
  revert pre fuel num. induction xs as [|x xs IH]; intros pre fuel num Hn Hl Hf.
  - cbn [app segs fst base.length] in *. rewrite Z.add_0_r.
    destruct fuel; cbn [find_eol]; rewrite aget_app by done; rewrite (proj2 (Z.ltb_ge num length)) by lia; by rewrite andb_false_r.
  - destruct fuel as [|f]; [cbn in Hf; lia|]. cbn [find_eol segs]. change ((x :: xs) ++ y :: z) with (x :: xs ++ y :: z).
    rewrite aget_app by done. destruct (segs xs) as [a r] eqn:Es. destruct (Z.eqb_spec x 10) as [->|Hx]; cbn [negb andb fst].
    + cbn. by rewrite Z.add_0_r.
    + rewrite (proj2 (Z.ltb_lt num length)) by (cbn in Hl; lia). specialize (IH (pre ++ [x]) f (num + 1)).
      rewrite <- app_assoc in IH. cbn [app] in IH. rewrite IH.
      * cbn. f_equal. lia.
      * rewrite length_app. cbn. lia.
      * rewrite length_app. cbn in *. lia.
      * cbn in Hf. lia.
Qed.

(** One piece stored. *)
Lemma wp_put_line s append l be buf pre a z (Q : () -> ee -> Prop) :
  loaded s l be -> buf = pre ++ a ++ z ->
  (forall s', loaded s' (piece append l a) be -> rest s' = rest s -> Q tt s') ->
  wp (put_line junk buf append (Z.of_nat (length pre)) (1 + Z.of_nat (length a))) Q noexit s.
Proof.
  intros (up & dn & n & P & Hf) -> H. unfold put_line. pose proof (pl_ok _ _ _ _ _ _ _ P) as Hn. pose proof (pl_cur _ _ _ _ _ _ _ P) as E.
  replace (Z.to_nat _) with (length a) by lia. destruct append; cbn [negb].
  - destruct (nk_split _ _ Hn) as (r & Er & Hr & Hmax & Hll). cbn [this] in *. ee_steps. eapply wp_node; [exact E|]. ee_steps.
    eapply wp_resiz_line; [exact E|lia|lia|]. ee_steps.
    destruct (realloc_app junk (line n) (max_length n + (1 + Z.of_nat (length a)))) as (r2 & -> & Hr2); [rewrite Er, length_app; lia|].
    eapply wp_upd; [fld; apply lookup_insert_eq|]. ee_steps. rewrite Er, length_app in Hr2.
    destruct (append_block pre l.2 a (r ++ r2) z 0) as (r' & Ej & Hr'); [rewrite length_app; lia|].
    eapply wp_edit_line; [fld; apply lookup_insert_eq|fld; rewrite Er, Hll, <- app_assoc;
      replace (1 + Z.of_nat (length l.2) - 1) with (Z.of_nat (length l.2)) by lia; exact Ej|]. ee_steps.
    apply H; [|vm_compute; reflexivity]. set (n2 := n <| max_length := max_length n + (1 + Z.of_nat (length a)) |>
      <| line := (l.2 ++ a) ++ 0 :: r' |> <| line_length := line_length n + (1 + Z.of_nat (length a) - 1) |>).
    exists up, dn, n2. fld. rewrite !insert_insert_eq. split; [|exact Hf].
    apply (placed_set _ _ (Doc l.1 l.2 0 be) _ _ _ n n2 (l.2 ++ a)); [exact P| |done|done].
    eapply (nk_make _ _ (0 :: r')); unfold n2; fld; [done|cbn; lia|..]; rewrite ?length_app in *; cbn [length]; lia.
  - ee_steps. eapply wp_cur; [exact E|]. ee_steps. eapply wp_link_new; [exact P|]. ee_steps.
    set (m := Text (malloc junk (1 + Z.of_nat (length a))) (line_number n + 1) (1 + Z.of_nat (length a)) (1 + Z.of_nat (length a))
      (next_line n) (Some (curr_line s))).
    pose proof (link_gap _ _ _ _ _ _ _ P m eq_refl (pl_next _ _ _ _ _ _ _ P)) as G. cbn [above below] in G. fld.
    assert (Hj : length (malloc junk (1 + Z.of_nat (length a))) = S (length a)) by (unfold malloc; rewrite length_replicate; lia).
    destruct (append_block pre [] a (malloc junk (1 + Z.of_nat (length a))) z 0) as (r' & Ej & Hr'); [rewrite Hj; lia|]. rewrite Hj in Hr'.
    eapply (wp_edit_line _ _ m); [fld; exact (gp_nod G)|exact Ej|]. ee_steps. apply H; [|vm_compute; reflexivity].
    set (m2 := m <| line := ([] ++ a) ++ 0 :: r' |>). pose proof (gap_set_nod _ _ _ _ _ _ _ _ _ _ m2 G eq_refl eq_refl) as G2.
    exists (curr_line s :: up), dn, m2. fld. rewrite head_reverse_cons. split; [|exact Hf].
    apply (gap_lower _ _ _ _ _ _ _ _ _ _ _ _ _ G2); [by apply nk_next|].
    eapply (nk_make _ _ (0 :: r')); unfold m2, m; fld; cbn [line_length max_length length app piece snd]; [done|lia|lia|done].
Qed.

(** The end of the chunk reached. *)
Lemma wp_chunk_end fuel s buf pre a y z length (Q : bool -> ee -> Prop) :
  buf = pre ++ a ++ y :: z -> length = Z.of_nat (base.length pre + base.length a) -> Q (negb (y =? 10)) s ->
  wp (let! c := of_opt (aget buf (Z.of_nat (base.length pre) + Z.of_nat (base.length a))) in
      get_line_loop junk fuel buf length (Z.of_nat (base.length pre) + Z.of_nat (base.length a)) false
        ((Z.of_nat (base.length pre) + Z.of_nat (base.length a) =? length) && negb (c =? 10))) Q noexit s.
Proof.
  intros Hb Hl H. apply wp_bind. rewrite app_assoc in Hb. eapply wp_of_opt; [rewrite Hb; apply aget_app; rewrite length_app; lia|].
  destruct fuel; cbn [get_line_loop]; rewrite (proj2 (Z.ltb_ge _ length)) by lia; apply wp_ret;
    by rewrite (proj2 (Z.eqb_eq _ length)) by lia.
Qed.

(** The loop over the pieces of a chunk. *)
Lemma wp_get_line_body fuel s append l be buf pre xs y z (Q : bool -> ee -> Prop) length :
  loaded s l be -> buf = pre ++ xs ++ y :: z -> length = Z.of_nat (base.length pre + base.length xs) ->
  (base.length xs <= fuel)%nat ->
  (forall s', loaded s' (pieces append l xs) be -> rest s' = rest s -> Q (negb (y =? 10)) s') ->
  wp (let! num := of_opt (find_eol (Z.to_nat length) buf length (Z.of_nat (base.length pre))) in
      put_line junk buf append (Z.of_nat (base.length pre)) (1 + (num - Z.of_nat (base.length pre))) ;;
      let! c := of_opt (aget buf num) in
      get_line_loop junk fuel buf length num false ((num =? length) && negb (c =? 10))) Q noexit s.
Proof.
  revert s append l pre xs. induction fuel as [|fuel IH]; intros s append l pre xs L Hb Hlen Hfuel H.
  all: apply wp_bind; eapply wp_of_opt; [rewrite Hb; apply find_eol_spec; lia|].
  all: destruct (segs xs) as [a r] eqn:Es; cbn [fst]; unfold pieces in H; rewrite Es in H; apply wp_bind.
  all: replace (1 + (Z.of_nat (base.length pre) + Z.of_nat (base.length a) - Z.of_nat (base.length pre)))
    with (1 + Z.of_nat (base.length a)) by lia.
  all: destruct (segs_cases _ _ _ Es) as [[-> ->]|(xs' & -> & ->)]; [|rewrite ?length_app in Hfuel; cbn in Hfuel; try lia].
  - eapply wp_put_line; [exact L|exact Hb|]. intros s1 L1 Hr1. eapply wp_chunk_end; [exact Hb|lia|]. by apply H.
  - eapply wp_put_line; [exact L|exact Hb|]. intros s1 L1 Hr1. eapply wp_chunk_end; [exact Hb|lia|]. by apply H.
  - rewrite <- app_assoc in Hb. eapply wp_put_line; [exact L|exact Hb|]. intros s1 L1 Hr1. apply wp_bind.
    rewrite app_assoc in Hb. eapply wp_of_opt; [rewrite Hb; apply aget_app; rewrite length_app; lia|].
    cbn [get_line_loop]. rewrite length_app in Hlen. cbn [base.length] in Hlen.
    rewrite (proj2 (Z.ltb_lt _ length)) by lia. rewrite (andb_false_r _).
    replace (Z.of_nat (base.length pre) + Z.of_nat (base.length a) + 1) with (Z.of_nat (base.length ((pre ++ a) ++ [10])))
      by (rewrite !length_app; cbn; lia).
    eapply (IH s1 false (piece append l a) _ xs'); [exact L1| | |lia|].
    + rewrite Hb, <- !app_assoc. done.
    + rewrite !length_app. cbn. lia.
    + intros s2 L2 Hr2. apply H; [|by rewrite Hr2]. unfold pieces in L2. destruct (segs xs'). exact L2.
Qed.

Lemma wp_get_line s append l be xs y z (Q : bool -> ee -> Prop) :
  loaded s l be -> in_string s = xs ++ y :: z -> xs <> [] ->
  (forall s', loaded s' (pieces append l xs) be -> rest s' = rest s -> Q (negb (y =? 10)) s') ->
  wp (get_line junk (Z.of_nat (length xs)) append) Q noexit s.
Proof.
  intros L Hb Hne H. unfold get_line. ee_steps. cbn [get_line_loop]. rewrite (proj2 (Z.ltb_lt _ _)) by (destruct xs; [done|cbn; lia]).
  apply (wp_get_line_body _ s append l be _ [] xs y z); [exact L|exact Hb|done|lia|exact H].
Qed.
End Load.

(** ** The whole file *)

(** What the calls of read(2) give for a regular file. *)
Fixpoint chop (fuel : nat) (xs : bytes) : list bytes :=
  match fuel, xs with
  | S f, _ :: _ => take 512 xs :: chop f (drop 512 xs)
  | _, _ => []
  end.

Definition reads (xs : bytes) : list bytes := chop (length xs) xs.

Lemma piece_nil b l a : piece true (piece b l []) a = piece b l a.
Proof. destruct b; cbn; [by rewrite app_nil_r|done]. Qed.

Lemma piece_app b l a a' : piece true (piece b l a) a' = piece b l (a ++ a').
Proof. destruct b; cbn; [by rewrite app_assoc|done]. Qed.

Lemma pieces_cons b l x xs :
  pieces b l (x :: xs) = if x =? 10 then pieces false (piece b l []) xs else pieces true (piece b l [x]) xs.
Proof.
  unfold pieces. cbn [segs]. destruct (segs xs) as [a r]. destruct (x =? 10); cbn [foldl]; [done|]. by rewrite piece_app.
Qed.

Lemma pieces_app b l xs ys : pieces b l (xs ++ ys) = pieces true (pieces b l xs) ys.
Proof.
  revert b l. induction xs as [|x xs IH]; intros b l.
  - cbn [app]. unfold pieces at 1 3. cbn. unfold pieces. destruct (segs ys) as [a r]. by rewrite piece_nil.
  - cbn [app]. rewrite !pieces_cons. destruct (x =? 10); apply IH.
Qed.

(** The text that the lines stand for. *)
Definition unlines (ls : list bytes) : bytes := concat (map (fun t => t ++ [10]) ls).
Definition text_of (l : list bytes * bytes) : bytes := unlines (reverse l.1) ++ l.2.

Lemma unlines_app a b : unlines (a ++ b) = unlines a ++ unlines b.
Proof. unfold unlines. by rewrite map_app, concat_app. Qed.

Lemma text_of_piece l a : text_of (piece true l a) = text_of l ++ a /\ text_of (piece false l a) = text_of l ++ 10 :: a.
Proof.
  unfold text_of, piece. cbn [fst snd]. split; [by rewrite app_assoc|].
  rewrite reverse_cons, unlines_app. unfold unlines at 2. cbn. by rewrite <- !app_assoc.
Qed.

Lemma text_of_pieces b l xs : text_of (pieces b l xs) = text_of (piece b l []) ++ xs.
Proof.
  revert b l. induction xs as [|x xs IH]; intros b l; [by rewrite app_nil_r|]. rewrite pieces_cons.
  destruct (Z.eqb_spec x 10) as [->|Hx]; rewrite IH.
  - rewrite (proj2 (text_of_piece (piece b l []) [])). by rewrite <- app_assoc.
  - rewrite <- (piece_nil b l [x]). rewrite !(proj1 (text_of_piece _ _)). by rewrite app_nil_r, <- app_assoc.
Qed.

Section Whole.
Context (junk : Z).

(** What reading a file leaves alone. *)
Definition rest' (s : ee) : ee := rest s <| in_string := [] |>.

(** The buffer has a byte after the 512 that read(2) may store, not a newline. *)
Definition buffer_ok (s : ee) : Prop := exists b y, in_string s = b ++ [y] /\ length b = 512%nat /\ y <> 10.

Lemma rest_buffer s s' : rest s' = rest s -> buffer_ok s -> buffer_ok s'.
Proof. intros H. unfold buffer_ok. by replace (in_string s') with (in_string s) by exact (f_equal in_string (eq_sym H)). Qed.

Lemma rest_rest' s s' : rest s' = rest s -> rest' s' = rest' s.
Proof. unfold rest'. by intros ->. Qed.

Lemma wp_read_loop fuel xs s append l be (Q : () -> ee -> Prop) :
  loaded s l be -> buffer_ok s -> (length xs <= fuel)%nat -> xs <> [] ->
  (forall s', loaded s' (pieces append l xs) be -> rest' s' = rest' s -> Q tt s') ->
  wp (read_loop junk (chop fuel xs) append) Q noexit s.
Proof.
  revert xs s append l. induction fuel as [|f IH]; intros xs s append l L Hb Hf Hne H; [by destruct xs; cbn in Hf; try lia|].
  destruct xs as [|x xs]; [done|]. set (xs' := x :: xs) in *. change (chop (S f) xs') with (take 512 xs' :: chop f (drop 512 xs')). destruct Hb as (b & y & Eb & Hb & Hy).
  set (c := take 512 xs'). cbn [read_loop]. ee_steps.
  assert (Hc : (0 < length c <= 512)%nat) by (unfold c, xs'; rewrite length_take; cbn [length]; lia).
  assert (Ez : exists y' z, drop (length c) (in_string s) = y' :: z /\ (length c = 512%nat -> y' = y /\ z = [])).
  { rewrite Eb. destruct (decide (length c = 512%nat)) as [->|Hlt].
    - exists y, []. rewrite <- Hb, drop_app_length. done.
    - rewrite drop_app_le by lia. destruct (drop (length c) b) as [|y' z] eqn:Ed.
      + apply (f_equal length) in Ed. rewrite length_drop in Ed. cbn [length] in Ed. lia.
      + exists y', (z ++ [y]). split; [done|lia]. }
  destruct Ez as (y' & z & Ez & Hyz).
  eapply (wp_get_line junk _ append l be c y' z); [exact L|fld; by rewrite Ez|intros ->; cbn [length] in Hc; lia|].
  intros s1 L1 Hr1. assert (Hr1' : rest' s1 = rest' s).
  { transitivity (rest' (s <| in_string := c ++ drop (length c) (in_string s) |>)); [by apply rest_rest'|reflexivity]. }
  destruct (decide (512 < length xs')%nat) as [Hlong|Hshort].
  - assert (Hc512 : length c = 512%nat) by (unfold c; rewrite length_take; lia). destruct (Hyz Hc512) as [-> ->].
    rewrite (proj2 (Z.eqb_neq y 10)) by done. cbn [negb].
    eapply (IH (drop 512 xs') s1 true (pieces append l c)); [exact L1| |rewrite length_drop; lia| |].
    + eapply rest_buffer; [exact Hr1|]. exists c, y. fld. by rewrite Ez.
    + intros Hd. apply (f_equal length) in Hd. rewrite length_drop in Hd. cbn [length] in Hd. lia.
    + intros s2 L2 Hr2. apply H; [|by rewrite Hr2]. rewrite <- pieces_app in L2. unfold c in L2. by rewrite take_drop in L2.
  - unfold c in *. rewrite take_ge in * by lia. rewrite drop_ge by lia.
    assert (Hnil : chop f ([] : bytes) = []) by (by destruct f). rewrite Hnil. cbn [read_loop]. apply wp_ret. by apply H.
Qed.

(** ** The end of the file *)

Lemma relinked_insert h l n dn c : l ∉ dn -> relinked (<[l := n]> h) dn c = <[l := n]> (relinked h dn c).
Proof.
  intros Hl. destruct dn as [|u us]; [done|]. cbn [relinked]. assert (l <> u) by (intros ->; apply Hl; left).
  rewrite lookup_insert_ne by done. destruct (h !! u); [|done]. by rewrite insert_insert_ne.
Qed.

Lemma wp_drop_last s t ab be (Q : () -> ee -> Prop) :
  loaded s (t :: ab, []) be -> (forall s', loaded s' (ab, t) be -> rest s' = rest s -> Q tt s') -> wp drop_last Q noexit s.
Proof.
  intros (up & dn & n & P & Hf) H. cbn [fst snd] in P.
  destruct (placed_above _ _ _ _ _ _ _ _ _ _ _ 0%nat P) as (u & us & n' & -> & P' & Hp).
  pose proof (pl_ok _ _ _ _ _ _ _ P') as Hn'. cbn [this] in Hn'.
  destruct (upper_gap _ _ _ _ _ _ _ _ _ _ _ P') as (nod & dn' & m & [= <- <-] & G & Hm).
  destruct (gap_notin _ _ _ _ _ _ _ _ _ _ G) as (N1 & N2 & N3 & N4 & N5).
  assert (m = n) as -> by (pose proof (gp_nod G); pose proof (pl_cur _ _ _ _ _ _ _ P); congruence).
  unfold drop_last. ee_steps. eapply wp_node; [exact (gp_nod G)|]. rewrite Hp. cbn [deref of_opt]. ee_steps.
  set (n2 := n' <| next_line := next_line n |>). eapply wp_upd; [exact (gp_l G)|]. rewrite (gp_mnext _ _ _ _ _ _ _ _ _ _ G). ee_steps.
  eapply (wp_relink _ dn); [fld; apply dnw_frame; [done|exact (gp_dn _ _ _ _ _ _ _ _ _ _ G)]|]. ee_steps.
  eapply wp_free_node; [fld; rewrite relinked_insert, lookup_insert_ne, relinked_lookup by done; by rewrite (gp_nod G)|]. ee_steps.
  apply H; [|vm_compute; reflexivity]. exists us, dn, n2. fld. rewrite head_reverse_cons in Hf. split; [|exact Hf].
  rewrite <- (gp_mnext _ _ _ _ _ _ _ _ _ _ G), relinked_insert by done.
  eapply unlink_placed; [exact G|by apply nk_next|done|done].
Qed.
(** The same list of nodes seen from its first line. *)
Lemma placed_top h fr ab t be c up l dn n first :
  placed h fr (Doc ab t c be) up l dn n -> head (reverse (l :: up)) = Some first ->
  exists t0 ts dn' n', reverse ab ++ t :: be = t0 :: ts /\ placed h fr (Doc [] t0 0 ts) [] first dn' n'.
Proof.
  revert t be c up l dn n. induction ab as [|x ab IH]; intros t be c up l dn n P Hf.
  - exists t, be, dn, n. split; [done|]. pose proof (pl_up _ _ _ _ _ _ _ P) as Hu. destruct up; [|done].
    cbn in Hf. injection Hf as <-. by eapply placed_col.
  - destruct (placed_above _ _ _ _ _ _ _ _ _ _ _ 0%nat P) as (u & us & n' & -> & P' & _). rewrite head_reverse_cons in Hf.
    destruct (IH x (t :: be) 0%nat us u (l :: dn) n' P' Hf) as (t0 & ts & dn' & n2 & E & P2). exists t0, ts, dn', n2.
    rewrite reverse_cons, <- app_assoc. done.
Qed.

Lemma wp_write_lines fuel s c dn ts k ch (Q : bytes * Z * Z -> ee -> Prop) :
  dnw (heap s) c dn ts -> (length dn <= fuel)%nat ->
  Q (unlines ts, k + Z.of_nat (length ts), ch + Z.of_nat (length (unlines ts))) s ->
  wp (write_lines fuel (head dn) k ch) Q noexit s.
Proof.
  revert c dn ts k ch Q. induction fuel as [|f IH]; intros c dn ts k ch Q Hd Hf H; destruct dn as [|l dn], ts as [|t ts]; try done; try (cbn in Hf; lia).
  1,2: cbn [head write_lines]; apply wp_ret; cbn in H; by rewrite !Z.add_0_r in H.
  destruct Hd as (n & E & Hn & Hp & Hx & Hd). cbn [head write_lines]. apply wp_bind. eapply wp_node; [exact E|].
  destruct (nk_split _ _ Hn) as (r & Er & Hr & Hmax & Hll). cbv zeta. replace (Z.to_nat _) with (length t) by lia.
  rewrite Er, (proj2 (Nat.ltb_ge _ _)) by (rewrite length_app; lia). rewrite take_app_length, Hx. apply wp_bind.
  eapply (IH l dn ts); [exact Hd|cbn in Hf; lia|]. apply wp_ret. change (unlines (t :: ts)) with ((t ++ [10]) ++ unlines ts) in H.
  rewrite <- app_assoc in H. cbn [app] in H. rewrite Hll.
  replace (ch + (1 + Z.of_nat (length t)) + Z.of_nat (length (unlines ts))) with (ch + Z.of_nat (length (t ++ 10 :: unlines ts)))
    by (rewrite length_app; cbn [length]; lia).
  replace (k + 1 + Z.of_nat (length ts)) with (k + Z.of_nat (length (t :: ts))) by (cbn [length]; lia). exact H.
Qed.

(** What write_file gives to the file: every line and a newline after it. *)
Lemma wp_write_file s d (Q : bytes * Z * Z -> ee -> Prop) :
  Rep s d -> Q (unlines (lines_of d), Z.of_nat (length (lines_of d)), Z.of_nat (length (unlines (lines_of d)))) s ->
  wp write_file Q noexit s.
Proof.
  intros [(up & dn & n & P & Hf) _ _ _ _ _ _] H. destruct d as [ab t c be].
  destruct (placed_top _ _ _ _ _ _ _ _ _ _ _ P Hf) as (t0 & ts & dn' & n' & E & P'). unfold lines_of in H. cbn [above this below] in H.
  rewrite E in H. unfold write_file, lines_bound. ee_steps. pose proof (placed_count _ _ _ _ _ _ _ P') as Hsz. cbn [length app] in Hsz.
  pose proof (pl_ok _ _ _ _ _ _ _ P') as Hn. cbn [this] in Hn. destruct (size (heap s)) as [|f]; [lia|]. cbn [write_lines]. apply wp_bind.
  eapply wp_node; [exact (pl_cur _ _ _ _ _ _ _ P')|]. destruct (nk_split _ _ Hn) as (r & Er & Hr & Hmax & Hll).
  cbv zeta. replace (Z.to_nat _) with (length t0) by lia. rewrite Er, (proj2 (Nat.ltb_ge _ _)) by (rewrite length_app; lia).
  rewrite take_app_length, (pl_next _ _ _ _ _ _ _ P'). apply wp_bind.
  eapply wp_write_lines; [exact (pl_dn _ _ _ _ _ _ _ P')|lia|]. apply wp_ret. cbn [below] in *.
  change (unlines (t0 :: ts)) with ((t0 ++ [10]) ++ unlines ts) in H. rewrite <- app_assoc in H. cbn [app] in H. rewrite Hll.
  replace (0 + (1 + Z.of_nat (length t0)) + Z.of_nat (length (unlines ts))) with (Z.of_nat (length (t0 ++ 10 :: unlines ts)))
    by (rewrite length_app; cbn [length]; lia).
  replace (0 + 1 + Z.of_nat (length ts)) with (Z.of_nat (length (t0 :: ts))) by (cbn [length]; lia). exact H.
Qed.

(** ** The file to edit *)

(** The text before a file is read: one empty line. *)
Definition blank : doc := Doc [] [] 0 [].

(** The lines of a file, the last first; a newline at the end does not start another. *)
Definition last_lines (c : bytes) : list bytes * bytes :=
  match pieces true ([], []) c with
  | (t :: ab, []) => (ab, t)
  | l => l
  end.
Definition file_lines (c : bytes) : list bytes := reverse (last_lines c).1 ++ [(last_lines c).2].

Lemma pieces_nonempty c : c <> [] -> pieces true ([], []) c <> ([], []).
Proof. intros Hc E. pose proof (text_of_pieces true ([], []) c) as H. rewrite E in H. by destruct c. Qed.

Lemma wp_get_file s c (Q : () -> ee -> Prop) :
  Rep s blank -> buffer_ok s ->
  (forall s', loaded s' (last_lines c) [] -> rest' s' = rest' (s <| in_ := -1 |>) -> Q tt s') ->
  wp (get_file junk true true (reads c)) Q noexit s.
Proof.
  intros R Hb H. destruct (Rep_cur s blank R) as (n & E & Hn & _). unfold get_file. apply wp_bind. eapply wp_cur; [exact E|].
  rewrite (nk_length _ _ Hn). change (1 <? 1 + Z.of_nat (length (this blank))) with false. ee_steps.
  assert (L : loaded s ([], []) []) by (destruct R as [(up & dn & m & P & Hf) _ _ _ _ _ _]; by exists up, dn, m).
  destruct (decide (c = [])) as [->|Hc].
  { cbn. ee_steps. eapply wp_cur; [exact E|]. ee_steps. apply H; [|reflexivity]. exact L. }
  unfold reads. eapply wp_read_loop; [exact L|exact Hb|lia|exact Hc|]. intros s1 L1 Hr1. ee_steps.
  assert (Hcan : bool_decide (chop (length c) c = []) = false) by (apply bool_decide_eq_false; by destruct c).
  rewrite Hcan. cbn [negb andb]. pose proof (pieces_nonempty c Hc) as Hp. unfold last_lines in H.
  destruct (pieces true ([], []) c) as [ab t] eqn:Ep. pose proof L1 as (up & dn & m & P & _).
  eapply wp_cur; [exact (pl_cur _ _ _ _ _ _ _ P)|]. rewrite (nk_length _ _ (pl_ok _ _ _ _ _ _ _ P)). cbn [this snd].
  assert (Hend : forall s2, rest' s2 = rest' s1 -> rest' (s2 <| in_ := -1 |>) = rest' (s <| in_ := -1 |>)).
  { intros s2 Hr2. transitivity (rest' s2 <| in_ := -1 |>); [reflexivity|]. rewrite Hr2, Hr1. reflexivity. }
  destruct t as [|x t].
  - destruct ab as [|t ab]; [done|]. change (1 + Z.of_nat (length []) =? 1) with true. ee_steps.
    eapply wp_drop_last; [exact L1|]. intros s2 L2 Hr2. ee_steps. apply H; [exact L2|]. by apply Hend, rest_rest'.
  - rewrite (proj2 (Z.eqb_neq _ 1)) by (cbn [length]; lia). ee_steps. apply H; [|by apply Hend]. destruct ab; exact L1.
Qed.

Lemma wp_check_fp s c (Q : () -> ee -> Prop) :
  Rep s blank -> buffer_ok s ->
  (forall s' d, Rep s' d -> above d = [] -> col d = O -> lines_of d = file_lines c -> text_changes s' = text_changes s -> facts s' = facts s -> Q tt s') ->
  wp (check_fp junk true (reads c)) Q noexit s.
Proof.
  intros R Hb H. unfold check_fp. ee_steps. eapply wp_get_file; [exact R|exact Hb|]. intros s1 (up & dn & n & P & Hf) Hr1. ee_steps.
  destruct (placed_top _ _ _ _ _ _ _ _ _ _ _ P Hf) as (t0 & ts & dn' & n' & E & P').
  unfold draw_screen. ee_steps. name_state s2.
  assert (R2 : Rep s2 (Doc [] t0 0 ts)).
  { assert (Hs2 : rest' s2 = rest' s1 <| scr_vert := scr_vert s |> <| scr_horz := scr_horz s |>) by reflexivity. rewrite Hr1 in Hs2.
    split; cbn [above this col below].
    - exists [], dn', n'. unfold s2. fld. split; [exact P'|done].
    - rewrite (f_equal position Hs2 : position s2 = position s). exact (rp_pos _ _ R).
    - done.
    - lia.
    - rewrite (f_equal absolute_lin Hs2 : absolute_lin s2 = absolute_lin s). exact (rp_abs _ _ R).
    - unfold window_ok. rewrite (f_equal COLS Hs2 : COLS s2 = COLS s), (f_equal last_col Hs2 : last_col s2 = last_col s). exact (rp_window _ _ R).
    - rewrite (f_equal ee_chinese Hs2 : ee_chinese s2 = ee_chinese s). exact (rp_narrow _ _ R). }
  assert (Ht : text_changes s2 = text_changes s).
  { change (text_changes s1 = text_changes s). exact (f_equal text_changes Hr1). }
  assert (Hf2 : facts s2 = facts s) by (change (facts s1 = facts s); exact (f_equal facts Hr1)).
  clearbody s2. pose proof R2 as [(up2 & dn2 & n2 & P2 & _) _ _ _ _ _ _].
  eapply wp_mono; [apply wp_draw_screen_loop; [by eapply placed_closed|]; intros ? [= <-]; by rewrite (pl_cur _ _ _ _ _ _ _ P2)|].
  intros [] s3 [Hs3 _]. ee_steps. apply (H s3 (Doc [] t0 0 ts)); [by eapply Rep_same|done|done| | |].
  - unfold lines_of, file_lines. cbn [above this below]. by rewrite <- E.
  - rewrite <- Ht. exact (same_field text_changes _ _ (fun s => eq_refl) Hs3).
  - rewrite <- Hf2. exact (same_field facts _ _ (fun s => eq_refl) Hs3).
Qed.

(** A file as write_file leaves it: with a newline at the end. *)
Definition with_newline (c : bytes) : bytes := if bool_decide (head (reverse c) = Some 10) then c else c ++ [10].

Lemma with_newline_yes c : with_newline (c ++ [10]) = c ++ [10].
Proof. unfold with_newline. rewrite reverse_app. cbn [reverse]. by rewrite bool_decide_eq_true_2. Qed.

Lemma with_newline_no c y : y <> 10 -> with_newline (c ++ [y]) = (c ++ [y]) ++ [10].
Proof. intros Hy. unfold with_newline. rewrite reverse_app. rewrite bool_decide_eq_false_2; [done|]. cbn. by intros [= ->]. Qed.

Lemma pieces_plain b l xs : Forall (fun y => y <> 10) l.2 -> Forall (fun y => y <> 10) (pieces b l xs).2.
Proof.
  revert b l. induction xs as [|x xs IH]; intros b l Hl.
  - destruct b; cbn; [by rewrite app_nil_r|constructor].
  - rewrite pieces_cons. destruct (Z.eqb_spec x 10) as [->|Hx]; apply IH; destruct b; cbn; rewrite ?app_nil_r; try done; try by constructor.
    apply Forall_app. split; [done|by constructor].
Qed.

Lemma last_lines_keep c : (pieces true ([], []) c).2 <> [] -> last_lines c = pieces true ([], []) c.
Proof. unfold last_lines. by destruct (pieces true ([], []) c) as [[|? ?] [|? ?]]. Qed.

Lemma unlines_file_lines c : unlines (file_lines c) = with_newline c.
Proof.
  unfold file_lines. pose proof (text_of_pieces true ([], []) c) as Ht. pose proof (pieces_plain true ([], []) c (Forall_nil_2 _)) as Hp.
  pose proof (last_lines_keep c) as Hk. change (text_of (piece true ([], []) [])) with ([] : bytes) in Ht. cbn [app] in Ht.
  destruct (pieces true ([], []) c) as [ab t] eqn:Ep. cbn [snd] in Hp, Hk. unfold text_of in Ht. cbn [fst snd] in Ht.
  destruct t as [|x t] using rev_ind.
  - unfold last_lines. rewrite Ep. destruct ab as [|t ab]; cbn [fst snd].
    + cbn in Ht. by rewrite <- Ht.
    + rewrite <- reverse_cons. rewrite app_nil_r in Ht. rewrite Ht. rewrite reverse_cons, unlines_app in Ht.
      unfold unlines at 2 in Ht. cbn in Ht. rewrite app_nil_r, app_assoc in Ht. by rewrite <- Ht, with_newline_yes.
  - rewrite Forall_app, Forall_singleton in Hp. destruct Hp as [_ Hx].
    rewrite Hk by (by destruct t). cbn [fst snd]. rewrite unlines_app. unfold unlines at 2. cbn. rewrite app_nil_r.
    rewrite app_assoc in Ht. rewrite <- Ht, with_newline_no by done. by rewrite <- !app_assoc.
Qed.

(** C19. A regular file of any length opened for editing and written back is the same file,
    with a newline added at the end when there was none; the counts shown are the number
    of lines and of bytes.  Reading goes through the 512-byte buffer chunk by chunk. *)
Theorem read_write_file s c :
  Rep s blank -> buffer_ok s ->
  wp (check_fp junk true (reads c) ;; write_file)
    (fun r _ => r = (with_newline c, Z.of_nat (length (file_lines c)), Z.of_nat (length (with_newline c)))) noexit s.
Proof.
  intros R Hb. apply wp_bind. eapply wp_check_fp; [exact R|exact Hb|]. intros s' d R' _ _ El _ _.
  eapply wp_write_file; [exact R'|]. by rewrite El, unlines_file_lines.
Qed.

End Whole.

Lemma read_write_witness :
  wp (check_fp 0 true (reads [97; 10; 98]) ;; write_file) (fun r _ => r = ([97; 10; 98; 10], 2, 4)) noexit (start 0 20 80).
Proof.
  apply (read_write_file 0 (start 0 20 80) [97; 10; 98]).
  - apply Rep_start. lia.
  - exists (replicate 512 0), 0. split; [reflexivity|]. split; [reflexivity|lia].
Defined.

(** When read(2) returns less than the file has left, as from a pipe, a byte left in
    the buffer by an earlier read can be taken for the end of the line: the lines xy
    and abc, read in pieces of three, two and one bytes, become three lines. *)
Theorem short_read_splits_line :
  exists s, (check_fp 0 true [[120; 121; 10]; [97; 98]; [99]] ;; write_file) (start 0 20 80) =
    SRet ([120; 121; 10; 97; 98; 10; 99; 10], 3, 8) s.
Proof. eexists. vm_compute. reflexivity. Qed.

(** The text of the current line. *)
Definition cur_text (s : ee) : option bytes :=
  match heap s !! curr_line s with
  | Some n => Some (take (Z.to_nat (line_length n - 1)) (line n))
  | None => None
  end.

(** The line abcdef, the cursor at its end; margins off. *)
Definition six : ee :=
  start 0 20 80 <| heap := {[ 0%nat := Text [97; 98; 99; 100; 101; 102; 0; 0; 0; 0; 0; 0; 0; 0; 0] 1 7 15 None None ]} |>
    <| observ_margins := false |> <| position := 7 |> <| point := 6 |>.

(** After a file is read into the text, point is at the start of the line and
    position still at the place of the cursor: the next character typed goes to the
    start and one character of the line is lost.  The line abcdef becomes yabdef and a
    NUL. *)
Theorem read_into_then_type_corrupts :
  exists s, (check_fp 0 false [[120; 10]] ;; insert_with 0 (ret tt) 121) six = SRet tt s /\
    cur_text s = Some [121; 97; 98; 100; 101; 102; 0].
Proof. eexists. vm_compute. split; reflexivity. Qed.

End EeLoad.
