(* ===== verification/EeScreen.v ===== *)
(** * ee(1): the window

    The column of the cursor is always inside the window after scanline, and drawing
    reads only the text of the lines as long as the window is at the left edge. *)

From S2P Require Import Prelude Monad EeState EeEdit EeText EeKeys EeRep EeMove EeBlock EeLink EeDemo.
From stdpp Require Import base list gmap numbers.
From Stdlib Require Import ZArith Lia.

Open Scope Z_scope.

Module EeScreen.

Import EeState EeEdit EeText EeKeys EeRep EeMove EeBlock EeLink EeDemo.
Local Open Scope ind_scope.

(** ** The cursor *)

(** C33. After scanline the cursor is in the window: its column, the sum of the widths of the
    characters before it, is at least horiz_offset and at most last_col further right.
    The calls of midscreen and scanline that move the window come to an end. *)
Theorem scanline_in_window s d :
  Rep s d ->
  wp (scanline (point s)) (fun _ s' => same s s' /\ in_window s' /\
    scan_cols (eightbit s) (col d) 0 0 (this d) = Some (scr_horz s')) noexit s.
Proof.
  intros R. pose proof R as [(up & dn & n & P & _) R2 R3 R4 R5 R6 R7]. eapply wp_mono.
  - eapply wp_scanline; [by eapply placed_closed|exact (pl_cur _ _ _ _ _ _ _ P)| |done]. eapply Rep_point; [done|exact (pl_cur _ _ _ _ _ _ _ P)].
  - intros [] s' (Hs & Hc & Hw). split; [done|]. split; [done|]. rewrite R3, Nat2Z.id in Hc.
    destruct (nk_split _ _ (pl_ok _ _ _ _ _ _ _ P)) as (r & Er & _). rewrite Er in Hc.
    rewrite <- Hc. symmetry. apply scan_cols_app; lia.
Qed.

(** ** Drawing *)

Lemma draw_shown_in fuel eb b lc len temp ac column posit :
  0 <= temp -> temp + (len - posit) <= Z.of_nat (length b) -> len - posit <= Z.of_nat fuel ->
  draw_shown fuel eb b lc len temp ac column posit = true.
Proof.
  revert temp ac column posit. induction fuel as [|f IH]; intros temp ac column posit Ht Hb Hf; cbn [draw_shown].
  - by rewrite (proj2 (Z.ltb_ge posit len)) by lia.
  - destruct (Z.ltb_spec posit len); cbn [andb]; [|done]. destruct (column <=? lc); [|done].
    destruct (aget_in b temp) as [c ->]; [lia|]. apply IH; lia.
Qed.

Lemma draw_reads_in eb b lc horiz ptr t_pos len :
  0 <= horiz -> 0 <= ptr -> ptr + (len - t_pos) <= Z.of_nat (length b) -> draw_reads eb b 0 lc horiz ptr t_pos len = true.
Proof.
  intros Hh Hp Hb. unfold draw_reads. rewrite Z.sub_0_r. destruct (Z.to_nat (- horiz)) eqn:E; [|lia]. cbn [skip_hidden].
  rewrite (proj2 (Z.ltb_ge horiz 0)) by lia. apply draw_shown_in; lia.
Qed.

Lemma wp_draw_line_in l n horiz ptr t_pos len s (Q : () -> ee -> Prop) :
  heap s !! l = Some n -> horiz_offset s = 0 -> 0 <= horiz -> 0 <= ptr -> ptr + (len - t_pos) <= Z.of_nat (length (line n)) ->
  Q tt s -> wp (draw_line l horiz ptr t_pos len) Q noexit s.
Proof.
  intros E Ho Hh Hp Hb H. unfold draw_line. apply wp_bind. eapply wp_node; [exact E|]. ee_steps. rewrite Ho, draw_reads_in by done.
  by apply wp_ret.
Qed.

Lemma upw_ok h c ls ts l : upw h c ls ts -> l ∈ ls -> exists n t, h !! l = Some n /\ node_ok n t.
Proof.
  revert c ts. induction ls as [|k ls IH]; intros c [|t ts] H Hl; cbn in H; try done; [by apply elem_of_nil in Hl|].
  destruct H as (n & E & Hn & _ & _ & H). apply elem_of_cons in Hl as [->|Hl]; [by exists n, t|by eapply IH].
Qed.

Lemma dnw_ok h c ls ts l : dnw h c ls ts -> l ∈ ls -> exists n t, h !! l = Some n /\ node_ok n t.
Proof.
  revert c ts. induction ls as [|k ls IH]; intros c [|t ts] H Hl; cbn in H; try done; [by apply elem_of_nil in Hl|].
  destruct H as (n & E & Hn & _ & _ & H). apply elem_of_cons in Hl as [->|Hl]; [by exists n, t|by eapply IH].
Qed.

(** Every node of the heap holds a line. *)
Lemma placed_ok h fr d up l dn n k m : placed h fr d up l dn n -> h !! k = Some m -> exists t, node_ok m t.
Proof.
  intros P E. assert (Hk : k ∈ l :: up ++ dn) by (apply (pl_all _ _ _ _ _ _ _ P); by rewrite E).
  apply elem_of_cons in Hk as [->|[Hk|Hk]%elem_of_app].
  - exists (this d). assert (m = n) as -> by (pose proof (pl_cur _ _ _ _ _ _ _ P); congruence). apply (pl_ok _ _ _ _ _ _ _ P).
  - destruct (upw_ok _ _ _ _ _ (pl_up _ _ _ _ _ _ _ P) Hk) as (m' & t & E' & Hm). exists t. congruence.
  - destruct (dnw_ok _ _ _ _ _ (pl_dn _ _ _ _ _ _ _ P) Hk) as (m' & t & E' & Hm). exists t. congruence.
Qed.

(** C34. With the window at the left edge draw_screen reads only bytes of the lines it draws,
    and changes nothing. *)
Theorem draw_screen_in_bounds s d : Rep s d -> horiz_offset s = 0 -> draw_screen s = SRet tt s.
Proof.
  intros R Ho. pose proof R as [(up & dn & n & P & _) _ _ _ _ _ _].
  assert (H : wp draw_screen (fun _ s' => s' = s) noexit s).
  { unfold draw_screen. ee_steps. assert (Hp : forall l, Some (curr_line s) = Some l -> is_Some (heap s !! l)).
    { intros l [= <-]. by rewrite (pl_cur _ _ _ _ _ _ _ P). }
    revert Hp. generalize (Some (curr_line s)) as p. generalize (Z.to_nat (last_line s - scr_vert s + 1)) as fuel.
    induction fuel as [|f IH]; intros p Hp; cbn [draw_screen_loop]; [done|]. destruct p as [l|]; [|done].
    destruct (Hp l eq_refl) as [m E]. destruct (placed_ok _ _ _ _ _ _ _ _ _ P E) as [t Hm]. apply wp_bind. eapply wp_node; [exact E|].
    apply wp_bind. eapply wp_draw_line_in; [exact E|done|lia|lia|rewrite <- (nk_max _ _ Hm); pose proof (nk_room _ _ Hm); lia|].
    apply IH. by apply (placed_closed _ _ _ _ _ _ _ P l m E). }
  destruct (wp_run _ _ _ H) as ([] & s' & E & ->). exact E.
Qed.

(** ** A window further right *)

Lemma len_char_8 eb c t : 0 <= t -> 1 <= len_char eb c t <= 8.
Proof. intros Ht. pose proof (tabshift_pos t Ht). unfold len_char. repeat case_if; lia. Qed.

Lemma skip_hidden_out fuel eb b temp ac column posit :
  0 <= temp -> 0 <= ac -> column + 8 * Z.max 0 (Z.of_nat (length b) - temp) < 0 -> skip_hidden fuel eb b temp ac column posit = None.
Proof.
  revert temp ac column posit. induction fuel as [|f IH]; intros temp ac column posit Ht Ha Hc; cbn [skip_hidden];
    rewrite (proj2 (Z.ltb_lt column 0)) by lia; [done|]. destruct (aget b temp) as [c|] eqn:E; [|done].
  apply aget_range in E. pose proof (len_char_8 eb c ac Ha). apply IH; lia.
Qed.

(** With the window further right than eight columns for every byte of the block of a
    line, draw_line reads behind the block. *)
Lemma draw_line_overreads s l n :
  heap s !! l = Some n -> 8 * Z.of_nat (length (line n)) < horiz_offset s ->
  draw_line l 0 0 1 (line_length n) s = SRet tt (s <| overread := true |>).
Proof.
  intros E Ho. unfold draw_line, node, bind, gets, get. rewrite E. cbn [of_opt ret]. unfold draw_reads.
  rewrite skip_hidden_out by lia. reflexivity.
Qed.

Lemma scanline_witness :
  wp (scanline (point demo)) (fun _ s' => same demo s' /\ in_window s' /\
    scan_cols (eightbit demo) (col demo_doc) 0 0 (this demo_doc) = Some (scr_horz s')) noexit demo.
Proof. apply (scanline_in_window demo demo_doc). exact Rep_demo. Defined.

Lemma draw_screen_witness : draw_screen demo = SRet tt demo.
Proof. apply (draw_screen_in_bounds demo demo_doc); [exact Rep_demo|reflexivity]. Defined.

End EeScreen.
