(* ===== verification/EeSession.v ===== *)
(** * ee(1): a session

    What the keys do to the document, and that the editor does it: any sequence of
    editing keys runs to its end without undefined behaviour, and the text it leaves
    is the one the keys stand for. *)

From S2P Require Import Prelude Monad EeState EeEdit EeText EeKeys EeKeeps EeRep EeMove EeBlock EeLink EeInsert EeWrap EeDelete EeUndo EeWalk EePage EeFile EeLoad EeDemo.
From stdpp Require Import base list gmap numbers.
From Stdlib Require Import ZArith Lia.

Open Scope Z_scope.

Module EeSession.

Import EeState EeEdit EeText EeKeys EeKeeps EeRep EeMove EeBlock EeLink EeInsert EeWrap EeDelete EeUndo EeWalk EePage EeFile EeLoad EeDemo.
Local Open Scope ind_scope.

(** ** Commands and what they do *)

Inductive cmd :=
| Typed (c : Z)
| Newline
| Backspace
| DelChar
| UndelChar
| Left
| Right
| Up
| Down
| Bol
| Eol
| Top
| Bottom
| AdvWord
| DelWord
| UndelWord
| DelLine
| UndelLine
| PageUp
| PageDown
| Nothing.

(** The command of a key: of the main loop, then of the table of control keys.  The
    keys that prompt or search have none. *)
Definition key_cmd (emacs : bool) (c : Z) : option cmd :=
  if (c =? 8) || (c =? 127) then Some Backspace
  else if ((31 <? c) && (c <=? 255)) || (c =? 9) then Some (Typed c)
  else if emacs then
    match c with
    | 0 => Some Nothing | 1 => Some Bol | 2 => Some Left | 4 => Some DelChar | 5 => Some Eol | 6 => Some Right
    | 7 => Some PageUp
    | 10 => Some UndelChar | 11 => Some DelLine | 12 => Some UndelLine | 13 => Some Newline | 14 => Some Down
    | 16 => Some Up | 17 => Some Nothing | 18 => Some UndelWord | 19 => Some Nothing | 20 => Some Top
    | 21 => Some Bottom | 22 => Some PageDown | 23 => Some DelWord | 26 => Some AdvWord | _ => None
    end
  else
    match c with
    | 0 => Some Nothing | 2 => Some Bottom | 4 => Some Down | 6 => Some UndelChar | 7 => Some Bol
    | 10 => Some Newline | 11 => Some DelChar | 12 => Some Left | 13 => Some Newline | 14 => Some PageDown
    | 15 => Some Eol | 16 => Some PageUp
    | 17 => Some Nothing | 18 => Some Right | 19 => Some Nothing | 20 => Some Top | 21 => Some Up
    | 22 => Some UndelWord | 23 => Some DelWord | 25 => Some DelLine | 26 => Some UndelLine | _ => None
    end.

(** A document with the strings last deleted. *)
Record held := Held { h_doc : doc; h_char : bytes; h_word : bytes; h_line : option bytes }.

Definition with_doc (h : held) (d : doc) : held := Held d (h_char h) (h_word h) (h_line h).

(** The settings that typing depends on. *)
Record mode := Mode { m_tabs : bool; m_margin : option Z; m_eight : bool; m_last : Z }.

(** The lines of a page: [max(5, (last_line - 5))]. *)
Definition page_lines (md : mode) : nat := Z.to_nat (Z.max 5 (m_last md - 5)).

(** A character typed at the cursor, the margin observed. *)
Definition typed1 (md : mode) (c : Z) (d d' : doc) : Prop := wraps (m_eight md) (m_margin md) (d_insert c d) d'.

Fixpoint spaces (md : mode) (k : nat) (d d' : doc) : Prop :=
  match k with
  | O => d' = d
  | S k => exists d1, typed1 md 32 d d1 /\ spaces md k d1 d'
  end.

(** A character typed; with expanded tabs, a tab is some spaces. *)
Definition typed (md : mode) (c : Z) (d d' : doc) : Prop :=
  if (c =? 9) && m_tabs md then exists k, spaces md k d d' else typed1 md c d d'.

#[export] Instance d_some_dec d : Decision (d_some d).
Proof. unfold d_some. apply _. Defined.

(** Backspace: the character before the cursor goes, and is saved. *)
Definition h_delete (h : held) : held :=
  if decide (d_some (h_doc h)) then
    Held (d_delete (h_doc h)) (d_removed (h_doc h) ++ drop 2 (h_char h)) (h_word h) (h_line h)
  else h.

(** What a command may do to a document and the saved strings. *)
Definition does (md : mode) (c : cmd) (h h' : held) : Prop :=
  let d := h_doc h in
  match c with
  | Typed c => exists d', typed md c d d' /\ h' = with_doc h d'
  | Newline => h' = with_doc h (d_newline d)
  | Backspace => h' = h_delete h
  | DelChar => h' = h_delete (with_doc h (d_right d))
  | UndelChar =>
      match h_char h with
      | c0 :: c1 :: _ =>
          if c0 =? 10 then h' = with_doc h (d_newline d)
          else exists d1 d2, typed md c0 d d1 /\ (if c1 =? 0 then d2 = d1 else typed md c1 d1 d2) /\ h' = with_doc h d2
      | _ => False
      end
  | Left => h' = with_doc h (d_left d)
  | Right => h' = with_doc h (d_right d)
  | Up => exists c, h' = with_doc h (if above d is [] then d else at_col (d_prev d) c)
  | Down => exists c, h' = with_doc h (if below d is [] then d else at_col (d_next d) c)
  | Bol => h' = with_doc h (d_bol d)
  | Eol => h' = with_doc h (d_eol d)
  | Top => h' = with_doc h (d_top d)
  | Bottom => h' = with_doc h (d_bottom d)
  | AdvWord => h' = with_doc h (at_col d (col d + length (first_word (drop (col d) (this d)))))
  | DelWord => h' = Held (d_del_word d) (h_char h) (first_word (drop (col d) (this d))) (h_line h)
  | UndelWord => h' = with_doc h (d_put_word (h_word h) d)
  | DelLine => h' = Held (d_del_line d) (h_char h) (h_word h) (Some (drop (col d) (this d)))
  | UndelLine => h' = with_doc h (if h_line h is Some v then d_put_line v d else d)
  | PageUp => h' = with_doc h (d_ups (page_lines md) d)
  | PageDown => exists d', goes_down (page_lines md) d d' /\ h' = with_doc h d'
  | Nothing => h' = h
  end.

(** ** Bytes *)

Definition byte (c : Z) : Prop := 0 <= c < 256.

Definition doc_bytes (d : doc) : Prop :=
  Forall (Forall byte) (above d) /\ Forall byte (this d) /\ Forall (Forall byte) (below d).

Lemma Forall_cut (P : Z -> Prop) t c : Forall P t -> Forall P (take c t) /\ Forall P (drop c t).
Proof. intros H. split; [by apply Forall_take|by apply Forall_drop]. Qed.

Lemma doc_bytes_prev d c : doc_bytes d -> doc_bytes (at_col (d_prev d) c).
Proof. destruct d as [[|t ts] x k be]; unfold doc_bytes; cbn; [done|]. rewrite !Forall_cons_iff. tauto. Qed.

Lemma doc_bytes_next d c : doc_bytes d -> doc_bytes (at_col (d_next d) c).
Proof. destruct d as [ab x k [|t ts]]; unfold doc_bytes; cbn; [done|]. rewrite !Forall_cons_iff. tauto. Qed.

Lemma doc_bytes_insert d c : doc_bytes d -> byte c -> doc_bytes (d_insert c d).
Proof.
  intros (H1 & H2 & H3) Hc. destruct (Forall_cut _ _ (col d) H2). unfold doc_bytes. cbn. rewrite Forall_app, Forall_cons_iff. tauto.
Qed.

Lemma doc_bytes_wraps eb m d d' : doc_bytes d -> wraps eb m d d' -> doc_bytes d'.
Proof.
  intros (H1 & H2 & H3) [->|(k & c & w & _ & _ & _ & _ & _ & ->)]; [done|]. destruct (Forall_cut _ _ c H2). unfold doc_bytes. cbn.
  rewrite Forall_cons_iff. tauto.
Qed.

Lemma doc_bytes_newline d : doc_bytes d -> doc_bytes (d_newline d).
Proof. intros (H1 & H2 & H3). destruct (Forall_cut _ _ (col d) H2). unfold doc_bytes. cbn. rewrite Forall_cons_iff. tauto. Qed.

Lemma doc_bytes_lines d : doc_bytes d <-> Forall (Forall byte) (lines_of d).
Proof. unfold doc_bytes, lines_of. rewrite Forall_app, Forall_cons_iff, Forall_reverse. tauto. Qed.

Lemma doc_bytes_same d d' : lines_of d' = lines_of d -> doc_bytes d -> doc_bytes d'.
Proof. rewrite !doc_bytes_lines. by intros ->. Qed.

Lemma doc_bytes_right d : doc_bytes d -> doc_bytes (d_right d).
Proof.
  intros H. unfold d_right. destruct (col d <? length (this d))%nat; [exact H|].
  exact (doc_bytes_next d (col (d_next d)) H).
Qed.

Lemma doc_bytes_delete d : doc_bytes d -> doc_bytes (d_delete d) /\ Forall byte (d_removed d).
Proof.
  intros (H1 & H2 & H3). unfold d_delete, d_removed, d_join, doc_bytes, byte in *. destruct (col d) as [|c].
  - destruct (above d) as [|t ts] eqn:Ea; cbn [above this below].
    + rewrite Ea. split; [done|]. repeat constructor; lia.
    + rewrite Forall_cons_iff in H1. rewrite Forall_app. split; [tauto|]. repeat constructor; lia.
  - cbn [above this below]. rewrite Forall_app. destruct (Forall_cut _ _ c H2), (Forall_cut _ _ (S c) H2). split; [tauto|].
    constructor; [|repeat constructor; lia]. destruct (this d !! c) as [ch|] eqn:E; cbn; [|lia]. exact (Forall_lookup_1 _ _ _ _ H2 E).
Qed.

(** ** The state holds the document and the strings *)

Record saves_ok (md : mode) (s : ee) (h : held) : Prop := {
  sk_margin : margin_of s = m_margin md;
  sk_right : observ_margins s = true -> 0 <= right_margin s;
  sk_eight : eightbit s = m_eight md;
  sk_last : last_line s = m_last md;
  sk_auto : auto_format s = false;
  sk_tabs : expand_tabs s = m_tabs md;
  sk_char : d_char s = h_char h;
  sk_two : (2 <= length (h_char h))%nat;
  sk_bytes : Forall byte (h_char h);
  sk_word : exists z, d_word s = Some (h_word h ++ z);
  sk_wlen : d_wrd_len s = Z.of_nat (length (h_word h));
  sk_wbytes : Forall byte (h_word h);
  sk_line : match h_line h with
            | None => dlt_length s = 0
            | Some v => dlt_length s = 1 + Z.of_nat (length v) /\ (exists z, d_line s = Some (v ++ z)) /\ Forall byte v
            end
}.

Record holds (md : mode) (s : ee) (h : held) : Prop := {
  hd_rep : Rep s (h_doc h);
  hd_bytes : doc_bytes (h_doc h);
  hd_saves : saves_ok md s h
}.

Lemma saves_facts md s s' h d : facts s' = facts s -> saves_ok md s h -> saves_ok md s' (with_doc h d).
Proof.
  intros H []. injection H as F1 F2 F3 F4 F5 F6 F7 F8 F9 F10 F11. split; unfold margin_of in *; rewrite ?F1, ?F2, ?F3, ?F4, ?F5, ?F6, ?F7, ?F8, ?F9, ?F10, ?F11; done.
Qed.

Lemma quiet_facts s s' : quiet s s' -> facts s' = facts s.
Proof. exact (quiet_field facts s s' (fun s => eq_refl)). Qed.

Section Session.
Context (junk : Z) (md : mode).

(** What holds after a command. *)
Definition done_ (c : cmd) (h : held) (s' : ee) : Prop := exists h', does md c h h' /\ holds md s' h'.

Lemma moved_holds s0 s h d s' : holds md s0 h -> facts s = facts s0 -> Rep s' d -> doc_bytes d -> quiet s s' -> holds md s' (with_doc h d).
Proof.
  intros [_ _ Hs] Hf R Hb Hq. split; [exact R|exact Hb|]. eapply saves_facts; [|exact Hs]. by rewrite (quiet_facts _ _ Hq).
Qed.

(** The rules for moves and for changes of the text. *)
Lemma wp_moves_holds m s0 s h d (Q : () -> ee -> Prop) :
  moves m s d -> holds md s0 h -> facts s = facts s0 -> doc_bytes d -> (forall s', holds md s' (with_doc h d) -> Q tt s') -> wp m Q noexit s.
Proof. intros Hm Hh Hf Hb H. eapply wp_mono; [exact Hm|]. intros [] s' [R Hq]. apply H. by eapply moved_holds. Qed.

Lemma wp_edits_holds m s0 s h d (Q : () -> ee -> Prop) :
  edits m s d -> holds md s0 h -> facts s = facts s0 -> doc_bytes d -> (forall s', holds md s' (with_doc h d) -> Q tt s') -> wp m Q noexit s.
Proof. intros Hm Hh Hf Hb H. eapply wp_mono; [exact Hm|]. intros [] s' [R Hq]. apply H. eapply (moved_holds s0 (s <| text_changes := true |>)); done. Qed.

Lemma with_doc_id h : with_doc h (h_doc h) = h.
Proof. by destruct h. Qed.

Lemma with_doc_doc h d d' : with_doc (with_doc h d) d' = with_doc h d'.
Proof. done. Qed.

(** One character. *)
Lemma wp_typed1 af c s h (Q : () -> ee -> Prop) :
  holds md s h -> byte c -> (forall s' d', typed1 md c (h_doc h) d' -> holds md s' (with_doc h d') -> Q tt s') ->
  wp (insert_one junk af c) Q noexit s.
Proof.
  intros Hh Hc H. pose proof Hh as [R Hb Hs]. apply (insert_one_wraps junk af s _ c _ R Hc (sk_right _ _ _ Hs) (sk_auto _ _ _ Hs)).
  intros s' d' W R' Hq. rewrite (sk_margin _ _ _ Hs), (sk_eight _ _ _ Hs) in W. apply (H s' d' W).
  eapply (moved_holds s (s <| text_changes := true |>)); [exact Hh|done|exact R'| |exact Hq].
  eapply doc_bytes_wraps; [|exact W]. by apply doc_bytes_insert.
Qed.

(** Several spaces. *)
Lemma wp_spaces af k s h (Q : () -> ee -> Prop) :
  holds md s h -> (forall s' d', spaces md k (h_doc h) d' -> holds md s' (with_doc h d') -> Q tt s') ->
  wp (Nat.iter k (fun m => insert_one junk af 32 ;; m) (ret tt)) Q noexit s.
Proof.
  revert s h Q. induction k as [|k IH]; intros s h Q Hh H.
  { apply wp_ret. eapply H; [done|]. destruct h. exact Hh. }
  rewrite Nat.iter_succ. apply wp_bind. eapply wp_typed1; [exact Hh|unfold byte; lia|]. intros s1 d1 T1 Hh1.
  apply (IH s1 _ _ Hh1). intros s2 d2 T2 Hh2. eapply H; [|exact Hh2]. by exists d1.
Qed.

Lemma wp_typed af c s h (Q : () -> ee -> Prop) :
  holds md s h -> byte c -> (forall s' d', typed md c (h_doc h) d' -> holds md s' (with_doc h d') -> Q tt s') ->
  wp (insert_with junk af c) Q noexit s.
Proof.
  intros Hh Hc H. pose proof Hh as [R Hb Hs]. unfold insert_with. ee_steps. rewrite (sk_tabs _ _ _ Hs). unfold typed in H.
  destruct ((c =? 9) && m_tabs md) eqn:E; [|by apply (wp_typed1 af c s h)].
  apply wp_bind. eapply wp_spaces; [exact Hh|]. intros s1 d1 T Hh1. ee_steps. rewrite (sk_auto _ _ _ (hd_saves _ _ _ Hh1)). apply wp_ret.
  eapply H; [|exact Hh1]. by eexists.
Qed.

(** Backspace and del_char. *)
Lemma saved_holds s0 h d c s' :
  holds md s0 h -> Rep s' d -> doc_bytes d -> Forall byte c -> length c = 2%nat ->
  facts s' = facts (s0 <| d_char := c ++ drop 2 (h_char h) |>) ->
  holds md s' (Held d (c ++ drop 2 (h_char h)) (h_word h) (h_line h)).
Proof.
  intros [_ _ []] R Hb Hc Hl Hf. injection Hf as F1 F2 F3 F4 F5 F6 F7 F8 F9 F10 F11. split; [done|done|].
  split; unfold margin_of in *; cbn [h_char h_word h_line]; rewrite ?F1, ?F2, ?F3, ?F4, ?F5, ?F6, ?F7, ?F8, ?F9, ?F10, ?F11; try done.
  - rewrite length_app. lia.
  - apply Forall_app. split; [done|by apply Forall_drop].
Qed.

Lemma d_removed_2 d : length (d_removed d) = 2%nat.
Proof. unfold d_removed. by destruct (col d). Qed.

Lemma wp_backspace s h (Q : () -> ee -> Prop) :
  holds md s h -> in_ s = 8 -> (forall s', holds md s' (h_delete h) -> Q tt s') -> wp (delete junk true) Q noexit s.
Proof.
  intros Hh Hin H. pose proof Hh as [R Hb Hs]. destruct (doc_bytes_delete _ Hb) as [Hb1 Hb2]. unfold h_delete in H. case_decide as Hd.
  - eapply wp_mono; [exact (delete_deletes junk s _ true R Hd)|]. intros [] s' [R' Hq]. apply H.
    eapply (saved_holds s); [exact Hh|exact R'|exact Hb1|exact Hb2|apply d_removed_2|].
    rewrite (quiet_facts _ _ Hq). unfold saved. rewrite Hin. cbn [Z.eqb Pos.eqb]. rewrite d_removed_2, (sk_char _ _ _ Hs). reflexivity.
  - eapply (wp_moves_holds _ s s h (h_doc h)); [exact (delete_nothing junk s _ true R Hd)|done|done|done|].
    intros s' Hh'. apply H. by destruct h.
Qed.

Lemma holds_in s h c : holds md s h -> holds md (s <| in_ := c |>) h.
Proof.
  intros [R Hb Hs]. split; [eapply Rep_view; [|exact R]; reflexivity|exact Hb|]. rewrite <- (with_doc_id h). by eapply (saves_facts _ s).
Qed.

(** Nothing on either side of the cursor: the text is one empty line. *)
Lemma d_right_nothing d : (col d <= length (this d))%nat -> ~ d_some (d_right d) -> d_right d = d /\ length (this d) = O /\ ~ d_some d.
Proof.
  intros Hc H. unfold d_right in *. destruct (Nat.ltb_spec (col d) (length (this d))) as [Hlt|Hge].
  - destruct H. left. done.
  - unfold d_next in *. destruct (below d); [|destruct H; by right]. split; [done|]. split; [|done].
    destruct (col d) eqn:Ec; [lia|]. destruct H. left. congruence.
Qed.

Lemma wp_del_char_holds s h (Q : () -> ee -> Prop) :
  holds md s h -> (forall s', holds md s' (h_delete (with_doc h (d_right (h_doc h)))) -> Q tt s') -> wp (del_char junk) Q noexit s.
Proof.
  intros Hh H. pose proof Hh as [R Hb Hs]. set (d := h_doc h) in *. pose proof (doc_bytes_right d Hb) as Hbr.
  destruct (doc_bytes_delete _ Hbr) as [Hb1 Hb2]. unfold h_delete in H. cbn [h_doc with_doc h_char h_word h_line] in H. case_decide as Hd.
  - eapply wp_del_char; [exact R|exact Hd|]. intros s' R' Hq _. apply H. eapply (saved_holds s); [exact Hh|exact R'|exact Hb1|exact Hb2|apply d_removed_2|].
    rewrite (quiet_facts _ _ Hq), (sk_char _ _ _ Hs). reflexivity.
  - destruct (d_right_nothing d (rp_col _ _ R) Hd) as (E & Ht & Hd'). rewrite E in H.
    pose proof (holds_in s h 8 Hh) as Hh8. unfold del_char. ee_steps. destruct (Rep_cur _ _ (hd_rep _ _ _ Hh8)) as (n & En & Hn & _).
    eapply wp_cur; [exact En|]. rewrite (nk_length _ _ Hn), (rp_pos _ _ (hd_rep _ _ _ Hh8)). fold d. rewrite Ht, (proj2 (Z.ltb_ge _ _)) by lia.
    apply wp_bind. eapply wp_mono; [exact (right_moves _ _ (hd_rep _ _ _ Hh8))|]. fold d. rewrite E. intros [] s1 [R1 Hq1].
    assert (Hh1 : holds md s1 h) by (rewrite <- (with_doc_id h); eapply (moved_holds _ _ h); [exact Hh8|reflexivity|exact R1|exact Hb|exact Hq1]).
    eapply (wp_moves_holds _ s1 s1 h d); [exact (delete_nothing junk s1 _ true R1 Hd')|exact Hh1|done|exact Hb|]. exact H.
Qed.

Lemma wp_undel_char_holds af s h c0 c1 r (Q : () -> ee -> Prop) :
  holds md s h -> h_char h = c0 :: c1 :: r -> (forall s' h', does md UndelChar h h' -> holds md s' h' -> Q tt s') ->
  wp (undel_char junk af) Q noexit s.
Proof.
  intros Hh Ec H. pose proof Hh as [R Hb Hs]. unfold undel_char. ee_steps. unfold does in H. rewrite Ec in H.
  rewrite (sk_char _ _ _ Hs), Ec. cbn [lookup list_lookup of_opt]. ee_steps.
  pose proof (sk_bytes _ _ _ Hs) as Hby. rewrite Ec, !Forall_cons_iff in Hby. destruct Hby as (Hc0 & Hc1 & _). destruct (c0 =? 10) eqn:E0.
  - eapply (wp_edits_holds _ s s h); [exact (insert_line_edits junk s _ true R)|done|done|by apply doc_bytes_newline|]. intros s' Hh'. by eapply H.
  - ee_steps. eapply wp_typed; [exact (holds_in s h c0 Hh)|exact Hc0|]. intros s1 d1 T1 Hh1. ee_steps.
    rewrite (sk_char _ _ _ (hd_saves _ _ _ Hh1)). cbn [with_doc h_char]. rewrite Ec. cbn [lookup list_lookup of_opt]. ee_steps.
    destruct (c1 =? 0) eqn:E1; cbn [negb]; ee_steps.
    + eapply H; [|exact Hh1]. exists d1, d1. done.
    + eapply wp_typed; [exact (holds_in s1 _ c1 Hh1)|exact Hc1|]. intros s2 d2 T2 Hh2. rewrite with_doc_doc in Hh2. eapply H; [|exact Hh2].
      exists d1, d2. done.
Qed.

(** ** Words and lines *)

Lemma doc_bytes_word d : doc_bytes d -> doc_bytes (d_del_word d) /\ Forall byte (first_word (drop (col d) (this d))).
Proof.
  intros (H1 & H2 & H3). destruct (Forall_cut _ _ (col d) H2) as [Ha Hd]. destruct (first_word_prefix (drop (col d) (this d))) as [r E].
  pose proof Hd as Hd'. rewrite E, Forall_app in Hd'. unfold doc_bytes. cbn. rewrite Forall_app. split; [|tauto].
  split_and!; [done|done|by apply Forall_drop|done].
Qed.

Lemma doc_bytes_put d w : doc_bytes d -> Forall byte w -> doc_bytes (d_put_word w d) /\ doc_bytes (d_put_line w d).
Proof.
  intros (H1 & H2 & H3) Hw. destruct (Forall_cut _ _ (col d) H2). unfold doc_bytes. cbn. rewrite !Forall_app, Forall_cons_iff. tauto.
Qed.

Lemma doc_bytes_del_line d : doc_bytes d -> doc_bytes (d_del_line d) /\ Forall byte (drop (col d) (this d)).
Proof.
  intros (H1 & H2 & H3). destruct (Forall_cut _ _ (col d) H2). split; [|done]. unfold d_del_line, doc_bytes.
  destruct (below d) as [|x be] eqn:E; cbn; [rewrite E; done|]. rewrite Forall_cons_iff in H3. rewrite Forall_app. tauto.
Qed.

Lemma wp_del_word_holds s h (Q : () -> ee -> Prop) :
  holds md s h -> (forall s' h', does md DelWord h h' -> holds md s' h' -> Q tt s') -> wp del_word Q noexit s.
Proof.
  intros [R Hb []] H. destruct (doc_bytes_word _ Hb) as [Hb1 Hb2]. apply (wp_del_word s _ _ R). intros s' R' Hq _. eapply H; [done|].
  pose proof (quiet_facts _ _ Hq) as Hf. injection Hf as F1 F2 F3 F4 F5 F6 F7 F8 F9 F10 F11. split; [exact R'|exact Hb1|].
  split; unfold margin_of in *; cbn [h_char h_word h_line]; rewrite ?F1, ?F2, ?F3, ?F4, ?F5, ?F6, ?F7, ?F8, ?F9, ?F10, ?F11; try done. by exists [0].
Qed.

Lemma wp_del_line_holds s h (Q : () -> ee -> Prop) :
  holds md s h -> in_ s <> 8 -> (forall s' h', does md DelLine h h' -> holds md s' h' -> Q tt s') -> wp (del_line junk) Q noexit s.
Proof.
  intros [R Hb []] Hin H. destruct (doc_bytes_del_line _ Hb) as [Hb1 Hb2]. apply (wp_del_line junk s _ _ R Hin). intros s' z R' Hq. eapply H; [done|].
  pose proof (quiet_facts _ _ Hq) as Hf. injection Hf as F1 F2 F3 F4 F5 F6 F7 F8 F9 F10 F11. split; [exact R'|exact Hb1|].
  split; unfold margin_of in *; cbn [h_char h_word h_line]; rewrite ?F1, ?F2, ?F3, ?F4, ?F5, ?F6, ?F7, ?F8, ?F9, ?F10, ?F11; try done. split; [done|]. split; [by exists z|done].
Qed.

Lemma wp_undel_word_holds s h (Q : () -> ee -> Prop) :
  holds md s h -> (forall s' h', does md UndelWord h h' -> holds md s' h' -> Q tt s') -> wp (undel_word junk) Q noexit s.
Proof.
  intros Hh H. pose proof Hh as [R Hb Hs]. destruct (sk_word _ _ _ Hs) as [z Hz].
  apply (wp_undel_word junk s _ _ z _ R Hz (sk_wlen _ _ _ Hs)). intros s' R' Hq. eapply H; [done|].
  eapply (moved_holds s s); [exact Hh|done|exact R'|by apply doc_bytes_put; [|apply Hs]|exact Hq].
Qed.

Lemma wp_undel_line_holds s h (Q : () -> ee -> Prop) :
  holds md s h -> (forall s' h', does md UndelLine h h' -> holds md s' h' -> Q tt s') -> wp (undel_line junk) Q noexit s.
Proof.
  intros Hh H. pose proof Hh as [R Hb Hs]. pose proof (sk_line _ _ _ Hs) as Hl. unfold does in H. destruct (h_line h) as [v|].
  - destruct Hl as (Hl & [z Hz] & Hv). apply (wp_undel_line junk s _ v z _ R Hz Hl). intros s' R' Hq. eapply H; [done|].
    eapply (moved_holds s (s <| text_changes := true |>)); [exact Hh|done|exact R'|by apply doc_bytes_put|exact Hq].
  - unfold undel_line. ee_steps. rewrite Hl. apply wp_ret. eapply H; [done|]. by destruct h.
Qed.

(** ** Each command *)

Definition performs (m : E ()) (c : cmd) : Prop :=
  forall s h, holds md s h -> in_ s <> 8 -> wp m (fun _ s' => done_ c h s') noexit s.

Lemma performs_moves m c (f : doc -> doc) :
  (forall s d, Rep s d -> moves m s (f d)) -> (forall d, doc_bytes d -> doc_bytes (f d)) ->
  (forall h, does md c h (with_doc h (f (h_doc h)))) -> performs m c.
Proof.
  intros Hm Hb Hd s h Hh _. pose proof Hh as [R Hby _]. eapply (wp_moves_holds _ s s h); [exact (Hm s _ R)|done|done|by apply Hb|].
  intros s' Hh'. eexists. split; [apply Hd|exact Hh'].
Qed.

Lemma do_left : performs (left true) Left.
Proof.
  apply (performs_moves _ _ d_left); [exact left_moves| |done]. intros d Hb. unfold d_left. destruct (col d); [|exact Hb].
  exact (doc_bytes_prev d (col (d_prev d)) Hb).
Qed.

Lemma do_right : performs (right true) Right.
Proof. by apply (performs_moves _ _ d_right); [exact right_moves|exact doc_bytes_right|]. Qed.

Lemma do_bol : performs bol Bol.
Proof.
  apply (performs_moves _ _ d_bol); [exact bol_moves| |done]. intros d Hb. unfold d_bol. case_decide; [|exact Hb].
  destruct (above d); [exact Hb|by apply doc_bytes_prev].
Qed.

Lemma do_eol : performs eol Eol.
Proof.
  apply (performs_moves _ _ d_eol); [exact eol_moves| |done]. intros d Hb. unfold d_eol.
  destruct (col d <? length (this d))%nat; [exact Hb|]. by apply doc_bytes_next.
Qed.

Lemma do_top : performs top Top.
Proof.
  apply (performs_moves _ _ d_top); [exact top_moves| |done]. intros d Hb. unfold d_top. apply doc_bytes_lines in Hb as Hl.
  destruct (lines_of d) as [|t ts]; [exact Hb|]. rewrite Forall_cons_iff in Hl. destruct Hl. by split.
Qed.

Lemma do_bottom : performs bottom Bottom.
Proof.
  apply (performs_moves _ _ d_bottom); [exact bottom_moves| |done]. intros d Hb. unfold d_bottom. pose proof (proj1 (doc_bytes_lines d) Hb) as Hl. apply Forall_reverse in Hl.
  destruct (reverse (lines_of d)) as [|t ts]; [exact Hb|]. rewrite Forall_cons_iff in Hl. destruct Hl. by split; [|split].
Qed.

Lemma do_adv_word : performs adv_word AdvWord.
Proof. by apply (performs_moves _ _ _ adv_word_moves). Qed.

Lemma do_up : performs up Up.
Proof.
  intros s h Hh _. pose proof Hh as [R Hb _]. apply (wp_up s _ _ R). intros s' c R' Hq _.
  exists (with_doc h (if above (h_doc h) is [] then h_doc h else at_col (d_prev (h_doc h)) c)). split; [by exists c|].
  eapply (moved_holds s s); [done|done|exact R'| |exact Hq]. destruct (above (h_doc h)); [exact Hb|by apply doc_bytes_prev].
Qed.

Lemma do_down : performs down Down.
Proof.
  intros s h Hh _. pose proof Hh as [R Hb _]. apply (wp_down s _ _ R). intros s' c R' Hq _.
  exists (with_doc h (if below (h_doc h) is [] then h_doc h else at_col (d_next (h_doc h)) c)). split; [by exists c|].
  eapply (moved_holds s s); [done|done|exact R'| |exact Hq]. destruct (below (h_doc h)); [exact Hb|by apply doc_bytes_next].
Qed.

Lemma lines_ups n d : lines_of (d_ups n d) = lines_of d.
Proof.
  unfold d_ups. induction n as [|n IH]; [done|]. rewrite Nat.iter_succ. unfold d_up at 1. destruct (above _); [exact IH|]. by rewrite lines_prev.
Qed.

Lemma lines_downs n d d' : goes_down n d d' -> lines_of d' = lines_of d.
Proof.
  unfold goes_down. destruct (below d); [by intros [->| ->]|]. intros ->. unfold d_downs. generalize (S (n - 1)) as k.
  induction k as [|k IH]; [done|]. rewrite Nat.iter_succ, <- IH. set (x := Nat.iter k d_next d). exact (lines_next x (col (d_next x))).
Qed.

Lemma do_page_up : performs (page true) PageUp.
Proof.
  intros s h Hh _. pose proof Hh as [R Hb Hs]. unfold page. ee_steps. rewrite (sk_last _ _ _ Hs).
  eapply (wp_moves_holds _ s s h); [exact (move_up_moves _ s _ R)|done|done|by eapply doc_bytes_same; [apply lines_ups|]|].
  intros s' Hh'. by eexists.
Qed.

Lemma do_page_down : performs (page false) PageDown.
Proof.
  intros s h Hh _. pose proof Hh as [R Hb Hs]. unfold page. ee_steps. rewrite (sk_last _ _ _ Hs).
  apply (move_down_goes _ s _ _ R). intros s' d' Hd R' Hq. exists (with_doc h d'). split; [by exists d'|].
  eapply (moved_holds s s); [done|done|exact R'|by eapply doc_bytes_same; [eapply lines_downs|]|exact Hq].
Qed.

Lemma do_newline : performs (insert_line junk true) Newline.
Proof.
  intros s h Hh _. pose proof Hh as [R Hb _]. eapply (wp_edits_holds _ s s h); [exact (insert_line_edits junk s _ true R)|done|done|by apply doc_bytes_newline|].
  intros s' Hh'. by eexists.
Qed.

Lemma do_del_char : performs (del_char junk) DelChar.
Proof. intros s h Hh _. apply (wp_del_char_holds s h _ Hh). intros s' Hh'. by eexists. Qed.

Lemma do_undel_char af : performs (undel_char junk af) UndelChar.
Proof.
  intros s h Hh _. pose proof (sk_two _ _ _ (hd_saves _ _ _ Hh)) as H2. destruct (h_char h) as [|c0 [|c1 r]] eqn:E; cbn in H2; try lia.
  apply (wp_undel_char_holds af s h c0 c1 r _ Hh E). intros s' h' Hd Hh'. by exists h'.
Qed.

Lemma do_del_word : performs del_word DelWord.
Proof. intros s h Hh _. apply (wp_del_word_holds s h _ Hh). intros s' h' Hd Hh'. by exists h'. Qed.

Lemma do_undel_word : performs (undel_word junk) UndelWord.
Proof. intros s h Hh _. apply (wp_undel_word_holds s h _ Hh). intros s' h' Hd Hh'. by exists h'. Qed.

Lemma do_del_line : performs (del_line junk) DelLine.
Proof. intros s h Hh Hin. apply (wp_del_line_holds s h _ Hh Hin). intros s' h' Hd Hh'. by exists h'. Qed.

Lemma do_undel_line : performs (undel_line junk) UndelLine.
Proof. intros s h Hh _. apply (wp_undel_line_holds s h _ Hh). intros s' h' Hd Hh'. by exists h'. Qed.

Lemma do_nothing : performs (ret tt) Nothing.
Proof. intros s h Hh _. apply wp_ret. by exists h. Qed.

End Session.

Create HintDb ee_cmds.
#[export] Hint Resolve do_left do_right do_bol do_eol do_top do_bottom do_adv_word do_up do_down do_page_up do_page_down do_newline do_del_char
  do_undel_char do_del_word do_undel_word do_del_line do_undel_line do_nothing : ee_cmds.


(** ** Keys *)

Section Keys.
Context (junk : Z) (af fk cp sp mo : E ()) (code : option Z) (emacs : bool) (md : mode).

Lemma control_does s h c :
  holds md s h -> in_ s = c -> 0 <= c <= 31 -> c <> 8 -> c <> 9 ->
  forall m, key_cmd emacs c = Some m ->
  wp (if emacs then emacs_control junk af cp sp mo code else control junk af cp sp mo code) (fun _ s' => done_ md m h s') noexit s.
Proof.
  intros Hh Hin Hc H8 H9 m Hm. assert (Hin8 : in_ s <> 8) by congruence.
  unfold key_cmd in Hm. rewrite (proj2 (Z.eqb_neq c 8)), (proj2 (Z.eqb_neq c 127)), (proj2 (Z.ltb_ge 31 c)), (proj2 (Z.eqb_neq c 9)) in Hm by lia.
  cbn [orb andb] in Hm.
  assert (Hs : forall P : Z -> Prop, Forall P (seqZ 0 32) -> P c) by (intros P HP; rewrite List.Forall_forall in HP; apply HP, list_elem_of_In, elem_of_seqZ; lia).
  unfold emacs_control, control. destruct emacs; apply wp_bind, wp_get; rewrite Hin; clear Hin; revert Hm; clear H8 H9 Hc; revert c Hs.
  all: intros c Hs; pattern c; apply Hs; repeat constructor; intros Hm; try discriminate Hm; injection Hm as <-.
  all: match goal with |- context [Z.of_nat ?n + 0] => let v := eval vm_compute in (Z.of_nat n + 0) in change (Z.of_nat n + 0) with v end.
  all: cbv iota; match goal with |- wp ?p (fun _ s' => done_ _ ?k _ s') _ _ => assert (Hp : performs md p k) by eauto with ee_cmds; exact (Hp s h Hh Hin8) end.
Qed.

Lemma edit_key_does s h c m :
  holds md s h -> key_cmd emacs c = Some m ->
  wp (edit_key junk af fk cp sp mo code emacs c) (fun _ s' => done_ md m h s') noexit s.
Proof.
  intros Hh Hm. pose proof (holds_in md s h c Hh) as Hhc. unfold edit_key. ee_steps.
  destruct ((c =? 8) || (c =? 127)) eqn:E8.
  - assert (c =? -1 = false /\ 255 <? c = false) as [-> ->] by (bsimp; lia). unfold key_cmd in Hm. rewrite E8 in Hm. injection Hm as <-. ee_steps.
    eapply (wp_backspace junk md); [exact (holds_in md _ h 8 Hhc)|done|]. intros s' Hh'. by eexists.
  - destruct (((31 <? c) && (c <=? 255)) || (c =? 9)) eqn:E9.
    + unfold key_cmd in Hm. rewrite E8, E9 in Hm. injection Hm as <-.
      assert (Hc : (31 < c <= 255) \/ c = 9) by (bsimp; lia). rewrite (proj2 (Z.eqb_neq c (-1))), (proj2 (Z.ltb_ge 255 c)) by lia.
      replace ((31 <? c) || (c =? 9)) with true by lia.
      eapply wp_typed; [exact Hhc|unfold byte; lia|]. intros s' d' T Hh'. exists (with_doc h d'). split; [by exists d'|exact Hh'].
    + assert (Hr : 0 <= c <= 31 /\ c <> 8 /\ c <> 9).
      { unfold key_cmd in Hm. rewrite E8, E9 in Hm. apply orb_false_iff in E8 as [E81 E82], E9 as [E91 E92].
        assert (c < 32 \/ 255 < c) by lia. destruct c as [|p|p]; [lia| |by destruct emacs].
        assert (Z.pos p < 32); [|lia]. destruct (Z.lt_ge_cases (Z.pos p) 32) as [|Hge]; [done|]. exfalso.
        destruct emacs; repeat (destruct p as [p|p|]; try discriminate Hm; try lia). }
      destruct Hr as (Hr & Hn8 & Hn9). rewrite (proj2 (Z.eqb_neq c (-1))), (proj2 (Z.ltb_ge 255 c)), (proj2 (Z.ltb_ge 31 c)),
        (proj2 (Z.eqb_neq c 9)), (proj2 (Z.leb_le 0 c)), (proj2 (Z.leb_le c 31)) by lia. cbn [orb andb].
      exact (control_does _ h c Hhc eq_refl Hr Hn8 Hn9 m Hm).
Qed.

(** A sequence of keys, by what their commands do. *)
Fixpoint does_all (cs : list Z) (h h' : held) : Prop :=
  match cs with
  | [] => h' = h
  | c :: cs => exists m h1, key_cmd emacs c = Some m /\ does md m h h1 /\ does_all cs h1 h'
  end.

Definition editing_keys (cs : list Z) : Prop := Forall (fun c => is_Some (key_cmd emacs c)) cs.

Lemma wp_edit_keys cs s h (Q : () -> ee -> Prop) :
  holds md s h -> editing_keys cs -> (forall s' h', does_all cs h h' -> holds md s' h' -> Q tt s') ->
  wp (edit_keys junk af fk cp sp mo code emacs cs) Q noexit s.
Proof.
  revert s h Q. induction cs as [|c cs IH]; intros s h Q Hh Hcs H; cbn [edit_keys]; [apply wp_ret; by eapply H|].
  apply Forall_cons_iff in Hcs as [[m Hm] Hcs]. apply wp_bind. eapply wp_mono; [exact (edit_key_does s h c m Hh Hm)|].
  intros [] s1 (h1 & D1 & Hh1). eapply IH; [exact Hh1|exact Hcs|]. intros s2 h2 D2 Hh2. eapply H; [|exact Hh2]. by exists m, h1.
Qed.


(** Bytes of a file are bytes of its lines. *)
Lemma file_lines_bytes c : Forall byte c -> Forall (Forall byte) (file_lines c).
Proof.
  intros Hc. assert (Hp : forall b l xs, Forall (Forall byte) l.1 -> Forall byte l.2 -> Forall byte xs ->
    Forall (Forall byte) (pieces b l xs).1 /\ Forall byte (pieces b l xs).2).
  { intros b l xs. revert b l. induction xs as [|x xs IH]; intros b l H1 H2 Hx.
    - destruct b; cbn; [rewrite app_nil_r; done|]. rewrite Forall_cons_iff. done.
    - apply Forall_cons_iff in Hx as [Hx Hxs]. rewrite pieces_cons. destruct (x =? 10); apply IH; destruct b; cbn; rewrite ?Forall_app, ?Forall_cons_iff; done. }
  specialize (Hp true ([], []) c (Forall_nil_2 _) (Forall_nil_2 _) Hc). unfold file_lines, last_lines.
  destruct (pieces true ([], []) c) as [[|t ab] [|x xs]]; cbn [fst snd] in *; rewrite Forall_app, Forall_reverse, Forall_singleton;
    destruct Hp as [H1 H2]; try done. apply Forall_cons_iff in H1 as [H1 H3]. done.
Qed.

(** C14. A file read, edited with any sequence of editing keys and written: the file
    holds, line by line, the text that the commands of the keys make of its lines. *)
Theorem edit_file_session s c dc w l cs :
  Rep s blank -> buffer_ok s -> saves_ok md s (Held blank dc w l) -> Forall byte c -> editing_keys cs ->
  wp (check_fp junk true (reads c) ;; edit_keys junk af fk cp sp mo code emacs cs ;; write_file)
    (fun r _ => exists d h', above d = [] /\ col d = O /\ lines_of d = file_lines c /\
       does_all cs (Held d dc w l) h' /\ r.1.1 = unlines (lines_of (h_doc h'))) noexit s.
Proof.
  intros R Hb Hs Hc Hcs. apply wp_bind. eapply wp_check_fp; [exact R|exact Hb|]. intros s1 d R1 Ha Hcol Hl _ Hf.
  assert (Hh : holds md s1 (Held d dc w l)).
  { split; [exact R1|apply doc_bytes_lines; cbn [h_doc]; rewrite Hl; by apply file_lines_bytes|]. exact (saves_facts md s s1 (Held blank dc w l) d Hf Hs). }
  apply wp_bind. eapply wp_edit_keys; [exact Hh|exact Hcs|]. intros s2 h' D Hh'. eapply wp_write_file; [exact (hd_rep _ _ _ Hh')|].
  by exists d, h'.
Qed.

End Keys.

(** ** Concrete sessions *)

(** The two lines of the demonstration, with a margin after three columns. *)
Definition narrow : ee := demo <| observ_margins := true |> <| right_margin := 3 |>.
Definition narrow_mode : mode := Mode false (Some 3) true 20.

Lemma narrow_holds : holds narrow_mode narrow (Held demo_doc [0; 0; 0] [] None).
Proof.
  split; [eapply Rep_view; [|exact Rep_demo]; reflexivity|repeat constructor; unfold byte; lia|].
  split; try reflexivity; [done|cbn; lia|repeat constructor; unfold byte; lia|eexists; reflexivity|constructor].
Qed.

(** Type x, a newline, left, backspace, delete a word and put it back twice,
    delete a line and put it back, a page down and a page up. *)
Definition demo_keys : list Z := [120; 13; 12; 8; 23; 22; 22; 25; 26; 14; 16].

Lemma demo_keys_edit : editing_keys false demo_keys.
Proof. unfold editing_keys, demo_keys. repeat constructor; eexists; reflexivity. Qed.


(** The settings at the start of main. *)
Definition start_mode : mode := Mode true (Some 79) true 20.

Lemma edit_file_witness :
  wp (check_fp 0 true (reads [97; 10]) ;; edit_keys 0 (ret tt) (ret tt) (ret tt) (ret tt) (ret tt) None false demo_keys ;; write_file)
    (fun r _ => exists d h', above d = [] /\ col d = O /\ lines_of d = file_lines [97; 10] /\
       does_all false start_mode demo_keys (Held d [0; 0; 0] [] None) h' /\ r.1.1 = unlines (lines_of (h_doc h'))) noexit (start 0 20 80).
Proof.
  apply (edit_file_session 0 (ret tt) (ret tt) (ret tt) (ret tt) (ret tt) None false start_mode (start 0 20 80) [97; 10] [0; 0; 0] [] None demo_keys).
  - exact (Rep_start 0 20 80 ltac:(lia)).
  - exists (replicate 512 0), 0. split; [reflexivity|]. split; [reflexivity|lia].
  - split; try reflexivity; [done|cbn; lia|repeat constructor; unfold byte; lia|eexists; reflexivity|constructor].
  - repeat constructor; unfold byte; lia.
  - exact demo_keys_edit.
Defined.

(** Typing over the margin: the word goes to a line of its own. *)
Example typed_over_margin :
  exists s, edit_keys 0 (ret tt) (ret tt) (ret tt) (ret tt) (ret tt) None false [97; 98; 32; 99; 100]
      (start 0 20 80 <| right_margin := 4 |>) = SRet tt s /\
    option_map (fun n => take 2 (line n)) (heap s !! curr_line s) = Some [99; 100] /\ absolute_lin s = 2.
Proof. eexists. vm_compute. split_and!; reflexivity. Qed.

End EeSession.
