(* ===== verification/CurseTerm.v ===== *)
(** * new_curse: terminal descriptions

    src/bsd_additions/ee/new_curse.c is the screen library of ee.  Here: reading a
    compiled terminfo entry ([INFO_PARSE]) and interpreting its strings ([Operation],
    [Info_Out]).  A string is the bytes before its terminator; [Otemp], the place in the
    string, is what is left of it, and a step past the terminator is undefined.  The two
    stacks of 128 ints are lists with their top first. *)

From S2P Require Import Prelude.
From stdpp Require Import base list numbers.
From Stdlib Require Import ZArith Lia SpecFloat.

Open Scope Z_scope.
Open Scope io_scope.

Module CurseTerm.

(** ** The machine of parameterised strings *)

(** [p] and [variable]. *)
Record machine := Machine { p : list Z; variable : list Z }.

Definition of_io {A} (o : option A) : io A := match o with Some a => ioret a | None => undef end.

(** strncmp of a place in a string with a word, of its length. *)
Fixpoint starts (w s : bytes) : bool :=
  match w, s with
  | [], _ => true
  | a :: w, b :: s => (a =? b) && starts w s
  | _ :: _, [] => false
  end.

(** [Otemp++] *)
Definition next (o : bytes) : io bytes := match o with [] => undef | _ :: o => ioret o end.

(** An int of the program: overflow is undefined. *)
Definition int_ (z : Z) : io Z := if (- 2 ^ 31 <=? z) && (z <? 2 ^ 31) then ioret z else undef.

(** [Temp_Stack[--place]] and [Temp_Stack[place++] = v]. *)
Definition pop (st : list Z) : io (Z * list Z) := match st with [] => undef | v :: st => ioret (v, st) end.
Definition push (v : Z) (st : list Z) : io (list Z) := if (length st <? 128)%nat then ioret (v :: st) else undef.

Definition b2z (b : bool) : Z := if b then 1 else 0.

(** The operators on two values: [temp] is the value on top, [v] the one below it. *)
Definition operator (c temp v : Z) : option (io Z) :=
  if c =? ch "+" then Some (int_ (temp + v))
  else if c =? ch "-" then Some (int_ (temp - v))
  else if c =? ch "*" then Some (int_ (temp * v))
  else if c =? ch "/" then Some (if v =? 0 then undef else int_ (cdiv temp v))
  else if c =? ch "m" then Some (if v =? 0 then undef else let* _ := int_ (cdiv temp v) in ioret (cmod temp v))
  else if c =? ch "&" then Some (ioret (Z.land temp v))
  else if c =? ch "|" then Some (ioret (Z.lor temp v))
  else if c =? ch "^" then Some (ioret (Z.lxor temp v))
  else if c =? ch "=" then Some (ioret (b2z (temp =? v)))
  else if c =? ch ">" then Some (ioret (b2z (v <? temp)))
  else if c =? ch "<" then Some (ioret (b2z (temp <? v)))
  else None.

(** [%2d], [%02d], [%03d] of printf. *)
Definition pad_left (c : Z) (w : nat) (s : bytes) : bytes := replicate (w - length s) c ++ s.
Definition fmt_zero (w : nat) (z : Z) : bytes :=
  if z <? 0 then 45 :: pad_left 48 (w - 1) (fmt_d (- z)) else pad_left 48 w (fmt_d z).

(** [while ( *Otemp != '}') Otemp++; Otemp++;] *)
Fixpoint after_char (c : Z) (o : bytes) : io bytes :=
  match o with
  | [] => undef
  | d :: o => if d =? c then ioret o else after_char c o
  end.

(** One operation: what follows the percent sign at [o]. *)
Definition Operation (m : machine) (o : bytes) (st : list Z) : io (machine * bytes * list Z) :=
  let c := hd0 o in
  let print (f : Z -> bytes) (k : nat) := let* (temp, st) := pop st in put (f temp) ;; ioret (m, drop k o, st) in
  if c =? ch "d" then print fmt_d 1%nat
  else if starts (bs "2d") o then print (fun z => pad_left 32 2 (fmt_d z)) 2%nat
  else if starts (bs "3d") o then print fmt_d 2%nat
  else if starts (bs "02d") o then print (fmt_zero 2) 3%nat
  else if starts (bs "03d") o then print (fmt_zero 3) 3%nat
  else if match operator c 0 1 with Some _ => true | None => false end then
    let* (temp, st) := pop st in
    let* (v, st) := pop st in
    match operator c temp v with
    | Some r => let* temp := r in let* st := push temp st in ioret (m, drop 1 o, st)
    | None => undef
    end
  else if c =? ch "c" then print (fun z => [u8 z]) 1%nat
  else if c =? ch "i" then
    let* p1 := of_io (aget (p m) 1) in
    let* p1 := int_ (p1 + 1) in
    let* p2 := of_io (aget (p m) 2) in
    let* p2 := int_ (p2 + 1) in
    ioret (Machine (<[1%nat := p1]> (<[2%nat := p2]> (p m))) (variable m), drop 1 o, st)
  else if c =? ch "%" then put [c] ;; ioret (m, drop 1 o, st)
  else if c =? ch "!" then
    let* (temp, st) := pop st in let* st := push (b2z (temp =? 0)) st in ioret (m, drop 1 o, st)
  else if c =? ch "~" then
    let* (temp, st) := pop st in let* st := push (Z.lnot temp) st in ioret (m, drop 1 o, st)
  else if c =? ch "p" then
    let o := drop 1 o in
    let* v := of_io (aget (p m) (sint 8 (hd0 o) - ch "0")) in
    let* st := push v st in
    let* o := next o in ioret (m, o, st)
  else if c =? ch "P" then
    let o := drop 1 o in
    let* v := of_io (aget (variable m) (sint 8 (hd0 o) - ch "a")) in
    let* st := push v st in
    let* o := next o in ioret (m, o, st)
  else if c =? ch "g" then
    let o := drop 1 o in
    let* (v, st) := pop st in
    let* vs := of_io (aset (variable m) (sint 8 (hd0 o) - ch "a") v) in
    let* o := next o in ioret (Machine (p m) vs, o, st)
  else if c =? 39 then
    let o := drop 1 o in
    let* st := push (sint 8 (hd0 o)) st in
    let* o := next o in let* o := next o in ioret (m, o, st)
  else if c =? ch "{" then
    let o := drop 1 o in
    let* temp := of_io (atoi_line o) in
    let* st := push temp st in
    let* o := after_char (ch "}") o in ioret (m, o, st)
  else ioret (m, o, st).

(** ** Conditionals *)

(** The first place where [stop] holds, or the end. *)
Fixpoint skip_to (stop : bytes -> bool) (o : bytes) : bytes :=
  match o with
  | [] => []
  | _ :: o' => if stop o then o else skip_to stop o'
  end.

Definition is_nil (o : bytes) : bool := match o with [] => true | _ => false end.

(** The operations up to [%t]; each follows a byte taken for a percent sign. *)
Fixpoint cond_ops (fuel : nat) (m : machine) (o : bytes) (st : list Z) : io (machine * bytes * list Z) :=
  if starts (bs "%t") o || is_nil o then ioret (m, o, st)
  else
    match fuel with
    | O => undef
    | S fuel =>
        let* (m, o, st) := Operation m (drop 1 o) st in
        cond_ops fuel m o st
    end.

(** A condition, and those of its else parts as long as one is false: the place to go on from. *)
Fixpoint eval_cond (fuel : nat) (m : machine) (o : bytes) (st : list Z) : io (machine * bytes * list Z) :=
  let* (m, o, st) := cond_ops (length o) m o st in
  if negb (hd0 st =? 0) then
    let* o := next o in let* o := next o in ioret (m, o, st)
  else
    let o := skip_to (fun o => starts (bs "%e") o || starts (bs "%;") o) o in
    if negb (is_nil o) && starts (bs "%e") o then
      let o := drop 2 o in
      let tchar := skip_to (fun o => starts (bs "%t") o || starts (bs "%;") o) o in
      if is_nil tchar then ioret (m, tchar, st)
      else if starts (bs "%;") tchar then ioret (m, o, st)
      else match fuel with O => undef | S fuel => eval_cond fuel m o st end
    else if negb (is_nil o) && starts (bs "%;") o then ioret (m, drop 2 o, st)
    else ioret (m, o, st).

(** ** Info_Out *)

Section InfoOut.
(** The characters a line of the speed of the terminal sends in a millisecond, a float. *)
Context (chars_per_millisecond : spec_float).

(** The padding characters of a delay: [chars = delay * chars_per_millisecond], rounded up. *)
Definition padding (delay : Z) : io Z :=
  let chars := SFmul 24 128 (binary_normalize 24 128 delay 0 false) chars_per_millisecond in
  let* n := of_io (sf_trunc chars) in
  let* n := int_ n in
  if SFltb (S754_zero false) (SFsub 24 128 chars (binary_normalize 24 128 n 0 false)) then int_ (n + 1) else ioret n.

(** String_table[pc__] *)
Context (pc : option bytes).

Fixpoint out_loop (fuel : nat) (m : machine) (o : bytes) (st cond : list Z) : io machine :=
  match o with
  | [] => ioret m
  | c :: o1 =>
      match fuel with
      | O => undef
      | S fuel =>
          if c =? ch "%" then
            let d := hd0 o1 in
            if d =? ch "?" then
              let* (m, o, cond) := eval_cond (length o) m (drop 1 o1) cond in
              out_loop fuel m o st cond
            else if (d =? ch "t") || (d =? ch "e") || (d =? ch ";") then
              let o := drop 1 o1 in
              if negb (hd0 o =? ch ";") then
                out_loop fuel m (drop 2 (skip_to (starts (bs "%;")) o)) st cond
              else out_loop fuel m (drop 1 o) st cond
            else
              let* (m, o, st) := Operation m o1 st in
              out_loop fuel m o st cond
          else if starts (bs "$<") o then
            let o := drop 2 o in
            let* delay := of_io (atoi_line o) in
            let* o := after_char (ch ">") o in
            let* delay := padding delay in
            put (replicate (Z.to_nat delay) (match pc with None => 0 | Some s => hd0 s end)) ;;
            out_loop fuel m o st cond
          else put [c] ;; out_loop fuel m o1 st cond
      end
  end.

(** [p_list[--place]] for p[1], p[2], ...; there are ten places in [p]. *)
Definition params (p_list : option (list Z)) : option (list Z) :=
  match p_list with
  | None => Some (replicate 10 0)
  | Some l => if (length l <? 10)%nat then Some (0 :: reverse l ++ replicate (9 - length l) 0) else None
  end.

(** [p_list] is the [place] values of the call; the new [variable]. *)
Definition Info_Out (string : option bytes) (p_list : option (list Z)) (vs : list Z) : io (list Z) :=
  match string with
  | None => ioret vs
  | Some string =>
      let* ps := of_io (params p_list) in
      let* m := out_loop (length string) (Machine ps vs) string [] [] in
      ioret (variable m)
  end.
End InfoOut.

(** ** What a template prints

    An abstract syntax of the strings without conditionals: text, and expressions over
    the parameters that are printed.  [value] is what an expression comes to: the value
    on top of the stack, that of the right operand, comes first in an operation. *)

Inductive bop := Add | Sub | Mul | Div | Mod | And | Or | Xor | Eq | Gt | Lt.

Definition bop_char (b : bop) : Z :=
  match b with
  | Add => ch "+" | Sub => ch "-" | Mul => ch "*" | Div => ch "/" | Mod => ch "m" | And => ch "&" | Or => ch "|" | Xor => ch "^"
  | Eq => ch "=" | Gt => ch ">" | Lt => ch "<"
  end.

Definition fits (z : Z) : option Z := if (- 2 ^ 31 <=? z) && (z <? 2 ^ 31) then Some z else None.

Definition bop_val (b : bop) (x y : Z) : option Z :=
  match b with
  | Add => fits (x + y) | Sub => fits (x - y) | Mul => fits (x * y)
  | Div => if y =? 0 then None else fits (Z.quot x y)
  | Mod => if y =? 0 then None else match fits (Z.quot x y) with Some _ => Some (Z.rem x y) | None => None end
  | And => Some (Z.land x y) | Or => Some (Z.lor x y) | Xor => Some (Z.lxor x y)
  | Eq => Some (b2z (x =? y)) | Gt => Some (b2z (y <? x)) | Lt => Some (b2z (x <? y))
  end.

Inductive expr :=
| Par (i : Z)  (* p1 .. p9 *)
| Num (n : Z)
| Chr (c : Z)
| Bin (b : bop) (x y : expr)
| Neg (e : expr)
| Cpl (e : expr).

Fixpoint etext (e : expr) : bytes :=
  match e with
  | Par i => [37; ch "p"; 48 + i]
  | Num n => 37 :: ch "{" :: fmt_d n ++ [ch "}"]
  | Chr c => [37; 39; c; 39]
  | Bin b x y => etext x ++ etext y ++ [37; bop_char b]
  | Neg e => etext e ++ [37; ch "!"]
  | Cpl e => etext e ++ [37; ch "~"]
  end.

Fixpoint value (ps : list Z) (e : expr) : option Z :=
  match e with
  | Par i => if (0 <=? i) && (i <=? 9) then aget ps i else None
  | Num n => if (0 <=? n) && (n <? 2 ^ 31) then Some n else None
  | Chr c => if (0 <? c) && (c <? 128) then Some c else None
  | Bin b x y => match value ps x, value ps y with Some v, Some w => bop_val b w v | _, _ => None end
  | Neg e => (fun v => b2z (v =? 0)) <$> value ps e
  | Cpl e => Z.lnot <$> value ps e
  end.

(** The places an expression takes on the stack, and its operations. *)
Fixpoint depth (e : expr) : nat :=
  match e with
  | Par _ | Num _ | Chr _ => 1
  | Bin _ x y => Nat.max (depth x) (S (depth y))
  | Neg e | Cpl e => depth e
  end.
Fixpoint steps (e : expr) : nat :=
  match e with
  | Par _ | Num _ | Chr _ => 1
  | Bin _ x y => steps x + steps y + 1
  | Neg e | Cpl e => steps e + 1
  end.

Inductive piece :=
| Txt (w : bytes)
| Dec (e : expr)   (* %d *)
| Dec2 (e : expr)  (* %2d *)
| Dec02 (e : expr)
| Dec03 (e : expr)
| Put (e : expr)   (* %c *)
| Inc              (* %i *)
| Pct.             (* %% *)

Definition ptext (x : piece) : bytes :=
  match x with
  | Txt w => w
  | Dec e => etext e ++ [37; ch "d"]
  | Dec2 e => etext e ++ bs "%2d"
  | Dec02 e => etext e ++ bs "%02d"
  | Dec03 e => etext e ++ bs "%03d"
  | Put e => etext e ++ [37; ch "c"]
  | Inc => [37; ch "i"]
  | Pct => [37; 37]
  end.

(** The first two parameters counted from one. *)
Definition incremented (ps : list Z) : option (list Z) :=
  match ps with
  | p0 :: p1 :: p2 :: ps => match fits (p1 + 1), fits (p2 + 1) with Some a, Some b => Some (p0 :: a :: b :: ps) | _, _ => None end
  | _ => None
  end.

Definition shown (ps : list Z) (e : expr) (f : Z -> bytes) : option (bytes * list Z) :=
  if (depth e <=? 128)%nat then (fun v => (f v, ps)) <$> value ps e else None.

(** What a piece prints, and the parameters after it. *)
Definition render1 (ps : list Z) (x : piece) : option (bytes * list Z) :=
  match x with
  | Txt w => if forallb (fun c => negb (c =? 37) && negb (c =? 36)) w then Some (w, ps) else None
  | Dec e => shown ps e fmt_d
  | Dec2 e => shown ps e (fun z => pad_left 32 2 (fmt_d z))
  | Dec02 e => shown ps e (fmt_zero 2)
  | Dec03 e => shown ps e (fmt_zero 3)
  | Put e => shown ps e (fun z => [u8 z])
  | Inc => (fun ps => ([], ps)) <$> incremented ps
  | Pct => Some ([37], ps)
  end.

Fixpoint render (ps : list Z) (t : list piece) : option bytes :=
  match t with
  | [] => Some []
  | x :: t => match render1 ps x with
              | Some (o, ps) => (fun o' => o ++ o') <$> render ps t
              | None => None
              end
  end.

(** *** Proofs *)

Lemma fmt_d_nat n : 0 <= n < 2 ^ 31 -> fmt_d n = print_base 10 n /\ forallb isdigit (fmt_d n) = true /\ num_of_digits 10 (fmt_d n) = n /\ fmt_d n <> [].
Proof.
  intros Hn. unfold fmt_d. rewrite (proj2 (Z.ltb_ge n 0)) by lia. destruct (print_base_spec 10 n) as (Hne & Hd & Hv & _); [lia|unfold ULONG_MAX; lia|].
  split_and!; try done. rewrite forallb_forall in *. intros c Hc. by apply base10_isdigit, Hd.
Qed.

Lemma atoi_num n rest : 0 <= n < 2 ^ 31 -> isdigit (hd0 rest) = false -> atoi_line (fmt_d n ++ rest) = Some n.
Proof.
  intros Hn Hr. destruct (fmt_d_nat n Hn) as (_ & Hd & Hv & Hne). unfold atoi_line.
  destruct (fmt_d n) as [|c ds] eqn:E; [done|]. cbn in Hd. apply andb_prop in Hd as [Hc Hds]. cbn [app span].
  assert (Hs : isspace c = false /\ (c =? 45) = false /\ (c =? 43) = false) by (unfold isdigit, isspace in *; lia).
  destruct Hs as (-> & H45 & H43). cbn [snd hd0]. rewrite H45, H43. change (c :: ds ++ rest) with ((c :: ds) ++ rest).
  rewrite span_all; [|by cbn; rewrite Hc|destruct rest; [by left|by right]]. cbn [fst]. rewrite Hv.
  by rewrite (proj2 (Z.leb_le _ _)), (proj2 (Z.ltb_lt _ _)) by lia.
Qed.

Lemma after_char_found c w rest : forallb (fun d => negb (d =? c)) w = true -> after_char c (w ++ c :: rest) = ioret rest.
Proof. induction w as [|d w IH]; cbn; [by rewrite Z.eqb_refl|]. intros H. apply andb_prop in H as [Hd Hw]. apply negb_true_iff in Hd. rewrite Hd. auto. Qed.

Lemma of_io_fits z v : fits z = Some v -> int_ z = ioret v.
Proof. unfold fits, int_. case_if; [by intros [= ->]|done]. Qed.

Lemma operator_bop b x y v : bop_val b x y = Some v -> operator (bop_char b) x y = Some (ioret v).
Proof.
  destruct b; unfold operator, bop_char; cbn -[Z.quot Z.rem fits int_]; intros H; repeat f_equal; try (by apply of_io_fits); try congruence.
  - case_if; [done|]. by apply of_io_fits.
  - case_if; [done|]. destruct (fits (Z.quot x y)) eqn:E; [|done]. unfold cdiv, cmod. rewrite (of_io_fits _ _ E). by injection H as ->.
Qed.

Lemma push_ok v st : (length st < 128)%nat -> push v st = ioret (v :: st).
Proof. intros H. unfold push. by rewrite (proj2 (Nat.ltb_lt _ _) H). Qed.

Section Prints.
Context (cpm : spec_float) (pc : option bytes) (cond : list Z).

Lemma out_op fuel m d o st : (d =? ch "?") = false -> (d =? ch "t") || (d =? ch "e") || (d =? ch ";") = false ->
  out_loop cpm pc (S fuel) m (37 :: d :: o) st cond = iobind (Operation m (d :: o) st) (fun '(m, o, st) => out_loop cpm pc fuel m o st cond).
Proof. intros H1 H2. cbn [out_loop hd0]. change (37 =? ch "%") with true. cbn iota. by rewrite H1, H2. Qed.

(** What each operation does to the stack. *)
Lemma op_bin b m o st x y v : bop_val b y x = Some v -> (length st < 128)%nat ->
  Operation m (bop_char b :: o) (y :: x :: st) = ioret (m, o, v :: st).
Proof.
  intros H Hst. apply operator_bop in H. unfold Operation. cbn [hd0].
  assert (Ho : match operator (bop_char b) 0 1 with Some _ => true | None => false end = true) by (by destruct b). rewrite Ho. clear Ho.
  destruct b; cbn -[push operator] in *; rewrite H; cbn -[push]; rewrite push_ok by done; reflexivity.
Qed.

Lemma op_par m k o st v : 48 <= k <= 57 -> aget (p m) (k - 48) = Some v -> (length st < 128)%nat ->
  Operation m (ch "p" :: k :: o) st = ioret (m, o, v :: st).
Proof.
  intros Hi Hv Hst. unfold Operation. cbn -[push aget sint Z.sub]. rewrite sint_small by lia. change (ch "0") with 48.
  rewrite Hv. cbn -[push]. rewrite push_ok by done. reflexivity.
Qed.

Lemma op_num m n o st : 0 <= n < 2 ^ 31 -> (length st < 128)%nat ->
  Operation m (ch "{" :: fmt_d n ++ ch "}" :: o) st = ioret (m, o, n :: st).
Proof.
  intros Hn Hst. destruct (fmt_d_nat n Hn) as (_ & Hd & _).
  assert (Ha : atoi_line (fmt_d n ++ ch "}" :: o) = Some n) by (by apply atoi_num).
  assert (Hc : after_char (ch "}") (fmt_d n ++ ch "}" :: o) = ioret o).
  { apply after_char_found. rewrite forallb_forall in *. intros c Hc. apply Hd in Hc. unfold isdigit in Hc. change (ch "}") with 125. lia. }
  revert Ha Hc. generalize (fmt_d n ++ ch "}" :: o) as w. intros w Ha Hc. unfold Operation. cbn -[push atoi_line after_char ch].
  change (ch "{") with 123. cbn -[push atoi_line after_char ch]. rewrite drop_0, Ha, Hc. cbn -[push]. rewrite push_ok by done. reflexivity.
Qed.

Lemma op_chr m c o st : 0 < c < 128 -> (length st < 128)%nat -> Operation m (39 :: c :: 39 :: o) st = ioret (m, o, c :: st).
Proof. intros Hc Hst. unfold Operation. cbn -[push sint]. rewrite sint_small by lia. rewrite push_ok by done. reflexivity. Qed.

Lemma op_neg m o st v : (length st < 128)%nat -> Operation m (ch "!" :: o) (v :: st) = ioret (m, o, b2z (v =? 0) :: st).
Proof. intros Hst. unfold Operation. cbn -[push]. rewrite push_ok by done. reflexivity. Qed.

Lemma op_cpl m o st v : (length st < 128)%nat -> Operation m (ch "~" :: o) (v :: st) = ioret (m, o, Z.lnot v :: st).
Proof. intros Hst. unfold Operation. cbn -[push Z.lnot]. rewrite (push_ok (Z.lnot v)) by done. reflexivity. Qed.

Lemma op_inc m o st p1 p2 a b : aget (p m) 1 = Some p1 -> aget (p m) 2 = Some p2 -> fits (p1 + 1) = Some a -> fits (p2 + 1) = Some b ->
  Operation m (ch "i" :: o) st = ioret (Machine (<[1%nat := a]> (<[2%nat := b]> (p m))) (variable m), o, st).
Proof.
  intros H1 H2 Ha Hb.
  transitivity (let* p1 := of_io (aget (p m) 1) in let* p1 := int_ (p1 + 1) in let* p2 := of_io (aget (p m) 2) in let* p2 := int_ (p2 + 1) in
    ioret (Machine (<[1%nat := p1]> (<[2%nat := p2]> (p m))) (variable m), o, st)); [reflexivity|].
  rewrite H1, H2. cbn [of_io]. by rewrite !iobind_ret_l, (of_io_fits _ _ Ha), iobind_ret_l, iobind_ret_l, (of_io_fits _ _ Hb), iobind_ret_l.
Qed.

Lemma out_ioret fuel m d o st m' o' st' : (d =? ch "?") = false -> (d =? ch "t") || (d =? ch "e") || (d =? ch ";") = false ->
  Operation m (d :: o) st = ioret (m', o', st') -> out_loop cpm pc (S fuel) m (37 :: d :: o) st cond = out_loop cpm pc fuel m' o' st' cond.
Proof. intros H1 H2 H. rewrite out_op, H by done. apply (iobind_ret_l (m', o', st') (fun '(m, o, st) => out_loop cpm pc fuel m o st cond)). Qed.

Lemma depth_pos e : (1 <= depth e)%nat.
Proof. induction e; cbn; lia. Qed.

Lemma out_expr e : forall fuel m rest st v, value (p m) e = Some v -> (length st + depth e <= 128)%nat ->
  out_loop cpm pc (steps e + fuel) m (etext e ++ rest) st cond = out_loop cpm pc fuel m rest (v :: st) cond.
Proof.
  induction e as [i|n|c|b x IHx y IHy|e IH|e IH]; intros fuel m rest st v Hv Hd; cbn [steps etext depth value app Nat.add] in *.
  - case_if; [|done]. bsimp. apply out_ioret; [done|done|]. apply op_par; [lia|by replace (48 + i - 48) with i by lia|lia].
  - case_if; [|done]. bsimp. injection Hv as <-. rewrite <- app_assoc. apply out_ioret; [done|done|]. apply op_num; [lia|lia].
  - case_if; [|done]. bsimp. injection Hv as <-. apply out_ioret; [done|done|]. apply op_chr; lia.
  - destruct (value (p m) x) as [vx|] eqn:Ex; [|done]. destruct (value (p m) y) as [vy|] eqn:Ey; [|done].
    rewrite <- !app_assoc, <- !Nat.add_assoc, (IHx _ m _ _ vx), (IHy _ m _ _ vy) by (done || cbn [length]; lia).
    apply out_ioret; [by destruct b|by destruct b|]. apply op_bin; [done|lia].
  - destruct (value (p m) e) as [ve|] eqn:Ee; [|done]. injection Hv as <-.
    rewrite <- app_assoc, <- Nat.add_assoc, (IH _ m _ _ ve) by (done || lia). apply out_ioret; [done|done|]. apply op_neg. pose proof (depth_pos e). lia.
  - destruct (value (p m) e) as [ve|] eqn:Ee; [|done]. injection Hv as <-.
    rewrite <- app_assoc, <- Nat.add_assoc, (IH _ m _ _ ve) by (done || lia). apply out_ioret; [done|done|]. apply op_cpl. pose proof (depth_pos e). lia.
Qed.

(** An operation that prints. *)
Lemma out_print fuel m d o st b o' st' : (d =? ch "?") = false -> (d =? ch "t") || (d =? ch "e") || (d =? ch ";") = false ->
  Operation m (d :: o) st = (b, Ret (m, o', st')) ->
  out_loop cpm pc (S fuel) m (37 :: d :: o) st cond = (put b ;; out_loop cpm pc fuel m o' st' cond).
Proof. intros H1 H2 H. rewrite out_op, H by done. done. Qed.

Lemma op_print m d k st v f : f = fmt_d /\ d = bs "d" \/ f = (fun z => pad_left 32 2 (fmt_d z)) /\ d = bs "2d" \/ f = fmt_zero 2 /\ d = bs "02d" \/
    f = fmt_zero 3 /\ d = bs "03d" \/ f = (fun z => [u8 z]) /\ d = bs "c" ->
  Operation m (d ++ k) (v :: st) = (f v, Ret (m, k, st)).
Proof.
  intros Hf. rewrite <- (app_nil_r (f v)). destruct Hf as [[-> ->]|[[-> ->]|[[-> ->]|[[-> ->]|[-> ->]]]]]; reflexivity.
Qed.

Lemma steps_length e : (steps e <= length (etext e))%nat.
Proof. induction e; cbn; rewrite ?length_app; cbn; lia. Qed.

Definition psteps (x : piece) : nat :=
  match x with
  | Txt w => length w
  | Dec e | Dec2 e | Dec02 e | Dec03 e | Put e => steps e + 1
  | Inc | Pct => 1
  end.

Definition all_steps (t : list piece) : nat := foldr (fun x n => (psteps x + n)%nat) 0%nat t.

Lemma psteps_length x : (psteps x <= length (ptext x))%nat.
Proof. destruct x as [w|e|e|e|e|e| |]; cbn; rewrite ?length_app; cbn; try lia; pose proof (steps_length e); lia. Qed.

Lemma out_txt w : forall fuel m rest, forallb (fun c => negb (c =? 37) && negb (c =? 36)) w = true ->
  out_loop cpm pc (length w + fuel) m (w ++ rest) [] cond = (put w ;; out_loop cpm pc fuel m rest [] cond).
Proof.
  induction w as [|c w IH]; intros fuel m rest Hw; [cbn; by destruct (out_loop _ _ _ _ _ _ _)|]. cbn in Hw. bsimp. cbn [length Nat.add app out_loop].
  replace (c =? ch "%") with false by (symmetry; by apply Z.eqb_neq). replace (starts (bs "$<") (c :: w ++ rest)) with false.
  2:{ symmetry. apply andb_false_iff. left. apply Z.eqb_neq. change (ch "$") with 36. congruence. }
  rewrite IH by done. rewrite !iobind_put. by destruct (out_loop _ _ _ _ _ _ _).
Qed.

Lemma out_shown e f d m rest fuel b ps' : (d =? ch "?") = false -> (d =? ch "t") || (d =? ch "e") || (d =? ch ";") = false -> forall w,
  shown (p m) e f = Some (b, ps') -> (forall v, Operation m (d :: w ++ rest) [v] = (f v, Ret (m, rest, []))) ->
  ps' = p m /\ out_loop cpm pc (steps e + 1 + fuel) m (etext e ++ 37 :: d :: w ++ rest) [] cond = (put b ;; out_loop cpm pc fuel m rest [] cond).
Proof.
  intros H1 H2 w Hs Ho. unfold shown in Hs. case_if; [|done]. apply Nat.leb_le in Heqb0. destruct (value (p m) e) as [v|] eqn:Ev; [|done].
  injection Hs as <- <-. split; [done|]. rewrite <- Nat.add_assoc, (out_expr e _ m _ _ v) by (done || cbn [length]; lia). by apply out_print.
Qed.

Lemma out_piece x vs ps ps' b rest fuel : render1 ps x = Some (b, ps') ->
  out_loop cpm pc (psteps x + fuel) (Machine ps vs) (ptext x ++ rest) [] cond = (put b ;; out_loop cpm pc fuel (Machine ps' vs) rest [] cond).
Proof.
  destruct x as [w|e|e|e|e|e| |]; cbn [render1 psteps ptext]; intros H; rewrite <- ?app_assoc.
  - case_if; [|done]. injection H as <- <-. by apply out_txt.
  - destruct (out_shown e fmt_d (ch "d") (Machine ps vs) rest fuel b ps' eq_refl eq_refl [] H) as [-> Ho]; [|exact Ho]. intros v. apply (op_print _ (bs "d") rest [] v fmt_d). auto.
  - destruct (out_shown e (fun z => pad_left 32 2 (fmt_d z)) (ch "2") (Machine ps vs) rest fuel b ps' eq_refl eq_refl (bs "d") H) as [-> Ho]; [|exact Ho].
    intros v. apply (op_print _ (bs "2d") rest [] v (fun z => pad_left 32 2 (fmt_d z))). auto.
  - destruct (out_shown e (fmt_zero 2) (ch "0") (Machine ps vs) rest fuel b ps' eq_refl eq_refl (bs "2d") H) as [-> Ho]; [|exact Ho].
    intros v. apply (op_print _ (bs "02d") rest [] v (fmt_zero 2)). auto.
  - destruct (out_shown e (fmt_zero 3) (ch "0") (Machine ps vs) rest fuel b ps' eq_refl eq_refl (bs "3d") H) as [-> Ho]; [|exact Ho].
    intros v. apply (op_print _ (bs "03d") rest [] v (fmt_zero 3)). auto 6.
  - destruct (out_shown e (fun z => [u8 z]) (ch "c") (Machine ps vs) rest fuel b ps' eq_refl eq_refl [] H) as [-> Ho]; [|exact Ho].
    intros v. apply (op_print _ (bs "c") rest [] v (fun z => [u8 z])). auto 6.
  - destruct ps as [|p0 [|p1 [|p2 ps]]]; try done. cbn in H. destruct (fits (p1 + 1)) as [a|] eqn:Ea; [|done]. destruct (fits (p2 + 1)) as [a2|] eqn:Ea2; [|done].
    injection H as <- <-. cbn [Nat.add app]. rewrite (out_ioret _ _ _ _ _ (Machine (p0 :: a :: a2 :: ps) vs) rest []); [by rewrite iobind_put; destruct (out_loop _ _ _ _ _ _ _)|done|done|].
    by apply (op_inc (Machine (p0 :: p1 :: p2 :: ps) vs) rest [] p1 p2).
  - injection H as <- <-. by apply out_print.
Qed.
End Prints.

(** A string without conditionals is printed piece by piece. *)
Lemma Info_Out_template cpm pc t pl vs ps out :
  params pl = Some ps -> render ps t = Some out ->
  Info_Out cpm pc (Some (concat (map ptext t))) pl vs = (out, Ret vs).
Proof.
  intros Hp Hr. unfold Info_Out. rewrite Hp. cbn [of_io]. rewrite iobind_ret_l.
  enough (H : forall fuel ps out, render ps t = Some out -> (all_steps t <= fuel)%nat ->
    exists ps', out_loop cpm pc fuel (Machine ps vs) (concat (map ptext t)) [] [] = (out, Ret (Machine ps' vs))).
  { destruct (H (length (concat (map ptext t))) ps out Hr) as (ps' & ->); [|cbn; by rewrite app_nil_r].
    clear. unfold all_steps. induction t as [|x t IH]; cbn; [lia|]. rewrite length_app. pose proof (psteps_length x). lia. }
  clear. induction t as [|x t IH]; intros fuel ps out Hr Hf; cbn in Hr.
  { injection Hr as <-. exists ps. by destruct fuel. }
  destruct (render1 ps x) as [[b ps1]|] eqn:E1; [|done]. destruct (render ps1 t) as [o|] eqn:E2; [|done]. injection Hr as <-.
  cbn [all_steps foldr] in Hf. destruct (IH (fuel - psteps x)%nat _ _ E2) as (ps' & H'); [unfold all_steps; lia|]. exists ps'.
  replace fuel with (psteps x + (fuel - psteps x))%nat by (clear -Hf; lia). cbn [map concat].
  enough (H : out_loop cpm pc (psteps x + (fuel - psteps x)) (Machine ps vs) (ptext x ++ concat (map ptext t)) [] [] =
    (put b ;; out_loop cpm pc (fuel - psteps x) (Machine ps1 vs) (concat (map ptext t)) [] [])) by (rewrite H, iobind_put, H'; done).
  by apply out_piece.
Qed.


(** The cursor addressing of ANSI terminals, as Position calls it: row and column from one. *)
Definition ansi_cm : list piece := [Txt (27 :: bs "["); Inc; Dec (Par 1); Txt (bs ";"); Dec (Par 2); Txt (bs "H")].


(** terminfo(5) has the first operand of %- below the second one: 10 - 3 here. *)
Example minus_swapped : Info_Out (S754_zero false) None (Some (bs "%p1%p2%-%d")) (Some [3; 10]) [] = (bs "-7", Ret []).
Proof. reflexivity. Qed.

(** After a conditional whose last part has been printed, the string is skipped up to the
    end of the next one, or to its end. *)
Example text_after_conditional_lost : Info_Out (S754_zero false) None (Some (bs "%?%p1%tA%;B")) (Some [1]) [] = (bs "A", Ret []) /\
  Info_Out (S754_zero false) None (Some (bs "%?%p1%tA%eC%;B")) (Some [0]) [] = (bs "C", Ret []).
Proof. split; reflexivity. Qed.

(** So the sequence that sets attributes on an xterm loses its start. *)
Example xterm_sgr_broken : (Info_Out (S754_zero false) None
    (Some (bs "%?%p9%t" ++ 27 :: bs "(0%e" ++ 27 :: bs "(B%;" ++ 27 :: bs "[0%?%p6%t;1%;%?%p5%t;2%;%?%p2%t;4%;%?%p1%p3%|%t;7%;%?%p4%t;5%;%?%p7%t;8%;m")) (Some [1]) []).1 =
  27 :: bs "(B;7m".
Proof. reflexivity. Qed.

(** %P stores the value on top and %g fetches it in terminfo(5), the other way round here. *)
Example variables_swapped : Info_Out (S754_zero false) None (Some (bs "%{65}%Pa%c")) None (replicate 27 66) = (bs "B", Ret (replicate 27 66)).
Proof. reflexivity. Qed.

End CurseTerm.
