(* ===== verification/CurseInfo.v ===== *)
(** * new_curse: reading a terminfo file

    [INFO_PARSE] of src/bsd_additions/ee/new_curse.c reads a compiled terminfo entry into
    the tables Booleans, Numbers and String_table.  [TERM_data_ptr] is the offset in the
    block of 10240 bytes the file is read into; malloc gives blocks at even addresses.
    [None] is undefined behaviour: a read or write outside a block or a table. *)

From S2P Require Import Prelude.
From stdpp Require Import base list numbers.
From Stdlib Require Import ZArith Lia ZifyBool.

Open Scope Z_scope.

Module CurseInfo.

(** The tables, of 128, 128 and 1024 entries. *)
Record info := Info { Booleans : list Z; Numbers : list Z; String_table : list (option bytes) }.

Definition no_info : info := Info (replicate 128 0) (replicate 128 0) (replicate 1024 None).

Section Parse.
(** Flip_Bytes *)
Context (Flip_Bytes : bool) (Data_Line : bytes).

(** The number at an offset, and the offset after it. *)
Definition Get_int (ptr : Z) : option (Z * Z) :=
  match aget Data_Line ptr, aget Data_Line (ptr + 1) with
  | Some a, Some b =>
      let '(Low_byte, High_byte) := if Flip_Bytes then (b, a) else (a, b) in
      Some (if (High_byte =? 255) && (Low_byte =? 255) then -1 else Low_byte + High_byte * 256, ptr + 2)
  | _, _ => None
  end.

Fixpoint read_bools (n : nat) (ptr counter : Z) (t : list Z) : option (Z * list Z) :=
  match n with
  | O => Some (ptr, t)
  | S n =>
      match aget Data_Line ptr with
      | Some b => match aset t counter (sint 8 b) with Some t => read_bools n (ptr + 1) (counter + 1) t | None => None end
      | None => None
      end
  end.

Fixpoint read_numbers (n : nat) (ptr counter : Z) (t : list Z) : option (Z * list Z) :=
  match n with
  | O => Some (ptr, t)
  | S n =>
      match Get_int ptr with
      | Some (v, ptr) => match aset t counter v with Some t => read_numbers n ptr (counter + 1) t | None => None end
      | None => None
      end
  end.

(** The string at an offset of Strings: it must end in the block. *)
Definition string_at (Strings : bytes) (offset : Z) : option bytes :=
  if offset <=? Z.of_nat (length Strings) then
    match span (fun c => negb (c =? 0)) (drop (Z.to_nat offset) Strings) with
    | (s, _ :: _) => Some s
    | (_, []) => None
    end
  else None.

Fixpoint read_strings (n : nat) (Strings : bytes) (ptr counter : Z) (t : list (option bytes)) : option (list (option bytes)) :=
  match n with
  | O => Some t
  | S n =>
      match Get_int ptr, aget t counter with
      | Some (offset, ptr), Some old =>
          let entry :=
            if negb (offset =? -1) then
              match old with
              | None => match string_at Strings offset with Some s => Some (Some s) | None => None end
              | Some _ => Some old
              end
            else Some None in
          match entry with
          | Some v => match aset t counter v with Some t => read_strings n Strings ptr (counter + 1) t | None => None end
          | None => None
          end
      | _, _ => None
      end
  end.

(** The names skipped, and the tables filled in, for the counts of the header; a negative
    count never ends in the tables. *)
Definition read_tables (Num_names Num_bools Num_ints Num_strings string_table_len ptr : Z) (i : info) : option info :=
  if (Num_bools <? 0) || (Num_ints <? 0) || (Num_strings <? 0) || (string_table_len <? 0) then None
  else
    let ptr := ptr + Z.max 0 Num_names in
    match read_bools (Z.to_nat Num_bools) ptr 0 (Booleans i) with None => None | Some (ptr, bools) =>
    let ptr := if ptr mod 2 =? 1 then ptr + 1 else ptr in
    match read_numbers (Z.to_nat Num_ints) ptr 0 (Numbers i) with None => None | Some (ptr, nums) =>
    let temp_ptr := ptr + Num_strings + Num_strings in
    if Z.of_nat (length Data_Line) <? temp_ptr + string_table_len then None
    else
      let Strings := take (Z.to_nat string_table_len) (drop (Z.to_nat temp_ptr) Data_Line) in
      match read_strings (Z.to_nat Num_strings) Strings ptr 0 (String_table i) with
      | Some strs => Some (Info bools nums strs)
      | None => None
      end
    end end.

(** The header: five counts. *)
Definition read_info (ptr : Z) (i : info) : option info :=
  match Get_int ptr with None => None | Some (Num_names, ptr) =>
  match Get_int ptr with None => None | Some (Num_bools, ptr) =>
  match Get_int ptr with None => None | Some (Num_ints, ptr) =>
  match Get_int ptr with None => None | Some (Num_strings, ptr) =>
  match Get_int ptr with None => None | Some (string_table_len, ptr) =>
  read_tables Num_names Num_bools Num_ints Num_strings string_table_len ptr i
  end end end end end.
End Parse.

(** [f] is what read gives of the file, [junk] what malloc left in the block;
    [Some None] is the return of 0. *)
Definition INFO_PARSE (junk f : bytes) (i : info) : option (option info) :=
  if 10240 <=? Z.of_nat (length f) then Some None
  else
    let Data_Line := take (Z.to_nat 10240) (f ++ junk ++ replicate (Z.to_nat 10240) 0) in
    match Get_int false Data_Line 0 with
    | None => None
    | Some (magic_number, ptr) =>
        if magic_number =? 282 then Some <$> read_info false Data_Line ptr i
        else
          match Get_int true Data_Line 0 with
          | None => None
          | Some (magic_number, ptr) => if magic_number =? 282 then Some <$> read_info true Data_Line ptr i else Some None
          end
    end.

(** ** A compiled entry *)

Record entry := Entry { names : bytes; bools : list Z; nums : list Z; strs : list (option bytes) }.

(** A number in two bytes; absent numbers are -1. *)
Definition two (flip : bool) (z : Z) : bytes :=
  let z := if z =? -1 then 65535 else z in
  if flip then [z / 256; z mod 256] else [z mod 256; z / 256].

(** The string table, and the offsets in it. *)
Definition table (l : list (option bytes)) : bytes := concat (map (fun o => match o with Some s => s ++ [0] | None => [] end) l).
Fixpoint offsets (k : nat) (l : list (option bytes)) : list Z :=
  match l with
  | [] => []
  | Some s :: l => Z.of_nat k :: offsets (k + length s + 1) l
  | None :: l => -1 :: offsets k l
  end.

Definition compiled (flip : bool) (e : entry) : bytes :=
  concat (map (two flip) [282; Z.of_nat (length (names e)); Z.of_nat (length (bools e)); Z.of_nat (length (nums e));
                          Z.of_nat (length (strs e)); Z.of_nat (length (table (strs e)))]) ++
  names e ++ bools e ++ (if Nat.odd (length (names e) + length (bools e)) then [0] else []) ++
  concat (map (two flip) (nums e)) ++ concat (map (two flip) (offsets 0 (strs e))) ++ table (strs e).

(** What the tables can hold: 8-bit booleans, 16-bit numbers, C strings. *)
Record entry_ok (e : entry) : Prop := {
  ok_bools : Forall (fun b => 0 <= b < 128) (bools e) /\ (length (bools e) <= 128)%nat;
  ok_nums : Forall (fun n => -1 <= n < 65535) (nums e) /\ (length (nums e) <= 128)%nat;
  ok_strs : Forall (fun o => match o with Some s => Forall (fun c => c <> 0) s | None => True end) (strs e) /\ (length (strs e) <= 1024)%nat;
}.

(** ** Reading back *)

Lemma length_two flip z : length (two flip z) = 2%nat.
Proof. unfold two. by destruct (z =? -1), flip. Qed.

Lemma length_twos flip l : length (concat (map (two flip) l)) = (2 * length l)%nat.
Proof. induction l as [|z l IH]; cbn; [done|]. rewrite length_app, length_two, IH. lia. Qed.

Lemma length_offsets l : forall k, length (offsets k l) = length l.
Proof. induction l as [|[s|] l IH]; intros k; cbn; [done|by rewrite IH|by rewrite IH]. Qed.

Lemma aget_ahead {A} (a b : list A) i : aget (a ++ b) (Z.of_nat (length a) + i) = if i <? 0 then aget a (Z.of_nat (length a) + i) else aget b i.
Proof.
  unfold aget. destruct (i <? 0) eqn:E; bsimp.
  - case_if; [done|]. bsimp. rewrite lookup_app_l by lia. done.
  - rewrite (proj2 (Z.ltb_ge _ _)) by lia. rewrite lookup_app_r by lia. f_equal. lia.
Qed.

(** The bytes at the end of a prefix. *)
Lemma aget_here {A} (a b : list A) x : aget (a ++ x :: b) (Z.of_nat (length a)) = Some x.
Proof. rewrite <- (Z.add_0_r (Z.of_nat (length a))), aget_ahead. done. Qed.

Lemma aset_here {A} (a b : list A) x y : aset (a ++ x :: b) (Z.of_nat (length a)) y = Some (a ++ y :: b).
Proof.
  unfold aset. rewrite length_app. cbn [length]. replace ((0 <=? _) && _) with true by lia. rewrite Nat2Z.id.
  by rewrite insert_app_r_alt, Nat.sub_diag by lia.
Qed.

Section Read.
Context (flip : bool).

Lemma get_two pre z post : -1 <= z < 65535 ->
  Get_int flip (pre ++ two flip z ++ post) (Z.of_nat (length pre)) = Some (z, Z.of_nat (length pre) + 2).
Proof.
  intros Hz. assert (H2 : exists a b, two flip z = [a; b] /\ (let '(lo, hi) := if flip then (b, a) else (a, b) in
    (if (hi =? 255) && (lo =? 255) then -1 else lo + hi * 256) = z)).
  { unfold two. destruct (z =? -1) eqn:E; bsimp; subst; [destruct flip; eexists _, _; split; reflexivity|].
    assert (Hv : (if (z / 256 =? 255) && (z mod 256 =? 255) then -1 else z mod 256 + z / 256 * 256) = z).
    { pose proof (Z.div_mod z 256). pose proof (Z.mod_pos_bound z 256). case_if; bsimp; lia. }
    destruct flip; eexists _, _; (split; [reflexivity|exact Hv]). }
  destruct H2 as (a & b & -> & H). unfold Get_int. cbn [app]. rewrite aget_here.
  rewrite (app_assoc pre [a] (b :: post)) || change (a :: b :: post) with ([a] ++ b :: post).
  rewrite app_assoc. replace (Z.of_nat (length pre) + 1) with (Z.of_nat (length (pre ++ [a]))) by (rewrite length_app; cbn; lia).
  rewrite aget_here. destruct flip; by rewrite H.
Qed.

Lemma read_bools_at bl : forall pre post done_ old, Forall (fun b => 0 <= b < 128) bl -> (length bl <= length old)%nat ->
  read_bools (pre ++ bl ++ post) (length bl) (Z.of_nat (length pre)) (Z.of_nat (length done_)) (done_ ++ old) =
  Some (Z.of_nat (length pre + length bl), done_ ++ bl ++ drop (length bl) old).
Proof.
  induction bl as [|b bl IH]; intros pre post done_ old Hb Hl; cbn [length read_bools app].
  { rewrite Nat.add_0_r, drop_0. done. }
  destruct old as [|x old]; [cbn in Hl; lia|]. apply Forall_cons_iff in Hb as [Hb0 Hb]. rewrite aget_here, aset_here.
  rewrite sint_small by lia.
  replace (pre ++ b :: bl ++ post) with ((pre ++ [b]) ++ bl ++ post) by (by rewrite <- app_assoc).
  replace (done_ ++ b :: old) with ((done_ ++ [b]) ++ old) by (by rewrite <- app_assoc).
  replace (Z.of_nat (length pre) + 1) with (Z.of_nat (length (pre ++ [b]))) by (rewrite length_app; cbn; lia).
  replace (Z.of_nat (length done_) + 1) with (Z.of_nat (length (done_ ++ [b]))) by (rewrite length_app; cbn; lia).
  rewrite IH by (done || cbn in Hl; lia). rewrite length_app. cbn [length drop]. rewrite <- !app_assoc. f_equal. f_equal. lia.
Qed.

Lemma read_numbers_at nl : forall pre post done_ old, Forall (fun n => -1 <= n < 65535) nl -> (length nl <= length old)%nat ->
  read_numbers flip (pre ++ concat (map (two flip) nl) ++ post) (length nl) (Z.of_nat (length pre)) (Z.of_nat (length done_)) (done_ ++ old) =
  Some (Z.of_nat (length pre + 2 * length nl), done_ ++ nl ++ drop (length nl) old).
Proof.
  induction nl as [|n nl IH]; intros pre post done_ old Hn Hl; cbn [length read_numbers app map concat].
  { rewrite Nat.mul_0_r, Nat.add_0_r, drop_0. done. }
  destruct old as [|x old]; [cbn in Hl; lia|]. apply Forall_cons_iff in Hn as [Hn0 Hn]. rewrite <- app_assoc, get_two, aset_here by done.
  rewrite (app_assoc pre). replace (done_ ++ n :: old) with ((done_ ++ [n]) ++ old) by (by rewrite <- app_assoc).
  replace (Z.of_nat (length pre) + 2) with (Z.of_nat (length (pre ++ two flip n))) by (rewrite length_app, length_two; lia).
  replace (Z.of_nat (length done_) + 1) with (Z.of_nat (length (done_ ++ [n]))) by (rewrite length_app; cbn; lia).
  rewrite IH by (done || cbn in Hl; lia). rewrite length_app, length_two. cbn [length drop]. rewrite <- !app_assoc. f_equal. f_equal. lia.
Qed.

Lemma string_at_here k s rest : Forall (fun c => c <> 0) s -> string_at (k ++ s ++ 0 :: rest) (Z.of_nat (length k)) = Some s.
Proof.
  intros Hs. unfold string_at. rewrite !length_app. replace (_ <=? _) with true by lia. rewrite Nat2Z.id, drop_app_length.
  rewrite span_all; [done| |by right]. apply forallb_forall. intros c Hc. rewrite List.Forall_forall in Hs. apply Hs in Hc. lia.
Qed.

Lemma read_strings_at sl : forall pre post k done_, Forall (fun o => match o with Some s => Forall (fun c => c <> 0) s | None => True end) sl ->
  Z.of_nat (length k + length (table sl)) < 65535 -> forall n, (length sl <= n)%nat ->
  read_strings flip (pre ++ concat (map (two flip) (offsets (length k) sl)) ++ post) (length sl) (k ++ table sl) (Z.of_nat (length pre))
    (Z.of_nat (length done_)) (done_ ++ replicate n None) = Some (done_ ++ sl ++ replicate (n - length sl) None).
Proof.
  induction sl as [|o sl IH]; intros pre post k done_ Hs Hk n Hn; cbn [length read_strings].
  { rewrite Nat.sub_0_r. done. }
  destruct n as [|n]; [cbn in Hn; lia|]. apply Forall_cons_iff in Hs as [Ho Hs].
  assert (Hstep : forall off k', (match o with Some s => off = Z.of_nat (length k) /\ k' = k ++ s ++ [0] | None => off = -1 /\ k' = k end) ->
    offsets (length k) (o :: sl) = off :: offsets (length k') sl /\ k ++ table (o :: sl) = k' ++ table sl /\ -1 <= off < 65535 /\
    (if negb (off =? -1) then match string_at (k ++ table (o :: sl)) off with Some s => Some (Some s) | None => None end else Some None) = Some o).
  { intros off k' H. destruct o as [s|]; destruct H as [-> ->].
    - cbn [offsets table map concat] in *. rewrite !length_app in *. cbn [length] in *. split_and!; [by rewrite <- Nat.add_assoc|by rewrite <- !app_assoc|lia|lia|].
      replace (negb _) with true by lia. rewrite <- app_assoc. cbn [app]. by rewrite string_at_here.
    - cbn. split_and!; try done; lia. }
  destruct (Hstep (match o with Some _ => Z.of_nat (length k) | None => -1 end) (match o with Some s => k ++ s ++ [0] | None => k end)) as (E1 & E2 & Hr & E3);
    [by destruct o|]. clear Hstep. revert E1 E2 Hr E3.
  generalize (match o with Some _ => Z.of_nat (length k) | None => -1 end) as off, (match o with Some s => k ++ s ++ [0] | None => k end) as k'.
  intros off k' E1 E2 Hr E3. rewrite E1. cbn [map concat replicate]. rewrite <- app_assoc, get_two, aget_here by done. rewrite E3, aset_here, E2.
  rewrite (app_assoc pre). replace (done_ ++ o :: replicate n None) with ((done_ ++ [o]) ++ replicate n None) by (by rewrite <- app_assoc).
  replace (Z.of_nat (length pre) + 2) with (Z.of_nat (length (pre ++ two flip off))) by (rewrite length_app, length_two; lia).
  replace (Z.of_nat (length done_) + 1) with (Z.of_nat (length (done_ ++ [o]))) by (rewrite length_app; cbn; lia).
  rewrite IH; [|done| |cbn in Hn; lia]. { by rewrite <- !app_assoc. }
  apply (f_equal length) in E2. rewrite !length_app in E2. lia.
Qed.
End Read.

Lemma get_at flip D pre z post k : D = pre ++ two flip z ++ post -> k = Z.of_nat (length pre) -> -1 <= z < 65535 -> Get_int flip D k = Some (z, k + 2).
Proof. intros -> -> Hz. by apply get_two. Qed.

(** The tables, after a header of an even length. *)
Lemma read_tables_at flip e H rest : entry_ok e -> Nat.even (length H) = true -> Z.of_nat (length (table (strs e))) < 10240 ->
  let pad := if Nat.odd (length (names e) + length (bools e)) then [0] else [] : bytes in
  read_tables flip (H ++ names e ++ bools e ++ pad ++ concat (map (two flip) (nums e)) ++ concat (map (two flip) (offsets 0 (strs e))) ++ table (strs e) ++ rest)
    (Z.of_nat (length (names e))) (Z.of_nat (length (bools e))) (Z.of_nat (length (nums e))) (Z.of_nat (length (strs e))) (Z.of_nat (length (table (strs e))))
    (Z.of_nat (length H)) no_info =
  Some (Info (bools e ++ replicate (128 - length (bools e)) 0) (nums e ++ replicate (128 - length (nums e)) 0) (strs e ++ replicate (1024 - length (strs e)) None)).
Proof.
  intros [[Hb Hb'] [Hn Hn'] [Hs Hs']] HH Hl pad. unfold read_tables. replace (_ || _) with false by lia. rewrite Z.max_r, !Nat2Z.id by lia. cbv zeta.
  set (tail1 := pad ++ _). rewrite (app_assoc H).
  replace (Z.of_nat (length H) + Z.of_nat (length (names e))) with (Z.of_nat (length (H ++ names e))) by (rewrite length_app; lia).
  pose proof (read_bools_at (bools e) (H ++ names e) tail1 [] (replicate 128 0) Hb) as RB. rewrite length_replicate in RB. cbn [length app] in RB. change (Z.of_nat 0) with 0 in RB.
  change (Booleans no_info) with (replicate 128 0). rewrite RB, drop_replicate by done. clear RB. unfold tail1. clear tail1.
  set (pre := (H ++ names e) ++ bools e ++ pad). set (tail2 := concat (map (two flip) (offsets 0 (strs e))) ++ _).
  assert (Hp : (if Z.of_nat (length (H ++ names e) + length (bools e)) mod 2 =? 1 then Z.of_nat (length (H ++ names e) + length (bools e)) + 1
    else Z.of_nat (length (H ++ names e) + length (bools e))) = Z.of_nat (length pre)).
  { unfold pre, pad. rewrite !length_app, <- Nat.add_assoc. apply Nat.even_spec in HH as [h Hh]. rewrite Hh. 
    destruct (Nat.odd _) eqn:Eo; cbn [length].
    - apply Nat.odd_spec in Eo as [q Hq]. rewrite Hq. replace (Z.of_nat (2 * h + (2 * q + 1))) with (1 + Z.of_nat (h + q) * 2) by lia.
      rewrite Z.mod_add by lia. change (1 mod 2 =? 1) with true. cbv iota. lia.
    - rewrite <- Nat.negb_even in Eo. apply negb_false_iff, Nat.even_spec in Eo as [q Hq]. rewrite Hq.
      replace (Z.of_nat (2 * h + 2 * q)) with (0 + Z.of_nat (h + q) * 2) by lia. rewrite Z.mod_add by lia. change (0 mod 2 =? 1) with false. cbv iota. lia. }
  rewrite Hp. clear Hp. replace ((H ++ names e) ++ bools e ++ pad ++ _) with (pre ++ concat (map (two flip) (nums e)) ++ tail2) by (unfold pre; by rewrite <- !app_assoc).
  pose proof (read_numbers_at flip (nums e) pre tail2 [] (replicate 128 0) Hn) as RN. rewrite length_replicate in RN. cbn [length app] in RN. change (Z.of_nat 0) with 0 in RN.
  change (Numbers no_info) with (replicate 128 0). rewrite RN, drop_replicate by done. clear RN.
  set (pre2 := pre ++ concat (map (two flip) (nums e))). rewrite (app_assoc pre). fold pre2. 
  replace (length pre + 2 * length (nums e))%nat with (length pre2) by (unfold pre2; rewrite length_app, length_twos; lia). unfold tail2.
  set (O := concat (map (two flip) (offsets 0 (strs e)))). assert (HO : length O = (2 * length (strs e))%nat) by (unfold O; by rewrite length_twos, length_offsets).
  rewrite (proj2 (Z.ltb_ge _ _)) by (rewrite !length_app, HO; lia).
  replace (drop _ (pre2 ++ O ++ table (strs e) ++ rest)) with (table (strs e) ++ rest).
  2:{ rewrite (app_assoc pre2). rewrite drop_app_length'; [done|]. rewrite length_app, HO. lia. }
  rewrite take_app_length. pose proof (read_strings_at flip (strs e) pre2 (table (strs e) ++ rest) [] [] Hs) as RS. cbn [length app] in RS. change (Z.of_nat 0) with 0 in RS.
  change (String_table no_info) with (replicate 1024 (@None bytes)). fold O in RS. rewrite RS by lia. done.
Qed.

(** The whole file, laid out for the reader. *)
Lemma read_info_compiled flip e rest : entry_ok e -> Z.of_nat (length (compiled flip e)) < 10240 ->
  read_info flip (compiled flip e ++ rest) 2 no_info =
  Some (Info (bools e ++ replicate (128 - length (bools e)) 0) (nums e ++ replicate (128 - length (nums e)) 0) (strs e ++ replicate (1024 - length (strs e)) None)).
Proof.
  intros He Hl. set (w := two flip).
  assert (Hlen : Z.of_nat (length (names e) + length (bools e) + 2 * length (nums e) + 2 * length (strs e) + length (table (strs e))) < 10240).
  { unfold compiled in Hl. rewrite !length_app, !length_twos, length_offsets in Hl. lia. }
  set (lens := fun x : nat => w (Z.of_nat x)). set (T := length (table (strs e))) in *. unfold compiled. cbn [map concat]. rewrite app_nil_r, <- !app_assoc.
  fold w. set (body := names e ++ _). change (w (Z.of_nat (length (names e)))) with (lens (length (names e))).
  change (w (Z.of_nat (length (bools e)))) with (lens (length (bools e))). change (w (Z.of_nat (length (nums e)))) with (lens (length (nums e))).
  change (w (Z.of_nat (length (strs e)))) with (lens (length (strs e))). change (w (Z.of_nat _)) with (lens T). set (D := w 282 ++ _).
  assert (Hw : forall x, length (lens x) = 2%nat) by (intros; apply length_two). assert (Hw0 : length (w 282) = 2%nat) by apply length_two.
  assert (G : forall pre x post k, D = pre ++ lens x ++ post -> k = Z.of_nat (length pre) -> Z.of_nat x < 10240 -> Get_int flip D k = Some (Z.of_nat x, k + 2)).
  { intros pre x post k HD Hk Hx. eapply get_at; [exact HD|exact Hk|lia]. }
  set (A := w 282). set (N := lens (length (names e))) in *. set (Bo := lens (length (bools e))) in *. set (Nu := lens (length (nums e))) in *. set (St := lens (length (strs e))) in *.
  unfold read_info. rewrite (G A (length (names e)) (Bo ++ Nu ++ St ++ lens T ++ body) 2) by (first [reflexivity|unfold A; rewrite ?Hw0; lia]).
  rewrite (G (A ++ N) (length (bools e)) (Nu ++ St ++ lens T ++ body)) by (rewrite <- ?app_assoc, ?length_app; unfold A, N; rewrite ?Hw0, ?Hw; first [reflexivity|lia]).
  rewrite (G (A ++ N ++ Bo) (length (nums e)) (St ++ lens T ++ body)) by (rewrite <- ?app_assoc, ?length_app; unfold A, N, Bo; rewrite ?Hw0, ?Hw; first [reflexivity|lia]).
  rewrite (G (A ++ N ++ Bo ++ Nu) (length (strs e)) (lens T ++ body)) by (rewrite <- ?app_assoc, ?length_app; unfold A, N, Bo, Nu; rewrite ?Hw0, ?Hw; first [reflexivity|lia]).
  rewrite (G (A ++ N ++ Bo ++ Nu ++ St) T body) by (rewrite <- ?app_assoc, ?length_app; unfold A, N, Bo, Nu, St; rewrite ?Hw0, ?Hw; first [reflexivity|lia]).
  pose proof (read_tables_at flip e (A ++ N ++ Bo ++ Nu ++ St ++ lens T) rest He) as RT. rewrite !length_app in RT. unfold A, N, Bo, Nu, St in *.
  rewrite Hw0, !Hw in RT. rewrite <- !app_assoc in RT. apply RT; [done|]. fold T. lia.
Qed.

Lemma magic flip e rest : Get_int flip (compiled flip e ++ rest) 0 = Some (282, 2).
Proof. unfold compiled. cbn [map concat]. rewrite <- !app_assoc. by apply (get_two flip [] 282). Qed.

Lemma magic_flipped e rest : Get_int false (compiled true e ++ rest) 0 = Some (6657, 2).
Proof. reflexivity. Qed.

(** C24. A compiled terminfo entry, in either byte order, is read back: the tables hold
    its booleans, numbers and strings, and what the entry does not mention is as the
    program starts.  What is left in the buffer after the file does not matter. *)
Theorem INFO_PARSE_reads flip junk e : entry_ok e -> Z.of_nat (length (compiled flip e)) < 10240 ->
  INFO_PARSE junk (compiled flip e) no_info =
  Some (Some (Info (bools e ++ replicate (128 - length (bools e)) 0) (nums e ++ replicate (128 - length (nums e)) 0)
                   (strs e ++ replicate (1024 - length (strs e)) None))).
Proof.
  intros He Hl. unfold INFO_PARSE. rewrite (proj2 (Z.leb_gt _ _)) by done. cbv zeta.
  rewrite take_app_ge by lia. set (rest := take _ _). destruct flip.
  - rewrite magic_flipped, magic. change (6657 =? 282) with false. change (282 =? 282) with true. cbv iota. by rewrite read_info_compiled.
  - rewrite magic. change (282 =? 282) with true. cbv iota. by rewrite read_info_compiled.
Qed.

Definition demo_entry : entry := Entry (bs "vt|demo" ++ [0]) [0; 1; 0] [80; -1; 24] [Some (bs "x"); None; Some [27; 91]].

Lemma INFO_PARSE_witness : INFO_PARSE [7; 7] (compiled true demo_entry) no_info =
  Some (Some (Info ([0; 1; 0] ++ replicate 125 0) ([80; -1; 24] ++ replicate 125 0) ([Some (bs "x"); None; Some [27; 91]] ++ replicate 1021 None))).
Proof.
  apply (INFO_PARSE_reads true [7; 7] demo_entry); [|vm_compute; reflexivity].
  constructor; (split; [repeat (apply List.Forall_cons || apply List.Forall_nil); cbn; try lia; repeat constructor; done|vm_compute; lia]).
Defined.

(** A capability cancelled in the file has the offset -2, which Get_int gives as 65534:
    a pointer far outside the string table. *)
Example cancelled_string_wild : Get_int false [254; 255] 0 = Some (65534, 2) /\ string_at (bs "x" ++ [0]) 65534 = None.
Proof. split; reflexivity. Qed.

End CurseInfo.
