(* ===== verification/CurseKeys.v ===== *)
(** * new_curse: keys

    The keyboard side of src/bsd_additions/ee/new_curse.c: the list of key sequences
    ([Key_Get], [keys_vt100]), and reading keys ([wgetch], [Get_key], [ungetch]), built
    without SYS5 and BSD_SELECT as mk/tool.d/ee.mk does.  What read(0, &temp, 1) gives is a
    list of events; KEY_TOS is the list of its elements, in_buff the characters pushed
    back, the next one first. *)

From S2P Require Import Prelude.
From stdpp Require Import base list numbers.
From Stdlib Require Import ZArith Lia ZifyBool.

Open Scope Z_scope.

Module CurseKeys.

(** ** The key sequences *)

(** struct KEYS: the string a key sends and its curses value; the length is that of the string. *)
Definition KEYS : Type := bytes * Z.

(** The keys of a VT100, with both forms of the escape sequences. *)
Definition vt100 : list KEYS :=
  [
   (27 :: bs "[A", 259); (27 :: bs "[C", 261); (27 :: bs "[D", 260); (27 :: bs "[6~", 338); (27 :: bs "[5~", 339);
   (27 :: bs "[[", 360); (27 :: bs "[@", 262); (27 :: bs "[2~", 331); (27 :: bs "[y", 264); (27 :: bs "[P", 265);
   (27 :: bs "[Q", 266); (27 :: bs "[R", 267); (27 :: bs "[S", 268); (27 :: bs "[t", 269); (27 :: bs "[u", 270);
   (27 :: bs "[v", 271); (27 :: bs "[l", 272); (27 :: bs "[w", 273); (27 :: bs "[x", 274); (27 :: bs "[10~", 264);
   (27 :: bs "[11~", 265); (27 :: bs "[12~", 266); (27 :: bs "[13~", 267); (27 :: bs "[14~", 268);
   (27 :: bs "[15~", 269); (27 :: bs "[17~", 270); (27 :: bs "[18~", 271); (27 :: bs "[19~", 272);
   (27 :: bs "[20~", 273); (27 :: bs "[21~", 274); (27 :: bs "[23~", 275); (27 :: bs "[24~", 276);
   (27 :: bs "[q", 348); (27 :: bs "[s", 349); (27 :: bs "[r", 350); (27 :: bs "[p", 351); (27 :: bs "[n", 352);
   (27 :: bs "OA", 259); (27 :: bs "OC", 261); (27 :: bs "OD", 260); (27 :: bs "OB", 258); (27 :: bs "O6~", 338);
   (27 :: bs "O5~", 339); (27 :: bs "O[", 360); (27 :: bs "O@", 262); (27 :: bs "O2~", 331); (27 :: bs "Oy", 264);
   (27 :: bs "OP", 265); (27 :: bs "OQ", 266); (27 :: bs "OR", 267); (27 :: bs "OS", 268); (27 :: bs "Ot", 269);
   (27 :: bs "Ou", 270); (27 :: bs "Ov", 271); (27 :: bs "Ol", 272); (27 :: bs "Ow", 273); (27 :: bs "Ox", 274);
   (27 :: bs "O10~", 264); (27 :: bs "O11~", 265); (27 :: bs "O12~", 266); (27 :: bs "O13~", 267);
   (27 :: bs "O14~", 268); (27 :: bs "O15~", 269); (27 :: bs "O17~", 270); (27 :: bs "O18~", 271);
   (27 :: bs "O19~", 272); (27 :: bs "O20~", 273); (27 :: bs "O21~", 274); (27 :: bs "O23~", 275);
   (27 :: bs "O24~", 276); (27 :: bs "Oq", 348); (27 :: bs "Os", 349); (27 :: bs "Or", 350); (27 :: bs "Op", 351);
   (27 :: bs "On", 352)
  ].

(** The curses value of each key capability, in the order of the terminfo strings. *)
Definition Key_vals : list Z :=
  [
   263; 342; 333; 341; 330; 328; 258; 332; 335; 334; 264; 265; 274; 266; 267; 268; 269; 270; 271; 272; 273; 262; 331;
   329; 260; 347; 338; 339; 261; 336; 337; 340; 259; 348; 349; 350; 351; 352; 353; 354; 355; 356; 357; 358; 359; 360;
   343; 361; 362; 363; 364; 365; 366; 367; 368; 369; 370; 346; 371; 372; 373; 374; 375; 376; 377; 407; 408; 378; 379;
   380; 381; 382; 383; 384; 385; 386; 387; 388; 389; 390; 391; 392; 393; 394; 395; 396; 397; 398; 399; 400; 401; 402;
   403; 404; 405; 406; 275; 276; 277; 278; 279; 280; 281; 282; 283; 284; 285; 286; 287; 288; 289; 290; 291; 292; 293;
   294; 295; 296; 297; 298; 299; 300; 301; 302; 303; 304; 305; 306; 307; 308; 309; 310; 311; 312; 313; 314; 315; 316;
   317; 318; 319; 320; 321; 322; 323; 324; 325; 326; 327
  ].

(** The places of the first and last of each run of key capabilities. *)
Definition kb__ : Z := 55.
Definition ke__ : Z := 88.
Definition K1__ : Z := 139.
Definition K5__ : Z := 143.
Definition kcbt__ : Z := 148.
Definition kbeg__ : Z := 158.
Definition kUND__ : Z := 214.
Definition kf11__ : Z := 216.
Definition kf63__ : Z := 268.

(** Some terminals send [ for O after the escape: the other form of a sequence. *)
Definition other_form (s : bytes) : list bytes :=
  match s with
  | c :: d :: s => if d =? 91 then [c :: 79 :: s] else if d =? 79 then [c :: 91 :: s] else []
  | _ => []
  end.

(** The capability looked at after the jumps over those that are no keys. *)
Definition next_key (key_def : Z) : Z :=
  if key_def =? ke__ then K1__
  else if key_def =? K5__ + 1 then kcbt__
  else if key_def =? kcbt__ + 1 then kbeg__
  else if key_def =? kUND__ + 1 then kf11__
  else key_def.

(** The elements of KEY_TOS; [None] is an access outside a table. *)
Fixpoint key_get_loop (fuel : nat) (String_table : list (option bytes)) (key_def Counter : Z) (keys : list KEYS) : option (list KEYS) :=
  if key_def <=? kf63__ then
    match fuel with
    | O => None
    | S fuel =>
        let key_def := next_key key_def in
        match aget String_table key_def with
        | None => None
        | Some None => key_get_loop fuel String_table (key_def + 1) (Counter + 1) keys
        | Some (Some s) =>
            match aget Key_vals Counter with
            | None => None
            | Some v => key_get_loop fuel String_table (key_def + 1) (Counter + 1) (keys ++ map (fun s => (s, v)) (s :: other_form s))
            end
        end
    end
  else Some keys.

Definition Key_Get (String_table : list (option bytes)) : option (list KEYS) := key_get_loop 256 String_table kb__ 0 [].

(** The list of [Key_Get], which must not be empty, and the VT100 keys. *)
Definition keys_vt100 (KEY_TOS : list KEYS) : option (list KEYS) :=
  match KEY_TOS with
  | [] => None
  | _ => Some (KEY_TOS ++ vt100)
  end.

(** Max_Key_len, as both functions leave it. *)
Definition Max_Key_len (KEY_TOS : list KEYS) : Z := fold_right (fun '(s, _) n => Z.max (Z.of_nat (length s)) n) 0 KEY_TOS.

(** ** Reading keys *)

(** What a call of read gives: a byte, the end of the input, or an error; [Alarm] is an
    error with the signal of the timer. *)
Inductive event := Byte (c : Z) | Eof | Again | Alarm.

Record keyboard := Keyboard {
  in_buff : bytes;
  input : list event;
  Time_Out : bool;
  Noblock : bool;
  interrupt_flag : bool
}.

#[export] Instance set_in_buff : Setter in_buff := fun h r => Keyboard (h (in_buff r)) (input r) (Time_Out r) (Noblock r) (interrupt_flag r).
#[export] Instance set_input : Setter input := fun h r => Keyboard (in_buff r) (h (input r)) (Time_Out r) (Noblock r) (interrupt_flag r).
#[export] Instance set_Time_Out : Setter Time_Out := fun h r => Keyboard (in_buff r) (input r) (h (Time_Out r)) (Noblock r) (interrupt_flag r).
#[export] Instance set_Noblock : Setter Noblock := fun h r => Keyboard (in_buff r) (input r) (Time_Out r) (h (Noblock r)) (interrupt_flag r).
#[export] Instance set_interrupt_flag : Setter interrupt_flag := fun h r => Keyboard (in_buff r) (input r) (Time_Out r) (Noblock r) (h (interrupt_flag r)).

(** in_buff has 100 places; one more is dropped. *)
Definition ungetch (c : Z) (k : keyboard) : keyboard :=
  if (length (in_buff k) <? 100)%nat then k <| in_buff := c :: in_buff k |> else k.

Section Keys.
Context (KEY_TOS : list KEYS).
(** Parity and Num_bits: whether the eighth bit is stripped. *)
Context (strip : bool).
(** What the variable temp of wgetch holds before read. *)
Context (junk : Z).

(** A char as a signed value. *)
Definition next_char (k : keyboard) : option (Z * keyboard) :=
  match in_buff k with
  | c :: b => Some (sint 8 c, k <| in_buff := b |>)
  | [] =>
      match input k with
      | [] => None
      | Byte c :: i => Some (sint 8 c, k <| input := i |>)
      | Eof :: i => Some (-1, k <| input := i |>)
      | Again :: i => Some (sint 8 junk, k <| input := i |>)
      | Alarm :: i => Some (sint 8 junk, k <| input := i |> <| Time_Out := true |>)
      end
  end.

(** strcmp of the sequence read with the keys. *)
Definition find_key (string : bytes) : option Z :=
  let s := (span (fun c => negb (c =? 0)) string).1 in
  match List.find (fun '(w, _) => bool_decide (w = s)) KEY_TOS with
  | Some (_, v) => Some v
  | None => None
  end.

(** The characters after the first pushed back, the last one first. *)
Definition unget_all (string : bytes) (k : keyboard) : keyboard :=
  foldr (fun c k => if c =? 255 then k else ungetch c k) k (tail string).

(** The rest of a key sequence, read with [get]: the value of the key as soon as the
    characters are those of one, or the first character, the others pushed back.
    [None]: the input is used up, or the sequence is longer than its buffer. *)
Fixpoint get_key_loop (get : keyboard -> option (Z * keyboard)) (fuel : nat) (first_char : Z) (string : bytes) (k : keyboard) : option (Z * keyboard) :=
  if (Z.of_nat (length string) <? Max_Key_len KEY_TOS) && negb (Time_Out k) then
    match fuel with
    | O => None
    | S fuel =>
        match get k with
        | None => None
        | Some (in_char, k) =>
            if negb (in_char =? -1) then
              if Z.of_nat (length string) <? 127 then
                let string := string ++ [u8 in_char] in
                match find_key string with
                | Some v => Some (v, k <| Noblock := false |>)
                | None => get_key_loop get fuel first_char string k
                end
              else None
            else get_key_loop get fuel first_char string k
        end
    end
  else Some (first_char, unget_all string (k <| Noblock := false |>)).

Definition Get_key (get : keyboard -> option (Z * keyboard)) (fuel : nat) (first_char : Z) (k : keyboard) : option (Z * keyboard) :=
  get_key_loop get fuel first_char [first_char] (k <| Time_Out := false |> <| Noblock := true |>).

(** Get_key calls wgetch, and wgetch itself after an interrupt; each call takes a character
    or an event, so the number of these is enough fuel. *)
Fixpoint wgetch (fuel : nat) (k : keyboard) : option (Z * keyboard) :=
  match fuel with
  | O => None
  | S fuel =>
      let k := if Noblock k then k <| Time_Out := false |> else k in
      match next_char k with
      | None => None
      | Some (in_value, k) =>
          let in_value := if Noblock k && Time_Out k then -1 else in_value in
          match
            (if negb (in_value =? -1) then Some (let c := Z.land in_value 255 in if strip then Z.land c 127 else c, k)
             else if interrupt_flag k then wgetch fuel (k <| interrupt_flag := false |>)
             else Some (in_value, k))
          with
          | None => None
          | Some (in_value, k) =>
              if (in_value =? 27) || (in_value =? 31) then Get_key (wgetch fuel) fuel in_value k
              else Some (in_value, k)
          end
      end
  end.
End Keys.

(** ** Properties *)

Section Read.
Context (KEY_TOS : list KEYS) (junk : Z).
Abbreviation get := (wgetch KEY_TOS false junk).
Abbreviation found := (find_key KEY_TOS).

(** A byte that starts no key sequence. *)
Definition plain (c : Z) : Prop := 0 < c < 255 /\ c <> 27 /\ c <> 31.

Lemma plain_all w : forallb (fun c => (0 <? c) && (c <? 255) && negb (c =? 27) && negb (c =? 31)) w = true -> Forall plain w.
Proof. rewrite forallb_forall, List.Forall_forall. intros H c Hc. apply H in Hc. unfold plain. lia. Qed.

Definition at_keys (b : bytes) (i : list event) (t n : bool) : keyboard := Keyboard b i t n false.

Lemma byte_char c : 0 <= c < 255 -> (sint 8 c =? -1) = false /\ Z.land (sint 8 c) 255 = c.
Proof.
  intros Hc. unfold sint. change (2 ^ 8) with 256. change (2 ^ (8 - 1)) with 128. change 255 with (Z.ones 8).
  rewrite Z.land_ones by lia. change (2 ^ 8) with 256. rewrite (Z.mod_small c) by lia. destruct (c <? 128) eqn:E; bsimp.
  - split; [lia|]. by rewrite Z.mod_small by lia.
  - split; [lia|]. replace (c - 256) with (c + (-1) * 256) by lia. rewrite Z.mod_add by lia. by rewrite Z.mod_small by lia.
Qed.

(** A plain byte is read as it is, from the buffer or the input. *)
Lemma get_plain fuel c i t n : plain c -> exists t', get (S fuel) (at_keys [] (Byte c :: i) t n) = Some (c, at_keys [] i t' n) /\ (n = true -> t' = false).
Proof.
  intros (Hc & H27 & H31). destruct (byte_char c) as [H1 H2]; [lia|]. unfold at_keys. cbn [wgetch].
  destruct n; cbn -[sint Z.land Get_key]; rewrite H1, H2; cbn -[Get_key]; replace ((c =? 27) || (c =? 31)) with false by lia; eexists; (split; [reflexivity|done]).
Qed.

Lemma get_pushed fuel c b i t n : plain c -> exists t', get (S fuel) (at_keys (c :: b) i t n) = Some (c, at_keys b i t' n).
Proof.
  intros (Hc & H27 & H31). destruct (byte_char c) as [H1 H2]; [lia|]. unfold at_keys. cbn [wgetch].
  destruct n; cbn -[sint Z.land Get_key]; rewrite H1, H2; cbn -[Get_key]; replace ((c =? 27) || (c =? 31)) with false by lia; eauto.
Qed.

(** Reading a sequence of plain bytes none of whose starts is a key. *)
Lemma read_on w : forall fuel f first string i, Forall plain w ->
  (forall k, (k < length w)%nat -> found (string ++ take (S k) w) = None) ->
  Z.of_nat (length string + length w) <= Max_Key_len KEY_TOS -> Z.of_nat (length string + length w) <= 127 ->
  get_key_loop KEY_TOS (get (S fuel)) (length w + f) first string (at_keys [] (map Byte w ++ i) false true) =
  get_key_loop KEY_TOS (get (S fuel)) f first (string ++ w) (at_keys [] i false true).
Proof.
  induction w as [|c w IH]; intros fuel f first string i Hw Hn Hm Hl; cbn [length Nat.add map app].
  { by rewrite app_nil_r. }
  apply Forall_cons_iff in Hw as [Hc Hw]. cbn [get_key_loop length] in *.
  replace (_ && _) with true by (cbn [at_keys Time_Out]; lia). destruct (get_plain fuel c (map Byte w ++ i) false true Hc) as (t' & E & Ht).
  rewrite E. rewrite (Ht eq_refl). replace (negb _) with true by (destruct Hc; lia). replace (_ <? 127) with true by lia.
  replace (u8 c) with c by (unfold u8; rewrite Z.mod_small by (destruct Hc; lia); done). pose proof (Hn 0%nat ltac:(lia)) as Hn0. cbn [take] in Hn0. rewrite take_0 in Hn0. rewrite Hn0.
  specialize (IH fuel f first (string ++ [c]) i Hw). rewrite IH; [by rewrite <- app_assoc| | |].
  - intros k Hk. rewrite <- app_assoc. apply (Hn (S k)). lia.
  - rewrite length_app. cbn. lia.
  - rewrite length_app. cbn. lia.
Qed.

Lemma get_esc fuel i : get (S fuel) (at_keys [] (Byte 27 :: i) false false) = get_key_loop KEY_TOS (get fuel) fuel 27 [27] (at_keys [] i false true).
Proof. reflexivity. Qed.

Lemma unget_plain w b i t : Forall plain w -> (length b + length w <= 100)%nat -> unget_all (27 :: w) (at_keys b i t false) = at_keys (w ++ b) i t false.
Proof.
  unfold unget_all. cbn [tail]. revert b. induction w as [|c w IH]; intros b Hw Hl; [done|]. apply Forall_cons_iff in Hw as [Hc Hw]. cbn [foldr length] in *.
  rewrite IH by (done || lia). rewrite (proj2 (Z.eqb_neq c 255)) by (destruct Hc; lia). unfold ungetch. cbn [at_keys in_buff].
  rewrite (proj2 (Nat.ltb_lt _ _)) by (rewrite length_app; lia). done.
Qed.

(** The keys [w] are read next, one by one. *)
Inductive reads (fuel : nat) : bytes -> keyboard -> keyboard -> Prop :=
| reads_nil k : reads fuel [] k k
| reads_key c w k k1 k2 : get fuel k = Some (c, k1) -> reads fuel w k1 k2 -> reads fuel (c :: w) k k2.

Lemma get_pushed_all w : forall fuel b i t n, Forall plain w -> exists t', reads (S fuel) w (at_keys (w ++ b) i t n) (at_keys b i t' n).
Proof.
  induction w as [|c w IH]; intros fuel b i t n Hw; [exists t; constructor|]. apply Forall_cons_iff in Hw as [Hc Hw].
  destruct (get_pushed fuel c (w ++ b) i t n Hc) as (t1 & E). destruct (IH fuel b i t1 n Hw) as (t2 & H). exists t2. by econstructor.
Qed.

Lemma found_max s v : found s = Some v -> (forallb (fun c => negb (c =? 0)) s = true) -> Z.of_nat (length s) <= Max_Key_len KEY_TOS.
Proof.
  unfold find_key. intros H Hs. rewrite span_all_nil in H by done. cbn [fst] in H. induction KEY_TOS as [|[w x] l IH]; [done|]. cbn in *.
  case_bool_decide; [subst; lia|]. specialize (IH H). unfold Max_Key_len in IH. lia.
Qed.

Lemma plain_nonzero w : Forall plain w -> forallb (fun c => negb (c =? 0)) (27 :: w) = true.
Proof. intros Hw. cbn. apply forallb_forall. intros c Hc. rewrite List.Forall_forall in Hw. destruct (Hw c Hc). lia. Qed.

Lemma recognise w v i : Forall plain w -> w <> [] -> found (27 :: w) = Some v -> (length w <= 126)%nat ->
  (forall k, (S k < length w)%nat -> found (27 :: take (S k) w) = None) ->
  get (3 + length w) (at_keys [] (map Byte (27 :: w) ++ i) false false) = Some (v, at_keys [] i false false).
Proof.
  intros Hw Hne Hf Hl Hp. cbn [map app Nat.add]. rewrite get_esc. destruct (exists_last Hne) as (w0 & c & ->).
  pose proof (found_max _ _ Hf (plain_nonzero _ Hw)) as Hmax. apply Forall_app in Hw as [Hw0 Hc]. apply Forall_cons_iff in Hc as [Hc _].
  cbn [length] in *. rewrite length_app in *. cbn [length] in *. rewrite map_app, <- app_assoc.
  replace (S (S (length w0 + 1)))%nat with (length w0 + 3)%nat at 2 by lia. rewrite read_on; [|done| |cbn [length]; lia|cbn [length]; lia].
  2:{ intros k Hk. cbn [app]. replace (take (S k) w0) with (take (S k) (w0 ++ [c])) by (rewrite take_app_le by lia; done). apply Hp. lia. }
  cbn [map app get_key_loop length]. replace (_ && _) with true by (cbn [at_keys Time_Out]; lia).
  destruct (get_plain (S (length w0 + 1)) c i false true Hc) as (t' & E & Ht). rewrite E, (Ht eq_refl).
  replace (negb _) with true by (destruct Hc; lia). replace (_ <? 127) with true by lia.
  replace (u8 c) with c by (unfold u8; rewrite Z.mod_small by (destruct Hc; lia); done). cbn [app] in *. rewrite Hf. done.
Qed.

Lemma give_back w i : Forall plain w -> Z.of_nat (S (length w)) = Max_Key_len KEY_TOS -> (length w <= 100)%nat ->
  (forall k, (k < length w)%nat -> found (27 :: take (S k) w) = None) ->
  get (3 + length w) (at_keys [] (map Byte (27 :: w) ++ i) false false) = Some (27, at_keys w i false false).
Proof.
  intros Hw Hm Hl Hp. cbn [map app Nat.add]. rewrite get_esc. replace (S (S (length w)))%nat with (length w + 2)%nat at 2 by lia.
  rewrite read_on; [|done|by apply Hp|cbn [length]; lia|cbn [length]; lia]. cbn [get_key_loop Nat.add app length at_keys Time_Out].
  replace (_ && _) with false by lia. change (set_field Noblock _ _) with (at_keys [] i false false). rewrite unget_plain by (done || cbn; lia). by rewrite app_nil_r.
Qed.
End Read.

(** C26. A key of the list is read as its curses value: an escape and the plain bytes
    after it, all of them available, when no shorter start of the sequence is a key too. *)
Theorem key_recognised KEY_TOS junk w v i :
  Forall plain w -> w <> [] -> find_key KEY_TOS (27 :: w) = Some v -> (length w <= 126)%nat ->
  (forall k, (S k < length w)%nat -> find_key KEY_TOS (27 :: take (S k) w) = None) ->
  wgetch KEY_TOS false junk (3 + length w) (at_keys [] (map Byte (27 :: w) ++ i) false false) = Some (v, at_keys [] i false false).
Proof. apply recognise. Qed.

(** A sequence that no key starts with gives the escape, and then its bytes again, none
    lost and in their order. *)
Theorem unknown_sequence_given_back KEY_TOS junk w i fuel :
  Forall plain w -> Z.of_nat (S (length w)) = Max_Key_len KEY_TOS -> (length w <= 100)%nat ->
  (forall k, (k < length w)%nat -> find_key KEY_TOS (27 :: take (S k) w) = None) ->
  exists k1 t, wgetch KEY_TOS false junk (3 + length w) (at_keys [] (map Byte (27 :: w) ++ i) false false) = Some (27, k1) /\
    reads KEY_TOS junk (S fuel) w k1 (at_keys [] i t false).
Proof.
  intros Hw Hm Hl Hp. rewrite (give_back KEY_TOS junk w i Hw Hm Hl Hp). destruct (get_pushed_all KEY_TOS junk w fuel [] i false false Hw) as (t & H).
  rewrite app_nil_r in H. by exists (at_keys w i false false), t.
Qed.

(** Keys as ee has them on a terminal that describes its backspace key only. *)
Definition demo_keys : list KEYS := ([8], 263) :: vt100.

Lemma key_recognised_witness : wgetch demo_keys false 0 6 (at_keys [] (map Byte (27 :: bs "[5~") ++ [Byte 97]) false false) = Some (339, at_keys [] [Byte 97] false false).
Proof.
  apply (key_recognised demo_keys 0 (bs "[5~") 339 [Byte 97]); [by apply plain_all|done|reflexivity|cbn; lia|].
  intros [|[|k]] Hk; [reflexivity|reflexivity|cbn in Hk; lia].
Defined.

Lemma unknown_sequence_witness : exists k1 t, wgetch demo_keys false 0 7 (at_keys [] (map Byte (27 :: bs "abcd") ++ []) false false) = Some (27, k1) /\
  reads demo_keys 0 1 (bs "abcd") k1 (at_keys [] [] t false).
Proof.
  apply (unknown_sequence_given_back demo_keys 0 (bs "abcd") [] 0); [by apply plain_all|reflexivity|cbn; lia|].
  intros k Hk. cbn in Hk. do 4 (destruct k; [reflexivity|]). lia.
Defined.

(** The table of VT100 keys lacks the cursor-down sequence in the form with a bracket. *)
Example no_key_down : find_key demo_keys (27 :: bs "[A") = Some 259 /\ find_key demo_keys (27 :: bs "[B") = None /\ find_key demo_keys (27 :: bs "OB") = Some 258.
Proof. by vm_compute. Qed.

(** A read that fails, as it does at once when no byte has come after an escape, is taken
    for a byte: the contents of an uninitialised variable, pushed back as a key. *)
Example escape_alone_reads_junk : wgetch demo_keys false 120 9 (at_keys [] (Byte 27 :: replicate 4 Again) false false) = Some (27, at_keys (bs "xxxx") [] false false).
Proof. reflexivity. Qed.

(** ** The keys of a terminal description *)

(** The capabilities looked at. *)
Fixpoint caps_from (fuel : nat) (key_def : Z) : list Z :=
  if key_def <=? kf63__ then
    match fuel with
    | O => []
    | S fuel => next_key key_def :: caps_from fuel (next_key key_def + 1)
    end
  else [].
Definition key_caps : list Z := seqZ 55 33 ++ seqZ 139 5 ++ [148] ++ seqZ 158 57 ++ seqZ 216 53.

Lemma key_caps_all : caps_from 256 kb__ = key_caps /\ length key_caps = length Key_vals.
Proof. by vm_compute. Qed.

(** The elements a capability gives. *)
Definition cap_keys (st : list (option bytes)) (cv : Z * Z) : list KEYS :=
  match aget st cv.1 with
  | Some (Some s) => map (fun s => (s, cv.2)) (s :: other_form s)
  | _ => []
  end.

Lemma key_get_loop_caps st fuel : forall kd c keys, (length (caps_from fuel kd) < fuel)%nat -> (length (caps_from fuel kd) + c <= length Key_vals)%nat ->
  Forall (fun k => 0 <= k < Z.of_nat (length st)) (caps_from fuel kd) ->
  key_get_loop fuel st kd (Z.of_nat c) keys = Some (keys ++ concat (map (cap_keys st) (combine (caps_from fuel kd) (drop c Key_vals)))).
Proof.
  induction fuel as [|fuel IH]; intros kd c keys Hf Hc Hr; [lia|]. cbn [key_get_loop caps_from] in *. destruct (kd <=? kf63__); [|by rewrite app_nil_r].
  cbn [length] in *. apply Forall_cons_iff in Hr as [Hk Hr]. cbv zeta. destruct (aget_in st (next_key kd) Hk) as (o & Eo). rewrite Eo.
  destruct (aget_in Key_vals (Z.of_nat c)) as (v & Ev); [lia|]. assert (Hd : drop c Key_vals = v :: drop (S c) Key_vals).
  { apply drop_S. unfold aget in Ev. replace (_ <? 0) with false in Ev by lia. by rewrite Nat2Z.id in Ev. }
  rewrite Hd. cbn [combine map concat]. unfold cap_keys at 1. cbn [fst snd]. rewrite Eo.
  replace (Z.of_nat c + 1) with (Z.of_nat (S c)) by lia. destruct o as [s|].
  - rewrite Ev, IH by (done || lia). by rewrite <- app_assoc.
  - by rewrite IH by (done || lia).
Qed.

(** Key_Get makes the list of the key sequences of a terminal description: each of the
    149 key capabilities that is there, in order and with the curses value of its place,
    in both forms of the escape sequence; and the function keys have the values KEY_F(0)
    to KEY_F(63). *)
Theorem Key_Get_lists String_table : length String_table = 1024%nat ->
  Key_Get String_table = Some (concat (map (cap_keys String_table) (combine key_caps Key_vals))) /\
  (forall n, 0 <= n <= 63 -> In (if n =? 10 then 67 else if n <=? 1 then 65 + n else if n <=? 9 then 66 + n else 205 + n, 264 + n) (combine key_caps Key_vals)).
Proof.
  intros Hl. destruct key_caps_all as [Hk Hlen]. split.
  - unfold Key_Get. change 0 with (Z.of_nat 0). rewrite key_get_loop_caps, Hk; [done|rewrite Hk; vm_compute; lia|rewrite Hk, Hlen; lia|].
    rewrite Hk, Hl. apply List.Forall_forall. intros k Hin.
    assert (Hb : forallb (fun k => (0 <=? k) && (k <? 1024)) key_caps = true) by (by vm_compute). rewrite forallb_forall in Hb. apply Hb in Hin. lia.
  - intros n Hn. assert (Hb : forallb (fun n => existsb (fun '(a, b) => (a =? (if n =? 10 then 67 else if n <=? 1 then 65 + n else if n <=? 9 then 66 + n else 205 + n)) && (b =? 264 + n))
      (combine key_caps Key_vals)) (seqZ 0 64) = true) by (by vm_compute). rewrite forallb_forall in Hb. specialize (Hb n).
    rewrite existsb_exists in Hb. destruct Hb as ([a b] & Hin & Hab); [apply list_elem_of_In, elem_of_seqZ; lia|]. bsimp. by subst.
Qed.

Lemma Key_Get_witness : Key_Get (<[55%nat := Some [8]]> (<[87%nat := Some (27 :: bs "[A")]> (replicate 1024 None))) =
    Some [([8], 263); (27 :: bs "[A", 259); (27 :: bs "OA", 259)].
Proof.
  rewrite (proj1 (Key_Get_lists (<[55%nat := Some [8]]> (<[87%nat := Some (27 :: bs "[A")]> (replicate 1024 None))) ltac:(by rewrite !length_insert, length_replicate))).
  by vm_compute.
Defined.

End CurseKeys.
