(* ===== verification/CurseWindow.v ===== *)
(** * new_curse: windows

    The windows of src/bsd_additions/ee/new_curse.c and the operations on them.  A line of
    a window is a node of a heap with its two blocks, row and attributes, of one byte more
    than the window has columns; a char is its byte.  The windows are allocated in a table
    of their own.  WINDOW has a field LC that nothing uses, left out here. *)

From S2P Require Import Prelude Monad CurseInfo.
From stdpp Require Import base list gmap numbers.
From Stdlib Require Import ZArith Lia ZifyBool SpecFloat.

Open Scope Z_scope.

Module CurseWindow.

Import CurseInfo.

(** struct _line *)
Record sline := Sline {
  next_screen : option nat;
  prev_screen : option nat;
  row : bytes;
  attributes : bytes;
  last_char : Z;
  changed : bool;
  scroll : Z;
  number : Z
}.

#[export] Instance set_next_screen : Setter next_screen := fun h r => Sline (h (next_screen r)) (prev_screen r) (row r) (attributes r) (last_char r) (changed r) (scroll r) (number r).
#[export] Instance set_prev_screen : Setter prev_screen := fun h r => Sline (next_screen r) (h (prev_screen r)) (row r) (attributes r) (last_char r) (changed r) (scroll r) (number r).
#[export] Instance set_row : Setter row := fun h r => Sline (next_screen r) (prev_screen r) (h (row r)) (attributes r) (last_char r) (changed r) (scroll r) (number r).
#[export] Instance set_attributes : Setter attributes := fun h r => Sline (next_screen r) (prev_screen r) (row r) (h (attributes r)) (last_char r) (changed r) (scroll r) (number r).
#[export] Instance set_last_char : Setter last_char := fun h r => Sline (next_screen r) (prev_screen r) (row r) (attributes r) (h (last_char r)) (changed r) (scroll r) (number r).
#[export] Instance set_changed : Setter changed := fun h r => Sline (next_screen r) (prev_screen r) (row r) (attributes r) (last_char r) (h (changed r)) (scroll r) (number r).
#[export] Instance set_scroll : Setter scroll := fun h r => Sline (next_screen r) (prev_screen r) (row r) (attributes r) (last_char r) (changed r) (h (scroll r)) (number r).
#[export] Instance set_number : Setter number := fun h r => Sline (next_screen r) (prev_screen r) (row r) (attributes r) (last_char r) (changed r) (scroll r) (h (number r)).

(** struct WIND *)
Record WINDOW := Window {
  SR : Z;
  SC : Z;
  LX : Z;
  LY : Z;
  Attrib : Z;
  Num_lines : Z;
  Num_cols : Z;
  scroll_up : Z;
  scroll_down : Z;
  SCROLL_CLEAR : Z;
  first_line : option nat;
  line_array : list (option nat)  (* LINES places *)
}.

#[export] Instance set_SR : Setter SR := fun h r => Window (h (SR r)) (SC r) (LX r) (LY r) (Attrib r) (Num_lines r) (Num_cols r) (scroll_up r) (scroll_down r) (SCROLL_CLEAR r) (first_line r) (line_array r).
#[export] Instance set_SC : Setter SC := fun h r => Window (SR r) (h (SC r)) (LX r) (LY r) (Attrib r) (Num_lines r) (Num_cols r) (scroll_up r) (scroll_down r) (SCROLL_CLEAR r) (first_line r) (line_array r).
#[export] Instance set_LX : Setter LX := fun h r => Window (SR r) (SC r) (h (LX r)) (LY r) (Attrib r) (Num_lines r) (Num_cols r) (scroll_up r) (scroll_down r) (SCROLL_CLEAR r) (first_line r) (line_array r).
#[export] Instance set_LY : Setter LY := fun h r => Window (SR r) (SC r) (LX r) (h (LY r)) (Attrib r) (Num_lines r) (Num_cols r) (scroll_up r) (scroll_down r) (SCROLL_CLEAR r) (first_line r) (line_array r).
#[export] Instance set_Attrib : Setter Attrib := fun h r => Window (SR r) (SC r) (LX r) (LY r) (h (Attrib r)) (Num_lines r) (Num_cols r) (scroll_up r) (scroll_down r) (SCROLL_CLEAR r) (first_line r) (line_array r).
#[export] Instance set_Num_lines : Setter Num_lines := fun h r => Window (SR r) (SC r) (LX r) (LY r) (Attrib r) (h (Num_lines r)) (Num_cols r) (scroll_up r) (scroll_down r) (SCROLL_CLEAR r) (first_line r) (line_array r).
#[export] Instance set_Num_cols : Setter Num_cols := fun h r => Window (SR r) (SC r) (LX r) (LY r) (Attrib r) (Num_lines r) (h (Num_cols r)) (scroll_up r) (scroll_down r) (SCROLL_CLEAR r) (first_line r) (line_array r).
#[export] Instance set_scroll_up : Setter scroll_up := fun h r => Window (SR r) (SC r) (LX r) (LY r) (Attrib r) (Num_lines r) (Num_cols r) (h (scroll_up r)) (scroll_down r) (SCROLL_CLEAR r) (first_line r) (line_array r).
#[export] Instance set_scroll_down : Setter scroll_down := fun h r => Window (SR r) (SC r) (LX r) (LY r) (Attrib r) (Num_lines r) (Num_cols r) (scroll_up r) (h (scroll_down r)) (SCROLL_CLEAR r) (first_line r) (line_array r).
#[export] Instance set_SCROLL_CLEAR : Setter SCROLL_CLEAR := fun h r => Window (SR r) (SC r) (LX r) (LY r) (Attrib r) (Num_lines r) (Num_cols r) (scroll_up r) (scroll_down r) (h (SCROLL_CLEAR r)) (first_line r) (line_array r).
#[export] Instance set_first_line : Setter first_line := fun h r => Window (SR r) (SC r) (LX r) (LY r) (Attrib r) (Num_lines r) (Num_cols r) (scroll_up r) (scroll_down r) (SCROLL_CLEAR r) (h (first_line r)) (line_array r).
#[export] Instance set_line_array : Setter line_array := fun h r => Window (SR r) (SC r) (LX r) (LY r) (Attrib r) (Num_lines r) (Num_cols r) (scroll_up r) (scroll_down r) (SCROLL_CLEAR r) (first_line r) (h (line_array r)).

(** The globals *)
Record curse := Curse {
  lines : gmap nat sline;  (* the struct _line allocated *)
  windows : gmap nat WINDOW;  (* the windows allocated *)
  fresh : nat;  (* the next address malloc gives *)
  LINES : Z;
  COLS : Z;
  tables : info;  (* Booleans, Numbers, String_table *)
  variable : list Z;  (* the variables of terminfo strings *)
  chars_per_millisecond : spec_float;
  curscr : nat;
  virtual_scr : nat;
  last_window_refreshed : option nat;
  virtual_lines : list bool;
  STAND : bool;
  Curr_x : Z;
  Curr_y : Z;
  Repaint_screen : bool;
  nc_attributes : Z;
  attributes_set : list Z;
  nc_scrolling_ability : bool;
  output : bytes  (* what has been written to the terminal *)
}.

#[export] Instance set_lines : Setter lines := fun h r => Curse (h (lines r)) (windows r) (fresh r) (LINES r) (COLS r) (tables r) (variable r) (chars_per_millisecond r) (curscr r) (virtual_scr r) (last_window_refreshed r) (virtual_lines r) (STAND r) (Curr_x r) (Curr_y r) (Repaint_screen r) (nc_attributes r) (attributes_set r) (nc_scrolling_ability r) (output r).
#[export] Instance set_windows : Setter windows := fun h r => Curse (lines r) (h (windows r)) (fresh r) (LINES r) (COLS r) (tables r) (variable r) (chars_per_millisecond r) (curscr r) (virtual_scr r) (last_window_refreshed r) (virtual_lines r) (STAND r) (Curr_x r) (Curr_y r) (Repaint_screen r) (nc_attributes r) (attributes_set r) (nc_scrolling_ability r) (output r).
#[export] Instance set_fresh : Setter fresh := fun h r => Curse (lines r) (windows r) (h (fresh r)) (LINES r) (COLS r) (tables r) (variable r) (chars_per_millisecond r) (curscr r) (virtual_scr r) (last_window_refreshed r) (virtual_lines r) (STAND r) (Curr_x r) (Curr_y r) (Repaint_screen r) (nc_attributes r) (attributes_set r) (nc_scrolling_ability r) (output r).
#[export] Instance set_LINES : Setter LINES := fun h r => Curse (lines r) (windows r) (fresh r) (h (LINES r)) (COLS r) (tables r) (variable r) (chars_per_millisecond r) (curscr r) (virtual_scr r) (last_window_refreshed r) (virtual_lines r) (STAND r) (Curr_x r) (Curr_y r) (Repaint_screen r) (nc_attributes r) (attributes_set r) (nc_scrolling_ability r) (output r).
#[export] Instance set_COLS : Setter COLS := fun h r => Curse (lines r) (windows r) (fresh r) (LINES r) (h (COLS r)) (tables r) (variable r) (chars_per_millisecond r) (curscr r) (virtual_scr r) (last_window_refreshed r) (virtual_lines r) (STAND r) (Curr_x r) (Curr_y r) (Repaint_screen r) (nc_attributes r) (attributes_set r) (nc_scrolling_ability r) (output r).
#[export] Instance set_tables : Setter tables := fun h r => Curse (lines r) (windows r) (fresh r) (LINES r) (COLS r) (h (tables r)) (variable r) (chars_per_millisecond r) (curscr r) (virtual_scr r) (last_window_refreshed r) (virtual_lines r) (STAND r) (Curr_x r) (Curr_y r) (Repaint_screen r) (nc_attributes r) (attributes_set r) (nc_scrolling_ability r) (output r).
#[export] Instance set_variable : Setter variable := fun h r => Curse (lines r) (windows r) (fresh r) (LINES r) (COLS r) (tables r) (h (variable r)) (chars_per_millisecond r) (curscr r) (virtual_scr r) (last_window_refreshed r) (virtual_lines r) (STAND r) (Curr_x r) (Curr_y r) (Repaint_screen r) (nc_attributes r) (attributes_set r) (nc_scrolling_ability r) (output r).
#[export] Instance set_chars_per_millisecond : Setter chars_per_millisecond := fun h r => Curse (lines r) (windows r) (fresh r) (LINES r) (COLS r) (tables r) (variable r) (h (chars_per_millisecond r)) (curscr r) (virtual_scr r) (last_window_refreshed r) (virtual_lines r) (STAND r) (Curr_x r) (Curr_y r) (Repaint_screen r) (nc_attributes r) (attributes_set r) (nc_scrolling_ability r) (output r).
#[export] Instance set_curscr : Setter curscr := fun h r => Curse (lines r) (windows r) (fresh r) (LINES r) (COLS r) (tables r) (variable r) (chars_per_millisecond r) (h (curscr r)) (virtual_scr r) (last_window_refreshed r) (virtual_lines r) (STAND r) (Curr_x r) (Curr_y r) (Repaint_screen r) (nc_attributes r) (attributes_set r) (nc_scrolling_ability r) (output r).
#[export] Instance set_virtual_scr : Setter virtual_scr := fun h r => Curse (lines r) (windows r) (fresh r) (LINES r) (COLS r) (tables r) (variable r) (chars_per_millisecond r) (curscr r) (h (virtual_scr r)) (last_window_refreshed r) (virtual_lines r) (STAND r) (Curr_x r) (Curr_y r) (Repaint_screen r) (nc_attributes r) (attributes_set r) (nc_scrolling_ability r) (output r).
#[export] Instance set_last_window_refreshed : Setter last_window_refreshed := fun h r => Curse (lines r) (windows r) (fresh r) (LINES r) (COLS r) (tables r) (variable r) (chars_per_millisecond r) (curscr r) (virtual_scr r) (h (last_window_refreshed r)) (virtual_lines r) (STAND r) (Curr_x r) (Curr_y r) (Repaint_screen r) (nc_attributes r) (attributes_set r) (nc_scrolling_ability r) (output r).
#[export] Instance set_virtual_lines : Setter virtual_lines := fun h r => Curse (lines r) (windows r) (fresh r) (LINES r) (COLS r) (tables r) (variable r) (chars_per_millisecond r) (curscr r) (virtual_scr r) (last_window_refreshed r) (h (virtual_lines r)) (STAND r) (Curr_x r) (Curr_y r) (Repaint_screen r) (nc_attributes r) (attributes_set r) (nc_scrolling_ability r) (output r).
#[export] Instance set_STAND : Setter STAND := fun h r => Curse (lines r) (windows r) (fresh r) (LINES r) (COLS r) (tables r) (variable r) (chars_per_millisecond r) (curscr r) (virtual_scr r) (last_window_refreshed r) (virtual_lines r) (h (STAND r)) (Curr_x r) (Curr_y r) (Repaint_screen r) (nc_attributes r) (attributes_set r) (nc_scrolling_ability r) (output r).
#[export] Instance set_Curr_x : Setter Curr_x := fun h r => Curse (lines r) (windows r) (fresh r) (LINES r) (COLS r) (tables r) (variable r) (chars_per_millisecond r) (curscr r) (virtual_scr r) (last_window_refreshed r) (virtual_lines r) (STAND r) (h (Curr_x r)) (Curr_y r) (Repaint_screen r) (nc_attributes r) (attributes_set r) (nc_scrolling_ability r) (output r).
#[export] Instance set_Curr_y : Setter Curr_y := fun h r => Curse (lines r) (windows r) (fresh r) (LINES r) (COLS r) (tables r) (variable r) (chars_per_millisecond r) (curscr r) (virtual_scr r) (last_window_refreshed r) (virtual_lines r) (STAND r) (Curr_x r) (h (Curr_y r)) (Repaint_screen r) (nc_attributes r) (attributes_set r) (nc_scrolling_ability r) (output r).
#[export] Instance set_Repaint_screen : Setter Repaint_screen := fun h r => Curse (lines r) (windows r) (fresh r) (LINES r) (COLS r) (tables r) (variable r) (chars_per_millisecond r) (curscr r) (virtual_scr r) (last_window_refreshed r) (virtual_lines r) (STAND r) (Curr_x r) (Curr_y r) (h (Repaint_screen r)) (nc_attributes r) (attributes_set r) (nc_scrolling_ability r) (output r).
#[export] Instance set_nc_attributes : Setter nc_attributes := fun h r => Curse (lines r) (windows r) (fresh r) (LINES r) (COLS r) (tables r) (variable r) (chars_per_millisecond r) (curscr r) (virtual_scr r) (last_window_refreshed r) (virtual_lines r) (STAND r) (Curr_x r) (Curr_y r) (Repaint_screen r) (h (nc_attributes r)) (attributes_set r) (nc_scrolling_ability r) (output r).
#[export] Instance set_attributes_set : Setter attributes_set := fun h r => Curse (lines r) (windows r) (fresh r) (LINES r) (COLS r) (tables r) (variable r) (chars_per_millisecond r) (curscr r) (virtual_scr r) (last_window_refreshed r) (virtual_lines r) (STAND r) (Curr_x r) (Curr_y r) (Repaint_screen r) (nc_attributes r) (h (attributes_set r)) (nc_scrolling_ability r) (output r).
#[export] Instance set_nc_scrolling_ability : Setter nc_scrolling_ability := fun h r => Curse (lines r) (windows r) (fresh r) (LINES r) (COLS r) (tables r) (variable r) (chars_per_millisecond r) (curscr r) (virtual_scr r) (last_window_refreshed r) (virtual_lines r) (STAND r) (Curr_x r) (Curr_y r) (Repaint_screen r) (nc_attributes r) (attributes_set r) (h (nc_scrolling_ability r)) (output r).
#[export] Instance set_output : Setter output := fun h r => Curse (lines r) (windows r) (fresh r) (LINES r) (COLS r) (tables r) (variable r) (chars_per_millisecond r) (curscr r) (virtual_scr r) (last_window_refreshed r) (virtual_lines r) (STAND r) (Curr_x r) (Curr_y r) (Repaint_screen r) (nc_attributes r) (attributes_set r) (nc_scrolling_ability r) (h (output r)).

Abbreviation C := (ST curse).
Local Open Scope ind_scope.

Definition gets {A} (f : curse -> A) : C A := fun s => SRet (f s) s.
Definition sets {A} (f : curse -> A) `{Setter _ _ f} (v : A) : C () := modify (fun s => s <| f := v |>).

(** [p->...]: undefined for a pointer that is not allocated, or NULL. *)
Definition node (p : option nat) : C sline := let! l := of_opt p in let! h := gets lines in of_opt (h !! l).
Definition upd (p : option nat) (f : sline -> sline) : C () :=
  let! l := of_opt p in
  let! n := node p in
  modify (fun s => s <| lines ::= <[l := f n]> |>).
Definition win (w : nat) : C WINDOW := let! h := gets windows in of_opt (h !! w).
Definition updw (w : nat) (f : WINDOW -> WINDOW) : C () :=
  let! n := win w in
  modify (fun s => s <| windows ::= <[w := f n]> |>).

(** [l->row[j] = c; l->attributes[j] = a;] *)
Definition put_cell (p : option nat) (j c a : Z) : C () :=
  let! n := node p in
  let! r := of_opt (aset (row n) j (u8 c)) in
  let! t := of_opt (aset (attributes n) j (u8 a)) in
  upd p (fun n => n <| row := r |> <| attributes := t |>).

(** Blanks from [j] to before [column]. *)
Fixpoint blank_cells (k : nat) (p : option nat) (j : Z) : C () :=
  match k with
  | O => ret tt
  | S k => put_cell p j 32 0 ;; blank_cells k p (j + 1)
  end.

(** [for (row = 0, tmp = ...; row < n; row++) tmp = tmp->next_screen;] *)
Fixpoint walk (n : nat) (p : option nat) : C (option nat) :=
  match n with
  | O => ret p
  | S n => let! l := node p in walk n (next_screen l)
  end.

(** The same, stopping at the last line. *)
Fixpoint walk_in (n : nat) (p : option nat) : C (option nat) :=
  match n with
  | O => ret p
  | S n => let! l := node p in match next_screen l with Some _ => walk_in n (next_screen l) | None => ret p end
  end.

(** ** Allocation *)

Definition Screenalloc (columns : Z) : C (option nat) :=
  if columns <? 0 then mundef
  else
    let k := Z.to_nat columns in
    let row := <[0%nat := 0]> (replicate k 32 ++ [0]) in
    let attributes := replicate k 0 ++ [0] in
    let! l := gets fresh in
    modify (fun s => s <| lines ::= <[l := Sline None None row attributes 0 false 0 0]> |> <| fresh := S l |>) ;;
    ret (Some l).

(** The lines after the first. *)
Fixpoint more_lines (n : nat) (cols i : Z) (temp_screen : option nat) (arr : list (option nat)) : C (option nat * list (option nat)) :=
  match n with
  | O => ret (temp_screen, arr)
  | S n =>
      let! l := Screenalloc cols in
      upd temp_screen (fun t => t <| next_screen := l |>) ;;
      upd l (fun t => t <| number := i |> <| prev_screen := temp_screen |>) ;;
      let! arr := of_opt (aset arr i l) in
      more_lines n cols (i + 1) l arr
  end.

Definition newwin (num_lines cols start_l start_c : Z) : C nat :=
  let! l := Screenalloc cols in
  upd l (fun t => t <| number := 0 |>) ;;
  let! L := gets LINES in
  let! arr := of_opt (aset (replicate (Z.to_nat L) None) 0 l) in
  let! (last, arr) := more_lines (Z.to_nat (num_lines - 1)) cols 1 l arr in
  upd l (fun t => t <| prev_screen := None |>) ;;
  upd last (fun t => t <| next_screen := None |>) ;;
  let! w := gets fresh in
  modify (fun s => s <| windows ::= <[w := Window start_l start_c 0 0 0 num_lines cols 0 0 0 l arr]> |> <| fresh := S w |>) ;;
  ret w.

(** ** Operations *)

Definition SCROLL : Z := 1.
Definition CLEAR : Z := 2.
Definition CHANGE : Z := 3.
Definition UP : Z := 1.
Definition DOWN : Z := 2.
Definition A_STANDOUT : Z := 1.
Definition hz__ : Z := 18.
Definition sg__ : Z := 4.

Definition wmove (w : nat) (row column : Z) : C () :=
  let! W := win w in
  if (row <? Num_lines W) && (column <? Num_cols W) then updw w (fun W => W <| LX := column |> <| LY := row |>) else ret tt.

Definition clear_line (p : option nat) (column : Z) : C () :=
  let! n := node p in
  blank_cells (Z.to_nat (column - last_char n)) p (last_char n) ;;
  upd p (fun n => n <| last_char := column |>) ;;
  put_cell p column 0 0 ;;
  upd p (fun n => n <| changed := true |>).

Fixpoint clear_lines (n : nat) (p : option nat) : C () :=
  match n with
  | O => ret tt
  | S n => clear_line p 0 ;; let! l := node p in clear_lines n (next_screen l)
  end.

Definition werase (w : nat) : C () :=
  updw w (fun W => W <| SCROLL_CLEAR := CLEAR |> <| scroll_up := 0 |> <| scroll_down := 0 |>) ;;
  let! W := win w in
  clear_lines (Z.to_nat (Num_lines W)) (first_line W).

Definition wclrtoeol (w : nat) : C () :=
  updw w (fun W => W <| SCROLL_CLEAR := CHANGE |>) ;;
  let! W := win w in
  let! tmp := walk (Z.to_nat (LY W)) (first_line W) in
  clear_line tmp (LX W).

(** Only the first line is marked: the loop does not go on to the next one. *)
Definition touchwin (w : nat) : C () :=
  let! W := win w in
  (if 0 <? Num_lines W then upd (first_line W) (fun n => n <| changed := true |>) else ret tt) ;;
  updw w (fun W => W <| SCROLL_CLEAR := 1 |>).

(** The column moved on, to the start of the next line at the end, and the window marked. *)
Definition add_wrap (w : nat) : C () :=
  let! W := win w in
  (if Num_cols W <=? LX W then
     updw w (fun W => W <| LX := 0 |> <| LY := if Num_lines W <=? LY W + 1 then Num_lines W - 1 else LY W + 1 |>)
   else ret tt) ;;
  updw w (fun W => W <| SCROLL_CLEAR := CHANGE |>).

(** A character written in a line, with blanks before it when the line is shorter. *)
Definition add_at (tmpline : option nat) (column c a : Z) : C () :=
  put_cell tmpline column c a ;;
  upd tmpline (fun n => n <| changed := true |>) ;;
  let! n := node tmpline in
  if last_char n <=? column then
    blank_cells (Z.to_nat (column - last_char n)) tmpline (last_char n) ;;
    put_cell tmpline (column + 1) 0 0 ;;
    upd tmpline (fun n => n <| last_char := column + 1 |>)
  else ret tt.

(** A character written at the cursor. *)
Definition add_cell (w : nat) (c : Z) : C () :=
  let! W := win w in
  let! tmpline := of_opt (aget (line_array W) (LY W)) in
  add_at tmpline (LX W) c (Attrib W).

(** waddch of a character that is no tab. *)
Definition add_char (w : nat) (c : Z) : C () :=
  let! W := win w in
  (if (LX W <? Num_cols W) && (LY W <? Num_lines W) then
     let! hz := gets (fun s => aget (Booleans (tables s)) hz__) in
     let! hz := of_opt hz in
     let c := if (c =? 126) && truth hz then 64 else c in
     (if negb (c =? 8) && negb (c =? 10) && negb (c =? 13) then add_cell w c else ret tt) ;;
     if c =? 10 then wclrtoeol w ;; updw w (fun W => W <| LX := Num_cols W |>)
     else if c =? 13 then updw w (fun W => W <| LX := 0 |>)
     else if c =? 8 then updw w (fun W => W <| LX := LX W - 1 |>)
     else updw w (fun W => W <| LX := LX W + 1 |>)
   else ret tt) ;;
  add_wrap w.

Definition tab_shift (column : Z) : Z := let shift := cmod (column + 1) 8 in if shift =? 0 then 1 else 9 - shift.

Definition waddch (w : nat) (c : Z) : C () :=
  let! W := win w in
  if c =? 9 then Nat.iter (Z.to_nat (tab_shift (LX W))) (fun k => add_char w 32 ;; k) (ret tt) ;; add_wrap w
  else add_char w c.

(** The array of lines filled in again. *)
Fixpoint relink (n : nat) (w : nat) (i : Z) (p : option nat) : C () :=
  match n with
  | O => ret tt
  | S n =>
      let! W := win w in
      let! arr := of_opt (aset (line_array W) i p) in
      updw w (fun W => W <| line_array := arr |>) ;;
      let! l := node p in
      relink n w (i + 1) (next_screen l)
  end.

(** The line [tmp1], off the list, put at the line of the cursor. *)
Definition insert_at (w : nat) (W : WINDOW) (tmp1 : option nat) : C () :=
  let! tmp := walk_in (Z.to_nat (LY W)) (first_line W) in
  let! n := node tmp in
  (if (LY W =? Num_lines W - 1) && (1 <? Num_lines W) then
     upd tmp1 (fun n1 => n1 <| next_screen := next_screen n |>) ;;
     upd tmp (fun n => n <| next_screen := tmp1 |>) ;;
     upd tmp (fun n => n <| changed := true |>) ;;
     upd tmp1 (fun n1 => n1 <| prev_screen := tmp |>)
   else if 1 <? Num_lines W then
     (match prev_screen n with Some _ => upd (prev_screen n) (fun n => n <| next_screen := tmp1 |>) | None => ret tt end) ;;
     let! n := node tmp in
     upd tmp1 (fun n1 => n1 <| prev_screen := prev_screen n |>) ;;
     upd tmp (fun n => n <| prev_screen := tmp1 |>) ;;
     upd tmp1 (fun n1 => n1 <| next_screen := tmp |>) ;;
     upd tmp (fun n => n <| changed := true |> <| scroll := DOWN |>)
   else ret tt) ;;
  (if LY W =? 0 then updw w (fun W => W <| first_line := tmp1 |>) else ret tt) ;;
  let! W := win w in
  relink (Z.to_nat (Num_lines W)) w 0 (first_line W).

Definition winsertln (w : nat) : C () :=
  updw w (fun W => W <| scroll_down := scroll_down W + 1 |> <| SCROLL_CLEAR := SCROLL |>) ;;
  let! W := win w in
  let! tmp1 := walk_in (Z.to_nat (Num_lines W)) (first_line W) in
  let! n1 := node tmp1 in
  (match prev_screen n1 with Some _ => upd (prev_screen n1) (fun n => n <| next_screen := None |>) | None => ret tt end) ;;
  clear_line tmp1 0 ;;
  upd tmp1 (fun n => n <| number := -1 |>) ;;
  insert_at w W tmp1.

(** The last line of a list. *)
Fixpoint last_line (fuel : nat) (p : option nat) : C (option nat) :=
  let! l := node p in
  match next_screen l with
  | None => ret p
  | Some _ => match fuel with O => mundef | S fuel => last_line fuel (next_screen l) end
  end.

(** A line taken off the list. *)
Definition unlink (n : sline) : C () :=
  (match prev_screen n with Some _ => upd (prev_screen n) (fun p => p <| next_screen := next_screen n |>) | None => ret tt end) ;;
  match next_screen n with
  | Some _ => upd (next_screen n) (fun x => x <| changed := true |> <| scroll := UP |> <| prev_screen := prev_screen n |>)
  | None => ret tt
  end.

(** A line put after the last one. *)
Definition link_last (last tmp : option nat) : C () :=
  upd last (fun n => n <| next_screen := tmp |>) ;;
  upd tmp (fun n => n <| prev_screen := last |>) ;;
  upd last (fun n => n <| changed := true |>) ;;
  upd tmp (fun n => n <| next_screen := None |>).

Definition wdeleteln (w : nat) : C () :=
  let! W := win w in
  if 1 <? Num_lines W then
    updw w (fun W => W <| scroll_up := scroll_up W + 1 |> <| SCROLL_CLEAR := SCROLL |>) ;;
    let! W := win w in
    let! tmp := walk (Z.to_nat (LY W)) (first_line W) in
    let! n := node tmp in
    (if LY W =? 0 then updw w (fun W => W <| first_line := next_screen n |>) else ret tt) ;;
    unlink n ;;
    clear_line tmp 0 ;;
    upd tmp (fun n => n <| number := -1 |>) ;;
    let! W := win w in
    let! last := last_line (Z.to_nat (Num_lines W)) (first_line W) in
    link_last last tmp ;;
    relink (Z.to_nat (Num_lines W)) w 0 (first_line W)
  else clear_line (first_line W) 0.

Definition wclrtobot (w : nat) : C () :=
  updw w (fun W => W <| SCROLL_CLEAR := Z.lor (SCROLL_CLEAR W) CLEAR |>) ;;
  let! W := win w in
  let! tmp := walk (Z.to_nat (LY W)) (first_line W) in
  clear_line tmp (LX W) ;;
  let! n := node tmp in
  clear_lines (Z.to_nat (Num_lines W - LY W - 1)) (next_screen n) ;;
  wmove w (Z.max (LY W + 1) (Num_lines W)) (LX W).

Definition wstandout (w : nat) : C () :=
  let! sg := gets (fun s => aget (Numbers (tables s)) sg__) in
  let! sg := of_opt sg in
  if sg <? 1 then updw w (fun W => W <| Attrib := Z.lor (Attrib W) A_STANDOUT |>) else ret tt.

Definition wstandend (w : nat) : C () := updw w (fun W => W <| Attrib := Z.land (Attrib W) (Z.lnot A_STANDOUT) |>).

Fixpoint waddstr (w : nat) (string : bytes) : C () :=
  match string with
  | [] => ret tt
  | c :: string => waddch w (sint 8 c) ;; waddstr w string
  end.

(** The decimal digits of a number; those of a negative one are the characters before 0. *)
Fixpoint iout (fuel : nat) (w : nat) (value : Z) : C () :=
  let i := cdiv value 10 in
  (if negb (i =? 0) then match fuel with O => mundef | S fuel => iout fuel w i end else ret tt) ;;
  waddch w (cmod value 10 + 48).

Definition clearok : C () := sets Repaint_screen true.

(** The arguments of wprintw. *)
Inductive arg := Int (z : Z) | Str (s : bytes).

(** [va_arg]: undefined for an argument that is not there or of another type. *)
Definition arg_int (a : list arg) : C (Z * list arg) := match a with Int z :: a => ret (z, a) | _ => mundef end.
Definition arg_str (a : list arg) : C (bytes * list arg) := match a with Str s :: a => ret (s, a) | _ => mundef end.

(** [fpoint++] *)
Definition after (f : bytes) : C bytes := match f with [] => mundef | _ :: f => ret f end.

Fixpoint wprintw (fuel : nat) (w : nat) (format : bytes) (args : list arg) : C () :=
  match format with
  | [] => ret tt
  | c :: f =>
      match fuel with
      | O => mundef
      | S fuel =>
          if c =? 37 then
            let! args :=
              (if hd0 f =? ch "d" then let! (v, args) := arg_int args in iout 10 w v ;; ret args
               else if hd0 f =? ch "c" then let! (v, args) := arg_int args in waddch w v ;; ret args
               else if hd0 f =? ch "s" then let! (s, args) := arg_str args in waddstr w s ;; ret args
               else ret args) in
            let! f := after f in wprintw fuel w f args
          else if c =? 92 then
            if hd0 f =? ch "n" then waddch w 10 ;; let! f := after f in wprintw fuel w f args
            else if isdigit (hd0 f) then
              let (ds, f) := span isdigit f in
              waddch w (fold_left (fun v d => v * 8 + (d - 48)) ds 0) ;; let! f := after f in wprintw fuel w f args
            else let! f := after f in wprintw fuel w f args
          else waddch w (sint 8 c) ;; wprintw fuel w f args
      end
  end.

(** free of a line: it is no longer allocated. *)
Definition free_line (p : option nat) : C () :=
  let! l := of_opt p in
  let! _ := node p in
  modify (fun s => s <| lines ::= base.delete l |>).

Fixpoint free_lines (n : nat) (p : option nat) : C (option nat) :=
  match n with
  | O => ret p
  | S n =>
      let! l := node p in
      match next_screen l with
      | None => ret p
      | Some _ =>
          let! x := node (next_screen l) in
          free_line (prev_screen x) ;;
          free_lines n (next_screen l)
      end
  end.

Definition delwin (w : nat) : C () :=
  let! W := win w in
  let! p := free_lines (Z.to_nat (Num_lines W - 1)) (first_line W) in
  let! r := gets last_window_refreshed in
  (if bool_decide (r = Some w) then sets last_window_refreshed None else ret tt) ;;
  match p with
  | Some _ => free_line p ;; modify (fun s => s <| windows ::= base.delete w |>)
  | None => ret tt
  end.

(** The cells of a row copied. *)
Fixpoint copy_cells (k : nat) (column : Z) (orig dest : option nat) : C () :=
  match k with
  | O => ret tt
  | S k =>
      let! o := node orig in
      let! c := of_opt (aget (row o) column) in
      let! a := of_opt (aget (attributes o) column) in
      put_cell dest column c a ;;
      copy_cells k (column + 1) orig dest
  end.

Fixpoint copy_rows (n : nat) (cols dest_cols : Z) (orig dest : option nat) : C () :=
  match n with
  | O => ret tt
  | S n =>
      copy_cells (Z.to_nat cols) 0 orig dest ;;
      let! o := node orig in
      upd dest (fun d => d <| changed := changed o |> <| scroll := scroll o |> <| last_char := Z.min (last_char o) dest_cols |>) ;;
      let! d := node dest in
      copy_rows n cols dest_cols (next_screen o) (next_screen d)
  end.

Definition copy_window (origin destination : nat) : C () :=
  let! Ow := win origin in
  let! Dw := win destination in
  copy_rows (Z.to_nat (Z.min (Num_lines Ow) (Num_lines Dw))) (Z.min (Num_cols Ow) (Num_cols Dw)) (Num_cols Dw) (first_line Ow) (first_line Dw) ;;
  updw destination (fun D => D <| LX := Z.min (Num_cols D - 1) (LX Ow) |> <| LY := Z.min (Num_lines D - 1) (LY Ow) |> <| Attrib := Attrib Ow |>
                               <| scroll_up := scroll_up Ow |> <| scroll_down := scroll_down Ow |> <| SCROLL_CLEAR := SCROLL_CLEAR Ow |>).
End CurseWindow.
