(* ===== verification/CurseScreen.v ===== *)
(** * new_curse: what the windows show

    The screen a window stands for is a list of lines of cells, a character with its
    attribute, and a cursor.  The operations of CurseWindow keep the doubly linked lines,
    the array of them and their blocks in order, and do to the screen what their names say. *)

From S2P Require Import Prelude Monad CurseInfo CurseWindow.
From stdpp Require Import base list gmap numbers.
From Stdlib Require Import ZArith Lia ZifyBool SpecFloat.

Open Scope Z_scope.

Module CurseScreen.

Import CurseInfo CurseWindow.

(** ** Screens *)

Abbreviation cell := (Z * Z)%type.

Record screen := Screen { content : list (list cell); cy : nat; cx : nat; att : Z }.

(** A line as long as [k] cells at least, or at most. *)
Definition a_pad (k : nat) (l : list cell) : list cell := l ++ replicate (k - length l) (32, 0).
Definition a_clear (k : nat) (l : list cell) : list cell := take k (a_pad k l).
Definition a_put (k : nat) (c : cell) (l : list cell) : list cell :=
  if (k <? length l)%nat then <[k := c]> l else a_pad k l ++ [c].

(** The cursor moved on from column [x], to the next line at the end of one. *)
Definition a_wrap (nc x : nat) (a : screen) : screen :=
  if (nc <=? x)%nat then Screen (content a) (Nat.min (S (cy a)) (length (content a) - 1)) 0 (att a) else Screen (content a) (cy a) x (att a).

Definition a_edit (f : list cell -> list cell) (a : screen) : screen := Screen (alter f (cy a) (content a)) (cy a) (cx a) (att a).

(** A character that is no tab; [hz] is the Hazeltine terminal, which has no tilde. *)
Definition a_char (nc : nat) (hz : bool) (c : Z) (a : screen) : screen :=
  let c := if (c =? 126) && hz then 64 else c in
  if c =? 10 then a_wrap nc nc (a_edit (a_clear (cx a)) a)
  else if c =? 13 then a_wrap nc 0 a
  else if c =? 8 then a_wrap nc (cx a - 1) a
  else a_wrap nc (S (cx a)) (a_edit (a_put (cx a) (u8 c, u8 (att a))) a).

(** A tab is spaces up to the next column that is a multiple of eight. *)
Definition a_add (nc : nat) (hz : bool) (c : Z) (a : screen) : screen :=
  if c =? 9 then Nat.iter (8 - cx a mod 8) (a_char nc hz 32) a else a_char nc hz c a.

Definition a_erase (a : screen) : screen := Screen (map (fun _ => []) (content a)) (cy a) (cx a) (att a).
Definition a_clrtobot (a : screen) : screen :=
  Screen (alter (a_clear (cx a)) (cy a) (take (S (cy a)) (content a)) ++ map (fun _ => []) (drop (S (cy a)) (content a))) (cy a) (cx a) (att a).

(** An empty line at the cursor, the last line gone; the line of the cursor gone, an empty one at the end. *)
Definition a_insertln (a : screen) : screen :=
  let c := take (length (content a) - 1) (content a) in Screen (take (cy a) c ++ [] :: drop (cy a) c) (cy a) (cx a) (att a).
Definition a_deleteln (a : screen) : screen :=
  Screen (take (cy a) (content a) ++ drop (S (cy a)) (content a) ++ [[]]) (cy a) (cx a) (att a).

(** ** Lines *)

(** The cells of a line are those before [last_char]; a NUL follows them. *)
Record line_ok (nc : nat) (n : sline) (l : list cell) : Prop := {
  lo_row : length (row n) = S nc;
  lo_att : length (attributes n) = S nc;
  lo_last : last_char n = Z.of_nat (length l);
  lo_len : (length l <= nc)%nat;
  lo_cells : take (length l) (row n) = l.*1;
  lo_atts : take (length l) (attributes n) = l.*2;
  lo_end : row n !! length l = Some 0;
  lo_aend : attributes n !! length l = Some 0;
}.

(** The state with its lines and windows replaced. *)
Definition st (s : curse) (h : gmap nat sline) (ws : gmap nat WINDOW) : curse := s <| lines := h |> <| windows := ws |>.

Section Lines.
Context (s : curse) (ws : gmap nat WINDOW) (X : Z -> bytes -> curse -> Prop).

Lemma wp_read {A} (f : curse -> A) (Q : A -> curse -> Prop) s' : Q (f s') s' -> wp (gets f) Q X s'.
Proof. done. Qed.

Lemma wp_at_line l n (Q : sline -> curse -> Prop) h : h !! l = Some n -> Q n (st s h ws) -> wp (node (Some l)) Q X (st s h ws).
Proof. intros E H. unfold node. cbn. apply wp_bind, wp_ret, wp_bind, wp_read. by eapply wp_of_opt. Qed.

Lemma wp_set_line l n f (Q : () -> curse -> Prop) h : h !! l = Some n -> Q tt (st s (<[l := f n]> h) ws) -> wp (upd (Some l) f) Q X (st s h ws).
Proof. intros E H. unfold upd. apply wp_bind, wp_ret, wp_bind. eapply wp_at_line; [exact E|]. exact H. Qed.

Lemma wp_put_cell l n j c a (Q : () -> curse -> Prop) h : h !! l = Some n -> (j < length (row n))%nat -> (j < length (attributes n))%nat ->
  Q tt (st s (<[l := n <| row := <[j := u8 c]> (row n) |> <| attributes := <[j := u8 a]> (attributes n) |>]> h) ws) ->
  wp (put_cell (Some l) (Z.of_nat j) c a) Q X (st s h ws).
Proof.
  intros E Hr Ha H. unfold put_cell. apply wp_bind. eapply wp_at_line; [exact E|]. apply wp_bind.
  eapply wp_of_opt; [apply aset_in; lia|]. apply wp_bind. eapply wp_of_opt; [apply aset_in; lia|]. rewrite Nat2Z.id. by eapply wp_set_line.
Qed.
End Lines.

(** [l] with [k] elements from [j] on replaced by [x]. *)
Definition fill {A} (j k : nat) (x : A) (l : list A) : list A := take j l ++ replicate k x ++ drop (j + k) l.

Lemma length_fill {A} j k (x : A) l : (j + k <= length l)%nat -> length (fill j k x l) = length l.
Proof. intros H. unfold fill. rewrite !length_app, length_take, length_replicate, length_drop. lia. Qed.

Lemma fill_0 {A} j (x : A) l : fill j 0 x l = l.
Proof. unfold fill. cbn. by rewrite Nat.add_0_r, take_drop. Qed.

Lemma fill_S {A} j k (x : A) l : (j + S k <= length l)%nat -> fill (S j) k x (<[j := x]> l) = fill j (S k) x l.
Proof.
  intros H. unfold fill. rewrite drop_insert_lt by lia. rewrite (take_S_r _ _ x) by (apply list_lookup_insert_eq; lia).
  rewrite take_insert_ge by lia. rewrite <- app_assoc. cbn. by rewrite Nat.add_succ_r.
Qed.

Lemma take_fill {A} j k (x : A) l : (j + k <= length l)%nat -> take (j + k) (fill j k x l) = take j l ++ replicate k x.
Proof. intros H. unfold fill. rewrite app_assoc, take_app_length'; [done|]. rewrite length_app, length_take, length_replicate. lia. Qed.

Lemma lookup_fill_ge {A} j k (x : A) l i : (j + k <= length l)%nat -> (j + k <= i)%nat -> fill j k x l !! i = l !! i.
Proof.
  intros H Hi. unfold fill. rewrite app_assoc, lookup_app_r by (rewrite length_app, length_take, length_replicate; lia).
  rewrite lookup_drop, length_app, length_take, length_replicate. f_equal. lia.
Qed.

Lemma alter_at {A} (f : A -> A) (i : nat) (l : list A) x : l !! i = Some x -> alter f i l = <[i := f x]> l.
Proof. revert i. induction l as [|y l IH]; intros [|i] H; cbn in *; [done|done|congruence|]. f_equal. by apply IH. Qed.

Section Cells.
Context (s : curse) (ws : gmap nat WINDOW) (X : Z -> bytes -> curse -> Prop).

Lemma wp_blank_cells k : forall j l n (Q : () -> curse -> Prop) h, h !! l = Some n -> (j + k <= length (row n))%nat -> (j + k <= length (attributes n))%nat ->
  Q tt (st s (<[l := n <| row := fill j k 32 (row n) |> <| attributes := fill j k 0 (attributes n) |>]> h) ws) ->
  wp (blank_cells k (Some l) (Z.of_nat j)) Q X (st s h ws).
Proof.
  induction k as [|k IH]; intros j l n Q h E Hr Ha H; cbn [blank_cells].
  - apply wp_ret. rewrite !fill_0 in H. replace (<[l:=_]> h) with h in H; [done|]. symmetry. apply insert_id. rewrite E. by destruct n.
  - apply wp_bind. eapply wp_put_cell; [exact E|lia|lia|]. replace (Z.of_nat j + 1) with (Z.of_nat (S j)) by lia.
    eapply IH; [by rewrite lookup_insert_eq|fld; rewrite length_insert; lia|fld; rewrite length_insert; lia|].
    rewrite insert_insert_eq. fld. rewrite !fill_S by lia. exact H.
Qed.

(** What a line operation leaves: one line changed, its links kept. *)
Definition line_to (h : gmap nat sline) (l : nat) (n n' : sline) : Prop := next_screen n' = next_screen n /\ prev_screen n' = prev_screen n.

Lemma wp_clear_line nc l n cells col (Q : () -> curse -> Prop) h : h !! l = Some n -> line_ok nc n cells -> (col <= nc)%nat ->
  (forall n', line_ok nc n' (a_clear col cells) -> line_to h l n n' -> Q tt (st s (<[l := n']> h) ws)) ->
  wp (clear_line (Some l) (Z.of_nat col)) Q X (st s h ws).
Proof.
  intros E [Hr Ha Hlast Hlen Hc Hat He Hae] Hcol H. unfold clear_line. apply wp_bind. eapply wp_at_line; [exact E|]. rewrite Hlast. apply wp_bind.
  set (k := Z.to_nat _). assert (Hk : k = (col - length cells)%nat) by lia.
  eapply wp_blank_cells; [exact E|lia|lia|]. apply wp_bind. eapply wp_set_line; [by rewrite lookup_insert_eq|]. apply wp_bind.
  eapply wp_put_cell; [by rewrite lookup_insert_eq|fld; rewrite length_fill; lia|fld; rewrite length_fill; lia|].
  eapply wp_set_line; [by rewrite lookup_insert_eq|]. rewrite !insert_insert_eq. apply H; [|split; by fld].
  assert (Hlc : length (a_clear col cells) = col) by (unfold a_clear, a_pad; rewrite length_take, length_app, length_replicate; lia).
  constructor; fld; rewrite ?length_insert, ?length_fill, ?Hlc by lia; try done.
  - rewrite take_insert_ge by lia. unfold a_clear, a_pad. rewrite <- Hk, fmap_take, fmap_app, fmap_replicate, <- Hc. cbn [fst].
    destruct (decide (col <= length cells)%nat).
    + replace k with 0%nat by lia. rewrite fill_0, app_nil_r, take_take. f_equal. lia.
    + replace col with (length cells + k)%nat by lia. rewrite take_fill by lia. symmetry. apply take_ge.
      rewrite length_app, length_take, length_replicate. lia.
  - rewrite take_insert_ge by lia. unfold a_clear, a_pad. rewrite <- Hk, fmap_take, fmap_app, fmap_replicate, <- Hat. cbn [snd].
    destruct (decide (col <= length cells)%nat).
    + replace k with 0%nat by lia. rewrite fill_0, app_nil_r, take_take. f_equal. lia.
    + replace col with (length cells + k)%nat by lia. rewrite take_fill by lia. symmetry. apply take_ge.
      rewrite length_app, length_take, length_replicate. lia.
  - apply list_lookup_insert_eq. rewrite length_fill; lia.
  - apply list_lookup_insert_eq. rewrite length_fill; lia.
Qed.

Lemma wp_add_at nc l n cells col c a (Q : () -> curse -> Prop) h : h !! l = Some n -> line_ok nc n cells -> (col < nc)%nat ->
  (forall n', line_ok nc n' (a_put col (u8 c, u8 a) cells) -> line_to h l n n' -> Q tt (st s (<[l := n']> h) ws)) ->
  wp (add_at (Some l) (Z.of_nat col) c a) Q X (st s h ws).
Proof.
  intros E [Hr Ha Hlast Hlen Hc Hat He Hae] Hcol H. unfold add_at. apply wp_bind. eapply wp_put_cell; [exact E|lia|lia|]. apply wp_bind.
  eapply wp_set_line; [by rewrite lookup_insert_eq|]. apply wp_bind. eapply wp_at_line; [by rewrite lookup_insert_eq|]. fld. rewrite Hlast, insert_insert_eq.
  unfold a_put in H. destruct (Z.of_nat (length cells) <=? Z.of_nat col) eqn:El.
  2:{ apply wp_ret. rewrite (proj2 (Nat.ltb_lt _ _)) in H by lia. apply H; [|split; by fld]. constructor; fld; rewrite ?length_insert; try done.
      - rewrite take_insert_lt, Hc by lia. by rewrite list_fmap_insert.
      - rewrite take_insert_lt, Hat by lia. by rewrite list_fmap_insert.
      - rewrite list_lookup_insert_ne by lia. done.
      - rewrite list_lookup_insert_ne by lia. done. }
  rewrite (proj2 (Nat.ltb_ge _ _)) in H by lia. apply wp_bind. set (k := Z.to_nat _). assert (Hk : k = (col - length cells)%nat) by lia.
  eapply wp_blank_cells; [by rewrite lookup_insert_eq|fld; rewrite length_insert; lia|fld; rewrite length_insert; lia|]. fld. apply wp_bind.
  replace (Z.of_nat col + 1) with (Z.of_nat (S col)) by lia.
  eapply wp_put_cell; [by rewrite lookup_insert_eq|fld; rewrite length_fill; rewrite length_insert; lia|fld; rewrite length_fill; rewrite length_insert; lia|].
  eapply wp_set_line; [by rewrite lookup_insert_eq|]. rewrite !insert_insert_eq. fld. apply H; [|split; by fld].
  assert (Hlp : length (a_pad col cells ++ [(u8 c, u8 a)]) = S col) by (unfold a_pad; rewrite !length_app, length_replicate; cbn; lia).
  assert (Hcol' : col = (length cells + k)%nat) by lia.
  assert (Hcell : forall (r : bytes) b x, length r = S nc -> take (S col) (<[S col := 0]> (fill (length cells) k b (<[col := x]> r))) = take (length cells) r ++ replicate k b ++ [x]).
  { intros r b x Hlr. rewrite take_insert_ge by lia. rewrite (take_S_r _ _ x).
    2:{ rewrite lookup_fill_ge by (rewrite ?length_insert; lia). apply list_lookup_insert_eq. lia. }
    rewrite Hcol' at 1. rewrite take_fill by (rewrite length_insert; lia). rewrite take_insert_ge by lia. by rewrite <- app_assoc. }
  constructor; fld; rewrite ?Hlp, ?length_insert, ?length_fill, ?length_insert by (rewrite ?length_insert; lia); try done; try lia.
  - rewrite Hcell, Hc by done. unfold a_pad. by rewrite <- Hk, !fmap_app, fmap_replicate, <- app_assoc.
  - rewrite Hcell, Hat by done. unfold a_pad. by rewrite <- Hk, !fmap_app, fmap_replicate, <- app_assoc.
  - apply list_lookup_insert_eq. rewrite length_fill; rewrite length_insert; lia.
  - apply list_lookup_insert_eq. rewrite length_fill; rewrite length_insert; lia.
Qed.
End Cells.

(** ** Linked lines *)

Definition head_or (l : list nat) (q : option nat) : option nat := match l with [] => q | m :: _ => Some m end.
Fixpoint last_or (l : list nat) (p : option nat) : option nat := match l with [] => p | m :: l => last_or l (Some m) end.

(** The lines [ids], linked in both directions, between [p] and [q]. *)
Fixpoint seg (h : gmap nat sline) (p : option nat) (ids : list nat) (q : option nat) : Prop :=
  match ids with
  | [] => True
  | l :: ids => (exists n, h !! l = Some n /\ prev_screen n = p /\ next_screen n = head_or ids q) /\ seg h (Some l) ids q
  end.

Lemma seg_app h p a b q : seg h p (a ++ b) q <-> seg h p a (head_or b q) /\ seg h (last_or a p) b q.
Proof.
  revert p. induction a as [|l a IH]; intros p; cbn [seg app]; [tauto|]. rewrite IH.
  cbn [last_or].
  replace (head_or (a ++ b) q) with (head_or a (head_or b q)) by (by destruct a). tauto.
Qed.

Lemma seg_ne h p ids q l n : l ∉ ids -> seg h p ids q -> seg (<[l := n]> h) p ids q.
Proof.
  revert p. induction ids as [|m ids IH]; intros p Hl; cbn [seg]; [done|]. apply not_elem_of_cons in Hl as [Hm Hl].
  intros [(x & E & H) Hs]. split; [exists x; by rewrite lookup_insert_ne|]. by apply IH.
Qed.

Lemma seg_same h p ids q l n n' : h !! l = Some n -> next_screen n' = next_screen n -> prev_screen n' = prev_screen n -> seg h p ids q -> seg (<[l := n']> h) p ids q.
Proof.
  intros E Hn Hp. revert p. induction ids as [|m ids IH]; intros p; cbn [seg]; [done|]. intros [(x & Ex & Hx1 & Hx2) Hs]. split; [|by apply IH].
  destruct (decide (l = m)) as [->|Hlm]; [|exists x; by rewrite lookup_insert_ne].
  rewrite E in Ex. injection Ex as <-. exists n'. rewrite lookup_insert_eq. split_and!; [done|by rewrite Hp|by rewrite Hn].
Qed.

Lemma seg_next h p a l n q q' : l ∉ a -> h !! l = Some n -> seg h p (a ++ [l]) q -> seg (<[l := n <| next_screen := q' |>]> h) p (a ++ [l]) q'.
Proof.
  intros Hl E [H1 H2]%seg_app. apply seg_app. split; [by apply seg_ne|]. cbn [seg head_or] in *. destruct H2 as [(x & Ex & Hx & _) _]. rewrite E in Ex. injection Ex as <-.
  split; [|done]. exists (n <| next_screen := q' |>). rewrite lookup_insert_eq. split_and!; [done|by fld|by fld].
Qed.

Lemma seg_prev h p b l n q p' : l ∉ b -> h !! l = Some n -> seg h p (l :: b) q -> seg (<[l := n <| prev_screen := p' |>]> h) p' (l :: b) q.
Proof.
  intros Hl E [(x & Ex & _ & Hx) H]. rewrite E in Ex. injection Ex as <-. cbn [seg]. split; [|by apply seg_ne].
  exists (n <| prev_screen := p' |>). rewrite lookup_insert_eq. split_and!; [done|by fld|by fld].
Qed.

Lemma seg_lookup h p ids q l : seg h p ids q -> l ∈ ids -> is_Some (h !! l).
Proof.
  revert p. induction ids as [|m ids IH]; intros p Hs Hl; [by apply elem_of_nil in Hl|]. destruct Hs as [(n & E & _) Hs].
  apply elem_of_cons in Hl as [->|Hl]; [by rewrite E|by eapply IH].
Qed.

Lemma last_or_snoc a l p : last_or (a ++ [l]) p = Some l.
Proof. revert p. induction a; intros p; cbn; auto. Qed.

Section Walks.
Context (s : curse) (ws : gmap nat WINDOW) (X : Z -> bytes -> curse -> Prop) (h : gmap nat sline).

Lemma wp_walk a : forall p m b q (Q : option nat -> curse -> Prop), seg h p (a ++ m :: b) q -> Q (Some m) (st s h ws) ->
  wp (walk (length a) (head_or (a ++ m :: b) None)) Q X (st s h ws).
Proof.
  induction a as [|l a IH]; intros p m b q Q Hs H; cbn [length walk app head_or]; [by apply wp_ret|]. destruct Hs as [(n & E & _ & Hn) Hs].
  apply wp_bind. eapply wp_at_line; [exact E|]. rewrite Hn. replace (head_or (a ++ m :: b) q) with (head_or (a ++ m :: b) None) by (by destruct a). by eapply IH.
Qed.

Lemma wp_walk_in a : forall p m b q (Q : option nat -> curse -> Prop), seg h p (a ++ m :: b) q -> Q (Some m) (st s h ws) ->
  wp (walk_in (length a) (head_or (a ++ m :: b) None)) Q X (st s h ws).
Proof.
  induction a as [|l a IH]; intros p m b q Q Hs H; cbn [length walk_in app head_or]; [by apply wp_ret|]. destruct Hs as [(n & E & _ & Hn) Hs].
  apply wp_bind. eapply wp_at_line; [exact E|]. rewrite Hn. replace (head_or (a ++ m :: b) q) with (head_or (a ++ m :: b) None) by (by destruct a).
  destruct (head_or (a ++ m :: b) None) eqn:Eh; [|by destruct a]. rewrite <- Eh. by eapply IH.
Qed.

(** At the last line a walk stops. *)
Lemma wp_walk_end a : forall k p m (Q : option nat -> curse -> Prop), seg h p (a ++ [m]) None -> (length a <= k)%nat -> Q (Some m) (st s h ws) ->
  wp (walk_in k (head_or (a ++ [m]) None)) Q X (st s h ws).
Proof.
  induction a as [|l a IH]; intros k p m Q Hs Hk H; cbn [app head_or] in *.
  - destruct k as [|k]; [by apply wp_ret|]. cbn [walk_in]. destruct Hs as [(n & E & _ & Hn) _]. apply wp_bind. eapply wp_at_line; [exact E|]. by rewrite Hn.
  - destruct k as [|k]; [cbn in Hk; lia|]. cbn [walk_in length] in *. destruct Hs as [(n & E & _ & Hn) Hs]. apply wp_bind. eapply wp_at_line; [exact E|]. rewrite Hn.
    destruct (head_or (a ++ [m]) None) eqn:Eh; [|by destruct a]. rewrite <- Eh. eapply IH; [exact Hs|lia|done].
Qed.

Lemma wp_last_line a : forall k p m (Q : option nat -> curse -> Prop), seg h p (a ++ [m]) None -> (length a <= k)%nat -> Q (Some m) (st s h ws) ->
  wp (last_line k (head_or (a ++ [m]) None)) Q X (st s h ws).
Proof.
  induction a as [|l a IH]; intros k p m Q Hs Hk H; cbn [app head_or length] in *.
  - destruct Hs as [(n & E & _ & Hn) _]. destruct k; cbn [last_line]; apply wp_bind; (eapply wp_at_line; [exact E|]); by rewrite Hn.
  - destruct k as [|k]; [lia|]. cbn [last_line]. destruct Hs as [(n & E & _ & Hn) Hs]. apply wp_bind. eapply wp_at_line; [exact E|]. rewrite Hn.
    destruct (head_or (a ++ [m]) None) eqn:Eh; [|by destruct a]. rewrite <- Eh. eapply IH; [exact Hs|lia|done].
Qed.
End Walks.

(** ** Windows *)

Record shows (nc : nat) (h : gmap nat sline) (W : WINDOW) (ids : list nat) (a : screen) : Prop := {
  sh_nl : Num_lines W = Z.of_nat (length (content a));
  sh_nc : Num_cols W = Z.of_nat nc;
  sh_len : length ids = length (content a);
  sh_nodup : NoDup ids;
  sh_first : first_line W = head_or ids None;
  sh_seg : seg h None ids None;
  sh_lines : Forall2 (fun l c => exists n, h !! l = Some n /\ line_ok nc n c) ids (content a);
  sh_arr : take (length ids) (line_array W) = map Some ids;
  sh_x : LX W = Z.of_nat (cx a);
  sh_y : LY W = Z.of_nat (cy a);
  sh_att : Attrib W = att a;
  sh_cx : (cx a < nc)%nat;
  sh_cy : (cy a < length (content a))%nat;
}.

(** Only the lines [ids] are touched. *)
Definition off (ids : list nat) (h h' : gmap nat sline) : Prop := forall l, l ∉ ids -> h' !! l = h !! l.

Lemma off_refl ids h : off ids h h.
Proof. done. Qed.

Lemma off_trans ids h1 h2 h3 : off ids h1 h2 -> off ids h2 h3 -> off ids h1 h3.
Proof. intros H1 H2 l Hl. by rewrite (H2 l Hl), (H1 l Hl). Qed.

Lemma off_insert ids h l n : l ∈ ids -> off ids h (<[l := n]> h).
Proof. intros Hl m Hm. apply lookup_insert_ne. by intros ->. Qed.

(** One line changed in place. *)
Lemma shows_line nc h W ids a i l n n' c c' : shows nc h W ids a -> ids !! i = Some l -> content a !! i = Some c -> h !! l = Some n ->
  line_ok nc n' c' -> next_screen n' = next_screen n -> prev_screen n' = prev_screen n ->
  shows nc (<[l := n']> h) W ids (Screen (<[i := c']> (content a)) (cy a) (cx a) (att a)) /\ off ids h (<[l := n']> h).
Proof.
  intros [] Hi Hc E Hn' Hnext Hprev. split; [|by apply off_insert, (list_elem_of_lookup_2 _ i)]. constructor; cbn [content cy cx att]; rewrite ?length_insert; try done.
  - by eapply seg_same.
  - apply Forall2_lookup. intros j. rewrite Forall2_lookup in sh_lines0. specialize (sh_lines0 j).
    destruct (decide (i = j)) as [<-|Hij].
    + rewrite Hi, list_lookup_insert_eq by (by eapply lookup_lt_Some). constructor. exists n'. by rewrite lookup_insert_eq.
    + rewrite list_lookup_insert_ne by done. inversion sh_lines0 as [x y (nx & Ex & Hx) Hx1 Hy1|]; [|by constructor]. constructor.
      exists nx. split; [|done]. rewrite lookup_insert_ne; [done|]. intros <-. symmetry in Hx1. apply Hij. by eapply NoDup_lookup.
Qed.

Lemma shows_at nc h W ids a i : shows nc h W ids a -> (i < length (content a))%nat ->
  exists l c n, ids !! i = Some l /\ content a !! i = Some c /\ h !! l = Some n /\ line_ok nc n c.
Proof.
  intros [] Hi. destruct (lookup_lt_is_Some_2 (content a) i Hi) as [c Hc]. destruct (Forall2_lookup_r _ _ _ _ _ sh_lines0 Hc) as (l & Hl & n & E & H). by exists l, c, n.
Qed.

(** Fields of the window that do not matter to what it shows. *)
Lemma shows_win nc h W W' ids a : shows nc h W ids a -> Num_lines W' = Num_lines W -> Num_cols W' = Num_cols W -> first_line W' = first_line W ->
  line_array W' = line_array W -> LX W' = LX W -> LY W' = LY W -> Attrib W' = Attrib W -> shows nc h W' ids a.
Proof. intros [] H1 H2 H3 H4 H5 H6 H7. constructor; by rewrite ?H1, ?H2, ?H3, ?H4, ?H5, ?H6, ?H7. Qed.

(** The cursor moved. *)
Lemma shows_move nc h W W' ids a y x : shows nc h W ids a -> Num_lines W' = Num_lines W -> Num_cols W' = Num_cols W -> first_line W' = first_line W ->
  line_array W' = line_array W -> Attrib W' = Attrib W -> LX W' = Z.of_nat x -> LY W' = Z.of_nat y -> (x < nc)%nat -> (y < length (content a))%nat ->
  shows nc h W' ids (Screen (content a) y x (att a)).
Proof. intros [] H1 H2 H3 H4 H5 H6 H7 Hx Hy. constructor; cbn [content cy cx att]; by rewrite ?H1, ?H2, ?H3, ?H4, ?H5. Qed.

Lemma seg_off ids h h' p l q : off ids h h' -> (forall x, x ∈ l -> x ∉ ids) -> seg h p l q -> seg h' p l q.
Proof.
  intros Ho. revert p. induction l as [|m l IH]; intros p Hd; cbn [seg]; [done|]. intros [(n & E & H) Hs]. split.
  - exists n. rewrite Ho; [done|]. apply Hd. set_solver.
  - apply IH; [|done]. intros x Hx. apply Hd. set_solver.
Qed.

Section Ops.
Context (s : curse) (X : Z -> bytes -> curse -> Prop) (w : nat) (nc : nat).

Lemma wp_win W (Q : WINDOW -> curse -> Prop) h ws : ws !! w = Some W -> Q W (st s h ws) -> wp (win w) Q X (st s h ws).
Proof. intros E H. unfold win. apply wp_bind, wp_read. by eapply wp_of_opt. Qed.

Lemma wp_updw W f (Q : () -> curse -> Prop) h ws : ws !! w = Some W -> Q tt (st s h (<[w := f W]> ws)) -> wp (updw w f) Q X (st s h ws).
Proof. intros E H. unfold updw. apply wp_bind. eapply wp_win; [exact E|]. exact H. Qed.

(** What an operation on the window leaves. *)
Definition after_op (h : gmap nat sline) (ws : gmap nat WINDOW) (ids ids' : list nat) (a' : screen) (Q : () -> curse -> Prop) : Prop :=
  forall h' W', shows nc h' W' ids' a' -> off ids h h' -> Q tt (st s h' (<[w := W']> ws)).

Lemma wp_wmove h ws W ids a y x Q : ws !! w = Some W -> shows nc h W ids a -> 
  after_op h ws ids ids (if (y <? length (content a))%nat && (x <? nc)%nat then Screen (content a) y x (att a) else a) Q ->
  wp (wmove w (Z.of_nat y) (Z.of_nat x)) Q X (st s h ws).
Proof.
  intros E Hsh H. unfold wmove. apply wp_bind. eapply wp_win; [exact E|]. rewrite (sh_nl _ _ _ _ _ Hsh), (sh_nc _ _ _ _ _ Hsh).
  replace ((Z.of_nat y <? _) && _) with ((y <? length (content a))%nat && (x <? nc)%nat) by lia. destruct (_ && _) eqn:Eb.
  - eapply wp_updw; [exact E|]. apply H; [|apply off_refl]. eapply shows_move; [exact Hsh|try reflexivity..|lia|lia].
  - apply wp_ret. rewrite <- (insert_id ws w W E). by apply H.
Qed.

(** A line operation at the line of the cursor, found by a walk. *)
Lemma split_ids h W ids a : shows nc h W ids a -> exists A l B, ids = A ++ l :: B /\ length A = cy a /\ ids !! cy a = Some l.
Proof.
  intros Hsh. destruct (shows_at _ _ _ _ _ (cy a) Hsh (sh_cy _ _ _ _ _ Hsh)) as (l & c & n & Hl & _).
  exists (take (cy a) ids), l, (drop (S (cy a)) ids). split_and!; [by rewrite take_drop_middle| |done]. rewrite length_take. apply lookup_lt_Some in Hl. lia.
Qed.

Lemma wp_wclrtoeol h ws W ids a Q : ws !! w = Some W -> shows nc h W ids a ->
  after_op h ws ids ids (a_edit (a_clear (cx a)) a) Q -> wp (wclrtoeol w) Q X (st s h ws).
Proof.
  intros E Hsh H. unfold wclrtoeol. apply wp_bind. eapply wp_updw; [exact E|]. apply wp_bind. eapply wp_win; [by rewrite lookup_insert_eq|]. fld.
  rewrite (sh_first _ _ _ _ _ Hsh), (sh_x _ _ _ _ _ Hsh), (sh_y _ _ _ _ _ Hsh), Nat2Z.id. destruct (split_ids h W ids a Hsh) as (A & l & B & -> & HA & Hl).
  apply wp_bind. rewrite <- HA. eapply wp_walk; [apply (sh_seg _ _ _ _ _ Hsh)|].
  destruct (shows_at _ _ _ _ _ (cy a) Hsh (sh_cy _ _ _ _ _ Hsh)) as (l' & c & n & Hl' & Hc & En & Hok). rewrite Hl in Hl'. injection Hl' as <-.
  eapply wp_clear_line; [exact En|exact Hok|pose proof (sh_cx _ _ _ _ _ Hsh); lia|]. intros n' Hn' [Hnx Hpv].
  destruct (shows_line _ _ _ _ _ _ _ _ _ _ _ Hsh Hl Hc En Hn' Hnx Hpv) as [Hs1 Ho]. apply H; [|done].
  unfold a_edit. rewrite (alter_at _ _ _ c) by done. eapply shows_win; [exact Hs1|reflexivity..].
Qed.

Lemma wp_add_wrap h ws W0 W ids a x Q : ws !! w = Some W -> shows nc h W0 ids a -> Num_lines W = Num_lines W0 -> Num_cols W = Num_cols W0 ->
  first_line W = first_line W0 -> line_array W = line_array W0 -> Attrib W = Attrib W0 -> LY W = LY W0 -> LX W = Z.of_nat x ->
  after_op h ws ids ids (a_wrap nc x a) Q -> wp (add_wrap w) Q X (st s h ws).
Proof.
  intros E Hsh H1 H2 H3 H4 H5 H6 H7 H. unfold add_wrap. apply wp_bind. eapply wp_win; [exact E|]. apply wp_bind. rewrite H2, H7, (sh_nc _ _ _ _ _ Hsh).
  pose proof (sh_cy _ _ _ _ _ Hsh) as Hcy. pose proof (sh_cx _ _ _ _ _ Hsh) as Hcx. pose proof (sh_nl _ _ _ _ _ Hsh) as Hnl. pose proof (sh_y _ _ _ _ _ Hsh) as Hy.
  unfold a_wrap in H. destruct (Z.of_nat nc <=? Z.of_nat x) eqn:Ex; bsimp.
  - rewrite (proj2 (Nat.leb_le _ _)) in H by lia. eapply wp_updw; [exact E|]. eapply wp_updw; [by rewrite lookup_insert_eq|]. rewrite insert_insert_eq.
    apply H; [|apply off_refl]. eapply shows_move; [exact Hsh|try (fld; done)..|lia|lia]. fld. rewrite H1, H6, Hnl, Hy. case_if; lia.
  - rewrite (proj2 (Nat.leb_gt _ _)) in H by lia. apply wp_ret. eapply wp_updw; [exact E|]. apply H; [|apply off_refl].
    eapply shows_move; [exact Hsh|try (fld; done)..|lia|lia]. fld. by rewrite H6.
Qed.

Lemma wp_add_cell h ws W ids a c Q : ws !! w = Some W -> shows nc h W ids a ->
  (forall h', shows nc h' W ids (a_edit (a_put (cx a) (u8 c, u8 (att a))) a) -> off ids h h' -> Q tt (st s h' ws)) -> wp (add_cell w c) Q X (st s h ws).
Proof.
  intros E Hsh H. unfold add_cell. apply wp_bind. eapply wp_win; [exact E|]. apply wp_bind.
  destruct (shows_at _ _ _ _ _ (cy a) Hsh (sh_cy _ _ _ _ _ Hsh)) as (l & cs & n & Hl & Hc & En & Hok).
  assert (Ha : aget (line_array W) (LY W) = Some (Some l)).
  { rewrite (sh_y _ _ _ _ _ Hsh). unfold aget. replace (_ <? 0) with false by lia. rewrite Nat2Z.id.
    rewrite <- (lookup_take_lt _ (length ids)) by (eapply lookup_lt_Some, Hl). rewrite (sh_arr _ _ _ _ _ Hsh), list_lookup_fmap, Hl. done. }
  eapply wp_of_opt; [exact Ha|]. rewrite (sh_x _ _ _ _ _ Hsh), (sh_att _ _ _ _ _ Hsh).
  eapply wp_add_at; [exact En|exact Hok|apply (sh_cx _ _ _ _ _ Hsh)|]. intros n' Hn' [Hnx Hpv].
  destruct (shows_line _ _ _ _ _ _ _ _ _ _ _ Hsh Hl Hc En Hn' Hnx Hpv) as [Hs1 Ho]. apply H; [|done]. unfold a_edit. by rewrite (alter_at _ _ _ cs) by done.
Qed.

Context (hz : Z) (Hhz : aget (Booleans (tables s)) hz__ = Some hz).

(** A backspace at the left edge would leave the window. *)
Definition add_ok (a : screen) (c : Z) : Prop := c = 8 -> (0 < cx a)%nat.

Lemma wp_add_char h ws W ids a c Q : ws !! w = Some W -> shows nc h W ids a -> add_ok a c ->
  after_op h ws ids ids (a_char nc (truth hz) c a) Q -> wp (add_char w c) Q X (st s h ws).
Proof.
  intros E Hsh Hc H. unfold add_char. apply wp_bind. eapply wp_win; [exact E|]. pose proof (sh_cx _ _ _ _ _ Hsh) as Hcx. pose proof (sh_cy _ _ _ _ _ Hsh) as Hcy.
  rewrite (sh_x _ _ _ _ _ Hsh), (sh_y _ _ _ _ _ Hsh), (sh_nl _ _ _ _ _ Hsh), (sh_nc _ _ _ _ _ Hsh). replace (_ && _) with true by lia.
  apply wp_bind, wp_bind, wp_read. change (tables (st s h ws)) with (tables s). rewrite Hhz. apply wp_bind, wp_ret.
  unfold a_char in H. set (d := if (c =? 126) && truth hz then 64 else c) in *. assert (Hd : d = 8 -> (0 < cx a)%nat) by (unfold d; case_if; [done|exact Hc]).
  destruct (d =? 10) eqn:E10; bsimp.
  { rewrite E10. change (negb _ && _ && _) with false. apply wp_bind, wp_ret, wp_bind. eapply wp_wclrtoeol; [exact E|exact Hsh|]. intros h1 W1 Hs1 Ho1.
    eapply wp_updw; [by rewrite lookup_insert_eq|]. rewrite insert_insert_eq. eapply (wp_add_wrap h1 _ W1); [by rewrite lookup_insert_eq|exact Hs1|try (fld; done)..|].
    { fld. apply (sh_nc _ _ _ _ _ Hs1). } intros h2 W2 Hs2 Ho2. rewrite insert_insert_eq. apply H; [done|by eapply off_trans]. }
  destruct (d =? 13) eqn:E13; bsimp.
  { rewrite E13. change (negb _ && _ && _) with false. apply wp_bind, wp_ret. eapply wp_updw; [exact E|].
    eapply (wp_add_wrap h _ W _ ids a 0); [by rewrite lookup_insert_eq|exact Hsh|try (fld; done)..|]. intros h2 W2 Hs2 Ho2. rewrite insert_insert_eq. by apply H. }
  destruct (d =? 8) eqn:E8; bsimp.
  { rewrite E8. change (negb _ && _ && _) with false. apply wp_bind, wp_ret. eapply wp_updw; [exact E|].
    eapply (wp_add_wrap h _ W _ ids a (cx a - 1)); [by rewrite lookup_insert_eq|exact Hsh|try (fld; done)..|].
    { fld. rewrite (sh_x _ _ _ _ _ Hsh). specialize (Hd E8). lia. } intros h2 W2 Hs2 Ho2. rewrite insert_insert_eq. by apply H. }
  replace (negb _ && _ && _) with true by lia. apply wp_bind. eapply wp_add_cell; [exact E|exact Hsh|]. intros h1 Hs1 Ho1. eapply wp_updw; [exact E|].
  eapply (wp_add_wrap h1 _ W); [by rewrite lookup_insert_eq|exact Hs1|try (fld; done)..|].
  { fld. rewrite (sh_x _ _ _ _ _ Hsh). instantiate (1 := S (cx a)). lia. }
  intros h2 W2 Hs2 Ho2. rewrite insert_insert_eq. apply H; [done|by eapply off_trans].
Qed.

Lemma wp_iter_char k : forall h ws W ids a Q, ws !! w = Some W -> shows nc h W ids a ->
  after_op h ws ids ids (Nat.iter k (a_char nc (truth hz) 32) a) Q ->
  wp (Nat.iter k (fun k => bind (add_char w 32) (fun _ => k)) (ret tt)) Q X (st s h ws).
Proof.
  induction k as [|k IH]; intros h ws W ids a Q E Hsh H; cbn [Nat.iter].
  - apply wp_ret. rewrite <- (insert_id ws w W E). by apply H.
  - apply wp_bind. eapply wp_add_char; [exact E|exact Hsh|done|]. intros h1 W1 Hs1 Ho1. eapply IH; [by rewrite lookup_insert_eq|exact Hs1|].
    intros h2 W2 Hs2 Ho2. rewrite insert_insert_eq. apply H; [|by eapply off_trans]. by rewrite <- Nat.iter_succ_r in Hs2.
Qed.

Lemma wp_waddch h ws W ids a c Q : ws !! w = Some W -> shows nc h W ids a -> add_ok a c ->
  after_op h ws ids ids (a_add nc (truth hz) c a) Q -> wp (waddch w c) Q X (st s h ws).
Proof.
  intros E Hsh Hc H. unfold waddch. apply wp_bind. eapply wp_win; [exact E|]. unfold a_add in H. destruct (c =? 9); [|by eapply wp_add_char].
  apply wp_bind. replace (Z.to_nat (tab_shift (LX W))) with (8 - cx a mod 8)%nat.
  2:{ rewrite (sh_x _ _ _ _ _ Hsh). unfold tab_shift, cmod. rewrite Z.rem_mod_nonneg by lia.
      pose proof (Nat.div_mod_eq (cx a) 8). pose proof (Nat.mod_upper_bound (cx a) 8). set (m := (cx a mod 8)%nat) in *. set (q := (cx a / 8)%nat) in *.
      assert (Hm : (Z.of_nat (cx a) + 1) mod 8 = (Z.of_nat m + 1) mod 8).
      { replace (Z.of_nat (cx a) + 1) with (Z.of_nat m + 1 + Z.of_nat q * 8) by lia. by rewrite Z.mod_add by lia. }
      rewrite Hm. destruct (decide (m = 7%nat)) as [->|]; [done|]. rewrite Z.mod_small by lia. case_if; lia. }
  eapply wp_iter_char; [exact E|exact Hsh|]. intros h1 W1 Hs1 Ho1. eapply (wp_add_wrap h1 _ W1); [by rewrite lookup_insert_eq|exact Hs1|try done..|].
  { apply (sh_x _ _ _ _ _ Hs1). }
  intros h2 W2 Hs2 Ho2. rewrite insert_insert_eq. apply H; [|by eapply off_trans]. revert Hs2. set (b := Nat.iter _ _ a) in *. pose proof (sh_cx _ _ _ _ _ Hs1).
  unfold a_wrap. rewrite (proj2 (Nat.leb_gt _ _)) by done. by destruct b.
Qed.

(** *** Clearing lines *)

Definition links (h h' : gmap nat sline) : Prop :=
  forall l n, h !! l = Some n -> exists n', h' !! l = Some n' /\ next_screen n' = next_screen n /\ prev_screen n' = prev_screen n.

Lemma links_refl h : links h h.
Proof. intros l n E. by exists n. Qed.

Lemma links_trans h1 h2 h3 : links h1 h2 -> links h2 h3 -> links h1 h3.
Proof. intros H1 H2 l n E. destruct (H1 l n E) as (n2 & E2 & Hn & Hp). destruct (H2 l n2 E2) as (n3 & E3 & Hn3 & Hp3). exists n3. by rewrite Hn3, Hp3. Qed.

Lemma links_insert h l n n' : h !! l = Some n -> next_screen n' = next_screen n -> prev_screen n' = prev_screen n -> links h (<[l := n']> h).
Proof.
  intros E Hn Hp m x Ex. destruct (decide (l = m)) as [<-|Hm]; [|exists x; by rewrite lookup_insert_ne].
  rewrite E in Ex. injection Ex as <-. exists n'. by rewrite lookup_insert_eq.
Qed.

Lemma seg_links h h' p ids q : links h h' -> seg h p ids q -> seg h' p ids q.
Proof.
  intros Hl. revert p. induction ids as [|l ids IH]; intros p; cbn [seg]; [done|]. intros [(n & E & Hp & Hn) Hs]. split; [|by apply IH].
  destruct (Hl l n E) as (n' & E' & Hn' & Hp'). exists n'. by rewrite Hn', Hp'.
Qed.

Abbreviation holds h := (Forall2 (fun (l : nat) (c : list cell) => exists n, h !! l = Some n /\ line_ok nc n c)).

Lemma holds_off h h' ids l c : holds h l c -> off ids h h' -> (forall x, x ∈ l -> x ∉ ids) -> holds h' l c.
Proof.
  intros H Ho Hd. apply Forall2_same_length_lookup. apply Forall2_same_length_lookup in H as [Hl H]. split; [done|]. intros i x y Hx Hy.
  destruct (H i x y Hx Hy) as (n & E & Hn). exists n. split; [|done]. rewrite Ho; [done|]. eapply Hd, list_elem_of_lookup_2, Hx.
Qed.

Lemma wp_clear_lines B : forall h ws p rows (Q : () -> curse -> Prop), seg h p B None -> NoDup B -> holds h B rows ->
  (forall h', links h h' -> holds h' B (map (fun _ => []) rows) -> off B h h' -> Q tt (st s h' ws)) ->
  wp (clear_lines (length B) (head_or B None)) Q X (st s h ws).
Proof.
  induction B as [|l B IH]; intros h ws p rows Q Hs Hnd Hh H; cbn [length clear_lines head_or].
  { apply wp_ret. inversion Hh; subst. apply H; [apply links_refl|constructor|apply off_refl]. }
  inversion Hh as [|? c ? rows' (n & E & Hok) Hh']; subst. destruct Hs as [(n0 & E0 & _ & Hnx) Hs]. rewrite E in E0. injection E0 as <-.
  apply list.NoDup_cons in Hnd as [Hl Hnd]. apply wp_bind. eapply (wp_clear_line _ _ _ nc _ _ _ 0); [exact E|exact Hok|lia|]. intros n' Hn' [Hnn Hnp].
  apply wp_bind. eapply wp_at_line; [by rewrite lookup_insert_eq|]. rewrite Hnn, Hnx. pose proof (links_insert h l n n' E Hnn Hnp) as Hlk.
  eapply IH; [by eapply seg_links|done| |].
  - eapply holds_off; [exact Hh'|apply (off_insert [l]), list_elem_of_singleton; done|]. intros x Hx ->%list_elem_of_singleton. done.
  - intros h' Hlk' Hh2 Ho. apply H; [by eapply links_trans| |].
    + cbn [map]. constructor; [|done]. exists n'. rewrite (Ho l Hl), lookup_insert_eq. done.
    + intros x Hx. apply not_elem_of_cons in Hx as [Hx1 Hx2]. by rewrite (Ho x Hx2), lookup_insert_ne.
Qed.

(** The lines changed, and nothing else. *)
Lemma shows_holds h h' W ids a rows : shows nc h W ids a -> links h h' -> holds h' ids rows -> shows nc h' W ids (Screen rows (cy a) (cx a) (att a)).
Proof.
  intros [] Hl Hh. assert (Hlen : length rows = length (content a)) by (rewrite <- sh_len0; symmetry; by eapply Forall2_length).
  constructor; cbn [content cy cx att]; rewrite ?Hlen; try done. by eapply seg_links.
Qed.

Lemma wp_werase h ws W ids a Q : ws !! w = Some W -> shows nc h W ids a -> after_op h ws ids ids (a_erase a) Q -> wp (werase w) Q X (st s h ws).
Proof.
  intros E Hsh H. unfold werase. apply wp_bind. eapply wp_updw; [exact E|]. apply wp_bind. eapply wp_win; [by rewrite lookup_insert_eq|]. fld.
  pose proof Hsh as []. rewrite sh_first0, sh_nl0, Nat2Z.id, <- sh_len0. eapply wp_clear_lines; [exact sh_seg0|done|exact sh_lines0|].
  intros h' Hlk Hh Ho. apply H; [|done]. eapply shows_win; [by eapply shows_holds|by fld..].
Qed.

Lemma wp_wclrtobot h ws W ids a Q : ws !! w = Some W -> shows nc h W ids a -> after_op h ws ids ids (a_clrtobot a) Q -> wp (wclrtobot w) Q X (st s h ws).
Proof.
  intros E Hsh H. unfold wclrtobot. apply wp_bind. eapply wp_updw; [exact E|]. apply wp_bind. eapply wp_win; [by rewrite lookup_insert_eq|]. fld.
  rewrite (sh_first _ _ _ _ _ Hsh), (sh_x _ _ _ _ _ Hsh), (sh_y _ _ _ _ _ Hsh), (sh_nl _ _ _ _ _ Hsh), Nat2Z.id.
  destruct (split_ids h W ids a Hsh) as (A & l & B & -> & HA & Hl). apply wp_bind. rewrite <- HA at 1. eapply wp_walk; [apply (sh_seg _ _ _ _ _ Hsh)|].
  destruct (shows_at _ _ _ _ _ (cy a) Hsh (sh_cy _ _ _ _ _ Hsh)) as (l' & c & n & Hl' & Hc & En & Hok). rewrite Hl in Hl'. injection Hl' as <-.
  apply wp_bind. eapply wp_clear_line; [exact En|exact Hok|pose proof (sh_cx _ _ _ _ _ Hsh); lia|]. intros n' Hn' [Hnx Hpv].
  destruct (shows_line _ _ _ _ _ _ _ _ _ _ _ Hsh Hl Hc En Hn' Hnx Hpv) as [Hs1 Ho]. apply wp_bind. eapply wp_at_line; [by rewrite lookup_insert_eq|].
  pose proof (sh_seg _ _ _ _ _ Hs1) as [_ [(n2 & E2 & _ & Hn2) HsB]]%seg_app. rewrite lookup_insert_eq in E2. injection E2 as <-. rewrite Hn2.
  pose proof (sh_len _ _ _ _ _ Hsh) as Hlen. rewrite length_app in Hlen. cbn [length] in Hlen. replace (Z.to_nat (_ - _ - 1)) with (length B) by lia.
  pose proof (sh_nodup _ _ _ _ _ Hsh) as (HndA & Hdis & [HlB HndB]%list.NoDup_cons)%list.NoDup_app.
  pose proof (sh_lines _ _ _ _ _ Hs1) as (rA & rB & HhA & HhB & Hrows)%Forall2_app_inv_l. cbn [content] in Hrows.
  destruct rB as [|c1 rB]; [by inversion HhB|]. apply Forall2_cons_iff in HhB as [Hh1 HhB]. apply wp_bind.
  eapply wp_clear_lines; [exact HsB|done|exact HhB|]. intros h' Hlk HhB2 HoB.
  unfold wmove. apply wp_bind. eapply wp_win; [by rewrite lookup_insert_eq|]. fld. rewrite (sh_nl _ _ _ _ _ Hsh).
  rewrite (proj2 (Z.ltb_ge _ _)) by lia. apply wp_ret. apply H.
  2:{ eapply off_trans; [exact Ho|]. intros x Hx. apply HoB. intros Hin. apply Hx. set_solver. }
  assert (HlA : length A = length rA) by (by eapply Forall2_length).
  assert (Hcont : a_clrtobot a = Screen (rA ++ c1 :: map (fun _ => []) rB) (cy a) (cx a) (att a)).
  { unfold a_clrtobot. f_equal. rewrite (alter_at _ _ _ c) by (rewrite lookup_take_lt by lia; done). rewrite <- take_insert_lt by lia.
    rewrite <- (drop_insert_lt _ (S (cy a)) (cy a) (a_clear (cx a) c)) by lia. rewrite Hrows, <- HA, HlA.
    rewrite take_app_ge, Nat.sub_succ_l, Nat.sub_diag by lia. cbn [take]. rewrite take_0, <- app_assoc. f_equal.
    rewrite drop_app_ge, Nat.sub_succ_l, Nat.sub_diag by lia. done. }
  rewrite Hcont. apply (shows_win nc h' W); [|by fld..]. apply (shows_holds _ _ _ _ _ _ Hs1 Hlk).
  apply Forall2_app; [|constructor; [|exact HhB2]].
  - eapply holds_off; [exact HhA|exact HoB|]. intros x Hx HxB. apply (Hdis x Hx). set_solver.
  - destruct Hh1 as (m & Em & Hm). exists m. by rewrite (HoB l HlB).
Qed.

(** *** Inserting and deleting lines *)

(** The text of a line is in three fields. *)
Definition like (n n' : sline) : Prop := row n' = row n /\ attributes n' = attributes n /\ last_char n' = last_char n.
Definition alike (h h' : gmap nat sline) : Prop := forall l n, h !! l = Some n -> exists n', h' !! l = Some n' /\ like n n'.

Lemma line_ok_like n n' c : line_ok nc n c -> like n n' -> line_ok nc n' c.
Proof. intros [] (Hr & Ha & Hl). constructor; by rewrite ?Hr, ?Ha, ?Hl. Qed.

Lemma alike_refl h : alike h h.
Proof. intros l n E. by exists n. Qed.

Lemma alike_trans h1 h2 h3 : alike h1 h2 -> alike h2 h3 -> alike h1 h3.
Proof.
  intros H1 H2 l n E. destruct (H1 l n E) as (n2 & E2 & Ha & Hb & Hc). destruct (H2 l n2 E2) as (n3 & E3 & Ha3 & Hb3 & Hc3).
  exists n3. split; [done|]. unfold like. by rewrite Ha3, Hb3, Hc3.
Qed.

Lemma alike_insert h l n n' : h !! l = Some n -> like n n' -> alike h (<[l := n']> h).
Proof.
  intros E H m x Ex. destruct (decide (l = m)) as [<-|Hm]; [|exists x; by rewrite lookup_insert_ne].
  rewrite E in Ex. injection Ex as <-. exists n'. by rewrite lookup_insert_eq.
Qed.

Lemma holds_alike h h' ids rows : alike h h' -> holds h ids rows -> holds h' ids rows.
Proof.
  intros Ha H. eapply list.Forall2_impl; [exact H|]. intros l c (n & E & Hn). destruct (Ha l n E) as (n' & E' & Hl). exists n'. split; [done|by eapply line_ok_like].
Qed.

Lemma wp_relines ids : forall i h ws W p0 (Q : () -> curse -> Prop), ws !! w = Some W -> seg h p0 ids None -> (i + length ids <= length (line_array W))%nat ->
  Q tt (st s h (<[w := W <| line_array := take i (line_array W) ++ map Some ids ++ drop (i + length ids) (line_array W) |>]> ws)) ->
  wp (relink (length ids) w (Z.of_nat i) (head_or ids None)) Q X (st s h ws).
Proof.
  induction ids as [|l ids IH]; intros i h ws W p0 Q E Hs Hi H; cbn [length relink head_or map app] in *.
  { apply wp_ret. rewrite Nat.add_0_r, take_drop in H. replace (W <| line_array := line_array W |>) with W in H by (by destruct W). by rewrite insert_id in H. }
  destruct Hs as [(n & En & _ & Hn) Hs]. apply wp_bind. eapply wp_win; [exact E|]. apply wp_bind. eapply wp_of_opt; [apply aset_in; lia|]. rewrite Nat2Z.id.
  apply wp_bind. eapply wp_updw; [exact E|]. apply wp_bind. eapply wp_at_line; [exact En|]. rewrite Hn. replace (Z.of_nat i + 1) with (Z.of_nat (S i)) by lia.
  eapply IH; [by rewrite lookup_insert_eq|exact Hs|fld; rewrite length_insert; lia|]. rewrite insert_insert_eq. fld.
  rewrite (take_S_r _ _ (Some l)) by (apply list_lookup_insert_eq; lia). rewrite take_insert_ge, drop_insert_lt by lia.
  rewrite <- app_assoc. cbn [app]. rewrite Nat.add_succ_r in H. exact H.
Qed.

Lemma shows_room h W ids a : shows nc h W ids a -> (length ids <= length (line_array W))%nat.
Proof. intros []. apply (f_equal length) in sh_arr0. rewrite length_take, length_map in sh_arr0. lia. Qed.

(** The lines in their new order, and the array of them. *)
Lemma wp_reorder h0 h ws W0 W ids ids' a rows (Q : () -> curse -> Prop) : shows nc h0 W0 ids a -> ws !! w = Some W ->
  Num_lines W = Num_lines W0 -> Num_cols W = Num_cols W0 -> line_array W = line_array W0 -> LX W = LX W0 -> LY W = LY W0 -> Attrib W = Attrib W0 ->
  first_line W = head_or ids' None -> ids' ≡ₚ ids -> seg h None ids' None -> holds h ids' rows ->
  (forall W', shows nc h W' ids' (Screen rows (cy a) (cx a) (att a)) -> Q tt (st s h (<[w := W']> ws))) ->
  wp (relink (Z.to_nat (Num_lines W)) w 0 (first_line W)) Q X (st s h ws).
Proof.
  intros Hsh E H1 H2 H3 H4 H5 H6 Hf Hp Hs Hh H. pose proof (shows_room _ _ _ _ Hsh) as Hroom. pose proof (Permutation_length Hp) as Hlen. destruct Hsh.
  rewrite H1, sh_nl0, Nat2Z.id, <- sh_len0, <- Hlen, Hf. change 0 with (Z.of_nat 0).
  eapply wp_relines; [exact E|exact Hs|rewrite H3; lia|]. apply H. pose proof Hh as Hr%Forall2_length.
  constructor; cbn [content cy cx att]; fld; rewrite ?H1, ?H2, ?H4, ?H5, ?H6, <- ?Hr, ?Hlen, ?sh_len0; try done.
  - by rewrite Hp.
  - rewrite <- sh_len0, <- Hlen. apply (take_app_length' (map Some ids')). by rewrite length_map.
Qed.

(** The last line taken off the list. *)
Lemma wp_unlink_last (Q : () -> curse -> Prop) h ws I t nt : seg h None (I ++ [t]) None -> NoDup (I ++ [t]) -> h !! t = Some nt ->
  (forall h', seg h' None I None -> h' !! t = Some nt -> alike h h' -> off I h h' -> Q tt (st s h' ws)) ->
  wp (match prev_screen nt with Some _ => upd (prev_screen nt) (fun n => n <| next_screen := None |>) | None => ret tt end) Q X (st s h ws).
Proof.
  intros Hs Hnd Et H. apply seg_app in Hs as [HsI [(n & E & Hp & _) _]]. rewrite Et in E. injection E as <-. rewrite Hp.
  destruct I as [|i I] using rev_ind.
  { cbn [last_or]. apply wp_ret, H; [done|done|apply alike_refl|apply off_refl]. }
  clear IHI. assert (Hl : last_or (I ++ [i]) None = Some i) by (apply last_or_snoc). rewrite Hl.
  apply list.NoDup_app in Hnd as (HndI & Hdis & _). apply list.NoDup_app in HndI as (_ & HdI & _).
  assert (Hi : i ∉ I) by (intros Hi; apply (HdI i Hi); set_solver). assert (Hit : i <> t) by (intros ->; apply (Hdis t); set_solver).
  destruct (seg_lookup _ _ _ _ i HsI) as [ni Ei]; [set_solver|]. eapply wp_set_line; [exact Ei|]. apply H.
  - by eapply seg_next.
  - by rewrite lookup_insert_ne.
  - eapply alike_insert; [exact Ei|]. split_and!; by fld.
  - apply off_insert. set_solver.
Qed.

(** The line [t] put before [m]. *)
Lemma wp_link_before (Q : () -> curse -> Prop) h ws A m B t nt nm : seg h None (A ++ m :: B) None -> NoDup (A ++ m :: B) -> t ∉ A ++ m :: B ->
  h !! t = Some nt -> h !! m = Some nm ->
  (forall h', seg h' None (A ++ t :: m :: B) None -> alike h h' -> off (t :: A ++ m :: B) h h' -> Q tt (st s h' ws)) ->
  wp (bind (match prev_screen nm with Some _ => upd (prev_screen nm) (fun n => n <| next_screen := Some t |>) | None => ret tt end) (fun _ =>
      bind (node (Some m)) (fun n => bind (upd (Some t) (fun n1 => n1 <| prev_screen := prev_screen n |>)) (fun _ =>
      bind (upd (Some m) (fun n => n <| prev_screen := Some t |>)) (fun _ => bind (upd (Some t) (fun n1 => n1 <| next_screen := Some m |>)) (fun _ =>
      upd (Some m) (fun n => n <| changed := true |> <| scroll := DOWN |>)))))) ) Q X (st s h ws).
Proof.
  intros Hs Hnd Ht Et Em H. pose proof Hs as [HsA HsB]%seg_app. pose proof Hnd as (HndA & Hdis & [HmB HndB]%list.NoDup_cons)%list.NoDup_app.
  pose proof HsB as [(n & E & Hp & Hn) _]. rewrite Em in E. injection E as <-. rewrite Hp.
  assert (HtA : t ∉ A) by set_solver. assert (Htm : t <> m) by set_solver. assert (HtB : t ∉ B) by set_solver. assert (HmA : m ∉ A) by (intros Hm; apply (Hdis m Hm); set_solver).
  apply wp_bind. assert (Hpre : forall Q' : () -> curse -> Prop,
    (forall h1, seg h1 None A (Some t) -> alike h h1 -> off A h h1 -> Q' tt (st s h1 ws)) ->
    wp (match last_or A None with Some _ => upd (last_or A None) (fun n => n <| next_screen := Some t |>) | None => ret tt end) Q' X (st s h ws)).
  { intros Q' H'. destruct A as [|i A] using rev_ind; [apply wp_ret, H'; [done|apply alike_refl|apply off_refl]|]. clear IHA.
    assert (Hl : last_or (A ++ [i]) None = Some i) by (apply last_or_snoc). rewrite Hl.
    assert (Hi : i ∉ A) by (apply list.NoDup_app in HndA as (_ & HdA & _); intros Hi; apply (HdA i Hi); set_solver).
    destruct (seg_lookup _ _ _ _ i HsA) as [ni Ei]; [set_solver|]. eapply wp_set_line; [exact Ei|]. apply H'.
    - by eapply seg_next.
    - eapply alike_insert; [exact Ei|]. split_and!; by fld.
    - apply off_insert. set_solver. }
  apply Hpre. clear Hpre. intros h1 Hs1 Ha1 Ho1. assert (Em1 : h1 !! m = Some nm) by (by rewrite Ho1). assert (Et1 : h1 !! t = Some nt) by (by rewrite Ho1).
  apply wp_bind. eapply wp_at_line; [exact Em1|]. rewrite Hp. apply wp_bind. eapply wp_set_line; [exact Et1|]. apply wp_bind.
  eapply wp_set_line; [rewrite lookup_insert_ne by done; exact Em1|]. apply wp_bind. eapply wp_set_line; [rewrite lookup_insert_ne by done; by rewrite lookup_insert_eq|].
  eapply wp_set_line; [rewrite lookup_insert_ne by done; by rewrite lookup_insert_eq|]. apply H.
  - apply seg_app. cbn [head_or seg]. split_and!.
    + do 4 (apply seg_ne; [done|]). exact Hs1.
    + eexists. split; [rewrite lookup_insert_ne by done; by rewrite lookup_insert_eq|]. split; [by fld|by fld].
    + eexists. split; [by rewrite lookup_insert_eq|]. split; [by fld|]. by fld.
    + do 4 (apply seg_ne; [done|]). eapply seg_off; [exact Ho1| |apply HsB]. intros x Hx HxA. apply (Hdis x HxA). set_solver.
  - eapply alike_trans; [exact Ha1|].
    eapply alike_trans; [eapply (alike_insert h1 t); [exact Et1|]|eapply alike_trans; [eapply (alike_insert _ m); [rewrite lookup_insert_ne by done; exact Em1|]|
      eapply alike_trans; [eapply (alike_insert _ t); [rewrite lookup_insert_ne by done; by rewrite lookup_insert_eq|]|eapply (alike_insert _ m); [rewrite lookup_insert_ne by done; by rewrite lookup_insert_eq|]]]];
      split_and!; by fld.
  - intros x Hx. rewrite !lookup_insert_ne by set_solver. apply Ho1. set_solver.
Qed.

(** The line [t] put after the last one. *)
Lemma wp_link_last (Q : () -> curse -> Prop) h ws A z t nt nz : seg h None (A ++ [z]) None -> NoDup (A ++ [z]) -> t ∉ A ++ [z] ->
  h !! t = Some nt -> h !! z = Some nz ->
  (forall h', seg h' None (A ++ [z] ++ [t]) None -> alike h h' -> off (t :: A ++ [z]) h h' -> Q tt (st s h' ws)) ->
  wp (bind (upd (Some t) (fun n1 => n1 <| next_screen := next_screen nz |>)) (fun _ => bind (upd (Some z) (fun n => n <| next_screen := Some t |>)) (fun _ =>
      bind (upd (Some z) (fun n => n <| changed := true |>)) (fun _ => upd (Some t) (fun n1 => n1 <| prev_screen := Some z |>))))) Q X (st s h ws).
Proof.
  intros Hs Hnd Ht Et Ez H. pose proof Hs as [HsA [(n & E & Hp & Hn) _]]%seg_app. rewrite Ez in E. injection E as <-. cbn [head_or] in Hn. rewrite Hn.
  assert (Hz : z ∉ A) by (apply list.NoDup_app in Hnd as (_ & Hd & _); intros Hz; apply (Hd z Hz); set_solver). assert (Htz : t <> z) by set_solver. assert (HtA : t ∉ A) by set_solver.
  apply wp_bind. eapply wp_set_line; [exact Et|]. apply wp_bind. eapply wp_set_line; [rewrite lookup_insert_ne by done; exact Ez|]. apply wp_bind.
  eapply wp_set_line; [by rewrite lookup_insert_eq|]. eapply wp_set_line; [rewrite !lookup_insert_ne by done; by rewrite lookup_insert_eq|]. apply H.
  - apply seg_app. cbn [head_or seg app]. split_and!; [| | |done].
    + do 4 (apply seg_ne; [done|]). exact HsA.
    + eexists. split; [rewrite lookup_insert_ne by done; by rewrite lookup_insert_eq|]. split; by fld.
    + eexists. split; [by rewrite lookup_insert_eq|]. split; by fld.
  - eapply alike_trans; [eapply (alike_insert h t); [exact Et|]|eapply alike_trans; [eapply (alike_insert _ z); [rewrite lookup_insert_ne by done; exact Ez|]|
      eapply alike_trans; [eapply (alike_insert _ z); [by rewrite lookup_insert_eq|]|eapply (alike_insert _ t); [rewrite !lookup_insert_ne by done; by rewrite lookup_insert_eq|]]]];
      split_and!; by fld.
  - intros x Hx. by rewrite !lookup_insert_ne by set_solver.
Qed.

Lemma wp_insert_at h0 h ws W I t nt a rI Q : shows nc h0 W (I ++ [t]) a -> ws !! w = Some W -> seg h None I None -> h !! t = Some nt -> line_ok nc nt [] ->
  holds h I rI -> off (I ++ [t]) h0 h -> (I = [] -> seg h None [t] None) ->
  (forall ids', ids' ≡ₚ I ++ [t] -> after_op h0 ws (I ++ [t]) ids' (Screen (take (cy a) rI ++ [] :: drop (cy a) rI) (cy a) (cx a) (att a)) Q) ->
  wp (insert_at w W (Some t)) Q X (st s h ws).
Proof.
  intros Hsh E Hs Et Hok Hh Ho Hone H. pose proof Hsh as [Hnl Hnc Hlen Hnd Hfirst _ _ _ _ Hy _ _ Hcy]. rewrite length_app in Hlen. cbn [length] in Hlen.
  assert (HrI : length I = length rI) by (by eapply Forall2_length). pose proof Hnd as (HndI & Hd & _)%list.NoDup_app.
  assert (HtI : t ∉ I) by (intros Hx; apply (Hd t Hx); set_solver). assert (Hdone : forall h' ids' rows W', alike h h' -> off (I ++ [t]) h h' -> ids' ≡ₚ I ++ [t] ->
    seg h' None ids' None -> holds h ids' rows -> rows = take (cy a) rI ++ [] :: drop (cy a) rI -> W' = W <| first_line := head_or ids' None |> ->
    wp (bind (win w) (fun W => relink (Z.to_nat (Num_lines W)) w 0 (first_line W))) Q X (st s h' (<[w := W']> ws))).
  { intros h' ids' rows W' Ha' Ho' Hp Hs' Hh' -> ->. apply wp_bind. eapply wp_win; [by rewrite lookup_insert_eq|]. eapply (wp_reorder h0 h' _ W _ (I ++ [t]) ids'); [exact Hsh|by rewrite lookup_insert_eq|by fld..|exact Hp|exact Hs'|by eapply holds_alike|].
    intros W2 HW2. rewrite insert_insert_eq. apply (H ids' Hp); [exact HW2|by eapply off_trans]. }
  assert (Hsame : head_or (I ++ [t]) None = first_line W) by done. unfold insert_at. rewrite Hnl, Hy, Nat2Z.id, Hfirst.
  destruct (decide (cy a < length I)%nat) as [Hlt|Hge].
  - assert (HI : exists A m B, I = A ++ m :: B /\ length A = cy a).
    { destruct (lookup_lt_is_Some_2 I (cy a) Hlt) as [m Hm]. exists (take (cy a) I), m, (drop (S (cy a)) I). rewrite take_drop_middle by done. split; [done|]. rewrite length_take. lia. }
    destruct HI as (A & m & B & -> & HA). replace (head_or ((A ++ m :: B) ++ [t]) None) with (head_or (A ++ m :: B) None) by (by destruct A).
    apply wp_bind. rewrite <- HA at 1. eapply wp_walk_in; [exact Hs|]. destruct (seg_lookup _ _ _ _ m Hs) as [nm Em]; [set_solver|]. apply wp_bind. eapply wp_at_line; [exact Em|].
    rewrite !length_app in Hlen. cbn [length] in Hlen. replace (_ && _) with false by lia. replace (1 <? _) with true by lia. apply wp_bind.
    eapply wp_link_before; [exact Hs|exact HndI|exact HtI|exact Et|exact Em|]. intros h' Hs' Ha' Ho'. apply wp_bind.
    assert (Hp' : A ++ t :: m :: B ≡ₚ (A ++ m :: B) ++ [t]) by (rewrite <- app_assoc; cbn; solve_Permutation). 
    assert (Hh' : holds h (A ++ t :: m :: B) (take (cy a) rI ++ [] :: drop (cy a) rI)).
    { rewrite <- (take_drop (cy a) rI) in Hh. apply Forall2_app_inv in Hh as [H1 H2]; [|rewrite length_take, HA; lia]. apply Forall2_app; [done|]. constructor; [by exists nt|done]. }
    assert (Hoff : off ((A ++ m :: B) ++ [t]) h h') by (intros x Hx; apply Ho'; set_solver).
    destruct (Z.of_nat (cy a) =? 0) eqn:E0; bsimp.
    + eapply wp_updw; [exact E|]. eapply Hdone; [exact Ha'|exact Hoff|exact Hp'|exact Hs'|exact Hh'|done|]. destruct A; [done|cbn in HA; lia].
    + apply wp_ret. rewrite <- (insert_id ws w W E). eapply Hdone; [exact Ha'|exact Hoff|exact Hp'|exact Hs'|exact Hh'|done|].
      replace (head_or (A ++ t :: m :: B) None) with (first_line W); [by destruct W|]. rewrite Hfirst. destruct A; [cbn in HA; lia|done].
  - assert (Hc : cy a = length I) by lia. assert (Hrows : take (cy a) rI ++ [] :: drop (cy a) rI = rI ++ [[]]).
    { rewrite Hc, HrI, drop_all, take_ge by lia. done. }
    assert (HhT : holds h (I ++ [t]) (rI ++ [[]])) by (apply Forall2_app; [done|]; constructor; [by exists nt|constructor]).
    destruct I as [|z A] using rev_ind.
    + rewrite Hc. cbn [length app head_or walk_in] in *. apply wp_bind, wp_ret, wp_bind. eapply wp_at_line; [exact Et|]. rewrite <- Hlen. change (_ && _) with false. cbn [Z.of_nat].
      apply wp_bind. change (1 <? _) with false. apply wp_ret, wp_bind. change (Z.of_nat 0 =? 0) with true. eapply wp_updw; [exact E|].
      eapply (Hdone h [t]); [apply alike_refl|apply off_refl|done|by apply Hone|exact HhT|by rewrite Hrows|done].
    + clear IHA. replace (head_or ((A ++ [z]) ++ [t]) None) with (head_or (A ++ [z]) None) by (by destruct A). rewrite length_app in *. cbn [length] in *. apply wp_bind.
      eapply wp_walk_end; [exact Hs|lia|]. destruct (seg_lookup _ _ _ _ z Hs) as [nz Ez]; [set_solver|]. apply wp_bind. eapply wp_at_line; [exact Ez|].
      replace (_ && _) with true by lia. apply wp_bind. eapply wp_link_last; [exact Hs|exact HndI|exact HtI|exact Et|exact Ez|]. intros h' Hs' Ha' Ho'. rewrite app_assoc in Hs'.
      apply wp_bind. rewrite (proj2 (Z.eqb_neq _ _)) by lia. apply wp_ret. rewrite <- (insert_id ws w W E).
      eapply (Hdone h' ((A ++ [z]) ++ [t])); [exact Ha'| |done|exact Hs'|exact HhT|by rewrite Hrows|].
      * intros x Hx. apply Ho'. set_solver.
      * rewrite <- Hfirst. by destruct W.
Qed.

(** The last line, emptied, goes to the line of the cursor. *)
Lemma wp_winsertln h ws W ids a Q : ws !! w = Some W -> shows nc h W ids a -> (forall ids', ids' ≡ₚ ids -> after_op h ws ids ids' (a_insertln a) Q) ->
  wp (winsertln w) Q X (st s h ws).
Proof.
  intros E Hsh H. unfold winsertln. apply wp_bind. eapply wp_updw; [exact E|]. apply wp_bind. eapply wp_win; [by rewrite lookup_insert_eq|].
  set (W1 := W <| scroll_down := _ |> <| SCROLL_CLEAR := _ |>). pose proof (shows_win nc h W W1 ids a Hsh) as Hsh1. do 7 (specialize (Hsh1 ltac:(by unfold W1; fld))).
  clearbody W1. clear Hsh E. rename Hsh1 into Hsh. pose proof Hsh as [Hnl Hnc Hlen Hnd Hfirst Hseg Hlines _ _ Hy _ _ Hcy].
  destruct ids as [|t I] using rev_ind; [cbn in Hlen; lia|]. clear IHI. rewrite length_app in Hlen. cbn [length] in Hlen.
  apply Forall2_app_inv_l in Hlines as (rI & rt & HhI & Hht & Hcont). destruct rt as [|ct [|]]; [by inversion Hht| |by inversion Hht as [|? ? ? ? ? Hx]; inversion Hx].
  apply Forall2_cons_iff in Hht as [(nt & Et & Hok) _]. assert (HrI : length I = length rI) by (by eapply Forall2_length). assert (HtI : t ∉ I).
  { apply list.NoDup_app in Hnd as (_ & Hd & _). intros Hx. apply (Hd t Hx). set_solver. }
  rewrite Hfirst, Hnl, Nat2Z.id. apply wp_bind. eapply wp_walk_end; [exact Hseg|lia|]. apply wp_bind. eapply wp_at_line; [exact Et|]. apply wp_bind.
  eapply wp_unlink_last; [exact Hseg|exact Hnd|exact Et|]. intros h1 Hs1 Et1 Ha1 Ho1. apply wp_bind.
  eapply (wp_clear_line _ _ _ nc _ _ _ 0); [exact Et1|exact Hok|lia|]. intros n' Hn' [Hnx' Hpv']. apply wp_bind. eapply wp_set_line; [by rewrite lookup_insert_eq|]. rewrite insert_insert_eq.
  set (nt' := n' <| number := -1 |>). assert (Hok' : line_ok nc nt' []) by (eapply line_ok_like; [exact Hn'|]; split_and!; by unfold nt'; fld).
  assert (Hnt' : next_screen nt' = next_screen nt /\ prev_screen nt' = prev_screen nt) by (unfold nt'; fld; done). clearbody nt'. clear Hn'.
  set (h3 := <[t := nt']> h1). assert (Et3 : h3 !! t = Some nt') by apply lookup_insert_eq. assert (Hs3 : seg h3 None I None) by (by apply seg_ne).
  assert (Hh3 : holds h3 I rI). { eapply (holds_off h1); [by eapply holds_alike|apply (off_insert [t]); set_solver|]. set_solver. }
  assert (Ho3 : off (I ++ [t]) h h3). { intros x Hx. unfold h3. rewrite lookup_insert_ne by set_solver. apply Ho1. set_solver. } clearbody h3. clear Hs1 Et1 Ha1 Ho1 h1.
  assert (Htake : take (length (content a) - 1) (content a) = rI). { rewrite Hcont, length_app, Nat.add_sub. apply take_app_length. }
  assert (Hins : a_insertln a = Screen (take (cy a) rI ++ [] :: drop (cy a) rI) (cy a) (cx a) (att a)) by (unfold a_insertln; by rewrite Htake). rewrite Hins in H. clear Hins.
  eapply (wp_insert_at h h3 _ W1 I t nt' a rI); [exact Hsh|by rewrite lookup_insert_eq|exact Hs3|exact Et3|exact Hok'|exact Hh3|exact Ho3| |].
  { intros ->. cbn [app seg head_or] in *. destruct Hseg as [(n & En & Hp & Hn) _]. rewrite Et in En. injection En as <-. split; [|done]. exists nt'. destruct Hnt' as [-> ->]. done. }
  intros ids' Hp h' W' Hs' Ho'. rewrite insert_insert_eq. by apply (H ids').
Qed.

Lemma wp_unlink (Q : () -> curse -> Prop) h ws A m B nm : seg h None (A ++ m :: B) None -> NoDup (A ++ m :: B) -> h !! m = Some nm ->
  (forall h', seg h' None (A ++ B) None -> h' !! m = Some nm -> alike h h' -> off (A ++ B) h h' -> Q tt (st s h' ws)) -> wp (unlink nm) Q X (st s h ws).
Proof.
  intros Hs Hnd Em H. pose proof Hs as [HsA [(n & E & Hp & Hn) HsB]]%seg_app. rewrite Em in E. injection E as <-.
  pose proof Hnd as (HndA & Hdis & [HmB HndB]%list.NoDup_cons)%list.NoDup_app. assert (HmA : m ∉ A) by (intros Hm; apply (Hdis m Hm); set_solver).
  unfold unlink. rewrite Hp, Hn. apply wp_bind. assert (Hpre : forall Q' : () -> curse -> Prop,
    (forall h1, seg h1 None A (head_or B None) -> alike h h1 -> off A h h1 -> Q' tt (st s h1 ws)) ->
    wp (match last_or A None with Some _ => upd (last_or A None) (fun n => n <| next_screen := head_or B None |>) | None => ret tt end) Q' X (st s h ws)).
  { intros Q' H'. destruct A as [|i A] using rev_ind; [apply wp_ret, H'; [done|apply alike_refl|apply off_refl]|]. clear IHA. rewrite last_or_snoc.
    assert (Hi : i ∉ A) by (apply list.NoDup_app in HndA as (_ & HdA & _); intros Hi; apply (HdA i Hi); set_solver).
    destruct (seg_lookup _ _ _ _ i HsA) as [ni Ei]; [set_solver|]. eapply wp_set_line; [exact Ei|]. apply H'.
    - by eapply seg_next.
    - eapply alike_insert; [exact Ei|]. split_and!; by fld.
    - apply off_insert. set_solver. }
  apply Hpre. clear Hpre. intros h1 Hs1 Ha1 Ho1. assert (Em1 : h1 !! m = Some nm) by (by rewrite Ho1).
  assert (HsB1 : seg h1 (Some m) B None). { eapply seg_off; [exact Ho1| |exact HsB]. intros x Hx HxA. apply (Hdis x HxA). set_solver. }
  destruct B as [|b B]; cbn [head_or].
  { apply wp_ret, H; [by rewrite app_nil_r|done|done|by rewrite app_nil_r]. }
  destruct (seg_lookup _ _ _ _ b HsB1) as [nb Eb]; [set_solver|]. apply list.NoDup_cons in HndB as [HbB _].
  assert (Hbm : b <> m) by set_solver. assert (HbA : b ∉ A) by (intros Hb; apply (Hdis b Hb); set_solver). eapply wp_set_line; [exact Eb|].
  set (nb' := nb <| changed := _ |> <| scroll := _ |> <| prev_screen := _ |>). apply H.
  - apply seg_app. split; [by apply seg_ne|]. cbn [seg] in *. destruct HsB1 as [(n & En & _ & Hnn) HsB1]. rewrite Eb in En. injection En as <-. split; [|by apply seg_ne].
    exists nb'. rewrite lookup_insert_eq. split_and!; [done|by unfold nb'; fld|by unfold nb'; fld].
  - by rewrite lookup_insert_ne.
  - eapply alike_trans; [exact Ha1|]. eapply alike_insert; [exact Eb|]. split_and!; by unfold nb'; fld.
  - intros x Hx. rewrite lookup_insert_ne by set_solver. apply Ho1. set_solver.
Qed.

Lemma wp_link_after (Q : () -> curse -> Prop) h ws D z t nt : seg h None (D ++ [z]) None -> NoDup (D ++ [z]) -> t ∉ D ++ [z] -> h !! t = Some nt ->
  (forall h', seg h' None ((D ++ [z]) ++ [t]) None -> alike h h' -> off (t :: D ++ [z]) h h' -> Q tt (st s h' ws)) ->
  wp (link_last (Some z) (Some t)) Q X (st s h ws).
Proof.
  intros Hs Hnd Ht Et H. destruct (seg_lookup _ _ _ _ z Hs) as [nz Ez]; [set_solver|]. pose proof Hs as [HsD [(n & E & Hp & _) _]]%seg_app. rewrite Ez in E. injection E as <-.
  assert (Hz : z ∉ D) by (apply list.NoDup_app in Hnd as (_ & Hd & _); intros Hz; apply (Hd z Hz); set_solver). assert (Htz : t <> z) by set_solver. assert (HtD : t ∉ D) by set_solver.
  unfold link_last. apply wp_bind. eapply wp_set_line; [exact Ez|]. apply wp_bind. eapply wp_set_line; [rewrite lookup_insert_ne by done; exact Et|]. apply wp_bind.
  eapply wp_set_line; [rewrite lookup_insert_ne by done; by rewrite lookup_insert_eq|]. eapply wp_set_line; [rewrite lookup_insert_ne by done; by rewrite lookup_insert_eq|]. apply H.
  - rewrite <- app_assoc. apply seg_app. cbn [head_or seg app]. split_and!; [| | |done].
    + do 4 (apply seg_ne; [done|]). exact HsD.
    + eexists. split; [rewrite lookup_insert_ne by done; by rewrite lookup_insert_eq|]. split; by fld.
    + eexists. split; [by rewrite lookup_insert_eq|]. split; by fld.
  - eapply alike_trans; [eapply (alike_insert h z); [exact Ez|]|eapply alike_trans; [eapply (alike_insert _ t); [rewrite lookup_insert_ne by done; exact Et|]|
      eapply alike_trans; [eapply (alike_insert _ z); [rewrite lookup_insert_ne by done; by rewrite lookup_insert_eq|]|eapply (alike_insert _ t); [rewrite lookup_insert_ne by done; by rewrite lookup_insert_eq|]]]];
      split_and!; by fld.
  - intros x Hx. by rewrite !lookup_insert_ne by set_solver.
Qed.

(** The line of the cursor, emptied, goes to the end. *)
Lemma wp_wdeleteln h ws W ids a Q : ws !! w = Some W -> shows nc h W ids a -> (forall ids', ids' ≡ₚ ids -> after_op h ws ids ids' (a_deleteln a) Q) ->
  wp (wdeleteln w) Q X (st s h ws).
Proof.
  intros E Hsh H. destruct (split_ids h W ids a Hsh) as (A & m & B & -> & HA & Hm).
  destruct (shows_at _ _ _ _ _ (cy a) Hsh (sh_cy _ _ _ _ _ Hsh)) as (m' & c & nm & Hm' & Hc & Em & Hok). rewrite Hm in Hm'. injection Hm' as <-.
  pose proof Hsh as [Hnl _ Hlen Hnd Hfirst Hseg Hlines _ _ Hy _ _ Hcy]. rewrite length_app in Hlen. cbn [length] in Hlen.
  unfold wdeleteln. apply wp_bind. eapply wp_win; [exact E|]. rewrite Hnl. destruct (1 <? _) eqn:E1; bsimp.
  2:{ destruct A; [|cbn in *; lia]. destruct B; [|cbn in *; lia]. cbn [app length head_or] in *. rewrite Hfirst. eapply (wp_clear_line _ _ _ nc _ _ _ 0); [exact Em|exact Hok|lia|].
      intros n' Hn' [Hnx Hpv]. destruct (shows_line _ _ _ _ _ _ _ _ _ _ _ Hsh Hm Hc Em Hn' Hnx Hpv) as [Hs1 Ho]. rewrite <- (insert_id ws w W E). apply (H [m]); [done| |done].
      unfold a_deleteln. destruct (content a) as [|c0 [|]]; cbn in *; [lia| |lia]. rewrite <- HA in *. cbn in Hs1. exact Hs1. }
  apply wp_bind. eapply wp_updw; [exact E|]. apply wp_bind. eapply wp_win; [by rewrite lookup_insert_eq|].
  set (W1 := W <| scroll_up := _ |> <| SCROLL_CLEAR := _ |>). pose proof (shows_win nc h W W1 _ a Hsh) as Hsh1. do 7 (specialize (Hsh1 ltac:(by unfold W1; fld))).
  replace (LY W1) with (Z.of_nat (cy a)) by (by unfold W1; fld). replace (first_line W1) with (head_or (A ++ m :: B) None) by (by unfold W1; fld). rewrite Nat2Z.id. clearbody W1.
  apply wp_bind. rewrite <- HA at 1. eapply wp_walk; [exact Hseg|]. apply wp_bind. eapply wp_at_line; [exact Em|]. apply wp_bind.
  assert (Hnm : next_screen nm = head_or B None). { apply seg_app in Hseg as [_ [(n & En & _ & Hn) _]]. rewrite Em in En. by injection En as <-. }
  pose proof Hnd as (HndA & Hdis & [HmB HndB]%list.NoDup_cons)%list.NoDup_app. assert (HmA : m ∉ A) by (intros Hx; apply (Hdis m Hx); set_solver).
  assert (Hgo : forall W2, Num_lines W2 = Num_lines W1 -> Num_cols W2 = Num_cols W1 -> line_array W2 = line_array W1 -> LX W2 = LX W1 -> LY W2 = LY W1 -> Attrib W2 = Attrib W1 ->
    first_line W2 = head_or (A ++ B) None -> wp (bind (unlink nm) (fun _ => bind (clear_line (Some m) 0) (fun _ => bind (upd (Some m) (fun n => n <| number := -1 |>)) (fun _ =>
      bind (win w) (fun W => bind (last_line (Z.to_nat (Num_lines W)) (first_line W)) (fun last => bind (link_last last (Some m)) (fun _ =>
      relink (Z.to_nat (Num_lines W)) w 0 (first_line W)))))))) Q X (st s h (<[w := W2]> ws))).
  2:{ destruct (Z.of_nat (cy a) =? 0) eqn:E0; bsimp.
      - eapply wp_updw; [by rewrite lookup_insert_eq|]. rewrite insert_insert_eq. apply Hgo; try by fld. fld. rewrite Hnm. destruct A; [done|cbn in HA; lia].
      - apply wp_ret. apply Hgo; try done. rewrite (sh_first _ _ _ _ _ Hsh1). destruct A; [cbn in HA; lia|done]. }
  intros W2 G1 G2 G3 G4 G5 G6 G7. apply wp_bind. eapply wp_unlink; [exact Hseg|exact Hnd|exact Em|]. intros h1 Hs1 Em1 Ha1 Ho1. apply wp_bind.
  eapply (wp_clear_line _ _ _ nc _ _ _ 0); [exact Em1|exact Hok|lia|]. intros n' Hn' _. apply wp_bind. eapply wp_set_line; [by rewrite lookup_insert_eq|]. rewrite insert_insert_eq.
  set (nt := n' <| number := -1 |>). assert (Hok' : line_ok nc nt []) by (eapply line_ok_like; [exact Hn'|]; split_and!; by unfold nt; fld). clearbody nt.
  apply wp_bind. eapply wp_win; [by rewrite lookup_insert_eq|]. rewrite G7. assert (HAB : exists D z, A ++ B = D ++ [z]).
  { assert (Hne : A ++ B <> []) by (destruct A, B; cbn in *; (lia || done)). destruct (exists_last Hne) as (D & z & ->). by exists D, z. }
  destruct HAB as (D & z & HD). apply wp_bind. assert (HndAB : NoDup (A ++ B)). { apply list.NoDup_app. split_and!; [done| |done]. intros x Hx HxB. apply (Hdis x Hx). set_solver. }
  assert (Hs3 : seg (<[m := nt]> h1) None (D ++ [z]) None) by (rewrite <- HD; apply seg_ne; [set_solver|done]). rewrite HD.
  assert (HlD : (length D + 2 = length (content a))%nat). { apply (f_equal length) in HD. rewrite !length_app in HD. cbn in HD. lia. }
  eapply wp_last_line; [exact Hs3|rewrite G1, (sh_nl _ _ _ _ _ Hsh1), Nat2Z.id; lia|]. apply wp_bind.
  eapply wp_link_after; [exact Hs3|by rewrite <- HD|rewrite <- HD; set_solver|by rewrite lookup_insert_eq|]. intros h' Hs' Ha' Ho'.
  apply Forall2_app_inv_l in Hlines as (rA & rB & HhA & HhB & Hcont). destruct rB as [|c1 rB]; [by inversion HhB|].
  apply Forall2_cons_iff in HhB as [_ HhB]. assert (HlA : length A = length rA) by (by eapply Forall2_length).
  assert (Hrows : a_deleteln a = Screen ((rA ++ rB) ++ [[]]) (cy a) (cx a) (att a)).
  { unfold a_deleteln. rewrite Hcont, <- HA, HlA, take_app_length, <- app_assoc, drop_app_ge, Nat.sub_succ_l, Nat.sub_diag by lia. done. }
  assert (Hh3 : holds (<[m := nt]> h1) ((A ++ B) ++ [m]) ((rA ++ rB) ++ [[]])).
  { apply Forall2_app; [|constructor; [exists nt; by rewrite lookup_insert_eq|constructor]].
    eapply (holds_off h1 _ [m]); [by eapply holds_alike, Forall2_app|apply off_insert; set_solver|]. intros x Hx ->%list_elem_of_singleton. set_solver. }
  rewrite HD in Hh3. assert (Hp : (D ++ [z]) ++ [m] ≡ₚ A ++ m :: B) by (rewrite <- HD; solve_Permutation).
  rewrite <- HD. rewrite <- G7. eapply (wp_reorder h h' _ W1 W2 (A ++ m :: B) ((D ++ [z]) ++ [m])); [exact Hsh1|by rewrite lookup_insert_eq|done..| |exact Hp|exact Hs'|by eapply holds_alike|].
  { rewrite G7, HD. by destruct D. }
  intros W3 HW3. rewrite insert_insert_eq. rewrite Hrows in H. eapply H; [exact Hp|exact HW3|]. intros x Hx. rewrite Ho' by (rewrite <- HD; set_solver).
  rewrite lookup_insert_ne by set_solver. apply Ho1. set_solver.
Qed.
End Ops.

(** ** New windows *)

Section New.
Context (s : curse) (ws : gmap nat WINDOW) (X : Z -> bytes -> curse -> Prop) (nc : nat).

(** Nothing allocated from [f] on. *)
Definition free_from (f : nat) (h : gmap nat sline) : Prop := forall l, (f <= l)%nat -> h !! l = None.

(** The state with the next address. *)
Definition at_fresh (f : nat) (h : gmap nat sline) : curse := st (s <| fresh := f |>) h ws.

Lemma free_from_insert f h n : free_from f h -> free_from (S f) (<[f := n]> h).
Proof. intros Hf l Hl. rewrite lookup_insert_ne by lia. apply Hf. lia. Qed.

Lemma wp_Screenalloc f h (Q : option nat -> curse -> Prop) : (0 < nc)%nat ->
  (forall n, line_ok nc n [] -> next_screen n = None -> prev_screen n = None -> Q (Some f) (at_fresh (S f) (<[f := n]> h))) ->
  wp (Screenalloc (Z.of_nat nc)) Q X (at_fresh f h).
Proof.
  intros Hnc H. unfold Screenalloc. replace (_ <? 0) with false by lia. rewrite Nat2Z.id. apply wp_bind, wp_read, wp_bind, wp_modify, wp_ret.
  change (fresh (at_fresh f h)) with f. apply H; [|done|done]. destruct nc as [|k]; [lia|].
  constructor; cbn; rewrite ?length_app, ?length_replicate; cbn; try done; lia.
Qed.

Abbreviation holds_ h := (Forall2 (fun (l : nat) (c : list cell) => exists n, h !! l = Some n /\ line_ok nc n c)).

(** The lines allocated so far: their addresses, [i + 1] of them, the last one [t]. *)
Definition made (h0 h : gmap nat sline) (f : nat) (ids : list nat) (arr : list (option nat)) : Prop :=
  seg h None ids None /\ NoDup ids /\ holds_ h ids (replicate (length ids) []) /\ take (length ids) arr = map Some ids /\
  free_from f h /\ (forall l, l ∈ ids -> h0 !! l = None) /\ off ids h0 h.

Lemma made_next h0 h f ids t arr n nt : made h0 h f (ids ++ [t]) arr -> (length ids + 2 <= length arr)%nat -> free_from f h0 -> h !! t = Some nt -> line_ok nc n [] -> next_screen n = None ->
  made h0 (<[f := n <| number := Z.of_nat (length ids + 1) |> <| prev_screen := Some t |>]> (<[t := nt <| next_screen := Some f |>]> (<[f := n]> h))) (S f) ((ids ++ [t]) ++ [f])
    (<[(length ids + 1)%nat := Some f]> arr).
Proof.
  intros (Hs & Hnd & Hh & Ha & Hf & Hnew & Ho) Hlen Hf0 Et Hok Hnx. assert (Hfi : forall x, x ∈ ids ++ [t] -> x <> f).
  { intros x Hx ->. destruct (seg_lookup _ _ _ _ f Hs Hx) as [y Ey]. by rewrite Hf in Ey by lia. }
  assert (Htf : t <> f) by (apply Hfi; set_solver). assert (Hfn : f ∉ ids ++ [t]) by (intros Hx; by apply (Hfi f)).
  assert (Ht : t ∉ ids) by (apply list.NoDup_app in Hnd as (_ & Hd & _); intros Hx; apply (Hd t Hx); set_solver). rewrite length_app in *. cbn [length] in *.
  assert (Hs1 : seg (<[t := nt <| next_screen := Some f |>]> (<[f := n]> h)) None (ids ++ [t]) (Some f)).
  { eapply seg_next; [done|by rewrite lookup_insert_ne|]. by apply seg_ne. }
  split_and!.
  - apply seg_app. split; [apply seg_ne; [done|exact Hs1]|]. rewrite last_or_snoc. cbn [seg head_or]. split; [|done]. eexists. split; [by rewrite lookup_insert_eq|]. split; by fld.
  - apply list.NoDup_app. split_and!; [done|intros x Hx ->%list_elem_of_singleton; done|apply NoDup_singleton].
  - rewrite length_app, replicate_add. cbn [length replicate]. apply Forall2_app.
    + rewrite length_app. cbn [length]. eapply (holds_off nc (<[t := nt <| next_screen := Some f |>]> (<[f := n]> h)) _ [f]); [|apply off_insert; set_solver|intros x Hx ->%list_elem_of_singleton; done].
      eapply holds_alike; [eapply (alike_insert _ t nt); [by rewrite lookup_insert_ne|split_and!; by fld]|].
      eapply (holds_off nc h _ [f]); [exact Hh|apply off_insert; set_solver|intros x Hx ->%list_elem_of_singleton; done].
    + constructor; [|constructor]. eexists. split; [by rewrite lookup_insert_eq|]. eapply line_ok_like; [exact Hok|]. split_and!; by fld.
  - rewrite length_app, map_app, length_app. cbn [length map]. rewrite Nat.add_1_r. rewrite (take_S_r _ _ (Some f)) by (apply list_lookup_insert_eq; lia).
    rewrite take_insert_ge by lia. by rewrite Ha.
  - intros l Hl. rewrite lookup_insert_ne by lia. destruct (decide (t = l)) as [<-|]; [by rewrite Hf in Et by lia|].
    rewrite !lookup_insert_ne by lia. apply Hf. lia.
  - intros l [Hl| ->%list_elem_of_singleton]%elem_of_app; [by apply Hnew|]. by apply Hf0.
  - intros l Hl. rewrite !lookup_insert_ne by set_solver. apply Ho. set_solver.
Qed.

Lemma wp_more_lines k : forall f h0 h ids t arr (Q : option nat * list (option nat) -> curse -> Prop), (0 < nc)%nat -> free_from f h0 -> made h0 h f (ids ++ [t]) arr ->
  (length ids + 1 + k <= length arr)%nat ->
  (forall f' h' ids' t' arr', made h0 h' f' (ids' ++ [t']) arr' -> head (ids' ++ [t']) = head (ids ++ [t]) -> length ids' = (length ids + k)%nat -> (f <= f')%nat -> Q (Some t', arr') (at_fresh f' h')) ->
  wp (more_lines k (Z.of_nat nc) (Z.of_nat (length ids + 1)) (Some t) arr) Q X (at_fresh f h).
Proof.
  induction k as [|k IH]; intros f h0 h ids t arr Q Hnc Hf0 Hm Hlen H; cbn [more_lines].
  { apply wp_ret. eapply H; [exact Hm|done|lia|lia]. }
  apply wp_bind. apply wp_Screenalloc; [done|]. intros n Hok Hnx Hpv. pose proof Hm as (Hs & _ & _ & _ & Hf & _).
  destruct (seg_lookup _ _ _ _ t Hs) as [nt Et]; [set_solver|]. assert (Htf : t <> f) by (intros ->; by rewrite Hf in Et by lia).
  apply wp_bind. eapply wp_set_line; [by rewrite lookup_insert_ne|]. apply wp_bind. eapply wp_set_line; [rewrite lookup_insert_ne by done; by rewrite lookup_insert_eq|].
  apply wp_bind. eapply wp_of_opt; [apply aset_in; lia|]. rewrite Nat2Z.id.
  replace (Z.of_nat (length ids + 1) + 1) with (Z.of_nat (length (ids ++ [t]) + 1)) by (rewrite length_app; cbn; lia).
  eapply (IH (S f) h0); [done|intros l Hl; apply Hf0; lia|eapply made_next; [exact Hm|lia|exact Hf0|exact Et|exact Hok|exact Hnx]|rewrite length_insert, length_app; cbn; lia|].
  intros f' h' ids' t' arr' Hm' Hhd Hl' Hff. eapply H; [exact Hm'|rewrite Hhd; by destruct ids|rewrite length_app in Hl'; cbn in Hl'; lia|lia].
Qed.
End New.

Definition blank (nl : nat) : screen := Screen (replicate nl []) 0 0 0.

(** A new window is blank; its lines are new. *)
Lemma wp_newwin s X nc nl sr sc (Q : nat -> curse -> Prop) : (0 < nc)%nat -> (0 < nl)%nat -> Z.of_nat nl <= LINES s -> free_from (fresh s) (lines s) ->
  (forall w h W ids, shows nc h W ids (blank nl) -> off ids (lines s) h -> (forall l, l ∈ ids -> lines s !! l = None) -> (fresh s <= w)%nat ->
     Q w (st (s <| fresh := S w |>) h (<[w := W]> (windows s)))) ->
  wp (newwin (Z.of_nat nl) (Z.of_nat nc) sr sc) Q X s.
Proof.
  intros Hnc Hnl HL Hf H. set (f := fresh s) in *. set (h := lines s) in *. set (ws := windows s) in *. replace s with (at_fresh s ws f h) at 1 by (by destruct s).
  unfold newwin. apply wp_bind, wp_Screenalloc; [done|]. intros n Hok Hnx Hpv. apply wp_bind. eapply wp_set_line; [by rewrite lookup_insert_eq|]. rewrite insert_insert_eq.
  set (n1 := n <| number := 0 |>). apply wp_bind, wp_read. change (LINES (st _ _ ws)) with (LINES s). apply wp_bind.
  eapply wp_of_opt; [apply aset_in; rewrite length_replicate; lia|]. set (arr := <[_ := _]> _). apply wp_bind.
  assert (Hok1 : line_ok nc n1 []) by (eapply line_ok_like; [exact Hok|]; split_and!; by unfold n1; fld).
  assert (Hm : made nc h (<[f := n1]> h) (S f) ([] ++ [f]) arr).
  { split_and!; cbn [app length seg head_or map replicate].
    - split; [|done]. exists n1. rewrite lookup_insert_eq. split_and!; [done|by unfold n1; fld|by unfold n1; fld].
    - apply NoDup_singleton.
    - constructor; [|constructor]. exists n1. by rewrite lookup_insert_eq.
    - unfold arr. change (Z.to_nat 0) with 0%nat. destruct (Z.to_nat (LINES s)) as [|k] eqn:Ek; [lia|]. done.
    - by apply free_from_insert.
    - intros l ->%list_elem_of_singleton. by apply Hf.
    - apply off_insert. set_solver. }
  replace (Z.to_nat (Z.of_nat nl - 1)) with (nl - 1)%nat by lia. change 1 with (Z.of_nat (length (@nil nat) + 1)) at 1.
  eapply (wp_more_lines s ws X nc _ (S f) h _ []); [done|intros l Hl; apply Hf; lia|exact Hm|unfold arr; cbn [length]; rewrite length_insert, length_replicate; lia|].
  intros f' h' ids t arr' (Hs & Hnd & Hh & Ha & Hf' & Hnew & Ho) Hhd Hlen Hff. cbn [length] in Hlen. assert (Hlen' : length (ids ++ [t]) = nl) by (rewrite length_app; cbn; lia).
  assert (Ef : exists nf, h' !! f = Some nf /\ prev_screen nf = None).
  { destruct (ids ++ [t]) as [|x l] eqn:El; [by destruct ids|]. cbn [head app] in Hhd. injection Hhd as ->. destruct Hs as [(nf & E & Hp & _) _]. by exists nf. }
  destruct Ef as (nf & Ef & Hpf). apply wp_bind. eapply wp_set_line; [exact Ef|]. rewrite insert_id by (rewrite Ef; by destruct nf; cbn in *; subst).
  assert (Et : exists nt, h' !! t = Some nt /\ next_screen nt = None) by (apply seg_app in Hs as [_ [(nt & E & _ & Hn) _]]; by exists nt).
  destruct Et as (nt & Et & Hnt). apply wp_bind. eapply wp_set_line; [exact Et|]. rewrite insert_id by (rewrite Et; by destruct nt; cbn in *; subst).
  apply wp_bind, wp_read, wp_bind, wp_modify, wp_ret. change (fresh _) with f'. apply (H f' h' _ (ids ++ [t])); [|exact Ho|exact Hnew|lia].
  constructor; cbn; rewrite ?length_replicate; try done; try lia.
  - destruct (ids ++ [t]); [done|]. cbn [head app head_or] in *. congruence.
Qed.

(** ** Operations *)

Inductive wop :=
| Move (y x : nat)
| Add (c : Z)
| Addstr (string : bytes)
| Clrtoeol
| Clrtobot
| Erase
| Insertln
| Deleteln
| Standout
| Standend.

Definition do_op (w : nat) (o : wop) : C () :=
  match o with
  | Move y x => wmove w (Z.of_nat y) (Z.of_nat x)
  | Add c => waddch w c
  | Addstr string => waddstr w string
  | Clrtoeol => wclrtoeol w
  | Clrtobot => wclrtobot w
  | Erase => werase w
  | Insertln => winsertln w
  | Deleteln => wdeleteln w
  | Standout => wstandout w
  | Standend => wstandend w
  end.

Section Abstract.
Context (nc : nat) (hz sg : Z).

Definition a_addstr (string : bytes) (a : screen) : screen := fold_left (fun a c => a_add nc (truth hz) (sint 8 c) a) string a.

Definition a_op (o : wop) (a : screen) : screen :=
  match o with
  | Move y x => if (y <? length (content a))%nat && (x <? nc)%nat then Screen (content a) y x (att a) else a
  | Add c => a_add nc (truth hz) c a
  | Addstr string => a_addstr string a
  | Clrtoeol => a_edit (a_clear (cx a)) a
  | Clrtobot => a_clrtobot a
  | Erase => a_erase a
  | Insertln => a_insertln a
  | Deleteln => a_deleteln a
  | Standout => if sg <? 1 then Screen (content a) (cy a) (cx a) (Z.lor (att a) A_STANDOUT) else a
  | Standend => Screen (content a) (cy a) (cx a) (Z.land (att a) (Z.lnot A_STANDOUT))
  end.

(** A backspace only after a character of its line. *)
Fixpoint str_ok (string : bytes) (a : screen) : Prop :=
  match string with [] => True | c :: string => add_ok a (sint 8 c) /\ str_ok string (a_add nc (truth hz) (sint 8 c) a) end.
Definition op_ok (o : wop) (a : screen) : Prop := match o with Add c => add_ok a c | Addstr string => str_ok string a | _ => True end.
Fixpoint ops_ok (ops : list wop) (a : screen) : Prop := match ops with [] => True | o :: ops => op_ok o a /\ ops_ok ops (a_op o a) end.
Definition a_ops (ops : list wop) (a : screen) : screen := fold_left (fun a o => a_op o a) ops a.
End Abstract.

Fixpoint do_ops (w : nat) (ops : list wop) : C () := match ops with [] => ret tt | o :: ops => bind (do_op w o) (fun _ => do_ops w ops) end.

Section Runs.
Context (s : curse) (X : Z -> bytes -> curse -> Prop) (w : nat) (nc : nat) (hz sg : Z).
Context (Hhz : aget (Booleans (tables s)) hz__ = Some hz) (Hsg : aget (Numbers (tables s)) sg__ = Some sg).

Lemma wp_waddstr string : forall h ws W ids a Q, ws !! w = Some W -> shows nc h W ids a -> str_ok nc hz string a ->
  after_op s w nc h ws ids ids (a_addstr nc hz string a) Q -> wp (waddstr w string) Q X (st s h ws).
Proof.
  induction string as [|c string IH]; intros h ws W ids a Q E Hsh Hok H; cbn [waddstr].
  - apply wp_ret. rewrite <- (insert_id ws w W E). by apply H.
  - destruct Hok as [Hc Hok]. apply wp_bind. eapply wp_waddch; [exact Hhz|exact E|exact Hsh|exact Hc|]. intros h1 W1 Hs1 Ho1.
    eapply IH; [by rewrite lookup_insert_eq|exact Hs1|exact Hok|]. intros h2 W2 Hs2 Ho2. rewrite insert_insert_eq. apply H; [done|by eapply off_trans].
Qed.

Lemma shows_att h W W' ids a v : shows nc h W ids a -> W' = W <| Attrib := v |> -> shows nc h W' ids (Screen (content a) (cy a) (cx a) v).
Proof. intros [] ->. by constructor; cbn. Qed.

Lemma wp_do_op o h ws W ids a Q : ws !! w = Some W -> shows nc h W ids a -> op_ok nc hz o a ->
  (forall ids', ids' ≡ₚ ids -> after_op s w nc h ws ids ids' (a_op nc hz sg o a) Q) -> wp (do_op w o) Q X (st s h ws).
Proof.
  intros E Hsh Hok H. destruct o; cbn [do_op a_op op_ok] in *.
  - eapply wp_wmove; [eassumption..|by apply H].
  - eapply wp_waddch; [exact Hhz|exact E|exact Hsh|exact Hok|by apply H].
  - eapply wp_waddstr; [exact E|exact Hsh|exact Hok|by apply H].
  - eapply wp_wclrtoeol; [eassumption..|by apply H].
  - eapply wp_wclrtobot; [eassumption..|by apply H].
  - eapply wp_werase; [eassumption..|by apply H].
  - eapply wp_winsertln; [eassumption..|exact H].
  - eapply wp_wdeleteln; [eassumption..|exact H].
  - unfold wstandout. apply wp_bind, wp_read. change (tables (st s h ws)) with (tables s). rewrite Hsg. apply wp_bind, wp_ret. destruct (sg <? 1).
    + eapply wp_updw; [exact E|]. eapply (H ids); [done| |apply off_refl]. eapply shows_att; [exact Hsh|]. by rewrite (sh_att _ _ _ _ _ Hsh).
    + apply wp_ret. rewrite <- (insert_id ws w W E). by apply (H ids).
  - eapply wp_updw; [exact E|]. eapply (H ids); [done| |apply off_refl]. eapply shows_att; [exact Hsh|]. by rewrite (sh_att _ _ _ _ _ Hsh).
Qed.

Lemma off_perm ids ids' h h' : ids' ≡ₚ ids -> off ids' h h' -> off ids h h'.
Proof. intros Hp Ho l Hl. apply Ho. by rewrite Hp. Qed.

Lemma wp_do_ops ops : forall h ws W ids a Q, ws !! w = Some W -> shows nc h W ids a -> ops_ok nc hz sg ops a ->
  (forall ids', ids' ≡ₚ ids -> after_op s w nc h ws ids ids' (a_ops nc hz sg ops a) Q) -> wp (do_ops w ops) Q X (st s h ws).
Proof.
  induction ops as [|o ops IH]; intros h ws W ids a Q E Hsh Hok H; cbn [do_ops].
  - apply wp_ret. rewrite <- (insert_id ws w W E). by apply (H ids).
  - destruct Hok as [Ho Hok]. apply wp_bind. eapply wp_do_op; [exact E|exact Hsh|exact Ho|]. intros ids1 Hp1 h1 W1 Hs1 Ho1.
    eapply IH; [by rewrite lookup_insert_eq|exact Hs1|exact Hok|]. intros ids2 Hp2 h2 W2 Hs2 Ho2. rewrite insert_insert_eq.
    eapply (H ids2); [by rewrite Hp2|exact Hs2|]. eapply off_trans; [exact Ho1|by eapply off_perm].
Qed.
End Runs.

(** C27. A new window of newwin, within the LINES of the terminal, is made without undefined
    behaviour; it is blank with the cursor at its top left, its lines are linked in both
    directions and indexed by its array, they are new, and no other line or window is
    touched.  The state of the terminal is the same but for the next address. *)
Theorem newwin_blank s nc nl sr sc : (0 < nc)%nat -> (0 < nl)%nat -> Z.of_nat nl <= LINES s -> free_from (fresh s) (lines s) ->
  exists w h W ids, newwin (Z.of_nat nl) (Z.of_nat nc) sr sc s = SRet w (st (s <| fresh := S w |>) h (<[w := W]> (windows s))) /\
    shows nc h W ids (blank nl) /\ off ids (lines s) h /\ (forall l, l ∈ ids -> lines s !! l = None) /\ (fresh s <= w)%nat.
Proof.
  intros Hnc Hnl HL Hf. destruct (wp_run (newwin (Z.of_nat nl) (Z.of_nat nc) sr sc) (fun w s' => exists h W ids, s' = st (s <| fresh := S w |>) h (<[w := W]> (windows s)) /\
    shows nc h W ids (blank nl) /\ off ids (lines s) h /\ (forall l, l ∈ ids -> lines s !! l = None) /\ (fresh s <= w)%nat) s) as (w & s' & Hr & h & W & ids & -> & H).
  - apply wp_newwin; [done..|]. intros w h W ids H1 H2 H3 H4. by exists h, W, ids.
  - by exists w, h, W, ids.
Qed.


(** A terminal of 24 lines and 80 columns, before any window. *)
Definition terminal0 : curse :=
  Curse ∅ ∅ 0 24 80 no_info (replicate 27 0) (S754_zero false) 0 0 None (replicate 24 false) false 0 0 false 0 [0; 0] true [].

Lemma newwin_witness : exists w h W ids, newwin (Z.of_nat 3) (Z.of_nat 10) 0 0 terminal0 = SRet w (st (terminal0 <| fresh := S w |>) h (<[w := W]> (windows terminal0))) /\
  shows 10 h W ids (blank 3) /\ off ids (lines terminal0) h /\ (forall l, l ∈ ids -> lines terminal0 !! l = None) /\ (fresh terminal0 <= w)%nat.
Proof. apply newwin_blank; [lia|lia|by vm_compute|]. intros l _. apply lookup_empty. Defined.

(** A window of two lines of four columns, on two lines of the heap. *)
Definition empty_row : bytes := 0 :: replicate 3 32 ++ [0].
Definition window0 : WINDOW := Window 0 0 0 0 0 2 4 0 0 0 (Some 5%nat) [Some 5%nat; Some 6%nat].
Definition terminal1 : curse :=
  terminal0 <| lines := {[5%nat := Sline (Some 6%nat) None empty_row (replicate 5 0) 0 false 0 0; 6%nat := Sline None (Some 5%nat) empty_row (replicate 5 0) 0 false 0 1]} |>
            <| windows := {[7%nat := window0]} |>.

Lemma shows_window0 : shows 4 (lines terminal1) window0 [5%nat; 6%nat] (blank 2).
Proof.
  constructor; try reflexivity; try (cbn; lia).
  - repeat constructor; set_solver.
  - cbn [seg head_or]. split_and!; [| |done]; eexists; (split; [reflexivity|done]).
  - repeat constructor; (eexists; split; [reflexivity|]; by constructor; cbn; (lia || done)).
Qed.

Definition demo_ops : list wop := [Addstr (bs "abcde"); Add 8; Standout; Add 9; Insertln; Move 0 2; Add 65; Deleteln].


(** Text runs on to the next line and stays on the last one. *)
Example text_wraps : content (a_ops 4 0 0 [Addstr (bs "abcdefghijk")] (blank 2)) = [map (fun c => (c, 0)) (bs "abcd"); map (fun c => (c, 0)) (bs "ijkh")].
Proof. reflexivity. Qed.
End CurseScreen.
