(* ===== verification/CurseUpdate.v ===== *)
(** * new_curse: the update of the terminal

    The windows of CurseWindow are copied to a virtual screen ([wnoutrefresh]), and
    [doupdate] makes the terminal show it, going by the window curscr, which has what is
    on the terminal.  The output is the bytes written to it. *)

From S2P Require Import Prelude Monad CurseTerm CurseInfo CurseWindow.
From stdpp Require Import base list gmap numbers.
From Stdlib Require Import ZArith Lia ZifyBool SpecFloat.

Open Scope Z_scope.

Module CurseUpdate.

Import CurseInfo CurseWindow.
Local Open Scope ind_scope.

(** ** Capabilities *)

Definition xs__ : Z := 3.
Definition ms__ : Z := 14.
Definition cs__ : Z := 3.
Definition cl__ : Z := 5.
Definition ce__ : Z := 6.
Definition cm__ : Z := 10.
Definition dc__ : Z := 21.
Definition dl__ : Z := 22.
Definition im__ : Z := 31.
Definition so__ : Z := 35.
Definition me__ : Z := 39.
Definition ei__ : Z := 42.
Definition se__ : Z := 43.
Definition ic__ : Z := 52.
Definition al__ : Z := 53.
Definition pc__ : Z := 104.
Definition sr__ : Z := 130.
Definition sa__ : Z := 131.
Definition A_NC_BIG5 : Z := 256.
Definition highbitset (a : Z) : bool := truth (Z.land a 128).

Definition has (o : option bytes) : bool := match o with Some _ => true | None => false end.
Definition cap (k : Z) : C (option bytes) := let! o := gets (fun s => aget (String_table (tables s)) k) in of_opt o.
Definition flag (k : Z) : C bool := let! o := gets (fun s => aget (Booleans (tables s)) k) in let! v := of_opt o in ret (truth v).

(** ** Output *)

Definition putchar (c : Z) : C () := modify (fun s => s <| output := output s ++ [u8 c] |>).

Definition String_Out (string : option bytes) (p_list : option (list Z)) : C () :=
  let! s := get in
  let! pc := cap pc__ in
  match CurseTerm.Info_Out (chars_per_millisecond s) pc string p_list (variable s) with
  | (out, Ret vs) => modify (fun s => s <| output := output s ++ out |> <| variable := vs |>)
  | _ => mundef
  end.

(** [String_Out(String_table[k], NULL, 0)] *)
Definition out_cap (k : Z) : C () := let! c := cap k in String_Out c None.

(** [attributes_set[0] = v; String_Out(String_table[sa__], attributes_set, 1)] *)
Definition out_sa (v : Z) : C () :=
  let! a := gets attributes_set in
  let! a := of_opt (aset a 0 v) in
  sets attributes_set a ;;
  let! c := cap sa__ in
  String_Out c (Some (take 1 a)).

Definition attribute_on : C () :=
  let! sa := cap sa__ in
  if has sa then out_sa 1 else let! so := cap so__ in if has so then out_cap so__ else ret tt.

Definition attribute_off : C () :=
  let! me := cap me__ in
  if has me then out_cap me__
  else
    let! sa := cap sa__ in
    if has sa then out_sa 0 else let! se := cap se__ in if has se then out_cap se__ else ret tt.

Definition Position (window : nat) (row col : Z) : C () :=
  let! W := win window in
  let pos_row := row + SR W in
  let pos_column := col + SC W in
  let! y := gets Curr_y in
  let! x := gets Curr_x in
  if negb (pos_row =? y) || negb (pos_column =? x) then
    let! cm := cap cm__ in
    (if has cm then
       String_Out cm (Some [pos_column; pos_row]) ;;
       let! stand := gets STAND in
       let! ms := flag ms__ in
       if stand && negb ms then attribute_on else ret tt
     else ret tt) ;;
    sets Curr_x pos_column ;;
    sets Curr_y pos_row
  else ret tt.

(** [p->row[j]] and [p->attributes[j]] *)
Definition chr (p : option nat) (j : Z) : C Z := let! n := node p in of_opt (aget (row n) j).
Definition atr (p : option nat) (j : Z) : C Z := let! n := node p in of_opt (aget (attributes n) j).

(** [p->row[j] = c] *)
Definition put_chr (p : option nat) (j c : Z) : C () :=
  let! n := node p in
  let! r := of_opt (aset (row n) j c) in
  upd p (fun n => n <| row := r |>).

(** [while (c(j)) j++;] *)
Fixpoint scan (fuel : nat) (c : Z -> C bool) (j : Z) : C Z :=
  let! b := c j in
  if b then match fuel with O => mundef | S fuel => scan fuel c (j + 1) end else ret j.

(** [for (k = 0; k < n; k++) body(j + k);] *)
Fixpoint times (n : nat) (body : Z -> C ()) (j : Z) : C () :=
  match n with
  | O => ret tt
  | S n => body j ;; times n body (j + 1)
  end.

(** [a && b], [b] evaluated only when [a] holds *)
Definition and_ (a b : C bool) : C bool := let! x := a in if x then b else ret false.

(** The rounds of a loop over a line: no more than its block has places. *)
Definition places (p : option nat) : C nat := let! n := node p in ret (length (row n)).

(** Standout ended. *)
Definition stand_off (w : nat) (row col : Z) : C () := sets STAND false ;; Position w row col ;; attribute_off.

(** [line] and [attrib] of the code are those of the line [p]. *)
Definition Char_out (newc newatt : Z) (p : option nat) (offset : Z) : C () :=
  let! stand := gets STAND in
  (if truth newatt && negb stand then sets STAND true ;; attribute_on
   else if stand && negb (truth newatt) then sets STAND false ;; attribute_off
   else ret tt) ;;
  let! stand := gets STAND in
  (if truth newatt && stand then let! xs := flag xs__ in if xs then attribute_on else ret tt else ret tt) ;;
  let! s := get in
  (if negb ((LINES s - 1 <=? Curr_y s) && (COLS s - 1 <=? Curr_x s)) then putchar newc ;; put_cell p offset newc newatt else ret tt) ;;
  modify (fun s => s <| Curr_x := Curr_x s + 1 |>).

Fixpoint del_cells (fuel : nat) (p : option nat) (one maxlen : Z) : C () :=
  let! c := chr p one in
  if truth c && (one <? maxlen) then
    match fuel with
    | O => mundef
    | S fuel =>
        let! c := chr p (one + 1) in
        let! a := atr p (one + 1) in
        put_cell p one c a ;;
        del_cells fuel p (one + 1) maxlen
    end
  else ret tt.

Definition Char_del (p : option nat) (offset maxlen : Z) : C () :=
  let! k := places p in
  del_cells k p offset maxlen ;;
  out_cap dc__.

(** The cells before [two], down to [offset], moved one to the right. *)
Fixpoint ins_cells (n : nat) (p : option nat) (two : Z) : C () :=
  match n with
  | O => ret tt
  | S n =>
      let! c := chr p (two - 1) in
      let! a := atr p (two - 1) in
      put_cell p two c a ;;
      ins_cells n p (two - 1)
  end.

Definition Char_ins (p : option nat) (newc newatt offset maxlen : Z) : C () :=
  let! k := places p in
  let! one := scan k (fun one => let! c := chr p one in ret (truth c && (one <? maxlen - 2))) 0 in
  ins_cells (Z.to_nat (one + 1 - offset)) p (one + 1) ;;
  put_cell p offset newc newatt ;;
  Char_out newc newatt p offset.

Definition CLEAR_TO_EOL (w : nat) (row column : Z) : C () :=
  let! W := win w in
  let! c := gets curscr in
  let! Cw := win c in
  let! tmp1 := walk_in (Z.to_nat (SR W + row)) (first_line Cw) in
  blank_cells (Z.to_nat (Num_cols W - column)) tmp1 column ;;
  put_chr tmp1 column 0 ;;
  upd tmp1 (fun n => n <| last_char := column |>) ;;
  let! cols := gets COLS in
  if column <? cols then
    let! stand := gets STAND in
    (if stand then stand_off w row column else ret tt) ;;
    let! ce := cap ce__ in
    if has ce then out_cap ce__
    else times (Z.to_nat (Num_cols W - column)) (fun _ => putchar 32) column ;; sets Curr_x (Z.max column (Num_cols W))
  else ret tt.

(** ** Comparing lines *)

(** Two lines the same at two places. *)
Definition same (p : option nat) (i : Z) (q : option nat) (j : Z) : C bool :=
  let! a := chr p i in
  let! b := chr q j in
  if a =? b then let! a := atr p i in let! b := atr q j in ret (a =? b) else ret false.

Definition nonzero (p : option nat) (i : Z) : C bool := let! c := chr p i in ret (truth c).
Definition negb_ (m : C bool) : C bool := let! b := m in ret (negb b).

Definition Comp_line (line1 line2 : option nat) : C Z :=
  let! n1 := node line1 in
  let! n2 := node line2 in
  if negb (last_char n1 =? last_char n2) then ret 2
  else
    let! i := scan (length (row n1)) (fun i => and_ (nonzero line1 i) (and_ (nonzero line2 i) (same line1 i line2 i))) 0 in
    let! c1 := chr line1 i in
    let! c2 := chr line2 i in
    if (i + 1 =? 1) && (c1 =? 0) && (c2 =? 0) then ret 0 else if (c1 =? 0) && (c2 =? 0) then ret (-1) else ret 1.

(** ** Scrolling *)

(** A line taken off its list. *)
Definition take_off (n : sline) : C () :=
  (match prev_screen n with Some _ => upd (prev_screen n) (fun x => x <| next_screen := next_screen n |>) | None => ret tt end) ;;
  match next_screen n with Some _ => upd (next_screen n) (fun x => x <| prev_screen := prev_screen n |>) | None => ret tt end.

(** The line in it blanked. *)
Definition retire (p : option nat) : C () := clear_line p 0 ;; upd p (fun n => n <| number := -1 |>).

Definition Insert_line (row end_row : Z) (w : nat) : C (option nat) :=
  let! W := win w in
  let! c := gets curscr in
  let! Cw := win c in
  let! top_of_win := walk (Z.to_nat (SR W)) (first_line Cw) in
  (if end_row + SR W =? 0 then let! f := node (first_line Cw) in updw c (fun Cw => Cw <| first_line := next_screen f |>) else ret tt) ;;
  let! tmp1 := walk_in (Z.to_nat end_row) top_of_win in
  let! n := node tmp1 in
  take_off n ;;
  retire tmp1 ;;
  let! Cw := win c in
  let! top_of_win := walk_in (Z.to_nat (SR W)) (first_line Cw) in
  let! tmp := walk (Z.to_nat row) top_of_win in
  let! n := node tmp in
  (match prev_screen n with
   | Some _ => if 0 <? Num_lines W then upd (prev_screen n) (fun x => x <| next_screen := tmp1 |>) else ret tt
   | None => ret tt
   end) ;;
  let! n := node tmp in
  upd tmp1 (fun x => x <| prev_screen := prev_screen n |>) ;;
  upd tmp (fun x => x <| prev_screen := tmp1 |>) ;;
  upd tmp1 (fun x => x <| next_screen := tmp |>) ;;
  (if row + SR W =? 0 then updw c (fun Cw => Cw <| first_line := tmp1 |>) else ret tt) ;;
  let! n1 := node tmp1 in
  let r := match next_screen n1 with Some _ => next_screen n1 | None => tmp1 end in
  let! cs := cap cs__ in
  (if negb (has cs) && (end_row <? Num_lines W) then Position w (SR W + end_row) 0 ;; out_cap dl__ else ret tt) ;;
  Position w (SR W + row) 0 ;;
  let! al := cap al__ in
  (if has al then out_cap al__ else out_cap sr__) ;;
  let! Cw := win c in
  let! _ := walk_in (Z.to_nat (SR W)) (first_line Cw) in
  ret r.

Definition Delete_line (row end_row : Z) (w : nat) : C (option nat) :=
  let! W := win w in
  let! c := gets curscr in
  let! Cw := win c in
  let! top_of_win := walk (Z.to_nat (SR W)) (first_line Cw) in
  (if row + SR W =? 0 then let! f := node top_of_win in updw c (fun Cw => Cw <| first_line := next_screen f |>) else ret tt) ;;
  let! tmp1 := walk (Z.to_nat row) top_of_win in
  let! n := node tmp1 in
  take_off n ;;
  let! n := node tmp1 in
  let tmp2 := next_screen n in
  retire tmp1 ;;
  let! Cw := win c in
  let! top_of_win := walk_in (Z.to_nat (SR W)) (first_line Cw) in
  let! tmp := walk_in (Z.to_nat end_row) top_of_win in
  upd tmp1 (fun x => x <| next_screen := tmp |>) ;;
  let! n := node tmp in
  upd tmp1 (fun x => x <| prev_screen := prev_screen n |>) ;;
  (match prev_screen n with Some _ => upd (prev_screen n) (fun x => x <| next_screen := tmp1 |>) | None => ret tt end) ;;
  upd tmp (fun x => x <| prev_screen := tmp1 |>) ;;
  Position w (SR W + row) 0 ;;
  out_cap dl__ ;;
  let! cs := cap cs__ in
  let! dl := cap dl__ in
  (if negb (has cs) && (end_row <? Num_lines W) then Position w (SR W + end_row) 0 ;; out_cap al__
   else if has cs && negb (has dl) then Position w (SR W + end_row) 0 ;; putchar 10
   else ret tt) ;;
  let tmp2 := if row =? Num_lines W - 1 then tmp1 else tmp2 in
  (if row + SR W =? 0 then updw c (fun Cw => Cw <| first_line := tmp2 |>) else ret tt) ;;
  ret tmp2.

(** ** Characters deleted and inserted *)

(** [while ((old_lin[offset] != '\0') && (offset < COLS)) offset++; pointer_old->last_char = offset;] *)
Definition set_end (p : option nat) (offset : Z) : C () :=
  let! cols := gets COLS in
  let! k := places p in
  let! offset := scan k (fun i => let! c := chr p i in ret (truth c && (i <? cols))) offset in
  upd p (fun n => n <| last_char := offset |>).

(** How far the lines agree from two places on, up to ten. *)
Definition common (old : option nat) (end_old : Z) (new : option nat) (end_new : Z) : C Z :=
  let! k := places old in
  scan k (fun k => and_ (same old (end_old + k) new (end_new + k)) (and_ (nonzero new (end_new + k)) (and_ (nonzero old (end_old + k)) (ret (k <? 10))))) 0.

Definition check_delete (w : nat) (line offset : Z) (new old : option nat) : C bool :=
  let! W := win w in
  let! fuel := places old in
  let end_new := offset in
  let! end_old := scan fuel (fun e => and_ (negb_ (same new end_new old e)) (and_ (nonzero old e) (nonzero new e))) offset in
  let! more := nonzero old end_old in
  if more then
    let! k := common old end_old new end_new in
    let! c := chr new (end_new + k) in
    if (8 <? k) || ((c =? 0) && negb (k =? 0)) then
      (if c =? 0 then Position w line (end_new + k) ;; CLEAR_TO_EOL w line (end_new + k) else ret tt) ;;
      Position w line offset ;;
      times (Z.to_nat (end_old - offset)) (fun _ => Char_del old offset (Num_cols W)) offset ;;
      set_end old offset ;;
      ret true
    else ret false
  else ret false.

Definition check_insert (w : nat) (line offset : Z) (new old : option nat) : C bool :=
  let! W := win w in
  let! fuel := places new in
  let end_old := offset in
  let! end_new := scan fuel (fun e => and_ (negb_ (same new e old end_old)) (and_ (nonzero new e) (nonzero old e))) offset in
  let! more := nonzero new end_new in
  if more then
    let! k := common old end_old new end_new in
    let! old_off := scan fuel (fun i => and_ (nonzero old i) (and_ (nonzero new i) (same old i new i))) end_new in
    let! eq := same old old_off new old_off in
    let! c := chr new (end_new + k) in
    if negb eq && ((8 <? k) || ((c =? 0) && negb (k =? 0))) then
      Position w line offset ;;
      let! ic := cap ic__ in
      let insert := negb (has ic) in
      (if insert then out_cap im__ else ret tt) ;;
      times (Z.to_nat (end_new - offset)) (fun k =>
        (if negb insert then out_cap ic__ else ret tt) ;;
        let! c := chr new k in
        let! a := atr new k in
        Char_ins old c a k (Num_cols W)) offset ;;
      (if insert then out_cap ei__ else ret tt) ;;
      set_end old offset ;;
      ret true
    else ret false
  else ret false.

(** ** doupdate *)

(** The terminal cleared and written again. *)
Definition clear_terminal (w : nat) : C () :=
  let! W := win w in
  let! cl := cap cl__ in
  if has cl then out_cap cl__
  else
    let! n := gets LINES in
    let! c := gets curscr in
    times (Z.to_nat n) (fun from_top =>
      Position c from_top 0 ;;
      let! ce := cap ce__ in
      if has ce then out_cap ce__ else times (Z.to_nat (Num_cols W)) (fun _ => putchar 32) 0) 0.

(** [for (j = ...; (q->row[j] != '\0') && (j < cols); j++) Char_out(q->row[j], q->attributes[j], p->row, p->attributes, j);] *)
Fixpoint write_line (fuel : nat) (q p : option nat) (cols j : Z) : C Z :=
  let! c := chr q j in
  if truth c && (j <? cols) then
    match fuel with
    | O => mundef
    | S fuel =>
        let! a := atr q j in
        Char_out c a p j ;;
        write_line fuel q p cols (j + 1)
    end
  else ret j.

Fixpoint repaint_lines (n : nat) (from_top : Z) (p : option nat) : C () :=
  match n with
  | O => ret tt
  | S n =>
      let! c := gets curscr in
      let! Cw := win c in
      Position c from_top 0 ;;
      let! k := places p in
      let! j := write_line k p p (Num_cols Cw) 0 in
      let! stand := gets STAND in
      (if stand then stand_off c from_top j else ret tt) ;;
      let! l := node p in
      repaint_lines n (from_top + 1) (next_screen l)
  end.

Definition repaint (w : nat) : C () :=
  let! r := gets Repaint_screen in
  if r then
    clear_terminal w ;;
    let! c := gets curscr in
    let! Cw := win c in
    repaint_lines (Z.to_nat (Num_lines Cw)) 0 (first_line Cw) ;;
    sets Repaint_screen false
  else ret tt.

Definition set_virtual (i : Z) (b : bool) : C () :=
  let! v := gets virtual_lines in
  let! v := of_opt (aset v i b) in
  sets virtual_lines v.
Definition virtual_at (i : Z) : C bool := let! v := gets virtual_lines in of_opt (aget v i).

(** [virtual_lines] from [from_top] on: the lines that are the same on both; whether some line is not. *)
Fixpoint comp_lines (n : nat) (from_top : Z) (curr virt : option nat) : C bool :=
  match n with
  | O => ret false
  | S n =>
      let! similar := Comp_line curr virt in
      set_virtual from_top (similar <=? 0) ;;
      let! c := node curr in
      let! v := node virt in
      let! diff := comp_lines n (from_top + 1) (next_screen c) (next_screen v) in
      ret ((0 <? similar) || diff)
  end.

(** The area to be scrolled: its end, and how many lines match. *)
Fixpoint match_lines (fuel : nat) (num_lines bottom : Z) (old1 new1 : option nat) (count1 : Z) : C (Z * Z) :=
  let! b := and_ (ret (bottom <? num_lines)) (let! c := Comp_line old1 new1 in ret (c <=? 0)) in
  if b then
    match fuel with
    | O => mundef
    | S fuel =>
        let! o := node old1 in
        let! n := node new1 in
        match_lines fuel num_lines (bottom + 1) (next_screen o) (next_screen n) (count1 + 1)
    end
  else ret (bottom, count1).

(** The scrolling region set, when the terminal has one. *)
Definition scroll_region (top bottom : Z) : C () :=
  let! cs := cap cs__ in
  if has cs then String_Out cs (Some [bottom; top]) ;; sets Curr_x (-1) ;; sets Curr_y (-1) else ret tt.

(** After [k] lines have been scrolled by [one]: the current line found again, the lines compared again. *)
Definition scrolled (w : nat) (k : Z) (one : C (option nat)) (from_top top bottom : Z) (virt : option nat) : C (option nat) :=
  let! W := win w in
  scroll_region top bottom ;;
  times (Z.to_nat k) (fun _ => let! _ := one in ret tt) 0 ;;
  let! n := gets LINES in
  scroll_region 0 (n - 1) ;;
  let! c := gets curscr in
  let! Cw := win c in
  let! curr := walk (Z.to_nat from_top) (first_line Cw) in
  let! _ := comp_lines (Z.to_nat (Num_lines W - from_top)) from_top curr virt in
  ret curr.

(** Lines deleted: a line below is the line wanted here.  [curr], and [diff]. *)
Fixpoint scroll_up_loop (fuel : nat) (w : nat) (from_top last_same tmp_ft : Z) (old curr virt : option nat) : C (option nat * bool) :=
  let! W := win w in
  let! b := and_ (ret (truth (scroll_up W) && (tmp_ft <? last_same))) (negb_ (virtual_at tmp_ft)) in
  if b then
    match fuel with
    | O => mundef
    | S fuel =>
        let! m := and_ (let! c := Comp_line old virt in ret (c =? -1)) (negb_ (virtual_at from_top)) in
        if m then
          let! (bottom, count1) := match_lines (Z.to_nat (Num_lines W)) (Num_lines W) tmp_ft old virt 0 in
          if 3 <? count1 then
            let last := Z.min (bottom - 1) (Num_lines W - 1) in
            let! curr := scrolled w (tmp_ft - from_top) (Delete_line from_top last w) from_top from_top last virt in
            ret (curr, false)
          else scroll_up_loop fuel w from_top last_same (tmp_ft + 1) old curr virt
        else let! o := node old in scroll_up_loop fuel w from_top last_same (tmp_ft + 1) (next_screen o) curr virt
    end
  else ret (curr, true).

(** Lines inserted: a line above is the line wanted here. *)
Fixpoint scroll_down_loop (fuel : nat) (w : nat) (from_top tmp_ft : Z) (diff : bool) (old curr virt : option nat) : C (option nat) :=
  let! W := win w in
  let! b := and_ (ret (truth (scroll_down W) && (0 <=? tmp_ft) && diff)) (negb_ (virtual_at tmp_ft)) in
  if b then
    match fuel with
    | O => mundef
    | S fuel =>
        let! c := Comp_line old virt in
        if c =? -1 then
          let! (bottom, count1) := match_lines (Z.to_nat (Num_lines W)) (Num_lines W) from_top old virt 0 in
          if 3 <? count1 then
            let last := Z.min (bottom - 1) (Num_lines W - 1) in
            scrolled w (from_top - tmp_ft) (Insert_line tmp_ft last w) from_top tmp_ft last virt
          else scroll_down_loop fuel w from_top (tmp_ft - 1) diff old curr virt
        else let! o := node old in scroll_down_loop fuel w from_top (tmp_ft - 1) diff (prev_screen o) curr virt
    end
  else ret curr.

(** The first line from [i] on that is the same. *)
Definition next_same (w : nat) (i : Z) : C Z :=
  let! W := win w in
  scan (Z.to_nat (Num_lines W)) (fun i => and_ (ret (i <? Num_lines W)) (negb_ (virtual_at i))) i.

Fixpoint scroll_loop (fuel : nat) (w : nat) (from_top first_same last_same : Z) (curr virt : option nat) : C () :=
  let! able := gets nc_scrolling_ability in
  if (from_top <? first_same) && able then
    match fuel with
    | O => mundef
    | S fuel =>
        let! W := win w in
        let k := Z.to_nat (Num_lines W) in
        let! last_same := if last_same <=? from_top then next_same w from_top else ret last_same in
        let! same := virtual_at from_top in
        let! curr :=
          (if negb same then
             let! c := node curr in
             let! (curr, diff) := scroll_up_loop k w from_top last_same (from_top + 1) (next_screen c) curr virt in
             let! c := node curr in
             scroll_down_loop k w from_top (from_top - 1) diff (prev_screen c) curr virt
           else ret curr) in
        let! c := node curr in
        let! v := node virt in
        scroll_loop fuel w (from_top + 1) first_same last_same (next_screen c) (next_screen v)
    end
  else ret tt.

(** [for (first_same = Num_lines; (first_same > 0) && virtual_lines[first_same - 1]; first_same--)] *)
Fixpoint last_diff (fuel : nat) (i : Z) : C Z :=
  let! b := and_ (ret (0 <? i)) (virtual_at (i - 1)) in
  if b then match fuel with O => mundef | S fuel => last_diff fuel (i - 1) end else ret i.

Definition scroll_lines (w : nat) : C () :=
  let! W := win w in
  let! c := gets curscr in
  let! Cw := win c in
  let k := Z.to_nat (Num_lines W) in
  let! diff := comp_lines k 0 (first_line Cw) (first_line W) in
  if diff then
    let! first_same := last_diff k (Num_lines W) in
    let! last_same := next_same w 0 in
    scroll_loop k w 0 first_same last_same (first_line Cw) (first_line W)
  else ret tt.

(** The places where the line already has what it should have; [bold] only those in standout. *)
Definition skip_same (k : nat) (virt curr : option nat) (bold : bool) (j : Z) : C Z :=
  scan k (fun j => and_ (same virt j curr j) (and_ (nonzero virt j) (if bold then let! a := atr virt j in ret (truth a) else ret true))) j.

(** Attributes that stay on the screen of a terminal: twice off. *)
Definition off_twice (w : nat) (row j : Z) : C () := Position w row j ;; attribute_off ;; attribute_off.

(** The place [j], which differs. *)
Definition mend (w : nat) (from_top j cols : Z) (first_time : bool) (curr virt : option nat) : C () :=
  let! v := node virt in
  let! c := node curr in
  let! _ := (if first_time && changed v && (last_char c <=? last_char v) then check_insert w from_top j virt curr else ret false) in
  let! ch := check_delete w from_top j virt curr in
  upd virt (fun n => n <| changed := false |>) ;;
  let! ch := (if negb ch then check_insert w from_top j virt curr else ret ch) in
  let! eq := same curr j virt j in
  if (negb ch || negb eq) && (j <? cols) then
    let! vc := chr virt j in
    let! cc := chr curr j in
    let! va := atr virt j in
    let! ca := atr curr j in
    if (vc =? 32) && (cc =? 0) && (va =? ca) then put_chr curr j 32
    else Position w from_top j ;; Char_out vc va curr j
  else ret tt.

(** A line of a terminal that inserts and deletes characters; the place it comes to. *)
Fixpoint mend_line (fuel : nat) (w : nat) (from_top cols : Z) (curr virt : option nat) (first_time : bool) (j : Z) : C Z :=
  let! c := chr virt j in
  if truth c && (j <? cols) then
    match fuel with
    | O => mundef
    | S fuel =>
        let! k := places virt in
        let! stand := gets STAND in
        let! xs := flag xs__ in
        let! j := skip_same k virt curr (stand && xs) j in
        let! va := atr virt j in
        (if stand && xs && negb (truth va) then sets STAND false ;; off_twice w from_top j else ret tt) ;;
        let! ca := atr curr j in
        (if negb (va =? ca) && truth ca && xs then off_twice w from_top j else ret tt) ;;
        let! vc := chr virt j in
        (if truth vc then mend w from_top j cols first_time curr virt else ret tt) ;;
        let first_time := first_time && negb (truth vc) in
        let j := if truth vc then j + 1 else j in
        let! stand := gets STAND in
        let! va := atr virt j in
        (if stand && negb (truth va) then stand_off w from_top j else ret tt) ;;
        mend_line fuel w from_top cols curr virt first_time j
    end
  else ret j.

(** A line of another terminal: written again from the first difference on. *)
Fixpoint rewrite_line (fuel : nat) (w : nat) (from_top cols : Z) (chinese : bool) (curr virt : option nat) (j : Z) : C Z :=
  let! b := and_ (ret (j <? cols)) (nonzero virt j) in
  if b then
    match fuel with
    | O => mundef
    | S fuel =>
        let! k := places virt in
        let! j := scan k (fun j => and_ (same curr j virt j) (and_ (ret (j <? cols)) (nonzero virt j))) j in
        let! j := (if chinese then let! c := chr curr (j - 1) in ret (if highbitset c then j - 1 else j) else ret j) in
        let! b := and_ (ret (j <? cols)) (nonzero virt j) in
        let! j :=
          (if b then
             Position w from_top j ;;
             CLEAR_TO_EOL w from_top j ;;
             Position w from_top j ;;
             write_line k virt curr cols j
           else ret j) in
        rewrite_line fuel w from_top cols chinese curr virt j
    end
  else ret j.

(** The rest of a line that is longer than it should be. *)
Definition clear_rest (w : nat) (from_top : Z) (curr virt : option nat) (j : Z) : C () :=
  let! b := and_ (negb_ (nonzero virt j)) (nonzero curr j) in
  if b then Position w from_top j ;; CLEAR_TO_EOL w from_top j else ret tt.

Definition update_line (w : nat) (from_top : Z) (chinese : bool) (curr virt : option nat) : C () :=
  let! W := win w in
  let! ic := cap ic__ in
  let! im := cap im__ in
  let! dc := cap dc__ in
  let! full := nonzero curr 0 in
  let! k := places virt in
  let! j := (if (has ic || has im) && has dc && full && negb chinese then mend_line k w from_top (Num_cols W) curr virt true 0
             else rewrite_line k w from_top (Num_cols W) chinese curr virt 0) in
  clear_rest w from_top curr virt j ;;
  let! stand := gets STAND in
  (if stand then stand_off w from_top j else ret tt) ;;
  upd virt (fun n => n <| number := from_top |>).

Fixpoint update_lines (n : nat) (w : nat) (from_top : Z) (chinese : bool) (curr virt : option nat) : C () :=
  match n with
  | O => ret tt
  | S n =>
      update_line w from_top chinese curr virt ;;
      let! c := node curr in
      let! v := node virt in
      update_lines n w (from_top + 1) chinese (next_screen c) (next_screen v)
  end.

Definition doupdate : C () :=
  let! w := gets virtual_scr in
  let! att := gets nc_attributes in
  let chinese := truth (Z.land att A_NC_BIG5) in
  repaint w ;;
  scroll_lines w ;;
  let! W := win w in
  let! c := gets curscr in
  let! Cw := win c in
  let! curr := walk (Z.to_nat (SR W)) (first_line Cw) in
  update_lines (Z.to_nat (Num_lines W)) w 0 chinese curr (first_line W) ;;
  let! W := win w in
  Position w (LY W) (LX W).

Definition nc_setattrib (f : Z) : C () := modify (fun s => s <| nc_attributes := Z.lor (nc_attributes s) f |>).
Definition nc_clearattrib (f : Z) : C () := modify (fun s => s <| nc_attributes := Z.land (nc_attributes s) (Z.lnot f) |>).

(** ** Refreshing a window *)

(** The cells of a line of the window copied to the virtual screen. *)
Fixpoint copy_text (fuel : nat) (user virt : option nat) (cols virt_col user_col : Z) : C () :=
  let! u := node user in
  if (virt_col <? cols) && (user_col <? last_char u) then
    match fuel with
    | O => mundef
    | S fuel =>
        let! c := of_opt (aget (row u) user_col) in
        let! a := of_opt (aget (attributes u) user_col) in
        put_cell virt virt_col c a ;;
        copy_text fuel user virt cols (virt_col + 1) (user_col + 1)
    end
  else ret tt.

(** How far a line of the virtual screen goes. *)
Definition virtual_end (W V : WINDOW) (u : sline) (virt : option nat) : C () :=
  (if negb (Num_cols V =? Num_cols W) then
     let! v := node virt in
     if last_char v <? last_char u + SC W then
       let! c := chr virt (last_char v) in
       (if c =? 0 then put_chr virt (last_char v) 32 else ret tt) ;;
       upd virt (fun n => n <| last_char := Z.min (Num_cols V) (last_char u + SC W) |>)
     else ret tt
   else upd virt (fun n => n <| last_char := last_char u |>)) ;;
  let! v := node virt in
  put_chr virt (last_char v) 0.

Fixpoint refresh_lines (n : nat) (W V : WINDOW) (again : bool) (line_counter : Z) (user virt : option nat) : C () :=
  match n with
  | O => ret tt
  | S n =>
      if line_counter + SR W <? Num_lines V then
        let! u := node user in
        (if negb again || changed u || truth (Z.land (Z.lor SCROLL CLEAR) (SCROLL_CLEAR W)) then
           copy_text (length (row u)) user virt (Num_cols V) (SC W) 0 ;;
           blank_cells (Z.to_nat (Z.min (Num_cols V - SC W - last_char u) (Num_cols W - last_char u))) virt (SC W + last_char u)
         else ret tt) ;;
        virtual_end W V u virt ;;
        upd virt (fun v => v <| changed := changed u |>) ;;
        let! v := node virt in
        refresh_lines n W V again (line_counter + 1) (next_screen u) (next_screen v)
      else ret tt
  end.

Definition wnoutrefresh (w : nat) : C () :=
  let! vs := gets virtual_scr in
  let! W := win w in
  let! V := win vs in
  if Num_lines V <=? SR W then ret tt
  else
    updw vs (fun V => V <| SCROLL_CLEAR := SCROLL_CLEAR W |> <| LX := LX W + SC W |> <| LY := LY W + SR W |> <| scroll_up := scroll_up W |> <| scroll_down := scroll_down W |>) ;;
    let! last := gets last_window_refreshed in
    let again := bool_decide (last = Some w) in
    if again && (SCROLL_CLEAR W =? 0) then ret tt
    else
      let! virt := walk (Z.to_nat (SR W)) (first_line V) in
      refresh_lines (Z.to_nat (Num_lines W)) W V again 0 (first_line W) virt ;;
      updw w (fun W => W <| SCROLL_CLEAR := 0 |> <| scroll_up := 0 |> <| scroll_down := 0 |>) ;;
      sets last_window_refreshed (Some w).

Definition wrefresh (w : nat) : C () :=
  wnoutrefresh w ;;
  doupdate ;;
  let! vs := gets virtual_scr in
  updw vs (fun V => V <| SCROLL_CLEAR := 0 |> <| scroll_down := 0 |> <| scroll_up := 0 |>).
End CurseUpdate.
