(* ===== verification/CurseDisplay.v ===== *)
(** * new_curse: terminals

    What the update of the screen expects of a terminal: a display of cells that the
    control strings of its description act on.  The class [Display] states it; a terminal
    with the sequences of ANSI X3.64 is an instance. *)

From S2P Require Import Prelude CurseTerm CurseInfo CurseUpdate.
From stdpp Require Import base list numbers.
From Stdlib Require Import ZArith Lia ZifyBool SpecFloat.

Open Scope Z_scope.

Module CurseDisplay.

Import CurseInfo CurseUpdate.

(** A character and whether it stands out. *)
Abbreviation glyph_of := (Z * bool)%type.

Definition printable (c : Z) : Prop := 32 <= c < 256 /\ c <> 127.

Section Strings.
Context (cpm : spec_float) (tb : info).

Definition string_of (k : Z) : option bytes := default None (aget (String_table tb) k).

(** The string, interpreted with these parameters, prints something with [R]. *)
Definition prints (string : option bytes) (p_list : option (list Z)) (R : bytes -> Prop) : Prop :=
  forall vs, exists out vs', CurseTerm.Info_Out cpm (string_of pc__) string p_list vs = (out, Ret vs') /\ R out.

(** What turns standout on and off. *)
Definition on_string : option bytes * option (list Z) := if has (string_of sa__) then (string_of sa__, Some [1]) else (string_of so__, None).
Definition off_string : option bytes * option (list Z) :=
  if has (string_of me__) then (string_of me__, None) else if has (string_of sa__) then (string_of sa__, Some [0]) else (string_of se__, None).
End Strings.

(** A terminal of [nl] lines and [nc] columns with the description [tb]; [ready] when no
    sequence is half read.  Nothing is said of the cursor after a character in the last
    column, and nothing of a character in the last column of the last line. *)
Class Display (cpm : spec_float) (tb : info) (nl nc : nat) (T : Type) := {
  feed : bytes -> T -> T;
  glyph : T -> nat -> nat -> glyph_of;
  cursor : T -> nat * nat;
  bold : T -> bool;
  ready : T -> Prop;
  feed_nil t : feed [] t = t;
  feed_app a b t : feed (a ++ b) t = feed b (feed a t);
  feed_cm y x : (y < nl)%nat -> (x < nc)%nat -> prints cpm tb (string_of tb cm__) (Some [Z.of_nat x; Z.of_nat y]) (fun out => forall t, ready t ->
    ready (feed out t) /\ glyph (feed out t) = glyph t /\ bold (feed out t) = bold t /\ cursor (feed out t) = (y, x));
  ce_there : has (string_of tb ce__) = true;
  feed_ce : prints cpm tb (string_of tb ce__) None (fun out => forall t y x, ready t -> bold t = false -> cursor t = (y, x) -> (y < nl)%nat -> (x < nc)%nat ->
    ready (feed out t) /\ bold (feed out t) = false /\ cursor (feed out t) = (y, x) /\
    forall y' x', glyph (feed out t) y' x' = if bool_decide (y' = y /\ (x <= x')%nat) then (32, false) else glyph t y' x');
  feed_on : prints cpm tb (on_string tb).1 (on_string tb).2 (fun out => forall t, ready t ->
    ready (feed out t) /\ glyph (feed out t) = glyph t /\ bold (feed out t) = true /\ cursor (feed out t) = cursor t);
  feed_off : prints cpm tb (off_string tb).1 (off_string tb).2 (fun out => forall t, ready t ->
    ready (feed out t) /\ glyph (feed out t) = glyph t /\ bold (feed out t) = false /\ cursor (feed out t) = cursor t);
  feed_chr c t y x : printable c -> ready t -> cursor t = (y, x) -> (y < nl)%nat -> (x < nc)%nat -> ~ (S y = nl /\ S x = nc) ->
    ready (feed [c] t) /\ bold (feed [c] t) = bold t /\ ((S x < nc)%nat -> cursor (feed [c] t) = (y, S x)) /\
    forall y' x', glyph (feed [c] t) y' x' = if bool_decide (y' = y /\ x' = x) then (c, bold t) else glyph t y' x';
}.

(** ** An ANSI terminal *)

Inductive parsing := Ground | Esc | Csi (ps : list Z) (ds : bytes).

Record ansi := Ansi { page : nat -> nat -> glyph_of; ay : nat; ax : nat; ab : bool; ap : parsing }.

Section Ansi.
Context (nl nc : nat).

Definition blank_glyph : glyph_of := (32, false).

(** A character after the last column goes to the next line; the page scrolls at its end. *)
Definition newline (t : ansi) : ansi :=
  if (S (ay t) <? nl)%nat then Ansi (page t) (S (ay t)) 0 (ab t) (ap t)
  else Ansi (fun y x => if (S y <? nl)%nat then page t (S y) x else blank_glyph) (ay t) 0 (ab t) (ap t).

Definition put_glyph (c : Z) (t : ansi) : ansi :=
  let t := if (nc <=? ax t)%nat then newline t else t in
  Ansi (fun y x => if bool_decide (y = ay t /\ x = ax t) then (c, ab t) else page t y x) (ay t) (S (ax t)) (ab t) (ap t).

(** The first number of a sequence, from one for places, and the second. *)
Definition par (ps : list Z) (k : nat) : nat := Z.to_nat (default 1 (ps !! k) - 1).

Definition control (c : Z) (ps : list Z) (t : ansi) : ansi :=
  if c =? ch "H" then Ansi (page t) (Nat.min (par ps 0) (nl - 1)) (Nat.min (par ps 1) (nc - 1)) (ab t) Ground
  else if c =? ch "K" then Ansi (fun y x => if bool_decide (y = ay t /\ (ax t <= x)%nat) then blank_glyph else page t y x) (ay t) (ax t) (ab t) Ground
  else if c =? ch "m" then Ansi (page t) (ay t) (ax t) (bool_decide (ps !! 0%nat = Some 7)) Ground
  else Ansi (page t) (ay t) (ax t) (ab t) Ground.

Definition receive (t : ansi) (c : Z) : ansi :=
  match ap t with
  | Ground => if c =? 27 then Ansi (page t) (ay t) (ax t) (ab t) Esc else if (32 <=? c) && negb (c =? 127) then put_glyph c t else t
  | Esc => Ansi (page t) (ay t) (ax t) (ab t) (if c =? ch "[" then Csi [] [] else Ground)
  | Csi ps ds =>
      if isdigit c then Ansi (page t) (ay t) (ax t) (ab t) (Csi ps (ds ++ [c]))
      else
        let ps := if CurseTerm.is_nil ds then ps else ps ++ [num_of_digits 10 ds] in
        if c =? ch ";" then Ansi (page t) (ay t) (ax t) (ab t) (Csi ps []) else control c ps t
  end.

Definition afeed (b : bytes) (t : ansi) : ansi := fold_left receive b t.

Lemma afeed_digits ds : forall ps cur g y x b, forallb isdigit ds = true ->
  afeed ds (Ansi g y x b (Csi ps cur)) = Ansi g y x b (Csi ps (cur ++ ds)).
Proof.
  induction ds as [|d ds IH]; intros ps cur g y x b H; cbn [afeed fold_left].
  - by rewrite app_nil_r.
  - cbn in H. apply andb_prop in H as [Hd H]. unfold receive at 2. cbn [ap page ay ax ab]. rewrite Hd. fold (afeed ds). rewrite IH by done. by rewrite <- app_assoc.
Qed.

Lemma afeed_move y x t : (y < nl)%nat -> (x < nc)%nat -> Z.of_nat nl < 2 ^ 31 -> Z.of_nat nc < 2 ^ 31 -> ap t = Ground ->
  afeed (27 :: bs "[" ++ fmt_d (Z.of_nat y + 1) ++ bs ";" ++ fmt_d (Z.of_nat x + 1) ++ bs "H") t = Ansi (page t) y x (ab t) Ground.
Proof.
  intros Hy Hx Hnl Hnc Ht. destruct t as [g y0 x0 b p]. cbn [ap] in Ht. subst p.
  destruct (CurseTerm.fmt_d_nat (Z.of_nat y + 1)) as (_ & Hdy & Hvy & Hney); [lia|]. destruct (CurseTerm.fmt_d_nat (Z.of_nat x + 1)) as (_ & Hdx & Hvx & Hnex); [lia|].
  set (dy := fmt_d _) in *. set (dx := fmt_d (Z.of_nat x + 1)) in *. clearbody dy dx.
  change (afeed (27 :: bs "[" ++ dy ++ bs ";" ++ dx ++ bs "H") (Ansi g y0 x0 b Ground)) with (afeed (dy ++ bs ";" ++ dx ++ bs "H") (Ansi g y0 x0 b (Csi [] []))).
  unfold afeed. rewrite !fold_left_app. fold (afeed dy (Ansi g y0 x0 b (Csi [] []))). rewrite afeed_digits by done. cbn [app].
  assert (H1 : fold_left receive (bs ";") (Ansi g y0 x0 b (Csi [] dy)) = Ansi g y0 x0 b (Csi [num_of_digits 10 dy] [])) by (destruct dy; done).
  rewrite H1. fold (afeed dx (Ansi g y0 x0 b (Csi [num_of_digits 10 dy] []))). rewrite afeed_digits by done. cbn [app].
  assert (H2 : fold_left receive (bs "H") (Ansi g y0 x0 b (Csi [num_of_digits 10 dy] dx)) =
    control (ch "H") [num_of_digits 10 dy; num_of_digits 10 dx] (Ansi g y0 x0 b (Csi [num_of_digits 10 dy] dx))) by (destruct dx; done).
  rewrite H2, Hvy, Hvx. unfold control, par. cbn. f_equal; lia.
Qed.
End Ansi.

(** The description of such a terminal, one that inserts and deletes nothing. *)
Definition ansi_cm : list CurseTerm.piece :=
  [CurseTerm.Txt (27 :: bs "["); CurseTerm.Inc; CurseTerm.Dec (CurseTerm.Par 1); CurseTerm.Txt (bs ";"); CurseTerm.Dec (CurseTerm.Par 2); CurseTerm.Txt (bs "H")].

Definition ansi_info : info :=
  Info (replicate 128 0) (replicate 128 0)
    (<[10%nat := Some (27 :: bs "[%i%p1%d;%p2%dH")]> (<[6%nat := Some (27 :: bs "[K")]> (<[35%nat := Some (27 :: bs "[7m")]>
      (<[39%nat := Some (27 :: bs "[m")]> (replicate 1024 None))))).

(** A string of plain text prints itself. *)
Lemma prints_text cpm tb w (R : bytes -> Prop) : forallb (fun c => negb (c =? 37) && negb (c =? 36)) w = true -> R w -> prints cpm tb (Some w) None R.
Proof.
  intros Hw H vs. exists w, vs. split; [|done].
  pose proof (CurseTerm.Info_Out_template cpm (string_of tb pc__) [CurseTerm.Txt w] None vs (replicate 10 0) w eq_refl) as Hp. cbn [map concat CurseTerm.ptext] in Hp. rewrite app_nil_r in Hp.
  apply Hp. unfold CurseTerm.render, CurseTerm.render1. rewrite Hw. cbn. by rewrite app_nil_r.
Qed.

Lemma prints_move cpm tb y x (R : bytes -> Prop) : Z.of_nat y < 2 ^ 30 -> Z.of_nat x < 2 ^ 30 ->
  R (27 :: bs "[" ++ fmt_d (Z.of_nat y + 1) ++ bs ";" ++ fmt_d (Z.of_nat x + 1) ++ bs "H") ->
  prints cpm tb (Some (27 :: bs "[%i%p1%d;%p2%dH")) (Some [Z.of_nat x; Z.of_nat y]) R.
Proof.
  intros Hy Hx H vs. eexists. exists vs. split; [|exact H].
  apply (CurseTerm.Info_Out_template cpm (string_of tb pc__) ansi_cm (Some [Z.of_nat x; Z.of_nat y]) vs ([0; Z.of_nat y; Z.of_nat x] ++ replicate 7 0)); [done|].
  assert (Hf : forall z, 0 <= z < 2 ^ 30 -> CurseTerm.fits (z + 1) = Some (z + 1)) by (intros z Hz; unfold CurseTerm.fits; by rewrite (proj2 (Z.leb_le _ _)), (proj2 (Z.ltb_lt _ _)) by lia).
  assert (Hy0 : 0 <= Z.of_nat y < 2 ^ 30) by lia. assert (Hx0 : 0 <= Z.of_nat x < 2 ^ 30) by lia. revert Hy0 Hx0. generalize (Z.of_nat y) as a. generalize (Z.of_nat x) as b. intros b a Ha Hb.
  assert (Hi : CurseTerm.incremented ([0; a; b] ++ replicate 7 0) = Some ([0; a + 1; b + 1] ++ replicate 7 0)) by (unfold CurseTerm.incremented; cbn -[CurseTerm.fits Z.add]; by rewrite !Hf).
  unfold ansi_cm. cbn [CurseTerm.render CurseTerm.render1]. change (forallb _ (27 :: bs "[")) with true. cbv beta iota. rewrite Hi. reflexivity.
Qed.

#[export] Instance ansi_display cpm nl nc (H : Z.of_nat nl < 2 ^ 30) (H' : Z.of_nat nc < 2 ^ 30) : Display cpm ansi_info nl nc ansi.
Proof.
  refine {| feed := afeed nl nc; glyph := page; cursor := fun t => (ay t, ax t); bold := ab; ready := fun t => ap t = Ground |}.
  - done.
  - intros a b t. apply fold_left_app.
  - intros y x Hy Hx. apply prints_move; [lia|lia|]. intros t Ht. rewrite afeed_move by (done || lia). done.
  - done.
  - apply prints_text; [done|]. intros [g y0 x0 b p] y x [= ->] [= ->] [= -> ->] _ _. split_and!; done.
  - apply prints_text; [done|]. intros [g y0 x0 b p] [= ->]. split_and!; done.
  - apply prints_text; [done|]. intros [g y0 x0 b p] [= ->]. split_and!; done.
  - intros c [g y0 x0 b p] y x [Hc Hn] [= ->] [= -> ->] Hy Hx _. unfold afeed, fold_left, receive. cbn [ap]. replace (c =? 27) with false by lia.
    replace (_ && _) with true by lia. unfold put_glyph. cbn [ax]. rewrite (proj2 (Nat.leb_gt _ _)) by done. split_and!; done.
Defined.
End CurseDisplay.
