(* ===== verification/CurseShow.v ===== *)
(** * new_curse: the terminal shows the virtual screen

    On a terminal of the class Display that does not insert or delete characters or lines,
    [doupdate] makes every cell what the virtual screen has, but for the last one of the
    last line; the window curscr has what is on the terminal, before and after. *)

From S2P Require Import Prelude Monad CurseTerm CurseInfo CurseWindow CurseScreen CurseUpdate CurseDisplay.
From stdpp Require Import base list gmap numbers.
From Stdlib Require Import ZArith Lia ZifyBool SpecFloat.

Open Scope Z_scope.

Module CurseShow.

Import CurseInfo CurseWindow CurseScreen CurseUpdate CurseDisplay.

Lemma lines_set (s : curse) h : lines (s <| lines := h |>) = h.
Proof. done. Qed.

Lemma lines_twice (s : curse) h h' : s <| lines := h |> <| lines := h' |> = s <| lines := h' |>.
Proof. done. Qed.

Ltac heap := rewrite ?lines_twice, ?lines_set, ?insert_insert_eq, ?lines_twice, ?lines_set, ?insert_insert_eq.

Section Show.
Context (cpm : spec_float) (tb : info) (nl nc : nat) (T : Type) `{D : !Display cpm tb nl nc T} (t0 : T).
Context (vs cs : nat) (V Cw : WINDOW) (ws : gmap nat WINDOW) (X : Z -> bytes -> curse -> Prop).
Context (Hvs : ws !! vs = Some V) (Hcs : ws !! cs = Some Cw).
Context (HSR : SR V = 0) (HSC : SC V = 0) (Hcols : Num_cols V = Z.of_nat nc) (Hrows : Num_lines V = Z.of_nat nl).
Context (Hst : length (String_table tb) = 1024%nat) (Hbt : length (Booleans tb) = 128%nat).

(** What is on the terminal. *)
Definition term (s : curse) : T := feed (output s) t0.

(** What stays the same during an update. *)
Record ok (s : curse) : Prop := {
  ok_tables : tables s = tb;
  ok_speed : chars_per_millisecond s = cpm;
  ok_lines : LINES s = Z.of_nat nl;
  ok_cols : COLS s = Z.of_nat nc;
  ok_cur : curscr s = cs;
  ok_virt : virtual_scr s = vs;
  ok_windows : windows s = ws;
  ok_attr : (0 < length (attributes_set s))%nat;
  ok_ready : ready (term s);
  ok_vl : (nl <= length (virtual_lines s))%nat;
  ok_able : nc_scrolling_ability s = false;
  ok_paint : Repaint_screen s = false;
  ok_big5 : Z.land (nc_attributes s) A_NC_BIG5 = 0;
}.

(** The terminal as the program knows it: its cursor, unless it is past the last column, and standout. *)
Record aligned (s : curse) : Prop := {
  al_bold : bold (term s) = STAND s;
  al_cursor : forall y x, Curr_y s = Z.of_nat y -> Curr_x s = Z.of_nat x -> (x < nc)%nat -> cursor (term s) = (y, x);
}.

(** The lines and the cells are the same. *)
Definition quiet (s s' : curse) : Prop :=
  lines s' = lines s /\ glyph (term s') = glyph (term s) /\ virtual_lines s' = virtual_lines s /\ nc_scrolling_ability s' = nc_scrolling_ability s.

Lemma wp_cap k s (Q : option bytes -> curse -> Prop) : ok s -> 0 <= k < 1024 -> Q (string_of tb k) s -> wp (cap k) Q X s.
Proof.
  intros Hs Hk H. unfold cap. apply wp_bind, wp_read. rewrite (ok_tables _ Hs). destruct (aget_in (String_table tb) k) as [v Hv]; [lia|].
  unfold string_of in H. rewrite Hv in *. exact H.
Qed.

Lemma wp_flag k s (Q : bool -> curse -> Prop) : ok s -> 0 <= k < 128 -> (forall b, Q b s) -> wp (flag k) Q X s.
Proof.
  intros Hs Hk H. unfold flag. apply wp_bind, wp_read. rewrite (ok_tables _ Hs). destruct (aget_in (Booleans tb) k) as [v Hv]; [lia|]. rewrite Hv. apply wp_bind, wp_ret, wp_ret, H.
Qed.

Lemma term_out s out vs' : term (s <| output := output s ++ out |> <| variable := vs' |>) = feed out (term s).
Proof. apply feed_app. Qed.

Lemma wp_String_Out string pl R s (Q : () -> curse -> Prop) : ok s -> prints cpm tb string pl R ->
  (forall out vs', R out -> Q tt (s <| output := output s ++ out |> <| variable := vs' |>)) -> wp (String_Out string pl) Q X s.
Proof.
  intros Hs Hp H. unfold String_Out. apply wp_bind, wp_get, wp_bind, wp_cap; [done|unfold pc__; lia|].
  destruct (Hp (variable s)) as (out & vs' & Ho & HR). rewrite (ok_speed _ Hs), Ho. by apply wp_modify, H.
Qed.

Lemma ok_out s out vs' : ok s -> ready (feed out (term s)) -> ok (s <| output := output s ++ out |> <| variable := vs' |>).
Proof. intros [] Hr. by constructor; rewrite ?term_out. Qed.

Lemma ok_attrs s a : ok s -> (0 < length a)%nat -> ok (s <| attributes_set := a |>).
Proof. intros [] Ha. by constructor. Qed.

(** Standout turned on or off. *)
Definition turned (b : bool) (s s' : curse) : Prop :=
  ok s' /\ quiet s s' /\ bold (term s') = b /\ cursor (term s') = cursor (term s) /\ STAND s' = STAND s /\ Curr_x s' = Curr_x s /\ Curr_y s' = Curr_y s.

Lemma wp_turn (on : bool) k pl s (Q : () -> curse -> Prop) : ok s ->
  prints cpm tb (string_of tb k) pl (fun out => forall t, ready t -> ready (feed out t) /\ glyph (feed out t) = glyph t /\ bold (feed out t) = on /\ cursor (feed out t) = cursor t) ->
  (forall s', turned on s s' -> Q tt s') -> wp (String_Out (string_of tb k) pl) Q X s.
Proof.
  intros Hs Hp H. eapply wp_String_Out; [exact Hs|exact Hp|]. intros out vs' HR. destruct (HR (term s) (ok_ready _ Hs)) as (Hr & Hg & Hb & Hc).
  apply H. unfold turned, quiet. rewrite term_out. split_and!; try done. by apply ok_out.
Qed.

Lemma wp_out_sa (on : bool) v s (Q : () -> curse -> Prop) : ok s ->
  prints cpm tb (string_of tb sa__) (Some [v]) (fun out => forall t, ready t -> ready (feed out t) /\ glyph (feed out t) = glyph t /\ bold (feed out t) = on /\ cursor (feed out t) = cursor t) ->
  (forall s', turned on s s' -> Q tt s') -> wp (out_sa v) Q X s.
Proof.
  intros Hs Hp H. unfold out_sa. apply wp_bind, wp_read, wp_bind. pose proof (ok_attr _ Hs) as Ha. eapply wp_of_opt; [apply aset_in; lia|]. apply wp_bind, wp_modify.
  assert (Hs1 : ok (s <| attributes_set := <[Z.to_nat 0 := v]> (attributes_set s) |>)) by (apply ok_attrs; [done|rewrite length_insert; lia]).
  apply wp_bind, wp_cap; [exact Hs1|unfold sa__; lia|]. replace (take 1 _) with [v] by (by destruct (attributes_set s); [cbn in Ha; lia|]).
  eapply wp_turn; [exact Hs1|exact Hp|]. intros s' H'. apply H. exact H'.
Qed.

Lemma wp_out_cap (on : bool) k s (Q : () -> curse -> Prop) : ok s -> 0 <= k < 1024 ->
  prints cpm tb (string_of tb k) None (fun out => forall t, ready t -> ready (feed out t) /\ glyph (feed out t) = glyph t /\ bold (feed out t) = on /\ cursor (feed out t) = cursor t) ->
  (forall s', turned on s s' -> Q tt s') -> wp (out_cap k) Q X s.
Proof. intros Hs Hk Hp H. unfold out_cap. apply wp_bind, wp_cap; [done|done|]. by eapply wp_turn. Qed.

Lemma wp_attribute_on s (Q : () -> curse -> Prop) : ok s -> (forall s', turned true s s' -> Q tt s') -> wp attribute_on Q X s.
Proof.
  intros Hs H. pose proof feed_on as Hp. unfold on_string in Hp. unfold attribute_on. apply wp_bind, wp_cap; [done|unfold sa__; lia|]. destruct (has (string_of tb sa__)); cbn [fst snd] in Hp.
  - by eapply wp_out_sa.
  - apply wp_bind, wp_cap; [done|unfold so__; lia|]. destruct (string_of tb so__) as [so|] eqn:E; cbn [has].
    + eapply wp_out_cap; [done|unfold so__; lia|by rewrite E|done].
    + destruct (Hp (variable s)) as (out & vs' & Ho & HR). cbn in Ho. injection Ho as <- <-. destruct (HR (term s) (ok_ready _ Hs)) as (_ & _ & Hb & _). rewrite feed_nil in Hb.
      apply wp_ret, H. unfold turned, quiet. done.
Qed.

Lemma wp_attribute_off s (Q : () -> curse -> Prop) : ok s -> (forall s', turned false s s' -> Q tt s') -> wp attribute_off Q X s.
Proof.
  intros Hs H. pose proof feed_off as Hp. unfold off_string in Hp. unfold attribute_off. apply wp_bind, wp_cap; [done|unfold me__; lia|]. destruct (has (string_of tb me__)); cbn [fst snd] in Hp.
  { eapply wp_out_cap; [done|unfold me__; lia|exact Hp|exact H]. }
  apply wp_bind, wp_cap; [done|unfold sa__; lia|]. destruct (has (string_of tb sa__)); cbn [fst snd] in Hp.
  - by eapply wp_out_sa.
  - apply wp_bind, wp_cap; [done|unfold se__; lia|]. destruct (string_of tb se__) as [se|] eqn:E; cbn [has].
    + eapply wp_out_cap; [done|unfold se__; lia|by rewrite E|done].
    + destruct (Hp (variable s)) as (out & vs' & Ho & HR). cbn in Ho. injection Ho as <- <-. destruct (HR (term s) (ok_ready _ Hs)) as (_ & _ & Hb & _). rewrite feed_nil in Hb.
      apply wp_ret, H. unfold turned, quiet. done.
Qed.

(** *** The cursor *)

Lemma wp_wind w W s (Q : WINDOW -> curse -> Prop) : ok s -> ws !! w = Some W -> Q W s -> wp (win w) Q X s.
Proof. intros Hs E H. unfold win. apply wp_bind, wp_read. rewrite (ok_windows _ Hs). by eapply wp_of_opt. Qed.

Lemma wp_Position_stay y x s (Q : () -> curse -> Prop) : ok s -> Curr_y s = y -> Curr_x s = x -> Q tt s -> wp (Position vs y x) Q X s.
Proof.
  intros Hs Hy Hx H. unfold Position. apply wp_bind. eapply wp_wind; [done|exact Hvs|]. apply wp_bind, wp_read, wp_bind, wp_read. rewrite HSR, HSC, !Z.add_0_r, Hy, Hx, !Z.eqb_refl. exact H.
Qed.

Lemma ok_place s x y : ok s -> ok (s <| Curr_x := x |> <| Curr_y := y |>).
Proof. intros []. by constructor. Qed.

Lemma wp_Position y x s (Q : () -> curse -> Prop) : ok s -> aligned s -> (y < nl)%nat -> (x < nc)%nat -> STAND s = false ->
  (forall s', ok s' -> aligned s' -> quiet s s' -> STAND s' = false -> Curr_y s' = Z.of_nat y -> Curr_x s' = Z.of_nat x -> Q tt s') ->
  wp (Position vs (Z.of_nat y) (Z.of_nat x)) Q X s.
Proof.
  intros Hs Hal Hy Hx Hstand H. unfold Position. apply wp_bind. eapply wp_wind; [done|exact Hvs|]. apply wp_bind, wp_read, wp_bind, wp_read. rewrite HSR, HSC, !Z.add_0_r.
  destruct (_ || _) eqn:E; [|apply wp_ret, H; try done; lia]. apply wp_bind, wp_cap; [done|unfold cm__; lia|].
  pose proof (feed_cm y x Hy Hx) as Hp. destruct (string_of tb cm__) as [cm|] eqn:Ecm; cbn [has].
  2:{ destruct (Hp (variable s)) as (out & vs' & Ho & HR). cbn in Ho. injection Ho as <- <-. destruct (HR (term s) (ok_ready _ Hs)) as (_ & _ & _ & Hc). rewrite feed_nil in Hc.
      apply wp_bind, wp_ret, wp_bind, wp_modify, wp_modify. apply H; try done; [by apply ok_place|]. constructor; [apply Hal|]. cbn. intros y' x' Ey Ex _.
      assert (y' = y /\ x' = x) as [-> ->] by lia. exact Hc. }
  apply wp_bind, wp_bind. eapply wp_String_Out; [exact Hs|exact Hp|]. intros out vs' HR. destruct (HR (term s) (ok_ready _ Hs)) as (Hr & Hg & Hb & Hc).
  pose proof (ok_out s out vs' Hs Hr) as Hs1. apply wp_bind, wp_read, wp_bind, wp_flag; [exact Hs1|unfold ms__; lia|]. intros ms. cbn [STAND]. change (STAND (_ <| output := _ |> <| variable := _ |>)) with (STAND s).
  rewrite Hstand. apply wp_ret, wp_bind, wp_modify, wp_modify. apply H; try done; [by apply ok_place| |].
  - constructor; [rewrite <- Hstand in *; change (bold (term (s <| output := output s ++ out |> <| variable := vs' |>)) = STAND s); by rewrite term_out, Hb, (al_bold _ Hal)|].
    cbn. intros y' x' Ey Ex _. assert (y' = y /\ x' = x) as [-> ->] by lia. rewrite <- Hc, <- (term_out s out vs'). done.
  - unfold quiet. split_and!; try done. rewrite <- Hg, <- (term_out s out vs'). done.
Qed.

(** *** Lines *)

Lemma wp_nod l n s (Q : sline -> curse -> Prop) : lines s !! l = Some n -> Q n s -> wp (node (Some l)) Q X s.
Proof. intros E H. unfold node. cbn. apply wp_bind, wp_ret, wp_bind, wp_read. by eapply wp_of_opt. Qed.

Lemma wp_updl l n f s (Q : () -> curse -> Prop) : lines s !! l = Some n -> Q tt (s <| lines := <[l := f n]> (lines s) |>) -> wp (upd (Some l) f) Q X s.
Proof. intros E H. unfold upd. apply wp_bind, wp_ret, wp_bind. eapply wp_nod; [exact E|]. exact H. Qed.

Lemma wp_cells s (m : C ()) (Q : () -> curse -> Prop) : wp m Q X (st s (lines s) (windows s)) -> wp m Q X s.
Proof. by destruct s. Qed.

Lemma wp_cellsl {A} s (m : C A) (Q : A -> curse -> Prop) : wp m Q X (st s (lines s) (windows s)) -> wp m Q X s.
Proof. by destruct s. Qed.

Lemma st_lines s h : st s h (windows s) = s <| lines := h |>.
Proof. by destruct s. Qed.

Lemma ok_heap s h : ok s -> ok (s <| lines := h |>).
Proof. intros []. by constructor. Qed.

Lemma aligned_heap s h : aligned s -> aligned (s <| lines := h |>).
Proof. intros []. by constructor. Qed.

(** A line of curscr. *)
Record good (n : sline) : Prop := {
  gd_row : length (row n) = S nc;
  gd_att : length (attributes n) = S nc;
  gd_end : row n !! nc = Some 0;
}.

(** The [y]th line of curscr is [p]. *)
Definition at_line (h : gmap nat sline) (y p : nat) : Prop :=
  exists A B, seg h None (A ++ p :: B) None /\ length A = y /\ first_line Cw = head_or (A ++ p :: B) None.

(** Standout off where the cursor is. *)
Lemma wp_stand_off s y x (Q : () -> curse -> Prop) : ok s -> aligned s -> Curr_y s = y -> Curr_x s = x ->
  (forall s', ok s' -> aligned s' -> quiet s s' -> STAND s' = false -> Curr_y s' = y -> Curr_x s' = x -> Q tt s') -> wp (stand_off vs y x) Q X s.
Proof.
  intros Hs Hal Hy Hx H. unfold stand_off. apply wp_bind, wp_modify. assert (Hs1 : ok (s <| STAND := false |>)) by (destruct Hs; by constructor).
  apply wp_bind, wp_Position_stay; [done|done|done|]. apply wp_attribute_off; [done|]. intros s' (Hs' & Hq & Hb & Hc & Hst' & Hx' & Hy').
  apply H; try done; [|by rewrite Hy'|by rewrite Hx']. constructor; [by rewrite Hb, Hst'|]. intros y' x' Ey Ex Hlt. rewrite Hc. apply (al_cursor _ Hal); [by rewrite <- Ey, Hy'|by rewrite <- Ex, Hx'|done].
Qed.

Lemma wp_stand s y x (Q : () -> curse -> Prop) : ok s -> aligned s -> (STAND s = true -> Curr_y s = y /\ Curr_x s = x) ->
  (forall s', ok s' -> aligned s' -> quiet s s' -> STAND s' = false -> Curr_y s' = Curr_y s -> Curr_x s' = Curr_x s -> Q tt s') ->
  wp (if STAND s then stand_off vs y x else ret tt) Q X s.
Proof.
  intros Hs Hal Hc H. destruct (STAND s) eqn:E; [|by apply wp_ret, H]. destruct (Hc eq_refl) as [<- <-]. by apply wp_stand_off.
Qed.

Lemma wp_CLEAR_TO_EOL s y x p n (Q : () -> curse -> Prop) : ok s -> aligned s -> (y < nl)%nat -> (x < nc)%nat -> Curr_y s = Z.of_nat y -> Curr_x s = Z.of_nat x ->
  at_line (lines s) y p -> lines s !! p = Some n -> good n ->
  (forall s' n', ok s' -> aligned s' -> STAND s' = false -> Curr_y s' = Z.of_nat y -> Curr_x s' = Z.of_nat x -> virtual_lines s' = virtual_lines s ->
     nc_scrolling_ability s' = nc_scrolling_ability s -> lines s' = <[p := n']> (lines s) ->
     row n' = <[x := 0]> (fill x (nc - x) 32 (row n)) -> attributes n' = fill x (nc - x) 0 (attributes n) -> next_screen n' = next_screen n -> prev_screen n' = prev_screen n ->
     (forall y' x', glyph (term s') y' x' = if bool_decide (y' = y /\ (x <= x')%nat) then (32, false) else glyph (term s) y' x') -> Q tt s') ->
  wp (CLEAR_TO_EOL vs (Z.of_nat y) (Z.of_nat x)) Q X s.
Proof.
  intros Hs Hal Hy Hx Cy Cx (A & B & Hseg & HA & Hfirst) En [Hr Ha He] H. unfold CLEAR_TO_EOL. apply wp_bind. eapply wp_wind; [done|exact Hvs|]. apply wp_bind, wp_read.
  rewrite (ok_cur _ Hs). apply wp_bind. eapply wp_wind; [done|exact Hcs|]. rewrite HSR, Z.add_0_l, Nat2Z.id, Hfirst. apply wp_bind. rewrite <- HA at 1.
  apply wp_cellsl. eapply wp_walk_in; [exact Hseg|]. rewrite st_lines. replace (s <| lines := lines s |>) with s by (by destruct s). rewrite Hcols.
  replace (Z.to_nat (Z.of_nat nc - Z.of_nat x)) with (nc - x)%nat by lia. apply wp_bind, wp_cells. eapply wp_blank_cells; [exact En|lia|lia|]. rewrite st_lines.
  set (n1 := n <| row := _ |> <| attributes := _ |>). apply wp_bind. unfold put_chr. apply wp_bind. eapply wp_nod; [by apply lookup_insert_eq|]. apply wp_bind.
  eapply wp_of_opt; [apply aset_in; unfold n1; fld; rewrite length_fill; lia|]. rewrite Nat2Z.id. eapply wp_updl; [by apply lookup_insert_eq|]. heap. apply wp_bind.
  eapply wp_updl; [by apply lookup_insert_eq|]. heap.
  match goal with |- wp _ _ _ ?g => set (s1 := g) end. assert (Hs1 : ok s1) by (by unfold s1; repeat apply ok_heap). assert (Hal1 : aligned s1) by (by unfold s1; repeat apply aligned_heap).
  apply wp_bind, wp_read. rewrite (ok_cols _ Hs1), (proj2 (Z.ltb_lt _ _)) by lia. apply wp_bind, wp_read, wp_bind.
  apply wp_stand; [done|done|by intros _|]. intros s2 Hs2 Hal2 (Hl2 & Hg2 & Hv2 & Hn2) Hst2 Hy2 Hx2. apply wp_bind, wp_cap; [done|unfold ce__; lia|].
  assert (Hc2 : cursor (term s2) = (y, x)) by (apply (al_cursor _ Hal2); [by rewrite Hy2|by rewrite Hx2|done]).
  assert (Hb2 : bold (term s2) = false) by (by rewrite (al_bold _ Hal2)). change (glyph (term s1)) with (glyph (term s)) in Hg2.
  assert (Hdone : forall s3, ok s3 -> aligned s3 -> STAND s3 = false -> Curr_y s3 = Curr_y s2 -> Curr_x s3 = Curr_x s2 -> lines s3 = lines s2 -> virtual_lines s3 = virtual_lines s2 ->
    nc_scrolling_ability s3 = nc_scrolling_ability s2 ->
    (forall y' x', glyph (term s3) y' x' = if bool_decide (y' = y /\ (x <= x')%nat) then (32, false) else glyph (term s2) y' x') -> Q tt s3).
  { intros s3 Hs3 Hal3 Hst3 Hy3 Hx3 Hl3 Hv3 Hn3 Hg3. eapply H; [done|done|done|rewrite Hy3, Hy2; exact Cy|rewrite Hx3, Hx2; exact Cx|rewrite Hv3; exact Hv2|rewrite Hn3; exact Hn2|rewrite Hl3, Hl2; reflexivity|..]; [by unfold n1; fld..|].
    intros y' x'. by rewrite Hg3, Hg2. }
  pose proof feed_ce as Hp. rewrite ce_there.
  - unfold out_cap. apply wp_bind, wp_cap; [done|unfold ce__; lia|]. eapply wp_String_Out; [exact Hs2|exact Hp|]. intros out vs' HR.
    destruct (HR (term s2) y x (ok_ready _ Hs2) Hb2 Hc2 Hy Hx) as (Hrd & Hb & Hc & Hg). apply Hdone; try done; [by apply ok_out| |by rewrite term_out].
    constructor; rewrite term_out; [by rewrite Hb|]. intros y' x' Ey Ex _. change (Curr_y s2 = Z.of_nat y') in Ey. change (Curr_x s2 = Z.of_nat x') in Ex.
    rewrite Hy2 in Ey. rewrite Hx2 in Ex. change (Curr_y s = Z.of_nat y') in Ey. change (Curr_x s = Z.of_nat x') in Ex. rewrite Hc. f_equal; lia.
Qed.

(** *** Characters *)

(** Standout as the character has it. *)
Lemma wp_attribute s (b : bool) (Q : () -> curse -> Prop) : ok s -> aligned s ->
  (forall s', ok s' -> aligned s' -> quiet s s' -> STAND s' = b -> Curr_y s' = Curr_y s -> Curr_x s' = Curr_x s -> Q tt s') ->
  wp (if b && negb (STAND s) then bind (sets STAND true) (fun _ => attribute_on)
      else if STAND s && negb b then bind (sets STAND false) (fun _ => attribute_off) else ret tt) Q X s.
Proof.
  intros Hs Hal H. assert (Hset : forall v, ok (s <| STAND := v |>)) by (intros v; destruct Hs; by constructor).
  assert (Hdone : forall s', turned b (s <| STAND := b |>) s' -> Q tt s').
  { intros s' (Hs' & Hq & Hb & Hc & Hst' & Hx' & Hy'). apply H; try done. constructor; [by rewrite Hb, Hst'|]. intros y' x' Ey Ex Hlt. rewrite Hc. apply (al_cursor _ Hal); [by rewrite <- Ey, Hy'|by rewrite <- Ex, Hx'|done]. }
  destruct b, (STAND s) eqn:E; cbn [andb negb].
  - by apply wp_ret, H.
  - apply wp_bind, wp_modify, wp_attribute_on; [done|exact Hdone].
  - apply wp_bind, wp_modify, wp_attribute_off; [done|exact Hdone].
  - by apply wp_ret, H.
Qed.

(** The last place of the last line. *)
Definition last_cell (y x : nat) : Prop := S y = nl /\ S x = nc.

Definition written (s s' : curse) (p : nat) (n : sline) (y x : nat) (c a : Z) : Prop :=
  last_cell y x /\ lines s' = lines s /\ glyph (term s') = glyph (term s) \/
  ~ last_cell y x /\ lines s' = <[p := n <| row := <[x := c]> (row n) |> <| attributes := <[x := a]> (attributes n) |>]> (lines s) /\
    (forall y' x', glyph (term s') y' x' = if bool_decide (y' = y /\ x' = x) then (c, truth a) else glyph (term s) y' x').

Lemma wp_Char_out s y x p n c a (Q : () -> curse -> Prop) : ok s -> aligned s -> (y < nl)%nat -> (x < nc)%nat -> Curr_y s = Z.of_nat y -> Curr_x s = Z.of_nat x ->
  lines s !! p = Some n -> good n -> printable c -> 0 <= a < 256 ->
  (forall s', ok s' -> aligned s' -> STAND s' = truth a -> Curr_y s' = Z.of_nat y -> Curr_x s' = Z.of_nat (S x) -> virtual_lines s' = virtual_lines s ->
     nc_scrolling_ability s' = nc_scrolling_ability s -> written s s' p n y x c a -> Q tt s') ->
  wp (Char_out c a (Some p) (Z.of_nat x)) Q X s.
Proof.
  intros Hs Hal Hy Hx Cy Cx En [Hr Ha _] Hc Hat H. unfold Char_out. apply wp_bind, wp_read, wp_bind.
  apply wp_attribute; [done|done|]. intros s1 Hs1 Hal1 (Hl1 & Hg1 & Hv1 & Hn1) Hst1 Hy1 Hx1. apply wp_bind, wp_read, wp_bind. rewrite Hst1, andb_diag.
  assert (Hxs : forall Q' : () -> curse -> Prop, (forall s', ok s' -> aligned s' -> quiet s1 s' -> STAND s' = STAND s1 -> Curr_y s' = Curr_y s1 -> Curr_x s' = Curr_x s1 -> Q' tt s') ->
    wp (if truth a then bind (flag xs__) (fun xs => if xs then attribute_on else ret tt) else ret tt) Q' X s1).
  { intros Q' H'. destruct (truth a) eqn:Et; [|by apply wp_ret, H']. apply wp_bind, wp_flag; [done|unfold xs__; lia|]. intros [|]; [|by apply wp_ret, H'].
    apply wp_attribute_on; [done|]. intros s' (Hs' & Hq & Hb & Hc' & Hst' & Hx' & Hy'). apply H'; try done. constructor; [by rewrite Hb, Hst', Hst1|].
    intros y' x' Ey Ex Hlt. rewrite Hc'. apply (al_cursor _ Hal1); [by rewrite <- Ey, Hy'|by rewrite <- Ex, Hx'|done]. }
  apply Hxs. clear Hxs. intros s2 Hs2 Hal2 (Hl2 & Hg2 & Hv2 & Hn2) Hst2 Hy2 Hx2. apply wp_bind, wp_get, wp_bind.
  rewrite Hl1 in Hl2. rewrite Hg1 in Hg2. rewrite Hv1 in Hv2. rewrite Hn1 in Hn2. rewrite Hst1 in Hst2. rewrite Hy1, Cy in Hy2. rewrite Hx1, Cx in Hx2.
  rewrite (ok_lines _ Hs2), (ok_cols _ Hs2), Hy2, Hx2. destruct (_ && _) eqn:Elast; cbn [negb].
  - apply wp_ret, wp_modify. apply H; try done; [destruct Hs2; by constructor| |cbn; rewrite Hx2; lia|left; split_and!; try done; unfold last_cell; lia].
    constructor; [apply Hal2|]. cbn. intros y' x' Ey Ex Hlt. lia.
  - assert (Hnl : ~ last_cell y x) by (unfold last_cell; lia). apply wp_bind, wp_modify. set (s3 := s2 <| output := _ |>).
    assert (Hc2 : cursor (term s2) = (y, x)) by (apply (al_cursor _ Hal2); done). destruct (feed_chr c (term s2) y x Hc (ok_ready _ Hs2) Hc2 Hy Hx Hnl) as (Hrd & Hb & Hcur & Hgl).
    assert (Hu : u8 c = c) by (unfold printable in Hc; apply Z.mod_small; lia). assert (Hua : u8 a = a) by (apply Z.mod_small; lia).
    assert (Ht3 : term s3 = feed [c] (term s2)) by (unfold s3, term; cbn [output]; rewrite Hu; apply feed_app).
    assert (Hs3 : ok s3) by (destruct Hs2; constructor; try done; by rewrite Ht3).
    apply wp_cells. eapply wp_put_cell; [change (lines s3) with (lines s2); rewrite Hl2; exact En|lia|lia|]. rewrite st_lines, Hu, Hua. apply wp_modify.
    apply H; try done; [destruct Hs3; by constructor| |cbn; rewrite Hx2; lia|right; split_and!; [done| |]].
    + constructor; [change (bold (term s3) = STAND s2); by rewrite Ht3, Hb, (al_bold _ Hal2)|]. intros y' x' Ey Ex Hlt. change (Curr_y s2 = Z.of_nat y') in Ey. change (Curr_x s2 + 1 = Z.of_nat x') in Ex.
      change (cursor (term s3) = (y', x')). rewrite Ht3, Hcur by lia. f_equal; lia.
    + cbn. by rewrite Hl2.
    + intros y' x'. change (glyph (term s3) y' x' = if bool_decide (y' = y /\ x' = x) then (c, truth a) else glyph (term s) y' x'). rewrite Ht3, Hgl, Hg2, (al_bold _ Hal2), Hst2. done.
Qed.

(** *** A line *)

(** What a line shows at a place. *)
Definition ink (n : sline) (x : nat) : glyph_of :=
  if forallb truth (take (S x) (row n)) then (row n !!! x, truth (attributes n !!! x)) else (32, false).

(** A line of the virtual screen: printable characters, then a NUL. *)
Record text (v : sline) (cells : list cell) : Prop := {
  tx_row : length (row v) = S nc;
  tx_att : length (attributes v) = S nc;
  tx_len : (length cells <= nc)%nat;
  tx_cells : take (length cells) (row v) = cells.*1;
  tx_atts : take (length cells) (attributes v) = cells.*2;
  tx_end : row v !! length cells = Some 0;
  tx_print : Forall (fun c => printable c.1 /\ 0 <= c.2 < 256) cells;
}.

Lemma wp_chr p n j c s (Q : Z -> curse -> Prop) : lines s !! p = Some n -> row n !! j = Some c -> Q c s -> wp (chr (Some p) (Z.of_nat j)) Q X s.
Proof.
  intros E Hc H. unfold chr. apply wp_bind. eapply wp_nod; [exact E|]. unfold aget. replace (_ <? 0) with false by lia. rewrite Nat2Z.id. eapply wp_of_opt; [exact Hc|exact H].
Qed.

Lemma wp_atr p n j a s (Q : Z -> curse -> Prop) : lines s !! p = Some n -> attributes n !! j = Some a -> Q a s -> wp (atr (Some p) (Z.of_nat j)) Q X s.
Proof.
  intros E Hc H. unfold atr. apply wp_bind. eapply wp_nod; [exact E|]. unfold aget. replace (_ <? 0) with false by lia. rewrite Nat2Z.id. eapply wp_of_opt; [exact Hc|exact H].
Qed.

Lemma text_at v cells x c : text v cells -> cells !! x = Some c -> row v !! x = Some c.1 /\ attributes v !! x = Some c.2.
Proof.
  intros [] Hx. pose proof (lookup_lt_Some _ _ _ Hx). split.
  - rewrite <- (lookup_take_lt _ (length cells)), tx_cells0, list_lookup_fmap, Hx by done. done.
  - rewrite <- (lookup_take_lt _ (length cells)), tx_atts0, list_lookup_fmap, Hx by done. done.
Qed.

(** The first [j] places as they should be, blanks after the place [j]. *)
Record half (n : sline) (cells : list cell) (j : nat) : Prop := {
  hf_good : good n;
  hf_row : take j (row n) = take j (cells.*1);
  hf_att : take j (attributes n) = take j (cells.*2);
  hf_rest : forall k, (j < k < nc)%nat -> row n !! k = Some 32 /\ attributes n !! k = Some 0;
  hf_here : (j < nc)%nat -> (row n !! j = Some 0 \/ row n !! j = Some 32) /\ attributes n !! j = Some 0;
}.

Lemma nonzero_text cells k : Forall (fun c : cell => printable c.1 /\ 0 <= c.2 < 256) cells -> forallb truth (take k (cells.*1)) = true.
Proof.
  intros H. apply forallb_forall. intros c Hc.
  assert (Hin : In c (cells.*1)). { rewrite <- (take_drop k (cells.*1)). apply in_or_app. by left. }
  apply in_map_iff in Hin as (d & <- & Hd). rewrite List.Forall_forall in H. destruct (H d Hd) as [[? _] _]. unfold truth. lia.
Qed.

Lemma ink_put n cells j c a : half n cells j -> (j < nc)%nat -> Forall (fun c : cell => printable c.1 /\ 0 <= c.2 < 256) cells -> printable c -> forall x, (x < nc)%nat ->
  ink (n <| row := <[j := c]> (row n) |> <| attributes := <[j := a]> (attributes n) |>) x = if bool_decide (x = j) then (c, truth a) else ink n x.
Proof.
  intros [[Hr Ha He] Hrow Hatt Hrest Hhere] Hj Hcells Hc x Hx. unfold ink. fld. assert (Hnz : truth c = true) by (unfold printable in Hc; unfold truth; lia).
  pose proof (nonzero_text cells j Hcells) as Hpre. rewrite <- Hrow in Hpre. case_bool_decide as Ex.
  - subst x. rewrite (take_S_r _ _ c) by (apply list_lookup_insert_eq; lia). rewrite take_insert_ge by lia. rewrite forallb_app, Hpre. cbn. rewrite Hnz.
    by rewrite !list_lookup_total_insert_eq by lia.
  - destruct (decide (x < j)%nat).
    + rewrite take_insert_ge by lia. by rewrite !list_lookup_total_insert_ne by lia.
    + assert (Hxx : row n !! x = Some 32 /\ attributes n !! x = Some 0) by (apply Hrest; lia). destruct Hxx as [Hx1 Hx2].
      rewrite !list_lookup_total_insert_ne by lia. rewrite !(list_lookup_total_correct _ _ _ Hx1), !(list_lookup_total_correct _ _ _ Hx2).
      change (truth 0) with false. by repeat case_match.
Qed.

Lemma good_put n j c a : good n -> (j < nc)%nat -> good (n <| row := <[j := c]> (row n) |> <| attributes := <[j := a]> (attributes n) |>).
Proof. intros [Hr Ha He] Hj. constructor; fld; rewrite ?length_insert; try done. by rewrite list_lookup_insert_ne by lia. Qed.

Lemma half_put n cells j c : half n cells j -> (j < nc)%nat -> cells !! j = Some c ->
  half (n <| row := <[j := c.1]> (row n) |> <| attributes := <[j := c.2]> (attributes n) |>) cells (S j).
Proof.
  intros [Hg Hrow Hatt Hrest Hhere] Hj Hc. pose proof Hg as [Hr Ha He]. constructor; fld.
  - by apply good_put.
  - rewrite (take_S_r _ _ c.1) by (apply list_lookup_insert_eq; lia). rewrite take_insert_ge, Hrow by lia. rewrite (take_S_r (cells.*1) j c.1); [done|]. by rewrite list_lookup_fmap, Hc.
  - rewrite (take_S_r _ _ c.2) by (apply list_lookup_insert_eq; lia). rewrite take_insert_ge, Hatt by lia. rewrite (take_S_r (cells.*2) j c.2); [done|]. by rewrite list_lookup_fmap, Hc.
  - intros k Hk. rewrite !list_lookup_insert_ne by lia. apply Hrest. lia.
  - intros Hj'. rewrite !list_lookup_insert_ne by lia. destruct (Hrest (S j)) as [-> ->]; [lia|]. auto.
Qed.

(** The row [y] of the terminal shows the line. *)
Definition row_shows (s : curse) (y : nat) (n : sline) : Prop := forall x, (x < nc)%nat -> glyph (term s) y x = ink n x.

(** One line of curscr changed, and the row of the terminal with it. *)
Record drawn (s s' : curse) (y p : nat) (n n' : sline) : Prop := {
  dr_lines : lines s' = <[p := n']> (lines s);
  dr_row : row_shows s' y n';
  dr_rest : forall y' x, y' <> y -> glyph (term s') y' x = glyph (term s) y' x;
  dr_next : next_screen n' = next_screen n;
  dr_prev : prev_screen n' = prev_screen n;
  dr_vlines : virtual_lines s' = virtual_lines s;
  dr_able : nc_scrolling_ability s' = nc_scrolling_ability s;
}.

Lemma drawn_trans s1 s2 s3 y p n1 n2 n3 : drawn s1 s2 y p n1 n2 -> drawn s2 s3 y p n2 n3 -> drawn s1 s3 y p n1 n3.
Proof.
  intros [] []. constructor; try (by etransitivity); [by rewrite dr_lines1, dr_lines0, insert_insert_eq|done|]. intros y' x Hy'. by rewrite dr_rest1, dr_rest0.
Qed.

Lemma drawn_quiet s1 s2 s3 y p n n' : quiet s1 s2 -> drawn s2 s3 y p n n' -> drawn s1 s3 y p n n'.
Proof. intros (H1 & H2 & H3 & H4) []. constructor; try done; [by rewrite dr_lines0, H1|intros y' x Hy'; by rewrite dr_rest0, H2|by rewrite dr_vlines0|by rewrite dr_able0]. Qed.

Lemma drawn_refl s y p n : lines s !! p = Some n -> row_shows s y n -> drawn s s y p n n.
Proof. intros E H. constructor; try done. by rewrite insert_id. Qed.

(** Written to its end, or up to the last place of the screen. *)
Definition done_line (n : sline) (cells : list cell) (y : nat) : Prop :=
  half n cells (length cells) \/ S y = nl /\ length cells = nc /\ half n cells (nc - 1).

Lemma wp_write_line v q y p cells : text v cells -> (y < nl)%nat -> p <> q -> forall k j s n fuel (Q : Z -> curse -> Prop), length cells = (j + k)%nat -> (k <= fuel)%nat ->
  ok s -> aligned s -> Curr_y s = Z.of_nat y -> Curr_x s = Z.of_nat j -> lines s !! p = Some n -> lines s !! q = Some v -> half n cells j -> row_shows s y n ->
  (forall s' n', ok s' -> aligned s' -> Curr_y s' = Z.of_nat y -> Curr_x s' = Z.of_nat (length cells) -> drawn s s' y p n n' -> done_line n' cells y -> Q (Z.of_nat (length cells)) s') ->
  wp (write_line fuel (Some q) (Some p) (Z.of_nat nc) (Z.of_nat j)) Q X s.
Proof.
  intros Hv Hy Hpq. induction k as [|k IH]; intros j s n fuel Q Hlen Hf Hs Hal Cy Cx Ep Eq Hh Hrow H.
  - assert (Hend : wp (write_line fuel (Some q) (Some p) (Z.of_nat nc) (Z.of_nat j)) (fun r s' => r = Z.of_nat j /\ s' = s) X s).
    { destruct fuel; cbn [write_line]; (apply wp_bind; eapply wp_chr; [exact Eq|replace j with (length cells) by lia; apply (tx_end _ _ Hv)|]; by apply wp_ret). }
    eapply wp_mono; [exact Hend|]. intros r s' [-> ->]. replace j with (length cells) in * by lia. eapply H; [done..|by apply drawn_refl|by left].
  - destruct fuel as [|fuel]; [lia|]. destruct (lookup_lt_is_Some_2 cells j) as [c Hc]; [lia|]. destruct (text_at _ _ _ _ Hv Hc) as [Hc1 Hc2].
    pose proof (tx_len _ _ Hv) as Hnc. pose proof (tx_print _ _ Hv) as Hprint. destruct (proj1 (Forall_lookup _ _) Hprint j c Hc) as [Hpc Hat].
    cbn [write_line]. apply wp_bind. eapply wp_chr; [exact Eq|exact Hc1|]. replace (truth c.1 && _) with true by (unfold printable in Hpc; unfold truth; lia).
    apply wp_bind. eapply wp_atr; [exact Eq|exact Hc2|]. apply wp_bind. eapply wp_Char_out; [exact Hs|exact Hal|exact Hy| |exact Cy|exact Cx|exact Ep|apply (hf_good _ _ _ Hh)|exact Hpc|exact Hat|]; [lia|].
    intros s1 Hs1 Hal1 Hst1 Cy1 Cx1 Hv1 Hn1 Hw. replace (Z.of_nat j + 1) with (Z.of_nat (S j)) by lia. destruct Hw as [([Hl1 Hl2] & Hls & Hg)|(Hnl & Hls & Hg)].
    + assert (k = 0%nat) as -> by lia. assert (Hend : wp (write_line fuel (Some q) (Some p) (Z.of_nat nc) (Z.of_nat (S j))) (fun r s' => r = Z.of_nat (S j) /\ s' = s1) X s1).
      { destruct fuel; cbn [write_line]; (apply wp_bind; eapply wp_chr; [rewrite Hls; exact Eq|replace (S j) with (length cells) by lia; apply (tx_end _ _ Hv)|]; by apply wp_ret). }
      eapply wp_mono; [exact Hend|]. intros r s' [-> ->]. replace (S j) with (length cells) in * by lia. apply (H s1 n); try done.
      * constructor; try done; [by rewrite Hls, insert_id|intros x Hx; rewrite Hg; by apply Hrow|intros y' x _; by rewrite Hg].
      * right. split_and!; [done|lia|]. by replace (nc - 1)%nat with j by lia.
    + set (n1 := n <| row := _ |> <| attributes := _ |>) in Hls. assert (Hrow1 : row_shows s1 y n1).
      { intros x Hx. rewrite Hg. unfold n1. rewrite (ink_put n cells j) by (done || lia). case_bool_decide as E1; case_bool_decide as E2; [done|by destruct E1|by destruct E1|by apply Hrow]. }
      eapply (IH (S j) s1 n1); [lia|lia|done|done|done|done|by rewrite Hls, lookup_insert_eq|by rewrite Hls, lookup_insert_ne|apply half_put; [done|lia|done]|done|].
      intros s2 n2 Hs2 Hal2 Cy2 Cx2 Hd Hdone. apply (H s2 n2); try done. eapply drawn_trans; [|exact Hd]. constructor; try done.
      intros y' x Hy'. rewrite Hg. case_bool_decide as E1; [by destruct E1|done].
Qed.

(** *** Tests that change nothing *)

Lemma chr_run p n j c s : lines s !! p = Some n -> row n !! j = Some c -> chr (Some p) (Z.of_nat j) s = SRet c s.
Proof. intros E Hc. unfold chr, node, bind, gets, of_opt, ret. rewrite E. unfold aget. replace (_ <? 0) with false by lia. by rewrite Nat2Z.id, Hc. Qed.

Lemma atr_run p n j c s : lines s !! p = Some n -> attributes n !! j = Some c -> atr (Some p) (Z.of_nat j) s = SRet c s.
Proof. intros E Hc. unfold atr, node, bind, gets, of_opt, ret. rewrite E. unfold aget. replace (_ <? 0) with false by lia. by rewrite Nat2Z.id, Hc. Qed.

Lemma bind_run {A B} (m : C A) (f : A -> C B) a s : m s = SRet a s -> bind m f s = f a s.
Proof. intros H. unfold bind. by rewrite H. Qed.

Lemma nonzero_run p n j c s : lines s !! p = Some n -> row n !! j = Some c -> nonzero (Some p) (Z.of_nat j) s = SRet (truth c) s.
Proof. intros E Hc. unfold nonzero. by rewrite (bind_run _ _ _ _ (chr_run _ _ _ _ _ E Hc)). Qed.

Lemma same_run p n q v i j a b c d s : lines s !! p = Some n -> lines s !! q = Some v -> row n !! i = Some a -> attributes n !! i = Some b -> row v !! j = Some c -> attributes v !! j = Some d ->
  same (Some p) (Z.of_nat i) (Some q) (Z.of_nat j) s = SRet ((a =? c) && (b =? d)) s.
Proof.
  intros Ep Eq Ha Hb Hc Hd. unfold same. rewrite (bind_run _ _ _ _ (chr_run _ _ _ _ _ Ep Ha)), (bind_run _ _ _ _ (chr_run _ _ _ _ _ Eq Hc)). destruct (a =? c); [|done].
  by rewrite (bind_run _ _ _ _ (atr_run _ _ _ _ _ Ep Hb)), (bind_run _ _ _ _ (atr_run _ _ _ _ _ Eq Hd)).
Qed.

Lemma and_run (a b : C bool) x y s : a s = SRet x s -> b s = SRet y s -> and_ a b s = SRet (x && y) s.
Proof. intros Ha Hb. unfold and_. rewrite (bind_run _ _ _ _ Ha). by destruct x. Qed.

Lemma and_false (a b : C bool) s : a s = SRet false s -> and_ a b s = SRet false s.
Proof. intros Ha. unfold and_. by rewrite (bind_run _ _ _ _ Ha). Qed.

Lemma scan_run c s m : forall j fuel, (forall i, (i < m)%nat -> c (Z.of_nat (j + i)) s = SRet true s) -> c (Z.of_nat (j + m)) s = SRet false s -> (m <= fuel)%nat ->
  scan fuel c (Z.of_nat j) s = SRet (Z.of_nat (j + m)) s.
Proof.
  induction m as [|m IH]; intros j fuel Ht Hf Hm.
  - rewrite Nat.add_0_r in *. destruct fuel; cbn [scan]; by rewrite (bind_run _ _ _ _ Hf).
  - destruct fuel as [|fuel]; [lia|]. cbn [scan]. specialize (Ht 0%nat ltac:(lia)) as H0. rewrite Nat.add_0_r in H0. rewrite (bind_run _ _ _ _ H0).
    replace (Z.of_nat j + 1) with (Z.of_nat (S j)) by lia. replace (j + S m)%nat with (S j + m)%nat in * by lia. apply IH; [|done|lia].
    intros i Hi. replace (S j + i)%nat with (j + S i)%nat by lia. apply Ht. lia.
Qed.

Lemma wp_of_run {A} (m : C A) a s (Q : A -> curse -> Prop) : m s = SRet a s -> Q a s -> wp m Q X s.
Proof. intros H HQ. unfold wp. by rewrite H. Qed.

(** *** A line written again *)

Definition agree (n : sline) (cells : list cell) (m : nat) : Prop := take m (row n) = take m (cells.*1) /\ take m (attributes n) = take m (cells.*2).

Lemma agree_at n cells m i c : agree n cells m -> (i < m)%nat -> cells !! i = Some c -> row n !! i = Some c.1 /\ attributes n !! i = Some c.2.
Proof.
  intros [H1 H2] Hi Hc. split; rewrite <- (lookup_take_lt _ m) by done; [rewrite H1|rewrite H2]; by rewrite lookup_take_lt, list_lookup_fmap, Hc by done.
Qed.

(** Where the line starts to differ. *)
Lemma agree_up_to n cells : good n -> (length cells <= nc)%nat -> forall k, (k <= length cells)%nat -> exists m, (m <= k)%nat /\ agree n cells m /\
  (m = k \/ exists c a b, cells !! m = Some c /\ row n !! m = Some a /\ attributes n !! m = Some b /\ (a =? c.1) && (b =? c.2) = false).
Proof.
  intros [Hr Ha _] Hlen k. induction k as [|k IH]; intros Hk; [exists 0%nat; split_and!; [lia|by split; rewrite !take_0|by left]|].
  destruct IH as (m & Hm & Hag & Hd); [lia|]. destruct Hd as [->|Hd]; [|exists m; split_and!; [lia|done|by right]].
  destruct (lookup_lt_is_Some_2 cells k) as [c Hc]; [lia|]. destruct (lookup_lt_is_Some_2 (row n) k) as [a Hra]; [lia|]. destruct (lookup_lt_is_Some_2 (attributes n) k) as [b Hab]; [lia|].
  destruct ((a =? c.1) && (b =? c.2)) eqn:E; [|exists k; split_and!; [lia|done|right; by exists c, a, b]]. exists (S k). split_and!; [lia| |by left]. destruct Hag as [H1 H2].
  assert (a = c.1 /\ b = c.2) as [-> ->] by lia. split.
  - rewrite (take_S_r _ _ _ Hra), H1, (take_S_r _ _ c.1); [done|]. by rewrite list_lookup_fmap, Hc.
  - rewrite (take_S_r _ _ _ Hab), H2, (take_S_r _ _ c.2); [done|]. by rewrite list_lookup_fmap, Hc.
Qed.

Lemma at_line_keep h y p l n n' : at_line h y p -> h !! l = Some n -> next_screen n' = next_screen n -> prev_screen n' = prev_screen n -> at_line (<[l := n']> h) y p.
Proof. intros (A & B & Hs & HA & Hf) E Hn Hp. exists A, B. split; [by eapply seg_same|done]. Qed.

(** After the line has been cleared from a place on. *)
Lemma ink_clear n n' x0 : good n -> (x0 < nc)%nat -> row n' = <[x0 := 0]> (fill x0 (nc - x0) 32 (row n)) -> attributes n' = fill x0 (nc - x0) 0 (attributes n) ->
  forall x, ink n' x = if bool_decide (x0 <= x)%nat then (32, false) else ink n x.
Proof.
  intros [Hr Ha _] Hx0 Hrow Hatt x. unfold ink. rewrite Hrow, Hatt. case_bool_decide as E.
  - replace (forallb truth _) with false; [done|]. symmetry. apply not_true_iff_false. intros Hall. rewrite forallb_forall in Hall.
    enough (truth 0 = true) by done. apply Hall. apply list_elem_of_In. apply (list_elem_of_lookup_2 _ x0). rewrite lookup_take_lt by lia. apply list_lookup_insert_eq. rewrite length_fill; lia.
  - assert (Hf : forall (l : bytes) k d, (x < k)%nat -> length l = S nc -> (k <= nc)%nat -> take (S x) (fill k (nc - k) d l) = take (S x) l).
    { intros l k d Hk Hl Hkn. unfold fill. rewrite take_app_le by (rewrite length_take; lia). rewrite take_take. f_equal. lia. }
    assert (Ht : forall l1 l2 : bytes, take (S x) l1 = take (S x) l2 -> l1 !!! x = l2 !!! x).
    { intros l1 l2 Hl. rewrite !list_lookup_total_alt. f_equal. rewrite <- (lookup_take_lt l1 (S x)), Hl by lia. by rewrite lookup_take_lt by lia. }
    assert (E1 : take (S x) (<[x0 := 0]> (fill x0 (nc - x0) 32 (row n))) = take (S x) (row n)) by (rewrite take_insert_ge by lia; apply Hf; lia).
    by rewrite E1, (Ht _ _ E1), (Ht _ _ (Hf (attributes n) x0 0 ltac:(lia) Ha ltac:(lia))).
Qed.

Lemma clear_half n n' x0 cells : good n -> (x0 < nc)%nat -> row n' = <[x0 := 0]> (fill x0 (nc - x0) 32 (row n)) -> attributes n' = fill x0 (nc - x0) 0 (attributes n) ->
  agree n cells x0 -> half n' cells x0.
Proof.
  intros [Hr Ha He] Hx0 Hrow Hatt [H1 H2]. assert (Hl : forall (l : bytes) d k, length l = S nc -> (x0 <= k < nc)%nat -> fill x0 (nc - x0) d l !! k = Some d).
  { intros l d k Hl Hk. unfold fill. rewrite lookup_app_r by (rewrite length_take; lia). rewrite length_take, lookup_app_l by (rewrite length_replicate; lia). apply lookup_replicate_2. lia. }
  constructor.
  - constructor; rewrite ?Hrow, ?Hatt, ?length_insert, ?length_fill by lia; try done. rewrite list_lookup_insert_ne by lia. rewrite lookup_fill_ge by lia. done.
  - rewrite Hrow, take_insert_ge by lia. unfold fill. rewrite take_app_length' by (rewrite length_take; lia). done.
  - rewrite Hatt. unfold fill. rewrite take_app_length' by (rewrite length_take; lia). done.
  - intros k Hk. rewrite Hrow, Hatt, list_lookup_insert_ne by lia. split; apply Hl; (done || lia).
  - intros _. rewrite Hrow, Hatt. split; [left; apply list_lookup_insert_eq; rewrite length_fill; lia|apply Hl; (done || lia)].
Qed.

(** The cursor moved to a place of the line, or there already, and the line cleared from there on. *)
Lemma wp_clear_from s y x p n (Q : () -> curse -> Prop) : ok s -> aligned s -> (y < nl)%nat -> (x < nc)%nat -> (STAND s = true -> Curr_y s = Z.of_nat y /\ Curr_x s = Z.of_nat x) ->
  at_line (lines s) y p -> lines s !! p = Some n -> good n -> row_shows s y n ->
  (forall s' n', ok s' -> aligned s' -> STAND s' = false -> Curr_y s' = Z.of_nat y -> Curr_x s' = Z.of_nat x -> drawn s s' y p n n' -> 
     (forall cells, agree n cells x -> half n' cells x) -> row n' !! x = Some 0 -> Q tt s') ->
  wp (bind (Position vs (Z.of_nat y) (Z.of_nat x)) (fun _ => CLEAR_TO_EOL vs (Z.of_nat y) (Z.of_nat x))) Q X s.
Proof.
  intros Hs Hal Hy Hx Hst' Hat En Hg Hrow H. apply wp_bind. assert (Hgo : forall s1, ok s1 -> aligned s1 -> quiet s s1 -> Curr_y s1 = Z.of_nat y -> Curr_x s1 = Z.of_nat x ->
    wp (CLEAR_TO_EOL vs (Z.of_nat y) (Z.of_nat x)) Q X s1).
  { intros s1 Hs1 Hal1 Hq Hy1 Hx1. pose proof Hq as (Hl1 & Hg1 & _). eapply wp_CLEAR_TO_EOL; [exact Hs1|exact Hal1|exact Hy|exact Hx|exact Hy1|exact Hx1|rewrite Hl1; exact Hat|rewrite Hl1; exact En|exact Hg|].
    intros s2 n2 Hs2 Hal2 Hst2 Hy2 Hx2 Hv2 Hn2 Hl2 Hr2 Ha2 Hnx Hpv Hg2. apply (H s2 n2); try done.
    - eapply drawn_quiet; [exact Hq|]. constructor; try done.
      + intros x' Hx'. rewrite Hg2, (ink_clear n n2 x) by done. case_bool_decide as E1; case_bool_decide as E2; [done|by destruct E1|by destruct E1|]. rewrite Hg1. by apply Hrow.
      + intros y' x' Hy'. rewrite Hg2. case_bool_decide as E1; [by destruct E1|done].
    - intros cells Hag. by eapply clear_half.
    - rewrite Hr2. apply list_lookup_insert_eq. destruct Hg. rewrite length_fill; lia. }
  destruct (STAND s) eqn:E.
  - destruct (Hst' eq_refl) as [Cy Cx]. apply wp_Position_stay; [done|done|done|]. apply Hgo; try done.
  - apply wp_Position; [done|done|done|done|done|]. intros s1 Hs1 Hal1 Hq Hst1 Hy1 Hx1. by apply Hgo.
Qed.

Lemma agree_all v cells : text v cells -> agree v cells (length cells).
Proof. intros []. split; [by rewrite tx_cells0, take_ge by (by rewrite length_fmap)|by rewrite tx_atts0, take_ge by (by rewrite length_fmap)]. Qed.

Lemma wp_places p n s (Q : nat -> curse -> Prop) : lines s !! p = Some n -> Q (length (row n)) s -> wp (places (Some p)) Q X s.
Proof. intros E H. unfold places. apply wp_bind. eapply wp_nod; [exact E|]. by apply wp_ret. Qed.


(** The end of the loop over a line. *)
Lemma wp_rewrite_end fuel q v cells p y s (Q : Z -> curse -> Prop) : lines s !! q = Some v -> text v cells -> Q (Z.of_nat (length cells)) s ->
  wp (rewrite_line fuel vs y (Z.of_nat nc) false p (Some q) (Z.of_nat (length cells))) Q X s.
Proof.
  intros Eq Hv H. assert (Hc : and_ (ret (Z.of_nat (length cells) <? Z.of_nat nc)) (nonzero (Some q) (Z.of_nat (length cells))) s = SRet false s).
  { rewrite (and_run _ _ (Z.of_nat (length cells) <? Z.of_nat nc) (truth 0)); [by rewrite andb_false_r|done|]. by eapply nonzero_run; [exact Eq|apply (tx_end _ _ Hv)]. }
  destruct fuel; cbn [rewrite_line]; apply wp_bind; (eapply wp_of_run; [exact Hc|by apply wp_ret]).
Qed.

Lemma wp_rewrite_line s y p q n v cells fuel (Q : Z -> curse -> Prop) : ok s -> aligned s -> STAND s = false -> (y < nl)%nat -> (0 < fuel)%nat -> p <> q ->
  at_line (lines s) y p -> lines s !! p = Some n -> lines s !! q = Some v -> good n -> text v cells -> row_shows s y n ->
  (forall s' n', ok s' -> aligned s' -> drawn s s' y p n n' -> good n' -> (STAND s' = true -> Curr_y s' = Z.of_nat y /\ Curr_x s' = Z.of_nat (length cells)) ->
     (agree n' cells (length cells) \/ S y = nl /\ length cells = nc /\ half n' cells (nc - 1)) -> Q (Z.of_nat (length cells)) s') ->
  wp (rewrite_line fuel vs (Z.of_nat y) (Z.of_nat nc) false (Some p) (Some q) (Z.of_nat 0)) Q X s.
Proof.
  intros Hs Hal Hst' Hy Hf Hpq Hat Ep Eq Hg Hv Hrow H. pose proof (tx_len _ _ Hv) as Hlen. destruct cells as [|c0 cells0] eqn:Ecells.
  { apply (wp_rewrite_end fuel q v []); [done|done|]. apply (H s n); try done; [by apply drawn_refl|by rewrite Hst'|left; by split; rewrite !take_0]. }
  rewrite <- Ecells in *. assert (Hpos : (0 < length cells)%nat) by (rewrite Ecells; cbn; lia). clear Ecells c0 cells0. destruct fuel as [|fuel]; [lia|]. cbn [rewrite_line].
  assert (Hcell : forall i, (i < length cells)%nat -> exists c, cells !! i = Some c /\ row v !! i = Some c.1 /\ attributes v !! i = Some c.2 /\ truth c.1 = true).
  { intros i Hi. destruct (lookup_lt_is_Some_2 cells i Hi) as [c Hc]. exists c. destruct (text_at _ _ _ _ Hv Hc) as [H1 H2]. split_and!; try done.
    destruct (proj1 (Forall_lookup _ _) (tx_print _ _ Hv) i c Hc) as [[? _] _]. unfold truth. lia. }
  assert (Hcond : forall i, (i < length cells)%nat -> and_ (ret (Z.of_nat i <? Z.of_nat nc)) (nonzero (Some q) (Z.of_nat i)) s = SRet true s).
  { intros i Hi. destruct (Hcell i Hi) as (c & _ & Hc & _ & Ht). rewrite (and_run _ _ (Z.of_nat i <? Z.of_nat nc) (truth c.1)); [rewrite Ht; f_equal; lia|done|by eapply nonzero_run]. }
  apply wp_bind. eapply wp_of_run; [by apply Hcond|]. apply wp_bind. eapply wp_places; [exact Eq|]. rewrite (tx_row _ _ Hv).
  destruct (agree_up_to n cells Hg Hlen (length cells) ltac:(lia)) as (m & Hm & Hag & Hdiff). apply wp_bind.
  eapply (wp_of_run _ (Z.of_nat m)).
  { apply (scan_run _ s m 0); [| |lia].
    - intros i Hi. cbn [Nat.add]. destruct (Hcell i ltac:(lia)) as (c & Hc & Hc1 & Hc2 & Ht). destruct (agree_at _ _ _ _ _ Hag Hi Hc) as [Hn1 Hn2].
      rewrite (and_run _ _ true true); [done|rewrite (same_run _ _ _ _ _ _ _ _ _ _ _ Ep Eq Hn1 Hn2 Hc1 Hc2); f_equal; lia|apply Hcond; lia].
    - cbn [Nat.add]. destruct Hdiff as [->|(c & a & b & Hc & Hra & Hab & Hne)].
      + destruct (lookup_lt_is_Some_2 (row n) (length cells)) as [a Hra]; [destruct Hg; lia|]. destruct (lookup_lt_is_Some_2 (attributes n) (length cells)) as [b Hab]; [destruct Hg; lia|].
        destruct (lookup_lt_is_Some_2 (attributes v) (length cells)) as [d Hd]; [destruct Hv; lia|].
        rewrite (and_run _ _ ((a =? 0) && (b =? d)) false); [by rewrite andb_false_r|by apply (same_run _ _ _ _ _ _ _ _ _ _ _ Ep Eq Hra Hab (tx_end _ _ Hv) Hd)|].
        rewrite (and_run _ _ (Z.of_nat (length cells) <? Z.of_nat nc) (truth 0)); [by rewrite andb_false_r|done|by eapply nonzero_run; [exact Eq|apply (tx_end _ _ Hv)]].
      + destruct (text_at _ _ _ _ Hv Hc) as [Hc1 Hc2]. apply and_false. by rewrite (same_run _ _ _ _ _ _ _ _ _ _ _ Ep Eq Hra Hab Hc1 Hc2), Hne. }
  apply wp_bind, wp_ret. destruct (decide (m = length cells)) as [->|Hne].
  - apply wp_bind. eapply (wp_of_run _ false).
    { rewrite (and_run _ _ (Z.of_nat (length cells) <? Z.of_nat nc) (truth 0)); [by rewrite andb_false_r|done|by eapply nonzero_run; [exact Eq|apply (tx_end _ _ Hv)]]. }
    apply wp_bind, wp_ret. eapply wp_rewrite_end; [exact Eq|done|]. apply (H s n); try done; [by apply drawn_refl|by rewrite Hst'|by left].
  - apply wp_bind. eapply wp_of_run; [apply Hcond; lia|]. apply wp_bind, wp_bind.
    eapply wp_mono; [eapply wp_bind_inv, (wp_clear_from s y m p n (fun _ s1 => wp (bind (Position vs (Z.of_nat y) (Z.of_nat m)) (fun _ => write_line (S nc) (Some q) (Some p) (Z.of_nat nc) (Z.of_nat m)))
      (fun j s2 => wp (rewrite_line fuel vs (Z.of_nat y) (Z.of_nat nc) false (Some p) (Some q) j) Q X s2) X s1)); [exact Hs|exact Hal|exact Hy|lia|by rewrite Hst'|exact Hat|exact Ep|exact Hg|exact Hrow|]|].
    2:{ intros [] s1 Hs1. apply wp_bind. exact Hs1. }
    intros s1 n1 Hs1 Hal1 Hst1 Hy1 Hx1 Hd1 Hhalf _. apply wp_bind, wp_Position_stay; [done|done|done|]. specialize (Hhalf cells Hag).
    eapply (wp_write_line v q y p cells Hv Hy Hpq (length cells - m) m s1 n1); [lia|lia|done|done|done|done|by rewrite (dr_lines _ _ _ _ _ _ Hd1), lookup_insert_eq|
      by rewrite (dr_lines _ _ _ _ _ _ Hd1), lookup_insert_ne|done|apply (dr_row _ _ _ _ _ _ Hd1)|].
    intros s2 n2 Hs2 Hal2 Hy2 Hx2 Hd2 Hdone. pose proof (drawn_trans _ _ _ _ _ _ _ _ Hd1 Hd2) as Hd.
    eapply wp_rewrite_end; [by rewrite (dr_lines _ _ _ _ _ _ Hd), lookup_insert_ne|done|]. apply (H s2 n2); try done; destruct Hdone as [Hh|(? & ? & Hh)]; try apply (hf_good _ _ _ Hh).
    + left. destruct Hh. by split.
    + by right.
Qed.

(** What a text shows at a place. *)
Definition shown_at (cells : list cell) (x : nat) : glyph_of := match cells !! x with Some c => (c.1, truth c.2) | None => (32, false) end.

Lemma ink_agree n cells m x : agree n cells m -> (x < m)%nat -> (x < length cells)%nat -> Forall (fun c : cell => printable c.1 /\ 0 <= c.2 < 256) cells -> ink n x = shown_at cells x.
Proof.
  intros Hag Hx Hl Hp. destruct (lookup_lt_is_Some_2 cells x Hl) as [c Hc]. destruct (agree_at _ _ _ _ _ Hag Hx Hc) as [H1 H2]. destruct Hag as [Hr _].
  unfold ink, shown_at. rewrite Hc. replace (take (S x) (row n)) with (take (S x) (cells.*1)).
  - rewrite nonzero_text by done. by rewrite (list_lookup_total_correct _ _ _ H1), (list_lookup_total_correct _ _ _ H2).
  - apply (f_equal (take (S x))) in Hr. rewrite !take_take in Hr. by replace (S x `min` m)%nat with (S x) in Hr by lia.
Qed.

Lemma ink_after n cells x : row n !! length cells = Some 0 -> (length cells <= x)%nat -> ink n x = shown_at cells x.
Proof.
  intros H0 Hx. unfold ink, shown_at. rewrite (lookup_ge_None_2 cells) by done. replace (forallb truth _) with false; [done|]. symmetry. apply not_true_iff_false. intros Hall. rewrite forallb_forall in Hall.
  enough (truth 0 = true) by done. apply Hall, list_elem_of_In, (list_elem_of_lookup_2 _ (length cells)). by rewrite lookup_take_lt by lia.
Qed.

Lemma ink_text v cells x : text v cells -> ink v x = shown_at cells x.
Proof.
  intros Hv. destruct (decide (x < length cells)%nat); [|apply ink_after; [apply (tx_end _ _ Hv)|lia]].
  by apply (ink_agree _ _ (length cells)); [apply agree_all|..|apply (tx_print _ _ Hv)].
Qed.

(** The line as it should be, the last place of the screen apart. *)
Definition right_line (n : sline) (cells : list cell) (y : nat) : Prop := forall x, (x < nc)%nat -> ~ last_cell y x -> ink n x = shown_at cells x.

Lemma wp_clear_rest s y p q n v cells (Q : () -> curse -> Prop) : ok s -> aligned s -> (y < nl)%nat -> p <> q -> at_line (lines s) y p -> lines s !! p = Some n -> lines s !! q = Some v ->
  good n -> text v cells -> row_shows s y n -> (STAND s = true -> Curr_y s = Z.of_nat y /\ Curr_x s = Z.of_nat (length cells)) ->
  (agree n cells (length cells) \/ S y = nl /\ length cells = nc /\ half n cells (nc - 1)) ->
  (forall s' n', ok s' -> aligned s' -> drawn s s' y p n n' -> good n' -> (STAND s' = true -> Curr_y s' = Z.of_nat y /\ Curr_x s' = Z.of_nat (length cells)) -> right_line n' cells y -> Q tt s') ->
  wp (clear_rest vs (Z.of_nat y) (Some p) (Some q) (Z.of_nat (length cells))) Q X s.
Proof.
  intros Hs Hal Hy Hpq Hat Ep Eq Hg Hv Hrow Hst' Hag H. pose proof (tx_len _ _ Hv) as Hlen. pose proof (tx_print _ _ Hv) as Hprint. unfold clear_rest.
  destruct (lookup_lt_is_Some_2 (row n) (length cells)) as [c Hc]; [destruct Hg; lia|]. apply wp_bind. eapply (wp_of_run _ (truth c)).
  { rewrite (and_run _ _ true (truth c)); [done| |by eapply nonzero_run]. unfold negb_. by rewrite (bind_run _ _ _ _ (nonzero_run _ _ _ _ _ Eq (tx_end _ _ Hv))). }
  assert (Hdone : row n !! length cells = Some 0 -> right_line n cells y).
  { intros H0 x Hx Hnl. destruct Hag as [Hag|(Hl & Hl' & Hh)].
    - destruct (decide (x < length cells)%nat); [by apply (ink_agree _ _ (length cells))|apply ink_after; [done|lia]].
    - apply (ink_agree _ _ (nc - 1)); [destruct Hh; by split|unfold last_cell in Hnl; lia|lia|done]. }
  destruct (truth c) eqn:Et.
  - assert (Hlt : (length cells < nc)%nat). { destruct (decide (length cells = nc)) as [E|]; [|lia]. rewrite E, (gd_end _ Hg) in Hc. by injection Hc as <-. }
    destruct Hag as [Hag|(_ & ? & _)]; [|lia]. eapply wp_clear_from; [exact Hs|exact Hal|exact Hy|exact Hlt|exact Hst'|exact Hat|exact Ep|exact Hg|exact Hrow|].
    intros s' n' Hs' Hal' Hst1 Hy' Hx' Hd Hhalf H0. specialize (Hhalf cells Hag). apply (H s' n'); try done; [apply (hf_good _ _ _ Hhalf)|].
    intros x Hx _. destruct Hhalf. destruct (decide (x < length cells)%nat); [by apply (ink_agree _ _ (length cells))|apply ink_after; [done|lia]].
  - apply wp_ret. apply (H s n); try done; [by apply drawn_refl|]. apply Hdone. rewrite Hc. unfold truth in Et. f_equal. lia.
Qed.

Context (Hplain : (has (string_of tb ic__) || has (string_of tb im__)) && has (string_of tb dc__) = false).

(** What the update of a line leaves. *)
Record updated (s s' : curse) (y p q : nat) (n v n' : sline) : Prop := {
  up_lines : lines s' = <[q := v <| number := Z.of_nat y |>]> (<[p := n']> (lines s));
  up_good : good n';
  up_row : row_shows s' y n';
  up_rest : forall y' x, y' <> y -> glyph (term s') y' x = glyph (term s) y' x;
  up_next : next_screen n' = next_screen n;
  up_prev : prev_screen n' = prev_screen n;
}.

Lemma wp_update_line s y p q n v cells (Q : () -> curse -> Prop) : ok s -> aligned s -> STAND s = false -> (y < nl)%nat -> p <> q -> at_line (lines s) y p -> lines s !! p = Some n -> lines s !! q = Some v ->
  good n -> text v cells -> row_shows s y n ->
  (forall s' n', ok s' -> aligned s' -> STAND s' = false -> updated s s' y p q n v n' -> right_line n' cells y -> Q tt s') ->
  wp (update_line vs (Z.of_nat y) false (Some p) (Some q)) Q X s.
Proof.
  intros Hs Hal Hst' Hy Hpq Hat Ep Eq Hg Hv Hrow H. unfold update_line. apply wp_bind. eapply wp_wind; [done|exact Hvs|].
  apply wp_bind, wp_cap; [done|unfold ic__; lia|]. apply wp_bind, wp_cap; [done|unfold im__; lia|]. apply wp_bind, wp_cap; [done|unfold dc__; lia|].
  destruct (lookup_lt_is_Some_2 (row n) 0) as [c0 Hc0]; [destruct Hg; lia|]. apply wp_bind. eapply wp_of_run; [exact (nonzero_run _ _ 0 _ _ Ep Hc0)|].
  apply wp_bind. eapply wp_places; [exact Eq|]. rewrite Hplain, Hcols. apply wp_bind. change 0 with (Z.of_nat 0).
  eapply wp_rewrite_line; [exact Hs|exact Hal|exact Hst'|exact Hy|rewrite (tx_row _ _ Hv); lia|exact Hpq|exact Hat|exact Ep|exact Eq|exact Hg|exact Hv|exact Hrow|].
  intros s1 n1 Hs1 Hal1 Hd1 Hg1 Hst1 Hag1. pose proof (dr_lines _ _ _ _ _ _ Hd1) as Hl1. apply wp_bind.
  eapply (wp_clear_rest s1 y p q n1 v cells); [done|done|done|done| |by rewrite Hl1, lookup_insert_eq|by rewrite Hl1, lookup_insert_ne|done|done|apply (dr_row _ _ _ _ _ _ Hd1)|done|done|].
  { rewrite Hl1. eapply at_line_keep; [exact Hat|exact Ep|apply (dr_next _ _ _ _ _ _ Hd1)|apply (dr_prev _ _ _ _ _ _ Hd1)]. }
  intros s2 n2 Hs2 Hal2 Hd2 Hg2 Hst2 Hright. pose proof (drawn_trans _ _ _ _ _ _ _ _ Hd1 Hd2) as Hd. apply wp_bind, wp_read, wp_bind, wp_stand; [done|done|done|].
  intros s3 Hs3 Hal3 (Hl3 & Hg3 & Hv3 & Hn3) Hst3 Hy3 Hx3. eapply wp_updl; [by rewrite Hl3, (dr_lines _ _ _ _ _ _ Hd), lookup_insert_ne|].
  eapply (H _ n2); [by apply ok_heap|by apply aligned_heap|done| |done]. destruct Hd. constructor; try done.
  - cbn. by rewrite Hl3, dr_lines0.
  - intros x Hx. change (glyph (term s3) y x = ink n2 x). rewrite Hg3. by apply dr_row0.
  - intros y' x Hy'. change (glyph (term s3) y' x = glyph (term s) y' x). rewrite Hg3. by apply dr_rest0.
Qed.

(** *** All lines *)

Context (cids vids : list nat) (rows : list (list cell)) (h0 : gmap nat sline).
Context (Hcfirst : first_line Cw = head_or cids None) (Hvfirst : first_line V = head_or vids None).
Context (Hclen : length cids = nl) (Hvlen : length vids = nl) (Hrlen : length rows = nl).
Context (Hcnd : NoDup cids) (Hvnd : NoDup vids) (Hdis : forall l, l ∈ cids -> l ∉ vids).

(** The lines are linked, and no others have changed; those of curscr are on the terminal; the
    first [y] are as they should be. *)
Record sheet (s : curse) (y : nat) : Prop := {
  sh_c : seg (lines s) None cids None;
  sh_v : seg (lines s) None vids None;
  sh_off : off (cids ++ vids) h0 (lines s);
  sh_at : forall i p q cells, cids !! i = Some p -> vids !! i = Some q -> rows !! i = Some cells -> exists n v, lines s !! p = Some n /\ lines s !! q = Some v /\ good n /\ text v cells /\
    row_shows s i n /\ ((i < y)%nat -> right_line n cells i);
}.

Lemma seg_at h p ids q i l n : seg h p ids q -> ids !! i = Some l -> h !! l = Some n -> next_screen n = head_or (drop (S i) ids) q.
Proof.
  intros Hs Hi E. rewrite <- (take_drop_middle ids i l Hi) in Hs. apply seg_app in Hs as [_ [(m & Em & _ & Hn) _]]. rewrite E in Em. by injection Em as <-.
Qed.

Lemma at_line_of h y p : seg h None cids None -> cids !! y = Some p -> at_line h y p.
Proof.
  intros Hs Hp. exists (take y cids), (drop (S y) cids). rewrite take_drop_middle by done. split_and!; [done| |done]. apply lookup_lt_Some in Hp. rewrite length_take. lia.
Qed.

Lemma head_drop ids i (l : nat) : ids !! i = Some l -> head_or (drop i ids) None = Some l.
Proof. intros Hi. by rewrite (drop_S _ _ _ Hi). Qed.

Lemma sheet_line s s' y p q n v n' cells : sheet s y -> cids !! y = Some p -> vids !! y = Some q -> rows !! y = Some cells -> lines s !! p = Some n -> lines s !! q = Some v ->
  updated s s' y p q n v n' -> right_line n' cells y -> sheet s' (S y).
Proof.
  intros [Hc Hv Hoff Hat] Hp Hq Hcells En Ev [Hl Hg Hrow Hrest Hnx Hpv] Hright. assert (Hpq : p <> q) by (intros ->; by apply (Hdis q); eapply list_elem_of_lookup_2).
  assert (Ev1 : <[p := n']> (lines s) !! q = Some v) by (by rewrite lookup_insert_ne).
  constructor; rewrite ?Hl; [eapply seg_same; [exact Ev1|done|done|]; by eapply seg_same..| |].
  { intros l Hx. rewrite !lookup_insert_ne; [by apply Hoff|intros <-; apply Hx, elem_of_app; left; by eapply list_elem_of_lookup_2|intros <-; apply Hx, elem_of_app; right; by eapply list_elem_of_lookup_2]. }
  intros i p' q' cells' Hp' Hq' Hcells'.
  destruct (Hat i p' q' cells' Hp' Hq' Hcells') as (ni & vi & Eni & Evi & Hgi & Hti & Hri & Hok). assert (Hpq' : p' <> q) by (intros ->; by apply (Hdis q); eapply list_elem_of_lookup_2).
  assert (Hqp' : q' <> p) by (intros ->; by apply (Hdis p); eapply list_elem_of_lookup_2). destruct (decide (i = y)) as [->|Hi].
  - simplify_eq. exists n', (v <| number := Z.of_nat y |>). rewrite lookup_insert_ne, !lookup_insert_eq by done. split_and!; try done. by destruct Hti.
  - assert (Hpp : p' <> p) by (intros ->; apply Hi; by apply (NoDup_lookup cids i y p)). assert (Hqq : q' <> q) by (intros ->; apply Hi; by apply (NoDup_lookup vids i y q)).
    exists ni, vi. rewrite !lookup_insert_ne by done. split_and!; try done; [|intros Hlt; apply Hok; lia]. intros x Hx. by rewrite Hrest, Hri by done.
Qed.

Lemma wp_update_lines k : forall y s (Q : () -> curse -> Prop), (y + k = nl)%nat -> ok s -> aligned s -> STAND s = false -> sheet s y ->
  (forall s', ok s' -> aligned s' -> STAND s' = false -> sheet s' nl -> Q tt s') ->
  wp (update_lines k vs (Z.of_nat y) false (head_or (drop y cids) None) (head_or (drop y vids) None)) Q X s.
Proof.
  induction k as [|k IH]; intros y s Q Hk Hs Hal Hst' Hsh H; cbn [update_lines].
  { apply wp_ret, H; try done. by replace nl with y by lia. }
  destruct (lookup_lt_is_Some_2 cids y) as [p Hp]; [lia|]. destruct (lookup_lt_is_Some_2 vids y) as [q Hq]; [lia|]. destruct (lookup_lt_is_Some_2 rows y) as [cells Hcells]; [lia|].
  destruct (sh_at _ _ Hsh y p q cells Hp Hq Hcells) as (n & v & En & Ev & Hg & Hv & Hrow & _). rewrite (head_drop _ _ _ Hp), (head_drop _ _ _ Hq).
  assert (Hpq : p <> q) by (intros ->; by apply (Hdis q); eapply list_elem_of_lookup_2). apply wp_bind.
  eapply wp_update_line; [exact Hs|exact Hal|exact Hst'|lia|exact Hpq|by apply at_line_of; [apply (sh_c _ _ Hsh)|]|exact En|exact Ev|exact Hg|exact Hv|exact Hrow|].
  intros s1 n1 Hs1 Hal1 Hst1 Hup Hright. pose proof (sheet_line _ _ _ _ _ _ _ _ _ Hsh Hp Hq Hcells En Ev Hup Hright) as Hsh1.
  destruct (sh_at _ _ Hsh1 y p q cells Hp Hq Hcells) as (n2 & v2 & En2 & Ev2 & _). apply wp_bind. eapply wp_nod; [exact En2|]. apply wp_bind. eapply wp_nod; [exact Ev2|].
  rewrite (seg_at _ _ _ _ _ _ _ (sh_c _ _ Hsh1) Hp En2), (seg_at _ _ _ _ _ _ _ (sh_v _ _ Hsh1) Hq Ev2). replace (Z.of_nat y + 1) with (Z.of_nat (S y)) by lia. apply IH; try done. lia.
Qed.

(** *** Comparing the screens *)

Lemma scan_least c s M : forall k j fuel, (j + k = M)%nat -> (forall i, (i <= M)%nat -> exists b, c (Z.of_nat i) s = SRet b s) -> c (Z.of_nat M) s = SRet false s -> (k <= fuel)%nat ->
  exists m, (m <= M)%nat /\ scan fuel c (Z.of_nat j) s = SRet (Z.of_nat m) s.
Proof.
  induction k as [|k IH]; intros j fuel Hj Hr Hf Hk.
  - exists j. split; [lia|]. replace M with j in Hf by lia. destruct fuel; cbn [scan]; by rewrite (bind_run _ _ _ _ Hf).
  - destruct fuel as [|fuel]; [lia|]. destruct (Hr j) as [b Hb]; [lia|]. cbn [scan]. rewrite (bind_run _ _ _ _ Hb). destruct b; [|exists j; split; [lia|done]].
    replace (Z.of_nat j + 1) with (Z.of_nat (S j)) by lia. apply IH; [lia|done|done|lia].
Qed.

Lemma Comp_line_run s p q n v cells : lines s !! p = Some n -> lines s !! q = Some v -> good n -> text v cells -> exists z, Comp_line (Some p) (Some q) s = SRet z s.
Proof.
  intros Ep Eq Hg Hv. pose proof (tx_len _ _ Hv) as Hlen. assert (Hread : forall i, (i <= length cells)%nat -> exists a b c d,
    row n !! i = Some a /\ attributes n !! i = Some b /\ row v !! i = Some c /\ attributes v !! i = Some d).
  { intros i Hi. destruct Hg, Hv. destruct (lookup_lt_is_Some_2 (row n) i) as [a ?]; [lia|]. destruct (lookup_lt_is_Some_2 (attributes n) i) as [b ?]; [lia|].
    destruct (lookup_lt_is_Some_2 (row v) i) as [c ?]; [lia|]. destruct (lookup_lt_is_Some_2 (attributes v) i) as [d ?]; [lia|]. by exists a, b, c, d. }
  assert (Hnode : forall l m, lines s !! l = Some m -> node (Some l) s = SRet m s) by (intros l m E; unfold node, bind, gets, of_opt, ret; by rewrite E).
  unfold Comp_line. rewrite (bind_run _ _ _ _ (Hnode _ _ Ep)), (bind_run _ _ _ _ (Hnode _ _ Eq)). destruct (negb _); [by exists 2|].
  destruct (scan_least (fun i => and_ (nonzero (Some p) i) (and_ (nonzero (Some q) i) (same (Some p) i (Some q) i))) s (length cells) (length cells) 0 (length (row n))) as (m & Hm & Hscan).
  - done.
  - intros i Hi. destruct (Hread i Hi) as (a & b & c & d & Ha & Hb & Hc & Hd). eexists. apply and_run; [by eapply nonzero_run|]. apply and_run; [by eapply nonzero_run|by eapply same_run].
  - destruct (Hread (length cells) ltac:(lia)) as (a & b & c & d & Ha & Hb & Hc & Hd). rewrite (and_run _ _ (truth a) false); [by rewrite andb_false_r|by eapply nonzero_run|].
    apply and_false. by rewrite (nonzero_run _ _ _ _ _ Eq (tx_end _ _ Hv)).
  - destruct Hg. lia.
  - change (Z.of_nat 0) with 0 in Hscan. rewrite (bind_run _ _ _ _ Hscan). destruct (Hread m Hm) as (a & b & c & d & Ha & _ & Hc & _).
    rewrite (bind_run _ _ _ _ (chr_run _ _ _ _ _ Ep Ha)), (bind_run _ _ _ _ (chr_run _ _ _ _ _ Eq Hc)). repeat (destruct (_ && _)); by eexists.
Qed.

Lemma ok_vlines s l : ok s -> (nl <= length l)%nat -> ok (s <| virtual_lines := l |>).
Proof. intros [] Hl. by constructor. Qed.

Lemma aligned_vlines s l : aligned s -> aligned (s <| virtual_lines := l |>).
Proof. intros []. by constructor. Qed.

Lemma sheet_vlines s l y : sheet s y -> sheet (s <| virtual_lines := l |>) y.
Proof. intros []. by constructor. Qed.

Lemma vlines_twice (s : curse) l l' : s <| virtual_lines := l |> <| virtual_lines := l' |> = s <| virtual_lines := l' |>.
Proof. done. Qed.

Lemma wp_comp_lines k : forall y s (Q : bool -> curse -> Prop), (y + k = nl)%nat -> sheet s 0 -> (nl <= length (virtual_lines s))%nat ->
  (forall b l, (nl <= length l)%nat -> Q b (s <| virtual_lines := l |>)) ->
  wp (comp_lines k (Z.of_nat y) (head_or (drop y cids) None) (head_or (drop y vids) None)) Q X s.
Proof.
  induction k as [|k IH]; intros y s Q Hk Hsh Hlen H; cbn [comp_lines].
  { apply wp_ret. replace s with (s <| virtual_lines := virtual_lines s |>) by (by destruct s). by apply H. }
  destruct (lookup_lt_is_Some_2 cids y) as [p Hp]; [lia|]. destruct (lookup_lt_is_Some_2 vids y) as [q Hq]; [lia|]. destruct (lookup_lt_is_Some_2 rows y) as [cells Hcells]; [lia|].
  destruct (sh_at _ _ Hsh y p q cells Hp Hq Hcells) as (n & v & En & Ev & Hg & Hv & _). rewrite (head_drop _ _ _ Hp), (head_drop _ _ _ Hq).
  destruct (Comp_line_run s p q n v cells En Ev Hg Hv) as [z Hz]. apply wp_bind. eapply wp_of_run; [exact Hz|]. apply wp_bind. unfold set_virtual. apply wp_bind, wp_read, wp_bind.
  eapply wp_of_opt; [apply aset_in; lia|]. apply wp_modify. rewrite Nat2Z.id. set (l1 := <[y := _]> (virtual_lines s)). assert (Hl1 : (nl <= length l1)%nat) by (unfold l1; by rewrite length_insert).
  apply wp_bind. eapply wp_nod; [exact En|]. apply wp_bind. eapply wp_nod; [exact Ev|]. apply wp_bind.
  rewrite (seg_at _ _ _ _ _ _ _ (sh_c _ _ Hsh) Hp En), (seg_at _ _ _ _ _ _ _ (sh_v _ _ Hsh) Hq Ev). replace (Z.of_nat y + 1) with (Z.of_nat (S y)) by lia.
  apply IH; [lia|by apply sheet_vlines|done|]. intros b l Hl. apply wp_ret. rewrite vlines_twice. by apply H.
Qed.

Lemma virtual_at_run s i : (i < length (virtual_lines s))%nat -> exists b, virtual_at (Z.of_nat i) s = SRet b s.
Proof.
  intros Hi. destruct (lookup_lt_is_Some_2 _ _ Hi) as [b Hb]. exists b. unfold virtual_at, bind, gets, of_opt, ret, aget. replace (_ <? 0) with false by lia. by rewrite Nat2Z.id, Hb.
Qed.

Lemma wp_last_diff k : forall fuel s (Q : Z -> curse -> Prop), (k <= length (virtual_lines s))%nat -> (k <= fuel)%nat -> (forall z, Q z s) -> wp (last_diff fuel (Z.of_nat k)) Q X s.
Proof.
  induction k as [|k IH]; intros fuel s Q Hl Hf H.
  - destruct fuel; cbn [last_diff]; apply wp_bind; (eapply (wp_of_run _ false); [by apply and_false|by apply wp_ret]).
  - destruct fuel as [|fuel]; [lia|]. destruct (virtual_at_run s k) as [b Hb]; [lia|]. cbn [last_diff]. replace (Z.of_nat (S k) - 1) with (Z.of_nat k) by lia. apply wp_bind.
    eapply (wp_of_run _ (true && b)); [apply and_run; [f_equal; lia|done]|]. destruct b; [apply IH; [lia|lia|done]|by apply wp_ret].
Qed.

Lemma wp_scroll_lines s (Q : () -> curse -> Prop) : ok s -> sheet s 0 -> (forall l, (nl <= length l)%nat -> Q tt (s <| virtual_lines := l |>)) -> wp (scroll_lines vs) Q X s.
Proof.
  intros Hs Hsh H. pose proof (ok_vl _ Hs) as Hlen. pose proof (ok_able _ Hs) as Hable. unfold scroll_lines. apply wp_bind. eapply wp_wind; [done|exact Hvs|]. apply wp_bind, wp_read. rewrite (ok_cur _ Hs). apply wp_bind. eapply wp_wind; [done|exact Hcs|].
  rewrite Hrows, Nat2Z.id, Hcfirst, Hvfirst. apply wp_bind. change 0 with (Z.of_nat 0) at 1. rewrite <- (drop_0 cids) at 1. rewrite <- (drop_0 vids) at 1.
  apply wp_comp_lines; [done|done|done|]. intros b l Hl. destruct b; [|by apply wp_ret, H]. set (s1 := s <| virtual_lines := l |>). apply wp_bind, wp_last_diff; [done|done|]. intros first. apply wp_bind.
  unfold next_same. apply wp_bind. eapply wp_wind; [by apply ok_vlines|exact Hvs|]. rewrite Hrows, Nat2Z.id.
  destruct (scan_least (fun i => and_ (ret (i <? Z.of_nat nl)) (negb_ (virtual_at i))) s1 nl nl 0 nl) as (m & _ & Hscan); [done| |by apply and_false; unfold ret; rewrite Z.ltb_irrefl|done|].
  { intros i Hi. destruct (decide (i = nl)) as [->|]; [exists false; apply and_false; unfold ret; by rewrite Z.ltb_irrefl|]. destruct (virtual_at_run s1 i) as [b Hb]; [cbn; lia|].
    eexists. apply and_run; [done|]. unfold negb_. by rewrite (bind_run _ _ _ _ Hb). }
  change 0 with (Z.of_nat 0). eapply wp_of_run; [exact Hscan|]. assert (Hloop : forall fuel a b c d e, wp (scroll_loop fuel vs a b c d e) Q X s1).
  { intros fuel a b c d e. destruct fuel; cbn [scroll_loop]; apply wp_bind, wp_read; change (nc_scrolling_ability s1) with (nc_scrolling_ability s); rewrite Hable, andb_false_r; by apply wp_ret, H. }
  apply Hloop.
Qed.

Lemma wp_doupdate s y x (Q : () -> curse -> Prop) : ok s -> aligned s -> STAND s = false -> sheet s 0 -> LY V = Z.of_nat y -> LX V = Z.of_nat x -> (y < nl)%nat -> (x < nc)%nat ->
  (forall s', ok s' -> aligned s' -> STAND s' = false -> sheet s' nl -> cursor (term s') = (y, x) -> Q tt s') -> wp doupdate Q X s.
Proof.
  intros Hs Hal Hst' Hsh HLY HLX Hy Hx H. unfold doupdate. apply wp_bind, wp_read. rewrite (ok_virt _ Hs). apply wp_bind, wp_read. rewrite (ok_big5 _ Hs). apply wp_bind.
  unfold repaint. apply wp_bind, wp_read. rewrite (ok_paint _ Hs). apply wp_ret, wp_bind, wp_scroll_lines; [done|done|]. intros l Hl. set (s1 := s <| virtual_lines := l |>).
  assert (Hs1 : ok s1) by (by apply ok_vlines). apply wp_bind. eapply wp_wind; [exact Hs1|exact Hvs|]. apply wp_bind, wp_read. rewrite (ok_cur _ Hs1). apply wp_bind. eapply wp_wind; [exact Hs1|exact Hcs|].
  rewrite HSR, Hrows, Nat2Z.id, Hcfirst, Hvfirst. apply wp_bind, wp_ret, wp_bind. change 0 with (Z.of_nat 0). rewrite <- (drop_0 cids) at 1. rewrite <- (drop_0 vids) at 1.
  apply wp_update_lines; [done|done|by apply aligned_vlines|done|by apply sheet_vlines|]. intros s2 Hs2 Hal2 Hst2 Hsh2. apply wp_bind. eapply wp_wind; [done|exact Hvs|]. rewrite HLY, HLX.
  apply wp_Position; [done|done|done|done|done|]. intros s3 Hs3 Hal3 (Hl3 & Hg3 & _) Hst3 Hy3 Hx3. apply H; try done; [|by apply (al_cursor _ Hal3)].
  destruct Hsh2. constructor; rewrite ?Hl3; try done. intros i p q cells Hp Hq Hc. destruct (sh_at0 i p q cells Hp Hq Hc) as (n & v & H1 & H2 & H3 & H4 & H5 & H6). exists n, v.
  split_and!; try done. intros x' Hx'. rewrite Hg3. by apply H5.
Qed.
End Show.

(** The terminal and the two screens of the program: the virtual one has [rows] and the cursor at
    [y], [x], and curscr has what is on the terminal. *)
Record screens {cpm tb nl nc T} `{!Display cpm tb nl nc T} (t0 : T) (s : curse) (V Cw : WINDOW) (cids vids : list nat) (rows : list (list cell)) : Prop := {
  sc_ok : ok cpm tb nl nc T t0 (virtual_scr s) (curscr s) (windows s) s;
  sc_aligned : aligned cpm tb nl nc T t0 s;
  sc_stand : STAND s = false;
  sc_sheet : sheet cpm tb nl nc T t0 cids vids rows (lines s) s 0;
  sc_virtual : windows s !! virtual_scr s = Some V;
  sc_current : windows s !! curscr s = Some Cw;
  sc_place : SR V = 0 /\ SC V = 0 /\ Num_cols V = Z.of_nat nc /\ Num_lines V = Z.of_nat nl;
  sc_first : first_line Cw = head_or cids None /\ first_line V = head_or vids None;
  sc_len : length cids = nl /\ length vids = nl /\ length rows = nl;
  sc_nodup : NoDup cids /\ NoDup vids;
  sc_apart : forall l, l ∈ cids -> l ∉ vids;
  sc_tables : length (String_table tb) = 1024%nat /\ length (Booleans tb) = 128%nat;
}.

Section Update.
Context {cpm : spec_float} {tb : info} {nl nc : nat} {T : Type} `{!Display cpm tb nl nc T} (t0 : T).

(** Characters are not inserted and deleted on such a terminal. *)
Definition plain : Prop := (has (string_of tb ic__) || has (string_of tb im__)) && has (string_of tb dc__) = false.

(** Every cell as [rows] have it, but the last one of the last line. *)
Definition displays (t : T) (rows : list (list cell)) : Prop :=
  forall i x cells, rows !! i = Some cells -> (x < nc)%nat -> ~ last_cell nl nc i x -> glyph t i x = shown_at cells x.

Lemma wp_update s V Cw cids vids rows y x X (Q : () -> curse -> Prop) : screens t0 s V Cw cids vids rows -> plain -> LY V = Z.of_nat y -> LX V = Z.of_nat x -> (y < nl)%nat -> (x < nc)%nat ->
  (forall s', screens t0 s' V Cw cids vids rows -> windows s' = windows s -> virtual_scr s' = virtual_scr s -> off (cids ++ vids) (lines s) (lines s') -> displays (feed (output s') t0) rows -> cursor (feed (output s') t0) = (y, x) -> Q tt s') ->
  wp doupdate Q X s.
Proof.
  intros [Hok Hal Hst Hsh HV HC (HSR & HSC & Hcols & Hrows) (Hf1 & Hf2) (Hl1 & Hl2 & Hl3) (Hn1 & Hn2) Hap (Ht1 & Ht2)] Hp HLY HLX Hy Hx H.
  eapply (wp_doupdate cpm tb nl nc T t0 (virtual_scr s) (curscr s) V Cw (windows s)); try done. intros s' Hok' Hal' Hst' Hsh' Hcur.
  pose proof (ok_windows _ _ _ _ _ _ _ _ _ _ Hok') as Hw. pose proof (ok_virt _ _ _ _ _ _ _ _ _ _ Hok') as Hv. pose proof (ok_cur _ _ _ _ _ _ _ _ _ _ Hok') as Hc.
  apply H; try done; [|apply (sh_off _ _ _ _ _ _ _ _ _ _ _ _ Hsh')|].
  - constructor; rewrite ?Hw, ?Hv, ?Hc; try done. destruct Hsh' as [Hs1 Hs2 _ Hat]. constructor; [done|done|apply off_refl|]. intros i p q cells Hi Hq Hcells.
    destruct (Hat i p q cells Hi Hq Hcells) as (n & v & H1 & H2 & H3 & H4 & H5 & _). exists n, v. split_and!; try done. lia.
  - intros i x' cells Hcells Hx' Hlast. pose proof (lookup_lt_Some _ _ _ Hcells). destruct (lookup_lt_is_Some_2 cids i) as [p Hp']; [lia|]. destruct (lookup_lt_is_Some_2 vids i) as [q Hq]; [lia|].
    destruct (sh_at _ _ _ _ _ _ _ _ _ _ _ _ Hsh' i p q cells Hp' Hq Hcells) as (n & v & _ & _ & _ & _ & Hrow & Hr). specialize (Hr ltac:(lia)). unfold row_shows, term in Hrow. rewrite Hrow by done. by apply Hr.
Qed.
End Update.

Section Shows.
Context {cpm : spec_float} {tb : info} {nl nc : nat} {T : Type} `{!Display cpm tb nl nc T} (t0 : T).

End Shows.

(** ** An example

    An ANSI terminal of two lines and four columns, blank; the virtual screen has a line of
    two characters, the second one in standout.  There is a window on the second line. *)

#[export] Instance small_display : Display (S754_zero false) ansi_info 2 4 ansi := ansi_display (S754_zero false) 2 4 eq_refl eq_refl.

Definition blank_page : ansi := Ansi (fun _ _ => (32, false)) 0 0 false Ground.

Definition demo_rows : list (list cell) := [[(97, 0); (98, 1)]; []].

Definition demo_lines : gmap nat sline :=
  {[0%nat := Sline (Some 1%nat) None empty_row (replicate 5 0) 0 false 0 0; 1%nat := Sline None (Some 0%nat) empty_row (replicate 5 0) 0 false 0 1;
    2%nat := Sline (Some 3%nat) None [97; 98; 0; 32; 0] [0; 1; 0; 0; 0] 2 true 0 0; 3%nat := Sline None (Some 2%nat) empty_row (replicate 5 0) 0 false 0 1;
    4%nat := Sline None None [120; 0; 32; 32; 0] (replicate 5 0) 1 true 0 0]}.

Definition demo_cur : WINDOW := Window 0 0 0 0 0 2 4 0 0 0 (Some 0%nat) [Some 0%nat; Some 1%nat].
Definition demo_virt : WINDOW := Window 0 0 2 0 0 2 4 0 0 0 (Some 2%nat) [Some 2%nat; Some 3%nat].

Definition demo_win : WINDOW := Window 1 0 1 0 0 1 4 0 0 3 (Some 4%nat) [Some 4%nat; None].

Definition demo_state : curse :=
  Curse demo_lines {[10%nat := demo_cur; 11%nat := demo_virt; 12%nat := demo_win]} 20 2 4 ansi_info (replicate 27 0) (S754_zero false) 10 11 None [false; false] false 0 0 false 0 [0; 0] false [].

Lemma demo_screens : screens blank_page demo_state demo_virt demo_cur [0%nat; 1%nat] [2%nat; 3%nat] demo_rows.
Proof.
  constructor; try reflexivity; try (split_and!; reflexivity).
  - constructor; (reflexivity || (cbn; lia)).
  - constructor; [reflexivity|]. cbn. intros y x Ey Ex _. f_equal; lia.
  - constructor; [cbn [seg head_or]; split_and!; [| |done]; eexists; (split; [reflexivity|done])..|apply off_refl|].
    intros [|[|i]] p q cells Hp Hq Hc; cbn in Hp, Hq, Hc; simplify_eq; eexists _, _; (split_and!; [reflexivity|reflexivity|by constructor|..|lia]).
    + constructor; try (cbn; reflexivity || lia). repeat constructor; cbn; (lia || done).
    + intros x Hx. done.
    + constructor; try (cbn; reflexivity || lia). constructor.
    + intros x Hx. done.
  - split; repeat constructor; set_solver.
  - set_solver.
Qed.

End CurseShow.
