(* ===== verification/CurseRefresh.v ===== *)
(** * new_curse: refreshing a window

    [wnoutrefresh] copies a window of the full width to its lines of the virtual screen, and
    [wrefresh] with it shows the window on the terminal. *)

From S2P Require Import Prelude Monad CurseTerm CurseInfo CurseWindow CurseScreen CurseUpdate CurseDisplay CurseShow.
From stdpp Require Import base list gmap numbers.
From Stdlib Require Import ZArith Lia ZifyBool SpecFloat.

Open Scope Z_scope.

Module CurseRefresh.

Import CurseInfo CurseWindow CurseScreen CurseUpdate CurseDisplay CurseShow.

(** Characters a terminal prints. *)
Abbreviation printed := (Forall (fun c : cell => printable c.1 /\ 0 <= c.2 < 256)).

(** The first [j] elements of [r] those of [l]. *)
Definition over {A} (j : nat) (l r : list A) : list A := take j l ++ drop j r.

Lemma over_next {A} j (l r : list A) c : l !! j = Some c -> (j < length r)%nat -> <[j := c]> (over j l r) = over (S j) l r.
Proof.
  intros Hl Hr. pose proof (lookup_lt_Some _ _ _ Hl). destruct (lookup_lt_is_Some_2 r j Hr) as [d Hd]. unfold over. rewrite (take_S_r _ _ _ Hl), (drop_S _ _ _ Hd), <- app_assoc.
  replace j with (length (take j l) + 0)%nat at 1 by (rewrite length_take; lia). by rewrite insert_app_r.
Qed.

Lemma length_over {A} j (l r : list A) : (j <= length l)%nat -> (j <= length r)%nat -> length (over j l r) = length r.
Proof. intros H1 H2. unfold over. rewrite length_app, length_take, length_drop. lia. Qed.

Section Lines.
Context (s : curse) (ws : gmap nat WINDOW) (X : Z -> bytes -> curse -> Prop) (nc : nat).

(** A line with the first [j] cells copied to it. *)
Definition copied (j : nat) (cells : list cell) (v : sline) : sline := v <| row := over j (cells.*1) (row v) |> <| attributes := over j (cells.*2) (attributes v) |>.

Lemma wp_copy_text user virt u v cells : user <> virt -> line_ok nc u cells -> printed cells -> length (row v) = S nc -> length (attributes v) = S nc ->
  forall k j fuel h (Q : () -> curse -> Prop), length cells = (j + k)%nat -> (k <= fuel)%nat -> h !! user = Some u -> h !! virt = Some (copied j cells v) ->
  Q tt (st s (<[virt := copied (length cells) cells v]> h) ws) -> wp (copy_text fuel (Some user) (Some virt) (Z.of_nat nc) (Z.of_nat j) (Z.of_nat j)) Q X (st s h ws).
Proof.
  intros Hne [Hr Ha Hlast Hlen Hc Hat _ _] Hp Hrv Hav. induction k as [|k IH]; intros j fuel h Q Hj Hf Eu Ev H.
  - assert (Hend : forall f, wp (copy_text f (Some user) (Some virt) (Z.of_nat nc) (Z.of_nat j) (Z.of_nat j)) Q X (st s h ws)); [|apply Hend].
    intros f. destruct f; cbn [copy_text]; apply wp_bind; (eapply wp_at_line; [exact Eu|]); rewrite Hlast; replace (_ && _) with false by lia; apply wp_ret; rewrite insert_id in H; try done; by replace (length cells) with j by lia.
  - destruct fuel as [|fuel]; [lia|]. cbn [copy_text]. apply wp_bind. eapply wp_at_line; [exact Eu|]. rewrite Hlast. replace (_ && _) with true by lia.
    destruct (lookup_lt_is_Some_2 cells j) as [c Hcj]; [lia|]. destruct (proj1 (Forall_lookup _ _) Hp j c Hcj) as [[Hc1 _] Hc2].
    assert (H1 : row u !! j = Some c.1) by (rewrite <- (lookup_take_lt _ (length cells)), Hc, list_lookup_fmap, Hcj by lia; done).
    assert (H2 : attributes u !! j = Some c.2) by (rewrite <- (lookup_take_lt _ (length cells)), Hat, list_lookup_fmap, Hcj by lia; done).
    assert (Hg : forall (l : bytes) x, l !! j = Some x -> aget l (Z.of_nat j) = Some x) by (intros l x Hx; unfold aget; replace (_ <? 0) with false by lia; by rewrite Nat2Z.id).
    apply wp_bind. eapply wp_of_opt; [by apply Hg|]. apply wp_bind. eapply wp_of_opt; [by apply Hg|]. apply wp_bind.
    eapply wp_put_cell; [exact Ev|unfold copied; fld; rewrite length_over; rewrite ?length_fmap; lia|unfold copied; fld; rewrite length_over; rewrite ?length_fmap; lia|].
    assert (Hnext : copied j cells v <| row := <[j := u8 c.1]> (row (copied j cells v)) |> <| attributes := <[j := u8 c.2]> (attributes (copied j cells v)) |> = copied (S j) cells v).
    { unfold copied. fld. replace (u8 c.1) with c.1 by (symmetry; apply Z.mod_small; lia). replace (u8 c.2) with c.2 by (symmetry; apply Z.mod_small; lia).
      rewrite !over_next by (rewrite ?list_lookup_fmap, ?Hcj; (done || lia)). done. }
    rewrite Hnext. replace (Z.of_nat j + 1) with (Z.of_nat (S j)) by lia. eapply IH; [lia|lia|by rewrite lookup_insert_ne|by rewrite lookup_insert_eq|]. by rewrite insert_insert_eq.
Qed.

Lemma wp_put_chr l n j c (Q : () -> curse -> Prop) h : h !! l = Some n -> (j < length (row n))%nat -> Q tt (st s (<[l := n <| row := <[j := c]> (row n) |>]> h) ws) ->
  wp (put_chr (Some l) (Z.of_nat j) c) Q X (st s h ws).
Proof. intros E Hj H. unfold put_chr. apply wp_bind. eapply wp_at_line; [exact E|]. apply wp_bind. eapply wp_of_opt; [apply aset_in; lia|]. rewrite Nat2Z.id. by eapply wp_set_line. Qed.

(** The line of the virtual screen after the copy is the text of the line of the window. *)
Lemma text_copied v v' cells : length (row v) = S nc -> length (attributes v) = S nc -> (length cells <= nc)%nat -> printed cells ->
  row v' = <[length cells := 0]> (fill (length cells) (nc - length cells) 32 (over (length cells) (cells.*1) (row v))) ->
  attributes v' = fill (length cells) (nc - length cells) 0 (over (length cells) (cells.*2) (attributes v)) -> text nc v' cells.
Proof.
  intros Hr Ha Hl Hp Hrow Hatt. assert (Hov : forall (l : bytes) l', length l = length cells -> length l' = S nc -> length (over (length cells) l l') = S nc /\ take (length cells) (over (length cells) l l') = l).
  { intros l l' H1 H2. split; [rewrite length_over; lia|]. unfold over. rewrite take_app_length' by (rewrite length_take; lia). apply take_ge. lia. }
  assert (Hfill : forall (l : bytes) d, length l = S nc -> length (fill (length cells) (nc - length cells) d l) = S nc /\ take (length cells) (fill (length cells) (nc - length cells) d l) = take (length cells) l).
  { intros l d H1. split; [rewrite length_fill; lia|]. unfold fill. apply take_app_length'. rewrite length_take. lia. }
  destruct (Hov (cells.*1) (row v)) as [H1 H2]; [by rewrite length_fmap|done|]. destruct (Hov (cells.*2) (attributes v)) as [H3 H4]; [by rewrite length_fmap|done|].
  destruct (Hfill _ 32 H1) as [H5 H6]. destruct (Hfill _ 0 H3) as [H7 H8]. constructor; rewrite ?Hrow, ?Hatt, ?length_insert; try done.
  - by rewrite take_insert_ge, H6, H2 by lia.
  - by rewrite H8, H4.
  - apply list_lookup_insert_eq. lia.
Qed.
End Lines.

(** ** The lines of a window *)

(** The rows of the virtual screen with the first [i] lines of a window at row [r]. *)
Definition placed (r i : nat) (cont rows : list (list cell)) : list (list cell) := take r rows ++ take i cont ++ drop (r + i) rows.

Lemma lookup_placed r i cont rows j : (r + i <= length rows)%nat -> (i <= length cont)%nat ->
  placed r i cont rows !! j = if bool_decide (r <= j < r + i)%nat then cont !! (j - r)%nat else rows !! j.
Proof.
  intros H1 H2. unfold placed. destruct (decide (j < r)%nat).
  - rewrite bool_decide_eq_false_2 by lia. by rewrite lookup_app_l, lookup_take_lt by (rewrite ?length_take; lia).
  - rewrite lookup_app_r by (rewrite length_take; lia). rewrite length_take, Nat.min_l by lia. destruct (decide (j < r + i)%nat).
    + rewrite bool_decide_eq_true_2 by lia. by rewrite lookup_app_l, lookup_take_lt by (rewrite ?length_take; lia).
    + rewrite bool_decide_eq_false_2 by lia. rewrite lookup_app_r by (rewrite length_take; lia). rewrite length_take, lookup_drop. f_equal. lia.
Qed.

Section Refresh.
Context (s : curse) (ws : gmap nat WINDOW) (X : Z -> bytes -> curse -> Prop) (nc : nat).
Context (W V : WINDOW) (again : bool) (r : nat) (ids vids : list nat) (cont rows : list (list cell)) (h0 : gmap nat sline).
Context (HSR : SR W = Z.of_nat r) (HSC : SC W = 0) (HWc : Num_cols W = Z.of_nat nc) (HVc : Num_cols V = Z.of_nat nc) (HVl : Num_lines V = Z.of_nat (length vids)).
Context (Hfit : (r + length cont <= length vids)%nat) (Hids : length ids = length cont) (Hrows : length rows = length vids) (Hvnd : NoDup vids) (Hdis : forall l, l ∈ ids -> l ∉ vids).
Context (Hcopy : again = false \/ truth (Z.land (Z.lor SCROLL CLEAR) (SCROLL_CLEAR W)) = true).
Context (Hiseg : seg h0 None ids None) (Hvseg : seg h0 None vids None) (Hprinted : Forall printed cont).
Context (Hlines : Forall2 (fun l c => exists n, h0 !! l = Some n /\ line_ok nc n c) ids cont).

(** After [i] lines. *)
Record refreshed (i : nat) (h : gmap nat sline) : Prop := {
  rf_links : links h0 h;
  rf_off : off vids h0 h;
  rf_text : forall j q cells, vids !! j = Some q -> placed r i cont rows !! j = Some cells -> exists v, h !! q = Some v /\ text nc v cells;
}.

Lemma refreshed_next i h c q v v' : refreshed i h -> (i < length cont)%nat -> cont !! i = Some c -> vids !! (r + i)%nat = Some q -> h !! q = Some v -> text nc v' c ->
  next_screen v' = next_screen v -> prev_screen v' = prev_screen v -> refreshed (S i) (<[q := v']> h).
Proof.
  intros [Hl Ho Ht] Hi Hc Hq Ev Hv' Hn Hp. constructor.
  - eapply links_trans; [exact Hl|]. by eapply links_insert.
  - eapply off_trans; [exact Ho|]. by eapply off_insert, list_elem_of_lookup_2.
  - intros j q' cells Hq' Hcells. rewrite lookup_placed in Hcells by lia. destruct (decide (j = r + i)%nat) as [->|Hj].
    + rewrite bool_decide_eq_true_2 in Hcells by lia. replace (r + i - r)%nat with i in Hcells by lia. simplify_eq. exists v'. by rewrite lookup_insert_eq.
    + destruct (Ht j q' cells Hq') as (v2 & E2 & Ht2).
      { rewrite lookup_placed by lia. revert Hcells. do 2 case_bool_decide; (done || lia). }
      exists v2. split; [|done]. rewrite lookup_insert_ne; [done|]. intros <-. apply Hj. by apply (NoDup_lookup vids j (r + i) q).
Qed.

Lemma wp_refresh_lines k : forall i h (Q : () -> curse -> Prop), (i + k = length cont)%nat -> refreshed i h -> (forall h', refreshed (length cont) h' -> Q tt (st s h' ws)) ->
  wp (refresh_lines k W V again (Z.of_nat i) (head_or (drop i ids) None) (head_or (drop (r + i) vids) None)) Q X (st s h ws).
Proof.
  induction k as [|k IH]; intros i h Q Hk Hrf H; cbn [refresh_lines].
  { apply wp_ret, H. by replace (length cont) with i by lia. }
  rewrite HSR, HVl. replace (_ <? _) with true by lia. destruct (lookup_lt_is_Some_2 cont i) as [c Hc]; [lia|].
  destruct (Forall2_lookup_r _ _ _ _ _ Hlines Hc) as (l & Hl & u & Eu0 & Hu). destruct (lookup_lt_is_Some_2 vids (r + i)) as [q Hq]; [lia|].
  assert (Hlq : l ∉ vids) by (apply Hdis; by eapply list_elem_of_lookup_2). assert (Hne : l <> q) by (intros ->; by apply Hlq; eapply list_elem_of_lookup_2).
  assert (Eu : h !! l = Some u) by (by rewrite (rf_off _ _ Hrf)). destruct (lookup_lt_is_Some_2 (placed r i cont rows) (r + i)) as [old Hold].
  { apply lookup_lt_is_Some_1. rewrite lookup_placed by lia. case_bool_decide; [lia|]. apply lookup_lt_is_Some_2. lia. }
  destruct (rf_text _ _ Hrf (r + i)%nat q old Hq Hold) as (v & Ev & Hv). rewrite (head_drop _ _ _ Hl), (head_drop _ _ _ Hq).
  assert (Hp : printed c) by (by apply (proj1 (Forall_lookup _ _) Hprinted i)). pose proof (lo_len _ _ _ Hu) as Hlen. pose proof (lo_last _ _ _ Hu) as Hlast.
  apply wp_bind. eapply wp_at_line; [exact Eu|]. apply wp_bind. replace (_ || _) with true by (destruct Hcopy as [->| ->]; [done|by rewrite orb_true_r]). apply wp_bind. rewrite HVc, HSC. change 0 with (Z.of_nat 0) at 1 2.
  eapply (wp_copy_text _ _ _ nc l q u v c); [done|done|done|apply (tx_row _ _ _ Hv)|apply (tx_att _ _ _ Hv)|rewrite Nat.add_0_l; reflexivity|rewrite (lo_row _ _ _ Hu); lia|exact Eu| |].
  { rewrite Ev. f_equal. unfold copied, over. cbn [take drop app]. by rewrite !take_0, !drop_0; destruct v. }
  assert (Hlo : length (over (length c) (c.*1) (row v)) = S nc /\ length (over (length c) (c.*2) (attributes v)) = S nc).
  { split; rewrite length_over; rewrite ?length_fmap, ?(tx_row _ _ _ Hv), ?(tx_att _ _ _ Hv); lia. }
  rewrite HWc, Hlast. replace (Z.to_nat (Z.min _ _)) with (nc - length c)%nat by lia. rewrite Z.add_0_l.
  eapply wp_blank_cells; [by rewrite lookup_insert_eq|unfold copied; fld; lia|unfold copied; fld; lia|]. rewrite insert_insert_eq. apply wp_bind. unfold virtual_end. apply wp_bind.
  rewrite HVc, HWc, Z.eqb_refl, Hlast. cbn [negb]. eapply wp_set_line; [by rewrite lookup_insert_eq|]. rewrite insert_insert_eq. apply wp_bind. eapply wp_at_line; [by rewrite lookup_insert_eq|]. fld.
  eapply wp_put_chr; [by rewrite lookup_insert_eq|unfold copied; fld; rewrite length_fill; lia|]. rewrite insert_insert_eq. apply wp_bind. eapply wp_set_line; [by rewrite lookup_insert_eq|].
  rewrite insert_insert_eq. match goal with |- wp _ _ _ (st _ (<[q := ?n]> _) _) => set (v' := n) end. assert (Hn' : refreshed (S i) (<[q := v']> h)).
  { eapply (refreshed_next i h c q v); [done|lia|done|done|done| |by unfold v', copied; fld|by unfold v', copied; fld]. apply (text_copied nc v); try done; [apply (tx_row _ _ _ Hv)|apply (tx_att _ _ _ Hv)|by unfold v', copied; fld..]. }
  apply wp_bind. eapply wp_at_line; [by rewrite lookup_insert_eq|]. rewrite (seg_at _ _ _ _ _ _ _ Hiseg Hl Eu0).
  assert (Hvs : seg (<[q := v']> h) None vids None) by (eapply seg_links; [apply (rf_links _ _ Hn')|done]). rewrite (seg_at _ _ _ _ _ _ _ Hvs Hq (lookup_insert_eq _ _ _)).
  replace (Z.of_nat i + 1) with (Z.of_nat (S i)) by lia. replace (S (r + i))%nat with (r + S i)%nat by lia. apply IH; [lia|done|done].
Qed.
End Refresh.

(** ** The whole window *)

Section Whole.
Context {cpm : spec_float} {tb : info} {nl nc : nat} {T : Type} `{!Display cpm tb nl nc T} (t0 : T) (X : Z -> bytes -> curse -> Prop).

(** A window of the full width, its lines apart from those of the two screens, that has something to show. *)
Record shown_window (s : curse) (w : nat) (W : WINDOW) (cids vids ids : list nat) (r : nat) (a : screen) : Prop := {
  sw_window : windows s !! w = Some W;
  sw_shows : shows nc (lines s) W ids a;
  sw_row : SR W = Z.of_nat r;
  sw_col : SC W = 0;
  sw_fit : (r + length (content a) <= nl)%nat;
  sw_apart : forall l, l ∈ ids -> l ∉ cids ++ vids;
  sw_virtual : w <> virtual_scr s;
  sw_current : w <> curscr s;
  sw_printed : Forall printed (content a);
  sw_new : last_window_refreshed s <> Some w \/ 1 <= SCROLL_CLEAR W <= 3;
}.

(** The virtual screen with the window on it. *)
Definition virtual_of (V W : WINDOW) : WINDOW :=
  V <| SCROLL_CLEAR := SCROLL_CLEAR W |> <| LX := LX W + SC W |> <| LY := LY W + SR W |> <| scroll_up := scroll_up W |> <| scroll_down := scroll_down W |>.
Definition window_of (W : WINDOW) : WINDOW := W <| SCROLL_CLEAR := 0 |> <| scroll_up := 0 |> <| scroll_down := 0 |>.

Lemma screens_apart s V Cw cids vids rows : screens t0 s V Cw cids vids rows -> (0 < nl)%nat -> curscr s <> virtual_scr s.
Proof.
  intros [_ _ _ _ HV HC _ (H1 & H2) (L1 & L2 & _) _ Hap _] Hnl E. rewrite E, HV in HC. injection HC as <-. rewrite H1 in H2.
  destruct cids as [|c cids]; [cbn in L1; lia|]. destruct vids as [|v vids]; [cbn in L2; lia|]. injection H2 as <-. apply (Hap c); set_solver.
Qed.

Lemma wp_wnoutrefresh s V Cw cids vids rows w W ids r a (Q : () -> curse -> Prop) : screens t0 s V Cw cids vids rows -> shown_window s w W cids vids ids r a ->
  (forall s', screens t0 s' (virtual_of V W) Cw cids vids (placed r (length (content a)) (content a) rows) -> windows s' = <[w := window_of W]> (<[virtual_scr s := virtual_of V W]> (windows s)) ->
     off vids (lines s) (lines s') -> virtual_scr s' = virtual_scr s -> curscr s' = curscr s -> last_window_refreshed s' = Some w -> Q tt s') -> wp (wnoutrefresh w) Q X s.
Proof.
  intros Hsc [HW Hsh HSR HSC Hfit Hap Hwv Hwc Hpr Hnew] H. pose proof Hsc as [Hok Hal Hst Hsheet HV HC (HVR & HVC & Hcols & Hrows) (Hf1 & Hf2) (L1 & L2 & L3) (N1 & N2) Hcv (Ht1 & Ht2)].
  pose proof Hsh as [Hnl Hnc Hlen Hnd Hfirst Hseg Hlines _ Hx Hy _ Hcx Hcy]. assert (Hvc : curscr s <> virtual_scr s) by (eapply screens_apart; [exact Hsc|lia]).
  assert (E0 : s = st s (lines s) (windows s)) by (by destruct s). eapply (eq_ind_r (fun g => wp _ _ _ g)); [|exact E0]. unfold wnoutrefresh. apply wp_bind, wp_read. change (virtual_scr (st _ _ _)) with (virtual_scr s). set (vs := virtual_scr s) in *.
  apply wp_bind. eapply wp_win; [exact HW|]. apply wp_bind. eapply wp_win; [exact HV|]. replace (_ <=? _) with false by lia. apply wp_bind. eapply wp_updw; [exact HV|].
  match goal with |- wp _ _ _ (st _ _ (<[_ := ?n]> _)) => change n with (virtual_of V W) end.
  apply wp_bind, wp_read. change (last_window_refreshed (st _ _ _)) with (last_window_refreshed s). set (again := bool_decide _).
  assert (Hag : again = false \/ 1 <= SCROLL_CLEAR W <= 3) by (destruct Hnew as [Hn|]; [left; by apply bool_decide_eq_false_2|by right]).
  replace (again && _) with false by (destruct Hag as [->|]; [done|by destruct again; lia]). apply wp_bind. rewrite HSR, Nat2Z.id, Hf2.
  destruct (lookup_lt_is_Some_2 vids r) as [q Hq]; [lia|]. assert (Hsplit : vids = take r vids ++ q :: drop (S r) vids) by (by rewrite take_drop_middle). rewrite Hsplit at 1.
  replace r with (length (take r vids)) at 1 by (rewrite length_take; lia). eapply wp_walk; [rewrite <- Hsplit; apply (sh_v _ _ _ _ _ _ _ _ _ _ _ _ Hsheet)|]. apply wp_bind.
  rewrite Hnl, Nat2Z.id, Hfirst, <- (head_drop vids r q Hq). change 0 with (Z.of_nat 0) at 1. rewrite <- (drop_0 ids) at 1. replace (drop r vids) with (drop (r + 0) vids) by (by rewrite Nat.add_0_r).
  eapply (wp_refresh_lines s _ X nc W V again r ids vids (content a) rows (lines s)); try done; [by rewrite L2|lia|by rewrite L3|intros l Hl Hin; apply (Hap l Hl), elem_of_app; by right| |apply (sh_v _ _ _ _ _ _ _ _ _ _ _ _ Hsheet)| |].
  { destruct Hag as [->|Hr]; [by left|right]. assert (Hc : SCROLL_CLEAR W = 1 \/ SCROLL_CLEAR W = 2 \/ SCROLL_CLEAR W = 3) by lia. by destruct Hc as [->|[->| ->]]. }
  { constructor; [apply links_refl|apply off_refl|]. intros j q' cells Hq' Hc. unfold placed in Hc. rewrite Nat.add_0_r in Hc. cbn [take app] in Hc. rewrite take_0 in Hc. cbn [app] in Hc. rewrite take_drop in Hc.
    destruct (lookup_lt_is_Some_2 cids j) as [p Hp]; [apply lookup_lt_Some in Hq'; lia|]. destruct (sh_at _ _ _ _ _ _ _ _ _ _ _ _ Hsheet j p q' cells Hp Hq' Hc) as (n & v & _ & Ev & _ & Hv & _). by exists v. }
  intros h' [Hlk Hoff Htext]. apply wp_bind. eapply wp_updw; [rewrite lookup_insert_ne by done; exact HW|]. apply wp_modify.
  assert (Hlp : length (placed r (length (content a)) (content a) rows) = nl) by (unfold placed; rewrite !length_app, !length_take, length_drop; lia).
  apply H; try done. constructor; try done; rewrite ?Hlp; try done.
  - destruct Hok. constructor; try done.
  - destruct Hal. constructor; done.
  - destruct Hsheet as [S1 S2 _ Sat]. constructor; [by eapply seg_links|by eapply seg_links|apply off_refl|]. intros j p q' cells Hp Hq' Hc. destruct (Htext j q' cells Hq' Hc) as (v & Ev & Hv).
    destruct (lookup_lt_is_Some_2 rows j) as [old Hold]; [apply lookup_lt_Some in Hq'; lia|]. destruct (Sat j p q' old Hp Hq' Hold) as (n & v0 & En & _ & Hg & _ & Hrow & _). exists n, v. split_and!; try done; [|lia].
    cbn. rewrite Hoff; [done|]. apply Hcv. by eapply list_elem_of_lookup_2.
  - cbn. rewrite lookup_insert_ne by done. by rewrite lookup_insert_eq.
  - cbn. by rewrite !lookup_insert_ne by done.
Qed.

Lemma screens_virtual s V V' Cw cids vids rows : screens t0 s V Cw cids vids rows -> curscr s <> virtual_scr s -> SR V' = SR V -> SC V' = SC V -> Num_cols V' = Num_cols V -> Num_lines V' = Num_lines V ->
  first_line V' = first_line V -> screens t0 (s <| windows := <[virtual_scr s := V']> (windows s) |>) V' Cw cids vids rows.
Proof.
  intros [Hok Hal Hst Hsheet HV HC Hpl Hf Hl Hn Hcv Ht] Hne H1 H2 H3 H4 H5. constructor; rewrite ?H1, ?H2, ?H3, ?H4, ?H5; try done.
  - destruct Hok. by constructor.
  - destruct Hal. by constructor.
  - destruct Hsheet. by constructor.
  - apply lookup_insert_eq.
  - cbn. by rewrite lookup_insert_ne.
Qed.

Lemma shows_off h h' W W' ids a : shows nc h W ids a -> (forall l, l ∈ ids -> h' !! l = h !! l) -> Num_lines W' = Num_lines W -> Num_cols W' = Num_cols W -> first_line W' = first_line W ->
  line_array W' = line_array W -> LX W' = LX W -> LY W' = LY W -> Attrib W' = Attrib W -> shows nc h' W' ids a.
Proof.
  intros [] Ho H1 H2 H3 H4 H5 H6 H7. constructor; rewrite ?H1, ?H2, ?H3, ?H4, ?H5, ?H6, ?H7; try done.
  - clear -sh_seg0 Ho. revert sh_seg0. generalize (@None nat) at 1 3 as p. induction ids as [|l ids IH]; intros p; cbn [seg]; [done|]. intros [(n & E & Hn) Hs]. split.
    + exists n. rewrite Ho by set_solver. done.
    + apply IH; [|done]. intros x Hx. apply Ho. set_solver.
  - apply Forall2_same_length_lookup in sh_lines0 as [Hl Hat]. apply Forall2_same_length_lookup. split; [done|]. intros i x y Hx Hy. destruct (Hat i x y Hx Hy) as (n & E & Hn).
    exists n. split; [|done]. rewrite Ho; [done|by eapply list_elem_of_lookup_2].
Qed.

Lemma wp_wrefresh s V Cw cids vids rows w W ids r a (Q : () -> curse -> Prop) : screens t0 s V Cw cids vids rows -> shown_window s w W cids vids ids r a -> plain (tb := tb) ->
  (forall s' V' W', screens t0 s' V' Cw cids vids (placed r (length (content a)) (content a) rows) -> displays (feed (output s') t0) (placed r (length (content a)) (content a) rows) ->
     cursor (feed (output s') t0) = (r + cy a, cx a)%nat -> windows s' !! w = Some W' -> shows nc (lines s') W' ids a -> Q tt s') -> wp (wrefresh w) Q X s.
Proof.
  intros Hsc Hsw Hp H. unfold wrefresh. apply wp_bind. eapply wp_wnoutrefresh; [exact Hsc|exact Hsw|]. intros s1 Hsc1 Hw1 Ho1 Hv1 Hc1 _.
  destruct Hsw as [HW Hsh HSR HSC Hfit Hap Hwv Hwc Hpr Hnew]. pose proof (sh_cy _ _ _ _ _ Hsh) as Hcy. pose proof (sh_cx _ _ _ _ _ Hsh) as Hcx. apply wp_bind.
  eapply (wp_update t0 s1 _ _ _ _ _ (r + cy a) (cx a)); [exact Hsc1|exact Hp| | |lia|lia|].
  { unfold virtual_of. fld. rewrite (sh_y _ _ _ _ _ Hsh), HSR. lia. }
  { unfold virtual_of. fld. rewrite (sh_x _ _ _ _ _ Hsh), HSC. lia. }
  intros s2 Hsc2 Hw2 Hv2 Ho2 Hdisp Hcur. apply wp_bind, wp_read. pose proof (sc_virtual _ _ _ _ _ _ _ Hsc2) as HV2. unfold updw. apply wp_bind. unfold win. apply wp_bind, wp_read. eapply wp_of_opt; [exact HV2|].
  apply wp_modify. assert (Hne : curscr s2 <> virtual_scr s2) by (eapply screens_apart; [exact Hsc2|lia]). eapply (H _ _ (window_of W)); [|exact Hdisp|exact Hcur| |].
  - eapply screens_virtual; [exact Hsc2|done|by fld..].
  - cbn. rewrite lookup_insert_ne by (by rewrite Hv2, Hv1). by rewrite Hw2, Hw1, lookup_insert_eq.
  - cbn. eapply shows_off; [exact Hsh| |by unfold window_of; fld..]. intros l Hl. rewrite (Ho2 l (Hap l Hl)). apply Ho1. intros Hin. apply (Hap l Hl), elem_of_app. by right.
Qed.

End Whole.

Section Refreshed.
Context {cpm : spec_float} {tb : info} {nl nc : nat} {T : Type} `{!Display cpm tb nl nc T} (t0 : T).

End Refreshed.

(** The window of the example, with a line of one character. *)
Definition demo_screen : screen := Screen [[(120, 0)]] 0 1 0.

Lemma demo_shown : shown_window (nl := 2) (nc := 4) demo_state 12 demo_win [0%nat; 1%nat] [2%nat; 3%nat] [4%nat] 1 demo_screen.
Proof.
  constructor; try reflexivity; try discriminate; try (cbn; lia).
  - constructor; try reflexivity; try (cbn; lia).
    + apply NoDup_singleton.
    + cbn [seg head_or]. split; [|done]. eexists. split; [reflexivity|done].
    + constructor; [|constructor]. eexists. split; [reflexivity|]. by constructor; cbn; (lia || done).
  - set_solver.
  - repeat constructor; cbn; (lia || done).
Qed.


(** The lines of curscr from the first one on. *)
Fixpoint order (k : nat) (p : option nat) : C (list (option nat)) :=
  match k with
  | O => ret []
  | S k => bind (node p) (fun n => bind (order k (next_screen n)) (fun l => ret (p :: l)))
  end.

(** Delete_line scrolls the first of three lines away down to the last line: the line is put
    before the last one, while the terminal has it after that. *)
Definition scroll_three : C (list (option nat)) :=
  bind (newwin 3 4 0 0) (fun w => bind (sets curscr w) (fun _ => bind (Delete_line 0 2 w) (fun _ => bind (win w) (fun W => order 3 (first_line W))))).

Example delete_to_bottom : match scroll_three terminal0 with SRet l _ => l = [Some 1%nat; Some 0%nat; Some 2%nat] | _ => False end.
Proof. vm_compute. reflexivity. Qed.
End CurseRefresh.
